(* ===== verification/_CoqProject ===== *)
-Q . S2P
Prelude.v
Effects.v
GoStrings.v
GoTime.v
Identifiers.v
Problems.v
Workers.v
AttemptStates.v
AttemptRuns.v
Attempts.v
Operations.v
DomainRecords.v
DomainProps.v
GoSha256.v
GoJson.v
JsonRead.v
Canonical.v
JsonText.v
JsonPrint.v
Provider.v
ProviderResources.v
Admission.v
CanonicalProps.v
JsonWire.v
Auth.v
AuthProps.v
Retention.v
RetentionProps.v
ControlOps.v
ExecutionAuth.v
SecretPool.v
Services.v
ProviderProps.v
SecretProps.v
Transfer.v
Scheduler.v
HostHealth.v
HostHealthProps.v
SchedulerProps.v
Journal.v
JournalLemmas.v
ControlProps.v
RunnerPlan.v
Collection.v
CollectionProps.v
CollectionEngine.v
CollectProps.v
HostStorage.v
Cleanup.v
CleanupProps.v
ServiceProps.v
Inputs.v
Session.v
Engine.v
Apply.v
ApplyLemmas.v
ApplyProps.v
ApplyEvidence.v
ApplyClosed.v
DispatchRuns.v
SessionProtocol.v
EngineProps.v
QueueScenario.v
Scenario.v
EngineScenario.v
StoreTx.v
JobRetries.v
WorkLeases.v
WorkLeaseProps.v
CacheLedger.v
StorageDeletion.v
CacheLedgerProps.v
HostImages.v
HostImageProps.v
StorageAccount.v
StorageAccountProps.v
StorageEviction.v
StorageEvictionProps.v
StorageView.v
StoreScenario.v
