(* ===== verification/Prelude.v ===== *)
(** * Compute Relay: a verification development

    Compute Relay accepts jobs over HTTP, stores them in SQLite, freezes their
    inputs, prepares and starts them once on a compute provider (Kaggle, or a
    host reached over SSH), watches them, collects their results and cleans up
    after them. A start costs money and cannot be taken back, a worker may die
    between any two instructions, and a provider may answer anything. The
    development models the code that has to be right under these conditions
    and proves what it guarantees.

    ** Parts of the program and how they interact

    - [internal/domain] holds the vocabulary: identifiers, problems, the six
      dimensions of an attempt and their transition graphs, operations,
      events.
    - [internal/admission], [internal/jsonwire] and [internal/auth] turn a
      request into an accepted job: strict JSON, a canonical text whose digest
      identifies the request, tokens and workspace scopes.
    - [internal/provider] is the contract between orchestration and a
      provider: frozen plans, preparations, start authorizations, observations
      and verified transfers, each with the validator that is applied before
      orchestration believes anything.
    - [internal/scheduler] chooses the attempt a worker prepares next.
    - [internal/dispatch] is the core: a journal per attempt, [Apply] as the
      function that changes it (the preview of a cleanup may add a preparation
      found late), and an engine whose passes commit an intent to the journal
      before each call that could cost compute.
    - [internal/workloadsecret], [internal/executionauth] and
      [internal/operations] are what owners do to a running attempt.
    - [internal/hosthealth], [internal/hoststorage], [internal/hostcache]
      judge and account for SSH hosts; [internal/collection] and
      [internal/cleanup] finish an attempt; [internal/retention] lets stored
      bytes expire.
    - [internal/store/sqlite] implements the repositories of all of these in
      transactions; [internal/worker] is the loop that runs the engines under
      fenced leases.

    ** Files

    Foundations. [Prelude]: results, record updates, machine integers,
    tactics. [Effects]: trees of calls, their runs, monitors. [GoStrings],
    [GoTime], [GoSha256], [GoJson], [JsonRead]: what the code uses of Go's
    library, with [JsonText] and [JsonPrint] (what is printed is read back).

    Domain ([internal/domain]). [Identifiers] (id.go), [Problems] (errors.go),
    [AttemptStates] (state_types.go, attempt_state.go, transition.go),
    [AttemptRuns], [Attempts] (job_attempt.go), [Operations]
    (operation_event.go), [DomainRecords] (capability.go, object.go,
    progress), [DomainProps]; [Workers] ([internal/worker]).

    Requests. [Canonical], [CanonicalProps], [Admission]
    ([internal/admission]), [JsonWire], [Auth], [AuthProps], [ControlOps],
    [ControlProps] ([internal/operations]), [ExecutionAuth], [Services] (the
    methods of the operations, admission, executionauth, objects, joblogs and
    workloadsecret services), [SecretPool], [SecretProps]
    (workloadsecret/pool.go); [ServiceProps] (all these services and those of
    collection, retention, cleanup and hosthealth, for their callers).

    Providers. [Provider], [ProviderResources], [ProviderProps], [Transfer]
    ([internal/provider]), [RunnerPlan] (reading the manifest of a runner).

    Dispatch. [Scheduler], [SchedulerProps]; [Journal], [JournalLemmas]
    (dispatch/model.go); [Inputs] (inputs.go); [Apply], [ApplyLemmas],
    [ApplyProps], [ApplyEvidence], [ApplyClosed] (transition.go);
    [DispatchRuns] (the stored journal over the life of an attempt);
    [Session], [Engine], [SessionProtocol], [EngineProps] (engine.go,
    cancellation.go); played examples in [QueueScenario], [Scenario],
    [EngineScenario].

    Hosts, results and cleanup. [HostHealth], [HostHealthProps];
    [Collection], [CollectionProps] (model.go, manifest.go),
    [CollectionEngine], [CollectProps] (engine.go, batch.go, progress.go,
    reader.go, with played collections); [HostStorage], [Cleanup],
    [CleanupProps]; [Retention], [RetentionProps].

    Store ([internal/store/sqlite]). [StoreTx] (clock.go, store.go),
    [JobRetries] (the attempts of a job and the admission of a retry;
    operations_admission.go), [WorkLeases], [WorkLeaseProps] (work_lease.go), [CacheLedger]
    (the tables of hosts; host_cache.go, storage_fence.go and the commits of
    storage_reservations.go), [StorageDeletion] (storage_cleanup_work.go),
    [CacheLedgerProps]; [HostImages], [HostImageProps]
    (host_application_image.go, image_bounds.go); [StorageAccount],
    [StorageAccountProps] (scans and the charge of storage_account.go,
    storage_budget_gate.go, the releases of storage_reservations.go);
    [StorageEviction], [StorageEvictionProps] (storage_eviction.go,
    storage_cleanup_admission.go, the orphans of storage_view.go);
    [StorageView] (storage_view.go, [ConnectionStorage]); played histories in
    [StoreScenario].

    ** What the theorems show

    - Compute is started once: [attempt_calls_once] over all sessions of an
      attempt, crashes included; [process_protocol] (the engine refines an
      abstract protocol machine) and [session_effects]; [run_one_start],
      [run_remote_provenance], [run_rejected], [run_capacity] over every
      interleaving of commits of the engine, of operations and of other
      components; [retry_settled] for the attempts of a job: of all of them at
      most one can have remote work.
    - The journal: [Apply_invariant], [Apply_no_panic], [Apply_observation],
      and [Apply_closed_text] (no foreign text is recorded).
    - Scheduling: [Select_capacity], [Select_no_starvation].
    - Exclusive ownership: [lease_exclusive] for workers that race on a lease
      while transactions fail and the wall clock jumps; [exclusive_writer] and
      [evict_unpinned] for cached content on hosts; [image_load_once] for
      images, with [late_load_granted] (a lease compared as text).
    - Space on hosts: [charge_covers] (a host is charged for at least what was
      seen on it), [admission_within_budget] (what is admitted stays below
      every limit), [evictions_minimal] (only idle objects are evicted, and no
      more than needed).
    - Results: [CopyVerified_sound] and [CopyVerified_complete],
      [snapshot_sound], [snapshot_revalidates], [final_state], [collect_safe].
    - Destruction: [cleanup_safe], [sweep_safe], [assess_exact].
    - Who may act: [services_authorized], for each modelled service that
      serves a caller; secrets: [pool_run_wiped], [Claim_once].
    - Health of hosts: [stop_exact], [fresh_reobserved].
    - Requests and records: [Parse_fixed] (two requests have the same
      digest exactly when they say the same), [state_validators_spec] (the
      transition tables against the intended moves), [no_false_success], [InputSnapshot_layout], and [failuresEqual_blank]
      (a defect of the comparison of failures).

    ** How code is modelled

    Data. A string enumeration is an inductive type with one constructor per
    constant and one for any other text. Machine integers are [Z] with the
    wrap-around or the bound written out. A [time.Time] is a [Z] of
    nanoseconds in UTC and [Time.Sub] saturates. [float64] is the binary64 of
    [SpecFloat]. Nil and empty slices or maps differ where JSON or a digest
    can see it. [strings.ToLower] and [ToUpper] act on ASCII, which is what
    the callers pass. SHA-256, HMAC, base64 and the reading and printing of
    JSON are computed; only the printing of floating point numbers is a
    parameter ([json_snapshot] in [HostHealth]). The copy of a journal through
    JSON is the fieldwise function [reload].

    Errors. An error is its format text with its arguments and what it wraps;
    sentinels are recognised by their text. A value returned beside an error
    is dropped. A panic is explicit where the code can panic ([Apply]) or
    where it recovers ([None] as the answer of a call under [recover]).

    Effects. A service that talks to repositories, providers, contexts and
    clocks is a finite tree of calls ([Effects.prog]). Safety theorems
    quantify over every run of the tree, cut anywhere, for any answers of the
    environment, and say that a monitor accepts the run. Theorems that need a
    promise of the environment name it: [honest] says that the journals a
    repository loads are valid and that what it commits is what [Apply]
    computed. Waits, goroutines and heartbeats appear as the calls through
    which the code learns of them. Code under a mutex is one atomic step, and
    any order of steps is considered ([hreach] in [HostHealthProps]).

    Store. A statement is a function on tables (finite maps or lists) with the
    keys, checks and triggers of the schema as part of the statement. An error
    rolls back. A transaction may commit, fail, or end with an unknown
    outcome, kept or not ([write_end]). Random identifiers are arguments. An
    integer column compared with a text is compared in decimal form.

    Shared memory. The secret pool holds addresses into a store of value maps,
    so that wiping one alias is visible through the others. The JSON text that
    secrets arrive in, and its clearing, are not part of that store; clearing a
    map is one step that leaves it empty.

    ** Parameters

    The JSON schema library ([schema] in [Admission] and [RunnerPlan]), the
    reader, writer and context of [CopyVerified], persistence callbacks of the
    secret pool, and what other tables say to the modelled statements:
    [container_known] and [attempt_containers] (containers named by the
    resources of attempts), [connection_budgets], [deadlines], the frozen
    target and budget of a profile, the actor of a request and the place a
    connection resolves to. [over_budget] of the ledger stands for the check
    that [replacement_over_budget] of [StorageAccount] implements.

    ** Bounds and fuel

    [io_Copy] has the fuel [read_measure] of its reader, which every read
    decreases ([CopyVerified_complete]). The JSON reader has fuel twice the
    length of its text plus one, enough for every printed text
    ([JsonPrint.read_printed]). [Refresh] of host health has as fuel the turns
    a caller is willing to wait. Nothing else needs fuel.

    ** Not modelled

    The rest of the SQLite store (joins over the tables of jobs, operations,
    collections, tokens and connections, and the query of retention
    deadlines); adapters to
    Kaggle and SSH, whose behaviour is that of foreign commands and HTTP
    services; connections and the watchdog of hosts ([internal/connections],
    [internal/hostwatchdog]); archives, images, blob and file-system code, whose correctness
    is that of tar, zip and atomic renames; HTTP handlers, the command line,
    process wiring and developer tools; the text forms of
    hoststorage/runtime.go and of the policy in a runtime revision. Timers and
    the scheduling of goroutines are outside. *)

(** Prelude: shared notation, the result type, record updates, machine
    integers, tactics and generic lemmas. *)

From Stdlib Require Export Ascii.
From stdpp Require Export base tactics strings gmap list sorting fin_maps.
From Stdlib Require Export ZArith Lia.

#[global] Set Default Goal Selector "!".
#[global] Open Scope Z_scope.

(** ** Notations

    [==?] is Go's [==] on comparable values, decided by the [EqDecision]
    instance of the type. *)
Declare Scope relay_scope.
Delimit Scope relay_scope with relay.
#[global] Open Scope relay_scope.

Notation "x ==? y" := (bool_decide (x = y)) (at level 70, no associativity) : relay_scope.
Notation "x <>? y" := (negb (bool_decide (x = y))) (at level 70, no associativity) : relay_scope.

(** ** Results

    A Go function returning [(T, error)] is a [result]; one returning only
    [error] is an [option]: [None] is the nil error. *)
Inductive result (E A : Type) : Type :=
  | Ok (a : A)
  | Err (e : E).
Arguments Ok {E A} a.
Arguments Err {E A} e.

Definition is_ok {E A} (r : result E A) : bool :=
  match r with Ok _ => true | Err _ => false end.

(** [err == nil] of a Go error value. *)
Definition nil_error {E} (e : option E) : bool :=
  match e with None => true | Some _ => false end.

(** [x != nil] of a Go pointer. *)
Definition not_nil {A} (p : option A) : bool :=
  match p with Some _ => true | None => false end.

Definition is_nil {A} (p : option A) : bool := negb (not_nil p).

Definition result_bind {E A B} (r : result E A) (k : A -> result E B) : result E B :=
  match r with Ok a => k a | Err e => Err e end.

(** [if c { return err }] in a function returning [error]. *)
Notation "'reject' c 'with' e ;; k" :=
  (if c then Some e else k)
    (at level 90, c at level 99, e at level 99, k at level 200, right associativity) : relay_scope.
(** [if err := e; err != nil { return f err }]. *)
Notation "'propagate' e 'as' f ;; k" :=
  (match e with Some err => Some (f err) | None => k end)
    (at level 90, e at level 99, f at level 99, k at level 200, right associativity) : relay_scope.
(** A block of checks followed by the rest of the function. *)
Notation "'check' e ;; k" :=
  (match e with Some err => Some err | None => k end)
    (at level 90, e at level 99, k at level 200, right associativity) : relay_scope.
(** [if c { return zero, err }] in a function returning a value and an error. *)
Notation "'throw' c 'with' e ;; k" :=
  (if c then Err e else k)
    (at level 90, c at level 99, e at level 99, k at level 200, right associativity) : relay_scope.
Notation "'do' x <- r ;; k" :=
  (result_bind r (fun x => k))
    (at level 90, x binder, r at level 99, k at level 200, right associativity) : relay_scope.

(** ** Record update

    [r <| f := v |>] is the assignment [r.f = v] on a copy of [r]. *)
Class Setter {R T : Type} (proj : R -> T) := set_field : (T -> T) -> R -> R.
Arguments set_field {R T} proj {_} f r.
Notation "r <| p := v |>" := (set_field p (fun _ => v) r)
  (at level 12, left associativity, p at level 10, v at level 99) : relay_scope.

(** ** Machine integers

    A Go [int], [int64], [uint32] or [uint64] is a [Z]; the bounds below say
    where the code depends on the width. *)
Definition MaxInt64 : Z := 2 ^ 63 - 1.
Definition MinInt64 : Z := - 2 ^ 63.
Definition MaxUint64 : Z := 2 ^ 64 - 1.
Definition is_int64 (z : Z) : Prop := MinInt64 <= z <= MaxInt64.
Definition is_uint64 (z : Z) : Prop := 0 <= z <= MaxUint64.
(** Two's complement wrap-around of int64 arithmetic. *)
Definition int64 (z : Z) : Z := (z + 2 ^ 63) `mod` 2 ^ 64 - 2 ^ 63.
Definition uint64 (z : Z) : Z := z `mod` 2 ^ 64.

Lemma int64_id z : is_int64 z -> int64 z = z.
Proof.
  unfold is_int64, int64, MinInt64, MaxInt64. intros H.
  rewrite Z.mod_small; lia.
Qed.

Lemma uint64_id z : is_uint64 z -> uint64 z = z.
Proof. unfold is_uint64, uint64, MaxUint64. intros H. apply Z.mod_small. lia. Qed.

(** ** Enumerations of strings

    A Go enumeration is a string type with named constants: an inductive type
    with one constructor per constant and one for every other string.
    [WireEnum] relates it to the strings that are stored and sent. *)
Class WireEnum (A : Type) := {
  wire_name : A -> string;
  wire_other : string -> A;
  wire_values : list A;
  wire_other_name s : wire_name (wire_other s) = s;
  wire_names_NoDup : NoDup (wire_name <$> wire_values) }.

Fixpoint read_enum {A} (name : A -> string) (other : string -> A) (values : list A) (s : string) : A :=
  match values with
  | [] => other s
  | v :: vs => if name v ==? s then v else read_enum name other vs s
  end.
(** The constant with a given string, if there is one. *)
Definition wire_read `{WireEnum A} : string -> A := read_enum wire_name wire_other wire_values.

Ltac wire_enum_tac :=
  first [ done | apply (bool_decide_unpack _); vm_compute; exact I ].

Lemma wire_name_read `{WireEnum A} (s : string) : wire_name (wire_read s : A) = s.
Proof.
  unfold wire_read. induction wire_values as [|v vs IH]; cbn; [apply wire_other_name|].
  by case_bool_decide.
Qed.

Lemma wire_read_name `{WireEnum A} (v : A) :
  v ∈ wire_values -> wire_read (wire_name v) = v.
Proof.
  unfold wire_read. intros Hv. pose proof wire_names_NoDup as Hd.
  induction Hv as [vs|v w vs Hv IH]; cbn in *.
  - by rewrite bool_decide_eq_true_2.
  - apply NoDup_cons in Hd as [Hn Hd]. rewrite bool_decide_eq_false_2; [by apply IH|].
    intros E. apply Hn. rewrite E. by apply list_elem_of_fmap_2.
Qed.

(** ** Tactics *)
Create HintDb relay discriminated.

(** Turn boolean facts in the context into propositions. *)
Ltac bool_to_prop_step :=
  match goal with
  | H : bool_decide _ = true |- _ => apply bool_decide_eq_true_1 in H
  | H : bool_decide _ = false |- _ => apply bool_decide_eq_false_1 in H
  | H : negb _ = true |- _ => apply negb_true_iff in H
  | H : negb _ = false |- _ => apply negb_false_iff in H
  | H : (_ || _)%bool = false |- _ => apply orb_false_iff in H; destruct H
  | H : (_ && _)%bool = true |- _ => apply andb_true_iff in H; destruct H
  | H : (_ <? _) = true |- _ => apply Z.ltb_lt in H
  | H : (_ <? _) = false |- _ => apply Z.ltb_ge in H
  | H : (_ <=? _) = true |- _ => apply Z.leb_le in H
  | H : (_ <=? _) = false |- _ => apply Z.leb_gt in H
  | H : (_ =? _) = true |- _ => apply Z.eqb_eq in H
  | H : (_ =? _) = false |- _ => apply Z.eqb_neq in H
  | H : nil_error ?e = true |- _ =>
      let E := fresh "E" in destruct e eqn:E; [discriminate H|clear H]
  end.
Ltac bool_to_prop := repeat bool_to_prop_step.

(** Evaluate the decisions about literals in the goal. *)
Ltac eval_decide :=
  repeat match goal with
  | |- context [bool_decide ?P] =>
      assert_fails (idtac; match goal with x : _ |- _ => match P with context [x] => idtac end end);
      let v := eval vm_compute in (bool_decide P) in
      lazymatch v with true => idtac | false => idtac end;
      change (bool_decide P) with v; cbn [andb orb negb]; cbv beta iota
  end.

(** One guard of a translated function: split the [if] or [match] that the
    hypothesis [H] is stuck on and drop the branch that contradicts it. *)
Ltac split_guard H :=
  match type of H with
  | context [if ?c then _ else _] => let E := fresh "G" in destruct c eqn:E; try discriminate H
  | context [match ?c with _ => _ end] => let E := fresh "G" in destruct c eqn:E; try discriminate H
  end.
Ltac split_guards H := repeat split_guard H.

(** ** Generic lemmas *)
Lemma nil_error_None {E} (e : option E) : nil_error e = true <-> e = None.
Proof. destruct e; cbn; split; congruence. Qed.

Lemma not_nil_true {A} (p : option A) : not_nil p = true <-> is_Some p.
Proof. destruct p; cbn; split; eauto; [discriminate|intros [? ?]; discriminate]. Qed.

Lemma result_bind_Ok {E A B} (r : result E A) (k : A -> result E B) b :
  result_bind r k = Ok b -> exists a, r = Ok a /\ k a = Ok b.
Proof. destruct r; cbn; [eauto|discriminate]. Qed.
