(* ===== verification/Effects.v ===== *)
(** * Programs that call their environment

    A service whose steps depend on answers from stores, providers and clocks
    is a tree of calls: a call, and a continuation for every answer. The trees
    here are finite, because the code between two waits has no unbounded loop.
    Runs of such a program may be cut at any point, as a process may be. A
    monitor is an automaton that reads the calls and answers of a run; [obeys]
    is the proof obligation that every run of a program is accepted. *)

From S2P Require Import Prelude.
#[local] Open Scope list_scope.

Inductive prog (E : Type -> Type) (R : Type) : Type :=
  | Done (r : R)
  | Call (X : Type) (e : E X) (k : X -> prog E R).
Arguments Done {E R} r.
Arguments Call {E R X} e k.

Fixpoint prog_bind {E A B} (k : A -> prog E B) (t : prog E A) : prog E B :=
  match t with
  | Done a => k a
  | Call e c => Call e (fun x => prog_bind k (c x))
  end.
#[export] Instance prog_ret {E} : MRet (prog E) := fun A a => Done a.
#[export] Instance prog_mbind {E} : MBind (prog E) := fun A B => prog_bind.
Definition perform {E X} (e : E X) : prog E X := Call e Done.

(** ** Runs

    [called e] is what a monitor sees when the call is made, [answered e x]
    what it sees when the answer arrives. *)
Class Observed (E : Type -> Type) (L : Type) := {
  called {X} : E X -> list L;
  answered {X} : E X -> X -> list L }.

Section Runs.
Context {E : Type -> Type} {L : Type} `{!Observed E L}.
(** [allowed s e x]: the environment may answer [x] in monitor state [s]. *)
Context {S : Type} (step : S -> L -> option S) (allowed : S -> forall X, E X -> X -> Prop).

Fixpoint feed (s : S) (l : list L) : option S :=
  match l with [] => Some s | a :: l' => match step s a with Some s' => feed s' l' | None => None end end.

(** The runs of a program: what is seen, and the result unless it was cut. *)
Fixpoint runs {R} (t : prog E R) (l : list L) (r : option R) : Prop :=
  (l = [] /\ r = None) \/
  match t with
  | Done v => l = [] /\ r = Some v
  | Call e k =>
      (l = called e /\ r = None) \/
      exists x l', l = called e ++ answered e x ++ l' /\ runs (k x) l' r
  end.

(** Every run of [t] from [s] in which the environment behaves is accepted,
    and a complete one ends in [Q]. *)
Fixpoint obeys {R} (t : prog E R) (s : S) (Q : R -> S -> Prop) : Prop :=
  match t with
  | Done r => Q r s
  | Call e k =>
      exists s1, feed s (called e) = Some s1 /\
        forall x, allowed s1 _ e x -> exists s2, feed s1 (answered e x) = Some s2 /\ obeys (k x) s2 Q
  end.

(** Runs in which every answer is allowed. *)
Fixpoint fair_runs {R} (t : prog E R) (s : S) (l : list L) (r : option R) : Prop :=
  (l = [] /\ r = None) \/
  match t with
  | Done v => l = [] /\ r = Some v
  | Call e k =>
      (l = called e /\ r = None) \/
      exists s1 x s2 l', feed s (called e) = Some s1 /\ allowed s1 _ e x /\ feed s1 (answered e x) = Some s2 /\
        l = called e ++ answered e x ++ l' /\ fair_runs (k x) s2 l' r
  end.

Lemma feed_app s l1 l2 : feed s (l1 ++ l2) = match feed s l1 with Some s' => feed s' l2 | None => None end.
Proof. revert s. induction l1 as [|a l1 IH]; intros s; cbn; [done|]. destruct (step s a); [apply IH|done]. Qed.

Lemma obeys_mono {R} (t : prog E R) s (Q Q' : R -> S -> Prop) :
  obeys t s Q -> (forall r s', Q r s' -> Q' r s') -> obeys t s Q'.
Proof.
  revert s. induction t as [r|X e k IH]; intros s; cbn; [eauto|].
  intros (s1 & H1 & H2) HQ. exists s1. split; [done|]. intros x Hx. destruct (H2 x Hx) as (s2 & ? & ?). eauto.
Qed.

Lemma obeys_bind {A B} (t : prog E A) (k : A -> prog E B) s (Q : B -> S -> Prop) :
  obeys t s (fun a s' => obeys (k a) s' Q) -> obeys (prog_bind k t) s Q.
Proof.
  revert s. induction t as [a|X e c IH]; intros s; cbn; [done|].
  intros (s1 & H1 & H2). exists s1. split; [done|]. intros x Hx. destruct (H2 x Hx) as (s2 & ? & ?). eauto.
Qed.

(** Soundness: what [obeys] promises holds of every run, cut or complete. *)
Lemma obeys_runs {R} (t : prog E R) s (Q : R -> S -> Prop) l r :
  obeys t s Q -> fair_runs t s l r ->
  exists s', feed s l = Some s' /\ forall v, r = Some v -> Q v s'.
Proof.
  revert s l. induction t as [a|X e k IH]; intros s l; cbn.
  - intros HQ [[-> ->]|[-> ->]]; exists s; (split; [done|]); naive_solver.
  - intros (s1 & H1 & H2) [[-> ->]|[[-> ->]|(s1' & x & s2 & l' & H1' & Hx & H3 & -> & Hr)]].
    + by exists s.
    + exists s1. split; [done|]. naive_solver.
    + rewrite H1 in H1'. injection H1' as <-. destruct (H2 x Hx) as (s2' & H3' & Ho).
      rewrite H3 in H3'. injection H3' as <-. destruct (IH x s2 l' Ho Hr) as (s' & Hf & HQ).
      exists s'. split; [|done]. by rewrite feed_app, H1, feed_app, H3.
Qed.

(** Running a program against an environment that may stop answering. *)
Fixpoint play {R} (env : S -> forall X, E X -> option X) (t : prog E R) (s : S) : list L * option R :=
  match t with
  | Done v => ([], Some v)
  | Call e k =>
      match feed s (called e) with
      | None => ([], None)
      | Some s1 =>
          match env s1 _ e with
          | None => (called e, None)
          | Some x =>
              match feed s1 (answered e x) with
              | None => (called e, None)
              | Some s2 => let (l, r) := play env (k x) s2 in (called e ++ answered e x ++ l, r)
              end
          end
      end
  end.
Lemma play_fair {R} env (t : prog E R) : forall s,
  (forall s X (e : E X) x, env s X e = Some x -> allowed s X e x) -> fair_runs t s (play env t s).1 (play env t s).2.
Proof.
  induction t as [v|X e k IH]; intros s Ha; cbn; [by right|].
  destruct (feed s (called e)) as [s1|] eqn:E1; [|by left]. destruct (env s1 X e) as [x|] eqn:E2; [|by right; left].
  destruct (feed s1 (answered e x)) as [s2|] eqn:E3; [|by right; left]. right. right.
  pose proof (IH x s2 Ha) as H. destruct (play env (k x) s2) as [l r]. exists s1, x, s2, l. split_and!; auto.
Qed.

Lemma fair_runs_runs {R} (t : prog E R) : forall s l r, fair_runs t s l r -> runs t l r.
Proof.
  induction t as [v|X e k IH]; intros s l r; cbn; [done|]. intros [?|[?|(s1 & x & s2 & l' & _ & _ & _ & -> & Hr)]]; [by left|by right; left|].
  right. right. exists x, l'. split; [done|]. by eapply IH.
Qed.

(** Without assumptions on the environment every run is fair. *)
Lemma runs_fair {R} (t : prog E R) s (Q : R -> S -> Prop) l r :
  (forall s X (e : E X) x, allowed s X e x) -> obeys t s Q -> runs t l r -> fair_runs t s l r.
Proof.
  intros Ha. revert s l. induction t as [a|X e k IH]; intros s l; cbn; [done|].
  intros (s1 & H1 & H2) [?|[?|(x & l' & -> & Hr)]]; [by left|by right; left|].
  right. right. destruct (H2 x (Ha _ _ _ _)) as (s2 & H3 & Ho). exists s1, x, s2, l'. split_and!; eauto.
Qed.
End Runs.
