(* ===== verification/GoStrings.v ===== *)
(** * Go strings

    The part of Go's [string], [strings], [bytes], [unicode/utf8] and
    [strconv] that the modelled packages use. A Go string is a byte
    sequence: Rocq's [string], one [ascii] per byte. *)

From S2P Require Import Prelude.
#[local] Open Scope string_scope.
#[local] Open Scope list_scope.
#[local] Open Scope Z_scope.
#[local] Open Scope bool_scope.

(** [len(s)] and [s[i]] as numbers. *)
Definition len (s : string) : Z := Z.of_nat (String.length s).
Definition byte_val (c : ascii) : Z := Z.of_N (Ascii.N_of_ascii c).
Definition byte_of (z : Z) : ascii := Ascii.ascii_of_N (Z.to_N z).

#[global] Arguments byte_val : simpl never.
#[global] Arguments byte_of : simpl never.

Definition bytes_of (s : string) : list ascii := String.list_ascii_of_string s.
Definition string_of (l : list ascii) : string := String.string_of_list_ascii l.

(** [for _, c := range []byte(s) { if !p(c) { return false } }]. *)
Definition all_bytes (p : Z -> bool) (s : string) : bool :=
  forallb (fun c => p (byte_val c)) (bytes_of s).

Definition between (lo hi c : Z) : bool := (lo <=? c) && (c <=? hi).
(** Character classes written with the byte values of ['a'..'z'] and so on. *)
Definition is_lower (c : Z) : bool := between 97 122 c.
Definition is_upper (c : Z) : bool := between 65 90 c.
Definition is_digit (c : Z) : bool := between 48 57 c.

(** ** Prefixes, concatenation, splitting *)
Definition HasPrefix (s p : string) : bool := String.prefix p s.

(** [strings.HasPrefix] on byte lists, returning what follows. *)
Fixpoint strip_prefix (p l : list ascii) : option (list ascii) :=
  match p, l with
  | [], _ => Some l
  | x :: p', y :: l' => if x ==? y then strip_prefix p' l' else None
  | _ :: _, [] => None
  end.

(** [strings.Split(s, "/")] for a one-byte separator. *)
Fixpoint split_on (sep : ascii) (l : list ascii) (acc : list ascii) : list (list ascii) :=
  match l with
  | [] => [rev acc]
  | c :: l' => if c ==? sep then rev acc :: split_on sep l' [] else split_on sep l' (c :: acc)
  end.
Definition Split (s : string) (sep : ascii) : list string :=
  map string_of (split_on sep (bytes_of s) []).

(** [strings.ContainsAny(s, chars)] for ASCII [chars]. *)
Definition ContainsAny (s : string) (chars : list Z) : bool :=
  existsb (fun c => existsb (Z.eqb (byte_val c)) chars) (bytes_of s).

(** [strings.ToLower] on ASCII letters. The Unicode mapping of other letters
    is not needed: every caller rejects a string with a byte above 127. *)
Definition lower_byte (c : ascii) : ascii :=
  if is_upper (byte_val c) then byte_of (byte_val c + 32) else c.
Definition ToLower (s : string) : string := string_of (map lower_byte (bytes_of s)).

(** Byte-wise lexicographic order: Go's [<] on strings. *)
Definition str_ltb (a b : string) : bool := String.ltb a b.
Definition str_leb (a b : string) : bool := String.leb a b.

(** ** [strings.TrimSpace]

    White space is Unicode's [White_Space]: six ASCII bytes and the code
    points below, recognised by their UTF-8 encodings, which is what decoding
    a rune from either end of the string does. *)
Definition space_encodings : list (list Z) :=
  [[9]; [10]; [11]; [12]; [13]; [32];
   [194; 133]; [194; 160]; [225; 154; 128];
   [226; 128; 128]; [226; 128; 129]; [226; 128; 130]; [226; 128; 131];
   [226; 128; 132]; [226; 128; 133]; [226; 128; 134]; [226; 128; 135];
   [226; 128; 136]; [226; 128; 137]; [226; 128; 138];
   [226; 128; 168]; [226; 128; 169]; [226; 128; 175]; [226; 129; 159];
   [227; 128; 128]].

Fixpoint first_match (encs : list (list ascii)) (l : list ascii) : option (list ascii) :=
  match encs with
  | [] => None
  | e :: encs' => match strip_prefix e l with Some r => Some r | None => first_match encs' l end
  end.

(** Every match drops at least one byte, so [length l] rounds suffice. *)
Fixpoint trim_front (fuel : nat) (encs : list (list ascii)) (l : list ascii) : list ascii :=
  match fuel with
  | O => l
  | S f => match first_match encs l with Some r => trim_front f encs r | None => l end
  end.

Definition TrimSpace (s : string) : string :=
  let encs := map (map byte_of) space_encodings in
  let l := bytes_of s in
  let l := trim_front (length l) encs l in
  let r := trim_front (length l) (map (@rev ascii) encs) (rev l) in
  string_of (rev r).

(** ** Decimal *)
Fixpoint digits_of_aux (fuel : nat) (z : Z) (acc : list ascii) : list ascii :=
  match fuel with
  | O => acc
  | S f =>
      let acc := byte_of (48 + z `mod` 10) :: acc in
      if z <? 10 then acc else digits_of_aux f (z / 10) acc
  end.
(** [strconv.FormatInt(z, 10)]; 20 digits hold every int64. *)
Definition FormatInt (z : Z) : string :=
  if z <? 0 then "-" +:+ string_of (digits_of_aux 20 (- z) [])
  else string_of (digits_of_aux 20 z []).

(** [n] zero-padded digits. *)
Fixpoint pad_digits (n : nat) (z : Z) (acc : list ascii) : list ascii :=
  match n with
  | O => acc
  | S m => pad_digits m (z / 10) (byte_of (48 + z `mod` 10) :: acc)
  end.

(** A digit sequence read as a number, [None] on any other byte. *)
Fixpoint read_digits (acc : Z) (l : list ascii) : option Z :=
  match l with
  | [] => Some acc
  | c :: l' => if is_digit (byte_val c) then read_digits (acc * 10 + (byte_val c - 48)) l' else None
  end.

(** ** Lemmas *)
Lemma byte_val_bound c : 0 <= byte_val c < 256.
Proof.
  unfold byte_val. pose proof (Ascii.N_ascii_bounded c). lia.
Qed.

Lemma byte_of_val c : byte_of (byte_val c) = c.
Proof. unfold byte_of, byte_val. rewrite N2Z.id. apply Ascii.ascii_N_embedding. Qed.

Lemma byte_val_of z : 0 <= z < 256 -> byte_val (byte_of z) = z.
Proof.
  intros H. unfold byte_val, byte_of.
  rewrite Ascii.N_ascii_embedding by lia. apply Z2N.id. lia.
Qed.

Lemma bytes_of_string_of l : bytes_of (string_of l) = l.
Proof. apply String.list_ascii_of_string_of_list_ascii. Qed.

Lemma string_of_bytes_of s : string_of (bytes_of s) = s.
Proof. apply String.string_of_list_ascii_of_string. Qed.

Lemma len_bytes s : len s = Z.of_nat (length (bytes_of s)).
Proof. unfold len, bytes_of. f_equal. induction s as [|c s IH]; cbn; congruence. Qed.

Lemma len_nonneg s : 0 <= len s.
Proof. unfold len. lia. Qed.

Lemma len_zero s : len s = 0 <-> s = "".
Proof. unfold len. destruct s; cbn; split; intros; try done; lia. Qed.

Lemma all_bytes_Forall p s :
  all_bytes p s = true <-> Forall (fun c => p (byte_val c) = true) (bytes_of s).
Proof. unfold all_bytes. rewrite forallb_forall, Forall_forall. setoid_rewrite list_elem_of_In. done. Qed.

Lemma pad_digits_app n z acc : pad_digits n z acc = pad_digits n z [] ++ acc.
Proof.
  revert z acc; induction n as [|n IH]; intros z acc; [done|].
  cbn. rewrite IH. rewrite (IH _ [_]). by rewrite <- app_assoc.
Qed.

Lemma length_pad_digits n z acc : length (pad_digits n z acc) = (n + length acc)%nat.
Proof. revert z acc; induction n as [|n IH]; intros z acc; [done|]. cbn. rewrite IH. cbn. lia. Qed.

Lemma read_digits_app a l1 l2 :
  read_digits a (l1 ++ l2) = match read_digits a l1 with Some b => read_digits b l2 | None => None end.
Proof. revert a; induction l1 as [|c l1 IH]; intros a; cbn; [done|]. by case_match. Qed.

(** Reading back [n] padded digits gives the number modulo [10^n]. *)
Lemma read_pad_digits n z a :
  0 <= z -> read_digits a (pad_digits n z []) = Some (a * 10 ^ Z.of_nat n + z `mod` 10 ^ Z.of_nat n).
Proof.
  revert z a; induction n as [|n IH]; intros z a Hz.
  { cbn. f_equal. rewrite Z.mod_1_r. lia. }
  cbn [pad_digits]. rewrite pad_digits_app, read_digits_app, IH by (apply Z.div_pos; lia).
  pose proof (Z.mod_pos_bound z 10 ltac:(lia)).
  cbn [read_digits]. rewrite byte_val_of by lia.
  replace (is_digit (48 + z `mod` 10)) with true
    by (unfold is_digit, between; symmetry; apply andb_true_iff; split; apply Z.leb_le; lia).
  f_equal.
  replace (Z.of_nat (S n)) with (Z.succ (Z.of_nat n)) by lia.
  rewrite Z.pow_succ_r by lia.
  rewrite (Z.rem_mul_r z 10 (10 ^ Z.of_nat n)) by lia.
  nia.
Qed.

(** ** String order *)
Lemma str_ltb_leb a b : str_ltb a b = negb (str_leb b a).
Proof.
  unfold str_ltb, str_leb, String.ltb, String.leb. rewrite (String.compare_antisym b a).
  by destruct (String.compare a b).
Qed.

Lemma str_leb_refl a : str_leb a a = true.
Proof. by destruct (String.leb_total a a). Qed.

Lemma str_leb_trans a b c : str_leb a b = true -> str_leb b c = true -> str_leb a c = true.
Proof.
  intros H1 H2. apply Is_true_true. transitivity b; by apply Is_true_true.
Qed.

Lemma str_leb_antisym a b : str_leb a b = true -> str_leb b a = true -> a = b.
Proof. apply String.leb_antisym. Qed.

(** Strings in Go's order, as a proposition. *)
Definition str_lt (a b : string) : Prop := str_ltb a b = true.
#[export] Instance str_lt_strict : StrictOrder str_lt.
Proof.
  unfold str_lt. split.
  - intros a H. rewrite str_ltb_leb, str_leb_refl in H. done.
  - intros a b c H1 H2. rewrite str_ltb_leb, negb_true_iff in *.
    destruct (str_leb c a) eqn:E; [|done]. destruct (String.leb_total a b) as [H|H]; fold (str_leb a b) in H.
    + by rewrite (str_leb_trans c a b) in H2.
    + fold (str_leb b a) in H. congruence.
Qed.
Lemma str_lt_total a b : str_lt a b \/ a = b \/ str_lt b a.
Proof.
  unfold str_lt. rewrite !str_ltb_leb. destruct (str_leb a b) eqn:E1, (str_leb b a) eqn:E2; cbn; auto.
  right. left. by apply str_leb_antisym.
Qed.
