(* ===== verification/GoTime.v ===== *)
(** * Go time

    The part of Go's [time] package the modelled code uses. A [time.Time] is
    an instant: nanoseconds since the Unix epoch, read in UTC. The code
    persists and compares times in UTC, so locations are not modelled. *)

From S2P Require Import Prelude GoStrings.
#[local] Open Scope string_scope.
#[local] Open Scope list_scope.
#[local] Open Scope Z_scope.
#[local] Open Scope bool_scope.

(** ** Instants and durations *)
Abbreviation Time := Z (only parsing).
Abbreviation Duration := Z (only parsing).
Definition Nanosecond : Duration := 1.
Definition Millisecond : Duration := 1000000.
Definition Second : Duration := 1000000000.
Definition Minute : Duration := 60 * Second.
Definition Hour : Duration := 60 * Minute.

(** January 1, year 1, 00:00:00 UTC: the zero [time.Time]. *)
Definition zero_time : Time := -62135596800 * Second.
Definition IsZero (t : Time) : bool := t =? zero_time.
Definition Before (a b : Time) : bool := a <? b.
Definition After (a b : Time) : bool := b <? a.

(** ** The proleptic Gregorian calendar *)
Definition is_leap (y : Z) : bool :=
  (y `mod` 4 =? 0) && (negb (y `mod` 100 =? 0) || (y `mod` 400 =? 0)).
Definition daysIn (m y : Z) : Z :=
  if m =? 2 then (if is_leap y then 29 else 28)
  else if (m =? 4) || (m =? 6) || (m =? 9) || (m =? 11) then 30 else 31.

(** Days since the epoch of a date; years start in March here, so that the
    leap day comes last. *)
Definition days_from_civil (y m d : Z) : Z :=
  let y' := if m <=? 2 then y - 1 else y in
  let mp := if m <=? 2 then m + 9 else m - 3 in
  365 * y' + y' / 4 - y' / 100 + y' / 400 + (153 * mp + 2) / 5 + d - 1 - 719468.

Definition civil_from_days (days : Z) : Z * Z * Z :=
  let z := days + 719468 in
  let era := z / 146097 in
  let doe := z `mod` 146097 in
  let yoe := (doe - doe / 1460 + doe / 36524 - doe / 146096) / 365 in
  let doy := doe - (365 * yoe + yoe / 4 - yoe / 100) in
  let mp := (5 * doy + 2) / 153 in
  let d := doy - (153 * mp + 2) / 5 + 1 in
  let m := if mp <? 10 then mp + 3 else mp - 9 in
  let y := yoe + era * 400 in
  ((if m <=? 2 then y + 1 else y), m, d).

Definition day_ns : Z := 86400 * Second.
Definition Date (y m d hh mm ss ns : Z) : Time :=
  days_from_civil y m d * day_ns + (hh * 3600 + mm * 60 + ss) * Second + ns.
Definition Year (t : Time) : Z := (civil_from_days (t / day_ns)).1.1.

(** ** RFC 3339 *)
Definition chr (c : string) : list ascii := bytes_of c.

Fixpoint drop_zeros (l : list ascii) : list ascii :=
  match l with
  | c :: l' => if byte_val c =? 48 then drop_zeros l' else l
  | [] => []
  end.
Definition trim_zeros (l : list ascii) : list ascii := rev (drop_zeros (rev l)).

(** The part below a second in layout [.999999999]: no trailing zeros, and
    nothing at all for a whole second. *)
Definition format_frac (ns : Z) : list ascii :=
  if ns =? 0 then [] else chr "." ++ trim_zeros (pad_digits 9 ns []).

Definition format_seconds (t : Time) : list ascii :=
  let '(y, m, d) := civil_from_days (t / day_ns) in
  let s := (t `mod` day_ns) / Second in
  pad_digits 4 y [] ++ chr "-" ++ pad_digits 2 m [] ++ chr "-" ++ pad_digits 2 d [] ++ chr "T" ++
  pad_digits 2 (s / 3600) [] ++ chr ":" ++ pad_digits 2 ((s / 60) `mod` 60) [] ++ chr ":" ++
  pad_digits 2 (s `mod` 60) [].

(** [t.UTC().Format(time.RFC3339)] and [time.RFC3339Nano], for years 0 to 9999. *)
Definition FormatRFC3339 (t : Time) : string := string_of (format_seconds t ++ chr "Z").
Definition FormatRFC3339Nano (t : Time) : string :=
  string_of (format_seconds t ++ format_frac (t `mod` Second) ++ chr "Z").

(** [getnum]: two digits, or one when the layout does not fix the width. *)
Definition getnum (fixed : bool) (l : list ascii) : option (Z * list ascii) :=
  match l with
  | c0 :: l0 =>
      if is_digit (byte_val c0) then
        match l0 with
        | c1 :: l1 =>
            if is_digit (byte_val c1)
            then Some ((byte_val c0 - 48) * 10 + (byte_val c1 - 48), l1)
            else if fixed then None else Some (byte_val c0 - 48, l0)
        | [] => if fixed then None else Some (byte_val c0 - 48, l0)
        end
      else None
  | [] => None
  end.

Fixpoint span_digits (l : list ascii) : list ascii * list ascii :=
  match l with
  | c :: l' => if is_digit (byte_val c) then let '(a, b) := span_digits l' in (c :: a, b) else ([], l)
  | [] => ([], [])
  end.

(** [parseNanoseconds]: digits after the ninth are dropped, missing ones are
    zeros. *)
Definition parse_nanoseconds (ds : list ascii) : Z :=
  let ds := take 9 ds in
  default 0 (read_digits 0 ds) * 10 ^ (9 - Z.of_nat (length ds)).

Definition parse_frac (l : list ascii) : Z * list ascii :=
  match l with
  | c :: ((d :: _) as l') =>
      if ((byte_val c =? 46) || (byte_val c =? 44)) && is_digit (byte_val d)
      then let '(ds, r) := span_digits l' in (parse_nanoseconds ds, r)
      else (0, l)
  | _ => (0, l)
  end.

(** The zone in layout [Z07:00]: its offset in seconds, nothing may follow. *)
Definition parse_zone (l : list ascii) : option Z :=
  match l with
  | [z] => if byte_val z =? 90 then Some 0 else None
  | [s; h1; h2; c; m1; m2] =>
      if byte_val c =? 58 then
        match getnum true [h1; h2], getnum true [m1; m2] with
        | Some (hh, _), Some (mm, _) =>
            if (24 <? hh) || (60 <? mm) then None
            else if byte_val s =? 43 then Some ((hh * 60 + mm) * 60)
            else if byte_val s =? 45 then Some (- ((hh * 60 + mm) * 60))
            else None
        | _, _ => None
        end
      else None
  | _ => None
  end.

Definition expect (c : string) (l : list ascii) : option (list ascii) := strip_prefix (chr c) l.

Definition in_range (lo hi z : Z) : option unit := if between lo hi z then Some () else None.

(** [time.Parse(time.RFC3339, s)] and [time.Parse(time.RFC3339Nano, s)]: both
    layouts accept the same strings, since a fraction is read after the
    seconds even when the layout has none. *)
Definition parse_RFC3339 (l : list ascii) : option Time :=
  y ← read_digits 0 (take 4 l); _ ← in_range 4 4 (Z.of_nat (length (take 4 l)));
  l ← expect "-" (drop 4 l); '(m, l) ← getnum true l; _ ← in_range 1 12 m;
  l ← expect "-" l; '(d, l) ← getnum true l;
  l ← expect "T" l; '(hh, l) ← getnum false l; _ ← in_range 0 23 hh;
  l ← expect ":" l; '(mm, l) ← getnum true l; _ ← in_range 0 59 mm;
  l ← expect ":" l; '(ss, l) ← getnum true l; _ ← in_range 0 59 ss;
  let '(ns, l) := parse_frac l in
  off ← parse_zone l;
  _ ← in_range 1 (daysIn m y) d;
  Some (Date y m d hh mm ss ns - off * Second).
Definition ParseRFC3339 (s : string) : option Time := parse_RFC3339 (bytes_of s).

Example parse_example : ParseRFC3339 "1970-01-02T00:00:01.5+00:00" = Some 86401500000000.
Proof. reflexivity. Qed.
Example format_example : FormatRFC3339Nano 1709210096120000000 = "2024-02-29T12:34:56.12Z".
Proof. reflexivity. Qed.

(** ** The calendar is a bijection *)

(** The year of the 400-year era and the day of that year. *)
Lemma yoe_bounds doe yoe :
  0 <= doe < 146097 ->
  yoe = (doe - doe / 1460 + doe / 36524 - doe / 146096) / 365 ->
  0 <= yoe < 400 /\ 0 <= doe - (365 * yoe + yoe / 4 - yoe / 100) <= 365.
Proof. intros H ->. Z.to_euclidean_division_equations. lia. Qed.

(** Day 365 exists only in a year ending in a leap February. *)
Lemma leap_day doe yoe :
  0 <= doe < 146097 ->
  yoe = (doe - doe / 1460 + doe / 36524 - doe / 146096) / 365 ->
  doe - (365 * yoe + yoe / 4 - yoe / 100) = 365 ->
  (yoe + 1) `mod` 4 = 0 /\ ((yoe + 1) `mod` 100 <> 0 \/ (yoe + 1) `mod` 400 = 0).
Proof. intros H -> E. Z.to_euclidean_division_equations. lia. Qed.

Lemma is_leap_era y e :
  y `mod` 4 = 0 -> y `mod` 100 <> 0 \/ y `mod` 400 = 0 -> is_leap (y + e * 400) = true.
Proof.
  intros H4 H. unfold is_leap.
  replace ((y + e * 400) `mod` 4) with 0 by (Z.to_euclidean_division_equations; lia).
  replace ((y + e * 400) `mod` 100) with (y `mod` 100) by (Z.to_euclidean_division_equations; lia).
  replace ((y + e * 400) `mod` 400) with (y `mod` 400) by (Z.to_euclidean_division_equations; lia).
  destruct H as [H | ->]; [apply Z.eqb_neq in H as ->; done|by rewrite orb_true_r].
Qed.

(** Evaluate the comparisons of literals in the goal. *)
Ltac eval_Z :=
  repeat match goal with
  | |- context [?f ?a ?b] =>
      lazymatch f with Z.ltb => idtac | Z.leb => idtac | Z.eqb => idtac end;
      let v := eval vm_compute in (f a b) in
      lazymatch v with true => idtac | false => idtac end;
      change (f a b) with v; cbv beta iota
  end; cbn [orb].

(** Month lengths, counting months from March. *)
Lemma month_bounds doy mp d y :
  0 <= doy <= 365 -> mp = (5 * doy + 2) / 153 -> d = doy - (153 * mp + 2) / 5 + 1 ->
  (doy = 365 -> is_leap (y + 1) = true) ->
  let m := if mp <? 10 then mp + 3 else mp - 9 in
  1 <= m <= 12 /\ 1 <= d <= daysIn m (if m <=? 2 then y + 1 else y).
Proof.
  intros H Hmp Hd Hleap. cbv zeta.
  assert (Hr : 0 <= mp <= 11) by (subst mp; Z.to_euclidean_division_equations; lia).
  assert (Hb : 153 * mp <= 5 * doy + 2 < 153 * mp + 153)
    by (subst mp; Z.to_euclidean_division_equations; lia).
  clear Hmp. split; [case_match; bool_to_prop; lia|].
  assert (mp = 0 \/ mp = 1 \/ mp = 2 \/ mp = 3 \/ mp = 4 \/ mp = 5 \/ mp = 6 \/ mp = 7 \/ mp = 8 \/
          mp = 9 \/ mp = 10 \/ mp = 11) as Hc by lia.
  unfold daysIn.
  repeat (destruct Hc as [-> | Hc]; [eval_Z; subst d; Z.to_euclidean_division_equations; lia|]).
  subst mp. eval_Z. destruct (decide (doy = 365)) as [E|E].
  - rewrite (Hleap E). subst d. Z.to_euclidean_division_equations. lia.
  - subst d. case_match; Z.to_euclidean_division_equations; lia.
Qed.

Lemma days_of_year_shift yoe e :
  365 * (yoe + e * 400) + (yoe + e * 400) / 4 - (yoe + e * 400) / 100 + (yoe + e * 400) / 400
  = 146097 * e + 365 * yoe + yoe / 4 - yoe / 100 + yoe / 400.
Proof. Z.to_euclidean_division_equations. lia. Qed.

(** The date of a day is a real date, and its day number is that day. *)
Lemma civil_roundtrip days y m d :
  civil_from_days days = (y, m, d) ->
  days_from_civil y m d = days /\ 1 <= m <= 12 /\ 1 <= d <= daysIn m y.
Proof.
  unfold civil_from_days. cbv zeta.
  set (z := days + 719468). set (era := z / 146097). set (doe := z `mod` 146097).
  assert (Hdoe : 0 <= doe < 146097) by (apply Z.mod_pos_bound; lia).
  assert (Hz : z = 146097 * era + doe) by (apply Z.div_mod; lia).
  remember ((doe - doe / 1460 + doe / 36524 - doe / 146096) / 365) as yoe eqn:Hy.
  destruct (yoe_bounds doe yoe Hdoe Hy) as [Hyoe Hdoy].
  pose proof (leap_day doe yoe Hdoe Hy) as Hleap.
  remember (doe - (365 * yoe + yoe / 4 - yoe / 100)) as doy eqn:Edoy.
  remember ((5 * doy + 2) / 153) as mp eqn:Hmp.
  intros [= Ey Em Ed].
  destruct (month_bounds doy mp d (yoe + era * 400) Hdoy Hmp (eq_sym Ed)) as [H1 H2].
  { intros H. destruct (Hleap H) as [? ?].
    replace (yoe + era * 400 + 1) with (yoe + 1 + era * 400) by lia. by apply is_leap_era. }
  rewrite Ey, Em in H2. rewrite Em in H1.
  assert (0 <= mp <= 11) by (subst mp; Z.to_euclidean_division_equations; lia).
  split; [|done]. unfold days_from_civil. cbv zeta.
  replace (if m <=? 2 then m + 9 else m - 3) with mp
    by (subst m; destruct (mp <? 10) eqn:?; case_match; bool_to_prop; lia).
  replace (if m <=? 2 then y - 1 else y) with (yoe + era * 400)
    by (rewrite Em in Ey; subst y; case_match; lia).
  rewrite days_of_year_shift.
  replace (yoe / 400) with 0 by (symmetry; apply Z.div_small; lia).
  subst z. lia.
Qed.

Lemma daysIn_le m y : daysIn m y <= 31.
Proof. unfold daysIn. repeat case_match; lia. Qed.

(** A year bound on an instant is a bound on its day number. *)
Lemma year_ge_iff t y0 :
  y0 <= Year t <-> days_from_civil y0 1 1 <= t / day_ns.
Proof.
  unfold Year. destruct (civil_from_days (t / day_ns)) as [[y m] d] eqn:E. cbn [fst].
  apply civil_roundtrip in E as (<- & Hm & Hd). pose proof (daysIn_le m y).
  unfold days_from_civil. cbv zeta. replace (1 <=? 2) with true by done.
  split; intros; destruct (m <=? 2) eqn:Em; bool_to_prop;
    Z.to_euclidean_division_equations; lia.
Qed.

(** ** Formatting and parsing are inverse *)
Lemma strip_prefix_app p l : strip_prefix p (p ++ l) = Some l.
Proof. induction p as [|c p IH]; cbn; [done|]. by rewrite bool_decide_eq_true_2. Qed.

Lemma digit_byte z : 0 <= z < 10 -> byte_val (byte_of (48 + z)) = 48 + z /\ is_digit (48 + z) = true.
Proof.
  intros H. rewrite byte_val_of by lia. split; [done|].
  unfold is_digit, between. apply andb_true_iff. split; apply Z.leb_le; lia.
Qed.

Lemma getnum_pad fixed z l : 0 <= z < 100 -> getnum fixed (pad_digits 2 z [] ++ l) = Some (z, l).
Proof.
  intros H. cbn [pad_digits app getnum].
  destruct (digit_byte ((z / 10) `mod` 10)) as [-> ->]; [apply Z.mod_pos_bound; lia|].
  destruct (digit_byte (z `mod` 10)) as [-> ->]; [apply Z.mod_pos_bound; lia|].
  do 2 f_equal. Z.to_euclidean_division_equations. lia.
Qed.

Lemma pad_digits_digits n z acc :
  Forall (fun c => is_digit (byte_val c) = true) acc ->
  Forall (fun c => is_digit (byte_val c) = true) (pad_digits n z acc).
Proof.
  revert z acc; induction n as [|n IH]; intros z acc H; [done|]. apply IH. constructor; [|done].
  destruct (digit_byte (z `mod` 10)) as [-> ->]; [apply Z.mod_pos_bound; lia|done].
Qed.

Lemma span_digits_app ds c l :
  Forall (fun c => is_digit (byte_val c) = true) ds -> is_digit (byte_val c) = false ->
  span_digits (ds ++ c :: l) = (ds, c :: l).
Proof. induction 1 as [|d ds Hd _ IH]; intros Hc; cbn; [by rewrite Hc|]. by rewrite Hd, IH. Qed.

Lemma trim_zeros_spec l : exists k, l = trim_zeros l ++ replicate k (byte_of 48).
Proof.
  unfold trim_zeros.
  assert (exists k, rev l = replicate k (byte_of 48) ++ drop_zeros (rev l)) as [k H].
  { induction (rev l) as [|c r [k IH]]; [by exists 0%nat|]. cbn. case_match; [|by exists 0%nat].
    bool_to_prop. exists (S k). cbn [replicate app]. f_equal; [|done].
    by rewrite <- (byte_of_val c), H. }
  exists k. rewrite <- (rev_involutive l), H at 1.
  rewrite rev_app_distr. f_equal. clear H.
  induction k as [|k IH]; cbn; [done|]. by rewrite IH, replicate_cons_app.
Qed.

Lemma read_digits_zeros a k : read_digits a (replicate k (byte_of 48)) = Some (a * 10 ^ Z.of_nat k).
Proof.
  revert a; induction k as [|k IH]; intros a; cbn [replicate read_digits]; [f_equal; lia|].
  replace (byte_val (byte_of 48)) with 48 by done. change (is_digit 48) with true. cbv iota.
  rewrite IH. f_equal. rewrite Nat2Z.inj_succ, Z.pow_succ_r by lia. lia.
Qed.

Lemma parse_frac_format ns :
  0 <= ns < Second -> parse_frac (format_frac ns ++ chr "Z") = (ns, chr "Z").
Proof.
  intros H. unfold format_frac. case_match; bool_to_prop; [subst; done|].
  destruct (trim_zeros_spec (pad_digits 9 ns [])) as [k Hk].
  pose proof (read_pad_digits 9 ns 0 ltac:(lia)) as Hr.
  pose proof (length_pad_digits 9 ns []) as Hl.
  pose proof (pad_digits_digits 9 ns [] ltac:(constructor)) as Hd.
  remember (trim_zeros (pad_digits 9 ns [])) as ds eqn:E. clear E.
  rewrite Hk, read_digits_app in Hr. rewrite Hk, length_app, length_replicate in Hl.
  rewrite Hk in Hd. apply Forall_app in Hd as [Hd _].
  rewrite Z.mod_small in Hr by (unfold Second in H; cbn; lia).
  destruct (read_digits 0 ds) as [v|] eqn:Ev; [|done].
  rewrite read_digits_zeros in Hr. injection Hr as Hr.
  destruct ds as [|d ds]; [cbn in Ev; injection Ev as <-; lia|].
  inversion Hd as [|? ? Hd0 Hd1]; subst.
  change (chr ".") with [byte_of 46]. cbn [app parse_frac].
  change (byte_val (byte_of 46)) with 46. rewrite Hd0. cbn [Z.eqb Pos.eqb orb andb].
  change (chr "Z") with [byte_of 90].
  change (d :: ds ++ [byte_of 90]) with ((d :: ds) ++ [byte_of 90]).
  rewrite span_digits_app by done.
  f_equal. unfold parse_nanoseconds.
  rewrite take_ge by (cbn in Hl |- *; lia). rewrite Ev. cbn [default].
  replace ns with (v * 10 ^ Z.of_nat k) by (rewrite Hr; lia).
  f_equal. f_equal. cbn in Hl |- *. lia.
Qed.

(** Every instant of the years 0 to 9999 survives formatting and parsing. *)
Lemma parse_format t :
  0 <= Year t <= 9999 -> ParseRFC3339 (FormatRFC3339Nano t) = Some t.
Proof.
  intros HY. unfold ParseRFC3339, FormatRFC3339Nano. rewrite bytes_of_string_of.
  unfold format_seconds. unfold Year in HY.
  destruct (civil_from_days (t / day_ns)) as [[y m] d] eqn:E. cbn [fst] in HY.
  apply civil_roundtrip in E as (Ed & Hm & Hd). pose proof (daysIn_le m y).
  assert (Hs : 0 <= t `mod` day_ns / Second < 86400)
    by (unfold day_ns, Second; Z.to_euclidean_division_equations; lia).
  remember (t `mod` day_ns / Second) as s eqn:Es.
  assert (0 <= s / 3600 < 24 /\ 0 <= (s / 60) `mod` 60 < 60 /\ 0 <= s `mod` 60 < 60)
    as (Hh & Hmi & Hsec) by (Z.to_euclidean_division_equations; lia).
  unfold parse_RFC3339. rewrite <- !app_assoc.
  rewrite take_app_length' by (by rewrite length_pad_digits).
  rewrite drop_app_length' by (by rewrite length_pad_digits).
  rewrite read_pad_digits, length_pad_digits by lia. change (10 ^ Z.of_nat 4) with 10000.
  rewrite (Z.mod_small y) by lia. replace (0 * 10000 + y) with y by lia.
  cbn [mbind option_bind in_range between Z.of_nat].
  change (in_range 4 4 _) with (Some ()). cbn [mbind option_bind].
  unfold expect, in_range, between.
  repeat (rewrite strip_prefix_app; cbn [mbind option_bind];
          rewrite getnum_pad by lia; cbn [mbind option_bind]).
  rewrite parse_frac_format by (unfold Second; apply Z.mod_pos_bound; lia).
  change (parse_zone (chr "Z")) with (Some 0).
  repeat match goal with |- context [(?a <=? ?b) && (?b <=? ?c)] =>
    replace ((a <=? b) && (b <=? c)) with true
      by (symmetry; apply andb_true_iff; split; apply Z.leb_le; lia) end.
  cbn [mbind option_bind]. f_equal. unfold Date. rewrite Ed.
  assert (s / 3600 * 3600 + (s / 60) `mod` 60 * 60 + s `mod` 60 = s) as ->
    by (clear; Z.to_euclidean_division_equations; lia).
  assert (t `mod` day_ns = s * Second + t `mod` Second)
    by (subst s; unfold day_ns, Second; clear; Z.to_euclidean_division_equations; lia).
  pose proof (Z.div_mod t day_ns ltac:(done)). lia.
Qed.
