(* ===== verification/Identifiers.v ===== *)
(** * Identifiers

    [internal/domain/id.go]: opaque identifiers and SHA-256 digests, and the
    identity records of [internal/provider/contract.go] that are built from
    them. An identifier type of the source is a string; the parsers are what
    distinguishes them. *)

From S2P Require Import Prelude GoStrings.
#[local] Open Scope string_scope.
#[local] Open Scope list_scope.
#[local] Open Scope Z_scope.
#[local] Open Scope bool_scope.

Definition MaxOpaqueIDLength : Z := 128.

(** An identifier that failed validation; its value is not echoed. *)
Record InvalidIDError := mkInvalidIDError { ide_Kind : string; ide_Reason : string }.

Definition isASCIILetter (c : Z) : bool := (97 <=? c) && (c <=? 122) || (65 <=? c) && (c <=? 90).
Definition isASCIIDigit (c : Z) : bool := (48 <=? c) && (c <=? 57).

(** The byte loop of [validateOpaqueID], from position [index]. *)
Fixpoint validateOpaqueID_loop (kind : string) (index : Z) (l : list ascii) : option InvalidIDError :=
  match l with
  | [] => None
  | c :: l' =>
      let character := byte_val c in
      if index =? 0 then
        reject negb (isASCIILetter character) && negb (isASCIIDigit character)
          with mkInvalidIDError kind "must start with an ASCII letter or digit" ;;
        validateOpaqueID_loop kind (index + 1) l'
      else
        reject negb (isASCIILetter character) && negb (isASCIIDigit character)
               && negb (character =? 45) && negb (character =? 95)
               && negb (character =? 46) && negb (character =? 58)
          with mkInvalidIDError kind "contains a non-opaque-safe character" ;;
        validateOpaqueID_loop kind (index + 1) l'
  end.

Definition validateOpaqueID (kind raw : string) : option InvalidIDError :=
  reject raw ==? "" with mkInvalidIDError kind "must not be empty" ;;
  reject MaxOpaqueIDLength <? len raw with mkInvalidIDError kind "must not exceed 128 bytes" ;;
  validateOpaqueID_loop kind 0 (bytes_of raw).

Definition validOpaqueID (raw : string) : bool := nil_error (validateOpaqueID "opaque" raw).

Definition parseOpaqueID (kind raw : string) : result InvalidIDError string :=
  match validateOpaqueID kind raw with Some e => Err e | None => Ok raw end.

Definition ParseRuntimeInstallationID := parseOpaqueID "runtime installation".
Definition ParseWorkspaceID := parseOpaqueID "workspace".
Definition ParseJobID := parseOpaqueID "job".
Definition ParseAttemptID := parseOpaqueID "attempt".
Definition ParseOperationID := parseOpaqueID "operation".
Definition ParseEventID := parseOpaqueID "event".
Definition ParseObjectID := parseOpaqueID "object".
Definition ParseArtifactID := parseOpaqueID "artifact".
Definition ParseProviderInstanceID := parseOpaqueID "provider instance".
Definition ParseSubmissionIntentID := parseOpaqueID "submission intent".
Definition ParseProviderResourceID := parseOpaqueID "provider resource".

(** The [Valid] methods of the eleven identifier types. *)
Abbreviation ID_Valid := validOpaqueID (only parsing).

(** [ParseSHA256Digest], with the text of its three errors. *)
Definition ParseSHA256Digest (raw : string) : result string string :=
  throw negb (len raw =? 64)
    with "invalid SHA-256 digest: must contain 64 lowercase hexadecimal characters" ;;
  throw raw <>? ToLower raw
    with "invalid SHA-256 digest: must use lowercase hexadecimal characters" ;;
  throw negb (all_bytes (fun character => isASCIIDigit character
                         || negb ((character <? 97) || (102 <? character))) raw)
    with "invalid SHA-256 digest: contains a non-hexadecimal character" ;;
  Ok raw.

Definition SHA256Digest_Valid (digest : string) : bool := is_ok (ParseSHA256Digest digest).

(** [provider.Identity]: written before any provider mutation. *)
Record Identity := mkIdentity {
  id_InstallationID : string; id_WorkspaceID : string; id_JobID : string; id_AttemptID : string;
  id_InstanceID : string; id_IntentID : string; id_ResourceKey : string; id_Nonce : string;
  id_BundleSHA256 : string; id_InputManifestSHA256 : string }.
#[export] Instance Identity_eq_dec : EqDecision Identity.
Proof. solve_decision. Defined.

(** [provider.RemoteReference]: one exact remote resource. *)
Record RemoteReference := mkRemoteReference {
  rr_Identity : Identity; rr_Resource : string; rr_Version : string }.
#[export] Instance RemoteReference_eq_dec : EqDecision RemoteReference.
Proof. solve_decision. Defined.

(** ** Reference grammar

    An opaque identifier is an ASCII alphanumeric followed by at most 127
    bytes of the safe alphabet; a digest is 64 lower-case hex digits. *)
Definition alnum (c : Z) : bool := is_lower c || is_upper c || is_digit c.
Definition opaque_safe (c : Z) : bool := alnum c || existsb (Z.eqb c) [45; 95; 46; 58].
Definition hex_lower (c : Z) : bool := is_digit c || between 97 102 c.

Definition opaque_id (raw : string) : Prop :=
  exists c l, bytes_of raw = c :: l /\ Z.of_nat (length l) <= 127 /\
    alnum (byte_val c) = true /\ Forall (fun c => opaque_safe (byte_val c) = true) l.

Definition sha256_digest (raw : string) : Prop :=
  len raw = 64 /\ Forall (fun c => hex_lower (byte_val c) = true) (bytes_of raw).

(** ** Lemmas *)
Lemma alnum_spec c : isASCIILetter c || isASCIIDigit c = alnum c.
Proof. done. Qed.

Lemma validateOpaqueID_loop_tail kind index l :
  1 <= index ->
  validateOpaqueID_loop kind index l = None <-> Forall (fun c => opaque_safe (byte_val c) = true) l.
Proof.
  revert index; induction l as [|c l IH]; intros index Hi; cbn; [split; [by constructor|done]|].
  replace (index =? 0) with false by (symmetry; apply Z.eqb_neq; lia).
  rewrite Forall_cons, <- (IH (index + 1)) by lia.
  unfold opaque_safe. rewrite <- alnum_spec. cbn [existsb].
  destruct (isASCIILetter _), (isASCIIDigit _), (_ =? 45), (_ =? 95), (_ =? 46), (_ =? 58); cbn;
    intuition discriminate.
Qed.

(** Validation accepts exactly the reference grammar, whatever the kind. *)
Lemma validateOpaqueID_spec kind raw : validateOpaqueID kind raw = None <-> opaque_id raw.
Proof.
  unfold validateOpaqueID, opaque_id. rewrite len_bytes.
  destruct raw as [|c s].
  { rewrite bool_decide_eq_true_2 by done. split; [done|intros (? & ? & ? & _); done]. }
  rewrite bool_decide_eq_false_2 by done.
  change (bytes_of (String c s)) with (c :: bytes_of s). generalize (bytes_of s). intros l. cbn [length].
  destruct (MaxOpaqueIDLength <? _) eqn:E; unfold MaxOpaqueIDLength in E; bool_to_prop.
  { split; [done|]. intros (? & ? & [= <- <-] & ? & _). lia. }
  cbn [validateOpaqueID_loop]. change (0 =? 0) with true. cbv iota.
  rewrite <- negb_orb, alnum_spec.
  destruct (alnum (byte_val c)) eqn:Ec; cbn [negb].
  - rewrite validateOpaqueID_loop_tail by lia. split; [|naive_solver].
    intros H. exists c, l. split_and!; try done. lia.
  - split; [done|]. intros (? & ? & [= <- <-] & _ & ? & _). congruence.
Qed.

Lemma validOpaqueID_spec raw : validOpaqueID raw = true <-> opaque_id raw.
Proof. unfold validOpaqueID. by rewrite nil_error_None, validateOpaqueID_spec. Qed.

Lemma validOpaqueID_len raw : validOpaqueID raw = true -> 1 <= len raw <= 128.
Proof.
  rewrite validOpaqueID_spec, len_bytes. intros (c & l & -> & ? & _). cbn [length]. lia.
Qed.

(** A lower-case hex digit is its own lower-case form. *)
Lemma lower_byte_hex c : hex_lower (byte_val c) = true -> lower_byte c = c.
Proof.
  unfold lower_byte, hex_lower, is_upper, is_digit, between. intros H.
  destruct (_ && (_ <=? 90)) eqn:E; [|done]. exfalso.
  apply orb_true_iff in H as [H|H]; bool_to_prop; lia.
Qed.

Lemma digest_byte c :
  isASCIIDigit c || negb ((c <? 97) || (102 <? c)) = hex_lower c.
Proof.
  unfold hex_lower, is_digit, isASCIIDigit, between. f_equal.
  rewrite negb_orb, <- !Z.leb_antisym. done.
Qed.

Lemma SHA256Digest_Valid_spec raw : SHA256Digest_Valid raw = true <-> sha256_digest raw.
Proof.
  unfold SHA256Digest_Valid, ParseSHA256Digest, sha256_digest.
  assert (all_bytes (fun character => isASCIIDigit character
    || negb ((character <? 97) || (102 <? character))) raw = all_bytes hex_lower raw) as ->.
  { unfold all_bytes. induction (bytes_of raw) as [|c l IH]; cbn; [done|]. by rewrite IH, digest_byte. }
  rewrite <- all_bytes_Forall, <- Z.eqb_eq.
  destruct (len raw =? 64); cbn [negb]; [|split; [done|intros [? _]; done]].
  destruct (all_bytes hex_lower raw) eqn:H; cbn [negb].
  - rewrite bool_decide_eq_true_2; [done|]. unfold ToLower.
    rewrite <- (string_of_bytes_of raw) at 1. f_equal.
    apply all_bytes_Forall in H. symmetry. induction H as [|c l Hc _ IH]; cbn; [done|].
    by rewrite IH, lower_byte_hex.
  - case_match; split; naive_solver.
Qed.

Lemma SHA256Digest_Valid_len raw : SHA256Digest_Valid raw = true -> len raw = 64.
Proof. rewrite SHA256Digest_Valid_spec. by intros [? _]. Qed.
