(* ===== verification/Problems.v ===== *)
(** * Problems and errors

    [internal/domain/errors.go] and [http_errors.go]: the stable error
    taxonomy, the structured [Problem], its public projection, and the error
    values of the modelled packages with Go's [errors.Is]/[errors.As]. *)

From S2P Require Import Prelude GoStrings GoTime Identifiers.
#[local] Open Scope string_scope.
#[local] Open Scope list_scope.
#[local] Open Scope Z_scope.
#[local] Open Scope bool_scope.

(** ** Taxonomy *)
Inductive ErrorCategory :=
  | ErrorCategoryValidation | ErrorCategoryAuthenticationAuthorization
  | ErrorCategoryInputPreparation | ErrorCategoryProviderPreparation | ErrorCategorySubmission
  | ErrorCategoryExecution | ErrorCategoryObservation | ErrorCategoryResults
  | ErrorCategoryOperations | ErrorCategoryLocalRuntime 
  | ErrorCategoryOther (raw : string).
#[export] Instance ErrorCategory_eq_dec : EqDecision ErrorCategory.
Proof. solve_decision. Defined.
Definition ErrorCategory_string (x : ErrorCategory) : string :=
  match x with
  | ErrorCategoryValidation => "validation"
  | ErrorCategoryAuthenticationAuthorization => "authentication_authorization"
  | ErrorCategoryInputPreparation => "input_preparation"
  | ErrorCategoryProviderPreparation => "provider_preparation"
  | ErrorCategorySubmission => "submission"
  | ErrorCategoryExecution => "execution"
  | ErrorCategoryObservation => "observation"
  | ErrorCategoryResults => "results"
  | ErrorCategoryOperations => "operations"
  | ErrorCategoryLocalRuntime => "local_runtime"
  | ErrorCategoryOther raw => raw
  end.
Definition ErrorCategory_values : list ErrorCategory :=
  [ErrorCategoryValidation; ErrorCategoryAuthenticationAuthorization;
   ErrorCategoryInputPreparation; ErrorCategoryProviderPreparation; ErrorCategorySubmission;
   ErrorCategoryExecution; ErrorCategoryObservation; ErrorCategoryResults;
   ErrorCategoryOperations; ErrorCategoryLocalRuntime].
#[export] Instance ErrorCategory_wire : WireEnum ErrorCategory.
Proof.
  refine {| wire_name := ErrorCategory_string; wire_other := ErrorCategoryOther; wire_values := ErrorCategory_values |}; wire_enum_tac.
Defined.

Inductive ErrorCode :=
  | CodeInvalidJobSpec | CodeUnsupportedCapability | CodeInvalidInputPath
  | CodeResourceRequirementUnsatisfied | CodeRuntimeAuthRequired | CodeWorkspaceForbidden
  | CodeProviderAuthFailed | CodeProviderAccessDenied | CodeInputNotFound
  | CodeInputFetchFailed | CodeInputChanged | CodeInputDigestMismatch | CodeInputTooLarge
  | CodeStagingFailed | CodeStagingNotReady | CodePrivateStagingUnavailable
  | CodeProviderStorageLimit | CodeProviderRejected | CodeProviderSubmissionUnknown
  | CodeProviderRateLimited | CodeQuotaExhausted | CodeDependencySetupFailed
  | CodeCommandFailed | CodeRemoteTimeout | CodeResourceExhausted | CodeProviderExecutionLost
  | CodeProviderUnreachable | CodeProviderStateUnknown | CodeLogCursorReset
  | CodeRemoteIdentityMismatch | CodeResultManifestMissing | CodeArtifactMissing
  | CodeArtifactDigestMismatch | CodeArtifactCollectionFailed | CodeRemoteCancelUnsupported
  | CodeRemoteExecutionUnresolved | CodeIllegalStateTransition | CodeIdempotencyConflict
  | CodeStateStoreUnavailable | CodeDiskLimitExceeded | CodeStateDirectoryLocked
  | CodeConfigurationInvalid | CodeRuntimeUnavailable | CodeRequestTimeout | CodeInvalidRequest
  | CodeRequestLimitExceeded 
  | CodeOther (raw : string).
#[export] Instance ErrorCode_eq_dec : EqDecision ErrorCode.
Proof. solve_decision. Defined.
Definition ErrorCode_string (x : ErrorCode) : string :=
  match x with
  | CodeInvalidJobSpec => "INVALID_JOB_SPEC"
  | CodeUnsupportedCapability => "UNSUPPORTED_CAPABILITY"
  | CodeInvalidInputPath => "INVALID_INPUT_PATH"
  | CodeResourceRequirementUnsatisfied => "RESOURCE_REQUIREMENT_UNSATISFIED"
  | CodeRuntimeAuthRequired => "RUNTIME_AUTH_REQUIRED"
  | CodeWorkspaceForbidden => "WORKSPACE_FORBIDDEN"
  | CodeProviderAuthFailed => "PROVIDER_AUTH_FAILED"
  | CodeProviderAccessDenied => "PROVIDER_ACCESS_DENIED"
  | CodeInputNotFound => "INPUT_NOT_FOUND"
  | CodeInputFetchFailed => "INPUT_FETCH_FAILED"
  | CodeInputChanged => "INPUT_CHANGED"
  | CodeInputDigestMismatch => "INPUT_DIGEST_MISMATCH"
  | CodeInputTooLarge => "INPUT_TOO_LARGE"
  | CodeStagingFailed => "STAGING_FAILED"
  | CodeStagingNotReady => "STAGING_NOT_READY"
  | CodePrivateStagingUnavailable => "PRIVATE_STAGING_UNAVAILABLE"
  | CodeProviderStorageLimit => "PROVIDER_STORAGE_LIMIT"
  | CodeProviderRejected => "PROVIDER_REJECTED"
  | CodeProviderSubmissionUnknown => "PROVIDER_SUBMISSION_UNKNOWN"
  | CodeProviderRateLimited => "PROVIDER_RATE_LIMITED"
  | CodeQuotaExhausted => "QUOTA_EXHAUSTED"
  | CodeDependencySetupFailed => "DEPENDENCY_SETUP_FAILED"
  | CodeCommandFailed => "COMMAND_FAILED"
  | CodeRemoteTimeout => "REMOTE_TIMEOUT"
  | CodeResourceExhausted => "RESOURCE_EXHAUSTED"
  | CodeProviderExecutionLost => "PROVIDER_EXECUTION_LOST"
  | CodeProviderUnreachable => "PROVIDER_UNREACHABLE"
  | CodeProviderStateUnknown => "PROVIDER_STATE_UNKNOWN"
  | CodeLogCursorReset => "LOG_CURSOR_RESET"
  | CodeRemoteIdentityMismatch => "REMOTE_IDENTITY_MISMATCH"
  | CodeResultManifestMissing => "RESULT_MANIFEST_MISSING"
  | CodeArtifactMissing => "ARTIFACT_MISSING"
  | CodeArtifactDigestMismatch => "ARTIFACT_DIGEST_MISMATCH"
  | CodeArtifactCollectionFailed => "ARTIFACT_COLLECTION_FAILED"
  | CodeRemoteCancelUnsupported => "REMOTE_CANCEL_UNSUPPORTED"
  | CodeRemoteExecutionUnresolved => "REMOTE_EXECUTION_UNRESOLVED"
  | CodeIllegalStateTransition => "ILLEGAL_STATE_TRANSITION"
  | CodeIdempotencyConflict => "IDEMPOTENCY_CONFLICT"
  | CodeStateStoreUnavailable => "STATE_STORE_UNAVAILABLE"
  | CodeDiskLimitExceeded => "DISK_LIMIT_EXCEEDED"
  | CodeStateDirectoryLocked => "STATE_DIRECTORY_LOCKED"
  | CodeConfigurationInvalid => "CONFIGURATION_INVALID"
  | CodeRuntimeUnavailable => "RUNTIME_UNAVAILABLE"
  | CodeRequestTimeout => "REQUEST_TIMEOUT"
  | CodeInvalidRequest => "INVALID_REQUEST"
  | CodeRequestLimitExceeded => "REQUEST_LIMIT_EXCEEDED"
  | CodeOther raw => raw
  end.
Definition ErrorCode_values : list ErrorCode :=
  [CodeInvalidJobSpec; CodeUnsupportedCapability; CodeInvalidInputPath;
   CodeResourceRequirementUnsatisfied; CodeRuntimeAuthRequired; CodeWorkspaceForbidden;
   CodeProviderAuthFailed; CodeProviderAccessDenied; CodeInputNotFound; CodeInputFetchFailed;
   CodeInputChanged; CodeInputDigestMismatch; CodeInputTooLarge; CodeStagingFailed;
   CodeStagingNotReady; CodePrivateStagingUnavailable; CodeProviderStorageLimit;
   CodeProviderRejected; CodeProviderSubmissionUnknown; CodeProviderRateLimited;
   CodeQuotaExhausted; CodeDependencySetupFailed; CodeCommandFailed; CodeRemoteTimeout;
   CodeResourceExhausted; CodeProviderExecutionLost; CodeProviderUnreachable;
   CodeProviderStateUnknown; CodeLogCursorReset; CodeRemoteIdentityMismatch;
   CodeResultManifestMissing; CodeArtifactMissing; CodeArtifactDigestMismatch;
   CodeArtifactCollectionFailed; CodeRemoteCancelUnsupported; CodeRemoteExecutionUnresolved;
   CodeIllegalStateTransition; CodeIdempotencyConflict; CodeStateStoreUnavailable;
   CodeDiskLimitExceeded; CodeStateDirectoryLocked; CodeConfigurationInvalid;
   CodeRuntimeUnavailable; CodeRequestTimeout; CodeInvalidRequest; CodeRequestLimitExceeded].
#[export] Instance ErrorCode_wire : WireEnum ErrorCode.
Proof.
  refine {| wire_name := ErrorCode_string; wire_other := CodeOther; wire_values := ErrorCode_values |}; wire_enum_tac.
Defined.

(** The map [errorCategories] after package initialisation: the literal of
    [errors.go] and the four entries [http_errors.go] adds in its [init]. *)
Definition errorCategories (code : ErrorCode) : option ErrorCategory :=
  match code with
  | CodeInvalidJobSpec | CodeUnsupportedCapability | CodeInvalidInputPath
  | CodeResourceRequirementUnsatisfied | CodeInvalidRequest
      => Some ErrorCategoryValidation
  | CodeRuntimeAuthRequired | CodeWorkspaceForbidden | CodeProviderAuthFailed
  | CodeProviderAccessDenied
      => Some ErrorCategoryAuthenticationAuthorization
  | CodeInputNotFound | CodeInputFetchFailed | CodeInputChanged | CodeInputDigestMismatch
  | CodeInputTooLarge
      => Some ErrorCategoryInputPreparation
  | CodeStagingFailed | CodeStagingNotReady | CodePrivateStagingUnavailable
  | CodeProviderStorageLimit
      => Some ErrorCategoryProviderPreparation
  | CodeProviderRejected | CodeProviderSubmissionUnknown | CodeProviderRateLimited
  | CodeQuotaExhausted
      => Some ErrorCategorySubmission
  | CodeDependencySetupFailed | CodeCommandFailed | CodeRemoteTimeout
  | CodeResourceExhausted | CodeProviderExecutionLost
      => Some ErrorCategoryExecution
  | CodeProviderUnreachable | CodeProviderStateUnknown | CodeLogCursorReset
  | CodeRemoteIdentityMismatch
      => Some ErrorCategoryObservation
  | CodeResultManifestMissing | CodeArtifactMissing | CodeArtifactDigestMismatch
  | CodeArtifactCollectionFailed
      => Some ErrorCategoryResults
  | CodeRemoteCancelUnsupported | CodeRemoteExecutionUnresolved
  | CodeIllegalStateTransition | CodeIdempotencyConflict
      => Some ErrorCategoryOperations
  | CodeStateStoreUnavailable | CodeDiskLimitExceeded | CodeStateDirectoryLocked
  | CodeConfigurationInvalid | CodeRuntimeUnavailable | CodeRequestTimeout
  | CodeRequestLimitExceeded
      => Some ErrorCategoryLocalRuntime
  | CodeOther _ => None
  end.

Inductive FailureStage :=
  | FailureStageValidation | FailureStageAuthentication | FailureStageInputPreparation
  | FailureStageProviderPreparation | FailureStageSubmission | FailureStageExecution
  | FailureStageObservation | FailureStageResults | FailureStageOperation
  | FailureStageLocalRuntime 
  | FailureStageOther (raw : string).
#[export] Instance FailureStage_eq_dec : EqDecision FailureStage.
Proof. solve_decision. Defined.
Definition FailureStage_string (x : FailureStage) : string :=
  match x with
  | FailureStageValidation => "validation"
  | FailureStageAuthentication => "authentication"
  | FailureStageInputPreparation => "input_preparation"
  | FailureStageProviderPreparation => "provider_preparation"
  | FailureStageSubmission => "submission"
  | FailureStageExecution => "execution"
  | FailureStageObservation => "observation"
  | FailureStageResults => "results"
  | FailureStageOperation => "operation"
  | FailureStageLocalRuntime => "local_runtime"
  | FailureStageOther raw => raw
  end.
Definition FailureStage_values : list FailureStage :=
  [FailureStageValidation; FailureStageAuthentication; FailureStageInputPreparation;
   FailureStageProviderPreparation; FailureStageSubmission; FailureStageExecution;
   FailureStageObservation; FailureStageResults; FailureStageOperation;
   FailureStageLocalRuntime].
#[export] Instance FailureStage_wire : WireEnum FailureStage.
Proof.
  refine {| wire_name := FailureStage_string; wire_other := FailureStageOther; wire_values := FailureStage_values |}; wire_enum_tac.
Defined.

Inductive RecommendedAction :=
  | RecommendedActionNone | RecommendedActionFixRequest | RecommendedActionConfigure
  | RecommendedActionWait | RecommendedActionRetryRead | RecommendedActionReconcile
  | RecommendedActionCollect | RecommendedActionRetryComputeExplicitly
  | RecommendedActionInspectProvider | RecommendedActionFreeSpace
  | RecommendedActionContactOperator 
  | RecommendedActionOther (raw : string).
#[export] Instance RecommendedAction_eq_dec : EqDecision RecommendedAction.
Proof. solve_decision. Defined.
Definition RecommendedAction_string (x : RecommendedAction) : string :=
  match x with
  | RecommendedActionNone => "none"
  | RecommendedActionFixRequest => "fix_request"
  | RecommendedActionConfigure => "configure"
  | RecommendedActionWait => "wait"
  | RecommendedActionRetryRead => "retry_read"
  | RecommendedActionReconcile => "reconcile"
  | RecommendedActionCollect => "collect"
  | RecommendedActionRetryComputeExplicitly => "retry_compute_explicitly"
  | RecommendedActionInspectProvider => "inspect_provider"
  | RecommendedActionFreeSpace => "free_space"
  | RecommendedActionContactOperator => "contact_operator"
  | RecommendedActionOther raw => raw
  end.
Definition RecommendedAction_values : list RecommendedAction :=
  [RecommendedActionNone; RecommendedActionFixRequest; RecommendedActionConfigure;
   RecommendedActionWait; RecommendedActionRetryRead; RecommendedActionReconcile;
   RecommendedActionCollect; RecommendedActionRetryComputeExplicitly;
   RecommendedActionInspectProvider; RecommendedActionFreeSpace;
   RecommendedActionContactOperator].
#[export] Instance RecommendedAction_wire : WireEnum RecommendedAction.
Proof.
  refine {| wire_name := RecommendedAction_string; wire_other := RecommendedActionOther; wire_values := RecommendedAction_values |}; wire_enum_tac.
Defined.

Definition ErrorCode_Category (code : ErrorCode) : option ErrorCategory := errorCategories code.
Definition ErrorCode_Valid (code : ErrorCode) : bool := not_nil (ErrorCode_Category code).

(** The keys of [errorCategories] in the order of their strings. *)
Definition code_le (a b : ErrorCode) : Prop := str_leb (ErrorCode_string a) (ErrorCode_string b) = true.
#[export] Instance code_le_dec a b : Decision (code_le a b).
Proof. unfold code_le. apply _. Defined.
Definition AllErrorCodes : list ErrorCode := merge_sort code_le ErrorCode_values.

Definition FailureStage_Valid (stage : FailureStage) : bool :=
  match stage with
  | FailureStageValidation | FailureStageAuthentication | FailureStageInputPreparation
  | FailureStageProviderPreparation | FailureStageSubmission | FailureStageExecution
  | FailureStageObservation | FailureStageResults | FailureStageOperation
  | FailureStageLocalRuntime => true
  | FailureStageOther _ => false
  end.

Definition RecommendedAction_Valid (action : RecommendedAction) : bool :=
  match action with
  | RecommendedActionNone | RecommendedActionFixRequest | RecommendedActionConfigure
  | RecommendedActionWait | RecommendedActionRetryRead | RecommendedActionReconcile
  | RecommendedActionCollect | RecommendedActionRetryComputeExplicitly
  | RecommendedActionInspectProvider | RecommendedActionFreeSpace
  | RecommendedActionContactOperator => true
  | RecommendedActionOther _ => false
  end.

Definition defaultFailureStage (category : ErrorCategory) : FailureStage :=
  match category with
  | ErrorCategoryValidation => FailureStageValidation
  | ErrorCategoryAuthenticationAuthorization => FailureStageAuthentication
  | ErrorCategoryInputPreparation => FailureStageInputPreparation
  | ErrorCategoryProviderPreparation => FailureStageProviderPreparation
  | ErrorCategorySubmission => FailureStageSubmission
  | ErrorCategoryExecution => FailureStageExecution
  | ErrorCategoryObservation => FailureStageObservation
  | ErrorCategoryResults => FailureStageResults
  | ErrorCategoryOperations => FailureStageOperation
  | ErrorCategoryLocalRuntime => FailureStageLocalRuntime
  | ErrorCategoryOther _ => FailureStageOther ""
  end.

(** ** Problem

    [Details] is a Go map: [None] is the nil map. The record is parametric in
    the type of [cause], because problems are themselves error values. *)
Record ProblemOf (E : Type) := mkProblem {
  pb_Code : ErrorCode;
  pb_Message : string;
  pb_Stage : FailureStage;
  pb_SafeOperationRetry : bool;
  pb_ComputeMayHaveStarted : bool;
  pb_RecommendedAction : RecommendedAction;
  pb_Details : option (gmap string string);
  pb_cause : option E }.
Arguments mkProblem {E}.
Arguments pb_Code {E}. Arguments pb_Message {E}. Arguments pb_Stage {E}.
Arguments pb_SafeOperationRetry {E}. Arguments pb_ComputeMayHaveStarted {E}.
Arguments pb_RecommendedAction {E}. Arguments pb_Details {E}. Arguments pb_cause {E}.

(** The error values of the modelled packages. [ENew] is an [errors.New] or a
    package-level sentinel, [EFormat] an [fmt.Errorf] without [%w], [EWrap]
    one with it; a [Problem] can be an error by value or by pointer, and
    [ENilProblem] is an interface that holds a nil pointer. [EJoin] is the
    value of [errors.Join]; [EForeign] is an error of another library, with
    what its [Temporary] and [Code] methods answer if it has them. A sentinel
    is recognised by its text: no two sentinels of the program share one. *)
Inductive error :=
  | ENew (text : string)
  | EFormat (format : string) (args : list string)
  | EWrap (prefix : string) (cause : error)
  | EInvalidID (e : InvalidIDError)
  | ETransition (dimension from to : string)
  | EProblem (pointer : bool) (p : ProblemOf error)
  | ERemoteAbsence (remote : RemoteReference) (observedAt : Time)
  | EReadError (reason : string) (err : option error)
  | EStepFailure (reason : string) (cause : error)
  | ELogReadFailure (reason : string)
  | ELocalState (err : option error)
  | ECollectionFailure (code : ErrorCode) (invalid : bool) (reason cause : string) (err : option error)
  | EJoin (errs : list error)
  | EForeign (text : string) (temporary : option bool) (code : option Z)
  | ENilProblem.
Abbreviation Problem := (ProblemOf error).

(** [m[key]] on a possibly nil [map[string]string]. *)
Definition map_get (m : option (gmap string string)) (key : string) : string :=
  default "" (default ∅ m !! key).
Definition detail {E} (p : ProblemOf E) (key : string) : string := map_get (pb_Details p) key.

(** [ValidReason]: a bounded diagnostic identifier. *)
Definition ValidReason (reason : string) : bool :=
  match reason with
  | "" => false
  | String c0 _ =>
      if (64 <? len reason) || (byte_val c0 <? 97) || (122 <? byte_val c0) then false
      else all_bytes (fun c => negb (((c <? 97) || (122 <? c)) && ((c <? 48) || (57 <? c))
                                     && negb (c =? 95))) reason
  end.
Definition closedReason (reason : string) : bool := ValidReason reason.

(** [ValidResourceName]: a provider-owned name. *)
Definition ValidResourceName (name : string) : bool :=
  if (name ==? "") || (256 <? len name) then false
  else all_bytes (fun c => negb (((c <? 97) || (122 <? c)) && ((c <? 65) || (90 <? c))
                                 && ((c <? 48) || (57 <? c)) && negb (c =? 45) && negb (c =? 95)
                                 && negb (c =? 46) && negb (c =? 47))) name.

(** The HTTP status test of [PublicDetails]: ["100"] to ["599"]. *)
Definition valid_http_status (status : string) : bool :=
  match bytes_of status with
  | [a; b; c] => between 49 53 (byte_val a) && between 48 57 (byte_val b) && between 48 57 (byte_val c)
  | _ => false
  end.

Definition submission_error_types : list string :=
  ["unavailable"; "http_error"; "timeout"; "interrupted"; "transport"; "invalid_response";
   "PERMISSION_DENIED"; "UNAUTHENTICATED"; "RESOURCE_EXHAUSTED"; "UNAVAILABLE"; "DEADLINE_EXCEEDED";
   "INVALID_ARGUMENT"; "INTERNAL"; "NOT_FOUND"; "ALREADY_EXISTS"].
Definition submission_operations : list string := ["save_kernel"; "verify_kernel"; "unknown"].

Definition ReasonDetail : string := "reason".
Definition CauseDetail : string := "cause".
Definition FirstCauseDetail : string := "first_cause".

(** One [if] of [PublicDetails]: copy [key] when its value passes [ok]. *)
Definition project_detail (details : option (gmap string string)) (key : string) (ok : string -> bool)
    (m : gmap string string) : gmap string string :=
  if ok (map_get details key) then <[key := map_get details key]> m else m.

Definition public_details (details : option (gmap string string)) : option (gmap string string) :=
  let m := ∅ in
  let m := project_detail details ReasonDetail closedReason m in
  let m := project_detail details CauseDetail closedReason m in
  let m := project_detail details FirstCauseDetail closedReason m in
  let m := project_detail details "resource_name" ValidResourceName m in
  let m := project_detail details "submission_http_status" valid_http_status m in
  let m := project_detail details "submission_error_type" (fun v => bool_decide (v ∈ submission_error_types)) m in
  let m := project_detail details "submission_operation" (fun v => bool_decide (v ∈ submission_operations)) m in
  if bool_decide (m = ∅) then None else Some m.
Definition PublicDetails {E} (p : ProblemOf E) : option (gmap string string) := public_details (pb_Details p).

Section Updates.
Context {E : Type}.
Implicit Types p : ProblemOf E.
Definition WithRetrySemantics (safe may : bool) p : ProblemOf E :=
  mkProblem (pb_Code p) (pb_Message p) (pb_Stage p) safe may (pb_RecommendedAction p) (pb_Details p) (pb_cause p).
Definition WithRecommendedAction (action : RecommendedAction) p : ProblemOf E :=
  mkProblem (pb_Code p) (pb_Message p) (pb_Stage p) (pb_SafeOperationRetry p) (pb_ComputeMayHaveStarted p)
    action (pb_Details p) (pb_cause p).
(** [p.Details = d] on a copy. *)
Definition with_Details (d : option (gmap string string)) p : ProblemOf E :=
  mkProblem (pb_Code p) (pb_Message p) (pb_Stage p) (pb_SafeOperationRetry p) (pb_ComputeMayHaveStarted p)
    (pb_RecommendedAction p) d (pb_cause p).
Definition WithDetail (key value : string) p : ProblemOf E :=
  with_Details (Some (<[key := value]> (default ∅ (pb_Details p)))) p.
Definition WithCause (cause : option E) p : ProblemOf E :=
  mkProblem (pb_Code p) (pb_Message p) (pb_Stage p) (pb_SafeOperationRetry p) (pb_ComputeMayHaveStarted p)
    (pb_RecommendedAction p) (pb_Details p) cause.

(** [Problem.Validate]. The keys of [Details] are visited in map order; the
    loop has one error text, so the order cannot be observed. *)
Definition Problem_Validate p : option error :=
  reject negb (ErrorCode_Valid (pb_Code p)) with EFormat "unknown error code" [ErrorCode_string (pb_Code p)] ;;
  reject TrimSpace (pb_Message p) ==? "" with ENew "problem message must not be empty" ;;
  reject negb (FailureStage_Valid (pb_Stage p))
    with EFormat "invalid failure stage" [FailureStage_string (pb_Stage p)] ;;
  let category := default (ErrorCategoryOther "") (ErrorCode_Category (pb_Code p)) in
  let expected := defaultFailureStage category in
  reject pb_Stage p <>? expected
    with EFormat "error code requires failure stage"
           [ErrorCode_string (pb_Code p); FailureStage_string expected; FailureStage_string (pb_Stage p)] ;;
  reject negb (RecommendedAction_Valid (pb_RecommendedAction p))
    with EFormat "invalid recommended action" [RecommendedAction_string (pb_RecommendedAction p)] ;;
  reject pb_ComputeMayHaveStarted p && pb_SafeOperationRetry p
         && (pb_RecommendedAction p ==? RecommendedActionRetryComputeExplicitly)
    with ENew "ambiguous compute cannot be marked safe for automatic operation retry" ;;
  reject existsb (fun kv => TrimSpace kv.1 ==? "") (map_to_list (default ∅ (pb_Details p)))
    with ENew "problem detail keys must not be empty" ;;
  None.

Definition NewProblem (code : ErrorCode) (message : string) (stage : FailureStage) : result error (ProblemOf E) :=
  let p := mkProblem code (TrimSpace message) stage false false RecommendedActionNone None None in
  match Problem_Validate p with Some e => Err e | None => Ok p end.
End Updates.

Definition to_list {A} (o : option A) : list A := match o with Some a => [a] | None => [] end.

(** ** Walking error trees

    [Unwrap] of each error value, [errors.Is] against a sentinel and
    [errors.As] for the typed errors the code asks for. *)
Definition absence_problem : Problem :=
  WithDetail ReasonDetail "remote_not_found"
    (mkProblem CodeRemoteExecutionUnresolved
       "recorded remote resource is absent; final execution outcome is unknown"
       FailureStageOperation false false RecommendedActionNone None None).
Definition error_Unwrap (e : error) : list error :=
  match e with
  | EWrap _ c | EStepFailure _ c => [c]
  | EProblem _ p => to_list (pb_cause p)
  | EReadError _ err | ELocalState err | ECollectionFailure _ _ _ _ err => to_list err
  | ERemoteAbsence _ _ => [EProblem false absence_problem]
  | EJoin errs => errs
  | _ => []
  end.

(** The first answer along a list. *)
Fixpoint first_some {A B} (f : A -> option B) (l : list A) : option B :=
  match l with [] => None | x :: l' => match f x with Some b => Some b | None => first_some f l' end end.

(** The first value of the tree, in pre-order, that [pick] accepts. *)
Fixpoint find_link {A} (pick : error -> option A) (e : error) : option A :=
  match pick e with
  | Some a => Some a
  | None =>
      match e with
      | EWrap _ c | EStepFailure _ c => find_link pick c
      | EProblem _ (mkProblem _ _ _ _ _ _ _ c) | EReadError _ c | ELocalState c
      | ECollectionFailure _ _ _ _ c =>
          match c with Some c => find_link pick c | None => None end
      | ERemoteAbsence _ _ => pick (EProblem false absence_problem)
      | EJoin errs => first_some (find_link pick) errs
      | _ => None
      end
  end.

(** [find_link] is the loop of [errors.As]: test, then unwrap. *)
Lemma find_link_unwrap {A} (pick : error -> option A) e :
  find_link pick e =
  match pick e with Some a => Some a | None => first_some (find_link pick) (error_Unwrap e) end.
Proof.
  assert (forall c, match c with Some c => find_link pick c | None => None end
                    = first_some (find_link pick) (to_list c)) as Hc.
  { intros [c|]; cbn; [by destruct (find_link pick c)|done]. }
  destruct e as [| | | | |? []| | | | | | | | |]; cbn; destruct (pick _); try done; try apply Hc; cbn.
  1,3: by destruct (find_link pick _).
  by destruct (pick (EProblem false absence_problem)).
Qed.

(** [errors.Join]: nil values are dropped, and nothing left is nil. *)
Definition Join (errs : list (option error)) : option error :=
  match omap id errs with [] => None | l => Some (EJoin l) end.

Definition errors_As {A} (pick : error -> option A) (e : option error) : option A :=
  match e with Some e => find_link pick e | None => None end.

Definition as_problem (pointer : bool) (e : error) : option Problem :=
  match e with EProblem b p => if Bool.eqb b pointer then Some p else None | _ => None end.
Definition as_sentinel (text : string) (e : error) : option unit :=
  match e with ENew t => if t ==? text then Some () else None | _ => None end.
Definition errors_Is (e : option error) (sentinel : string) : bool := not_nil (errors_As (as_sentinel sentinel) e).

(** ** Public details *)
Lemma project_detail_lookup d key ok m k :
  project_detail d key ok m !! k =
  if (k ==? key) && ok (map_get d key) then Some (map_get d key) else m !! k.
Proof.
  unfold project_detail. case_bool_decide; subst; cbn; case_match; try done.
  - by rewrite lookup_insert_eq.
  - by rewrite lookup_insert_ne.
Qed.

(** What may appear under a key of the public projection. *)
Definition detail_ok (k v : string) : bool :=
  if bool_decide (k ∈ [ReasonDetail; CauseDetail; FirstCauseDetail]) then closedReason v
  else if k ==? "resource_name" then ValidResourceName v
  else if k ==? "submission_http_status" then valid_http_status v
  else if k ==? "submission_error_type" then bool_decide (v ∈ submission_error_types)
  else if k ==? "submission_operation" then bool_decide (v ∈ submission_operations)
  else false.

(** One key of the projection: decide all comparisons with it. *)
Ltac key_case k K := destruct (decide (k = K)) as [-> |?]; [eval_decide; by repeat case_match|].

Lemma public_details_lookup d k :
  default ∅ (public_details d) !! k =
  if detail_ok k (map_get d k) then Some (map_get d k) else None.
Proof.
  unfold public_details. cbv zeta.
  match goal with |- default ∅ (if bool_decide (?m = ∅) then _ else _) !! k = _ =>
    transitivity (m !! k) end.
  { case_bool_decide as E; cbn; [by rewrite E|done]. }
  rewrite !project_detail_lookup, lookup_empty. unfold detail_ok.
  key_case k ReasonDetail. key_case k CauseDetail. key_case k FirstCauseDetail.
  key_case k "resource_name". key_case k "submission_http_status".
  key_case k "submission_error_type". key_case k "submission_operation".
  repeat match goal with |- context [bool_decide (k = ?x)] =>
    rewrite (bool_decide_eq_false_2 (k = x)) by done end.
  rewrite (bool_decide_eq_false_2 (k ∈ _)) by set_solver. done.
Qed.

Lemma map_get_public d k :
  map_get (public_details d) k = if detail_ok k (map_get d k) then map_get d k else "".
Proof. unfold map_get at 1. rewrite public_details_lookup. by case_match. Qed.

Lemma detail_ok_empty k : detail_ok k "" = false.
Proof. unfold detail_ok. by do 5 (case_bool_decide; [reflexivity|]). Qed.

(** Everything public is closed vocabulary. *)
Lemma public_details_closed d m k v :
  public_details d = Some m -> m !! k = Some v -> detail_ok k v = true.
Proof.
  intros Hm Hk. pose proof (public_details_lookup d k) as H. rewrite Hm in H. cbn in H.
  rewrite Hk in H. destruct (detail_ok k (map_get d k)) eqn:E; congruence.
Qed.

Lemma public_details_nonempty d m : public_details d = Some m -> m <> ∅.
Proof. unfold public_details. cbv zeta. case_bool_decide as E; [done|]. intros [= <-]. exact E. Qed.

(** Projecting twice is projecting once: no detail leaks on a second pass. *)
Lemma public_details_idem d : public_details (public_details d) = public_details d.
Proof.
  assert (forall k, default ∅ (public_details (public_details d)) !! k = default ∅ (public_details d) !! k) as H.
  { intros k. rewrite public_details_lookup, map_get_public, public_details_lookup.
    destruct (detail_ok k (map_get d k)) eqn:E; [by rewrite E|by rewrite detail_ok_empty]. }
  apply map_eq in H.
  destruct (public_details (public_details d)) as [m1|] eqn:E1; [apply public_details_nonempty in E1|];
    (destruct (public_details d) as [m2|] eqn:E2; [apply public_details_nonempty in E2|]);
    cbn in H; congruence.
Qed.

(** ** Validity of problems *)
Lemma AllErrorCodes_perm : AllErrorCodes ≡ₚ ErrorCode_values.
Proof. apply merge_sort_Permutation. Qed.

Lemma ErrorCode_Valid_values code : ErrorCode_Valid code = true <-> code ∈ ErrorCode_values.
Proof.
  split.
  - intros H. apply (bool_decide_unpack _). destruct code; try discriminate H; vm_compute; exact I.
  - intros H. destruct code; try done.
    unfold ErrorCode_values in H. repeat (apply elem_of_cons in H as [H|H]; [discriminate H|]).
    by apply elem_of_nil in H.
Qed.
