(* ===== verification/Workers.v ===== *)
(** * Worker loops

    [internal/worker]: how the errors of a durable worker decide whether its
    loop stops, continues or backs off ([run.go]), and how a failed lease
    renewal is combined with the error of the work it interrupted
    ([heartbeat.go]). Goroutines, timers and contexts are left out: the
    definitions below are what a loop computes between two waits. *)

From S2P Require Import Prelude GoStrings GoTime Identifiers Problems.
#[local] Open Scope string_scope.
#[local] Open Scope list_scope.
#[local] Open Scope Z_scope.
#[local] Open Scope bool_scope.

(** The sentinels of package [context]. *)
Definition Canceled : string := "context canceled".
Definition DeadlineExceeded : string := "context deadline exceeded".

(** ** Joined errors

    Both functions of the package look for the first value with a list of
    causes ([errors.As] with [interface{ Unwrap() []error }]) and then treat
    every cause by itself; an error without such a value is a leaf. [top] is
    the error the search started from. *)
Section Causes.
Context {A : Type} (leaf : error -> A) (node : list A -> A).
Fixpoint walk_causes (top e : error) : A :=
  match e with
  | EJoin errs => node (map (fun c => walk_causes c c) errs)
  | EWrap _ c | EStepFailure _ c => walk_causes top c
  | EProblem _ (mkProblem _ _ _ _ _ _ _ (Some c)) | EReadError _ (Some c) | ELocalState (Some c)
  | ECollectionFailure _ _ _ _ (Some c) => walk_causes top c
  | _ => leaf top
  end.
End Causes.

(** ** Retry policy *)
Inductive Decision := Stop | Continue | Retry.
#[export] Instance Decision_eq_dec : EqDecision Decision.
Proof. solve_decision. Defined.

Definition as_temporary (e : error) : option bool := match e with EForeign _ t _ => t | _ => None end.
Definition as_coded (e : error) : option Z := match e with EForeign _ _ c => c | _ => None end.

Definition worker_classify (err : option error) : Decision :=
  match err with
  | None => Continue
  | Some _ =>
      if errors_Is err DeadlineExceeded then Retry
      else if default false (errors_As as_temporary err) then Retry
      else match errors_As as_coded err with
           | Some code => if (Z.land code 255 =? 5) || (Z.land code 255 =? 6) then Retry else Stop
           | None => Stop
           end
  end.

(** The loop over the causes: the first [Stop] ends it. *)
Fixpoint worst (decision : Decision) (l : list Decision) : Decision :=
  match l with
  | [] => decision
  | Stop :: _ => Stop
  | Retry :: l' => worst Retry l'
  | Continue :: l' => worst decision l'
  end.
Definition classifyCauses (err : option error) (classify : option error -> Decision) : Decision :=
  match err with
  | None => classify None
  | Some e => walk_causes (fun e => classify (Some e)) (worst Continue) e e
  end.
Definition Classify (err : option error) : Decision := classifyCauses err worker_classify.

(** ** The loop of one worker

    What one iteration of [Run] does after its step returned: end with the
    error, start the next step at once, or wait first. [jitter] is the random
    number drawn below [backoff/2 + 1]. *)
Record WorkerConfig := mkWorkerConfig { wc_Workers : Z; wc_PollDelay : Duration; wc_Drain : bool }.
Inductive iteration := Fails (e : option error) | Waits (delay : Duration) | Repeats.
Definition run_backoff : Duration := 10 * Millisecond.
Definition run_iteration (cfg : WorkerConfig) (classify : option error -> Decision) (backoff jitter : Duration)
    (worked : bool) (err : option error) : iteration * Duration :=
  match classifyCauses err classify with
  | Stop => (Fails err, backoff)
  | Retry => (Waits (Z.quot backoff 2 + jitter), Z.min (backoff * 2) Second)
  | Continue =>
      (if worked && is_nil err && wc_Drain cfg then Repeats else Waits (wc_PollDelay cfg), run_backoff)
  end.

(** ** Heartbeats *)
Definition LeaseDuration : Duration := 30 * Second.
Definition withoutCancellation (err : option error) : option error :=
  match err with
  | None => None
  | Some e => walk_causes (fun e => if errors_Is (Some e) Canceled then None else Some e) Join e e
  end.
Definition HeartbeatError (processing renewal : option error) : option error :=
  match renewal with
  | None => processing
  | Some _ => Join [withoutCancellation processing; renewal]
  end.
(** The wait before the next renewal, and what a failed renewal leaves. *)
Definition heartbeat_interval (until now : Time) : Duration :=
  Z.min (Z.max (Z.quot (until - now) 3) (10 * Millisecond)) (5 * Second).
Definition heartbeat_failure (cancelled : bool) (err : option error) : option error :=
  if cancelled then withoutCancellation err else err.

(** ** Properties *)

(** The causes of the first joined error, which is what [errors.As] finds. *)
Definition as_join (e : error) : option (list error) := match e with EJoin l => Some l | _ => None end.
Definition joined (e : error) : option (list error) := errors_As as_join (Some e).

(** A map that turns one fold into another; the leaves have no joined causes. *)
Lemma walk_fusion {A B} (f : A -> B) leafA nodeA leafB nodeB :
  (forall e, joined e = None -> f (leafA e) = leafB e) -> (forall l, f (nodeA l) = nodeB (map f l)) ->
  forall e top, joined top = joined e -> f (walk_causes leafA nodeA top e) = walk_causes leafB nodeB top e.
Proof.
  intros Hl Hn. fix IH 1. intros e top Ht.
  destruct e as [| |? c| | |? [? ? ? ? ? ? ? [c|]]| |? [c|]|? c| |[c|]|? ? ? ? [c|]|l| |];
    lazymatch goal with |- context [EJoin _] => idtac | _ => first [apply Hl, Ht | apply (IH c), Ht] end.
  cbn. rewrite Hn. f_equal. clear Ht. induction l as [|c l IHl]; cbn; [done|]. by rewrite IH, IHl.
Qed.

(** The fold treats the causes of the first joined error, and nothing else. *)
Lemma walk_joined {A} (leaf : error -> A) node e top :
  joined top = joined e ->
  walk_causes leaf node top e =
  match joined e with Some l => node (map (fun c => walk_causes leaf node c c) l) | None => leaf top end.
Proof.
  revert e top. fix IH 1. intros e top Ht.
  destruct e as [| |? c| | |? [? ? ? ? ? ? ? [c|]]| |? [c|]|? c| |[c|]|? ? ? ? [c|]|l| |];
    first [reflexivity | apply (IH c top Ht)].
Qed.

(** The errors a policy is asked about. *)
Definition leaves (err : option error) : list (option error) :=
  match err with None => [None] | Some e => walk_causes (fun e => [Some e]) (@concat _) e e end.
Definition causes (err : option error) : list error := omap id (leaves err).

Lemma leaf_leaves e : joined e = None -> leaves (Some e) = [Some e].
Proof. intros H. cbn. by rewrite walk_joined, H. Qed.

Lemma bool_decide_cons {A} `{EqDecision A} (x y : A) l :
  bool_decide (x ∈ y :: l) = bool_decide (x = y) || bool_decide (x ∈ l).
Proof. rewrite (bool_decide_ext _ _ (elem_of_cons _ _ _)). repeat case_bool_decide; naive_solver. Qed.

Lemma worst_spec d l : worst d l = if bool_decide (Stop ∈ l) then Stop else if bool_decide (Retry ∈ l) then Retry else d.
Proof.
  revert d. induction l as [|x l IH]; intros d; [done|]. rewrite !bool_decide_cons.
  destruct x; cbn; try done; rewrite IH; by repeat case_bool_decide.
Qed.

Lemma worst_concat ls : worst Continue (map (worst Continue) ls) = worst Continue (concat ls).
Proof.
  rewrite !worst_spec.
  assert (forall d, d <> Continue -> (d ∈ map (worst Continue) ls -> exists l, l ∈ ls /\ d ∈ l)) as H1.
  { intros d Hd. rewrite list_elem_of_In, in_map_iff. intros (l & Hl & Hi). exists l.
    rewrite list_elem_of_In. split; [done|]. rewrite worst_spec in Hl. by repeat case_bool_decide; subst. }
  assert (forall d, d ∈ concat ls <-> exists l, l ∈ ls /\ d ∈ l) as H2.
  { intros d. rewrite list_elem_of_In, in_concat. by setoid_rewrite list_elem_of_In. }
  assert (forall l, l ∈ ls -> worst Continue l ∈ map (worst Continue) ls) as H3.
  { intros l Hl. by apply list_elem_of_fmap_2. }
  destruct (decide (Stop ∈ concat ls)) as [Hs|Hs].
  - rewrite !bool_decide_eq_true_2; try done. apply H2 in Hs as (l & Hl & Hs). specialize (H3 l Hl).
    rewrite worst_spec in H3. by case_bool_decide.
  - rewrite !(bool_decide_eq_false_2 (Stop ∈ _)); [|done|naive_solver].
    destruct (decide (Retry ∈ concat ls)) as [Hr|Hr].
    + rewrite !bool_decide_eq_true_2; try done. apply H2 in Hr as (l & Hl & Hr). specialize (H3 l Hl).
      rewrite worst_spec in H3. repeat case_bool_decide; naive_solver.
    + rewrite !bool_decide_eq_false_2; naive_solver.
Qed.

Lemma causes_Join l : causes (Join l) = concat (map causes l).
Proof.
  assert (forall l', omap id l' = [] -> concat (map causes l') = []) as H0.
  { induction l' as [|[e|] l' IH]; cbn; [done|discriminate|]. intros H. by rewrite (IH H). }
  unfold Join. destruct (omap id l) as [|e0 l0] eqn:E; [by rewrite H0|].
  unfold causes at 1. cbn [leaves walk_causes]. rewrite <- E. clear E H0 e0 l0.
  induction l as [|[e|] l IH]; cbn; [done| |done].
  rewrite omap_app. by rewrite <- IH.
Qed.

Lemma causes_without err :
  causes (withoutCancellation err) = filter (fun e => errors_Is (Some e) Canceled = false) (causes err).
Proof.
  destruct err as [e|]; [|done]. unfold withoutCancellation.
  transitivity (walk_causes (fun e => filter (fun e => errors_Is (Some e) Canceled = false) [e]) (@concat _) e e).
  - apply walk_fusion; [|exact causes_Join|done]. intros e' He. destruct (errors_Is (Some e') Canceled) eqn:Hc.
    + by rewrite filter_cons_False by congruence.
    + rewrite filter_cons_True by done. unfold causes. by rewrite leaf_leaves.
  - symmetry. unfold causes, leaves.
    apply (walk_fusion (fun l => filter (fun e => errors_Is (Some e) Canceled = false) (omap id l))); [done| |done].
    intros l. induction l as [|x l IH]; cbn; [done|]. by rewrite omap_app, filter_app, IH.
Qed.

(** An error decides by its worst cause, however the causes
    are wrapped and joined: one fatal cause stops the worker whatever else went
    wrong at the same time, otherwise one transient cause makes it back off,
    and it continues only when every cause allows it. *)
Theorem classifyCauses_spec err f :
  classifyCauses err f =
  if bool_decide (Stop ∈ map f (leaves err)) then Stop
  else if bool_decide (Retry ∈ map f (leaves err)) then Retry else Continue.
Proof.
  rewrite <- (worst_spec Continue). destruct err as [e|]; [|cbn; by destruct (f None)].
  unfold classifyCauses, leaves. symmetry. apply (walk_fusion (fun l => worst Continue (map f l))); [|intros l|done].
  - intros e' _. cbn. by destruct (f (Some e')).
  - by rewrite concat_map, <- worst_concat, map_map.
Qed.

(** A failed lease renewal hides nothing: of the causes of
    the interrupted work only the cancellations it brought about are dropped,
    in order, and the causes of the renewal follow. *)
Theorem HeartbeatError_causes processing r :
  causes (HeartbeatError processing (Some r)) =
  filter (fun e => errors_Is (Some e) Canceled = false) (causes processing) ++ causes (Some r).
Proof.
  unfold HeartbeatError. rewrite causes_Join. cbn [map concat]. by rewrite causes_without, app_nil_r.
Qed.

(** Over any sequence of iterations the back-off of a worker
    stays between ten milliseconds and one second, so a retry waits at least
    five milliseconds and at most one second; only a fatal error ends it. *)
Theorem run_iteration_backoff cfg f backoff jitter worked err next backoff' :
  run_backoff <= backoff <= Second -> 0 <= jitter <= Z.quot backoff 2 ->
  run_iteration cfg f backoff jitter worked err = (next, backoff') ->
  run_backoff <= backoff' <= Second /\
  (forall delay, next = Waits delay -> delay = wc_PollDelay cfg \/ 5 * Millisecond <= delay <= Second) /\
  (forall e, next = Fails e <-> (e = err /\ classifyCauses err f = Stop)).
Proof.
  unfold run_iteration, run_backoff, Second, Millisecond. intros Hb Hj.
  pose proof (Z.quot_rem' backoff 2). pose proof (Z.rem_bound_pos backoff 2).
  destruct (classifyCauses err f); [| |]; intros [= <- <-]; (split; [lia|split]); intros; simplify_eq.
  - naive_solver.
  - destruct (_ && _); simplify_eq. by left.
  - destruct (_ && _); naive_solver.
  - right. lia.
  - naive_solver.
Qed.
