(* ===== verification/AttemptStates.v ===== *)
(** * Attempt states

    [internal/domain/state_types.go], [attempt_state.go] and [transition.go]:
    the six state dimensions of an attempt, the consistency check on their
    combination and the per-dimension transition graphs. *)

From S2P Require Import Prelude GoStrings Problems.
#[local] Open Scope string_scope.
#[local] Open Scope list_scope.
#[local] Open Scope Z_scope.
#[local] Open Scope bool_scope.

(** A Go [map[T]map[T]struct{}]: the keys with their successor sets. *)
Abbreviation Graph T := (T -> option (list T)) (only parsing).

(** ** OrchestrationState *)
Inductive OrchestrationState :=
  | OrchestrationQueued | OrchestrationPreparing | OrchestrationDispatching
  | OrchestrationSubmitted | OrchestrationRunning | OrchestrationCollecting
  | OrchestrationBlocked | OrchestrationReconciling | OrchestrationCancelling
  | OrchestrationNeedsAttention | OrchestrationSucceeded | OrchestrationFailed
  | OrchestrationCancelled | OrchestrationTimedOut 
  | OrchestrationOther (raw : string).
#[export] Instance OrchestrationState_eq_dec : EqDecision OrchestrationState.
Proof. solve_decision. Defined.
Definition OrchestrationState_string (x : OrchestrationState) : string :=
  match x with
  | OrchestrationQueued => "queued"
  | OrchestrationPreparing => "preparing"
  | OrchestrationDispatching => "dispatching"
  | OrchestrationSubmitted => "submitted"
  | OrchestrationRunning => "running"
  | OrchestrationCollecting => "collecting"
  | OrchestrationBlocked => "blocked"
  | OrchestrationReconciling => "reconciling"
  | OrchestrationCancelling => "cancelling"
  | OrchestrationNeedsAttention => "needs_attention"
  | OrchestrationSucceeded => "succeeded"
  | OrchestrationFailed => "failed"
  | OrchestrationCancelled => "cancelled"
  | OrchestrationTimedOut => "timed_out"
  | OrchestrationOther raw => raw
  end.
Definition OrchestrationState_values : list OrchestrationState :=
  [OrchestrationQueued; OrchestrationPreparing; OrchestrationDispatching;
   OrchestrationSubmitted; OrchestrationRunning; OrchestrationCollecting;
   OrchestrationBlocked; OrchestrationReconciling; OrchestrationCancelling;
   OrchestrationNeedsAttention; OrchestrationSucceeded; OrchestrationFailed;
   OrchestrationCancelled; OrchestrationTimedOut].
#[export] Instance OrchestrationState_wire : WireEnum OrchestrationState.
Proof.
  refine {| wire_name := OrchestrationState_string; wire_other := OrchestrationOther; wire_values := OrchestrationState_values |}; wire_enum_tac.
Defined.

Definition orchestrationTransitions : Graph OrchestrationState := fun state =>
  match state with
  | OrchestrationQueued =>
      Some [OrchestrationPreparing; OrchestrationBlocked; OrchestrationCancelled;
            OrchestrationFailed; OrchestrationTimedOut]
  | OrchestrationPreparing =>
      Some [OrchestrationQueued; OrchestrationDispatching; OrchestrationBlocked;
            OrchestrationReconciling; OrchestrationCancelling; OrchestrationNeedsAttention;
            OrchestrationFailed; OrchestrationCancelled; OrchestrationTimedOut]
  | OrchestrationDispatching =>
      Some [OrchestrationSubmitted; OrchestrationRunning; OrchestrationCollecting;
            OrchestrationReconciling; OrchestrationCancelling; OrchestrationNeedsAttention;
            OrchestrationFailed; OrchestrationCancelled; OrchestrationTimedOut]
  | OrchestrationSubmitted =>
      Some [OrchestrationRunning; OrchestrationCollecting; OrchestrationReconciling;
            OrchestrationCancelling; OrchestrationNeedsAttention; OrchestrationFailed;
            OrchestrationCancelled; OrchestrationTimedOut]
  | OrchestrationRunning =>
      Some [OrchestrationCollecting; OrchestrationReconciling; OrchestrationCancelling;
            OrchestrationNeedsAttention; OrchestrationFailed; OrchestrationCancelled;
            OrchestrationTimedOut]
  | OrchestrationCollecting =>
      Some [OrchestrationSucceeded; OrchestrationFailed; OrchestrationCancelled;
            OrchestrationTimedOut; OrchestrationBlocked; OrchestrationReconciling;
            OrchestrationNeedsAttention]
  | OrchestrationBlocked =>
      Some [OrchestrationQueued; OrchestrationPreparing; OrchestrationDispatching;
            OrchestrationReconciling; OrchestrationCancelling; OrchestrationNeedsAttention;
            OrchestrationFailed; OrchestrationCancelled; OrchestrationTimedOut]
  | OrchestrationReconciling =>
      Some [OrchestrationPreparing; OrchestrationDispatching; OrchestrationSubmitted;
            OrchestrationRunning; OrchestrationCollecting; OrchestrationBlocked;
            OrchestrationCancelling; OrchestrationNeedsAttention; OrchestrationFailed;
            OrchestrationCancelled; OrchestrationTimedOut]
  | OrchestrationCancelling =>
      Some [OrchestrationCollecting; OrchestrationReconciling; OrchestrationNeedsAttention;
            OrchestrationSucceeded; OrchestrationFailed; OrchestrationCancelled;
            OrchestrationTimedOut]
  | OrchestrationNeedsAttention =>
      Some [OrchestrationSubmitted; OrchestrationRunning; OrchestrationCollecting;
            OrchestrationReconciling; OrchestrationCancelling; OrchestrationSucceeded;
            OrchestrationFailed; OrchestrationCancelled; OrchestrationTimedOut]
  | OrchestrationSucceeded => Some []
  | OrchestrationFailed => Some []
  | OrchestrationCancelled => Some []
  | OrchestrationTimedOut => Some []
  | OrchestrationOther _ => None
  end.
Definition OrchestrationState_Valid (state : OrchestrationState) : bool := not_nil (orchestrationTransitions state).
Definition OrchestrationState_Terminal (state : OrchestrationState) : bool :=
  match state with
  | OrchestrationSucceeded | OrchestrationFailed | OrchestrationCancelled | OrchestrationTimedOut => true
  | _ => false
  end.

(** ** ExecutionState *)
Inductive ExecutionState :=
  | ExecutionNotSubmitted | ExecutionUnknown | ExecutionQueued | ExecutionStarting
  | ExecutionRunning | ExecutionSucceeded | ExecutionFailed | ExecutionCancelled
  | ExecutionTimedOut 
  | ExecutionOther (raw : string).
#[export] Instance ExecutionState_eq_dec : EqDecision ExecutionState.
Proof. solve_decision. Defined.
Definition ExecutionState_string (x : ExecutionState) : string :=
  match x with
  | ExecutionNotSubmitted => "not_submitted"
  | ExecutionUnknown => "unknown"
  | ExecutionQueued => "queued"
  | ExecutionStarting => "starting"
  | ExecutionRunning => "running"
  | ExecutionSucceeded => "succeeded"
  | ExecutionFailed => "failed"
  | ExecutionCancelled => "cancelled"
  | ExecutionTimedOut => "timed_out"
  | ExecutionOther raw => raw
  end.
Definition ExecutionState_values : list ExecutionState :=
  [ExecutionNotSubmitted; ExecutionUnknown; ExecutionQueued; ExecutionStarting;
   ExecutionRunning; ExecutionSucceeded; ExecutionFailed; ExecutionCancelled; ExecutionTimedOut].
#[export] Instance ExecutionState_wire : WireEnum ExecutionState.
Proof.
  refine {| wire_name := ExecutionState_string; wire_other := ExecutionOther; wire_values := ExecutionState_values |}; wire_enum_tac.
Defined.

Definition executionTransitions : Graph ExecutionState := fun state =>
  match state with
  | ExecutionNotSubmitted =>
      Some [ExecutionUnknown; ExecutionQueued; ExecutionStarting; ExecutionRunning;
            ExecutionSucceeded; ExecutionFailed; ExecutionCancelled; ExecutionTimedOut]
  | ExecutionUnknown =>
      Some [ExecutionNotSubmitted; ExecutionQueued; ExecutionStarting; ExecutionRunning;
            ExecutionSucceeded; ExecutionFailed; ExecutionCancelled; ExecutionTimedOut]
  | ExecutionQueued =>
      Some [ExecutionStarting; ExecutionRunning; ExecutionSucceeded; ExecutionFailed;
            ExecutionCancelled; ExecutionTimedOut]
  | ExecutionStarting =>
      Some [ExecutionRunning; ExecutionSucceeded; ExecutionFailed; ExecutionCancelled;
            ExecutionTimedOut]
  | ExecutionRunning =>
      Some [ExecutionSucceeded; ExecutionFailed; ExecutionCancelled; ExecutionTimedOut]
  | ExecutionSucceeded => Some []
  | ExecutionFailed => Some []
  | ExecutionCancelled => Some []
  | ExecutionTimedOut => Some []
  | ExecutionOther _ => None
  end.
Definition ExecutionState_Valid (state : ExecutionState) : bool := not_nil (executionTransitions state).
Definition ExecutionState_Terminal (state : ExecutionState) : bool :=
  match state with
  | ExecutionSucceeded | ExecutionFailed | ExecutionCancelled | ExecutionTimedOut => true
  | _ => false
  end.

(** ** ResultState *)
Inductive ResultState :=
  | ResultNotAvailable | ResultCollecting | ResultAvailable | ResultIncomplete | ResultInvalid
  | ResultExpired 
  | ResultOther (raw : string).
#[export] Instance ResultState_eq_dec : EqDecision ResultState.
Proof. solve_decision. Defined.
Definition ResultState_string (x : ResultState) : string :=
  match x with
  | ResultNotAvailable => "not_available"
  | ResultCollecting => "collecting"
  | ResultAvailable => "available"
  | ResultIncomplete => "incomplete"
  | ResultInvalid => "invalid"
  | ResultExpired => "expired"
  | ResultOther raw => raw
  end.
Definition ResultState_values : list ResultState :=
  [ResultNotAvailable; ResultCollecting; ResultAvailable; ResultIncomplete; ResultInvalid;
   ResultExpired].
#[export] Instance ResultState_wire : WireEnum ResultState.
Proof.
  refine {| wire_name := ResultState_string; wire_other := ResultOther; wire_values := ResultState_values |}; wire_enum_tac.
Defined.

Definition resultTransitions : Graph ResultState := fun state =>
  match state with
  | ResultNotAvailable =>
      Some [ResultCollecting; ResultExpired]
  | ResultCollecting =>
      Some [ResultAvailable; ResultIncomplete; ResultInvalid; ResultExpired]
  | ResultAvailable =>
      Some [ResultExpired]
  | ResultIncomplete =>
      Some [ResultCollecting; ResultExpired]
  | ResultInvalid =>
      Some [ResultCollecting; ResultExpired]
  | ResultExpired => Some []
  | ResultOther _ => None
  end.
Definition ResultState_Valid (state : ResultState) : bool := not_nil (resultTransitions state).

(** ** CancellationState *)
Inductive CancellationState :=
  | CancellationNotRequested | CancellationRequested | CancellationRequesting
  | CancellationAccepted | CancellationPrevented | CancellationConfirmed | CancellationTooLate
  | CancellationManual 
  | CancellationOther (raw : string).
#[export] Instance CancellationState_eq_dec : EqDecision CancellationState.
Proof. solve_decision. Defined.
Definition CancellationState_string (x : CancellationState) : string :=
  match x with
  | CancellationNotRequested => "not_requested"
  | CancellationRequested => "requested"
  | CancellationRequesting => "requesting"
  | CancellationAccepted => "accepted"
  | CancellationPrevented => "prevented"
  | CancellationConfirmed => "confirmed"
  | CancellationTooLate => "too_late"
  | CancellationManual => "manual_required"
  | CancellationOther raw => raw
  end.
Definition CancellationState_values : list CancellationState :=
  [CancellationNotRequested; CancellationRequested; CancellationRequesting;
   CancellationAccepted; CancellationPrevented; CancellationConfirmed; CancellationTooLate;
   CancellationManual].
#[export] Instance CancellationState_wire : WireEnum CancellationState.
Proof.
  refine {| wire_name := CancellationState_string; wire_other := CancellationOther; wire_values := CancellationState_values |}; wire_enum_tac.
Defined.

Definition cancellationTransitions : Graph CancellationState := fun state =>
  match state with
  | CancellationNotRequested =>
      Some [CancellationRequested; CancellationPrevented]
  | CancellationRequested =>
      Some [CancellationRequesting; CancellationAccepted; CancellationPrevented;
            CancellationConfirmed; CancellationTooLate; CancellationManual]
  | CancellationRequesting =>
      Some [CancellationAccepted; CancellationConfirmed; CancellationTooLate;
            CancellationManual]
  | CancellationAccepted =>
      Some [CancellationConfirmed; CancellationTooLate; CancellationManual]
  | CancellationPrevented => Some []
  | CancellationConfirmed => Some []
  | CancellationTooLate => Some []
  | CancellationManual =>
      Some [CancellationRequested; CancellationConfirmed; CancellationTooLate]
  | CancellationOther _ => None
  end.
Definition CancellationState_Valid (state : CancellationState) : bool := not_nil (cancellationTransitions state).

(** ** RemoteActivityState *)
Inductive RemoteActivityState :=
  | RemoteActivityNotStarted | RemoteActivityUnknown | RemoteActivityPossible
  | RemoteActivityActive | RemoteActivityInactive 
  | RemoteActivityOther (raw : string).
#[export] Instance RemoteActivityState_eq_dec : EqDecision RemoteActivityState.
Proof. solve_decision. Defined.
Definition RemoteActivityState_string (x : RemoteActivityState) : string :=
  match x with
  | RemoteActivityNotStarted => "not_started"
  | RemoteActivityUnknown => "unknown"
  | RemoteActivityPossible => "possible"
  | RemoteActivityActive => "active"
  | RemoteActivityInactive => "inactive"
  | RemoteActivityOther raw => raw
  end.
Definition RemoteActivityState_values : list RemoteActivityState :=
  [RemoteActivityNotStarted; RemoteActivityUnknown; RemoteActivityPossible;
   RemoteActivityActive; RemoteActivityInactive].
#[export] Instance RemoteActivityState_wire : WireEnum RemoteActivityState.
Proof.
  refine {| wire_name := RemoteActivityState_string; wire_other := RemoteActivityOther; wire_values := RemoteActivityState_values |}; wire_enum_tac.
Defined.

Definition remoteActivityTransitions : Graph RemoteActivityState := fun state =>
  match state with
  | RemoteActivityNotStarted =>
      Some [RemoteActivityUnknown; RemoteActivityPossible; RemoteActivityActive;
            RemoteActivityInactive]
  | RemoteActivityUnknown =>
      Some [RemoteActivityPossible; RemoteActivityActive; RemoteActivityInactive]
  | RemoteActivityPossible =>
      Some [RemoteActivityActive; RemoteActivityInactive]
  | RemoteActivityActive =>
      Some [RemoteActivityInactive]
  | RemoteActivityInactive => Some []
  | RemoteActivityOther _ => None
  end.
Definition RemoteActivityState_Valid (state : RemoteActivityState) : bool := not_nil (remoteActivityTransitions state).

(** ** ReleaseEvidence *)
Inductive ReleaseEvidence :=
  | ReleaseEvidenceUnknown | ReleaseEvidenceNotApplicable | ReleaseEvidenceNotObservable
  | ReleaseEvidenceProviderReported | ReleaseEvidenceConfirmed 
  | ReleaseEvidenceOther (raw : string).
#[export] Instance ReleaseEvidence_eq_dec : EqDecision ReleaseEvidence.
Proof. solve_decision. Defined.
Definition ReleaseEvidence_string (x : ReleaseEvidence) : string :=
  match x with
  | ReleaseEvidenceUnknown => "unknown"
  | ReleaseEvidenceNotApplicable => "not_applicable"
  | ReleaseEvidenceNotObservable => "not_observable"
  | ReleaseEvidenceProviderReported => "provider_reported"
  | ReleaseEvidenceConfirmed => "confirmed"
  | ReleaseEvidenceOther raw => raw
  end.
Definition ReleaseEvidence_values : list ReleaseEvidence :=
  [ReleaseEvidenceUnknown; ReleaseEvidenceNotApplicable; ReleaseEvidenceNotObservable;
   ReleaseEvidenceProviderReported; ReleaseEvidenceConfirmed].
#[export] Instance ReleaseEvidence_wire : WireEnum ReleaseEvidence.
Proof.
  refine {| wire_name := ReleaseEvidence_string; wire_other := ReleaseEvidenceOther; wire_values := ReleaseEvidence_values |}; wire_enum_tac.
Defined.

Definition releaseEvidenceTransitions : Graph ReleaseEvidence := fun state =>
  match state with
  | ReleaseEvidenceUnknown =>
      Some [ReleaseEvidenceNotApplicable; ReleaseEvidenceNotObservable;
            ReleaseEvidenceProviderReported; ReleaseEvidenceConfirmed]
  | ReleaseEvidenceNotApplicable => Some []
  | ReleaseEvidenceNotObservable =>
      Some [ReleaseEvidenceProviderReported; ReleaseEvidenceConfirmed]
  | ReleaseEvidenceProviderReported =>
      Some [ReleaseEvidenceConfirmed]
  | ReleaseEvidenceConfirmed => Some []
  | ReleaseEvidenceOther _ => None
  end.
Definition ReleaseEvidence_Valid (state : ReleaseEvidence) : bool := not_nil (releaseEvidenceTransitions state).

(** ** AttemptState *)
Record AttemptState := mkAttemptState {
  as_Orchestration : OrchestrationState;
  as_Execution : ExecutionState;
  as_Result : ResultState;
  as_Cancellation : CancellationState;
  as_RemoteActivity : RemoteActivityState;
  as_ReleaseEvidence : ReleaseEvidence;
  as_DeadlineExceeded : bool }.
#[export] Instance AttemptState_eq_dec : EqDecision AttemptState.
Proof. solve_decision. Defined.

#[export] Instance set_as_Orchestration : Setter as_Orchestration := fun f s =>
  mkAttemptState (f (as_Orchestration s)) (as_Execution s) (as_Result s) (as_Cancellation s)
    (as_RemoteActivity s) (as_ReleaseEvidence s) (as_DeadlineExceeded s).
#[export] Instance set_as_Execution : Setter as_Execution := fun f s =>
  mkAttemptState (as_Orchestration s) (f (as_Execution s)) (as_Result s) (as_Cancellation s)
    (as_RemoteActivity s) (as_ReleaseEvidence s) (as_DeadlineExceeded s).
#[export] Instance set_as_Result : Setter as_Result := fun f s =>
  mkAttemptState (as_Orchestration s) (as_Execution s) (f (as_Result s)) (as_Cancellation s)
    (as_RemoteActivity s) (as_ReleaseEvidence s) (as_DeadlineExceeded s).
#[export] Instance set_as_Cancellation : Setter as_Cancellation := fun f s =>
  mkAttemptState (as_Orchestration s) (as_Execution s) (as_Result s) (f (as_Cancellation s))
    (as_RemoteActivity s) (as_ReleaseEvidence s) (as_DeadlineExceeded s).
#[export] Instance set_as_RemoteActivity : Setter as_RemoteActivity := fun f s =>
  mkAttemptState (as_Orchestration s) (as_Execution s) (as_Result s) (as_Cancellation s)
    (f (as_RemoteActivity s)) (as_ReleaseEvidence s) (as_DeadlineExceeded s).
#[export] Instance set_as_ReleaseEvidence : Setter as_ReleaseEvidence := fun f s =>
  mkAttemptState (as_Orchestration s) (as_Execution s) (as_Result s) (as_Cancellation s)
    (as_RemoteActivity s) (f (as_ReleaseEvidence s)) (as_DeadlineExceeded s).
#[export] Instance set_as_DeadlineExceeded : Setter as_DeadlineExceeded := fun f s =>
  mkAttemptState (as_Orchestration s) (as_Execution s) (as_Result s) (as_Cancellation s)
    (as_RemoteActivity s) (as_ReleaseEvidence s) (f (as_DeadlineExceeded s)).

Definition InitialAttemptState : AttemptState :=
  mkAttemptState OrchestrationQueued ExecutionNotSubmitted ResultNotAvailable
    CancellationNotRequested RemoteActivityNotStarted ReleaseEvidenceUnknown false.

(** [AttemptState.Validate], block by block. *)
Definition validate_values (s : AttemptState) : option error :=
  reject negb (OrchestrationState_Valid (as_Orchestration s))
    with EFormat "invalid orchestration state" [OrchestrationState_string (as_Orchestration s)] ;;
  reject negb (ExecutionState_Valid (as_Execution s))
    with EFormat "invalid execution state" [ExecutionState_string (as_Execution s)] ;;
  reject negb (ResultState_Valid (as_Result s))
    with EFormat "invalid result state" [ResultState_string (as_Result s)] ;;
  reject negb (CancellationState_Valid (as_Cancellation s))
    with EFormat "invalid cancellation state" [CancellationState_string (as_Cancellation s)] ;;
  reject negb (RemoteActivityState_Valid (as_RemoteActivity s))
    with EFormat "invalid remote activity state" [RemoteActivityState_string (as_RemoteActivity s)] ;;
  reject negb (ReleaseEvidence_Valid (as_ReleaseEvidence s))
    with EFormat "invalid release evidence" [ReleaseEvidence_string (as_ReleaseEvidence s)] ;;
  None.

Definition validate_activity (s : AttemptState) : option error :=
  let exec := as_Execution s in let act := as_RemoteActivity s in
  reject ExecutionState_Terminal exec && (act <>? RemoteActivityInactive)
    with EFormat "terminal execution requires inactive remote activity" [ExecutionState_string exec] ;;
  reject ((exec ==? ExecutionQueued) || (exec ==? ExecutionStarting) || (exec ==? ExecutionRunning))
         && ((act ==? RemoteActivityNotStarted) || (act ==? RemoteActivityInactive))
    with EFormat "active execution contradicts remote activity"
           [ExecutionState_string exec; RemoteActivityState_string act] ;;
  reject (exec ==? ExecutionNotSubmitted)
         && ((act ==? RemoteActivityPossible) || (act ==? RemoteActivityActive))
    with EFormat "not-submitted execution contradicts remote activity" [RemoteActivityState_string act] ;;
  reject (act ==? RemoteActivityActive) && ExecutionState_Terminal exec
    with EFormat "active remote execution cannot have terminal execution state" [ExecutionState_string exec] ;;
  None.

Definition validate_result (s : AttemptState) : option error :=
  let res := as_Result s in let orch := as_Orchestration s in
  reject (res <>? ResultNotAvailable) && negb (ExecutionState_Terminal (as_Execution s))
    with EFormat "result state requires terminal execution evidence" [ResultState_string res] ;;
  match res with
  | ResultCollecting =>
      match orch with
      | OrchestrationCollecting | OrchestrationReconciling | OrchestrationNeedsAttention => None
      | _ => Some (EFormat "result state requires collection or reconciliation orchestration"
                     [ResultState_string res])
      end
  | ResultIncomplete | ResultInvalid =>
      match orch with
      | OrchestrationCollecting | OrchestrationReconciling | OrchestrationNeedsAttention
      | OrchestrationFailed => None
      | _ => Some (EFormat "result state requires collection, reconciliation, attention, or failed orchestration"
                     [ResultState_string res])
      end
  | _ => None
  end.

Definition validate_cancellation (s : AttemptState) : option error :=
  let exec := as_Execution s in let act := as_RemoteActivity s in
  match as_Cancellation s with
  | CancellationPrevented =>
      reject exec <>? ExecutionNotSubmitted
        with ENew "prevented cancellation requires a not-submitted execution" ;;
      reject (act <>? RemoteActivityNotStarted) && (act <>? RemoteActivityInactive)
        with ENew "prevented cancellation requires no possible remote activity" ;;
      None
  | CancellationConfirmed =>
      reject (exec <>? ExecutionCancelled) || (act <>? RemoteActivityInactive)
        with ENew "confirmed cancellation requires cancelled execution and inactive remote activity" ;;
      None
  | CancellationTooLate =>
      reject negb (ExecutionState_Terminal exec)
        with ENew "too-late cancellation requires terminal execution evidence" ;;
      None
  | _ => None
  end.

Definition validate_release (s : AttemptState) : option error :=
  let rel := as_ReleaseEvidence s in
  check (if rel ==? ReleaseEvidenceNotApplicable then
           reject as_Execution s <>? ExecutionNotSubmitted
             with ENew "release evidence is not applicable only when execution was not submitted" ;;
           reject negb (OrchestrationState_Terminal (as_Orchestration s))
             with ENew "not-applicable release evidence is only final after terminal orchestration" ;;
           None
         else None) ;;
  reject ((rel ==? ReleaseEvidenceProviderReported) || (rel ==? ReleaseEvidenceConfirmed))
         && (as_RemoteActivity s <>? RemoteActivityInactive)
    with EFormat "release evidence requires inactive remote activity" [ReleaseEvidence_string rel] ;;
  None.

Definition validate_orchestration (s : AttemptState) : option error :=
  let exec := as_Execution s in let act := as_RemoteActivity s in let cancel := as_Cancellation s in
  match as_Orchestration s with
  | OrchestrationSubmitted =>
      reject (exec ==? ExecutionNotSubmitted) || (act ==? RemoteActivityNotStarted)
             || (act ==? RemoteActivityInactive)
        with ENew "submitted orchestration requires accepted or ambiguous remote execution" ;;
      None
  | OrchestrationRunning =>
      reject (exec <>? ExecutionStarting) && (exec <>? ExecutionRunning)
        with ENew "running orchestration requires starting or running execution evidence" ;;
      None
  | OrchestrationCollecting =>
      reject negb (ExecutionState_Terminal exec)
        with ENew "collecting requires terminal execution evidence" ;;
      None
  | OrchestrationSucceeded =>
      reject exec <>? ExecutionSucceeded
        with ENew "succeeded orchestration requires succeeded execution" ;;
      reject (as_Result s <>? ResultAvailable) && (as_Result s <>? ResultExpired)
        with ENew "succeeded orchestration requires verified or retained-as-expired results" ;;
      reject (cancel <>? CancellationNotRequested) && (cancel <>? CancellationTooLate)
        with EFormat "succeeded orchestration contradicts cancellation" [CancellationState_string cancel] ;;
      None
  | OrchestrationFailed =>
      reject (exec <>? ExecutionNotSubmitted) && (exec <>? ExecutionSucceeded) && (exec <>? ExecutionFailed)
        with ENew "failed orchestration requires proven local, payload, or result failure" ;;
      reject (cancel <>? CancellationNotRequested) && (cancel <>? CancellationTooLate)
        with EFormat "failed orchestration contradicts cancellation" [CancellationState_string cancel] ;;
      None
  | OrchestrationCancelled =>
      reject (cancel <>? CancellationPrevented) && (cancel <>? CancellationConfirmed)
        with ENew "cancelled orchestration requires prevented or confirmed cancellation" ;;
      reject (exec <>? ExecutionNotSubmitted) && (exec <>? ExecutionCancelled)
        with EFormat "cancelled orchestration contradicts execution" [ExecutionState_string exec] ;;
      None
  | OrchestrationTimedOut =>
      reject (cancel <>? CancellationNotRequested) && (cancel <>? CancellationTooLate)
        with EFormat "timed-out orchestration contradicts cancellation" [CancellationState_string cancel] ;;
      reject negb (as_DeadlineExceeded s)
        with ENew "timed-out orchestration requires deadline evidence" ;;
      reject (exec <>? ExecutionNotSubmitted) && (exec <>? ExecutionTimedOut)
        with EFormat "timed-out orchestration contradicts execution" [ExecutionState_string exec] ;;
      None
  | _ => None
  end.

Definition validate_terminal (s : AttemptState) : option error :=
  reject OrchestrationState_Terminal (as_Orchestration s)
         && (as_RemoteActivity s <>? RemoteActivityInactive)
         && (as_RemoteActivity s <>? RemoteActivityNotStarted)
    with EFormat "terminal orchestration cannot leave remote activity"
           [RemoteActivityState_string (as_RemoteActivity s)] ;;
  None.

Definition AttemptState_Validate (s : AttemptState) : option error :=
  check validate_values s ;;
  check validate_activity s ;;
  check validate_result s ;;
  check validate_cancellation s ;;
  check validate_release s ;;
  check validate_orchestration s ;;
  validate_terminal s.

(** ** Transitions *)
Definition validateTransition {T} `{EqDecision T} (dimension : string) (name : T -> string)
    (current next : T) (graph : Graph T) : option error :=
  if current ==? next then None else
  match graph current with
  | None => Some (ETransition dimension (name current) (name next))
  | Some allowed =>
      reject negb (bool_decide (next ∈ allowed)) with ETransition dimension (name current) (name next) ;;
      None
  end.

(** Exact resource absence ends activity without inventing an exit outcome. *)
Definition absence_transition (current next : AttemptState) : bool :=
  ((as_Execution current ==? ExecutionQueued) || (as_Execution current ==? ExecutionStarting)
   || (as_Execution current ==? ExecutionRunning))
  && (as_Execution next ==? ExecutionUnknown)
  && (as_Orchestration next ==? OrchestrationNeedsAttention)
  && (as_RemoteActivity next ==? RemoteActivityInactive)
  && (as_ReleaseEvidence next ==? ReleaseEvidenceProviderReported).

Definition ValidateAttemptStateTransition (current next : AttemptState) : option error :=
  propagate AttemptState_Validate current as EWrap "current attempt state" ;;
  propagate AttemptState_Validate next as EWrap "next attempt state" ;;
  check validateTransition "orchestration" OrchestrationState_string
    (as_Orchestration current) (as_Orchestration next) orchestrationTransitions ;;
  check match validateTransition "execution" ExecutionState_string
          (as_Execution current) (as_Execution next) executionTransitions with
        | Some err => if negb (absence_transition current next) then Some err else None
        | None => None
        end ;;
  check validateTransition "result" ResultState_string
    (as_Result current) (as_Result next) resultTransitions ;;
  check validateTransition "cancellation" CancellationState_string
    (as_Cancellation current) (as_Cancellation next) cancellationTransitions ;;
  check validateTransition "remote activity" RemoteActivityState_string
    (as_RemoteActivity current) (as_RemoteActivity next) remoteActivityTransitions ;;
  check validateTransition "release evidence" ReleaseEvidence_string
    (as_ReleaseEvidence current) (as_ReleaseEvidence next) releaseEvidenceTransitions ;;
  reject as_DeadlineExceeded current && negb (as_DeadlineExceeded next)
    with ETransition "deadline" "exceeded" "not_exceeded" ;;
  None.

Example initial_valid : AttemptState_Validate InitialAttemptState = None.
Proof. reflexivity. Qed.

(** ** What a consistent state is

    The declarative reading of [Validate]: the implications between the
    dimensions that a stored state must satisfy. *)
Definition known_values (s : AttemptState) : Prop :=
  as_Orchestration s ∈ OrchestrationState_values /\ as_Execution s ∈ ExecutionState_values /\
  as_Result s ∈ ResultState_values /\ as_Cancellation s ∈ CancellationState_values /\
  as_RemoteActivity s ∈ RemoteActivityState_values /\ as_ReleaseEvidence s ∈ ReleaseEvidence_values.

Definition terminal_exec (e : ExecutionState) : Prop := ExecutionState_Terminal e = true.
Definition terminal_orch (o : OrchestrationState) : Prop := OrchestrationState_Terminal o = true.

Record consistent (s : AttemptState) : Prop := {
  cs_values : known_values s;
  cs_terminal_inactive : terminal_exec (as_Execution s) -> as_RemoteActivity s = RemoteActivityInactive;
  cs_active_remote : as_Execution s ∈ [ExecutionQueued; ExecutionStarting; ExecutionRunning] ->
    as_RemoteActivity s ∈ [RemoteActivityUnknown; RemoteActivityPossible; RemoteActivityActive];
  cs_not_submitted : as_Execution s = ExecutionNotSubmitted ->
    as_RemoteActivity s ∈ [RemoteActivityNotStarted; RemoteActivityUnknown; RemoteActivityInactive];
  cs_result_terminal : as_Result s <> ResultNotAvailable -> terminal_exec (as_Execution s);
  cs_result_collecting : as_Result s = ResultCollecting ->
    as_Orchestration s ∈ [OrchestrationCollecting; OrchestrationReconciling; OrchestrationNeedsAttention];
  cs_result_bad : as_Result s ∈ [ResultIncomplete; ResultInvalid] ->
    as_Orchestration s ∈ [OrchestrationCollecting; OrchestrationReconciling; OrchestrationNeedsAttention;
                          OrchestrationFailed];
  cs_prevented : as_Cancellation s = CancellationPrevented ->
    as_Execution s = ExecutionNotSubmitted /\
    as_RemoteActivity s ∈ [RemoteActivityNotStarted; RemoteActivityInactive];
  cs_confirmed : as_Cancellation s = CancellationConfirmed ->
    as_Execution s = ExecutionCancelled /\ as_RemoteActivity s = RemoteActivityInactive;
  cs_too_late : as_Cancellation s = CancellationTooLate -> terminal_exec (as_Execution s);
  cs_not_applicable : as_ReleaseEvidence s = ReleaseEvidenceNotApplicable ->
    as_Execution s = ExecutionNotSubmitted /\ terminal_orch (as_Orchestration s);
  cs_released : as_ReleaseEvidence s ∈ [ReleaseEvidenceProviderReported; ReleaseEvidenceConfirmed] ->
    as_RemoteActivity s = RemoteActivityInactive;
  cs_submitted : as_Orchestration s = OrchestrationSubmitted ->
    as_Execution s <> ExecutionNotSubmitted /\
    as_RemoteActivity s ∈ [RemoteActivityUnknown; RemoteActivityPossible; RemoteActivityActive];
  cs_running : as_Orchestration s = OrchestrationRunning ->
    as_Execution s ∈ [ExecutionStarting; ExecutionRunning];
  cs_collecting : as_Orchestration s = OrchestrationCollecting -> terminal_exec (as_Execution s);
  cs_succeeded : as_Orchestration s = OrchestrationSucceeded ->
    as_Execution s = ExecutionSucceeded /\ as_Result s ∈ [ResultAvailable; ResultExpired] /\
    as_Cancellation s ∈ [CancellationNotRequested; CancellationTooLate];
  cs_failed : as_Orchestration s = OrchestrationFailed ->
    as_Execution s ∈ [ExecutionNotSubmitted; ExecutionSucceeded; ExecutionFailed] /\
    as_Cancellation s ∈ [CancellationNotRequested; CancellationTooLate];
  cs_cancelled : as_Orchestration s = OrchestrationCancelled ->
    as_Cancellation s ∈ [CancellationPrevented; CancellationConfirmed] /\
    as_Execution s ∈ [ExecutionNotSubmitted; ExecutionCancelled];
  cs_timed_out : as_Orchestration s = OrchestrationTimedOut ->
    as_Cancellation s ∈ [CancellationNotRequested; CancellationTooLate] /\
    as_DeadlineExceeded s = true /\ as_Execution s ∈ [ExecutionNotSubmitted; ExecutionTimedOut];
  cs_terminal : terminal_orch (as_Orchestration s) ->
    as_RemoteActivity s ∈ [RemoteActivityInactive; RemoteActivityNotStarted] }.

(** Membership in a literal list, as equations. *)
Ltac list_mem := rewrite ?elem_of_cons, ?elem_of_nil in *.

Lemma enum_valid_Orchestration x : OrchestrationState_Valid x = true <-> x ∈ OrchestrationState_values.
Proof. unfold OrchestrationState_values. list_mem. destruct x; cbn; intuition congruence. Qed.
Lemma enum_valid_Execution x : ExecutionState_Valid x = true <-> x ∈ ExecutionState_values.
Proof. unfold ExecutionState_values. list_mem. destruct x; cbn; intuition congruence. Qed.
Lemma enum_valid_Result x : ResultState_Valid x = true <-> x ∈ ResultState_values.
Proof. unfold ResultState_values. list_mem. destruct x; cbn; intuition congruence. Qed.
Lemma enum_valid_Cancellation x : CancellationState_Valid x = true <-> x ∈ CancellationState_values.
Proof. unfold CancellationState_values. list_mem. destruct x; cbn; intuition congruence. Qed.
Lemma enum_valid_RemoteActivity x : RemoteActivityState_Valid x = true <-> x ∈ RemoteActivityState_values.
Proof. unfold RemoteActivityState_values. list_mem. destruct x; cbn; intuition congruence. Qed.
Lemma enum_valid_Release x : ReleaseEvidence_Valid x = true <-> x ∈ ReleaseEvidence_values.
Proof. unfold ReleaseEvidence_values. list_mem. destruct x; cbn; intuition congruence. Qed.

Lemma check_None (e k : option error) : (check e ;; k) = None <-> e = None /\ k = None.
Proof. destruct e; split; [done|by intros [? ?]|done|by intros [_ ?]]. Qed.

Lemma reject_None (c : bool) (e : error) k : (reject c with e ;; k) = None <-> c = false /\ k = None.
Proof. destruct c; split; [done|by intros [? ?]|done|by intros [_ ?]]. Qed.

Lemma validate_values_spec s : validate_values s = None <-> known_values s.
Proof.
  unfold validate_values, known_values. rewrite !reject_None, !negb_false_iff.
  rewrite enum_valid_Orchestration, enum_valid_Execution, enum_valid_Result, enum_valid_Cancellation,
    enum_valid_RemoteActivity, enum_valid_Release. tauto.
Qed.

(** Boolean guards as propositions. *)
Ltac guards_to_prop :=
  rewrite ?check_None, ?reject_None, ?andb_false_iff, ?orb_false_iff, ?andb_true_iff, ?orb_true_iff,
    ?negb_false_iff, ?negb_true_iff, ?bool_decide_eq_true, ?bool_decide_eq_false in *; list_mem.

Lemma validate_activity_spec s :
  known_values s -> validate_activity s = None <->
  (terminal_exec (as_Execution s) -> as_RemoteActivity s = RemoteActivityInactive) /\
  (as_Execution s ∈ [ExecutionQueued; ExecutionStarting; ExecutionRunning] ->
   as_RemoteActivity s ∈ [RemoteActivityUnknown; RemoteActivityPossible; RemoteActivityActive]) /\
  (as_Execution s = ExecutionNotSubmitted ->
   as_RemoteActivity s ∈ [RemoteActivityNotStarted; RemoteActivityUnknown; RemoteActivityInactive]).
Proof.
  intros (_ & _ & _ & _ & Ha & _). unfold RemoteActivityState_values in Ha.
  destruct s as [o e r c a l d]. unfold validate_activity, terminal_exec. cbn [as_RemoteActivity as_Execution] in *.
  guards_to_prop. destruct e; cbn [ExecutionState_Terminal];
    destruct a; try (exfalso; intuition congruence); clear Ha; intuition congruence.
Qed.

Lemma validate_result_spec s :
  validate_result s = None <->
  (as_Result s <> ResultNotAvailable -> terminal_exec (as_Execution s)) /\
  (as_Result s = ResultCollecting ->
   as_Orchestration s ∈ [OrchestrationCollecting; OrchestrationReconciling; OrchestrationNeedsAttention]) /\
  (as_Result s ∈ [ResultIncomplete; ResultInvalid] ->
   as_Orchestration s ∈ [OrchestrationCollecting; OrchestrationReconciling; OrchestrationNeedsAttention;
                         OrchestrationFailed]).
Proof.
  destruct s as [o e r c a l d]. unfold validate_result, terminal_exec.
  cbn [as_Result as_Execution as_Orchestration]. rewrite reject_None. guards_to_prop.
  destruct (ExecutionState_Terminal e), r; try (intuition congruence);
    destruct o; intuition congruence.
Qed.

Lemma validate_cancellation_spec s :
  validate_cancellation s = None <->
  (as_Cancellation s = CancellationPrevented ->
   as_Execution s = ExecutionNotSubmitted /\
   as_RemoteActivity s ∈ [RemoteActivityNotStarted; RemoteActivityInactive]) /\
  (as_Cancellation s = CancellationConfirmed ->
   as_Execution s = ExecutionCancelled /\ as_RemoteActivity s = RemoteActivityInactive) /\
  (as_Cancellation s = CancellationTooLate -> terminal_exec (as_Execution s)).
Proof.
  unfold validate_cancellation, terminal_exec. cbv zeta.
  destruct (as_Cancellation s); guards_to_prop; intuition congruence.
Qed.

Lemma validate_release_spec s :
  validate_release s = None <->
  (as_ReleaseEvidence s = ReleaseEvidenceNotApplicable ->
   as_Execution s = ExecutionNotSubmitted /\ terminal_orch (as_Orchestration s)) /\
  (as_ReleaseEvidence s ∈ [ReleaseEvidenceProviderReported; ReleaseEvidenceConfirmed] ->
   as_RemoteActivity s = RemoteActivityInactive).
Proof.
  unfold validate_release, terminal_orch. cbv zeta.
  destruct (as_ReleaseEvidence s); eval_decide; guards_to_prop; intuition congruence.
Qed.

Lemma validate_terminal_spec s :
  validate_terminal s = None <->
  (terminal_orch (as_Orchestration s) ->
   as_RemoteActivity s ∈ [RemoteActivityInactive; RemoteActivityNotStarted]).
Proof.
  unfold validate_terminal, terminal_orch.
  destruct (OrchestrationState_Terminal _); guards_to_prop; intuition congruence.
Qed.

Lemma validate_orchestration_spec s :
  known_values s -> validate_orchestration s = None <->
  (as_Orchestration s = OrchestrationSubmitted ->
    as_Execution s <> ExecutionNotSubmitted /\
    as_RemoteActivity s ∈ [RemoteActivityUnknown; RemoteActivityPossible; RemoteActivityActive]) /\
  (as_Orchestration s = OrchestrationRunning -> as_Execution s ∈ [ExecutionStarting; ExecutionRunning]) /\
  (as_Orchestration s = OrchestrationCollecting -> terminal_exec (as_Execution s)) /\
  (as_Orchestration s = OrchestrationSucceeded ->
    as_Execution s = ExecutionSucceeded /\ as_Result s ∈ [ResultAvailable; ResultExpired] /\
    as_Cancellation s ∈ [CancellationNotRequested; CancellationTooLate]) /\
  (as_Orchestration s = OrchestrationFailed ->
    as_Execution s ∈ [ExecutionNotSubmitted; ExecutionSucceeded; ExecutionFailed] /\
    as_Cancellation s ∈ [CancellationNotRequested; CancellationTooLate]) /\
  (as_Orchestration s = OrchestrationCancelled ->
    as_Cancellation s ∈ [CancellationPrevented; CancellationConfirmed] /\
    as_Execution s ∈ [ExecutionNotSubmitted; ExecutionCancelled]) /\
  (as_Orchestration s = OrchestrationTimedOut ->
    as_Cancellation s ∈ [CancellationNotRequested; CancellationTooLate] /\
    as_DeadlineExceeded s = true /\ as_Execution s ∈ [ExecutionNotSubmitted; ExecutionTimedOut]).
Proof.
  intros (_ & _ & _ & _ & Ha & _). unfold RemoteActivityState_values in Ha.
  unfold validate_orchestration, terminal_exec. cbv zeta.
  destruct (as_Orchestration s); guards_to_prop; intuition congruence.
Qed.

(** [Validate] accepts exactly the consistent states. *)
Lemma Validate_spec s : AttemptState_Validate s = None <-> consistent s.
Proof.
  unfold AttemptState_Validate. rewrite !check_None, validate_values_spec.
  split.
  - intros (Hv & H). rewrite validate_activity_spec, validate_result_spec, validate_cancellation_spec,
      validate_release_spec, validate_orchestration_spec, validate_terminal_spec in H by done.
    destruct_and!. by constructor.
  - intros []. rewrite validate_activity_spec, validate_result_spec, validate_cancellation_spec,
      validate_release_spec, validate_orchestration_spec, validate_terminal_spec by done.
    split_and!; done.
Qed.
