(* ===== verification/AttemptRuns.v ===== *)
(** * Runs of attempt states

    What the transition graphs of [internal/domain/state_types.go] and
    [transition.go] guarantee along any sequence of accepted transitions. *)

From S2P Require Import Prelude GoStrings Problems AttemptStates.
#[local] Open Scope string_scope.
#[local] Open Scope list_scope.
#[local] Open Scope Z_scope.
#[local] Open Scope bool_scope.

(** ** The transition relation *)
Definition edge {T} (g : Graph T) (x y : T) : Prop := x = y \/ exists l, g x = Some l /\ y ∈ l.

Lemma validateTransition_spec {T} `{EqDecision T} d (name : T -> string) x y (g : Graph T) :
  validateTransition d name x y g = None <-> edge g x y.
Proof.
  unfold validateTransition, edge. case_bool_decide; [naive_solver|].
  destruct (g x) as [l|]; [rewrite reject_None, negb_false_iff, bool_decide_eq_true|]; naive_solver.
Qed.

Record legal_step (c n : AttemptState) : Prop := {
  ls_current : consistent c;
  ls_next : consistent n;
  ls_orchestration : edge orchestrationTransitions (as_Orchestration c) (as_Orchestration n);
  ls_execution : edge executionTransitions (as_Execution c) (as_Execution n) \/
    absence_transition c n = true;
  ls_result : edge resultTransitions (as_Result c) (as_Result n);
  ls_cancellation : edge cancellationTransitions (as_Cancellation c) (as_Cancellation n);
  ls_remote : edge remoteActivityTransitions (as_RemoteActivity c) (as_RemoteActivity n);
  ls_release : edge releaseEvidenceTransitions (as_ReleaseEvidence c) (as_ReleaseEvidence n);
  ls_deadline : as_DeadlineExceeded c = true -> as_DeadlineExceeded n = true }.

Lemma propagate_None (e : option error) (f : error -> error) (k : option error) :
  (propagate e as f ;; k) = None <-> e = None /\ k = None.
Proof. destruct e; split; [done|by intros [? ?]|done|by intros [_ ?]]. Qed.

(** The transition check accepts exactly the legal steps. *)
Lemma transition_spec c n : ValidateAttemptStateTransition c n = None <-> legal_step c n.
Proof.
  unfold ValidateAttemptStateTransition.
  rewrite !propagate_None, ?check_None, reject_None, !Validate_spec, !validateTransition_spec.
  pose proof (validateTransition_spec "execution" ExecutionState_string (as_Execution c) (as_Execution n)
    executionTransitions) as He.
  split.
  - intros (? & ? & ? & Hx & ? & ? & ? & ? & Hd & _). constructor; try done.
    + destruct (validateTransition _ _ _ _ executionTransitions); [right|left; by apply He].
      destruct (absence_transition c n); done.
    + intros E. rewrite E in Hd. by destruct (as_DeadlineExceeded n).
  - intros []. split_and!; try done.
    + destruct (validateTransition _ _ _ _ executionTransitions); [|done].
      destruct ls_execution0 as [E| ->]; [by apply He in E|done].
    + destruct (as_DeadlineExceeded c); [by rewrite ls_deadline0|done].
Qed.

(** Runs: zero or more accepted transitions. *)
Definition attempt_step (c n : AttemptState) : Prop := ValidateAttemptStateTransition c n = None.
Abbreviation attempt_run := (rtc attempt_step).

Lemma run_consistent s s' : attempt_run s s' -> consistent s -> consistent s'.
Proof.
  induction 1 as [|a b c H _ IH]; [done|]. intros _. apply IH.
  by apply transition_spec in H as [].
Qed.

Lemma terminal_orch_edge o o' :
  terminal_orch o -> edge orchestrationTransitions o o' -> o' = o.
Proof.
  unfold terminal_orch, edge. intros Ht [<-|(l & Hl & Hin)]; [done|].
  destruct o; try discriminate Ht; injection Hl as <-; by apply elem_of_nil in Hin.
Qed.

Lemma terminal_exec_edge e e' :
  terminal_exec e -> edge executionTransitions e e' -> e' = e.
Proof.
  unfold terminal_exec, edge. intros Ht [<-|(l & Hl & Hin)]; [done|].
  destruct e; try discriminate Ht; injection Hl as <-; by apply elem_of_nil in Hin.
Qed.

Lemma inactive_edge a :
  edge remoteActivityTransitions RemoteActivityInactive a -> a = RemoteActivityInactive.
Proof. intros [<-|(l & [= <-] & Hin)]; [done|by apply elem_of_nil in Hin]. Qed.

Lemma absence_not_terminal c n : absence_transition c n = true -> ~ terminal_exec (as_Execution c).
Proof.
  unfold absence_transition, terminal_exec. intros H. bool_to_prop.
  rewrite !orb_true_iff, !bool_decide_eq_true in *. destruct (as_Execution c); naive_solver.
Qed.

Lemma run_terminal_orchestration s s' :
  attempt_run s s' -> terminal_orch (as_Orchestration s) -> as_Orchestration s' = as_Orchestration s.
Proof.
  induction 1 as [|a b c H _ IH]; [done|]. intros Ht.
  apply transition_spec in H as []. apply terminal_orch_edge in ls_orchestration0; [|done].
  rewrite IH; congruence.
Qed.

Lemma run_terminal_execution s s' :
  attempt_run s s' -> terminal_exec (as_Execution s) ->
  as_Execution s' = as_Execution s /\ as_RemoteActivity s' = RemoteActivityInactive \/ s' = s.
Proof.
  induction 1 as [|a b c H _ IH]; [by right|]. intros Ht. left.
  apply transition_spec in H as [].
  assert (as_Execution b = as_Execution a) as E.
  { destruct ls_execution0 as [E|E]; [by apply terminal_exec_edge|by apply absence_not_terminal in E]. }
  assert (as_RemoteActivity b = RemoteActivityInactive) as E2.
  { eapply cs_terminal_inactive; [done|]. by rewrite E. }
  rewrite <- E in Ht. destruct (IH Ht) as [[? ?]| ->]; [split; congruence|done].
Qed.

(** How far remote activity has got. *)
Definition activity_rank (a : RemoteActivityState) : Z :=
  match a with
  | RemoteActivityNotStarted => 0
  | RemoteActivityUnknown => 1
  | RemoteActivityPossible => 2
  | RemoteActivityActive => 3
  | RemoteActivityInactive => 4
  | RemoteActivityOther _ => 5
  end.

Lemma activity_rank_edge a b :
  edge remoteActivityTransitions a b -> a = b \/ activity_rank a < activity_rank b.
Proof.
  intros [->|(l & Hl & Hin)]; [by left|right].
  destruct a; try discriminate Hl; injection Hl as <-; list_mem; destruct b; cbn; try lia; intuition congruence.
Qed.

(** Remote activity moves only forward along a run. *)
Lemma run_activity_rank s s' :
  attempt_run s s' ->
  as_RemoteActivity s' = as_RemoteActivity s \/
  activity_rank (as_RemoteActivity s) < activity_rank (as_RemoteActivity s').
Proof.
  induction 1 as [|a b c H _ IH]; [by left|].
  apply transition_spec in H as []. apply activity_rank_edge in ls_remote0.
  destruct ls_remote0 as [E|E], IH as [E'|E']; try rewrite E'; try rewrite E; try (left; congruence); right; lia.
Qed.

(** ** The intended relation

    Which changes of a state are meant to be possible, written without the
    tables of [state_types.go]: dimension by dimension, by what a state is
    reached from, by how far it has got or by what has settled. *)

(** Orchestration, by the state that is entered. Failing, being cancelled
    and timing out are possible from every open state; success only at the end
    of a collection, of a cancellation that came too late or of a resolved
    attention. An attempt goes back to the queue only before it was
    dispatched. *)
Definition orchestration_open (o : OrchestrationState) : Prop :=
  o ∈ [OrchestrationQueued; OrchestrationPreparing; OrchestrationDispatching; OrchestrationSubmitted;
       OrchestrationRunning; OrchestrationCollecting; OrchestrationBlocked; OrchestrationReconciling;
       OrchestrationCancelling; OrchestrationNeedsAttention].
Inductive orchestration_moves : OrchestrationState -> OrchestrationState -> Prop :=
  | enters_end o o' : orchestration_open o ->
      o' ∈ [OrchestrationFailed; OrchestrationCancelled; OrchestrationTimedOut] -> orchestration_moves o o'
  | enters_success o : o ∈ [OrchestrationCollecting; OrchestrationCancelling; OrchestrationNeedsAttention] ->
      orchestration_moves o OrchestrationSucceeded
  | enters_attention o : orchestration_open o -> o <> OrchestrationQueued -> o <> OrchestrationNeedsAttention ->
      orchestration_moves o OrchestrationNeedsAttention
  | enters_reconciliation o : orchestration_open o -> o <> OrchestrationQueued -> o <> OrchestrationReconciling ->
      orchestration_moves o OrchestrationReconciling
  | enters_cancelling o : orchestration_open o -> o ∉ [OrchestrationQueued; OrchestrationCollecting; OrchestrationCancelling] ->
      orchestration_moves o OrchestrationCancelling
  | enters_blocked o : o ∈ [OrchestrationQueued; OrchestrationPreparing; OrchestrationCollecting; OrchestrationReconciling] ->
      orchestration_moves o OrchestrationBlocked
  | enters_queue o : o ∈ [OrchestrationPreparing; OrchestrationBlocked] -> orchestration_moves o OrchestrationQueued
  | enters_preparing o : o ∈ [OrchestrationQueued; OrchestrationBlocked; OrchestrationReconciling] ->
      orchestration_moves o OrchestrationPreparing
  | enters_dispatching o : o ∈ [OrchestrationPreparing; OrchestrationBlocked; OrchestrationReconciling] ->
      orchestration_moves o OrchestrationDispatching
  | enters_submitted o : o ∈ [OrchestrationDispatching; OrchestrationReconciling; OrchestrationNeedsAttention] ->
      orchestration_moves o OrchestrationSubmitted
  | enters_running o :
      o ∈ [OrchestrationDispatching; OrchestrationSubmitted; OrchestrationReconciling; OrchestrationNeedsAttention] ->
      orchestration_moves o OrchestrationRunning
  | enters_collecting o :
      o ∈ [OrchestrationDispatching; OrchestrationSubmitted; OrchestrationRunning; OrchestrationReconciling;
           OrchestrationCancelling; OrchestrationNeedsAttention] ->
      orchestration_moves o OrchestrationCollecting.

(** Execution: how far the provider reported it, and what is not known. It
    only gets further; what was ever reported is not forgotten, and only an
    execution nobody knows anything about may turn out never to have been
    submitted. *)
Definition execution_stage (e : ExecutionState) : option Z :=
  match e with
  | ExecutionNotSubmitted => Some 0
  | ExecutionQueued => Some 1
  | ExecutionStarting => Some 2
  | ExecutionRunning => Some 3
  | ExecutionSucceeded | ExecutionFailed | ExecutionCancelled | ExecutionTimedOut => Some 4
  | ExecutionUnknown | ExecutionOther _ => None
  end.
Inductive execution_moves : ExecutionState -> ExecutionState -> Prop :=
  | execution_further e e' i k : execution_stage e = Some i -> execution_stage e' = Some k -> i < k -> execution_moves e e'
  | execution_uncertain : execution_moves ExecutionNotSubmitted ExecutionUnknown
  | execution_found e i : execution_stage e = Some i -> execution_moves ExecutionUnknown e.

(** The provider says exactly that the resource is gone: the execution that
    was under way has no known end, its remote activity is over, and somebody
    has to look at it. *)
Record resource_absent (c n : AttemptState) : Prop := {
  ra_under_way : as_Execution c ∈ [ExecutionQueued; ExecutionStarting; ExecutionRunning];
  ra_unknown : as_Execution n = ExecutionUnknown;
  ra_attention : as_Orchestration n = OrchestrationNeedsAttention;
  ra_inactive : as_RemoteActivity n = RemoteActivityInactive;
  ra_reported : as_ReleaseEvidence n = ReleaseEvidenceProviderReported }.

(** Results: collected, collected again after a bad collection, expired. *)
Inductive result_moves : ResultState -> ResultState -> Prop :=
  | result_starts r : r ∈ [ResultNotAvailable; ResultIncomplete; ResultInvalid] -> result_moves r ResultCollecting
  | result_ends r : r ∈ [ResultAvailable; ResultIncomplete; ResultInvalid] -> result_moves ResultCollecting r
  | result_expires r : r ∈ [ResultNotAvailable; ResultCollecting; ResultAvailable; ResultIncomplete; ResultInvalid] ->
      result_moves r ResultExpired.

(** Cancellation: requested, sent, accepted, in this order; prevented before
    it is sent; settled by what happened, or handed to a person, who may
    request it again. *)
Definition cancellation_stage (x : CancellationState) : option Z :=
  match x with
  | CancellationRequested => Some 1
  | CancellationRequesting => Some 2
  | CancellationAccepted => Some 3
  | _ => None
  end.
Inductive cancellation_moves : CancellationState -> CancellationState -> Prop :=
  | cancellation_requested x : x ∈ [CancellationNotRequested; CancellationManual] -> cancellation_moves x CancellationRequested
  | cancellation_prevented x : x ∈ [CancellationNotRequested; CancellationRequested] -> cancellation_moves x CancellationPrevented
  | cancellation_further x x' i k : cancellation_stage x = Some i -> cancellation_stage x' = Some k -> i < k ->
      cancellation_moves x x'
  | cancellation_manual x i : cancellation_stage x = Some i -> cancellation_moves x CancellationManual
  | cancellation_settled x x' : is_Some (cancellation_stage x) \/ x = CancellationManual ->
      x' ∈ [CancellationConfirmed; CancellationTooLate] -> cancellation_moves x x'.

(** Remote activity, from none to over, and the evidence that capacity was
    released, from none to confirmed, only grow; evidence may also be found
    not to apply, when there was none before. *)
Definition activity_stage (a : RemoteActivityState) : option Z :=
  match a with
  | RemoteActivityNotStarted => Some 0
  | RemoteActivityUnknown => Some 1
  | RemoteActivityPossible => Some 2
  | RemoteActivityActive => Some 3
  | RemoteActivityInactive => Some 4
  | RemoteActivityOther _ => None
  end.
Definition activity_moves (a a' : RemoteActivityState) : Prop :=
  exists i k, activity_stage a = Some i /\ activity_stage a' = Some k /\ i < k.
Definition release_stage (e : ReleaseEvidence) : option Z :=
  match e with
  | ReleaseEvidenceUnknown => Some 0
  | ReleaseEvidenceNotObservable => Some 1
  | ReleaseEvidenceProviderReported => Some 2
  | ReleaseEvidenceConfirmed => Some 3
  | ReleaseEvidenceNotApplicable | ReleaseEvidenceOther _ => None
  end.
Inductive release_moves : ReleaseEvidence -> ReleaseEvidence -> Prop :=
  | release_grows e e' i k : release_stage e = Some i -> release_stage e' = Some k -> i < k -> release_moves e e'
  | release_not_applicable : release_moves ReleaseEvidenceUnknown ReleaseEvidenceNotApplicable.

(** The whole state: every dimension stays or moves. *)
Definition stays_or {T} (R : T -> T -> Prop) (x y : T) : Prop := x = y \/ R x y.
Record intended_step (c n : AttemptState) : Prop := {
  is_current : consistent c;
  is_next : consistent n;
  is_orchestration : stays_or orchestration_moves (as_Orchestration c) (as_Orchestration n);
  is_execution : stays_or execution_moves (as_Execution c) (as_Execution n) \/ resource_absent c n;
  is_result : stays_or result_moves (as_Result c) (as_Result n);
  is_cancellation : stays_or cancellation_moves (as_Cancellation c) (as_Cancellation n);
  is_remote : stays_or activity_moves (as_RemoteActivity c) (as_RemoteActivity n);
  is_release : stays_or release_moves (as_ReleaseEvidence c) (as_ReleaseEvidence n);
  is_deadline : as_DeadlineExceeded c = true -> as_DeadlineExceeded n = true }.

(** A table states the moves of its dimension. *)
Lemma edge_moves {T} (g : Graph T) (R : T -> T -> Prop) :
  (forall x y, match g x with Some l => y ∈ l <-> R x y | None => ~ R x y end) ->
  forall x y, edge g x y <-> stays_or R x y.
Proof.
  intros H x y. unfold edge, stays_or. specialize (H x y). destruct (g x) as [l|]; [|naive_solver].
  split; [intros [?|(l' & [= <-] & Hin)]|intros [?|?]]; [by left|right; by apply H|by left|right; exists l; split; [done|by apply H]].
Qed.

(** A table and its moves, pair by pair: a rule for each entry, and no rule
    for a pair that is not entered. *)
Ltac move_side := first [reflexivity | lia | discriminate | apply (bool_decide_unpack _); vm_compute; exact I
  | left; eexists; reflexivity | right; reflexivity].
Ltac no_membership := match goal with
  | H : _ ∈ _ |- _ => apply (bool_decide_pack _) in H; vm_compute in H; solve [destruct H]
  | H : _ ∉ _ |- _ => apply (bool_decide_pack _) in H; vm_compute in H; solve [destruct H] end.
Ltac no_move := intros Hm; inversion Hm; subst; unfold orchestration_open in *;
  first [no_membership | congruence | unfold is_Some in *; simplify_eq/=; first [lia | naive_solver]].
Ltac moves_table := intros [] y; cbn; try no_move; (split;
  [intros Hin; list_mem; destruct_or? Hin; subst; try done; once (econstructor; move_side)|revert y; intros []; try solve [intros _; apply (bool_decide_unpack _); vm_compute; exact I]; no_move]).

Lemma orchestration_table x y : edge orchestrationTransitions x y <-> stays_or orchestration_moves x y.
Proof. revert x y. apply edge_moves. moves_table. Qed.
Lemma execution_table x y : edge executionTransitions x y <-> stays_or execution_moves x y.
Proof. revert x y. apply edge_moves. moves_table. Qed.
Lemma result_table x y : edge resultTransitions x y <-> stays_or result_moves x y.
Proof. revert x y. apply edge_moves. moves_table. Qed.
Lemma cancellation_table x y : edge cancellationTransitions x y <-> stays_or cancellation_moves x y.
Proof. revert x y. apply edge_moves. moves_table. Qed.
Lemma activity_table x y : edge remoteActivityTransitions x y <-> stays_or activity_moves x y.
Proof. revert x y. apply edge_moves. intros [] []; unfold activity_moves; cbn; list_mem; naive_solver lia. Qed.
Lemma release_table x y : edge releaseEvidenceTransitions x y <-> stays_or release_moves x y.
Proof. revert x y. apply edge_moves. moves_table. Qed.

Lemma absence_spec c n : absence_transition c n = true <-> resource_absent c n.
Proof.
  unfold absence_transition. rewrite !andb_true_iff, !orb_true_iff, !bool_decide_eq_true. split.
  - intros ((((? & ?) & ?) & ?) & ?). constructor; [list_mem; tauto|done..].
  - intros []. list_mem. tauto.
Qed.

(** The transition check decides the intended relation. *)
Lemma transition_intended c n : ValidateAttemptStateTransition c n = None <-> intended_step c n.
Proof.
  rewrite transition_spec. split; intros [? ? Ho He Hr Hc Ha Hl ?]; constructor; try done;
    first [by apply orchestration_table|by apply result_table|by apply cancellation_table|by apply activity_table
          |by apply release_table|by rewrite execution_table, absence_spec in *].
Qed.

(** ** What a run has been through *)
Lemma attempt_step_result c n : attempt_step c n -> stays_or result_moves (as_Result c) (as_Result n).
Proof. by intros []%transition_intended. Qed.

(** A result is available only after it was collected. *)
Lemma run_collected s s' :
  attempt_run s s' -> as_Result s <> ResultAvailable -> as_Result s' = ResultAvailable ->
  exists c, attempt_run s c /\ attempt_run c s' /\ as_Result c = ResultCollecting.
Proof.
  intros H Hs. revert s' H. refine (rtc_ind_r _ _ _ _); [done|]. intros b s' Hb Hst IH Hs'.
  destruct (attempt_step_result _ _ Hst) as [E|E]; rewrite Hs' in *.
  - destruct (IH E) as (c & ? & ? & ?). exists c. split_and!; try done. by eapply rtc_r.
  - inversion E; subst. exists b. split_and!; [done|by apply rtc_once|done].
Qed.

(** An expired result stays expired. *)
Lemma run_expired s s' : attempt_run s s' -> as_Result s = ResultExpired -> as_Result s' = ResultExpired.
Proof.
  induction 1 as [|a b c H _ IH]; [done|]. intros Ha. apply IH.
  destruct (attempt_step_result _ _ H) as [E|E]; rewrite Ha in E; [done|]. inversion E; list_mem; naive_solver.
Qed.

(** Success is entered once, from one of three states. *)
Lemma run_success_entered s s' :
  attempt_run s s' -> as_Orchestration s <> OrchestrationSucceeded -> as_Orchestration s' = OrchestrationSucceeded ->
  exists p q, attempt_run s p /\ attempt_step p q /\ attempt_run q s' /\ as_Orchestration q = OrchestrationSucceeded /\
    as_Orchestration p ∈ [OrchestrationCollecting; OrchestrationCancelling; OrchestrationNeedsAttention].
Proof.
  intros H Hs. revert s' H. refine (rtc_ind_r _ _ _ _); [done|]. intros b s' Hb Hst IH Hs'.
  pose proof Hst as [_ _ Ho _ _ _ _ _ _]%transition_intended. rewrite Hs' in Ho. destruct Ho as [E|E].
  - destruct (IH E) as (p & q & ? & ? & ? & ? & ?). exists p, q. split_and!; try done. by eapply rtc_r.
  - exists b, s'. split_and!; [done|done|apply rtc_refl|done|]. inversion E; subst; [list_mem; naive_solver|done].
Qed.
