(* ===== verification/Attempts.v ===== *)
(** * Jobs and attempts

    [internal/domain/job_attempt.go]: the immutable job, the attempt with its
    revision and timestamps, and the only way an attempt changes state. *)

From S2P Require Import Prelude GoStrings GoTime Identifiers Problems AttemptStates AttemptRuns.
#[local] Open Scope string_scope.
#[local] Open Scope list_scope.
#[local] Open Scope Z_scope.
#[local] Open Scope bool_scope.

Record ProviderBinding := mkProviderBinding {
  bd_Profile : string; bd_ProviderInstanceID : string; bd_ConfigurationRevision : string }.
#[export] Instance ProviderBinding_eq_dec : EqDecision ProviderBinding.
Proof. solve_decision. Defined.

Definition ProviderBinding_Validate (b : ProviderBinding) : option error :=
  reject TrimSpace (bd_Profile b) ==? "" with ENew "profile must not be empty" ;;
  reject negb (ID_Valid (bd_ProviderInstanceID b)) with ENew "provider instance ID is invalid" ;;
  reject TrimSpace (bd_ConfigurationRevision b) ==? ""
    with ENew "provider configuration revision must not be empty" ;;
  None.

Record Job := mkJob {
  job_ID : string; job_WorkspaceID : string; job_Name : string; job_SpecificationVersion : string;
  job_SpecificationDigest : string; job_Binding : ProviderBinding; job_ActiveAttemptID : string;
  job_CreatedAt : Time }.

Definition NewJob (job : Job) : result error Job :=
  throw negb (ID_Valid (job_ID job)) with ENew "job ID is invalid" ;;
  throw negb (ID_Valid (job_WorkspaceID job)) with ENew "workspace ID is invalid" ;;
  throw TrimSpace (job_Name job) ==? "" with ENew "job name must not be empty" ;;
  throw TrimSpace (job_SpecificationVersion job) ==? ""
    with ENew "job specification version must not be empty" ;;
  throw negb (SHA256Digest_Valid (job_SpecificationDigest job))
    with ENew "job specification digest is invalid" ;;
  match ProviderBinding_Validate (job_Binding job) with
  | Some err => Err (EWrap "provider binding" err)
  | None =>
      throw negb (ID_Valid (job_ActiveAttemptID job)) with ENew "active attempt ID is invalid" ;;
      throw IsZero (job_CreatedAt job) with ENew "job creation time must not be zero" ;;
      Ok job
  end.

Record Attempt := mkAttempt {
  at_ID : string; at_JobID : string; at_Number : Z; at_State : AttemptState; at_Revision : Z;
  at_CreatedAt : Time; at_UpdatedAt : Time }.

Definition Attempt_Validate (a : Attempt) : option error :=
  reject negb (ID_Valid (at_ID a)) with ENew "attempt ID is invalid" ;;
  reject negb (ID_Valid (at_JobID a)) with ENew "job ID is invalid" ;;
  reject at_Number a =? 0 with ENew "attempt number must be positive" ;;
  reject at_Revision a =? 0 with ENew "attempt revision must be positive" ;;
  reject IsZero (at_CreatedAt a) || IsZero (at_UpdatedAt a)
    with ENew "attempt timestamps must not be zero" ;;
  reject Before (at_UpdatedAt a) (at_CreatedAt a)
    with ENew "attempt update time precedes creation" ;;
  propagate AttemptState_Validate (at_State a) as EWrap "attempt state" ;;
  None.

Definition NewAttempt (id jobID : string) (number : Z) (createdAt : Time) : result error Attempt :=
  let attempt := mkAttempt id jobID number InitialAttemptState 1 createdAt createdAt in
  match Attempt_Validate attempt with Some err => Err err | None => Ok attempt end.

(** [Attempt.Transition]; [Revision++] wraps at 64 bits. *)
Definition Attempt_Transition (a : Attempt) (next : AttemptState) (updatedAt : Time) : result error Attempt :=
  match Attempt_Validate a with
  | Some err => Err err
  | None =>
      match ValidateAttemptStateTransition (at_State a) next with
      | Some err => Err err
      | None =>
          if at_State a ==? next then Ok a else
          throw IsZero updatedAt with ENew "attempt transition time must not be zero" ;;
          throw Before updatedAt (at_UpdatedAt a)
            with ENew "attempt transition time precedes current update time" ;;
          throw at_Revision a =? MaxUint64 with ENew "attempt revision overflow" ;;
          Ok (mkAttempt (at_ID a) (at_JobID a) (at_Number a) next (uint64 (at_Revision a + 1))
                (at_CreatedAt a) updatedAt)
      end
  end.

(** ** Lemmas *)
Lemma Attempt_Validate_spec a :
  Attempt_Validate a = None <->
  opaque_id (at_ID a) /\ opaque_id (at_JobID a) /\ at_Number a <> 0 /\ at_Revision a <> 0 /\
  at_CreatedAt a <> zero_time /\ at_UpdatedAt a <> zero_time /\ at_CreatedAt a <= at_UpdatedAt a /\
  consistent (at_State a).
Proof.
  unfold Attempt_Validate, IsZero, Before.
  rewrite !reject_None, propagate_None, orb_false_iff, !negb_false_iff, !validOpaqueID_spec, !Z.eqb_neq,
    Z.ltb_ge, Validate_spec. tauto.
Qed.

Lemma initial_consistent : consistent InitialAttemptState.
Proof. by apply Validate_spec. Qed.

(** An effective or idle transition, with everything else kept. *)
Lemma Attempt_Transition_spec a next now a' :
  Attempt_Transition a next now = Ok a' ->
  Attempt_Validate a = None /\ legal_step (at_State a) next /\
  (a' = a /\ next = at_State a \/
   next <> at_State a /\ at_Revision a <> MaxUint64 /\ now <> zero_time /\ at_UpdatedAt a <= now /\
   a' = mkAttempt (at_ID a) (at_JobID a) (at_Number a) next (uint64 (at_Revision a + 1)) (at_CreatedAt a) now).
Proof.
  unfold Attempt_Transition. intros H. split_guards H; unfold IsZero, Before in *; bool_to_prop;
    injection H as <-; (split; [done|]; split; [by apply transition_spec|]); [by left|right].
  split_and!; done.
Qed.

Lemma Attempt_Transition_valid a next now a' :
  is_uint64 (at_Revision a) -> Attempt_Transition a next now = Ok a' -> Attempt_Validate a' = None.
Proof.
  intros Hr H. apply Attempt_Transition_spec in H as (Hv & Hs & [[-> ->]|(_ & Hm & Hz & Hle & ->)]); [done|].
  rewrite Attempt_Validate_spec in *. cbn. unfold is_uint64 in Hr.
  rewrite uint64_id by (unfold is_uint64; lia).
  destruct_and!. split_and!; try done; try lia. by destruct Hs.
Qed.
