(* ===== verification/Operations.v ===== *)
(** * Operations and events

    [internal/domain/operation_event.go]: durable control operations with
    their write-once outcome, and the events of a job. *)

From S2P Require Import Prelude GoStrings GoTime Identifiers Problems AttemptStates AttemptRuns.
#[local] Open Scope string_scope.
#[local] Open Scope list_scope.
#[local] Open Scope Z_scope.
#[local] Open Scope bool_scope.

(** ** Operations *)
Inductive OperationKind :=
  | OperationCancel | OperationRetryCompute | OperationReconcile | OperationCollect
  | OperationCleanup 
  | OperationKindOther (raw : string).
#[export] Instance OperationKind_eq_dec : EqDecision OperationKind.
Proof. solve_decision. Defined.
Definition OperationKind_string (x : OperationKind) : string :=
  match x with
  | OperationCancel => "cancel"
  | OperationRetryCompute => "retry_compute"
  | OperationReconcile => "reconcile"
  | OperationCollect => "collect"
  | OperationCleanup => "cleanup"
  | OperationKindOther raw => raw
  end.
Definition OperationKind_values : list OperationKind :=
  [OperationCancel; OperationRetryCompute; OperationReconcile; OperationCollect;
   OperationCleanup].
#[export] Instance OperationKind_wire : WireEnum OperationKind.
Proof.
  refine {| wire_name := OperationKind_string; wire_other := OperationKindOther; wire_values := OperationKind_values |}; wire_enum_tac.
Defined.
Definition OperationKind_Valid (kind : OperationKind) : bool :=
  match kind with
  | OperationCancel | OperationRetryCompute | OperationReconcile | OperationCollect
  | OperationCleanup => true
  | OperationKindOther _ => false
  end.

Inductive OperationStatus :=
  | OperationAccepted | OperationRunning | OperationSucceeded | OperationFailed
  | OperationManualRequired 
  | OperationStatusOther (raw : string).
#[export] Instance OperationStatus_eq_dec : EqDecision OperationStatus.
Proof. solve_decision. Defined.
Definition OperationStatus_string (x : OperationStatus) : string :=
  match x with
  | OperationAccepted => "accepted"
  | OperationRunning => "running"
  | OperationSucceeded => "succeeded"
  | OperationFailed => "failed"
  | OperationManualRequired => "manual_required"
  | OperationStatusOther raw => raw
  end.
Definition OperationStatus_values : list OperationStatus :=
  [OperationAccepted; OperationRunning; OperationSucceeded; OperationFailed;
   OperationManualRequired].
#[export] Instance OperationStatus_wire : WireEnum OperationStatus.
Proof.
  refine {| wire_name := OperationStatus_string; wire_other := OperationStatusOther; wire_values := OperationStatus_values |}; wire_enum_tac.
Defined.
Definition OperationStatus_Valid (status : OperationStatus) : bool :=
  match status with
  | OperationAccepted | OperationRunning | OperationSucceeded | OperationFailed
  | OperationManualRequired => true
  | OperationStatusOther _ => false
  end.
Definition OperationStatus_Terminal (status : OperationStatus) : bool :=
  match status with
  | OperationSucceeded | OperationFailed | OperationManualRequired => true
  | _ => false
  end.

Record Operation := mkOperation {
  op_ID : string; op_WorkspaceID : string; op_JobID : string; op_AttemptID : string;
  op_Kind : OperationKind; op_Status : OperationStatus; op_Revision : Z; op_Failure : option Problem;
  op_CreatedAt : Time; op_UpdatedAt : Time }.

Definition operationTransitions : Graph OperationStatus := fun status =>
  match status with
  | OperationAccepted =>
      Some [OperationRunning; OperationSucceeded; OperationFailed; OperationManualRequired]
  | OperationRunning => Some [OperationSucceeded; OperationFailed; OperationManualRequired]
  | OperationSucceeded => Some []
  | OperationFailed => Some []
  | OperationManualRequired => Some []
  | OperationStatusOther _ => None
  end.

Definition Operation_Validate (o : Operation) : option error :=
  reject negb (ID_Valid (op_ID o)) || negb (ID_Valid (op_WorkspaceID o))
    with ENew "operation identity is invalid" ;;
  reject negb (OperationKind_Valid (op_Kind o))
    with EFormat "invalid operation kind" [OperationKind_string (op_Kind o)] ;;
  check (if op_Kind o ==? OperationCleanup then
           reject (op_JobID o <>? "") && negb (ID_Valid (op_JobID o))
             with ENew "cleanup job ID is invalid" ;;
           reject (op_AttemptID o <>? "") && negb (ID_Valid (op_AttemptID o))
             with ENew "cleanup attempt ID is invalid" ;;
           None
         else
           reject negb (ID_Valid (op_JobID o)) || negb (ID_Valid (op_AttemptID o))
             with ENew "job operation requires valid job and attempt IDs" ;;
           None) ;;
  reject negb (OperationStatus_Valid (op_Status o))
    with EFormat "invalid operation status" [OperationStatus_string (op_Status o)] ;;
  reject op_Revision o =? 0 with ENew "operation revision must be positive" ;;
  reject IsZero (op_CreatedAt o) || IsZero (op_UpdatedAt o) || Before (op_UpdatedAt o) (op_CreatedAt o)
    with ENew "operation timestamps are invalid" ;;
  check match op_Failure o with
        | Some failure =>
            propagate Problem_Validate failure as EWrap "operation failure" ;;
            reject (op_Status o <>? OperationFailed) && (op_Status o <>? OperationManualRequired)
              with ENew "operation failure is only valid for failed or manual-required operations" ;;
            None
        | None => None
        end ;;
  reject (op_Status o ==? OperationFailed) && is_nil (op_Failure o)
    with ENew "failed operation requires a structured failure" ;;
  None.

Definition NewOperation (id workspaceID jobID attemptID : string) (kind : OperationKind) (createdAt : Time) :
    result error Operation :=
  let operation := mkOperation id workspaceID jobID attemptID kind OperationAccepted 1 None createdAt createdAt in
  match Operation_Validate operation with Some err => Err err | None => Ok operation end.

(** [failuresEqual]. The details are compared from the left: every key of
    [left] must read the same in [right], where a missing key reads [""]. *)
Definition failuresEqual (left right : option Problem) : bool :=
  match left, right with
  | None, None => true
  | Some l, Some r =>
      if (pb_Code l <>? pb_Code r) || (pb_Message l <>? pb_Message r) || (pb_Stage l <>? pb_Stage r)
         || (pb_SafeOperationRetry l <>? pb_SafeOperationRetry r)
         || (pb_ComputeMayHaveStarted l <>? pb_ComputeMayHaveStarted r)
         || (pb_RecommendedAction l <>? pb_RecommendedAction r)
         || (size (default ∅ (pb_Details l)) <>? size (default ∅ (pb_Details r)))
      then false
      else forallb (fun kv => map_get (pb_Details r) kv.1 ==? kv.2)
             (map_to_list (default ∅ (pb_Details l)))
  | _, _ => false
  end.

(** [Operation.Transition]; [Revision++] wraps at 64 bits. *)
Definition Operation_Transition (o : Operation) (next : OperationStatus) (failure : option Problem)
    (updatedAt : Time) : result error Operation :=
  let refused := ETransition "operation" (OperationStatus_string (op_Status o)) (OperationStatus_string next) in
  let update :=
    throw IsZero updatedAt with ENew "operation transition time must not be zero" ;;
    throw Before updatedAt (op_UpdatedAt o)
      with ENew "operation transition time precedes current update time" ;;
    throw op_Revision o =? MaxUint64 with ENew "operation revision overflow" ;;
    let o' := mkOperation (op_ID o) (op_WorkspaceID o) (op_JobID o) (op_AttemptID o) (op_Kind o)
                next (uint64 (op_Revision o + 1)) failure (op_CreatedAt o) updatedAt in
    match Operation_Validate o' with Some err => Err err | None => Ok o' end in
  match Operation_Validate o with
  | Some err => Err err
  | None =>
      throw negb (OperationStatus_Valid next)
        with EFormat "invalid operation status" [OperationStatus_string next] ;;
      if op_Status o ==? next then
        if failuresEqual (op_Failure o) failure then Ok o
        else throw OperationStatus_Terminal (op_Status o) with refused ;; update
      else
        throw negb (bool_decide (next ∈ default [] (operationTransitions (op_Status o)))) with refused ;;
        update
  end.

(** ** Events *)
Inductive EventType :=
  | EventJobAccepted | EventInputsReady | EventProviderStagingReady
  | EventSubmissionIntentRecorded | EventSubmissionAccepted | EventSubmissionUnknown
  | EventExecutionObserved | EventCancellationRequested | EventCollectionFailed
  | EventArtifactVerified | EventJobCompleted | EventSchedulerClaimed | EventSchedulerDeferred
  | EventSchedulerReleased | EventPreparationIntended | EventPreparationObserved
  | EventSubmissionRejected | EventReconciliationDeferred | EventOperationAccepted
  | EventOperationCompleted | EventAttemptRetried | EventCancellationInvoked
  | EventCancellationObserved | EventReconciliationRequested | EventCollectionRequested
  | EventResultExpired 
  | EventTypeOther (raw : string).
#[export] Instance EventType_eq_dec : EqDecision EventType.
Proof. solve_decision. Defined.
Definition EventType_string (x : EventType) : string :=
  match x with
  | EventJobAccepted => "job.accepted"
  | EventInputsReady => "inputs.ready"
  | EventProviderStagingReady => "provider.staging.ready"
  | EventSubmissionIntentRecorded => "submission.intent_recorded"
  | EventSubmissionAccepted => "submission.accepted"
  | EventSubmissionUnknown => "submission.unknown"
  | EventExecutionObserved => "execution.observed"
  | EventCancellationRequested => "cancellation.requested"
  | EventCollectionFailed => "collection.failed"
  | EventArtifactVerified => "artifact.verified"
  | EventJobCompleted => "job.completed"
  | EventSchedulerClaimed => "scheduler.claimed"
  | EventSchedulerDeferred => "scheduler.deferred"
  | EventSchedulerReleased => "scheduler.released"
  | EventPreparationIntended => "preparation.intent_recorded"
  | EventPreparationObserved => "preparation.observed"
  | EventSubmissionRejected => "submission.rejected"
  | EventReconciliationDeferred => "reconciliation.deferred"
  | EventOperationAccepted => "operation.accepted"
  | EventOperationCompleted => "operation.completed"
  | EventAttemptRetried => "attempt.retried"
  | EventCancellationInvoked => "cancellation.intent_recorded"
  | EventCancellationObserved => "cancellation.observed"
  | EventReconciliationRequested => "reconciliation.requested"
  | EventCollectionRequested => "collection.requested"
  | EventResultExpired => "result.expired"
  | EventTypeOther raw => raw
  end.
Definition EventType_values : list EventType :=
  [EventJobAccepted; EventInputsReady; EventProviderStagingReady;
   EventSubmissionIntentRecorded; EventSubmissionAccepted; EventSubmissionUnknown;
   EventExecutionObserved; EventCancellationRequested; EventCollectionFailed;
   EventArtifactVerified; EventJobCompleted; EventSchedulerClaimed; EventSchedulerDeferred;
   EventSchedulerReleased; EventPreparationIntended; EventPreparationObserved;
   EventSubmissionRejected; EventReconciliationDeferred; EventOperationAccepted;
   EventOperationCompleted; EventAttemptRetried; EventCancellationInvoked;
   EventCancellationObserved; EventReconciliationRequested; EventCollectionRequested;
   EventResultExpired].
#[export] Instance EventType_wire : WireEnum EventType.
Proof.
  refine {| wire_name := EventType_string; wire_other := EventTypeOther; wire_values := EventType_values |}; wire_enum_tac.
Defined.
Definition EventType_Valid (eventType : EventType) : bool :=
  match eventType with EventTypeOther _ => false | _ => true end.

Record Event := mkEvent {
  ev_ID : string; ev_Sequence : Z; ev_WorkspaceID : string; ev_JobID : string; ev_AttemptID : string;
  ev_OperationID : string; ev_Type : EventType; ev_OccurredAt : Time }.

Definition Event_Validate (e : Event) : option error :=
  reject negb (ID_Valid (ev_ID e)) || negb (ID_Valid (ev_WorkspaceID e)) || negb (ID_Valid (ev_JobID e))
    with ENew "event identity is invalid" ;;
  reject ev_Sequence e =? 0 with ENew "event sequence must be positive" ;;
  reject (ev_AttemptID e <>? "") && negb (ID_Valid (ev_AttemptID e))
    with ENew "event attempt ID is invalid" ;;
  reject (ev_OperationID e <>? "") && negb (ID_Valid (ev_OperationID e))
    with ENew "event operation ID is invalid" ;;
  reject negb (EventType_Valid (ev_Type e)) with EFormat "invalid event type" [EventType_string (ev_Type e)] ;;
  reject IsZero (ev_OccurredAt e) with ENew "event timestamp must not be zero" ;;
  None.

(** ** Lemmas *)
Lemma operation_terminal_edge s s' :
  OperationStatus_Terminal s = true -> bool_decide (s' ∈ default [] (operationTransitions s)) = false.
Proof. destruct s; intros; try discriminate; by apply bool_decide_eq_false_2, not_elem_of_nil. Qed.

(** A successful transition is idle, or it advances the revision by one and
    leaves a non-terminal status. *)
Lemma Operation_Transition_spec o next failure now o' :
  Operation_Transition o next failure now = Ok o' ->
  Operation_Validate o = None /\ Operation_Validate o' = None /\
  (o' = o /\ next = op_Status o /\ failuresEqual (op_Failure o) failure = true \/
   OperationStatus_Terminal (op_Status o) = false /\ op_Revision o <> MaxUint64 /\
   op_UpdatedAt o <= now /\
   o' = mkOperation (op_ID o) (op_WorkspaceID o) (op_JobID o) (op_AttemptID o) (op_Kind o)
          next (uint64 (op_Revision o + 1)) failure (op_CreatedAt o) now).
Proof.
  unfold Operation_Transition. cbv zeta. intros H.
  destruct (Operation_Validate o) eqn:Hv; [done|]. split; [done|].
  destruct (negb (OperationStatus_Valid next)); [done|].
  case_bool_decide as Hn.
  - destruct (failuresEqual _ _) eqn:Hf; [injection H as <-; by auto|].
    destruct (OperationStatus_Terminal _) eqn:Ht; [done|].
    split_guards H. injection H as <-. unfold Before in *. bool_to_prop. split; [done|]. right. done.
  - destruct (OperationStatus_Terminal (op_Status o)) eqn:Ht; [by rewrite operation_terminal_edge in H|].
    split_guards H. injection H as <-. unfold Before in *. bool_to_prop. split; [done|]. right. done.
Qed.

(** Runs of transitions, whatever the requested outcomes and times. *)
Inductive operation_step (o o' : Operation) : Prop :=
  operation_step_intro next failure now :
    Operation_Transition o next failure now = Ok o' -> operation_step o o'.
Abbreviation operation_run := (rtc operation_step).

Lemma operation_run_terminal o o' :
  operation_run o o' -> OperationStatus_Terminal (op_Status o) = true -> o' = o.
Proof.
  induction 1 as [|a b c [next failure now H] _ IH]; [done|]. intros Ht.
  apply Operation_Transition_spec in H as (_ & _ & [(-> & _)|(Hf & _)]); [by apply IH|congruence].
Qed.

Lemma operation_run_identity o o' :
  operation_run o o' ->
  op_ID o' = op_ID o /\ op_WorkspaceID o' = op_WorkspaceID o /\ op_JobID o' = op_JobID o /\
  op_AttemptID o' = op_AttemptID o /\ op_Kind o' = op_Kind o /\ op_CreatedAt o' = op_CreatedAt o.
Proof.
  induction 1 as [|a b c [next failure now H] _ IH]; [done|].
  apply Operation_Transition_spec in H as (_ & _ & [(-> & _)|(_ & _ & _ & ->)]); exact IH.
Qed.
