(* ===== verification/DomainRecords.v ===== *)
(** * Domain records

    The remaining value types of [internal/domain]: capabilities, immutable
    objects, and the progress samples of preparation and collection. *)

From S2P Require Import Prelude GoStrings GoTime Identifiers.
#[local] Open Scope string_scope.
#[local] Open Scope list_scope.
#[local] Open Scope Z_scope.
#[local] Open Scope bool_scope.

(** ** Capabilities *)
Definition MaxRemoteWallSeconds : Z := 7 * 24 * 60 * 60.

Inductive CapabilityName :=
  | CapabilityBatchExecution | CapabilityPython | CapabilityShell | CapabilityGPU
  | CapabilityPrivateInputStaging | CapabilityRemoteCancellation | CapabilityRemoteCleanup
  | CapabilityLogsWhileRunning | CapabilityLogsAfterCompletion | CapabilityQuotaReporting
  | CapabilityExecutionTimeout | CapabilitySeparateStart | CapabilityEphemeralSecrets
  | CapabilityAbsoluteDeadline | CapabilityRemoteNetworkControl | CapabilityStrongIdentity
  | CapabilityCustomContainer | CapabilityRetainedSessions 
  | CapabilityOther (raw : string).
#[export] Instance CapabilityName_eq_dec : EqDecision CapabilityName.
Proof. solve_decision. Defined.
Definition CapabilityName_string (x : CapabilityName) : string :=
  match x with
  | CapabilityBatchExecution => "batch_execution"
  | CapabilityPython => "python"
  | CapabilityShell => "shell"
  | CapabilityGPU => "gpu"
  | CapabilityPrivateInputStaging => "private_input_staging"
  | CapabilityRemoteCancellation => "remote_cancellation"
  | CapabilityRemoteCleanup => "remote_cleanup"
  | CapabilityLogsWhileRunning => "logs_while_running"
  | CapabilityLogsAfterCompletion => "logs_after_completion"
  | CapabilityQuotaReporting => "quota_reporting"
  | CapabilityExecutionTimeout => "execution_timeout"
  | CapabilitySeparateStart => "separate_prepare_start"
  | CapabilityEphemeralSecrets => "ephemeral_workload_secrets"
  | CapabilityAbsoluteDeadline => "absolute_execution_deadline"
  | CapabilityRemoteNetworkControl => "remote_network_control"
  | CapabilityStrongIdentity => "strong_execution_identity"
  | CapabilityCustomContainer => "custom_container"
  | CapabilityRetainedSessions => "retained_sessions"
  | CapabilityOther raw => raw
  end.
Definition CapabilityName_values : list CapabilityName :=
  [CapabilityBatchExecution; CapabilityPython; CapabilityShell; CapabilityGPU;
   CapabilityPrivateInputStaging; CapabilityRemoteCancellation; CapabilityRemoteCleanup;
   CapabilityLogsWhileRunning; CapabilityLogsAfterCompletion; CapabilityQuotaReporting;
   CapabilityExecutionTimeout; CapabilitySeparateStart; CapabilityEphemeralSecrets;
   CapabilityAbsoluteDeadline; CapabilityRemoteNetworkControl; CapabilityStrongIdentity;
   CapabilityCustomContainer; CapabilityRetainedSessions].
#[export] Instance CapabilityName_wire : WireEnum CapabilityName.
Proof.
  refine {| wire_name := CapabilityName_string; wire_other := CapabilityOther; wire_values := CapabilityName_values |}; wire_enum_tac.
Defined.

Inductive CapabilitySupport :=
  | CapabilitySupportSupported | CapabilitySupportUnsupported | CapabilitySupportUnknown 
  | CapabilitySupportOther (raw : string).
#[export] Instance CapabilitySupport_eq_dec : EqDecision CapabilitySupport.
Proof. solve_decision. Defined.
Definition CapabilitySupport_string (x : CapabilitySupport) : string :=
  match x with
  | CapabilitySupportSupported => "supported"
  | CapabilitySupportUnsupported => "unsupported"
  | CapabilitySupportUnknown => "unknown"
  | CapabilitySupportOther raw => raw
  end.
Definition CapabilitySupport_values : list CapabilitySupport :=
  [CapabilitySupportSupported; CapabilitySupportUnsupported; CapabilitySupportUnknown].
#[export] Instance CapabilitySupport_wire : WireEnum CapabilitySupport.
Proof.
  refine {| wire_name := CapabilitySupport_string; wire_other := CapabilitySupportOther; wire_values := CapabilitySupport_values |}; wire_enum_tac.
Defined.
Definition CapabilitySupport_Valid (support : CapabilitySupport) : bool :=
  match support with
  | CapabilitySupportSupported | CapabilitySupportUnsupported | CapabilitySupportUnknown => true
  | CapabilitySupportOther _ => false
  end.

Inductive EvidenceLevel :=
  | EvidencePlanned | EvidenceImplementedOffline | EvidenceDocumentedUpstream
  | EvidencePassedLive | EvidenceNotTested | EvidenceBlockedEnvironment 
  | EvidenceOther (raw : string).
#[export] Instance EvidenceLevel_eq_dec : EqDecision EvidenceLevel.
Proof. solve_decision. Defined.
Definition EvidenceLevel_string (x : EvidenceLevel) : string :=
  match x with
  | EvidencePlanned => "planned"
  | EvidenceImplementedOffline => "implemented_offline"
  | EvidenceDocumentedUpstream => "documented_upstream"
  | EvidencePassedLive => "passed_live"
  | EvidenceNotTested => "not_tested"
  | EvidenceBlockedEnvironment => "blocked_environment"
  | EvidenceOther raw => raw
  end.
Definition EvidenceLevel_values : list EvidenceLevel :=
  [EvidencePlanned; EvidenceImplementedOffline; EvidenceDocumentedUpstream;
   EvidencePassedLive; EvidenceNotTested; EvidenceBlockedEnvironment].
#[export] Instance EvidenceLevel_wire : WireEnum EvidenceLevel.
Proof.
  refine {| wire_name := EvidenceLevel_string; wire_other := EvidenceOther; wire_values := EvidenceLevel_values |}; wire_enum_tac.
Defined.
Definition EvidenceLevel_Valid (level : EvidenceLevel) : bool :=
  match level with
  | EvidencePlanned | EvidenceImplementedOffline | EvidenceDocumentedUpstream | EvidencePassedLive
  | EvidenceNotTested | EvidenceBlockedEnvironment => true
  | EvidenceOther _ => false
  end.

(** ** Immutable objects *)
Record ObjectMetadata := mkObjectMetadata {
  om_ID : string; om_WorkspaceID : string; om_Bytes : Z; om_SHA256 : string }.
#[export] Instance ObjectMetadata_eq_dec : EqDecision ObjectMetadata.
Proof. solve_decision. Defined.
Definition ObjectMetadata_Valid (m : ObjectMetadata) : bool :=
  ID_Valid (om_ID m) && ID_Valid (om_WorkspaceID m) && (0 <=? om_Bytes m) && SHA256Digest_Valid (om_SHA256 m).

(** ** Progress samples *)
Record PreparationProgress := mkPreparationProgress {
  pp_Scope : string; pp_Generation : Z; pp_BytesCompleted : Z; pp_BytesTotal : Z; pp_ObservedAt : Time }.
Definition PreparationProgress_Valid (p : PreparationProgress) : bool :=
  (pp_Scope p ==? "staged_input_bytes") && (0 <? pp_Generation p) && negb (IsZero (pp_ObservedAt p))
  && (0 <=? pp_BytesCompleted p) && (pp_BytesCompleted p <=? pp_BytesTotal p)
  && (pp_BytesTotal p <=? 5 * 2 ^ 30).

Record CollectionProgress := mkCollectionProgress {
  cp_Scope : string; cp_Generation : Z; cp_BytesCompleted : Z; cp_BytesReceived : option Z;
  cp_BytesTotal : option Z; cp_ObservedAt : Time }.
Definition CollectionProgress_Valid (p : CollectionProgress) : bool :=
  if (cp_Scope p <>? "selected_output_bytes") || (cp_Generation p <? 1) || IsZero (cp_ObservedAt p)
     || (cp_BytesCompleted p <? 0) || (4 * 2 ^ 30 <? cp_BytesCompleted p) then false
  else if match cp_BytesReceived p with Some r => (r <? 0) || (cp_BytesCompleted p <? r) | None => false end
  then false
  else match cp_BytesTotal p with
       | None => cp_BytesCompleted p =? 0
       | Some total => (0 <=? total) && (total <=? 4 * 2 ^ 30) && (cp_BytesCompleted p <=? total)
       end.

(** ** Collection diagnostics *)
Definition collection_reasons : list string :=
  ["artifact_request_invalid"; "artifact_account_read_failed"; "artifact_account_mismatch";
   "artifact_remote_read_failed"; "artifact_remote_identity_mismatch";
   "artifact_status_read_failed"; "artifact_not_terminal"; "artifact_manifest_download_failed";
   "artifact_manifest_invalid"; "artifact_manifest_missing"; "artifact_file_limit";
   "artifact_byte_limit"; "artifact_path_invalid"; "artifact_output_undeclared";
   "artifact_output_missing"; "artifact_stdout_download_failed";
   "artifact_stderr_download_failed"; "artifact_environment_download_failed";
   "artifact_target_mismatch"; "artifact_write_failed"; "artifact_download_failed";
   "artifact_digest_mismatch"; "artifact_catalog_invalid"; "artifact_credential_unavailable";
   "artifact_call_timeout"; "artifact_runtime_stopped"; "artifact_binding_unavailable";
   "artifact_read_failed"; "artifact_collection_failed"; "artifact_resolver_panic";
   "artifact_discovery_panic"; "artifact_verification_panic"; "artifact_transfer_panic";
   "artifact_catalog_failed"; "artifact_blob_read_failed"; "artifact_blob_write_failed"].
Definition ValidCollectionReason (reason : string) : bool := bool_decide (reason ∈ collection_reasons).

(** ** Lemmas *)
Lemma PreparationProgress_bounds p :
  PreparationProgress_Valid p = true ->
  0 <= pp_BytesCompleted p <= pp_BytesTotal p /\ pp_BytesTotal p <= 5 * 2 ^ 30 /\ 0 < pp_Generation p.
Proof. unfold PreparationProgress_Valid. intros H. bool_to_prop. lia. Qed.

(** New bytes are part of the completed ones, and both fit the declared total. *)
Lemma CollectionProgress_bounds p :
  CollectionProgress_Valid p = true ->
  0 <= default 0 (cp_BytesReceived p) <= cp_BytesCompleted p /\
  cp_BytesCompleted p <= default 0 (cp_BytesTotal p) <= 4 * 2 ^ 30.
Proof.
  unfold CollectionProgress_Valid. intros H. split_guards H; bool_to_prop; subst;
    destruct (cp_BytesReceived p); cbn in *; bool_to_prop; lia.
Qed.
