(* ===== verification/DomainProps.v ===== *)
(** * Properties of the domain

    What the rest of the program relies on in [internal/domain]: which attempt
    states exist and how they change, how attempts and operations are
    versioned, and what a problem shows to the outside. *)

From S2P Require Import Prelude GoStrings GoTime Identifiers Problems AttemptStates AttemptRuns Attempts Operations DomainRecords.
#[local] Open Scope string_scope.
#[local] Open Scope list_scope.
#[local] Open Scope Z_scope.
#[local] Open Scope bool_scope.

(** ** Identifiers *)

(** Identifiers and digests form exactly two closed grammars,
    the same for every kind of identifier: 1 to 128 bytes, a letter or digit
    first, then letters, digits, points, underscores, colons and hyphens; and
    64 lower-case hexadecimal digits. *)
Theorem identifiers_spec :
  (forall kind raw, validateOpaqueID kind raw = None <-> opaque_id raw) /\
  (forall raw, SHA256Digest_Valid raw = true <-> sha256_digest raw).
Proof. split; [exact validateOpaqueID_spec|exact SHA256Digest_Valid_spec]. Qed.

(** ** Attempt states *)

(** C36: the two validators decide exactly the intended relations, which are
    written without the transition tables and checks of the code: [Validate]
    accepts the states whose six dimensions agree with each other, and
    [ValidateAttemptStateTransition] the pairs of such states in which every
    dimension stays or moves as intended: orchestration enters a state only
    from the states it may be entered from, execution, remote activity and
    release evidence only get further (an execution nobody knows anything
    about may turn out to be anything, and one that was not submitted may
    become unknown), results are collected, collected again and expire, a
    cancellation is requested, sent, accepted and settled in this order, an
    execution under way becomes unknown only when the provider reports its
    resource gone (remote activity inactive, release provider-reported,
    attention needed), and an exceeded deadline is never taken back. *)
Theorem state_validators_spec :
  (forall s, AttemptState_Validate s = None <-> consistent s) /\
  (forall c n, ValidateAttemptStateTransition c n = None <-> intended_step c n).
Proof. split; [exact Validate_spec|exact transition_intended]. Qed.

(** Along any sequence of accepted transitions a terminal
    orchestration state and a terminal execution state never change, remote
    activity only moves forward, and an exceeded deadline stays exceeded. *)
Theorem attempt_run_final s s' :
  attempt_run s s' ->
  (terminal_orch (as_Orchestration s) -> as_Orchestration s' = as_Orchestration s) /\
  (terminal_exec (as_Execution s) -> as_Execution s' = as_Execution s) /\
  (as_RemoteActivity s' = as_RemoteActivity s \/ activity_rank (as_RemoteActivity s) < activity_rank (as_RemoteActivity s')) /\
  (as_DeadlineExceeded s = true -> as_DeadlineExceeded s' = true).
Proof.
  intros H. split_and!; [by apply run_terminal_orchestration| |by apply run_activity_rank|].
  - intros Ht. by destruct (run_terminal_execution _ _ H Ht) as [[? _]| ->].
  - induction H as [|a b c [_ _ _ _ _ _ _ _ Hd]%transition_spec _ IH]; auto.
Qed.
Definition sample_failed : AttemptState := InitialAttemptState <| as_Orchestration := OrchestrationFailed |>.
Lemma attempt_run_final_witness :
  attempt_run InitialAttemptState sample_failed /\
  (terminal_orch (as_Orchestration InitialAttemptState) -> as_Orchestration sample_failed = OrchestrationQueued).
Proof.
  assert (attempt_run InitialAttemptState sample_failed) as H by (apply rtc_once; vm_compute; reflexivity).
  split; [exact H|exact (proj1 (attempt_run_final _ _ H))].
Defined.

(** What a reported success and a reported cancellation say. *)
Lemma success_reported s s' :
  attempt_run InitialAttemptState s -> attempt_run s s' -> as_Orchestration s = OrchestrationSucceeded ->
  (exists p q, attempt_run InitialAttemptState p /\ attempt_step p q /\ attempt_run q s /\
     as_Orchestration q = OrchestrationSucceeded /\
     as_Orchestration p ∈ [OrchestrationCollecting; OrchestrationCancelling; OrchestrationNeedsAttention]) /\
  as_Execution s = ExecutionSucceeded /\ as_RemoteActivity s = RemoteActivityInactive /\
  as_Orchestration s' = OrchestrationSucceeded /\ as_Execution s' = ExecutionSucceeded /\
  as_RemoteActivity s' = RemoteActivityInactive /\ as_Result s' ∈ [ResultAvailable; ResultExpired] /\
  (as_Result s = ResultExpired -> as_Result s' = ResultExpired).
Proof.
  intros H H' Ho. pose proof (run_consistent _ _ H initial_consistent) as Hs. pose proof (run_consistent _ _ H' Hs) as Hs'.
  assert (as_Orchestration s' = OrchestrationSucceeded) as Ho'
    by (rewrite <- Ho; apply run_terminal_orchestration; [done|by rewrite Ho]).
  destruct (cs_succeeded _ Hs Ho) as (He & _ & _), (cs_succeeded _ Hs' Ho') as (He' & Hr' & _).
  split_and!; try done; [by apply run_success_entered|apply Hs; by rewrite He|apply Hs'; by rewrite He'|by apply run_expired].
Qed.
Lemma cancellation_reported s :
  consistent s -> as_Orchestration s = OrchestrationCancelled ->
  as_Cancellation s = CancellationPrevented /\ as_Execution s = ExecutionNotSubmitted /\ as_Result s = ResultNotAvailable \/
  as_Cancellation s = CancellationConfirmed /\ as_Execution s = ExecutionCancelled /\
    as_RemoteActivity s = RemoteActivityInactive.
Proof.
  intros Hs Ho. destruct (cs_cancelled _ Hs Ho) as [Hc _]. list_mem. destruct Hc as [Hc|[Hc|[]]]; [left|right].
  - destruct (cs_prevented _ Hs Hc) as [He _]. split_and!; try done. destruct (decide (as_Result s = ResultNotAvailable)) as [|Hn]; [done|].
    apply (cs_result_terminal _ Hs) in Hn. by rewrite He in Hn.
  - by destruct (cs_confirmed _ Hs Hc).
Qed.
(** A list of states, each an accepted transition from the one before. *)
Fixpoint steps_ok (s : AttemptState) (l : list AttemptState) : bool :=
  match l with
  | [] => true
  | s1 :: rest => bool_decide (ValidateAttemptStateTransition s s1 = None) && steps_ok s1 rest
  end.
Lemma states_run l s s' : steps_ok s (l ++ [s']) = true -> attempt_run s s'.
Proof.
  revert s. induction l as [|s1 l IH]; intros s; cbn [app steps_ok]; rewrite andb_true_iff, bool_decide_eq_true; intros [H Hl].
  - by apply rtc_once.
  - eapply rtc_l; [exact H|by apply IH].
Qed.

(** C37: success is earned and final. In every run of accepted transitions
    from a fresh attempt to a state [s], and on to any later state [s'], if
    [s] reports success then it was entered from a collection, a cancellation
    that came too late or a resolved attention, the execution succeeded,
    nothing is active remotely, and [s'] reports the same success, with a
    result that is available or has expired, and an expired one does not come
    back. If the result of [s] is available then the run went through a state
    that was collecting it, after an execution had finished remotely with the
    outcome that [s] still has. If [s] reports cancellation, then either the
    dispatch was prevented, with nothing submitted and no result, or the
    provider confirmed it by a cancelled execution; and [s'] still reports
    cancellation. *)
Theorem no_false_success s s' :
  attempt_run InitialAttemptState s -> attempt_run s s' ->
  (as_Orchestration s = OrchestrationSucceeded ->
     (exists p q, attempt_run InitialAttemptState p /\ attempt_step p q /\ attempt_run q s /\
        as_Orchestration q = OrchestrationSucceeded /\
        as_Orchestration p ∈ [OrchestrationCollecting; OrchestrationCancelling; OrchestrationNeedsAttention]) /\
     as_Execution s = ExecutionSucceeded /\ as_RemoteActivity s = RemoteActivityInactive /\
     as_Orchestration s' = OrchestrationSucceeded /\ as_Execution s' = ExecutionSucceeded /\
     as_RemoteActivity s' = RemoteActivityInactive /\ as_Result s' ∈ [ResultAvailable; ResultExpired] /\
     (as_Result s = ResultExpired -> as_Result s' = ResultExpired)) /\
  (as_Result s = ResultAvailable ->
     exists c, attempt_run InitialAttemptState c /\ attempt_run c s /\ as_Result c = ResultCollecting /\
       as_Orchestration c ∈ [OrchestrationCollecting; OrchestrationReconciling; OrchestrationNeedsAttention] /\
       as_Execution c ∈ [ExecutionSucceeded; ExecutionFailed; ExecutionCancelled; ExecutionTimedOut] /\
       as_RemoteActivity c = RemoteActivityInactive /\ as_Execution s = as_Execution c) /\
  (as_Orchestration s = OrchestrationCancelled ->
     (as_Cancellation s = CancellationPrevented /\ as_Execution s = ExecutionNotSubmitted /\ as_Result s = ResultNotAvailable \/
      as_Cancellation s = CancellationConfirmed /\ as_Execution s = ExecutionCancelled /\
        as_RemoteActivity s = RemoteActivityInactive) /\
     as_Orchestration s' = OrchestrationCancelled).
Proof.
  intros H H'. pose proof (run_consistent _ _ H initial_consistent) as Hs. pose proof (run_consistent _ _ H' Hs) as Hs'.
  split_and!; intros Ho.
  - by apply success_reported.
  - destruct (run_collected _ _ H) as (c & Hc & Hcs & Hr); [done..|]. pose proof (run_consistent _ _ Hc initial_consistent) as Hcc.
    assert (terminal_exec (as_Execution c)) as Ht by (apply Hcc; by rewrite Hr). exists c. split_and!; try done.
    + by apply Hcc.
    + unfold terminal_exec in Ht. list_mem. destruct (as_Execution c); cbn in Ht; tauto || done.
    + by apply Hcc.
    + by destruct (run_terminal_execution _ _ Hcs Ht) as [[? _]| ->].
  - split; [by apply cancellation_reported|]. rewrite <- Ho. apply run_terminal_orchestration; [done|]. by rewrite Ho.
Qed.

(** An attempt that is prepared, dispatched, accepted, run, collected and
    closed, and whose result expires later. *)
Definition life : list AttemptState :=
  let accepted := mkAttemptState OrchestrationSubmitted ExecutionQueued ResultNotAvailable CancellationNotRequested
    RemoteActivityActive ReleaseEvidenceUnknown false in
  let finished := mkAttemptState OrchestrationCollecting ExecutionSucceeded ResultCollecting CancellationNotRequested
    RemoteActivityInactive ReleaseEvidenceProviderReported false in
  [InitialAttemptState <| as_Orchestration := OrchestrationPreparing |>;
   InitialAttemptState <| as_Orchestration := OrchestrationDispatching |>;
   accepted; accepted <| as_Orchestration := OrchestrationRunning |> <| as_Execution := ExecutionRunning |>; finished].
Definition succeeded_state (result : ResultState) : AttemptState :=
  mkAttemptState OrchestrationSucceeded ExecutionSucceeded result CancellationNotRequested
    RemoteActivityInactive ReleaseEvidenceProviderReported false.
Lemma no_false_success_witness :
  attempt_run InitialAttemptState (succeeded_state ResultAvailable) /\
  attempt_run (succeeded_state ResultAvailable) (succeeded_state ResultExpired) /\
  as_RemoteActivity (succeeded_state ResultAvailable) = RemoteActivityInactive /\
  as_Orchestration (succeeded_state ResultExpired) = OrchestrationSucceeded /\
  exists c, attempt_run c (succeeded_state ResultAvailable) /\ as_Result c = ResultCollecting /\
    as_Execution (succeeded_state ResultAvailable) = as_Execution c.
Proof.
  assert (attempt_run InitialAttemptState (succeeded_state ResultAvailable)) as H
    by (apply (states_run life); vm_compute; reflexivity).
  assert (attempt_run (succeeded_state ResultAvailable) (succeeded_state ResultExpired)) as H'
    by (apply (states_run []); vm_compute; reflexivity).
  split; [exact H|]. split; [exact H'|]. destruct (no_false_success _ _ H H') as (Hs & Hr & _).
  destruct (Hs eq_refl) as (_ & _ & ? & ? & _). destruct (Hr eq_refl) as (c & _ & ? & ? & _ & _ & _ & ?).
  split; [assumption|]. split; [assumption|]. exists c. split; [assumption|]. split; assumption.
Defined.

(** ** Versions *)
Inductive attempt_change (a a' : Attempt) : Prop :=
  attempt_change_intro next now : Attempt_Transition a next now = Ok a' -> attempt_change a a'.
Abbreviation attempt_changes := (rtc attempt_change).

(** One change, with the revision it takes. *)
Lemma attempt_change_spec a a' :
  is_uint64 (at_Revision a) -> attempt_change a a' ->
  is_uint64 (at_Revision a') /\ Attempt_Validate a' = None /\ attempt_step (at_State a) (at_State a') /\
  at_UpdatedAt a <= at_UpdatedAt a' /\ (a' = a \/ at_Revision a' = at_Revision a + 1) /\
  at_ID a' = at_ID a /\ at_JobID a' = at_JobID a /\ at_Number a' = at_Number a /\ at_CreatedAt a' = at_CreatedAt a.
Proof.
  intros Hr [next now H]. pose proof (Attempt_Transition_valid _ _ _ _ Hr H) as Hv.
  apply Attempt_Transition_spec in H as (Hva & Hl & [[-> ->]|(_ & Hm & _ & Hle & ->)]).
  - split_and!; try done; [by apply transition_spec|by left].
  - unfold is_uint64 in *. rewrite uint64_id in * by (unfold is_uint64; lia).
    split_and!; cbn; try done; try lia; by apply transition_spec.
Qed.

(** The revision identifies a version of an attempt. Along
    any sequence of [Transition] calls it never wraps around, it grows exactly
    when something changed, identity and creation time stay, the update time
    never goes back, and the record stays valid. *)
Theorem attempt_versions a a' :
  Attempt_Validate a = None -> is_uint64 (at_Revision a) -> attempt_changes a a' ->
  Attempt_Validate a' = None /\ is_uint64 (at_Revision a') /\ attempt_run (at_State a) (at_State a') /\
  at_UpdatedAt a <= at_UpdatedAt a' /\ (a' = a \/ at_Revision a < at_Revision a') /\
  at_ID a' = at_ID a /\ at_JobID a' = at_JobID a /\ at_Number a' = at_Number a /\ at_CreatedAt a' = at_CreatedAt a.
Proof.
  intros Hv Hr H. induction H as [a|a b c Hab _ IH]; [split_and!; auto; [apply rtc_refl|lia]|].
  destruct (attempt_change_spec _ _ Hr Hab) as (Hrb & Hvb & Hst & Hu & Hrev & E1 & E2 & E3 & E4).
  destruct (IH Hvb Hrb) as (? & ? & Hrun & ? & Hrev' & F1 & F2 & F3 & F4).
  split_and!; try done; try congruence; [by eapply rtc_l|lia|].
  destruct Hrev as [-> |Hrev]; [done|]. right. destruct Hrev' as [-> |?]; lia.
Qed.
Definition sample_attempt : Attempt := mkAttempt "attempt-1" "job-1" 1 InitialAttemptState 1 (1000 * Second) (1000 * Second).
Lemma attempt_versions_witness :
  exists a', attempt_changes sample_attempt a' /\ at_Revision a' = 2 /\ attempt_run InitialAttemptState (at_State a').
Proof.
  exists (mkAttempt "attempt-1" "job-1" 1 sample_failed 2 (1000 * Second) (1001 * Second)).
  assert (attempt_changes sample_attempt (mkAttempt "attempt-1" "job-1" 1 sample_failed 2 (1000 * Second) (1001 * Second))) as H
    by (apply rtc_once; exists sample_failed (1001 * Second); vm_compute; reflexivity).
  split; [exact H|]. split; [reflexivity|].
  refine (proj1 (proj2 (proj2 (attempt_versions _ _ _ _ H)))); [vm_compute; reflexivity|].
  split; vm_compute; discriminate.
Defined.

(** ** Operations *)
Lemma operation_step_spec o o' :
  is_uint64 (op_Revision o) -> operation_step o o' ->
  is_uint64 (op_Revision o') /\ Operation_Validate o' = None /\ (o' = o \/ op_Revision o' = op_Revision o + 1).
Proof.
  intros Hr [next failure now H]. apply Operation_Transition_spec in H as (_ & Hv & [[-> _]|(_ & Hm & _ & ->)]); [auto|].
  unfold is_uint64 in *. rewrite uint64_id in * by (unfold is_uint64; lia). split_and!; cbn; try lia; auto.
Qed.

(** The outcome of an operation is written once. Along any
    sequence of [Transition] calls, whatever status, failure and time are
    asked for, a finished operation never changes again, identity and kind
    stay, and the revision grows by one with every change, without wrapping
    around. *)
Theorem operation_once o o' :
  Operation_Validate o = None -> is_uint64 (op_Revision o) -> operation_run o o' ->
  Operation_Validate o' = None /\ is_uint64 (op_Revision o') /\
  (OperationStatus_Terminal (op_Status o) = true -> o' = o) /\
  (o' = o \/ op_Revision o < op_Revision o') /\
  op_ID o' = op_ID o /\ op_WorkspaceID o' = op_WorkspaceID o /\ op_JobID o' = op_JobID o /\
  op_AttemptID o' = op_AttemptID o /\ op_Kind o' = op_Kind o /\ op_CreatedAt o' = op_CreatedAt o.
Proof.
  intros Hv Hr H. pose proof (operation_run_identity _ _ H) as Hid. pose proof (operation_run_terminal _ _ H) as Ht.
  assert (Operation_Validate o' = None /\ is_uint64 (op_Revision o') /\ (o' = o \/ op_Revision o < op_Revision o')) as (? & ? & ?);
    [|by split_and!; try apply Hid].
  clear Hid Ht. induction H as [o|o b c Hob _ IH]; [auto|].
  destruct (operation_step_spec _ _ Hr Hob) as (Hrb & Hvb & Hrev). destruct (IH Hvb Hrb) as (? & ? & Hrev'). split_and!; try done.
  destruct Hrev as [-> |Hrev]; [done|]. right. destruct Hrev' as [-> |?]; lia.
Qed.
Definition sample_operation (status : OperationStatus) (revision : Z) (updated : Time) : Operation :=
  mkOperation "op-1" "workspace-1" "job-1" "attempt-1" OperationCancel status revision None (1000 * Second) updated.
Lemma operation_once_witness :
  let o := sample_operation OperationAccepted 1 (1000 * Second) in
  let o' := sample_operation OperationSucceeded 2 (1001 * Second) in
  operation_run o o' /\ op_Kind o' = op_Kind o /\ (o' = o \/ op_Revision o < op_Revision o').
Proof.
  intros o o'. assert (operation_run o o') as H
    by (apply rtc_once; exists OperationSucceeded None (1001 * Second); vm_compute; reflexivity).
  assert (Operation_Validate o = None) as Hv by (vm_compute; reflexivity).
  assert (is_uint64 (op_Revision o)) as Hr by (split; vm_compute; discriminate).
  pose proof (operation_once o o' Hv Hr H) as (_ & _ & _ & ? & _ & _ & _ & _ & ? & _). split_and!; assumption.
Defined.

(** ** Comparing failures *)
Definition same_failure (l r : Problem) : Prop :=
  pb_Code l = pb_Code r /\ pb_Message l = pb_Message r /\ pb_Stage l = pb_Stage r /\
  pb_SafeOperationRetry l = pb_SafeOperationRetry r /\ pb_ComputeMayHaveStarted l = pb_ComputeMayHaveStarted r /\
  pb_RecommendedAction l = pb_RecommendedAction r /\ default ∅ (pb_Details l) = default ∅ (pb_Details r).
Definition no_blank_detail (p : Problem) : Prop := forall k v, default ∅ (pb_Details p) !! k = Some v -> v <> "".

Lemma details_equal (l r : Problem) :
  no_blank_detail l -> size (default ∅ (pb_Details l)) = size (default ∅ (pb_Details r)) ->
  forallb (fun kv => map_get (pb_Details r) kv.1 ==? kv.2) (map_to_list (default ∅ (pb_Details l))) = true <->
  default ∅ (pb_Details l) = default ∅ (pb_Details r).
Proof.
  intros Hb Hs. rewrite forallb_forall. split.
  - intros H. apply map_subseteq_size_eq; [|lia]. apply map_subseteq_spec. intros k v Hk.
    specialize (H (k, v)). rewrite <- list_elem_of_In, elem_of_map_to_list in H. specialize (H Hk). bool_to_prop. cbn in H.
    unfold map_get in H. destruct (default ∅ (pb_Details r) !! k) eqn:E; cbn in H; [congruence|]. by destruct (Hb k v Hk).
  - intros E [k v] Hk%list_elem_of_In%elem_of_map_to_list. rewrite E in Hk. cbn. unfold map_get. rewrite Hk. cbn.
    by apply bool_decide_eq_true_2.
Qed.

(** [failuresEqual], which decides whether repeating an
    outcome is idle, holds exactly when nothing visible differs, provided no
    recorded detail is blank. *)
Theorem failuresEqual_spec l r : no_blank_detail l -> failuresEqual (Some l) (Some r) = true <-> same_failure l r.
Proof.
  intros Hb. unfold failuresEqual, same_failure. destruct (_ || _) eqn:E.
  - split; [done|]. intros (E1 & E2 & E3 & E4 & E5 & E6 & E7). rewrite E1, E2, E3, E4, E5, E6, E7 in E.
    rewrite !bool_decide_eq_true_2 in E by done. done.
  - bool_to_prop. rewrite details_equal by done. tauto.
Qed.
Definition sample_problem (details : list (string * string)) : Problem :=
  mkProblem CodeRemoteTimeout "Timed out." FailureStageExecution false false RecommendedActionNone
    (Some (list_to_map details)) None.
Lemma failuresEqual_spec_witness :
  let p := sample_problem [("reason", "lost")] in
  no_blank_detail p /\ failuresEqual (Some p) (Some p) = true /\ same_failure p p.
Proof.
  intros p. assert (no_blank_detail p) as Hb.
  { intros k v. cbn. rewrite lookup_insert_Some, lookup_empty. by intros [[_ <-]|[_ [=]]]. }
  split; [exact Hb|]. assert (failuresEqual (Some p) (Some p) = true) as H by (vm_compute; reflexivity).
  split; [exact H|]. exact (proj1 (failuresEqual_spec p p Hb) H).
Defined.

(** C40: with a blank detail the comparison is not an equality:
    a failed operation may be asked to record another failure, with other
    details, and answer that nothing changed. *)
Theorem failuresEqual_blank :
  exists l r, failuresEqual (Some l) (Some r) = true /\ failuresEqual (Some r) (Some l) = false /\ ~ same_failure l r /\
    exists o, op_Failure o = Some l /\ Operation_Transition o OperationFailed (Some r) (op_UpdatedAt o) = Ok o.
Proof.
  set (l := sample_problem [("reason", "")]). set (r := sample_problem [("cause", "lost")]). exists l, r.
  split_and!; [vm_compute; reflexivity|vm_compute; reflexivity| |].
  - intros (_ & _ & _ & _ & _ & _ & H). assert (default ∅ (pb_Details l) !! "reason" = default ∅ (pb_Details r) !! "reason") as E
      by by rewrite H. vm_compute in E. discriminate E.
  - exists (mkOperation "op-1" "workspace-1" "job-1" "attempt-1" OperationCancel OperationFailed 2 (Some l) (1000 * Second) (1001 * Second)).
    split; [reflexivity|vm_compute; reflexivity].
Qed.

(** ** What a problem shows *)

(** The public projection of a problem keeps only closed
    vocabulary: every key is one of seven, every value passes that key's
    check and is the value recorded; what passes is kept, an empty result is
    absent, and projecting again changes nothing. *)
Theorem PublicDetails_spec d :
  (forall k v, default ∅ (public_details d) !! k = Some v <-> detail_ok k v = true /\ map_get d k = v) /\
  public_details d <> Some ∅ /\ public_details (public_details d) = public_details d.
Proof.
  split_and!; [|intros H; by apply public_details_nonempty in H|apply public_details_idem].
  intros k v. rewrite public_details_lookup. destruct (detail_ok k (map_get d k)) eqn:E; split.
  - intros [= <-]. done.
  - intros [_ ->]. done.
  - done.
  - intros [H <-]. congruence.
Qed.
