(* ===== verification/GoSha256.v ===== *)
(** * SHA-256

    Go's [crypto/sha256] and [encoding/hex] as the code uses them: the
    lower-case hexadecimal SHA-256 of a byte string (FIPS 180-4). *)

From S2P Require Import Prelude GoStrings Identifiers.
#[local] Open Scope string_scope.
#[local] Open Scope list_scope.
#[local] Open Scope Z_scope.
#[local] Open Scope bool_scope.

Definition mask32 : Z := 2 ^ 32 - 1.
Definition w32 (z : Z) : Z := Z.land z mask32.
Definition rotr (x n : Z) : Z := Z.lor (Z.shiftr x n) (w32 (Z.shiftl x (32 - n))).

Definition sha_k : list Z :=
  [1116352408; 1899447441; 3049323471; 3921009573; 961987163; 1508970993; 2453635748; 2870763221;
   3624381080; 310598401; 607225278; 1426881987; 1925078388; 2162078206; 2614888103; 3248222580;
   3835390401; 4022224774; 264347078; 604807628; 770255983; 1249150122; 1555081692; 1996064986;
   2554220882; 2821834349; 2952996808; 3210313671; 3336571891; 3584528711; 113926993; 338241895;
   666307205; 773529912; 1294757372; 1396182291; 1695183700; 1986661051; 2177026350; 2456956037;
   2730485921; 2820302411; 3259730800; 3345764771; 3516065817; 3600352804; 4094571909; 275423344;
   430227734; 506948616; 659060556; 883997877; 958139571; 1322822218; 1537002063; 1747873779;
   1955562222; 2024104815; 2227730452; 2361852424; 2428436474; 2756734187; 3204031479; 3329325298].

Record sha_state := mkSha { sa : Z; sb : Z; sc : Z; sd : Z; se : Z; sf : Z; sg : Z; sh : Z }.
Definition sha_init : sha_state :=
  mkSha 1779033703 3144134277 1013904242 2773480762 1359893119 2600822924 528734635 1541459225.

Definition sha_round (s : sha_state) (kw : Z * Z) : sha_state :=
  let s1 := Z.lxor (Z.lxor (rotr (se s) 6) (rotr (se s) 11)) (rotr (se s) 25) in
  let ch := Z.lxor (Z.land (se s) (sf s)) (Z.land (Z.lxor (se s) mask32) (sg s)) in
  let t1 := sh s + s1 + ch + kw.1 + kw.2 in
  let s0 := Z.lxor (Z.lxor (rotr (sa s) 2) (rotr (sa s) 13)) (rotr (sa s) 22) in
  let maj := Z.lxor (Z.lxor (Z.land (sa s) (sb s)) (Z.land (sa s) (sc s))) (Z.land (sb s) (sc s)) in
  mkSha (w32 (t1 + s0 + maj)) (sa s) (sb s) (sc s) (w32 (sd s + t1)) (se s) (sf s) (sg s).

(** The message schedule, newest word first. *)
Fixpoint sha_expand (n : nat) (w : list Z) : list Z :=
  match n with
  | O => w
  | S m =>
      let x15 := nth 14 w 0 in let x2 := nth 1 w 0 in
      let s0 := Z.lxor (Z.lxor (rotr x15 7) (rotr x15 18)) (Z.shiftr x15 3) in
      let s1 := Z.lxor (Z.lxor (rotr x2 17) (rotr x2 19)) (Z.shiftr x2 10) in
      sha_expand m (w32 (nth 15 w 0 + s0 + nth 6 w 0 + s1) :: w)
  end.

Fixpoint words (l : list Z) : list Z :=
  match l with
  | a :: b :: c :: d :: l' => (a * 2 ^ 24 + b * 2 ^ 16 + c * 2 ^ 8 + d) :: words l'
  | _ => []
  end.

Definition sha_block (s : sha_state) (block : list Z) : sha_state :=
  let w := rev (sha_expand 48 (rev (words block))) in
  let r := fold_left sha_round (combine sha_k w) s in
  mkSha (w32 (sa s + sa r)) (w32 (sb s + sb r)) (w32 (sc s + sc r)) (w32 (sd s + sd r))
    (w32 (se s + se r)) (w32 (sf s + sf r)) (w32 (sg s + sg r)) (w32 (sh s + sh r)).

(** Padding: 0x80, zeros, and the bit length in eight bytes. *)
Definition sha_pad (l : list Z) : list Z :=
  let n := Z.of_nat (length l) in
  let zeros := Z.to_nat ((119 - n) `mod` 64) in
  l ++ 128 :: replicate zeros 0 ++
  map (fun i => Z.land (Z.shiftr (8 * n) i) 255) [56; 48; 40; 32; 24; 16; 8; 0].

(** One block per 64 bytes; a padded message has at most [length l] blocks. *)
Fixpoint sha_blocks (fuel : nat) (s : sha_state) (l : list Z) : sha_state :=
  match fuel with
  | O => s
  | S f => match l with [] => s | _ => sha_blocks f (sha_block s (take 64 l)) (drop 64 l) end
  end.

Definition hex_digit (z : Z) : ascii := byte_of (if z <? 10 then 48 + z else 87 + z).
Definition hex_word (z : Z) : list ascii :=
  map (fun i => hex_digit (Z.land (Z.shiftr z i) 15)) [28; 24; 20; 16; 12; 8; 4; 0].

(** [hex.EncodeToString(sha256.Sum256(data))]. *)
Definition sha256_hex (data : string) : string :=
  let l := sha_pad (map byte_val (bytes_of data)) in
  let s := sha_blocks (length l) sha_init l in
  string_of (concat (map hex_word [sa s; sb s; sc s; sd s; se s; sf s; sg s; sh s])).
#[global] Arguments sha256_hex : simpl never.

Example sha256_empty :
  sha256_hex "" = "e3b0c44298fc1c149afbf4c8996fb92427ae41e4649b934ca495991b7852b855".
Proof. vm_compute. reflexivity. Qed.
Example sha256_abc :
  sha256_hex "abc" = "ba7816bf8f01cfea414140de5dae2223b00361a396177a9cb410ff61f20015ad".
Proof. vm_compute. reflexivity. Qed.
Example sha256_two_blocks :
  sha256_hex "abcdbcdecdefdefgefghfghighijhijkijkljklmklmnlmnomnopnopq"
  = "248d6a61d20638b8e5c026930c3e6039a33ce45964ff2167f6ecedd419db06c1".
Proof. vm_compute. reflexivity. Qed.

(** ** A digest is always canonical *)
Lemma hex_digit_hex z : 0 <= z < 16 -> hex_lower (byte_val (hex_digit z)) = true.
Proof.
  intros H. unfold hex_digit, hex_lower, is_digit, between. rewrite orb_true_iff, !andb_true_iff.
  case_match; bool_to_prop; rewrite byte_val_of, !Z.leb_le by lia; lia.
Qed.

Lemma hex_word_hex z :
  length (hex_word z) = 8%nat /\ Forall (fun c => hex_lower (byte_val c) = true) (hex_word z).
Proof.
  split; [done|]. unfold hex_word. apply Forall_fmap, Forall_forall. intros i _. apply hex_digit_hex.
  change 15 with (Z.ones 4). rewrite Z.land_ones by lia. apply Z.mod_pos_bound. lia.
Qed.

Lemma sha256_hex_valid data : SHA256Digest_Valid (sha256_hex data) = true.
Proof.
  apply SHA256Digest_Valid_spec. unfold sha256_digest, sha256_hex. cbv zeta.
  rewrite len_bytes, bytes_of_string_of.
  generalize (sha_blocks (length (sha_pad (map byte_val (bytes_of data)))) sha_init
                (sha_pad (map byte_val (bytes_of data)))). intros s.
  cbn [map concat]. rewrite !length_app, app_nil_r.
  split; [done|]. rewrite !Forall_app. split_and!; apply hex_word_hex.
Qed.
