(* ===== verification/GoJson.v ===== *)
(** * JSON

    The part of Go's [encoding/json] the code depends on: the bytes
    [json.Marshal] produces (they are hashed and measured), [json.Valid], and
    the compaction of an embedded [json.RawMessage]. *)

From S2P Require Import Prelude GoStrings.
#[local] Open Scope string_scope.
#[local] Open Scope list_scope.
#[local] Open Scope Z_scope.
#[local] Open Scope bool_scope.

(** A value to encode. Object fields are in encoding order; [JRaw] is an
    already encoded [json.RawMessage]. *)
Inductive json :=
  | JNull
  | JBool (b : bool)
  | JInt (z : Z)
  | JStr (s : string)
  | JArr (l : list json)
  | JObj (fields : list (string * json))
  | JRaw (text : list ascii).

(** ** UTF-8

    The width of the first rune of [l], or [None] when it is not valid UTF-8. *)
Definition cont (c : Z) : bool := between 128 191 c.
Definition utf8_width (l : list ascii) : option nat :=
  match map byte_val (take 4 l) with
  | [] => None
  | b0 :: r =>
      if b0 <? 128 then Some 1%nat
      else match r with
      | b1 :: r1 =>
          if between 194 223 b0 && cont b1 then Some 2%nat
          else match r1 with
          | b2 :: r2 =>
              if (((b0 =? 224) && between 160 191 b1) || (between 225 236 b0 && cont b1)
                  || ((b0 =? 237) && between 128 159 b1) || (between 238 239 b0 && cont b1))
                 && cont b2 then Some 3%nat
              else match r2 with
              | b3 :: _ =>
                  if (((b0 =? 240) && between 144 191 b1) || (between 241 243 b0 && cont b1)
                      || ((b0 =? 244) && between 128 143 b1)) && cont b2 && cont b3
                  then Some 4%nat else None
              | [] => None
              end
          | [] => None
          end
      | [] => None
      end
  end.

Definition lit (s : string) : list ascii := bytes_of s.
Definition hexd (z : Z) : ascii := byte_of (if z <? 10 then 48 + z else 87 + z).

(** U+2028 and U+2029, which Go escapes because JavaScript does not accept
    them in string literals. *)
Definition line_separator (l : list ascii) : option Z :=
  match map byte_val (take 3 l) with
  | [226; 128; 168] => Some 8
  | [226; 128; 169] => Some 9
  | _ => None
  end.

Definition html_unsafe (c : Z) : bool := (c =? 60) || (c =? 62) || (c =? 38).
Definition escape_byte (html : bool) (c : ascii) : list ascii :=
  let b := byte_val c in
  if (b =? 92) || (b =? 34) then [byte_of 92; c]
  else if b =? 8 then lit "\b" else if b =? 12 then lit "\f" else if b =? 10 then lit "\n"
  else if b =? 13 then lit "\r" else if b =? 9 then lit "\t"
  else if (b <? 32) || (html && html_unsafe b) then lit "\u00" ++ [hexd (b / 16); hexd (b `mod` 16)]
  else [c].

(** The body of an encoded string; each step consumes at least one byte. *)
Fixpoint json_chars (fuel : nat) (html : bool) (l : list ascii) : list ascii :=
  match fuel, l with
  | S f, c :: l' =>
      match utf8_width l with
      | Some 1%nat => escape_byte html c ++ json_chars f html l'
      | Some w =>
          match line_separator l with
          | Some d => lit "\u202" ++ [hexd d] ++ json_chars f html (drop w l)
          | None => take w l ++ json_chars f html (drop w l)
          end
      | None => lit "\ufffd" ++ json_chars f html l'
      end
  | _, _ => []
  end.
Definition json_quote (html : bool) (s : string) : list ascii :=
  let l := bytes_of s in byte_of 34 :: json_chars (length l) html l ++ [byte_of 34].

Fixpoint json_bytes (html : bool) (v : json) : list ascii :=
  match v with
  | JNull => lit "null"
  | JBool b => lit (if b then "true" else "false")
  | JInt z => lit (FormatInt z)
  | JStr s => json_quote html s
  | JArr l =>
      lit "[" ++
      (fix go (l : list json) (first : bool) : list ascii :=
         match l with
         | [] => []
         | x :: l' => (if first then [] else lit ",") ++ json_bytes html x ++ go l' false
         end) l true ++ lit "]"
  | JObj fields =>
      lit "{" ++
      (fix go (l : list (string * json)) (first : bool) : list ascii :=
         match l with
         | [] => []
         | (k, x) :: l' =>
             (if first then [] else lit ",") ++ json_quote html k ++ lit ":" ++ json_bytes html x
             ++ go l' false
         end) fields true ++ lit "}"
  | JRaw text => text
  end.

(** [json.Marshal], and an encoder with [SetEscapeHTML(false)] whose trailing
    newline has been trimmed. *)
Definition Marshal (v : json) : string := string_of (json_bytes true v).
Definition Encode_noHTML (v : json) : string := string_of (json_bytes false v).

(** Omit-empty fields. *)
Definition opt_field (name : string) (v : option json) : list (string * json) :=
  match v with Some v => [(name, v)] | None => [] end.
Definition str_field (name s : string) : list (string * json) :=
  if s ==? "" then [] else [(name, JStr s)].
Definition bool_field (name : string) (b : bool) : list (string * json) :=
  if b then [(name, JBool b)] else [].
Definition nullable {A} (f : A -> json) (v : option A) : json :=
  match v with Some a => f a | None => JNull end.

(** A [map[string]string]: keys in byte order. *)
Definition entry_le (a b : string * string) : Prop := str_leb a.1 b.1 = true.
#[export] Instance entry_le_dec a b : Decision (entry_le a b).
Proof. unfold entry_le. apply _. Defined.
Definition json_map (m : gmap string string) : json :=
  JObj (map (fun kv => (kv.1, JStr kv.2)) (merge_sort entry_le (map_to_list m))).

(** ** json.Valid *)
Definition is_ws (c : ascii) : bool :=
  let b := byte_val c in (b =? 32) || (b =? 9) || (b =? 13) || (b =? 10).
Fixpoint skip_ws (l : list ascii) : list ascii :=
  match l with c :: l' => if is_ws c then skip_ws l' else l | [] => [] end.

Definition is_hex (c : ascii) : bool :=
  let b := byte_val c in is_digit b || between 97 102 b || between 65 70 b.

(** After the opening quote: what follows the closing one. *)
Fixpoint scan_string (fuel : nat) (l : list ascii) : option (list ascii) :=
  match fuel, l with
  | S f, c :: l' =>
      let b := byte_val c in
      if b =? 34 then Some l'
      else if b <? 32 then None
      else if b =? 92 then
        match l' with
        | e :: l'' =>
            if existsb (Z.eqb (byte_val e)) [98; 102; 110; 114; 116; 92; 47; 34] then scan_string f l''
            else if byte_val e =? 117 then
              match l'' with
              | h1 :: h2 :: h3 :: h4 :: l3 =>
                  if is_hex h1 && is_hex h2 && is_hex h3 && is_hex h4 then scan_string f l3 else None
              | _ => None
              end
            else None
        | [] => None
        end
      else scan_string f l'
  | _, _ => None
  end.

Fixpoint skip_digits (l : list ascii) : list ascii :=
  match l with c :: l' => if is_digit (byte_val c) then skip_digits l' else l | [] => [] end.
Definition digits1 (l : list ascii) : option (list ascii) :=
  match l with c :: l' => if is_digit (byte_val c) then Some (skip_digits l') else None | [] => None end.
Definition scan_exponent (l : list ascii) : option (list ascii) :=
  match l with
  | c :: l' =>
      if (byte_val c =? 101) || (byte_val c =? 69) then
        match l' with
        | s :: l'' => if (byte_val s =? 43) || (byte_val s =? 45) then digits1 l'' else digits1 l'
        | [] => None
        end
      else Some l
  | [] => Some []
  end.
Definition scan_fraction (l : list ascii) : option (list ascii) :=
  match l with
  | c :: l' => if byte_val c =? 46 then l'' ← digits1 l'; scan_exponent l'' else scan_exponent l
  | [] => Some []
  end.
(** An unsigned number: [0] or a digit sequence not starting with it. *)
Definition scan_unsigned (l : list ascii) : option (list ascii) :=
  match l with
  | c :: l' =>
      if byte_val c =? 48 then scan_fraction l'
      else if is_digit (byte_val c) then scan_fraction (skip_digits l') else None
  | [] => None
  end.
Definition scan_number (l : list ascii) : option (list ascii) :=
  match l with
  | c :: l' => if byte_val c =? 45 then scan_unsigned l' else scan_unsigned l
  | [] => None
  end.

Definition max_nesting : Z := 10000.

(** What the scanner expects next. *)
Inductive scan_mode := ScanValue | ScanMembers | ScanElements.

(** Every call consumes a byte or moves from a container to its content, so
    twice the input length is enough fuel. *)
Fixpoint scan (fuel : nat) (mode : scan_mode) (depth : Z) (l : list ascii) : option (list ascii) :=
  match fuel with
  | O => None
  | S f =>
      match mode with
      | ScanValue =>
          match skip_ws l with
          | [] => None
          | c :: r =>
              let b := byte_val c in
              if b =? 123 then
                if max_nesting <? depth + 1 then None else
                match skip_ws r with
                | c' :: r' => if byte_val c' =? 125 then Some r' else scan f ScanMembers (depth + 1) r
                | [] => None
                end
              else if b =? 91 then
                if max_nesting <? depth + 1 then None else
                match skip_ws r with
                | c' :: r' => if byte_val c' =? 93 then Some r' else scan f ScanElements (depth + 1) r
                | [] => None
                end
              else if b =? 34 then scan_string (length r) r
              else if b =? 116 then strip_prefix (lit "true") (c :: r)
              else if b =? 102 then strip_prefix (lit "false") (c :: r)
              else if b =? 110 then strip_prefix (lit "null") (c :: r)
              else scan_number (c :: r)
          end
      | ScanMembers =>
          match skip_ws l with
          | c :: r =>
              if byte_val c =? 34 then
                r ← scan_string (length r) r;
                match skip_ws r with
                | c' :: r =>
                    if byte_val c' =? 58 then
                      r ← scan f ScanValue depth r;
                      match skip_ws r with
                      | c'' :: r =>
                          if byte_val c'' =? 44 then scan f ScanMembers depth r
                          else if byte_val c'' =? 125 then Some r else None
                      | [] => None
                      end
                    else None
                | [] => None
                end
              else None
          | [] => None
          end
      | ScanElements =>
          r ← scan f ScanValue depth l;
          match skip_ws r with
          | c :: r =>
              if byte_val c =? 44 then scan f ScanElements depth r
              else if byte_val c =? 93 then Some r else None
          | [] => None
          end
      end
  end.

(** [json.Valid(data)]. *)
Definition Valid (data : string) : bool :=
  let l := bytes_of data in
  match scan (2 * length l + 1) ScanValue 0 l with
  | Some r => bool_decide (skip_ws r = [])
  | None => false
  end.

(** ** Compaction of an embedded raw message

    White space outside strings goes; HTML-sensitive bytes and line separators
    are escaped. [q] says whether the position is inside a string and whether
    the previous byte was a backslash. *)
Inductive quote_state := Outside | Inside | Escaped.
Definition quote_step (q : quote_state) (b : Z) : quote_state :=
  match q with
  | Outside => if b =? 34 then Inside else Outside
  | Inside => if b =? 34 then Outside else if b =? 92 then Escaped else Inside
  | Escaped => Inside
  end.
Fixpoint compact_bytes (fuel : nat) (q : quote_state) (l : list ascii) : list ascii :=
  match fuel, l with
  | S f, c :: l' =>
      let b := byte_val c in
      if html_unsafe b then lit "\u00" ++ [hexd (b / 16); hexd (b `mod` 16)] ++ compact_bytes f (quote_step q b) l'
      else match line_separator l with
      | Some d => lit "\u202" ++ [hexd d] ++ compact_bytes f (quote_step q b) (drop 3 l)
      | None =>
          match q with
          | Outside => if is_ws c then compact_bytes f q l' else c :: compact_bytes f (quote_step q b) l'
          | _ => c :: compact_bytes f (quote_step q b) l'
          end
      end
  | _, _ => []
  end.
Definition compact (text : string) : list ascii :=
  let l := bytes_of text in compact_bytes (length l) Outside l.

(** A string after encoding and decoding: invalid UTF-8 becomes U+FFFD. *)
Fixpoint sanitize_bytes (fuel : nat) (l : list ascii) : list ascii :=
  match fuel, l with
  | S f, c :: l' =>
      match utf8_width l with
      | Some w => take w l ++ sanitize_bytes f (drop w l)
      | None => map byte_of [239; 191; 189] ++ sanitize_bytes f l'
      end
  | _, _ => []
  end.
Definition sanitize (s : string) : string :=
  let l := bytes_of s in string_of (sanitize_bytes (length l) l).
#[global] Arguments sanitize : simpl never.
#[global] Arguments Marshal : simpl never.
#[global] Arguments Valid : simpl never.

Example json_example :
  Marshal (JObj [("a", JStr "x<y"); ("b", JArr [JInt (-5); JBool true; JNull])])
  = "{" +:+ String (byte_of 34) ("a" +:+ String (byte_of 34) (":" +:+ String (byte_of 34)
    ("x\u003cy" +:+ String (byte_of 34) ("," +:+ String (byte_of 34) ("b" +:+ String (byte_of 34)
    ":[-5,true,null]}"))))).
Proof. vm_compute. reflexivity. Qed.
