(* ===== verification/JsonRead.v ===== *)
(** * Reading JSON

    The reading side of Go's [encoding/json] that the code depends on: the
    values of a document with their strings decoded and their numbers as
    text ([UseNumber]), in document order. *)

From S2P Require Import Prelude GoStrings GoJson.
#[local] Open Scope string_scope.
#[local] Open Scope list_scope.
#[local] Open Scope Z_scope.
#[local] Open Scope bool_scope.

Inductive jvalue :=
  | VNull
  | VBool (b : bool)
  | VNum (text : list ascii)
  | VStr (s : string)
  | VArr (l : list jvalue)
  | VObj (fields : list (string * jvalue)).

(** ** Runes *)
Definition RuneError : Z := 65533.
(** [utf8.AppendRune]: surrogates and values out of range become U+FFFD. *)
Definition encode_rune (r : Z) : list ascii :=
  let r := if between 55296 57343 r || (r <? 0) || (1114111 <? r) then RuneError else r in
  map byte_of
    (if r <? 128 then [r]
     else if r <? 2048 then [192 + r / 64; 128 + r `mod` 64]
     else if r <? 65536 then [224 + r / 4096; 128 + (r / 64) `mod` 64; 128 + r `mod` 64]
     else [240 + r / 262144; 128 + (r / 4096) `mod` 64; 128 + (r / 64) `mod` 64; 128 + r `mod` 64]).

Definition hex_value (c : ascii) : option Z :=
  let b := byte_val c in
  if is_digit b then Some (b - 48) else if between 97 102 b then Some (b - 87)
  else if between 65 70 b then Some (b - 55) else None.
(** The four hexadecimal digits of an escape. *)
Definition read_u4 (l : list ascii) : option (Z * list ascii) :=
  match l with
  | a :: b :: c :: d :: l' =>
      a ← hex_value a; b ← hex_value b; c ← hex_value c; d ← hex_value d;
      Some (4096 * a + 256 * b + 16 * c + d, l')
  | _ => None
  end.
Definition is_surrogate (r : Z) : bool := between 55296 57343 r.
(** [utf16.DecodeRune] on a pair. *)
Definition decode_pair (high low : Z) : option Z :=
  if between 55296 56319 high && between 56320 57343 low
  then Some ((high - 55296) * 1024 + (low - 56320) + 65536) else None.
(** After the [u] of an escape: the rune and what follows it. *)
Definition read_unicode (l : list ascii) : option (list ascii * list ascii) :=
  '(r, l1) ← read_u4 l;
  if is_surrogate r then
    match l1 with
    | b :: u :: l2 =>
        if (byte_val b =? 92) && (byte_val u =? 117) then
          match read_u4 l2 with
          | Some (r2, l3) =>
              match decode_pair r r2 with
              | Some rune => Some (encode_rune rune, l3)
              | None => Some (encode_rune RuneError, l1)
              end
          | None => Some (encode_rune RuneError, l1)
          end
        else Some (encode_rune RuneError, l1)
    | _ => Some (encode_rune RuneError, l1)
    end
  else Some (encode_rune r, l1).

Definition simple_escape (e : Z) : option Z :=
  if (e =? 34) || (e =? 92) || (e =? 47) then Some e
  else if e =? 98 then Some 8 else if e =? 102 then Some 12 else if e =? 110 then Some 10
  else if e =? 114 then Some 13 else if e =? 116 then Some 9 else None.

(** After the opening quote: the decoded bytes and what follows the closing
    quote. Malformed UTF-8 becomes U+FFFD byte by byte. *)
Fixpoint read_string (fuel : nat) (l : list ascii) : option (list ascii * list ascii) :=
  match fuel, l with
  | S f, c :: l' =>
      let b := byte_val c in
      if b =? 34 then Some ([], l')
      else if b <? 32 then None
      else if b =? 92 then
        match l' with
        | e :: l'' =>
            if byte_val e =? 117 then
              '(out, l3) ← read_unicode l'';
              '(s, rest) ← read_string f l3; Some (out ++ s, rest)
            else
              out ← simple_escape (byte_val e);
              '(s, rest) ← read_string f l''; Some (byte_of out :: s, rest)
        | [] => None
        end
      else
        match utf8_width l with
        | Some w => '(s, rest) ← read_string f (drop w l); Some (take w l ++ s, rest)
        | None => '(s, rest) ← read_string f l'; Some (encode_rune RuneError ++ s, rest)
        end
  | _, _ => None
  end.

(** ** Values

    Every call consumes a byte or moves from a container to its content, so
    twice the input length is enough fuel. *)
Definition read_literal (name : string) (v : jvalue) (l : list ascii) : option (jvalue * list ascii) :=
  rest ← strip_prefix (lit name) l; Some (v, rest).
Definition read_number (l : list ascii) : option (jvalue * list ascii) :=
  rest ← scan_number l; Some (VNum (take (length l - length rest) l), rest).

Fixpoint read_value (fuel : nat) (l : list ascii) : option (jvalue * list ascii) :=
  match fuel with
  | O => None
  | S f =>
      match skip_ws l with
      | [] => None
      | c :: r =>
          let b := byte_val c in
          if b =? 123 then
            match skip_ws r with
            | c' :: r' =>
                if byte_val c' =? 125 then Some (VObj [], r')
                else '(fields, rest) ← read_members f r; Some (VObj fields, rest)
            | [] => None
            end
          else if b =? 91 then
            match skip_ws r with
            | c' :: r' =>
                if byte_val c' =? 93 then Some (VArr [], r')
                else '(values, rest) ← read_elements f r; Some (VArr values, rest)
            | [] => None
            end
          else if b =? 34 then '(s, rest) ← read_string (length r) r; Some (VStr (string_of s), rest)
          else if b =? 116 then read_literal "true" (VBool true) (c :: r)
          else if b =? 102 then read_literal "false" (VBool false) (c :: r)
          else if b =? 110 then read_literal "null" VNull (c :: r)
          else read_number (c :: r)
      end
  end
with read_members (fuel : nat) (l : list ascii) : option (list (string * jvalue) * list ascii) :=
  match fuel with
  | O => None
  | S f =>
      match skip_ws l with
      | c :: r =>
          if byte_val c =? 34 then
            '(key, r) ← read_string (length r) r;
            match skip_ws r with
            | c' :: r =>
                if byte_val c' =? 58 then
                  '(v, r) ← read_value f r;
                  match skip_ws r with
                  | c'' :: r =>
                      if byte_val c'' =? 44
                      then '(fields, rest) ← read_members f r; Some ((string_of key, v) :: fields, rest)
                      else if byte_val c'' =? 125 then Some ([(string_of key, v)], r) else None
                  | [] => None
                  end
                else None
            | [] => None
            end
          else None
      | [] => None
      end
  end
with read_elements (fuel : nat) (l : list ascii) : option (list jvalue * list ascii) :=
  match fuel with
  | O => None
  | S f =>
      '(v, r) ← read_value f l;
      match skip_ws r with
      | c :: r =>
          if byte_val c =? 44 then '(values, rest) ← read_elements f r; Some (v :: values, rest)
          else if byte_val c =? 93 then Some ([v], r) else None
      | [] => None
      end
  end.

(** A whole document: one value and white space. *)
Definition ReadDocument (raw : string) : option jvalue :=
  let l := bytes_of raw in
  '(v, rest) ← read_value (2 * length l + 1) l;
  if bool_decide (skip_ws rest = []) then Some v else None.

(** ** Access

    Members of an object, as [json.Unmarshal] into a struct or a map finds
    them: a later member with the same name replaces an earlier one. *)
Definition member (name : string) (fields : list (string * jvalue)) : option jvalue :=
  snd <$> last (filter (fun kv => kv.1 = name) fields).
Definition duplicate_free (fields : list (string * jvalue)) : bool := bool_decide (NoDup fields.*1).
