(* ===== verification/Canonical.v ===== *)
(** * Canonical requests

    [internal/admission/canonical.go]: the integer-only normalisation of a
    submitted JSON document whose bytes identify the request. *)

From S2P Require Import Prelude GoStrings GoTime GoSha256 GoJson JsonRead Identifiers Problems.
#[local] Open Scope string_scope.
#[local] Open Scope list_scope.
#[local] Open Scope Z_scope.
#[local] Open Scope bool_scope.

Definition MaxRequestBytes : Z := 2 ^ 20.
Definition CanonicalVersion : string := "compute-relay/job-request/v1".
Definition ErrSpec : error := ENew "invalid job specification".
Definition ErrKey : error := ENew "invalid idempotency key".

(** ** Unicode *)
Fixpoint utf8_valid (fuel : nat) (l : list ascii) : bool :=
  match fuel, l with
  | _, [] => true
  | S f, _ => match utf8_width l with Some w => utf8_valid f (drop w l) | None => false end
  | O, _ => false
  end.

(** The loop of [validUnicode]: no escaped surrogate without its partner. *)
Fixpoint surrogates_paired (fuel : nat) (inString : bool) (l : list ascii) : bool :=
  match fuel, l with
  | _, [] => negb inString
  | O, _ => false
  | S f, c :: l' =>
      if byte_val c =? 34 then surrogates_paired f (negb inString) l'
      else if negb inString || negb (byte_val c =? 92) then surrogates_paired f inString l'
      else match l' with
      | [] => false
      | e :: l2 =>
          if negb (byte_val e =? 117) then surrogates_paired f inString l2
          else match read_u4 l2 with
          | None => false
          | Some (n, l3) =>
              if between 56320 57343 n then false
              else if between 55296 56319 n then
                match l3 with
                | b :: u :: l4 =>
                    if negb ((byte_val b =? 92) && (byte_val u =? 117)) then false
                    else match read_u4 l4 with
                    | Some (low, l5) => if between 56320 57343 low then surrogates_paired f inString l5 else false
                    | None => false
                    end
                | _ => false
                end
              else surrogates_paired f inString l3
          end
      end
  end.
Definition validUnicode (raw : string) : bool :=
  let l := bytes_of raw in utf8_valid (length l) l && surrogates_paired (length l) false l.

(** ** Numbers

    The parts of a JSON number: signed digits, how many of them follow the
    point, and the exponent. *)
Definition signed (t : list ascii) : bool * list ascii :=
  match t with
  | c :: t' => if byte_val c =? 45 then (true, t') else if byte_val c =? 43 then (false, t') else (false, t)
  | [] => (false, [])
  end.
Definition read_exponent (t : list ascii) : option Z :=
  match t with
  | [] => Some 0
  | _ :: t' => let '(neg, ds) := signed t' in e ← read_digits 0 ds; Some (if neg then - e else e)
  end.
Definition number_parts (t : list ascii) : option (Z * Z * Z) :=
  let '(neg, t) := signed t in
  let '(ip, t) := span_digits t in
  let '(fp, t) := match t with
                  | c :: t' => if byte_val c =? 46 then span_digits t' else ([], t)
                  | [] => ([], [])
                  end in
  m ← read_digits 0 (ip ++ fp);
  e ← read_exponent t;
  Some (if neg then - m else m, Z.of_nat (length fp), e).
Definition safe_integer : Z := 9007199254740991.
(** The integer a number denotes, if it is one within the exact range. *)
Definition normal_number (t : list ascii) : option Z :=
  if 64 <? Z.of_nat (length t) then None else
  '(m, frac, e) ← number_parts t;
  if negb (between (-20) 20 e) then None else
  let n := e - frac in
  x ← if 0 <=? n then Some (m * 10 ^ n)
      else if m `mod` 10 ^ (- n) =? 0 then Some (m / 10 ^ (- n)) else None;
  if between (- safe_integer) safe_integer x then Some x else None.

(** ** Values

    [readValue]: bounded depth, no repeated member, integers only. A Go map
    has no order: members are kept in the order they are encoded in. *)
Definition field_le (a b : string * json) : Prop := str_leb a.1 b.1 = true.
#[export] Instance field_le_dec a b : Decision (field_le a b).
Proof. unfold field_le. apply _. Defined.
Fixpoint normal_value (depth : nat) (v : jvalue) : option json :=
  match depth with
  | O => None
  | S d =>
      match v with
      | VNull => Some JNull
      | VBool b => Some (JBool b)
      | VStr s => Some (JStr s)
      | VNum t => JInt <$> normal_number t
      | VArr l => JArr <$> mapM (normal_value d) l
      | VObj fields =>
          if negb (duplicate_free fields) then None else
          members ← mapM (fun kv => v ← normal_value d kv.2; Some (kv.1, v)) fields;
          Some (JObj (merge_sort field_le members))
      end
  end.
(** Depths 0 to 16. *)
Definition max_depth : nat := 17.

Definition canonicalJSON (raw : string) : result error (string * json) :=
  throw (len raw =? 0) || (MaxRequestBytes <? len raw) || negb (validUnicode raw) with ErrSpec ;;
  match ReadDocument raw ≫= normal_value max_depth with
  | Some ((JObj _) as v) =>
      let b := Marshal v in
      throw MaxRequestBytes <? len b with ErrSpec ;;
      Ok (b, v)
  | _ => Err ErrSpec
  end.

Definition digest (b : string) : string := sha256_hex b.

(** The digest of an idempotency key. *)
Definition KeyDigest (key : string) : result error string :=
  throw (len key <? 8) || (256 <? len key) with ErrKey ;;
  throw negb (all_bytes (fun c => negb ((c <? 33) || (126 <? c))) key) with ErrKey ;;
  Ok (digest key).

Definition quoted (s : string) : string := String (byte_of 34) (s +:+ String (byte_of 34) "").
Example canonical_example :
  canonicalJSON (" {" +:+ quoted "b" +:+ ":[1.50e1, true ], " +:+ quoted "a" +:+ ":" +:+ quoted "x\u003c\ud83d\ude00" +:+ "} ")
  = Ok ("{" +:+ quoted "a" +:+ ":" +:+ quoted ("x\u003c" +:+ string_of (map byte_of [240; 159; 152; 128])) +:+ "," +:+ quoted "b" +:+ ":[15,true]}",
        JObj [("a", JStr ("x<" +:+ string_of (map byte_of [240; 159; 152; 128]))); ("b", JArr [JInt 15; JBool true])]).
Proof. vm_compute. reflexivity. Qed.
