(* ===== verification/JsonText.v ===== *)
(** * What is printed can be read

    The two directions of [encoding/json] against each other: strings,
    integers and values that were encoded are decoded to what they were. *)

From S2P Require Import Prelude GoStrings GoTime GoJson JsonRead Canonical.
#[local] Open Scope string_scope.
#[local] Open Scope list_scope.
#[local] Open Scope Z_scope.
#[local] Open Scope bool_scope.

(** ** Runes *)

(** All of [l] is UTF-8; any fuel from the length on gives the same answer. *)
Definition utf8_ok (l : list ascii) : Prop := utf8_valid (length l) l = true.

Lemma utf8_width_bound l w : utf8_width l = Some w -> (0 < w <= length l)%nat.
Proof.
  unfold utf8_width. destruct l as [|c0 [|c1 [|c2 [|c3 l]]]]; cbn; repeat case_match; intros; simplify_eq; lia.
Qed.
Lemma utf8_width_take l w r : utf8_width l = Some w -> utf8_width (take w l ++ r) = Some w.
Proof.
  unfold utf8_width. destruct l as [|c0 l]; [done|]. cbn. destruct (byte_val c0 <? 128) eqn:E0; [intros [= <-]; cbn; by rewrite E0|].
  destruct l as [|c1 l]; [done|]. cbn. destruct (between 194 223 (byte_val c0) && cont (byte_val c1)) eqn:E1.
  { intros [= <-]. cbn. by rewrite E0, E1. }
  destruct l as [|c2 l]; [done|]. cbn. destruct (_ && cont (byte_val c2)) eqn:E2.
  { intros [= <-]. cbn. by rewrite E0, E1, E2. }
  destruct l as [|c3 l]; [done|]. cbn. destruct (_ && cont (byte_val c3)) eqn:E3; [|done].
  intros [= <-]. cbn. by rewrite E0, E1, E2, E3.
Qed.
Lemma utf8_valid_fuel l : forall f, (length l <= f)%nat -> utf8_valid f l = utf8_valid (length l) l.
Proof.
  induction l as [l IH] using (induction_ltof1 _ length); unfold ltof in IH.
  destruct l as [|c l]; intros [|f] Hf; cbn in Hf; try done; [lia|]. cbn [utf8_valid length].
  destruct (utf8_width (c :: l)) as [w|] eqn:E; [|done]. pose proof (utf8_width_bound _ _ E) as Hw. cbn in Hw.
  rewrite IH by (rewrite ?length_drop; cbn; lia). symmetry. apply IH; rewrite ?length_drop; cbn; lia.
Qed.
Lemma utf8_ok_nil : utf8_ok [].
Proof. done. Qed.
(** A whole rune in front. *)
Lemma utf8_ok_rune r l : r <> [] -> utf8_width (r ++ l) = Some (length r) -> utf8_ok l -> utf8_ok (r ++ l).
Proof.
  intros Hr Hw Hl. unfold utf8_ok. destruct r as [|c r]; [done|]. cbn [app length utf8_valid]. cbn [app] in Hw. rewrite Hw.
  cbn [length drop]. rewrite drop_app_length, utf8_valid_fuel by (rewrite length_app; lia). exact Hl.
Qed.
Lemma utf8_ok_cons l : utf8_ok l -> l <> [] -> exists w, utf8_width l = Some w /\ utf8_ok (drop w l).
Proof.
  unfold utf8_ok. destruct l as [|c l]; [done|]. cbn [length utf8_valid]. intros H _.
  destruct (utf8_width (c :: l)) as [w|] eqn:E; [|done]. pose proof (utf8_width_bound _ _ E). exists w. split; [done|].
  rewrite utf8_valid_fuel in H; [done|]. rewrite length_drop. cbn. lia.
Qed.
(** Induction along the runes of a text. *)
Lemma utf8_ok_ind (P : list ascii -> Prop) :
  P [] ->
  (forall w l, utf8_width l = Some w -> (0 < w <= length l)%nat -> utf8_ok (drop w l) -> P (drop w l) -> P l) ->
  forall l, utf8_ok l -> P l.
Proof.
  intros H0 HS l. induction l as [l IH] using (induction_ltof1 _ length); unfold ltof in IH. intros Hl.
  destruct (decide (l = [])) as [->|Hn]; [done|]. destruct (utf8_ok_cons l Hl Hn) as (w & Hw & Hd).
  pose proof (utf8_width_bound _ _ Hw) as Hb. apply (HS w l Hw Hb Hd), IH; [|done]. rewrite length_drop. lia.
Qed.
Lemma utf8_ok_app a b : utf8_ok a -> utf8_ok b -> utf8_ok (a ++ b).
Proof.
  intros Ha Hb. revert Ha. apply (utf8_ok_ind (fun a => utf8_ok (a ++ b))); [done|].
  intros w l Hw Hl _ IH. rewrite <- (take_drop w l), <- app_assoc. apply utf8_ok_rune; [|  |done].
  - destruct l; [cbn in Hl; lia|]. by destruct w; [lia|].
  - rewrite length_take_le by lia. by apply utf8_width_take.
Qed.
Lemma utf8_ok_ascii l : Forall (fun c => byte_val c < 128) l -> utf8_ok l.
Proof.
  induction 1 as [|c l Hc _ IH]; [done|]. apply (utf8_ok_rune [c]); [done| |done].
  unfold utf8_width. cbn. by rewrite (proj2 (Z.ltb_lt _ _) Hc).
Qed.

(** ** Strings *)
(** Reading an escaped byte. *)
Lemma read_escape c f X :
  byte_val c < 128 -> read_string (S f) (escape_byte true c ++ X) = '(s, rest) ← read_string f X; Some (c :: s, rest).
Proof.
  intros Hc. destruct c as [b0 b1 b2 b3 b4 b5 b6 []]; [|]; [by destruct b0, b1, b2, b3, b4, b5, b6|].
  destruct b0, b1, b2, b3, b4, b5, b6; reflexivity.
Qed.
(** Reading a rune that was copied. *)
Lemma read_rune l w f X :
  utf8_width l = Some w -> w <> 1%nat ->
  read_string (S f) (take w l ++ X) = '(s, rest) ← read_string f X; Some (take w l ++ s, rest).
Proof.
  intros Hw H1. pose proof (utf8_width_take _ _ X Hw) as HW. pose proof (utf8_width_bound _ _ Hw) as Hb.
  assert (exists c t, take w l = c :: t /\ 128 <= byte_val c) as (c & t & Ht & Hc).
  { destruct l as [|c l]; [cbn in Hb; lia|]. destruct w as [|w]; [lia|]. exists c, (take w l). split; [done|].
    destruct (Z.ltb_spec (byte_val c) 128) as [Hc|]; [|done]. exfalso. revert Hw. unfold utf8_width. cbn.
    rewrite (proj2 (Z.ltb_lt _ _) Hc). intros [= E]. lia. }
  assert (length (take w l) = w) as HL by (rewrite length_take; lia). rewrite Ht in *. cbn [app] in *. cbn [read_string].
  rewrite (proj2 (Z.eqb_neq (byte_val c) 34)), (proj2 (Z.ltb_ge (byte_val c) 32)), (proj2 (Z.eqb_neq (byte_val c) 92)) by lia.
  rewrite HW. rewrite <- HL. cbn [length drop take]. by rewrite drop_app_length, take_app_length.
Qed.
Lemma line_separator_width l d :
  line_separator l = Some d -> (d = 8 \/ d = 9) /\ take 3 l = encode_rune (8224 + d) /\ utf8_width l = Some 3%nat.
Proof.
  unfold line_separator. destruct l as [|c0 [|c1 [|c2 l]]]; cbn; intros H;
    repeat (case_match; try discriminate); simplify_eq.
  all: repeat match goal with
       | E : byte_val ?c = Z.pos _ |- _ => apply (f_equal byte_of) in E; rewrite byte_of_val in E; subst c end.
  all: split_and!; [auto|reflexivity|reflexivity].
Qed.
Lemma read_separator d f X :
  d = 8 \/ d = 9 ->
  read_string (S f) ((lit "\u202" ++ [hexd d]) ++ X) = '(s, rest) ← read_string f X; Some (encode_rune (8224 + d) ++ s, rest).
Proof. intros [-> | ->]; reflexivity. Qed.

(** One step of the encoder, by the first rune. *)
Definition json_rune (w : nat) (l : list ascii) : list ascii :=
  match w, l with
  | 1%nat, c :: _ => escape_byte true c
  | _, _ => match line_separator l with Some d => lit "\u202" ++ [hexd d] | None => take w l end
  end.
Lemma json_chars_step f l w :
  utf8_width l = Some w -> json_chars (S f) true l = json_rune w l ++ json_chars f true (drop w l).
Proof.
  intros Hw. pose proof (utf8_width_bound _ _ Hw). destruct l as [|c l]; [done|]. cbn [json_chars]. rewrite Hw. unfold json_rune.
  destruct w as [|[|w]]; [lia|done|]. destruct (line_separator (c :: l)); [|done]. by rewrite <- app_assoc.
Qed.
Lemma read_json_rune l w f X :
  utf8_width l = Some w -> read_string (S f) (json_rune w l ++ X) = '(s, rest) ← read_string f X; Some (take w l ++ s, rest).
Proof.
  intros Hw. pose proof (utf8_width_bound _ _ Hw) as Hb. unfold json_rune. destruct l as [|c l]; [cbn in Hb; lia|].
  assert (w = 1%nat \/ w <> 1%nat) as [->|H1] by lia.
  - apply read_escape. destruct (Z.ltb_spec (byte_val c) 128) as [|Hc]; [done|]. exfalso. revert Hw. unfold utf8_width. cbn.
    rewrite (proj2 (Z.ltb_ge _ _) Hc). by repeat case_match.
  - destruct w as [|[|w]]; [lia|lia|]. destruct (line_separator (c :: l)) as [d|] eqn:E; [|by apply read_rune].
    apply line_separator_width in E as (Hd & Ht & Hw'). rewrite Hw in Hw'. injection Hw' as ->. rewrite Ht. by apply read_separator.
Qed.
Lemma json_rune_length l w : utf8_width l = Some w -> (1 <= length (json_rune w l))%nat.
Proof.
  intros Hw. pose proof (utf8_width_bound _ _ Hw) as Hb. unfold json_rune. destruct l as [|c l]; [cbn in Hb; lia|].
  destruct w as [|[|w]]; [lia| |].
  - unfold escape_byte. repeat case_match; cbn; lia.
  - destruct (line_separator _); [cbn; lia|]. rewrite length_take. lia.
Qed.

(** What [json.Marshal] quotes, the decoder reads back. *)
Lemma read_json_chars l : utf8_ok l -> forall f g rest,
  (length l <= f)%nat -> (length (json_chars f true l) < g)%nat ->
  read_string g (json_chars f true l ++ byte_of 34 :: rest) = Some (l, rest).
Proof.
  intros Hl. revert l Hl. apply (utf8_ok_ind (fun l => forall f g rest, _ -> _ -> _)).
  - intros f [|g] rest _ Hg; [lia|]. destruct f; reflexivity.
  - intros w l Hw Hb Hd IH [|f] g rest Hf Hg; [lia|]. rewrite (json_chars_step f l w Hw) in Hg |- *.
    rewrite length_app in Hg. pose proof (json_rune_length l w Hw). destruct g as [|g]; [lia|].
    rewrite <- app_assoc, read_json_rune by done. rewrite IH by (rewrite ?length_drop; lia). cbn. by rewrite take_drop.
Qed.

(** ** Decoded strings are UTF-8 *)
Lemma encode_rune_ok r l : utf8_ok l -> utf8_ok (encode_rune r ++ l).
Proof.
  intros Hl. apply utf8_ok_rune; [unfold encode_rune; repeat case_match; done| |done].
  unfold encode_rune. set (q := if _ || _ || _ then _ else _).
  assert (0 <= q <= 1114111 /\ ~ (55296 <= q <= 57343)) as [Hq Hs].
  { subst q. unfold between, RuneError. destruct (_ || _ || _) eqn:E; [lia|]. bool_to_prop. lia. }
  clearbody q. unfold utf8_width, cont, between.
  destruct (Z.ltb_spec q 128); [cbn; rewrite byte_val_of by lia; destruct (Z.ltb_spec q 128); [done|lia]|].
  assert (0 <= q `mod` 64 < 64) by (apply Z.mod_pos_bound; lia).
  destruct (Z.ltb_spec q 2048).
  { assert (2 <= q / 64 < 32) by (split; [apply Z.div_le_lower_bound|apply Z.div_lt_upper_bound]; lia).
    cbn. rewrite !byte_val_of by lia. repeat case_match; try done; lia. }
  assert (0 <= (q / 64) `mod` 64 < 64) by (apply Z.mod_pos_bound; lia).
  destruct (Z.ltb_spec q 65536).
  { assert (0 <= q / 4096 < 16) by (split; [apply Z.div_le_lower_bound|apply Z.div_lt_upper_bound]; lia).
    assert (q / 64 = 64 * (q / 4096) + (q / 64) `mod` 64 /\ q = 64 * (q / 64) + q `mod` 64) as [E1 E2].
    { assert (q / 64 / 64 = q / 4096) by (by rewrite Z.div_div by lia). pose proof (Z.div_mod (q / 64) 64).
      pose proof (Z.div_mod q 64). lia. }
    cbn. rewrite !byte_val_of by lia. repeat case_match; try done; lia. }
  assert (0 <= (q / 4096) `mod` 64 < 64) by (apply Z.mod_pos_bound; lia).
  assert (0 <= q / 262144 < 5) by (split; [apply Z.div_le_lower_bound|apply Z.div_lt_upper_bound]; lia).
  assert (q / 4096 = 64 * (q / 262144) + (q / 4096) `mod` 64 /\ 4096 * (q / 4096) <= q < 4096 * (q / 4096) + 4096) as [E1 E2].
  { assert (q / 4096 / 64 = q / 262144) by (by rewrite Z.div_div by lia). pose proof (Z.div_mod (q / 4096) 64).
    pose proof (Z.div_mod q 4096). pose proof (Z.mod_pos_bound q 4096). lia. }
  cbn. rewrite !byte_val_of by lia. repeat case_match; try done; lia.
Qed.
Lemma simple_escape_ascii e out : simple_escape e = Some out -> 0 <= out < 128.
Proof. unfold simple_escape. repeat case_match; intros; simplify_eq; bool_to_prop; try lia.
Qed.
Lemma read_unicode_ok l out rest s : read_unicode l = Some (out, rest) -> utf8_ok s -> utf8_ok (out ++ s).
Proof.
  unfold read_unicode. intros H Hs. destruct (read_u4 l) as [[r l1]|]; [|done]. cbn [mbind option_bind] in H.
  repeat match type of H with context [match ?x with _ => _ end] => destruct x; try discriminate H end;
    injection H as <- _; by apply encode_rune_ok.
Qed.
Lemma read_string_ok f : forall l s rest, read_string f l = Some (s, rest) -> utf8_ok s.
Proof.
  induction f as [|f IH]; intros [|c l] s rest; cbn [read_string]; try discriminate.
  destruct (byte_val c =? 34); [by intros [= <- _]|]. destruct (byte_val c <? 32) eqn:E32; [done|].
  destruct (byte_val c =? 92).
  - destruct l as [|e l]; [done|]. destruct (byte_val e =? 117).
    + destruct (read_unicode l) as [[out l3]|] eqn:Eu; [|done]. cbn [mbind option_bind].
      destruct (read_string f l3) as [[s' r]|] eqn:Er; [|done]. intros [= <- _]. eapply read_unicode_ok; [exact Eu|by eapply IH].
    + destruct (simple_escape _) as [out|] eqn:Ee; [|done]. cbn [mbind option_bind].
      destruct (read_string f l) as [[s' r]|] eqn:Er; [|done]. intros [= <- _]. apply simple_escape_ascii in Ee.
      apply (utf8_ok_app [byte_of out]); [|by eapply IH]. apply utf8_ok_ascii. constructor; [|done]. rewrite byte_val_of by lia. lia.
  - destruct (utf8_width (c :: l)) as [w|] eqn:Ew.
    + destruct (read_string f _) as [[s' r]|] eqn:Er; [|done]. intros [= <- _]. pose proof (utf8_width_bound _ _ Ew).
      apply utf8_ok_rune; [by destruct w; [lia|]| |by eapply IH]. rewrite length_take_le by lia. by apply utf8_width_take.
    + destruct (read_string f l) as [[s' r]|] eqn:Er; [|done]. intros [= <- _]. apply (encode_rune_ok RuneError). by eapply IH.
Qed.

(** ** Integers *)
Definition digit_text (l : list ascii) : Prop := Forall (fun c => is_digit (byte_val c) = true) l.
Lemma json_digit_byte z : 0 <= z -> is_digit (byte_val (byte_of (48 + z `mod` 10))) = true /\ byte_val (byte_of (48 + z `mod` 10)) - 48 = z `mod` 10.
Proof. intros Hz. pose proof (Z.mod_pos_bound z 10). rewrite byte_val_of by lia. unfold is_digit, between. lia. Qed.
Lemma digits_app f : forall z acc, digits_of_aux f z acc = digits_of_aux f z [] ++ acc.
Proof.
  induction f as [|f IH]; intros z acc; [done|]. cbn [digits_of_aux]. case_match; [done|].
  rewrite (IH (z / 10) (_ :: acc)), (IH (z / 10) [_]), <- app_assoc. done.
Qed.
(** No leading zero, and the value is read back. *)
Lemma digits_spec f : forall z, 0 <= z < 10 ^ Z.of_nat f -> (0 < f)%nat ->
  digit_text (digits_of_aux f z []) /\ read_digits 0 (digits_of_aux f z []) = Some z /\
  (length (digits_of_aux f z []) <= f)%nat /\
  exists c l, digits_of_aux f z [] = c :: l /\ (byte_val c = 48 -> z = 0 /\ l = []).
Proof.
  induction f as [|f IH]; intros z Hz Hf; [lia|]. cbn [digits_of_aux]. destruct (json_digit_byte z) as [Hd Hv]; [lia|].
  destruct (Z.ltb_spec z 10) as [H10|H10].
  - rewrite Z.mod_small in * by lia. split_and!; [by repeat constructor| |cbn; lia|].
    + cbn [read_digits]. rewrite Hd. f_equal. lia.
    + do 2 eexists. split; [done|]. intros E. split; [lia|done].
  - rewrite digits_app. rewrite Nat2Z.inj_succ, Z.pow_succ_r in Hz by lia.
    destruct (IH (z / 10)) as (H1 & H2 & H3 & c & l & H4 & H5).
    { split; [apply Z.div_pos; lia|apply Z.div_lt_upper_bound; lia]. }
    { destruct f; [cbn in Hz; lia|lia]. }
    split_and!.
    + apply Forall_app. split; [done|]. by repeat constructor.
    + rewrite read_digits_app, H2. cbn [read_digits]. rewrite Hd, Hv. f_equal. pose proof (Z.div_mod z 10). lia.
    + rewrite length_app. cbn. lia.
    + rewrite H4. exists c, (l ++ [byte_of (48 + z `mod` 10)]). split; [done|]. intros E. destruct (H5 E) as [E0 _].
      pose proof (Z.div_le_lower_bound z 10 1). lia.
Qed.

(** What may follow a value inside a document. *)
Definition follows (rest : list ascii) : Prop :=
  match rest with [] => True | c :: _ => byte_val c = 44 \/ byte_val c = 93 \/ byte_val c = 125 end.
Definition int_text (z : Z) : list ascii := lit (FormatInt z).
Definition exact (z : Z) : Prop := - safe_integer <= z <= safe_integer.

Lemma int_text_split z :
  exact z -> exists sign c l, int_text z = sign ++ c :: l /\ digit_text (c :: l) /\ (length (int_text z) <= 21)%nat /\
    read_digits 0 (c :: l) = Some (Z.abs z) /\ (byte_val c = 48 -> l = []) /\
    (z < 0 /\ sign = [byte_of 45] \/ 0 <= z /\ sign = []).
Proof.
  unfold exact, safe_integer, int_text, lit, FormatInt. intros Hz.
  assert (forall a, 0 <= a <= 9007199254740991 -> digit_text (digits_of_aux 20 a []) /\
    read_digits 0 (digits_of_aux 20 a []) = Some a /\ (length (digits_of_aux 20 a []) <= 20)%nat /\
    exists c l, digits_of_aux 20 a [] = c :: l /\ (byte_val c = 48 -> a = 0 /\ l = [])) as HD.
  { intros a Ha. apply digits_spec; [|lia]. change (10 ^ Z.of_nat 20) with 100000000000000000000. lia. }
  destruct (Z.ltb_spec z 0) as [Hn|Hn].
  - destruct (HD (- z) ltac:(lia)) as (H1 & H2 & H3 & c & l & H4 & H5). rewrite H4 in *. exists [byte_of 45], c, l.
    assert (forall s, bytes_of ("-" +:+ s) = byte_of 45 :: bytes_of s) as Hm by done. rewrite Hm, bytes_of_string_of.
    cbn [length] in *. split_and!; try done.
    + lia.
    + rewrite H2. f_equal. lia.
    + intros E. by destruct (H5 E).
    + left. auto.
  - destruct (HD z ltac:(lia)) as (H1 & H2 & H3 & c & l & H4 & H5). rewrite H4 in *. rewrite bytes_of_string_of. exists [], c, l.
    split_and!; try done; [lia|rewrite H2; f_equal; lia|intros E; by destruct (H5 E)|right; auto].
Qed.
Lemma skip_digits_app l rest : digit_text l -> skip_digits (l ++ rest) = skip_digits rest.
Proof. induction 1 as [|c l Hc _ IH]; [done|]. cbn. by rewrite Hc. Qed.
Lemma span_digits_all l : digit_text l -> span_digits l = (l, []).
Proof. induction 1 as [|c l Hc _ IH]; [done|]. cbn. by rewrite Hc, IH. Qed.
Lemma scan_end rest : follows rest -> scan_fraction rest = Some rest /\ skip_digits rest = rest.
Proof.
  destruct rest as [|c rest]; [done|]. cbn. unfold is_digit, between. intros H.
  destruct H as [-> |[-> | ->]]; done.
Qed.
Lemma scan_int z rest : exact z -> follows rest -> scan_number (int_text z ++ rest) = Some rest.
Proof.
  intros Hz Hr. destruct (int_text_split z Hz) as (sign & c & l & -> & Hd & _ & _ & H0 & Hs).
  destruct (scan_end rest Hr) as [Hf Hk]. apply Forall_cons in Hd as [Hc Hd].
  assert (scan_unsigned (c :: l ++ rest) = Some rest) as HU.
  { cbn [scan_unsigned]. destruct (Z.eqb_spec (byte_val c) 48) as [E|E]; [by rewrite (H0 E)|].
    by rewrite Hc, skip_digits_app, Hk. }
  destruct Hs as [[_ ->]|[_ ->]]; cbn [app scan_number]; [exact HU|].
  unfold is_digit, between in Hc. destruct (Z.eqb_spec (byte_val c) 45); [lia|exact HU].
Qed.
Lemma normal_int z : exact z -> normal_number (int_text z) = Some z.
Proof.
  intros Hz. destruct (int_text_split z Hz) as (sign & c & l & E & Hd & HL & Hr & H0 & Hs). unfold normal_number.
  destruct (Z.ltb_spec 64 (Z.of_nat (length (int_text z)))); [lia|].
  assert (number_parts (int_text z) = Some (z, 0, 0)) as ->.
  { unfold number_parts. rewrite E. apply Forall_cons in Hd as Hd'. destruct Hd' as [Hc _]. unfold is_digit, between in Hc.
    assert (signed (sign ++ c :: l) = ((z <? 0), c :: l)) as ->.
    { destruct Hs as [[Hn ->]|[Hn ->]]; cbn.
      - by rewrite (proj2 (Z.ltb_lt z 0) Hn).
      - destruct (Z.eqb_spec (byte_val c) 45); [lia|]. destruct (Z.eqb_spec (byte_val c) 43); [lia|].
        by rewrite (proj2 (Z.ltb_ge z 0) Hn). }
    rewrite span_digits_all by done. rewrite app_nil_r, Hr. cbn. f_equal. f_equal. f_equal.
    destruct (Z.ltb_spec z 0); lia. }
  assert (between (- safe_integer) safe_integer z = true) as HB by (unfold between, exact in *; lia).
  cbn -[between safe_integer Z.opp]. change (negb (between (-20) 20 0)) with false. cbn -[between safe_integer Z.opp Z.mul].
  rewrite Z.mul_1_r. cbv [mbind option_bind]. change (0 <=? 0 - 0) with true. cbn [app]. by rewrite HB.
Qed.
