(* ===== verification/JsonPrint.v ===== *)
(** * Reading back what was printed

    [json.Marshal] writes a value whose strings are UTF-8 in a text that the
    reader understands as that value, and that passes the Unicode checks of a
    request. *)

From S2P Require Import Prelude GoStrings GoTime GoSha256 GoJson JsonRead Canonical JsonText.
#[local] Open Scope string_scope.
#[local] Open Scope list_scope.
#[local] Open Scope Z_scope.
#[local] Open Scope bool_scope.

(** Values with UTF-8 strings, exact integers and at most [d] levels. *)
Fixpoint printable_at (d : nat) (v : json) : Prop :=
  match d with
  | O => False
  | S d =>
      match v with
      | JNull | JBool _ => True
      | JInt z => exact z
      | JStr s => utf8_ok (bytes_of s)
      | JArr l => Forall (printable_at d) l
      | JObj fields => Forall (fun kv => utf8_ok (bytes_of kv.1) /\ printable_at d kv.2) fields
      | JRaw _ => False
      end
  end.
Definition members_printable (d : nat) : list (string * json) -> Prop :=
  Forall (fun kv => utf8_ok (bytes_of kv.1) /\ printable_at d kv.2).
(** What the reader makes of a printed value. *)
Fixpoint to_jvalue (v : json) : jvalue :=
  match v with
  | JNull | JRaw _ => VNull
  | JBool b => VBool b
  | JInt z => VNum (int_text z)
  | JStr s => VStr s
  | JArr l => VArr (map to_jvalue l)
  | JObj fields => VObj (map (fun kv => (kv.1, to_jvalue kv.2)) fields)
  end.

(** ** Reading what was printed *)
Definition tail_text (l : list json) : list ascii := concat (map (fun v => byte_of 44 :: json_bytes true v) l).
Definition member_text (kv : string * json) : list ascii := json_quote true kv.1 ++ byte_of 58 :: json_bytes true kv.2.
Definition tail_members (l : list (string * json)) : list ascii := concat (map (fun kv => byte_of 44 :: member_text kv) l).
Lemma array_text x l : json_bytes true (JArr (x :: l)) = byte_of 91 :: json_bytes true x ++ tail_text l ++ [byte_of 93].
Proof.
  cbn [json_bytes]. change (lit "[") with [byte_of 91]. cbn [app]. f_equal. rewrite <- app_assoc. f_equal. f_equal.
  induction l as [|y l IH]; [done|]. unfold tail_text in *. cbn [map concat]. rewrite <- IH. reflexivity.
Qed.
Lemma object_text kv l :
  json_bytes true (JObj (kv :: l)) = byte_of 123 :: member_text kv ++ tail_members l ++ [byte_of 125].
Proof.
  destruct kv as [k v]. cbn [json_bytes]. match goal with |- context [?g l false] => assert (g l false = tail_members l) as -> end.
  - induction l as [|[k' v'] l IH]; [done|]. unfold tail_members in *. cbn [map concat]. rewrite <- IH. unfold member_text.
    cbn [fst snd app]. rewrite <- app_assoc. reflexivity.
  - unfold member_text. cbn [fst snd]. rewrite <- !app_assoc. reflexivity.
Qed.

Lemma skip_head c l : is_ws c = false -> skip_ws (c :: l) = c :: l.
Proof. intros H. cbn. by rewrite H. Qed.
(** A printed value starts with none of white space, a closing bracket or a
    closing brace. *)
Lemma head_byte d v :
  printable_at d v -> exists c t, json_bytes true v = c :: t /\ is_ws c = false /\ byte_val c <> 93 /\ byte_val c <> 125.
Proof.
  destruct d as [|d]; [done|]. destruct v as [|b|z|s|l|fs|text]; cbn [printable_at]; intros H.
  - by do 2 eexists.
  - destruct b; by do 2 eexists.
  - destruct (int_text_split z H) as (sign & c & l & E & Hd & _ & _ & _ & Hs). cbn [json_bytes]. fold (int_text z). rewrite E.
    destruct Hs as [[_ ->]|[_ ->]]; [by do 2 eexists|]. exists c, l. apply Forall_cons in Hd as [Hc _].
    unfold is_digit, between in Hc. unfold is_ws. split_and!; try done; lia.
  - by do 2 eexists.
  - by do 2 eexists.
  - by do 2 eexists.
  - done.
Qed.
Lemma read_quoted s rest :
  utf8_ok (bytes_of s) -> exists r, json_quote true s ++ rest = byte_of 34 :: r /\ read_string (length r) r = Some (bytes_of s, rest).
Proof.
  intros Hs. exists (json_chars (length (bytes_of s)) true (bytes_of s) ++ byte_of 34 :: rest). unfold json_quote. cbv zeta.
  split; [cbn [app]; by rewrite <- app_assoc|]. apply read_json_chars; [done|done|]. rewrite length_app. cbn. lia.
Qed.

Section Printed.
Context (d : nat).
Context (IH : forall v, printable_at d v -> forall g rest, follows rest -> (2 * length (json_bytes true v) <= g)%nat ->
  read_value g (json_bytes true v ++ rest) = Some (to_jvalue v, rest)).

Lemma read_printed_elements l : forall x g rest,
  Forall (printable_at d) (x :: l) -> (2 * length (json_bytes true x ++ tail_text l) + 1 <= g)%nat ->
  read_elements g (json_bytes true x ++ tail_text l ++ byte_of 93 :: rest) = Some (map to_jvalue (x :: l), rest).
Proof.
  induction l as [|y l IHl]; intros x g rest [Hx Hl]%Forall_cons Hg; rewrite length_app in Hg; destruct g as [|g]; try lia; cbn [read_elements].
  - rewrite (IH x Hx) by (cbn; auto; lia). reflexivity.
  - change (tail_text (y :: l)) with (byte_of 44 :: json_bytes true y ++ tail_text l) in *. cbn [length] in Hg.
    rewrite (IH x Hx) by (cbn; auto; lia). cbn [mbind option_bind app]. rewrite skip_head by done.
    change (byte_val (byte_of 44) =? 44) with true. cbv iota. rewrite <- app_assoc, IHl; [done|done|lia].
Qed.
Lemma read_printed_member kv g X :
  utf8_ok (bytes_of kv.1) -> printable_at d kv.2 -> follows X -> (2 * length (member_text kv) <= S g)%nat ->
  read_members (S g) (member_text kv ++ X) =
  match skip_ws X with
  | c :: r =>
      if byte_val c =? 44 then '(fields, rest) ← read_members g r; Some ((kv.1, to_jvalue kv.2) :: fields, rest)
      else if byte_val c =? 125 then Some ([(kv.1, to_jvalue kv.2)], r) else None
  | [] => None
  end.
Proof.
  destruct kv as [k v]. cbn [fst snd]. intros Hk Hv HX Hg. unfold member_text in *. cbn [fst snd] in *.
  rewrite length_app in Hg. cbn [length] in Hg. cbn [read_members]. rewrite <- app_assoc. cbn [app].
  destruct (read_quoted k (byte_of 58 :: json_bytes true v ++ X) Hk) as (r & -> & Hr).
  rewrite skip_head by done. change (byte_val (byte_of 34) =? 34) with true. cbv iota. rewrite Hr. cbn [mbind option_bind].
  rewrite skip_head by done. change (byte_val (byte_of 58) =? 58) with true. cbv iota.
  rewrite (IH v Hv) by (done || lia). cbn [mbind option_bind]. by rewrite string_of_bytes_of.
Qed.
Lemma read_printed_members l : forall kv g rest,
  members_printable d (kv :: l) -> (2 * length (member_text kv ++ tail_members l) + 1 <= g)%nat ->
  read_members g (member_text kv ++ tail_members l ++ byte_of 125 :: rest)
  = Some (map (fun kv => (kv.1, to_jvalue kv.2)) (kv :: l), rest).
Proof.
  induction l as [|kv' l IHl]; intros kv g rest [[Hk Hv] Hl]%Forall_cons Hg; rewrite length_app in Hg; (destruct g as [|g]; [lia|]).
  - rewrite read_printed_member; [reflexivity|done|done|cbn; auto|lia].
  - change (tail_members (kv' :: l)) with (byte_of 44 :: member_text kv' ++ tail_members l) in *. cbn [length app] in *.
    rewrite read_printed_member; [|done|done|cbn; auto|lia]. rewrite skip_head by done.
    change (byte_val (byte_of 44) =? 44) with true. cbv iota. rewrite <- app_assoc, IHl; [done|done|lia].
Qed.
End Printed.

Lemma read_printed_int z g rest :
  exact z -> follows rest -> (2 * length (int_text z) <= g)%nat ->
  read_value g (int_text z ++ rest) = Some (VNum (int_text z), rest).
Proof.
  intros Hv Hr Hg. destruct (head_byte 1 (JInt z) Hv) as (c & t & E & Hw & _). cbn [json_bytes] in *. fold (int_text z) in *.
  destruct (int_text_split z Hv) as (sign & c' & l' & E' & Hd & _ & _ & _ & Hs).
  destruct g as [|g]; [rewrite E in Hg; cbn in Hg; lia|]. cbn [read_value].
  pose proof (scan_int z rest Hv Hr) as HS. rewrite E in *. cbn [app] in *. rewrite skip_head by done. cbv zeta.
  assert (byte_val c = 45 \/ 48 <= byte_val c <= 57) as Hc.
  { apply Forall_cons in Hd as [Hc' _]. unfold is_digit, between in Hc'.
    destruct Hs as [[_ ->]|[_ ->]]; cbn [app] in E'; simplify_eq; [left; done|right; lia]. }
  do 6 (rewrite (proj2 (Z.eqb_neq (byte_val c) _)) by lia). unfold read_number. rewrite HS. cbn [mbind option_bind]. f_equal. f_equal.
  f_equal. change (c :: t ++ rest) with ((c :: t) ++ rest). rewrite length_app, Nat.add_sub. by rewrite take_app_length.
Qed.

(** The reader undoes [json.Marshal] on printable values. *)
Lemma read_printed d : forall v, printable_at d v -> forall g rest, follows rest -> (2 * length (json_bytes true v) <= g)%nat ->
  read_value g (json_bytes true v ++ rest) = Some (to_jvalue v, rest).
Proof.
  induction d as [|d IH]; [done|]. intros v Hv g rest Hr Hg. destruct v as [|b|z|s|l|fs|text]; cbn [printable_at] in Hv.
  - destruct g; [cbn in Hg; lia|]. reflexivity.
  - destruct g; [destruct b; cbn in Hg; lia|]. by destruct b.
  - cbn [json_bytes] in *. by apply read_printed_int.
  - destruct (read_quoted s rest Hv) as (r & E & Hq). cbn [json_bytes] in *. destruct g; [unfold json_quote in Hg; cbn in Hg; lia|].
    cbn [read_value]. rewrite E, skip_head by done. cbv zeta. change (byte_val (byte_of 34)) with 34. cbn [Z.eqb Pos.eqb].
    rewrite Hq. cbn. by rewrite string_of_bytes_of.
  - destruct l as [|x l]; [destruct g; [cbn in Hg; lia|reflexivity]|]. rewrite array_text in Hg |- *.
    cbn [length] in Hg. rewrite !length_app in Hg. cbn [length] in Hg. destruct g as [|g]; [lia|]. cbn [read_value app].
    rewrite skip_head by done. cbv zeta. change (byte_val (byte_of 91)) with 91. cbn [Z.eqb Pos.eqb].
    pose proof Hv as [Hx _]%Forall_cons. destruct (head_byte _ _ Hx) as (c & t & E & Hw & H93 & _).
    rewrite <- !app_assoc. rewrite E at 1. cbn [app]. rewrite skip_head by done. rewrite (proj2 (Z.eqb_neq (byte_val c) 93)) by lia.
    rewrite (read_printed_elements d IH) by (done || (rewrite length_app; lia)). done.
  - rename Hv into Hf. destruct fs as [|kv l]; [destruct g; [cbn in Hg; lia|reflexivity]|]. rewrite object_text in Hg |- *.
    cbn [length] in Hg. rewrite !length_app in Hg. cbn [length] in Hg. destruct g as [|g]; [lia|]. cbn [read_value app].
    rewrite skip_head by done. cbv zeta. change (byte_val (byte_of 123)) with 123. cbn [Z.eqb Pos.eqb].
    rewrite <- !app_assoc.
    assert (exists t, member_text kv = byte_of 34 :: t) as [t E] by (by eexists).
    rewrite E at 1. cbn [app]. rewrite skip_head by done. change (byte_val (byte_of 34) =? 125) with false. cbv iota.
    rewrite (read_printed_members d IH) by (done || (rewrite length_app; lia)). done.
  - done.
Qed.

(** ** The printed text passes the Unicode checks *)
Lemma json_rune_ascii_or_copy l w :
  utf8_width l = Some w -> utf8_ok (json_rune w l).
Proof.
  intros Hw. pose proof (utf8_width_bound _ _ Hw) as Hb. destruct l as [|c l]; [cbn in Hb; lia|]. unfold json_rune.
  assert (w <> 0%nat) as Hz by lia.
  destruct w as [|[|w]]; [done| |].
  - assert (byte_val c < 128) as Hc.
    { destruct (Z.ltb_spec (byte_val c) 128) as [|Hc]; [done|]. exfalso. revert Hw. unfold utf8_width. cbn.
      rewrite (proj2 (Z.ltb_ge _ _) Hc). by repeat case_match. }
    apply utf8_ok_ascii. destruct c as [b0 b1 b2 b3 b4 b5 b6 []]; [by destruct b0, b1, b2, b3, b4, b5, b6|].
    apply (bool_decide_unpack _). by destruct b0, b1, b2, b3, b4, b5, b6.
  - destruct (line_separator (c :: l)) as [e|] eqn:E.
    + apply line_separator_width in E as (Hd & _). apply utf8_ok_ascii. apply (bool_decide_unpack _). by destruct Hd as [-> | ->].
    + rewrite <- (app_nil_r (take _ _)). apply utf8_ok_rune; [done| |done]. rewrite length_take_le by lia. by apply utf8_width_take.
Qed.
Lemma json_chars_ok l : utf8_ok l -> forall f, (length l <= f)%nat -> utf8_ok (json_chars f true l).
Proof.
  intros Hl. revert l Hl. apply (utf8_ok_ind (fun l => forall f, _ -> _)).
  - by intros [|f] _.
  - intros w l Hw Hb Hd IH [|f] Hf; [lia|]. rewrite (json_chars_step f l w Hw). apply utf8_ok_app; [by apply json_rune_ascii_or_copy|].
    apply IH. rewrite length_drop. lia.
Qed.
Lemma json_quote_ok s : utf8_ok (bytes_of s) -> utf8_ok (json_quote true s).
Proof.
  intros Hs. unfold json_quote. cbv zeta. apply (utf8_ok_app [byte_of 34]); [done|]. apply utf8_ok_app; [by apply json_chars_ok|done].
Qed.

(** *** Surrogates *)
Lemma read_u4_length l n r : read_u4 l = Some (n, r) -> (length l = 4 + length r)%nat.
Proof.
  unfold read_u4. destruct l as [|a [|b [|c [|d l]]]]; try done. intros H.
  repeat (apply bind_Some in H as (? & _ & H)). by injection H as _ <-.
Qed.
Lemma paired_fuel f1 : forall f2 b l, (length l <= f1)%nat -> (length l <= f2)%nat -> surrogates_paired f1 b l = surrogates_paired f2 b l.
Proof.
  induction f1 as [|f1 IH]; intros [|f2] b [|c l] H1 H2; cbn in H1, H2; try done; try lia. cbn [surrogates_paired].
  destruct (_ =? 34); [apply IH; lia|]. destruct (_ || _); [apply IH; lia|]. destruct l as [|e l]; [done|]. cbn in H1, H2.
  destruct (negb _); [apply IH; lia|]. destruct (read_u4 l) as [[n l3]|] eqn:E; [|done]. apply read_u4_length in E.
  destruct (between _ _ n); [done|]. destruct (between _ _ n); [|apply IH; lia].
  destruct l3 as [|c1 [|c2 l4]]; try done. cbn in E. destruct (negb _); [done|]. destruct (read_u4 l4) as [[m l5]|] eqn:E5; [|done].
  apply read_u4_length in E5. destruct (between _ _ m); [|done]. apply IH; lia.
Qed.
Definition paired (b : bool) (l : list ascii) : bool := surrogates_paired (length l) b l.
Lemma paired_plain b l rest : Forall (fun c => byte_val c <> 34 /\ byte_val c <> 92) l -> paired b (l ++ rest) = paired b rest.
Proof.
  induction 1 as [|c l [H1 H2] _ IH]; [done|]. rewrite <- IH. unfold paired. cbn [app length surrogates_paired].
  rewrite (proj2 (Z.eqb_neq _ _) H1), (proj2 (Z.eqb_neq _ _) H2). by rewrite orb_true_r.
Qed.
Lemma width_high l w : utf8_width l = Some w -> w <> 1%nat -> Forall (fun c => 128 <= byte_val c) (take w l).
Proof.
  unfold utf8_width, cont, between. intros H H1. destruct l as [|c0 l]; [done|]. cbn in H.
  destruct (Z.ltb_spec (byte_val c0) 128); [congruence|].
  destruct l as [|c1 l]; [done|]. cbn in H.
  match type of H with (if ?b then _ else _) = _ => destruct b eqn:E1 end; [injection H as <-; repeat constructor; lia|].
  destruct l as [|c2 l]; [done|]. cbn in H.
  match type of H with (if ?b then _ else _) = _ => destruct b eqn:E2 end; [injection H as <-; repeat constructor; lia|].
  destruct l as [|c3 l]; [done|]. cbn in H.
  match type of H with (if ?b then _ else _) = _ => destruct b eqn:E3 end; [|done]. injection H as <-. repeat constructor; lia.
Qed.
Lemma paired_rune l w rest : utf8_width l = Some w -> paired true (json_rune w l ++ rest) = paired true rest.
Proof.
  intros Hw. pose proof (utf8_width_bound _ _ Hw) as Hb. destruct l as [|c l]; [cbn in Hb; lia|]. unfold json_rune.
  destruct w as [|[|w]]; [lia| |].
  - assert (byte_val c < 128) as Hc.
    { destruct (Z.ltb_spec (byte_val c) 128) as [|Hc]; [done|]. exfalso. revert Hw. unfold utf8_width. cbn.
      rewrite (proj2 (Z.ltb_ge _ _) Hc). by repeat case_match. }
    unfold paired. destruct c as [b0 b1 b2 b3 b4 b5 b6 []]; [by destruct b0, b1, b2, b3, b4, b5, b6|].
    destruct b0, b1, b2, b3, b4, b5, b6;
      first [refine (paired_fuel (0 + length rest) _ true rest _ _); lia|refine (paired_fuel (1 + length rest) _ true rest _ _); lia
            |refine (paired_fuel (5 + length rest) _ true rest _ _); lia].
  - destruct (line_separator (c :: l)) as [e|] eqn:E.
    + apply line_separator_width in E as (Hd & _). unfold paired.
      destruct Hd as [-> | ->]; refine (paired_fuel (5 + length rest) _ true rest _ _); lia.
    + apply paired_plain. eapply Forall_impl; [by eapply width_high|]. intros x Hx. cbn in Hx. lia.
Qed.
Lemma paired_chars l : utf8_ok l -> forall f rest, (length l <= f)%nat ->
  paired true (json_chars f true l ++ byte_of 34 :: rest) = paired false rest.
Proof.
  intros Hl. revert l Hl. apply (utf8_ok_ind (fun l => forall f rest, _ -> _)).
  - by intros [|f] rest _.
  - intros w l Hw Hb Hd IH [|f] rest Hf; [lia|]. rewrite (json_chars_step f l w Hw), <- app_assoc, paired_rune by done.
    apply IH. rewrite length_drop. lia.
Qed.
Lemma paired_quote s rest : utf8_ok (bytes_of s) -> paired false (json_quote true s ++ rest) = paired false rest.
Proof.
  intros Hs. unfold json_quote. cbv zeta. cbn [app]. rewrite <- app_assoc. cbn [app].
  change (paired false (byte_of 34 :: ?x)) with (paired true x). by apply paired_chars.
Qed.

Lemma plain_text (t : list ascii) :
  Forall (fun c => byte_val c < 128 /\ byte_val c <> 34 /\ byte_val c <> 92) t ->
  utf8_ok t /\ forall rest, paired false (t ++ rest) = paired false rest.
Proof.
  intros H. split; [apply utf8_ok_ascii; eapply Forall_impl; [exact H|]; cbn; tauto|].
  intros rest. apply paired_plain. eapply Forall_impl; [exact H|]. cbn. tauto.
Qed.
(** Both checks at once, for texts that are put together. *)
Definition clean (t : list ascii) : Prop := utf8_ok t /\ forall rest, paired false (t ++ rest) = paired false rest.
Lemma clean_app a b : clean a -> clean b -> clean (a ++ b).
Proof.
  intros [Ha1 Ha2] [Hb1 Hb2]. split; [by apply utf8_ok_app|]. intros rest. by rewrite <- app_assoc, Ha2, Hb2.
Qed.
Lemma clean_cons c t : byte_val c < 128 -> byte_val c <> 34 -> byte_val c <> 92 -> clean t -> clean (c :: t).
Proof. intros. apply (clean_app [c]); [|done]. apply plain_text. by repeat constructor. Qed.
Lemma clean_quote s : utf8_ok (bytes_of s) -> clean (json_quote true s).
Proof. intros H. split; [by apply json_quote_ok|]. intros rest. by apply paired_quote. Qed.
Lemma clean_concat {A} (f : A -> list ascii) l : Forall (fun x => clean (f x)) l -> clean (concat (map f l)).
Proof. induction 1 as [|x l Hx _ IH]; [by split|]. by apply clean_app. Qed.
Lemma clean_printed d : forall v, printable_at d v -> clean (json_bytes true v).
Proof.
  induction d as [|d IH]; [done|]. intros v Hv. destruct v as [|b|z|s|l|fs|text]; cbn [printable_at] in Hv.
  - apply plain_text. apply (bool_decide_unpack _). by vm_compute.
  - apply plain_text. apply (bool_decide_unpack _). by destruct b; vm_compute.
  - destruct (int_text_split z Hv) as (sign & c & l & E & Hd & _ & _ & _ & Hs). cbn [json_bytes]. fold (int_text z). rewrite E.
    apply clean_app; apply plain_text.
    + destruct Hs as [[_ ->]|[_ ->]]; apply (bool_decide_unpack _); by vm_compute.
    + eapply Forall_impl; [exact Hd|]. intros x. cbn. unfold is_digit, between. lia.
  - by apply clean_quote.
  - destruct l as [|x l]; [apply plain_text; apply (bool_decide_unpack _); by vm_compute|].
    apply Forall_cons in Hv as [Hx Hl]. rewrite array_text. apply clean_cons; [done..|]. apply clean_app; [by apply IH|].
    apply clean_app; [|by apply clean_cons]. apply clean_concat. eapply Forall_impl; [exact Hl|]. intros y Hy. apply clean_cons; [done..|]. by apply IH.
  - rename Hv into Hf. destruct fs as [|kv l]; [apply plain_text; apply (bool_decide_unpack _); by vm_compute|].
    assert (forall kv, utf8_ok (bytes_of kv.1) /\ printable_at d kv.2 -> clean (member_text kv)) as HM.
    { intros kv' [Hk Hv]. apply clean_app; [by apply clean_quote|]. apply clean_cons; [done..|]. by apply IH. }
    apply Forall_cons in Hf as [Hx Hl]. rewrite object_text. apply clean_cons; [done..|]. apply clean_app; [by apply HM|].
    apply clean_app; [|by apply clean_cons]. apply clean_concat. eapply Forall_impl; [exact Hl|]. intros y Hy. apply clean_cons; [done..|]. by apply HM.
  - done.
Qed.

Lemma ReadDocument_Marshal d v : printable_at d v -> ReadDocument (Marshal v) = Some (to_jvalue v).
Proof.
  intros Hv. unfold ReadDocument, Marshal. cbv zeta. rewrite bytes_of_string_of. rewrite <- (app_nil_r (json_bytes true v)) at 2.
  rewrite (read_printed _ v Hv) by (done || lia). cbn [mbind option_bind skip_ws]. by rewrite bool_decide_eq_true_2.
Qed.
Lemma to_jvalue_inj d : forall v w, printable_at d v -> printable_at d w -> to_jvalue v = to_jvalue w -> v = w.
Proof.
  induction d as [|d IH]; [done|]. intros v w Hv Hw. destruct v as [|b|z|s|l|fs|t], w as [|b'|z'|s'|l'|fs'|t']; cbn [printable_at to_jvalue] in *; try done.
  - by intros [= ->].
  - intros [= E]. f_equal. apply normal_int in Hv, Hw. rewrite E in Hv. congruence.
  - by intros [= ->].
  - intros [= E]. f_equal. revert l' Hw E. induction Hv as [|x l Hx _ IHl]; intros [|y l'] Hw E; try done. apply Forall_cons in Hw as [Hy Hw].
    injection E as E1 E2. f_equal; [by apply IH|by apply IHl].
  - intros [= E]. f_equal. revert fs' Hw E. induction Hv as [|[k x] l [_ Hx] _ IHl]; intros [|[k' y] l'] Hw E; try done.
    apply Forall_cons in Hw as [[_ Hy] Hw]. injection E as E1 E2 E3. f_equal; [f_equal; [done|by apply IH]|by apply IHl].
Qed.
(** A text says at most one thing. *)
Lemma Marshal_inj d v w : printable_at d v -> printable_at d w -> Marshal v = Marshal w -> v = w.
Proof.
  intros Hv Hw E. apply (to_jvalue_inj d); [done..|]. apply ReadDocument_Marshal in Hv, Hw. rewrite E in Hv. congruence.
Qed.
