(* ===== verification/Provider.v ===== *)
(** * Provider contract

    [internal/provider]: the frozen job and plan ([contract.go],
    [preparation.go]), the start authorization ([start.go], with the slot
    rules of [internal/workloadsecret/model.go]), and what each provider
    observation must satisfy before orchestration looks at it
    ([validate.go]). *)

From S2P Require Import Prelude GoStrings GoTime GoSha256 GoJson Identifiers Problems DomainRecords AttemptStates Attempts.
#[local] Open Scope string_scope.
#[local] Open Scope list_scope.
#[local] Open Scope Z_scope.
#[local] Open Scope bool_scope.

(** A Go slice whose nil value can be told from the empty one. *)
Abbreviation slice A := (option (list A)) (only parsing).
Definition elems {A} (s : option (list A)) : list A := default [] s.
(** [append([]T(nil), s...)]: a fresh copy, nil when empty. *)
Definition append_nil {A} (s : option (list A)) : option (list A) :=
  match elems s with [] => None | l => Some l end.

(** ** Texts and paths *)
Definition Digest (data : string) : string := sha256_hex data.

(** A byte is below 32 or 127 exactly when a rune of the string is. *)
Definition no_control (s : string) : bool := all_bytes (fun c => negb ((c <? 32) || (c =? 127))) s.

Definition safeText (s : string) (max : Z) : bool :=
  if (TrimSpace s ==? "") || (max <? len s) then false else no_control s.

Definition slash : ascii := byte_of 47.
Definition SafeArtifactPath (path : string) : bool :=
  if (path ==? "") || (1024 <? len path) || ContainsAny path [92; 58] || HasPrefix path "/" then false
  else if negb (no_control path) then false
  else forallb (fun part => negb ((part ==? "") || (part ==? ".") || (part ==? "..")))
         (Split path slash).

(** [provider.Problem] panics on an invalid definition: [Err] is the panic. *)
Definition provider_Problem (code : ErrorCode) (stage : FailureStage) (message : string) : result error Problem :=
  NewProblem code message stage.

(** ** Frozen inputs *)
Record FrozenInput := mkFrozenInput { fi_Name : string; fi_Target : string; fi_Object : ObjectMetadata }.
Record InputSnapshot := mkInputSnapshot {
  is_Bundle : ObjectMetadata; is_Inputs : slice FrozenInput; is_ApplicationImage : option ObjectMetadata }.

(** The byte class of an input name at byte position [i]. *)
Definition name_byte (i : Z) (c : Z) : bool :=
  is_lower c || is_upper c || is_digit c || (0 <? i) && ((c =? 46) || (c =? 95) || (c =? 45)).
Fixpoint name_bytes (i : Z) (l : list ascii) : bool :=
  match l with [] => true | c :: l' => name_byte i (byte_val c) && name_bytes (i + 1) l' end.

Definition overlaps (old p : string) : bool :=
  (old ==? p) || HasPrefix old (p +:+ "/") || HasPrefix p (old +:+ "/").

(** The loop over [s.Inputs]: names and paths seen so far, and their bytes. *)
Fixpoint validate_inputs (w : string) (names paths : list string) (total : Z) (l : list FrozenInput) : option error :=
  match l with
  | [] => None
  | x :: l' =>
      let o := fi_Object x in
      reject negb (ObjectMetadata_Valid o) || (om_WorkspaceID o <>? w) || (2 * 2 ^ 30 <? om_Bytes o)
             || (4 * 2 ^ 30 - total <? om_Bytes o) || negb (SafeArtifactPath (fi_Target x))
             || (len (fi_Name x) <? 1) || (64 <? len (fi_Name x))
             || bool_decide (ToLower (fi_Name x) ∈ names)
        with ENew "invalid frozen input" ;;
      reject negb (name_bytes 0 (bytes_of (fi_Name x))) with ENew "invalid input name" ;;
      reject negb (all_bytes (fun c => negb ((c <? 32) || (127 <=? c))) (fi_Target x))
        with ENew "unsupported input target encoding" ;;
      let p := ToLower (fi_Target x) in
      reject existsb (fun old => overlaps old p) paths with ENew "overlapping frozen inputs" ;;
      validate_inputs w (ToLower (fi_Name x) :: names) (paths ++ [p]) (total + om_Bytes o) l'
  end.

Definition InputSnapshot_Validate (s : InputSnapshot) (w : string) : option error :=
  let b := is_Bundle s in
  reject negb (ObjectMetadata_Valid b) || (om_WorkspaceID b <>? w) || (100 * 2 ^ 20 <? om_Bytes b)
         || (256 <? Z.of_nat (length (elems (is_Inputs s))))
    with ENew "invalid frozen input snapshot" ;;
  reject match is_ApplicationImage s with
         | Some i => negb (ObjectMetadata_Valid i) || (om_WorkspaceID i <>? w) || (om_Bytes i <? 1)
                     || (2 * 2 ^ 30 <? om_Bytes i)
         | None => false
         end
    with ENew "invalid frozen application image" ;;
  validate_inputs w [] [] 0 (elems (is_Inputs s)).

(** [InputDigest]: the entries by target, encoded without HTML escapes.
    Targets of a validated snapshot are distinct, so the order is unique. *)
Definition target_le (a b : FrozenInput) : Prop := str_leb (fi_Target a) (fi_Target b) = true.
#[export] Instance target_le_dec a b : Decision (target_le a b).
Proof. unfold target_le. apply _. Defined.
Definition input_entry (x : FrozenInput) : json :=
  JObj [("bytes", JInt (om_Bytes (fi_Object x))); ("name", JStr (fi_Name x));
        ("sha256", JStr (om_SHA256 (fi_Object x))); ("target", JStr (fi_Target x))].
Definition InputDigest (s : InputSnapshot) : string :=
  Digest (Encode_noHTML (JArr (map input_entry (merge_sort target_le (elems (is_Inputs s)))))).

(** ** The resolved job *)
Definition Identity_Validate (i : Identity) : option error :=
  reject negb (ID_Valid (id_InstallationID i)) || negb (ID_Valid (id_WorkspaceID i))
         || negb (ID_Valid (id_JobID i)) || negb (ID_Valid (id_AttemptID i))
         || negb (ID_Valid (id_InstanceID i)) || negb (ID_Valid (id_IntentID i))
    with ENew "invalid submission identity" ;;
  reject negb (ID_Valid (id_ResourceKey i)) || negb (ID_Valid (id_Nonce i)) || (len (id_Nonce i) <? 16)
    with ENew "resource key and nonce must be bounded opaque values" ;;
  reject negb (SHA256Digest_Valid (id_BundleSHA256 i)) || negb (SHA256Digest_Valid (id_InputManifestSHA256 i))
    with ENew "submission requires frozen bundle and input digests" ;;
  None.

Record ResolvedJob := mkResolvedJob {
  rj_Identity : Identity;
  rj_Binding : ProviderBinding;
  rj_Specification : string;
  rj_SpecificationSHA256 : string;
  rj_Required : slice CapabilityName;
  rj_WallSeconds : Z;
  rj_Inputs : option InputSnapshot }.
Record Plan := mkPlan { pl_Job : ResolvedJob; pl_VerifyAfterStart : slice CapabilityName }.

(** The capability loop: names seen so far. *)
Fixpoint validate_required (seen l : list CapabilityName) : result error (list CapabilityName) :=
  match l with
  | [] => Ok seen
  | name :: l' =>
      throw (TrimSpace (CapabilityName_string name) ==? "") || (128 <? len (CapabilityName_string name))
            || bool_decide (name ∈ seen)
        with ENew "empty, duplicate, or oversized required capability" ;;
      validate_required (name :: seen) l'
  end.

Definition first_byte_is (s : string) (b : Z) : bool :=
  match bytes_of s with c :: _ => byte_val c =? b | [] => false end.

Definition ResolvedJob_Validate (job : ResolvedJob) : option error :=
  check Identity_Validate (rj_Identity job) ;;
  check ProviderBinding_Validate (rj_Binding job) ;;
  reject bd_ProviderInstanceID (rj_Binding job) <>? id_InstanceID (rj_Identity job)
    with ENew "job binding does not match submission instance" ;;
  reject (rj_WallSeconds job <=? 0) || (MaxRemoteWallSeconds <? rj_WallSeconds job)
    with ENew "resolved wall budget exceeds the finite contract maximum" ;;
  reject (len (rj_Specification job) =? 0) || (2 ^ 20 <? len (rj_Specification job))
         || negb (GoJson.Valid (rj_Specification job))
         || negb (first_byte_is (TrimSpace (rj_Specification job)) 123)
    with ENew "specification must be a bounded JSON object validated by admission" ;;
  reject Digest (rj_Specification job) <>? rj_SpecificationSHA256 job
    with ENew "frozen specification digest mismatch" ;;
  reject match rj_Inputs job with
         | Some inputs =>
             not_nil (InputSnapshot_Validate inputs (id_WorkspaceID (rj_Identity job)))
             || (om_SHA256 (is_Bundle inputs) <>? id_BundleSHA256 (rj_Identity job))
             || (InputDigest inputs <>? id_InputManifestSHA256 (rj_Identity job))
         | None => false
         end
    with ENew "frozen input snapshot digest mismatch" ;;
  let required := elems (rj_Required job) in
  reject (Z.of_nat (length required) =? 0) || (64 <? Z.of_nat (length required))
    with ENew "resolved job requires a bounded capability list" ;;
  match validate_required [] required with
  | Err e => Some e
  | Ok seen =>
      reject negb (bool_decide (CapabilityBatchExecution ∈ seen))
        with ENew "finite batch capability is required" ;;
      None
  end.

(** The [Clone] methods: the same value in fresh memory, except that an empty
    slice copied with [append] on nil becomes nil. *)
Definition InputSnapshot_Clone (s : InputSnapshot) : InputSnapshot := s.
Definition ResolvedJob_Clone (job : ResolvedJob) : ResolvedJob :=
  mkResolvedJob (rj_Identity job) (rj_Binding job) (rj_Specification job) (rj_SpecificationSHA256 job)
    (append_nil (rj_Required job)) (rj_WallSeconds job) (InputSnapshot_Clone <$> rj_Inputs job).
Definition Plan_Clone (plan : Plan) : Plan :=
  mkPlan (ResolvedJob_Clone (pl_Job plan)) (append_nil (pl_VerifyAfterStart plan)).

(** ** Encodings *)
Definition json_slice {A} (f : A -> json) (s : option (list A)) : json :=
  match s with Some l => JArr (map f l) | None => JNull end.
Definition json_capability (c : CapabilityName) : json := JStr (CapabilityName_string c).
Definition json_object (m : ObjectMetadata) : json :=
  JObj [("object_id", JStr (om_ID m)); ("workspace_id", JStr (om_WorkspaceID m));
        ("bytes", JInt (om_Bytes m)); ("sha256", JStr (om_SHA256 m))].
Definition json_frozen_input (x : FrozenInput) : json :=
  JObj [("name", JStr (fi_Name x)); ("target", JStr (fi_Target x)); ("object", json_object (fi_Object x))].
Definition json_inputs (s : InputSnapshot) : json :=
  JObj ([("bundle", json_object (is_Bundle s)); ("inputs", json_slice json_frozen_input (is_Inputs s))]
        ++ opt_field "application_image" (json_object <$> is_ApplicationImage s)).
Definition json_identity (i : Identity) : json :=
  JObj [("InstallationID", JStr (id_InstallationID i)); ("WorkspaceID", JStr (id_WorkspaceID i));
        ("JobID", JStr (id_JobID i)); ("AttemptID", JStr (id_AttemptID i));
        ("InstanceID", JStr (id_InstanceID i)); ("IntentID", JStr (id_IntentID i));
        ("ResourceKey", JStr (id_ResourceKey i)); ("Nonce", JStr (id_Nonce i));
        ("BundleSHA256", JStr (id_BundleSHA256 i)); ("InputManifestSHA256", JStr (id_InputManifestSHA256 i))].
Definition json_binding (b : ProviderBinding) : json :=
  JObj [("Profile", JStr (bd_Profile b)); ("ProviderInstanceID", JStr (bd_ProviderInstanceID b));
        ("ConfigurationRevision", JStr (bd_ConfigurationRevision b))].
Definition json_job (job : ResolvedJob) : json :=
  JObj ([("Identity", json_identity (rj_Identity job)); ("Binding", json_binding (rj_Binding job));
         ("Specification", JRaw (compact (rj_Specification job)));
         ("SpecificationSHA256", JStr (rj_SpecificationSHA256 job));
         ("Required", json_slice json_capability (rj_Required job));
         ("WallSeconds", JInt (rj_WallSeconds job))] ++ opt_field "Inputs" (json_inputs <$> rj_Inputs job)).
Definition json_plan (plan : Plan) : json :=
  JObj [("Job", json_job (pl_Job plan));
        ("VerifyAfterStart", json_slice json_capability (pl_VerifyAfterStart plan))].

(** [Plan.Digest]: empty when the embedded specification is not JSON, since
    [json.Marshal] then fails. *)
Definition Plan_Digest (plan : Plan) : string :=
  if GoJson.Valid (rj_Specification (pl_Job plan)) then Digest (Marshal (json_plan plan)) else "".

(** ** Preparation *)
Record Prepared := mkPrepared {
  pr_VerificationSHA256 : string; pr_ManifestSHA256 : string; pr_Identity : Identity;
  pr_PreparationID : string; pr_PlanSHA256 : string; pr_Resource : string;
  pr_Ready : bool; pr_Private : bool }.
#[export] Instance Prepared_eq_dec : EqDecision Prepared.
Proof. solve_decision. Defined.

Definition Prepared_Validate (p : Prepared) (plan : Plan) (id : string) : option error :=
  reject not_nil (ResolvedJob_Validate (pl_Job plan)) || negb (ID_Valid id)
         || (pr_Identity p <>? rj_Identity (pl_Job plan)) || (pr_PreparationID p <>? id)
         || (pr_PlanSHA256 p <>? Plan_Digest plan) || negb (safeText (pr_Resource p) 1024)
    with ENew "preparation identity mismatch" ;;
  None.

Definition json_prepared (p : Prepared) : json :=
  JObj (str_field "VerificationSHA256" (pr_VerificationSHA256 p)
        ++ str_field "ManifestSHA256" (pr_ManifestSHA256 p)
        ++ [("Identity", json_identity (pr_Identity p)); ("PreparationID", JStr (pr_PreparationID p));
            ("PlanSHA256", JStr (pr_PlanSHA256 p)); ("Resource", JStr (pr_Resource p));
            ("Ready", JBool (pr_Ready p)); ("Private", JBool (pr_Private p))]).

Definition ReadinessRevision (p : Prepared) : string :=
  if negb (pr_Ready p) || negb (pr_Private p) || negb (SHA256Digest_Valid (pr_VerificationSHA256 p))
     || negb (SHA256Digest_Valid (pr_ManifestSHA256 p)) then ""
  else Digest (Marshal (JObj [("Version", JStr "readiness/v1"); ("Prepared", json_prepared p)])).

Inductive ReconciliationStatus :=
  | ReconciliationFound | ReconciliationNotFound | ReconciliationUnknown | ReconciliationAbsent 
  | ReconciliationOther (raw : string).
#[export] Instance ReconciliationStatus_eq_dec : EqDecision ReconciliationStatus.
Proof. solve_decision. Defined.
Definition ReconciliationStatus_string (x : ReconciliationStatus) : string :=
  match x with
  | ReconciliationFound => "found"
  | ReconciliationNotFound => "not_found"
  | ReconciliationUnknown => "unknown"
  | ReconciliationAbsent => "absent"
  | ReconciliationOther raw => raw
  end.
Definition ReconciliationStatus_values : list ReconciliationStatus :=
  [ReconciliationFound; ReconciliationNotFound; ReconciliationUnknown; ReconciliationAbsent].
#[export] Instance ReconciliationStatus_wire : WireEnum ReconciliationStatus.
Proof.
  refine {| wire_name := ReconciliationStatus_string; wire_other := ReconciliationOther; wire_values := ReconciliationStatus_values |}; wire_enum_tac.
Defined.

Record PreparationObservation := mkPreparationObservation {
  po_Status : ReconciliationStatus; po_Prepared : option Prepared; po_Cause : string }.
Definition PreparationObservation_Validate (o : PreparationObservation) (plan : Plan) (id : string) : option error :=
  match po_Status o with
  | ReconciliationFound =>
      match po_Prepared o with
      | Some p =>
          reject po_Cause o <>? "" with ENew "missing preparation" ;;
          Prepared_Validate p plan id
      | None => Some (ENew "missing preparation")
      end
  | ReconciliationUnknown | ReconciliationNotFound =>
      reject not_nil (po_Prepared o) with ENew "unresolved preparation contains resource" ;;
      None
  | _ => Some (ENew "invalid preparation observation")
  end.

(** ** Submission and observation *)
Definition RemoteReference_Validate (r : RemoteReference) : option error :=
  check Identity_Validate (rr_Identity r) ;;
  reject negb (safeText (rr_Resource r) 1024) || negb (safeText (rr_Version r) 256)
    with ENew "remote reference requires bounded resource and version" ;;
  None.

Inductive SubmissionStatus :=
  | SubmissionAccepted | SubmissionRejected | SubmissionUnknown 
  | SubmissionOther (raw : string).
#[export] Instance SubmissionStatus_eq_dec : EqDecision SubmissionStatus.
Proof. solve_decision. Defined.
Definition SubmissionStatus_string (x : SubmissionStatus) : string :=
  match x with
  | SubmissionAccepted => "accepted"
  | SubmissionRejected => "rejected"
  | SubmissionUnknown => "unknown"
  | SubmissionOther raw => raw
  end.
Definition SubmissionStatus_values : list SubmissionStatus :=
  [SubmissionAccepted; SubmissionRejected; SubmissionUnknown].
#[export] Instance SubmissionStatus_wire : WireEnum SubmissionStatus.
Proof.
  refine {| wire_name := SubmissionStatus_string; wire_other := SubmissionOther; wire_values := SubmissionStatus_values |}; wire_enum_tac.
Defined.

Record SubmissionOutcome := mkSubmissionOutcome {
  so_Status : SubmissionStatus; so_Remote : option RemoteReference; so_Problem : option Problem }.

(** An identity mismatch, as the error value the validators return. *)
Definition identity_mismatch (message : string) : error :=
  match provider_Problem CodeRemoteIdentityMismatch FailureStageObservation message with
  | Ok p => EProblem false p
  | Err e => e
  end.

Definition SubmissionOutcome_Validate (o : SubmissionOutcome) (expected : Identity) : option error :=
  check Identity_Validate expected ;;
  check match so_Remote o with
        | Some remote =>
            reject rr_Identity remote <>? expected with identity_mismatch "submission identity mismatch" ;;
            RemoteReference_Validate remote
        | None => None
        end ;;
  check match so_Problem o with Some p => Problem_Validate p | None => None end ;;
  match so_Status o with
  | SubmissionAccepted =>
      reject is_nil (so_Remote o) || not_nil (so_Problem o)
        with ENew "acceptance requires identity and no failure" ;;
      None
  | SubmissionRejected =>
      reject match so_Problem o with
             | Some p => not_nil (so_Remote o) || pb_ComputeMayHaveStarted p
             | None => true
             end
        with ENew "rejection requires proof of non-acceptance" ;;
      None
  | SubmissionUnknown =>
      reject match so_Problem o with
             | Some p => negb (pb_ComputeMayHaveStarted p) || pb_SafeOperationRetry p
                         || (pb_RecommendedAction p <>? RecommendedActionReconcile)
             | None => true
             end
        with ENew "unknown submission requires ambiguity and reconciliation without retry" ;;
      None
  | SubmissionOther _ => Some (ENew "invalid submission outcome")
  end.

Record Observation := mkObservation {
  ob_Remote : RemoteReference; ob_Execution : ExecutionState; ob_RawState : string;
  ob_RemoteActivity : RemoteActivityState; ob_ReleaseEvidence : ReleaseEvidence; ob_ObservedAt : Time }.

Definition Observation_Validate (o : Observation) (expected : RemoteReference) : option error :=
  check RemoteReference_Validate expected ;;
  reject ob_Remote o <>? expected with identity_mismatch "observation belongs to another execution" ;;
  reject IsZero (ob_ObservedAt o) || negb (ExecutionState_Valid (ob_Execution o))
         || negb (RemoteActivityState_Valid (ob_RemoteActivity o))
         || negb (ReleaseEvidence_Valid (ob_ReleaseEvidence o)) || negb (safeText (ob_RawState o) 1024)
    with ENew "invalid provider observation" ;;
  reject ExecutionState_Terminal (ob_Execution o) && (ob_RemoteActivity o <>? RemoteActivityInactive)
    with ENew "terminal observation cannot leave remote activity unresolved" ;;
  reject ob_RemoteActivity o ==? RemoteActivityNotStarted
    with ENew "identified remote execution cannot be not-started" ;;
  reject ob_Execution o ==? ExecutionNotSubmitted
    with ENew "identified remote run cannot be not-submitted" ;;
  reject negb (ExecutionState_Terminal (ob_Execution o)) && (ob_RemoteActivity o ==? RemoteActivityInactive)
    with ENew "inactive observation requires terminal evidence" ;;
  reject (ob_ReleaseEvidence o ==? ReleaseEvidenceNotApplicable)
         || (((ob_ReleaseEvidence o ==? ReleaseEvidenceConfirmed)
              || (ob_ReleaseEvidence o ==? ReleaseEvidenceProviderReported))
             && negb (ExecutionState_Terminal (ob_Execution o)))
    with ENew "release claim contradicts execution evidence" ;;
  None.

Record Reconciliation := mkReconciliation {
  rc_Status : ReconciliationStatus; rc_Remote : option RemoteReference; rc_ResourceName : string }.
Definition Reconciliation_Validate (r : Reconciliation) (expected : Identity) : option error :=
  check Identity_Validate expected ;;
  match rc_Status r with
  | ReconciliationAbsent =>
      reject not_nil (rc_Remote r) || negb (ValidResourceName (rc_ResourceName r))
        with ENew "absence requires an exact owned resource name" ;;
      None
  | ReconciliationFound =>
      match rc_Remote r with
      | Some remote =>
          reject rr_Identity remote <>? expected with ENew "reconciliation identity mismatch" ;;
          RemoteReference_Validate remote
      | None => Some (ENew "reconciliation identity mismatch")
      end
  | ReconciliationNotFound | ReconciliationUnknown =>
      reject not_nil (rc_Remote r) with ENew "unresolved lookup cannot invent a remote reference" ;;
      None
  | ReconciliationOther _ => Some (ENew "invalid reconciliation outcome")
  end.

(** [provider.RemoteAbsence]. *)
Record RemoteAbsence := mkRemoteAbsence { ra_Remote : RemoteReference; ra_ObservedAt : Time }.

(** ** Start authorization *)
Record Slot := mkSlot { sl_Name : string; sl_Exposure : string }.
#[export] Instance Slot_eq_dec : EqDecision Slot.
Proof. solve_decision. Defined.
Definition MaxSlots : Z := 8.

(** The pattern [^[a-z][a-z0-9_]{0,31}$]. *)
Definition ValidName (name : string) : bool :=
  match bytes_of name with
  | c :: l => is_lower (byte_val c) && (Z.of_nat (length l) <=? 31)
              && forallb (fun c => let b := byte_val c in is_lower b || is_digit b || (b =? 95)) l
  | [] => false
  end.

Fixpoint valid_slots (seen : list string) (l : list Slot) : bool :=
  match l with
  | [] => true
  | s :: l' =>
      if negb (ValidName (sl_Name s)) || bool_decide (sl_Name s ∈ seen)
         || (sl_Exposure s <>? "file") && (sl_Exposure s <>? "file_and_local_process_arguments")
      then false else valid_slots (sl_Name s :: seen) l'
  end.
Definition ValidSlots (slots : list Slot) : bool :=
  if MaxSlots <? Z.of_nat (length slots) then false else valid_slots [] slots.

(** [CanonicalTime]: an RFC 3339 second in UTC, of year 2 or later. *)
Definition CanonicalTime (raw : string) : option Time :=
  match ParseRFC3339 raw with
  | Some at_ => if (2 <=? Year at_) && (FormatRFC3339 at_ ==? raw) then Some at_ else None
  | None => None
  end.

Record SecretAuthorization := mkSecretAuthorization {
  sx_AuthorizationID : string; sx_ExpiresAt : string; sx_Slots : slice Slot }.
#[export] Instance SecretAuthorization_eq_dec : EqDecision SecretAuthorization.
Proof. solve_decision. Defined.
Record StartAuthorization := mkStartAuthorization {
  sz_Secrets : option SecretAuthorization; sz_AuthorizationID : string; sz_ReadinessRevision : string;
  sz_MaxRemoteWallSeconds : Z; sz_ExecutionDeadline : string; sz_StartBefore : string }.
#[export] Instance StartAuthorization_eq_dec : EqDecision StartAuthorization.
Proof. solve_decision. Defined.

(** [slices.Clone] keeps nil and empty apart, so the copy is the value. *)
Definition StartAuthorization_Clone (s : StartAuthorization) : StartAuthorization := s.

Definition StartAuthorization_Equal (s other : StartAuthorization) : bool :=
  if (sz_AuthorizationID s <>? sz_AuthorizationID other) || (sz_ReadinessRevision s <>? sz_ReadinessRevision other)
     || (sz_MaxRemoteWallSeconds s <>? sz_MaxRemoteWallSeconds other)
     || (sz_ExecutionDeadline s <>? sz_ExecutionDeadline other) || (sz_StartBefore s <>? sz_StartBefore other)
  then false
  else match sz_Secrets s, sz_Secrets other with
       | Some a, Some b => (sx_AuthorizationID a ==? sx_AuthorizationID b) && (sx_ExpiresAt a ==? sx_ExpiresAt b)
                           && (elems (sx_Slots a) ==? elems (sx_Slots b))
       | None, None => true
       | _, _ => false
       end.

Definition StartAuthorization_Validate (s : StartAuthorization) (p : Prepared) : option error :=
  let bad := ENew "invalid explicit start authorization" in
  match ParseRFC3339 (sz_ExecutionDeadline s), ParseRFC3339 (sz_StartBefore s) with
  | Some deadline, Some before =>
      reject negb (ID_Valid (sz_AuthorizationID s)) || negb (SHA256Digest_Valid (sz_ReadinessRevision s))
             || (sz_ReadinessRevision s <>? ReadinessRevision p) || (sz_MaxRemoteWallSeconds s <? 1)
             || (MaxRemoteWallSeconds <? sz_MaxRemoteWallSeconds s) || (Year deadline <? 2) || (Year before <? 2)
             || (FormatRFC3339 deadline <>? sz_ExecutionDeadline s)
             || (FormatRFC3339 before <>? sz_StartBefore s) || After before deadline
        with bad ;;
      match sz_Secrets s with
      | Some x =>
          reject match CanonicalTime (sx_ExpiresAt x) with
                 | Some expires =>
                     negb (ID_Valid (sx_AuthorizationID x)) || Before expires before
                     || (Z.of_nat (length (elems (sx_Slots x))) =? 0) || negb (ValidSlots (elems (sx_Slots x)))
                 | None => true
                 end
            with ENew "invalid workload secret authorization" ;;
          None
      | None => None
      end
  | _, _ => Some bad
  end.
