(* ===== verification/ProviderResources.v ===== *)
(** * Provider resources

    The rest of [internal/provider]: capability declarations and the two
    registries ([capabilities.go], [registry.go], [preparation.go]), bounds on
    shared and cleaned-up resources ([resource_bounds.go], [cleanup.go],
    [artifact_batch.go]), the optional observations ([optional.go]), closed
    failure reasons ([reason.go], [log_failure.go]) and the material of a
    secret start ([start.go], [internal/workloadsecret/model.go]). *)

From Stdlib Require Import SpecFloat.
From S2P Require Import Prelude GoStrings GoTime GoSha256 Identifiers Problems DomainRecords AttemptStates Attempts Provider.
#[local] Open Scope string_scope.
#[local] Open Scope list_scope.
#[local] Open Scope Z_scope.
#[local] Open Scope bool_scope.

(** ** Capabilities *)
Record Capabilities := mkCapabilities {
  cp_BatchExecution : bool; cp_Python : bool; cp_Shell : bool; cp_GPU : CapabilitySupport;
  cp_PrivateInputStaging : bool; cp_RemoteCancellation : bool; cp_RemoteCleanup : bool;
  cp_LogsWhileRunning : CapabilitySupport; cp_LogsAfterCompletion : bool;
  cp_QuotaReporting : CapabilitySupport; cp_ExecutionTimeout : bool; cp_SeparateStart : bool;
  cp_EphemeralSecrets : bool; cp_AbsoluteDeadline : bool; cp_RemoteNetworkControl : bool;
  cp_StrongIdentity : bool; cp_Accelerators : list string; cp_GPUShape : string;
  cp_MaxWallSeconds : Z }.

Definition boolSupport (ok : bool) : CapabilitySupport :=
  if ok then CapabilitySupportSupported else CapabilitySupportUnsupported.

Definition Capabilities_Support (c : Capabilities) (name : CapabilityName) : CapabilitySupport :=
  match name with
  | CapabilityBatchExecution => boolSupport (cp_BatchExecution c)
  | CapabilityPython => boolSupport (cp_Python c)
  | CapabilityShell => boolSupport (cp_Shell c)
  | CapabilityGPU => cp_GPU c
  | CapabilityPrivateInputStaging => boolSupport (cp_PrivateInputStaging c)
  | CapabilityRemoteCancellation => boolSupport (cp_RemoteCancellation c)
  | CapabilityRemoteCleanup => boolSupport (cp_RemoteCleanup c)
  | CapabilityLogsWhileRunning => cp_LogsWhileRunning c
  | CapabilityLogsAfterCompletion => boolSupport (cp_LogsAfterCompletion c)
  | CapabilityQuotaReporting => cp_QuotaReporting c
  | CapabilityExecutionTimeout => boolSupport (cp_ExecutionTimeout c)
  | CapabilitySeparateStart => boolSupport (cp_SeparateStart c)
  | CapabilityEphemeralSecrets => boolSupport (cp_EphemeralSecrets c)
  | CapabilityAbsoluteDeadline => boolSupport (cp_AbsoluteDeadline c)
  | CapabilityRemoteNetworkControl => boolSupport (cp_RemoteNetworkControl c)
  | CapabilityStrongIdentity => boolSupport (cp_StrongIdentity c)
  | CapabilityCustomContainer | CapabilityRetainedSessions => CapabilitySupportUnsupported
  | CapabilityOther _ => CapabilitySupportUnknown
  end.

Definition Capabilities_Valid (c : Capabilities) : bool :=
  cp_BatchExecution c && CapabilitySupport_Valid (cp_GPU c) && CapabilitySupport_Valid (cp_LogsWhileRunning c)
  && CapabilitySupport_Valid (cp_QuotaReporting c) && (1 <=? cp_MaxWallSeconds c)
  && (cp_MaxWallSeconds c <=? MaxRemoteWallSeconds).

Record Descriptor := mkDescriptor {
  ds_Type : string; ds_InstanceID : string; ds_Version : string; ds_Capabilities : Capabilities }.
Definition Descriptor_Support (d : Descriptor) (name : CapabilityName) : CapabilitySupport :=
  Capabilities_Support (ds_Capabilities d) name.

Record BindingSnapshot := mkBindingSnapshot {
  bs_Binding : ProviderBinding; bs_AccountScope : string; bs_CredentialRef : string }.
#[export] Instance BindingSnapshot_eq_dec : EqDecision BindingSnapshot.
Proof. solve_decision. Defined.
Definition BindingSnapshot_Valid (s : BindingSnapshot) : bool :=
  nil_error (ProviderBinding_Validate (bs_Binding s)) && ID_Valid (bs_AccountScope s)
  && (len (bs_CredentialRef s) <=? 1030) && negb (ContainsAny (bs_CredentialRef s) [0; 13; 10]).

(** ** Registries

    A provider is code behind an interface: the registries see only whether
    the value is nil and what [Describe] returns. *)
Section Registries.
Context {Provider : Type} (Describe : Provider -> Descriptor).

(** [Registry.instances] and [SnapshotRegistry.entries]. *)
Abbreviation Registry := (gmap string Provider).
Abbreviation SnapshotRegistry := (list (BindingSnapshot * Provider)).

Definition Register (r : Registry) (p : option Provider) : result error Registry :=
  match p with
  | None => Err (ENew "nil provider")
  | Some p =>
      let d := Describe p in
      throw negb (safeText (ds_Type d) 128) || negb (ID_Valid (ds_InstanceID d)) || negb (safeText (ds_Version d) 128)
        with ENew "invalid provider descriptor" ;;
      throw negb (Capabilities_Valid (ds_Capabilities d)) with ENew "invalid provider capabilities" ;;
      throw not_nil (r !! ds_InstanceID d) with ENew "provider instance already registered" ;;
      Ok (<[ds_InstanceID d := p]> r)
  end.

Definition Lookup (r : Registry) (id : string) : result error Provider :=
  match r !! id with
  | Some p => Ok p
  | None =>
      do p <- provider_Problem CodeConfigurationInvalid FailureStageLocalRuntime
                "provider instance is not registered; no fallback was selected" ;;
      Err (EProblem false p)
  end.

Definition id_le (a b : string) : Prop := str_leb a b = true.
#[global] Instance id_le_dec a b : Decision (id_le a b).
Proof. unfold id_le. apply _. Defined.
Definition Instances (r : Registry) : list string := merge_sort id_le (map_to_list r).*1.

(** The map of snapshots, keyed by the whole snapshot. *)
Fixpoint snapshot_get (r : SnapshotRegistry) (s : BindingSnapshot) : option Provider :=
  match r with
  | [] => None
  | (s', p) :: r' => if s' ==? s then Some p else snapshot_get r' s
  end.

Definition Snapshot_Register (r : SnapshotRegistry) (s : BindingSnapshot) (p : option Provider)
    : result error SnapshotRegistry :=
  throw negb (BindingSnapshot_Valid s)
        || match p with
           | None => true
           | Some p => ds_InstanceID (Describe p) <>? bd_ProviderInstanceID (bs_Binding s)
           end
    with ENew "invalid provider snapshot" ;;
  do _ <- Register ∅ p ;;
  throw not_nil (snapshot_get r s) with ENew "provider snapshot already registered" ;;
  match p with Some p => Ok ((s, p) :: r) | None => Ok r end.

Definition Resolve (r : SnapshotRegistry) (s : BindingSnapshot) : result error Provider :=
  match snapshot_get r s with
  | Some p => Ok p
  | None => Err (ENew "frozen provider revision unavailable; no fallback")
  end.
End Registries.

(** ** Shared inputs *)
Definition RemoteResourceCountLimit : Z := 128.
Definition RunnerImageCountLimit : Z := 16.
Definition DefaultSharedInputMinBytes : Z := 256 * 2 ^ 20.
Definition DefaultSharedInputLimit : Z := 7.

Definition SharedResourceKey (sha : string) (bytes : Z) : string :=
  if negb (SHA256Digest_Valid sha) || (bytes <? 0) then "" else sha +:+ "_" +:+ FormatInt bytes.

Record SharedResourceClaim := mkSharedResourceClaim {
  sc_Identity : Identity; sc_PreparationID : string; sc_PlanSHA256 : string;
  sc_ContentSHA256 : string; sc_Bytes : Z }.
Definition SharedResourceClaim_Valid (c : SharedResourceClaim) : bool :=
  nil_error (Identity_Validate (sc_Identity c)) && ID_Valid (sc_PreparationID c)
  && SHA256Digest_Valid (sc_PlanSHA256 c) && (SharedResourceKey (sc_ContentSHA256 c) (sc_Bytes c) <>? "").

(** The loop: keys seen and objects selected so far. *)
Fixpoint select_shared (minBytes limit : Z) (seen : list string) (selected : list ObjectMetadata)
    (inputs : list FrozenInput) : list ObjectMetadata :=
  match inputs with
  | [] => selected
  | input :: inputs' =>
      let object := fi_Object input in
      if om_Bytes object <? minBytes then select_shared minBytes limit seen selected inputs' else
      let key := SharedResourceKey (om_SHA256 object) (om_Bytes object) in
      if (key ==? "") || bool_decide (key ∈ seen) then select_shared minBytes limit seen selected inputs'
      else if limit <=? Z.of_nat (length selected) then selected
      else select_shared minBytes limit (key :: seen) (selected ++ [object]) inputs'
  end.
Definition SelectSharedInputs (inputs : list FrozenInput) (minBytes limit : Z) : list ObjectMetadata :=
  if (minBytes <=? 0) || (limit <=? 0) then [] else select_shared minBytes limit [] [] inputs.

(** ** Read budget *)
Definition ArtifactReadBudget (base : Duration) (bytes files : Z) : Duration :=
  let ceiling := 2 * Hour in
  if (ceiling <=? base) || (bytes <? 0) || (files <? 0) then ceiling else
  let base := if base <? 0 then 0 else base in
  let seconds := Z.quot bytes (2 ^ 20) in
  let seconds := if Z.rem bytes (2 ^ 20) =? 0 then seconds else seconds + 1 in
  let remaining := Z.quot (ceiling - base) Second in
  if (remaining <? seconds) || (remaining - seconds <? files) then ceiling
  else base + (seconds + files) * Second.

(** ** Cleanup *)
Inductive CleanupMode :=
  | CleanupDryRun | CleanupApply
  | CleanupOther (raw : string).
#[export] Instance CleanupMode_eq_dec : EqDecision CleanupMode.
Proof. solve_decision. Defined.

Record CleanupDescription := mkCleanupDescription {
  cd_Kind : string; cd_ID : string; cd_Name : string; cd_Version : string; cd_Scope : string;
  cd_Support : CapabilitySupport; cd_Reason : string; cd_Bytes : option Z }.

(** [^[A-Za-z0-9][A-Za-z0-9._:/-]{0,255}$]. *)
Definition cleanupLabel (s : string) : bool :=
  match bytes_of s with
  | c :: l => alnum (byte_val c) && (Z.of_nat (length l) <=? 255)
              && forallb (fun c => let b := byte_val c in
                   alnum b || (b =? 46) || (b =? 95) || (b =? 58) || (b =? 47) || (b =? 45)) l
  | [] => false
  end.
(** [^[a-z][a-z0-9_]{0,95}$]. *)
Definition cleanupReason (s : string) : bool :=
  match bytes_of s with
  | c :: l => is_lower (byte_val c) && (Z.of_nat (length l) <=? 95)
              && forallb (fun c => let b := byte_val c in is_lower b || is_digit b || (b =? 95)) l
  | [] => false
  end.
Definition CleanupDescription_Valid (d : CleanupDescription) : bool :=
  cleanupLabel (cd_Kind d) && cleanupLabel (cd_ID d) && cleanupLabel (cd_Name d) && cleanupLabel (cd_Version d)
  && cleanupReason (cd_Scope d) && CapabilitySupport_Valid (cd_Support d) && cleanupReason (cd_Reason d)
  && match cd_Bytes d with None => true | Some b => 0 <=? b end.

Record CleanupResourceRequest := mkCleanupResourceRequest {
  cq_Remote : RemoteReference; cq_LedgerID : string; cq_CreationOperationID : string;
  cq_ResultsCollected : bool; cq_Mode : CleanupMode; cq_Purpose : string;
  cq_OwnershipOperationID : string; cq_PlanSHA256 : string; cq_RecoverOnly : bool }.
Definition CleanupResourceRequest_Valid (r : CleanupResourceRequest) : bool :=
  let owned := (cq_Purpose r ==? "staging") && (cq_OwnershipOperationID r ==? cq_CreationOperationID r)
               || (cq_Purpose r ==? "execution")
                  && (cq_OwnershipOperationID r ==? id_IntentID (rr_Identity (cq_Remote r))) in
  owned && nil_error (RemoteReference_Validate (cq_Remote r)) && ID_Valid (cq_LedgerID r)
  && ID_Valid (cq_CreationOperationID r) && ID_Valid (cq_OwnershipOperationID r)
  && SHA256Digest_Valid (cq_PlanSHA256 r) && ((cq_Purpose r ==? "staging") || (cq_Purpose r ==? "execution"))
  && ((cq_Mode r ==? CleanupApply) || (cq_Mode r ==? CleanupDryRun)).

(** ** Optional observations *)
Record CancellationOutcome := mkCancellationOutcome {
  co_Status : CancellationState; co_TerminationConfirmed : bool }.
Definition CancellationOutcome_Validate (o : CancellationOutcome) : option error :=
  match co_Status o with
  | CancellationConfirmed =>
      reject negb (co_TerminationConfirmed o) with ENew "confirmed cancellation lacks termination evidence" ;;
      None
  | CancellationAccepted | CancellationTooLate | CancellationManual =>
      reject co_TerminationConfirmed o with ENew "request or manual guidance cannot confirm termination" ;;
      None
  | _ => Some (ENew "invalid cancellation outcome")
  end.

Record PageRequest := mkPageRequest { pq_Cursor : string; pq_Limit : Z }.
Definition PageRequest_Validate (page : PageRequest) : option error :=
  reject (pq_Limit page <? 1) || (100 <? pq_Limit page) || (512 <? len (pq_Cursor page))
    with ENew "invalid page limit or cursor" ;;
  None.

Record LogPage := mkLogPage {
  lp_Source : string; lp_Availability : string; lp_Lines : list string;
  lp_NextCursor : string; lp_Truncated : bool }.
(** The line loop, with the bytes counted so far. *)
Fixpoint log_bytes (total : Z) (lines : list string) : result error Z :=
  match lines with
  | [] => Ok total
  | line :: lines' =>
      throw 16 * 2 ^ 10 <? len line with ENew "log line exceeds bound" ;;
      log_bytes (total + len line) lines'
  end.
Definition LogPage_Validate (page : LogPage) (request : PageRequest) : option error :=
  check PageRequest_Validate request ;;
  reject (lp_Source page <>? "provider") && (lp_Source page <>? "payload")
    with ENew "invalid provider log source" ;;
  reject negb (bool_decide (lp_Availability page ∈ ["live"; "delayed"; "after_completion"; "unavailable"; "unknown"]))
    with ENew "invalid log availability" ;;
  reject (pq_Limit request <? Z.of_nat (length (lp_Lines page))) || (512 <? len (lp_NextCursor page))
    with ENew "log page exceeds bounds" ;;
  match log_bytes 0 (lp_Lines page) with
  | Err e => Some e
  | Ok total =>
      reject 256 * 2 ^ 10 <? total with ENew "log bytes exceed bound" ;;
      reject ((lp_Availability page ==? "unavailable") || (lp_Availability page ==? "unknown"))
             && ((0 <? Z.of_nat (length (lp_Lines page))) || (lp_NextCursor page <>? ""))
        with ENew "unavailable logs cannot contain invented output" ;;
      None
  end.

Record Artifact := mkArtifact {
  af_Remote : RemoteReference; af_Path : string; af_Bytes : Z; af_SHA256 : string }.
Definition Artifact_Validate (artifact : Artifact) (expected : RemoteReference) : option error :=
  check RemoteReference_Validate expected ;;
  reject af_Remote artifact <>? expected with identity_mismatch "artifact belongs to another execution" ;;
  reject negb (SafeArtifactPath (af_Path artifact)) || (af_Bytes artifact <? 0)
         || negb (SHA256Digest_Valid (af_SHA256 artifact))
    with ENew "invalid artifact metadata" ;;
  None.

(** ** Quota

    A [float64] is an IEEE 754 binary64 value of the standard library's
    [SpecFloat]. *)
Abbreviation float64 := spec_float.
Definition float_prec : Z := 53.
Definition float_emax : Z := 1024.
(** [float64(n)] of an integer, rounded to nearest even. *)
Definition float_of_Z (n : Z) : float64 := binary_normalize float_prec float_emax n 0 false.
Definition float_zero : float64 := S754_zero false.
Definition IsNaN (x : float64) : bool := match x with S754_nan => true | _ => false end.
(** [math.IsInf(x, 0)]. *)
Definition IsInf (x : float64) : bool := match x with S754_infinity _ => true | _ => false end.

Inductive QuotaStatus :=
  | QuotaKnown | QuotaUnknown | QuotaStale | QuotaUnavailable
  | QuotaOther (raw : string).
#[export] Instance QuotaStatus_eq_dec : EqDecision QuotaStatus.
Proof. solve_decision. Defined.

Record QuotaObservation := mkQuotaObservation {
  qo_Status : QuotaStatus; qo_Resource : string; qo_Unit : string;
  qo_Limit : option float64; qo_Used : option float64; qo_Remaining : option float64;
  qo_ResetAt : option Time; qo_ObservedAt : Time; qo_Source : string; qo_Precision : string }.

Definition bad_quota_value (v : option float64) : bool :=
  match v with Some x => IsInf x || IsNaN x || SFltb x float_zero | None => false end.

Definition QuotaObservation_Validate (quota : QuotaObservation) : option error :=
  reject match qo_Status quota with QuotaOther _ => true | _ => false end with ENew "invalid quota status" ;;
  reject existsb bad_quota_value [qo_Limit quota; qo_Used quota; qo_Remaining quota]
    with ENew "invalid quota value" ;;
  reject ((qo_Status quota ==? QuotaKnown) || (qo_Status quota ==? QuotaStale))
         && (is_nil (qo_Limit quota) || is_nil (qo_Used quota) || is_nil (qo_Remaining quota)
             || IsZero (qo_ObservedAt quota) || negb (safeText (qo_Source quota) 256)
             || negb (safeText (qo_Resource quota) 64) || negb (safeText (qo_Unit quota) 64)
             || negb (safeText (qo_Precision quota) 128))
    with ENew "known or stale quota requires values, units, provenance and timestamp" ;;
  reject match qo_ResetAt quota with Some t => IsZero t | None => false end
    with ENew "invalid quota reset timestamp" ;;
  None.

(** ** Failure reasons *)
Definition LogReadFailure_Valid (reason : string) : bool :=
  bool_decide (reason ∈ ["auth_read_failed"; "kernel_read_failed"; "stream_timeout";
    "stream_http_401"; "stream_http_403"; "stream_http_404"; "stream_http_429";
    "stream_http_4xx"; "stream_http_5xx"; "stream_redirect"; "stream_http_other";
    "stream_format_invalid"; "replay_unavailable"; "read_unavailable"]).

(** The values with a [FailureReason] method. *)
Definition as_reasoned (e : error) : option string :=
  match e with
  | EStepFailure reason _ => Some reason
  | ECollectionFailure _ _ reason _ _ => Some reason
  | _ => None
  end.
Definition as_read (e : error) : option string := match e with EReadError r _ => Some r | _ => None end.
Definition as_log_read (e : error) : option string := match e with ELogReadFailure r => Some r | _ => None end.
Definition as_local_state (e : error) : option unit := match e with ELocalState _ => Some () | _ => None end.

(** One clause of [Reason]: the value found, when it is acceptable. *)
Definition found_reason (found : option string) (ok : string -> bool) : option string :=
  match found with Some r => if ok r then Some r else None | None => None end.
Definition problem_reason (pointer : bool) (err : option error) : option string :=
  found_reason ((fun p => map_get (PublicDetails p) ReasonDetail) <$> errors_As (as_problem pointer) err)
    (fun r => r <>? "").

Definition Reason (err : option error) (fallback : string) : string :=
  match found_reason (errors_As as_reasoned err) ValidReason with
  | Some r => r
  | None => match problem_reason false err with
  | Some r => r
  | None => match problem_reason true err with
  | Some r => r
  | None => match found_reason (errors_As as_read err) ValidReason with
  | Some r => r
  | None => match found_reason (errors_As as_log_read err) LogReadFailure_Valid with
  | Some r => r
  | None => if ValidReason fallback then fallback else ""
  end end end end end.

Definition WithReason (err : option error) (fallback : string) : option error :=
  match err with
  | None => None
  | Some e => if (Reason err "" <>? "") || negb (ValidReason fallback) then err else Some (EStepFailure fallback e)
  end.

Definition IsLocalStateError (err : option error) : bool := not_nil (errors_As as_local_state err).

(** ** Workload secrets *)
Definition MaxSlotBytes : Z := 8 * 2 ^ 10.
Definition MaxTotalBytes : Z := 32 * 2 ^ 10.

Record Supply := mkSupply {
  sp_AttemptID : string; sp_ReadinessRevision : string; sp_ExpiresAt : string; sp_Values : gmap string string }.
Definition ErrRequest : error := ENew "invalid workload secret request".
(** The value loop has one error and a sum, so the map order is immaterial. *)
Definition bad_value (kv : string * string) : bool :=
  negb (ValidName kv.1) || (len kv.2 <? 1) || (MaxSlotBytes <? len kv.2).
Definition total_bytes (values : gmap string string) : Z :=
  fold_right (fun kv total => len kv.2 + total) 0 (map_to_list values).
Definition Supply_Validate (r : Supply) : option error :=
  reject negb (ID_Valid (sp_AttemptID r)) || negb (SHA256Digest_Valid (sp_ReadinessRevision r))
         || is_nil (CanonicalTime (sp_ExpiresAt r)) || (Z.of_nat (size (sp_Values r)) <? 1)
         || (MaxSlots <? Z.of_nat (size (sp_Values r)))
    with ErrRequest ;;
  reject existsb bad_value (map_to_list (sp_Values r)) with ErrRequest ;;
  reject MaxTotalBytes <? total_bytes (sp_Values r) with ErrRequest ;;
  None.
Definition Supply_Names (r : Supply) : list string := merge_sort id_le (map_to_list (sp_Values r)).*1.

Record Metadata := mkMetadata {
  md_AttemptID : string; md_ReadinessRevision : string; md_ExpiresAt : string; md_Names : list string }.
(** Names valid and strictly increasing; [prev] is the name before. *)
Fixpoint names_sorted (prev : option string) (l : list string) : bool :=
  match l with
  | [] => true
  | name :: l' =>
      ValidName name && match prev with Some p => str_ltb p name | None => true end && names_sorted (Some name) l'
  end.
Definition Metadata_Validate (m : Metadata) : option error :=
  reject negb (ID_Valid (md_AttemptID m)) || negb (SHA256Digest_Valid (md_ReadinessRevision m))
         || is_nil (CanonicalTime (md_ExpiresAt m)) || (Z.of_nat (length (md_Names m)) <? 1)
         || (MaxSlots <? Z.of_nat (length (md_Names m)))
    with ErrRequest ;;
  reject negb (names_sorted None (md_Names m)) with ErrRequest ;;
  None.

Record Receipt := mkReceipt {
  rt_AuthorizationID : string; rt_WorkspaceID : string; rt_JobID : string; rt_Metadata : Metadata;
  rt_Status : string; rt_CreatedAt : Time; rt_ConsumedAt : option Time; rt_RevokedAt : option Time;
  rt_Replay : bool }.
Definition Receipt_Validate (r : Receipt) : option error :=
  reject negb (ID_Valid (rt_AuthorizationID r)) || negb (ID_Valid (rt_WorkspaceID r)) || negb (ID_Valid (rt_JobID r))
         || not_nil (Metadata_Validate (rt_Metadata r)) || IsZero (rt_CreatedAt r)
    with ErrRequest ;;
  reject (rt_Status r <>? "granted") && (rt_Status r <>? "consumed") && (rt_Status r <>? "revoked")
         && (rt_Status r <>? "expired")
    with ErrRequest ;;
  reject negb (Bool.eqb (rt_Status r ==? "consumed") (not_nil (rt_ConsumedAt r)))
         || negb (Bool.eqb (rt_Status r ==? "revoked") (not_nil (rt_RevokedAt r)))
         || match rt_ConsumedAt r with Some t => Before t (rt_CreatedAt r) | None => false end
         || match rt_RevokedAt r with Some t => Before t (rt_CreatedAt r) | None => false end
    with ErrRequest ;;
  None.

Record Key := mkKey { ky_WorkspaceID : string; ky_JobID : string; ky_AttemptID : string }.
Definition Key_Valid (k : Key) : bool := ID_Valid (ky_WorkspaceID k) && ID_Valid (ky_JobID k) && ID_Valid (ky_AttemptID k).
Record Material := mkMaterial {
  mt_AuthorizationID : string; mt_Key : Key; mt_ExpiresAt : string; mt_Values : gmap string string }.

Definition ValidateMaterial (s : StartAuthorization) (p : Prepared) (m : Material) : option error :=
  let bad := ENew "invalid workload secret material binding" in
  match sz_Secrets s with
  | None => Some bad
  | Some x =>
      reject not_nil (StartAuthorization_Validate s p) || (mt_AuthorizationID m <>? sx_AuthorizationID x)
             || (ky_WorkspaceID (mt_Key m) <>? id_WorkspaceID (pr_Identity p))
             || (ky_JobID (mt_Key m) <>? id_JobID (pr_Identity p))
             || (ky_AttemptID (mt_Key m) <>? id_AttemptID (pr_Identity p))
             || (mt_ExpiresAt m <>? sx_ExpiresAt x)
             || negb (Z.of_nat (size (mt_Values m)) =? Z.of_nat (length (elems (sx_Slots x))))
        with bad ;;
      let request := mkSupply (ky_AttemptID (mt_Key m)) (sz_ReadinessRevision s) (mt_ExpiresAt m) (mt_Values m) in
      reject not_nil (Supply_Validate request) with ENew "invalid workload secret material" ;;
      reject existsb (fun slot => len (map_get (Some (mt_Values m)) (sl_Name slot)) =? 0) (elems (sx_Slots x))
        with ENew "required workload secret material missing" ;;
      None
  end.
