(* ===== verification/Admission.v ===== *)
(** * Admission

    [internal/admission/spec.go] and [model.go]: the job specification with
    its semantic checks, requests, profiles and the record of an accepted
    job. The JSON schema a specification must satisfy is checked by a library:
    it is the parameter [schema] of [Parse]. *)

From S2P Require Import Prelude GoStrings GoTime GoSha256 GoJson JsonRead Canonical Identifiers Problems AttemptStates Attempts DomainRecords Provider ProviderResources.
#[local] Open Scope string_scope.
#[local] Open Scope list_scope.
#[local] Open Scope Z_scope.
#[local] Open Scope bool_scope.

Definition ErrUnsupportedInput : error := ENew "HTTPS input sources are unsupported; upload inputs as objects".
Definition ErrRequirements : error := ENew "job exceeds the resolved profile policy".
Definition ErrExpired : string := "absolute execution deadline has expired".
(** [ErrHostUnhealthy] joins [ErrRequirements] and a value that occurs nowhere
    else, by which the join is recognised. *)
Definition ErrHostUnhealthy : string := "host health refuses new work".

(** ** The specification *)
Record Source := mkSource {
  so_Kind : string; so_ObjectID : string; so_SHA256 : string; so_Bytes : option Z; so_URL : string;
  so_ExpectedSHA256 : string }.
Record Input := mkInput { in_Name : string; in_Source : Source; in_Target : string }.
Record Output := mkOutput { ou_Path : string; ou_Kind : string; ou_Required : bool; ou_MaxBytes : Z }.
Record ApplicationImage := mkApplicationImage { ai_ObjectID : string; ai_SHA256 : string; ai_Bytes : Z }.
Record Retention := mkRetention { rt_AfterCollectionSeconds : option Z; rt_UncollectedMaxSeconds : option Z }.
Record BundleRef := mkBundleRef { br_ObjectID : string; br_SHA256 : string; br_Bytes : option Z }.
Record Execution := mkExecution {
  ex_Kind : string; ex_Command : list string; ex_WorkingDirectory : string;
  ex_Environment : gmap string string; ex_PythonRequirements : string; ex_ShellSetup : list (list string) }.
Record Resources := mkResources {
  rs_Accelerator : string; rs_MinimumGPUCount : Z; rs_MinimumGPUMemoryBytes : Z }.
Record Timeouts := mkTimeouts {
  tm_ExecutionDeadline : string; tm_RemoteWallSeconds : Z; tm_SetupSeconds : Z;
  tm_FinalizationGraceSeconds : Z }.
Record Spec := mkSpec {
  sc_WorkloadSecrets : list Slot; sc_ExecutionControl : string; sc_ResultCollection : string;
  sc_Retention : option Retention; sc_APIVersion : string; sc_Name : string; sc_Profile : string;
  sc_Labels : gmap string string; sc_Bundle : BundleRef; sc_ApplicationImage : option ApplicationImage;
  sc_Execution : Execution; sc_Inputs : list Input; sc_Outputs : list Output; sc_Resources : Resources;
  sc_RemoteInternet : string; sc_Timeouts : Timeouts }.

Definition SeparateStart (s : Spec) : bool := sc_ExecutionControl s ==? "prepare_then_start".
(** A deadline that does not parse is the zero time. *)
Definition Deadline (s : Spec) : Time :=
  default zero_time (ParseRFC3339 (tm_ExecutionDeadline (sc_Timeouts s))).
Definition Spec_Expired (s : Spec) (now : Time) : bool :=
  let at_ := Deadline s in negb (IsZero at_) && negb (Before now at_).
Definition CollectionMode (s : Spec) : string :=
  if sc_ResultCollection s ==? "" then "automatic" else sc_ResultCollection s.
Definition CheckInputs (s : Spec) : option error :=
  reject existsb (fun i => so_Kind (in_Source i) <>? "object") (sc_Inputs s) with ErrUnsupportedInput ;;
  None.

(** ** Decoding

    [json.Unmarshal] into the structs above. Absent and null members leave the
    zero value; a member of another type is an error. Names are matched
    exactly: the schema admits no other spelling. *)
Definition dec_str (v : option jvalue) : option string :=
  match v with None | Some VNull => Some "" | Some (VStr s) => Some s | _ => None end.
Definition dec_bool (v : option jvalue) : option bool :=
  match v with None | Some VNull => Some false | Some (VBool b) => Some b | _ => None end.
(** [strconv.ParseInt(text, 10, 64)] on the text of a JSON number. *)
Definition parse_int (t : list ascii) : option Z :=
  let '(neg, ds) := signed t in
  if bool_decide (ds = []) then None else
  z ← read_digits 0 ds;
  let z := if neg then - z else z in
  if between MinInt64 MaxInt64 z then Some z else None.
Definition dec_int (v : option jvalue) : option Z :=
  match v with None | Some VNull => Some 0 | Some (VNum t) => parse_int t | _ => None end.
Definition dec_ptr {A} (f : option jvalue -> option A) (v : option jvalue) : option (option A) :=
  match v with None | Some VNull => Some None | Some _ => Some <$> f v end.
Definition dec_list {A} (f : option jvalue -> option A) (v : option jvalue) : option (list A) :=
  match v with None | Some VNull => Some [] | Some (VArr l) => mapM (fun x => f (Some x)) l | _ => None end.
Definition dec_fields (v : option jvalue) : option (list (string * jvalue)) :=
  match v with None | Some VNull => Some [] | Some (VObj l) => Some l | _ => None end.
Definition dec_map (v : option jvalue) : option (gmap string string) :=
  fields ← dec_fields v;
  l ← mapM (fun kv => s ← dec_str (Some kv.2); Some (kv.1, s)) fields;
  Some (list_to_map (rev l)).

Definition dec_source (v : option jvalue) : option Source :=
  f ← dec_fields v;
  kind ← dec_str (member "kind" f); id ← dec_str (member "object_id" f); sha ← dec_str (member "sha256" f);
  bytes ← dec_ptr dec_int (member "bytes" f); url ← dec_str (member "url" f);
  expected ← dec_str (member "expected_sha256" f);
  Some (mkSource kind id sha bytes url expected).
Definition dec_input (v : option jvalue) : option Input :=
  f ← dec_fields v;
  name ← dec_str (member "name" f); source ← dec_source (member "source" f); target ← dec_str (member "target" f);
  Some (mkInput name source target).
Definition dec_output (v : option jvalue) : option Output :=
  f ← dec_fields v;
  path ← dec_str (member "path" f); kind ← dec_str (member "kind" f);
  required ← dec_bool (member "required" f); bytes ← dec_int (member "max_bytes" f);
  Some (mkOutput path kind required bytes).
Definition dec_image (v : option jvalue) : option ApplicationImage :=
  f ← dec_fields v;
  id ← dec_str (member "object_id" f); sha ← dec_str (member "sha256" f); bytes ← dec_int (member "bytes" f);
  Some (mkApplicationImage id sha bytes).
Definition dec_retention (v : option jvalue) : option Retention :=
  f ← dec_fields v;
  after ← dec_ptr dec_int (member "after_collection_seconds" f);
  uncollected ← dec_ptr dec_int (member "uncollected_max_seconds" f);
  Some (mkRetention after uncollected).
Definition dec_bundle (v : option jvalue) : option BundleRef :=
  f ← dec_fields v;
  id ← dec_str (member "object_id" f); sha ← dec_str (member "sha256" f);
  bytes ← dec_ptr dec_int (member "bytes" f);
  Some (mkBundleRef id sha bytes).
Definition dec_slot (v : option jvalue) : option Slot :=
  f ← dec_fields v;
  name ← dec_str (member "name" f); exposure ← dec_str (member "exposure" f);
  Some (mkSlot name exposure).
Definition dec_execution (v : option jvalue) : option Execution :=
  f ← dec_fields v;
  kind ← dec_str (member "kind" f); command ← dec_list dec_str (member "command" f);
  wd ← dec_str (member "working_directory" f); env ← dec_map (member "environment" f);
  d ← dec_fields (member "dependencies" f);
  reqs ← dec_str (member "python_requirements" d);
  setup ← dec_list (dec_list dec_str) (member "shell_setup" d);
  Some (mkExecution kind command wd env reqs setup).
Definition dec_resources (v : option jvalue) : option Resources :=
  f ← dec_fields v;
  acc ← dec_str (member "accelerator" f); count ← dec_int (member "minimum_gpu_count" f);
  memory ← dec_int (member "minimum_gpu_memory_bytes" f);
  Some (mkResources acc count memory).
Definition dec_timeouts (v : option jvalue) : option Timeouts :=
  f ← dec_fields v;
  deadline ← dec_str (member "execution_deadline" f); wall ← dec_int (member "remote_wall_seconds" f);
  setup ← dec_int (member "setup_seconds" f); grace ← dec_int (member "finalization_grace_seconds" f);
  Some (mkTimeouts deadline wall setup grace).
Definition dec_spec (v : jvalue) : option Spec :=
  f ← dec_fields (Some v);
  secrets ← dec_list dec_slot (member "workload_secrets" f);
  control ← dec_str (member "execution_control" f);
  collection ← dec_str (member "result_collection" f);
  retention ← dec_ptr dec_retention (member "retention" f);
  version ← dec_str (member "api_version" f); name ← dec_str (member "name" f);
  profile ← dec_str (member "profile" f); labels ← dec_map (member "labels" f);
  bundle ← dec_bundle (member "bundle" f);
  image ← dec_ptr dec_image (member "application_image" f);
  execution ← dec_execution (member "execution" f);
  inputs ← dec_list dec_input (member "inputs" f); outputs ← dec_list dec_output (member "outputs" f);
  resources ← dec_resources (member "resources" f);
  network ← dec_fields (member "network" f); internet ← dec_str (member "remote_internet" network);
  timeouts ← dec_timeouts (member "timeouts" f);
  Some (mkSpec secrets control collection retention version name profile labels bundle image execution
          inputs outputs resources internet timeouts).

(** ** Semantic checks *)
Definition upper_byte (c : ascii) : ascii := if is_lower (byte_val c) then byte_of (byte_val c - 32) else c.
(** [strings.ToUpper] on the ASCII names the schema admits. *)
Definition ToUpper (s : string) : string := string_of (map upper_byte (bytes_of s)).
Definition has_nul (s : string) : bool := ContainsAny s [0].

Definition validObjectExpectation (sha : string) (size : option Z) : bool :=
  if Bool.eqb (sha ==? "") (not_nil size) then false
  else match size with None => true | Some n => SHA256Digest_Valid sha && (0 <=? n) end.
Definition paths_overlap (paths : list string) (next : string) : bool :=
  existsb (fun p => overlaps (ToLower p) (ToLower next)) paths.
Definition reserved_environment (k v : string) : bool :=
  let u := ToUpper k in
  HasPrefix u "CC_" || HasPrefix u "LD_" || HasPrefix u "DYLD_" || has_nul v
  || bool_decide (u ∈ ["PATH"; "HOME"; "PYTHONPATH"; "PYTHONHOME"; "VIRTUAL_ENV"; "KAGGLE_API_TOKEN"; "KAGGLE_KEY";
                       "KAGGLE_USERNAME"]).
Fixpoint semantic_inputs (names targets : list string) (l : list Input) : bool :=
  match l with
  | [] => true
  | i :: l' =>
      let s := in_Source i in let name := ToLower (in_Name i) in
      if (so_Kind s ==? "object") && negb (validObjectExpectation (so_SHA256 s) (so_Bytes s)) then false
      else if bool_decide (name ∈ names) then false
      else if paths_overlap targets (in_Target i) then false
      else semantic_inputs (name :: names) (targets ++ [in_Target i]) l'
  end.
Fixpoint semantic_outputs (targets : list string) (l : list Output) : bool :=
  match l with
  | [] => true
  | o :: l' => if paths_overlap targets (ou_Path o) then false else semantic_outputs (targets ++ [ou_Path o]) l'
  end.

Definition semantic (s : Spec) : option error :=
  let t := sc_Timeouts s in let x := sc_Execution s in
  reject negb (validObjectExpectation (br_SHA256 (sc_Bundle s)) (br_Bytes (sc_Bundle s))) with ErrSpec ;;
  reject match sc_ApplicationImage s with
         | Some image => negb (ID_Valid (ai_ObjectID image)) || negb (SHA256Digest_Valid (ai_SHA256 image))
                         || (ai_Bytes image <? 1) || (2 * 2 ^ 30 <? ai_Bytes image)
         | None => false
         end with ErrSpec ;;
  reject negb (ValidSlots (sc_WorkloadSecrets s)) || (0 <? Z.of_nat (length (sc_WorkloadSecrets s))) && negb (SeparateStart s)
    with ErrSpec ;;
  reject (tm_ExecutionDeadline t <>? "")
         && ((Year (Deadline s) <? 2) || (FormatRFC3339 (Deadline s) <>? tm_ExecutionDeadline t))
    with ErrSpec ;;
  reject (TrimSpace (sc_Name s) ==? "")
         || (tm_RemoteWallSeconds t <=? int64 (tm_SetupSeconds t + tm_FinalizationGraceSeconds t))
    with ErrSpec ;;
  reject existsb (fun kv => reserved_environment kv.1 kv.2) (map_to_list (ex_Environment x)) with ErrSpec ;;
  reject existsb has_nul (ex_Command x) with ErrSpec ;;
  reject existsb (existsb has_nul) (ex_ShellSetup x) with ErrSpec ;;
  reject negb (semantic_inputs [] [] (sc_Inputs s)) with ErrSpec ;;
  reject negb (semantic_outputs [] (sc_Outputs s)) with ErrSpec ;;
  None.

(** ** Requests *)
Record Request := mkRequest { rq_canonical : string; rq_hash : string }.
#[export] Instance Request_eq_dec : EqDecision Request.
Proof. solve_decision. Defined.
Definition Request_Valid (r : Request) : bool := (rq_canonical r <>? "") && SHA256Digest_Valid (rq_hash r).
Definition zero_spec : Spec :=
  mkSpec [] "" "" None "" "" "" ∅ (mkBundleRef "" "" None) None (mkExecution "" [] "" ∅ "" []) [] []
    (mkResources "" 0 0) "" (mkTimeouts "" 0 0 0).
(** A decoding error is dropped; a request [Parse] made has none. *)
Definition Request_Spec (r : Request) : Spec := default zero_spec (ReadDocument (rq_canonical r) ≫= dec_spec).

Section Parse.
Context (schema : json -> bool).
Definition Parse (raw : string) : result error Request :=
  do '(b, v) <- canonicalJSON raw ;;
  throw negb (schema v) with ErrSpec ;;
  match ReadDocument b ≫= dec_spec with
  | None => Err ErrSpec
  | Some spec =>
      match semantic spec with
      | Some e => Err e
      | None => Ok (mkRequest b (digest (CanonicalVersion +:+ String (byte_of 0) b)))
      end
  end.
End Parse.

(** ** Profiles *)
Record Profile := mkProfile {
  pf_Binding : ProviderBinding; pf_AccountScope : string; pf_CredentialRef : string; pf_CostClass : string;
  pf_AllowRemoteInternet : bool; pf_MaxRemoteWallSeconds : Z; pf_MaxBundleBytes : Z; pf_MaxInputBytes : Z;
  pf_Accelerator : string; pf_MaxActiveAttempts : Z; pf_MaxProcesses : Z; pf_ResourceScope : string }.
Definition CostFreeAllowance : string := "free_allowance".
Definition CostOperatorManaged : string := "operator_managed".
Definition DefaultProfile (binding : ProviderBinding) (accountScope : string) : Profile :=
  mkProfile binding accountScope "" CostFreeAllowance false 1800 (100 * 2 ^ 20) (4 * 2 ^ 30) "" 0 0 "".

(** [strings.Cut(s, ":")]. *)
Fixpoint cut_colon (before l : list ascii) : option (list ascii * list ascii) :=
  match l with
  | [] => None
  | c :: l' => if byte_val c =? 58 then Some (rev before, l') else cut_colon (c :: before) l'
  end.
(** The pattern [^con_[A-Za-z0-9][A-Za-z0-9._-]{0,123}$]. *)
Definition alphanumeric (b : Z) : bool := is_lower b || is_upper b || is_digit b.
Definition vaultConnection (id : list ascii) : bool :=
  match strip_prefix (lit "con_") id with
  | Some (c :: l) =>
      alphanumeric (byte_val c) && (Z.of_nat (length l) <=? 123)
      && forallb (fun c => let b := byte_val c in alphanumeric b || (b =? 46) || (b =? 95) || (b =? 45)) l
  | _ => false
  end.
Definition VaultReference (ref : string) : option string :=
  id ← strip_prefix (lit "vault:") (bytes_of ref);
  if vaultConnection id then Some (string_of id) else None.
Definition profile_name (i : nat) (c : ascii) : bool :=
  let b := byte_val c in
  is_lower b || is_digit b || negb (i =? 0)%nat && ((b =? 95) || (b =? 46) || (b =? 45)).
Definition env_name (i : nat) (c : ascii) : bool :=
  let b := byte_val c in is_upper b || is_lower b || (b =? 95) || negb (i =? 0)%nat && is_digit b.
Definition all_indexed (p : nat -> ascii -> bool) (l : list ascii) : bool :=
  forallb (fun ic => p ic.1 ic.2) (zip (seq 0 (length l)) l).
Definition valid_credential (ref : string) : bool :=
  match cut_colon [] (bytes_of ref) with
  | None => false
  | Some (kind, value) =>
      let kind := string_of kind in
      if (Z.of_nat (length value) =? 0) || (1024 <? Z.of_nat (length value))
         || ContainsAny (string_of value) [0; 13; 10] then false
      else if kind ==? "env" then all_indexed env_name value
      else if kind ==? "vault" then not_nil (VaultReference ref)
      else kind ==? "file"
  end.
Definition Profile_Validate (p : Profile) : option error :=
  let b := pf_Binding p in
  reject not_nil (ProviderBinding_Validate b) || (128 <? len (bd_Profile b))
         || (128 <? len (bd_ConfigurationRevision b)) || negb (ID_Valid (pf_AccountScope p))
         || (pf_CostClass p <>? CostFreeAllowance) && (pf_CostClass p <>? CostOperatorManaged)
         || (pf_MaxRemoteWallSeconds p <? 1) || (MaxRemoteWallSeconds <? pf_MaxRemoteWallSeconds p)
         || (pf_MaxBundleBytes p <? 1) || (100 * 2 ^ 20 <? pf_MaxBundleBytes p)
         || (pf_MaxInputBytes p <? 1) || (4 * 2 ^ 30 <? pf_MaxInputBytes p)
    with ErrRequirements ;;
  reject (pf_MaxActiveAttempts p <? 0) || (64 <? pf_MaxActiveAttempts p) || (pf_MaxProcesses p <? 0)
         || (65536 <? pf_MaxProcesses p) || (0 <? pf_MaxProcesses p) && (pf_CostClass p <>? CostOperatorManaged)
    with ErrRequirements ;;
  reject (pf_ResourceScope p <>? "")
         && match strip_prefix (lit "resource_") (bytes_of (pf_ResourceScope p)) with
            | Some d => negb (SHA256Digest_Valid (string_of d))
            | None => true
            end
    with ErrRequirements ;;
  reject negb (all_indexed profile_name (bytes_of (bd_Profile b))) with ErrRequirements ;;
  reject negb (ID_Valid (bd_ConfigurationRevision b)) with ErrRequirements ;;
  reject negb (bool_decide (pf_Accelerator p ∈ [""; "cpu"; "gpu"; "tpu"])) with ErrRequirements ;;
  reject (pf_CredentialRef p <>? "") && negb (valid_credential (pf_CredentialRef p)) with ErrRequirements ;;
  None.
Definition Profile_Check (p : Profile) (s : Spec) : option error :=
  reject not_nil (Profile_Validate p) || (bd_Profile (pf_Binding p) <>? sc_Profile s)
         || (pf_MaxRemoteWallSeconds p <? tm_RemoteWallSeconds (sc_Timeouts s))
         || (sc_RemoteInternet s ==? "required") && negb (pf_AllowRemoteInternet p)
         || (pf_Accelerator p <>? "") && (pf_Accelerator p <>? rs_Accelerator (sc_Resources s))
    with ErrRequirements ;;
  None.

Record Limits := mkLimits { lm_MaxOutstandingTotal : Z; lm_MaxOutstandingWorkspace : Z }.
Definition DefaultLimits : Limits := mkLimits 1000 100.
Definition Limits_Valid (l : Limits) : bool :=
  (0 <? lm_MaxOutstandingTotal l) && (lm_MaxOutstandingTotal l <=? 100000)
  && (0 <? lm_MaxOutstandingWorkspace l) && (lm_MaxOutstandingWorkspace l <=? lm_MaxOutstandingTotal l).

(** ** Accepted jobs

    The parts of a record that the dispatch of an attempt reads. *)
Record FrozenObject := mkFrozenObject { fo_Role : string; fo_Object : ObjectMetadata }.
Record JobRecord := mkJobRecord {
  jr_Job : Job; jr_Attempt : Attempt; jr_AttemptNonce : string; jr_Request : Request; jr_Profile : Profile;
  jr_Objects : list FrozenObject; jr_Problem : option Problem }.
