(* ===== verification/CanonicalProps.v ===== *)
(** * Canonical requests are fixed points

    The canonical bytes of a request are read back to the same value and are
    their own canonical form, so a request is identified by what it says and
    not by how it was written. *)

From S2P Require Import Prelude GoStrings GoTime GoSha256 GoJson JsonRead Canonical JsonText JsonPrint Identifiers Problems AttemptStates Attempts DomainRecords Provider ProviderResources Admission.
#[local] Open Scope string_scope.
#[local] Open Scope list_scope.
#[local] Open Scope Z_scope.
#[local] Open Scope bool_scope.

(** ** Canonical values *)
Fixpoint canonical_at (d : nat) (v : json) : Prop :=
  match d with
  | O => False
  | S d =>
      match v with
      | JNull | JBool _ => True
      | JInt z => exact z
      | JStr s => utf8_ok (bytes_of s)
      | JArr l => Forall (canonical_at d) l
      | JObj fields =>
          Forall (fun kv => utf8_ok (bytes_of kv.1) /\ canonical_at d kv.2) fields /\ NoDup fields.*1 /\ Sorted field_le fields
      | JRaw _ => False
      end
  end.
#[export] Instance field_le_total : Total field_le.
Proof. intros a b. unfold field_le, str_leb. destruct (String.leb_total a.1 b.1); auto. Qed.
#[export] Instance field_le_trans : Transitive field_le.
Proof. intros a b c. apply str_leb_trans. Qed.

(** Sorted members with distinct names have one order. *)
Lemma sorted_once (l l' : list (string * json)) : NoDup l'.*1 -> Sorted field_le l -> Sorted field_le l' -> l ≡ₚ l' -> l = l'.
Proof.
  intros Hn Hs Hs' Hp. apply (Sorted_unique_strong field_le); try done.
  intros [k1 v1] [k2 v2] H1 H2 Hle1 Hle2. unfold field_le in *. cbn in *.
  assert (k1 = k2) as -> by by apply str_leb_antisym. rewrite Hp in H1.
  f_equal. apply list_elem_of_lookup in H1 as [i H1], H2 as [j H2].
  assert (i = j) as ->; [|congruence]. eapply NoDup_lookup; [exact Hn| |]; rewrite list_lookup_fmap; by rewrite ?H1, ?H2.
Qed.
Lemma sort_sorted (l : list (string * json)) : NoDup l.*1 -> Sorted field_le l -> merge_sort field_le l = l.
Proof. intros Hn Hs. apply sorted_once; [done|apply Sorted_merge_sort, _|done|apply merge_sort_Permutation]. Qed.
Lemma sort_permuted (l l' : list (string * json)) : NoDup l'.*1 -> l ≡ₚ l' -> merge_sort field_le l = merge_sort field_le l'.
Proof.
  intros Hn Hp. apply sorted_once; [by rewrite merge_sort_Permutation|apply Sorted_merge_sort, _|apply Sorted_merge_sort, _|].
  by rewrite !merge_sort_Permutation.
Qed.

(** ** Reading gives canonical values *)
Lemma normal_number_exact t z : normal_number t = Some z -> exact z.
Proof.
  unfold normal_number. destruct (_ <? _); [done|]. destruct (number_parts t) as [[[m fr] e]|]; [|done]. cbn [mbind option_bind].
  destruct (negb _); [done|]. cbv zeta. intros (x & _ & H)%bind_Some. revert H.
  destruct (between _ _ x) eqn:E; [|done]. intros [= <-]. unfold between, exact in *. lia.
Qed.
Lemma mapM_keys d (fields : list (string * jvalue)) (ms : list (string * json)) :
  mapM (fun kv => v ← normal_value d kv.2; Some (kv.1, v)) fields = Some ms -> ms.*1 = fields.*1.
Proof.
  intros H%mapM_Some_1. induction H as [|kv m fields ms Hm _ IH]; [done|]. cbn. rewrite IH. f_equal.
  destruct (normal_value d kv.2); [|done]. by injection Hm as <-.
Qed.
Lemma normal_object d fields v :
  normal_value (S d) (VObj fields) = Some v ->
  (forall ms, mapM (fun kv => v ← normal_value d kv.2; Some (kv.1, v)) fields = Some ms ->
     Forall (fun kv => utf8_ok (bytes_of kv.1) /\ canonical_at d kv.2) ms) -> canonical_at (S d) v.
Proof.
  cbn [normal_value]. destruct (negb (duplicate_free fields)) eqn:E; [done|]. bool_to_prop.
  unfold duplicate_free in E. apply bool_decide_eq_true_1 in E.
  destruct (mapM _ fields) as [ms|] eqn:Em; [|done]. cbn [mbind option_bind]. intros [= <-] HF. specialize (HF ms eq_refl).
  apply mapM_keys in Em. cbn. split_and!.
  - by rewrite merge_sort_Permutation.
  - rewrite merge_sort_Permutation. by rewrite Em.
  - apply Sorted_merge_sort, _.
Qed.
Definition members_canonical (d : nat) : list (string * json) -> Prop :=
  Forall (fun kv => utf8_ok (bytes_of kv.1) /\ canonical_at d kv.2).
Definition normal_members (d : nat) : list (string * jvalue) -> option (list (string * json)) :=
  mapM (fun kv => v ← normal_value d kv.2; Some (kv.1, v)).

Section Reading.
Context (f : nat).
Context (IHv : forall l w rest, read_value f l = Some (w, rest) -> forall d v, normal_value d w = Some v -> canonical_at d v).
Context (IHm : forall l fs rest, read_members f l = Some (fs, rest) -> forall d ms,
  normal_members d fs = Some ms -> members_canonical d ms).
Context (IHe : forall l ws rest, read_elements f l = Some (ws, rest) -> forall d vs,
  mapM (normal_value d) ws = Some vs -> Forall (canonical_at d) vs).

Lemma value_canonical l w rest d v :
  read_value (S f) l = Some (w, rest) -> normal_value d w = Some v -> canonical_at d v.
Proof.
  cbn [read_value]. destruct (skip_ws l) as [|c r]; [done|]. cbv zeta. destruct d as [|d]; [by intros _|]. revert v.
  destruct (byte_val c =? 123).
  { destruct (skip_ws r) as [|c' r']; [done|]. destruct (byte_val c' =? 125).
    - intros v [= <- _] H. eapply normal_object; [exact H|]. intros ms [= <-]. constructor.
    - destruct (read_members f r) as [[fs r1]|] eqn:E; [|done]. cbn [mbind option_bind]. intros v [= <- _] H.
      eapply normal_object; [exact H|]. intros ms. by eapply IHm. }
  destruct (byte_val c =? 91).
  { destruct (skip_ws r) as [|c' r']; [done|]. destruct (byte_val c' =? 93).
    - intros v [= <- _]. cbn. intros [= <-]. constructor.
    - destruct (read_elements f r) as [[ws r1]|] eqn:E; [|done]. cbn [mbind option_bind]. intros v [= <- _].
      cbn [normal_value]. destruct (mapM _ ws) as [vs|] eqn:Em; [|done]. intros [= <-]. cbn. by eapply IHe. }
  destruct (byte_val c =? 34).
  { destruct (read_string _ r) as [[s r1]|] eqn:E; [|done]. cbn [mbind option_bind]. intros v [= <- _].
    cbn. intros [= <-]. rewrite bytes_of_string_of. by eapply read_string_ok. }
  unfold read_literal, read_number. do 3 (destruct (_ =? _); [intros v (r1 & _ & [= <- _])%bind_Some; by intros [= <-]|]).
  intros v (r1 & _ & [= <- _])%bind_Some. cbn [normal_value].
  destruct (normal_number _) as [z|] eqn:E; [|done]. intros [= <-]. cbn. by eapply normal_number_exact.
Qed.
Lemma members_step l fs rest d ms :
  read_members (S f) l = Some (fs, rest) -> normal_members d fs = Some ms -> members_canonical d ms.
Proof.
  cbn [read_members]. destruct (skip_ws l) as [|c r]; [done|]. destruct (byte_val c =? 34); [|done].
  destruct (read_string _ r) as [[key r1]|] eqn:Ek; [|done]. cbn [mbind option_bind]. apply read_string_ok in Ek.
  destruct (skip_ws r1) as [|c1 r2]; [done|]. destruct (byte_val c1 =? 58); [|done].
  destruct (read_value f r2) as [[w r3]|] eqn:Ev; [|done]. cbn [mbind option_bind].
  destruct (skip_ws r3) as [|c2 r4]; [done|].
  assert (forall v ms, normal_value d w = Some v -> members_canonical d ms -> members_canonical d ((string_of key, v) :: ms)) as HC.
  { intros v ms' Hv Hms. constructor; [|done]. cbn. rewrite bytes_of_string_of. split; [done|]. by eapply IHv. }
  destruct (byte_val c2 =? 44).
  - destruct (read_members f r4) as [[fs' r5]|] eqn:Em; [|done]. cbn [mbind option_bind]. intros [= <- _] H. cbn in H.
    destruct (normal_value d w) as [v|] eqn:Ew; [|done]. cbn in H.
    destruct (normal_members d fs') as [ms'|] eqn:Em'; [|done]. injection H as <-. apply HC; [done|]. by eapply IHm.
  - destruct (byte_val c2 =? 125); [|done]. intros [= <- _] H. cbn in H.
    destruct (normal_value d w) as [v|] eqn:Ew; [|done]. injection H as <-. apply HC; [done|constructor].
Qed.
Lemma elements_step l ws rest d vs :
  read_elements (S f) l = Some (ws, rest) -> mapM (normal_value d) ws = Some vs -> Forall (canonical_at d) vs.
Proof.
  cbn [read_elements]. destruct (read_value f l) as [[w r]|] eqn:Ev; [|done]. cbn [mbind option_bind].
  destruct (skip_ws r) as [|c r1]; [done|]. destruct (byte_val c =? 44).
  - destruct (read_elements f r1) as [[ws' r2]|] eqn:Ee; [|done]. cbn [mbind option_bind]. intros [= <- _] H. cbn in H.
    destruct (normal_value d w) as [v|] eqn:Ew; [|done]. cbn in H. destruct (mapM _ ws') as [vs'|] eqn:Em; [|done].
    injection H as <-. constructor; [by eapply IHv|by eapply IHe].
  - destruct (byte_val c =? 93); [|done]. intros [= <- _] H. cbn in H.
    destruct (normal_value d w) as [v|] eqn:Ew; [|done]. injection H as <-. constructor; [by eapply IHv|constructor].
Qed.
End Reading.
Lemma read_canonical f :
  (forall l w rest, read_value f l = Some (w, rest) -> forall d v, normal_value d w = Some v -> canonical_at d v) /\
  (forall l fs rest, read_members f l = Some (fs, rest) -> forall d ms, normal_members d fs = Some ms -> members_canonical d ms) /\
  (forall l ws rest, read_elements f l = Some (ws, rest) -> forall d vs,
     mapM (normal_value d) ws = Some vs -> Forall (canonical_at d) vs).
Proof.
  induction f as [|f (IHv & IHm & IHe)]; [split_and!; done|].
  split_and!; intros; [by eapply value_canonical|by eapply members_step|by eapply elements_step].
Qed.

Lemma canonical_printable d : forall v, canonical_at d v -> printable_at d v.
Proof.
  induction d as [|d IH]; [done|]. intros v Hv. destruct v as [|b|z|s|l|fs|text]; cbn [canonical_at printable_at] in *; try done.
  - eapply Forall_impl; [exact Hv|]. auto.
  - destruct Hv as (Hf & _). eapply Forall_impl; [exact Hf|]. naive_solver.
Qed.
Lemma normal_printed d : forall v, canonical_at d v -> normal_value d (to_jvalue v) = Some v.
Proof.
  induction d as [|d IH]; [done|]. intros v Hv. destruct v as [|b|z|s|l|fs|text]; cbn [canonical_at to_jvalue normal_value] in *; try done.
  - by rewrite normal_int.
  - assert (mapM (normal_value d) (map to_jvalue l) = Some l) as ->; [|done].
    induction Hv as [|x l Hx _ IHl]; [done|]. cbn. by rewrite IH, IHl.
  - destruct Hv as (Hf & Hn & Hs).
    assert ((map (fun kv : string * json => (kv.1, to_jvalue kv.2)) fs).*1 = fs.*1) as Hk by (clear; induction fs as [|x fs IH]; cbn; congruence).
    unfold duplicate_free. rewrite Hk, bool_decide_eq_true_2 by done. cbn [negb].
    assert (mapM (fun kv => v ← normal_value d kv.2; Some (kv.1, v)) (map (fun kv => (kv.1, to_jvalue kv.2)) fs) = Some fs) as ->.
    { clear Hn Hs Hk. induction Hf as [|[k x] fs [_ Hx] _ IHf]; [done|]. cbn in *. by rewrite IH, IHf. }
    cbn [mbind option_bind]. by rewrite sort_sorted.
Qed.

(** ** What a document says

    A reading of documents that does not go through the normal form. A number
    is a sign, digits, maybe a fraction and maybe an exponent, and stands for
    its digits, read as one number, times a power of ten. *)
Fixpoint digits_value (l : list ascii) : Z :=
  match l with c :: l' => (byte_val c - 48) * 10 ^ Z.of_nat (length l') + digits_value l' | [] => 0 end.
Definition digits_some (l : list ascii) : Prop := digit_text l /\ l <> [].
Inductive fraction_text : list ascii -> list ascii -> Prop :=
  | fraction_none : fraction_text [] []
  | fraction_some point fp : byte_val point = 46 -> digits_some fp -> fraction_text (point :: fp) fp.
Inductive exponent_text : list ascii -> Z -> Prop :=
  | exponent_none : exponent_text [] 0
  | exponent_plain mark ds : byte_val mark = 101 \/ byte_val mark = 69 -> digits_some ds ->
      exponent_text (mark :: ds) (digits_value ds)
  | exponent_plus mark plus ds : byte_val mark = 101 \/ byte_val mark = 69 -> byte_val plus = 43 -> digits_some ds ->
      exponent_text (mark :: plus :: ds) (digits_value ds)
  | exponent_minus mark minus ds : byte_val mark = 101 \/ byte_val mark = 69 -> byte_val minus = 45 -> digits_some ds ->
      exponent_text (mark :: minus :: ds) (- digits_value ds).
(** [json_number t m k]: the text [t] stands for [m * 10 ^ k]. *)
Inductive json_number : list ascii -> Z -> Z -> Prop :=
  | number_positive ip frac fp ex e : digits_some ip -> fraction_text frac fp -> exponent_text ex e ->
      json_number (ip ++ frac ++ ex) (digits_value (ip ++ fp)) (e - Z.of_nat (length fp))
  | number_negative minus ip frac fp ex e : byte_val minus = 45 -> digits_some ip -> fraction_text frac fp -> exponent_text ex e ->
      json_number (minus :: ip ++ frac ++ ex) (- digits_value (ip ++ fp)) (e - Z.of_nat (length fp)).

(** Two documents say the same if they differ only in how their numbers are
    written and in the order of the members of their objects. *)
Inductive same_doc : jvalue -> jvalue -> Prop :=
  | same_null : same_doc VNull VNull
  | same_bool b : same_doc (VBool b) (VBool b)
  | same_string s : same_doc (VStr s) (VStr s)
  | same_number t t' m k m' k' : json_number t m k -> json_number t' m' k' ->
      m * 10 ^ (k - Z.min k k') = m' * 10 ^ (k' - Z.min k k') -> same_doc (VNum t) (VNum t')
  | same_array l l' : Forall2 same_doc l l' -> same_doc (VArr l) (VArr l')
  | same_object f f' g : g ≡ₚ f' -> Forall2 (fun a b => a.1 = b.1 /\ same_doc a.2 b.2) f g -> same_doc (VObj f) (VObj f').

(** *** Numbers are in the grammar *)
Lemma skip_digits_split l : exists ds, digit_text ds /\ l = ds ++ skip_digits l.
Proof.
  induction l as [|c l (ds & Hd & E)]; [exists []; split; [constructor|done]|]. cbn.
  destruct (is_digit (byte_val c)) eqn:Ec; [|exists []; split; [constructor|done]].
  exists (c :: ds). split; [by constructor|]. cbn. by rewrite <- E.
Qed.
Lemma digits1_split l rest : digits1 l = Some rest -> exists ds, digits_some ds /\ l = ds ++ rest.
Proof.
  destruct l as [|c l]; [done|]. cbn. destruct (is_digit (byte_val c)) eqn:Ec; [|done]. intros [= <-].
  destruct (skip_digits_split l) as (ds & Hd & E). exists (c :: ds). split; [split; [by constructor|done]|]. cbn. by rewrite <- E.
Qed.
Lemma scan_exponent_split l rest : scan_exponent l = Some rest -> exists ex e, exponent_text ex e /\ l = ex ++ rest.
Proof.
  destruct l as [|c l]; cbn; [intros [= <-]; exists [], 0; split; [constructor|done]|].
  destruct ((byte_val c =? 101) || (byte_val c =? 69)) eqn:Ec; [|intros [= <-]; exists [], 0; split; [constructor|done]].
  assert (byte_val c = 101 \/ byte_val c = 69) as Hc by lia. destruct l as [|s l]; [done|].
  destruct ((byte_val s =? 43) || (byte_val s =? 45)) eqn:Es; intros (ds & Hd & E)%digits1_split.
  - assert (byte_val s = 43 \/ byte_val s = 45) as [Hs|Hs] by lia.
    + exists (c :: s :: ds), (digits_value ds). split; [by apply exponent_plus|]. by rewrite E.
    + exists (c :: s :: ds), (- digits_value ds). split; [by apply exponent_minus|]. by rewrite E.
  - exists (c :: ds), (digits_value ds). split; [by apply exponent_plain|]. by rewrite E.
Qed.
Lemma scan_fraction_split l rest :
  scan_fraction l = Some rest -> exists frac fp ex e, fraction_text frac fp /\ exponent_text ex e /\ l = frac ++ ex ++ rest.
Proof.
  destruct l as [|c l]; cbn [scan_fraction]; [intros [= <-]; exists [], [], [], 0; split_and!; constructor|].
  destruct (Z.eqb_spec (byte_val c) 46) as [Ec|Ec].
  - intros (l2 & (ds & Hd & ->)%digits1_split & (ex & e & He & ->)%scan_exponent_split)%bind_Some.
    exists (c :: ds), ds, ex, e. split_and!; [by constructor|done|done].
  - intros (ex & e & He & ->)%scan_exponent_split. exists [], [], ex, e. split_and!; [constructor|done|done].
Qed.
Lemma scan_unsigned_split l rest :
  scan_unsigned l = Some rest -> exists ip frac fp ex e,
    digits_some ip /\ fraction_text frac fp /\ exponent_text ex e /\ l = (ip ++ frac ++ ex) ++ rest.
Proof.
  destruct l as [|c l]; cbn [scan_unsigned]; [done|]. intros H.
  assert (exists ds, digit_text ds /\ is_digit (byte_val c) = true /\ exists l1, l = ds ++ l1 /\ scan_fraction l1 = Some rest)
    as (ds & Hd & Hc & l1 & -> & (frac & fp & ex & e & Hf & He & ->)%scan_fraction_split).
  { destruct (Z.eqb_spec (byte_val c) 48) as [E|_]; [exists []; split_and!; [constructor|by rewrite E|eauto]|].
    destruct (is_digit (byte_val c)); [|done]. destruct (skip_digits_split l) as (ds & Hd & E). exists ds. split_and!; eauto. }
  exists (c :: ds), frac, fp, ex, e. split_and!; try done; [split; [by constructor|done]|]. cbn. by rewrite <- !app_assoc.
Qed.
Lemma read_number_grammar l t rest : read_number l = Some (VNum t, rest) -> exists m k, json_number t m k.
Proof.
  unfold read_number. intros (rest' & HS & [= <- <-])%bind_Some.
  assert (exists t m k, json_number t m k /\ l = t ++ rest') as (t & m & k & Hn & ->).
  { destruct l as [|c l]; [done|]. cbn [scan_number] in HS. destruct (Z.eqb_spec (byte_val c) 45) as [Hc|Hc];
      apply scan_unsigned_split in HS as (ip & frac & fp & ex & e & Hi & Hf & He & E).
    - exists (c :: ip ++ frac ++ ex), (- digits_value (ip ++ fp)), (e - Z.of_nat (length fp)). split; [by constructor|]. by rewrite E.
    - exists (ip ++ frac ++ ex), (digits_value (ip ++ fp)), (e - Z.of_nat (length fp)). split; [by constructor|done]. }
  exists m, k. rewrite length_app. replace (length t + length rest' - length rest')%nat with (length t) by lia. by rewrite take_app_length.
Qed.

(** *** The code takes a number apart as the grammar does *)
Lemma read_digits_value l : digit_text l -> forall acc, read_digits acc l = Some (acc * 10 ^ Z.of_nat (length l) + digits_value l).
Proof.
  induction 1 as [|c l Hc _ IH]; intros acc; cbn [read_digits length digits_value]; [f_equal; lia|].
  rewrite Hc, IH. f_equal. rewrite Nat2Z.inj_succ, Z.pow_succ_r by lia. lia.
Qed.
Definition starts_no_digit (l : list ascii) : Prop := match l with c :: _ => is_digit (byte_val c) = false | [] => True end.
Lemma span_digits_text ds l : digit_text ds -> starts_no_digit l -> span_digits (ds ++ l) = (ds, l).
Proof.
  intros Hd Hl. induction Hd as [|c ds Hc _ IH]; cbn [app span_digits].
  - destruct l as [|c l]; [done|]. cbn in *. by rewrite Hl.
  - by rewrite Hc, IH.
Qed.
Lemma exponent_read ex e : exponent_text ex e -> starts_no_digit ex /\ read_exponent ex = Some e /\
  match ex with c :: _ => byte_val c <> 46 | [] => True end.
Proof.
  destruct 1 as [|mark ds Hm [Hd Hn]|mark s ds Hm Hs [Hd Hn]|mark s ds Hm Hs [Hd Hn]]; [done|..];
    (split_and!; [cbn; unfold is_digit, between; destruct Hm as [-> | ->]; done| |lia]);
    pose proof (read_digits_value ds Hd 0) as Hr; rewrite Z.mul_0_l, Z.add_0_l in Hr.
  - cbn. destruct ds as [|c ds]; [done|]. apply Forall_cons in Hd as [Hc _]. unfold signed, is_digit, between in *.
    destruct (Z.eqb_spec (byte_val c) 45); [lia|]. destruct (Z.eqb_spec (byte_val c) 43); [lia|]. by rewrite Hr.
  - cbn. rewrite Hs. cbn. by rewrite Hr.
  - cbn. rewrite Hs. cbn. by rewrite Hr.
Qed.
Lemma unsigned_parts ip frac fp ex e :
  digits_some ip -> fraction_text frac fp -> exponent_text ex e ->
  (let '(ip, t) := span_digits (ip ++ frac ++ ex) in
   let '(fp, t) := match t with
                   | c :: t' => if byte_val c =? 46 then span_digits t' else ([], t)
                   | [] => ([], [])
                   end in
   m ← read_digits 0 (ip ++ fp); e ← read_exponent t; Some (m, Z.of_nat (length fp), e))
  = Some (digits_value (ip ++ fp), Z.of_nat (length fp), e).
Proof.
  intros [Hi _] Hf (Hnd & Hre & Hpt)%exponent_read.
  assert (digit_text fp /\ starts_no_digit (frac ++ ex)) as [Hfp Hns].
  { destruct Hf as [|point fp Hp [Hd _]]; [by split; [constructor|]|]. split; [done|]. cbn. by rewrite Hp. }
  rewrite span_digits_text by done.
  assert (match frac ++ ex with c :: t' => if byte_val c =? 46 then span_digits t' else ([], frac ++ ex) | [] => ([], []) end = (fp, ex)) as ->.
  { destruct Hf as [|point fp Hp [Hd _]]; cbn [app].
    - destruct ex as [|c ex]; [done|]. by rewrite (proj2 (Z.eqb_neq _ _) Hpt).
    - rewrite Hp. cbn. by rewrite span_digits_text. }
  rewrite read_digits_value by (by apply Forall_app). cbn [mbind option_bind]. rewrite Hre. cbn. by rewrite Z.mul_0_l, Z.add_0_l.
Qed.
Lemma number_parts_spec t m k : json_number t m k -> exists fr e, number_parts t = Some (m, fr, e) /\ k = e - fr.
Proof.
  destruct 1 as [ip frac fp ex e Hi Hf He|minus ip frac fp ex e Hm Hi Hf He]; pose proof (unsigned_parts _ _ _ _ _ Hi Hf He) as HU;
    exists (Z.of_nat (length fp)), e; (split; [|done]); unfold number_parts.
  - assert (signed (ip ++ frac ++ ex) = (false, ip ++ frac ++ ex)) as ->.
    { destruct Hi as [Hd Hn]. destruct ip as [|c ip]; [done|]. apply Forall_cons in Hd as [Hc _]. cbn. unfold is_digit, between in Hc.
      destruct (Z.eqb_spec (byte_val c) 45); [lia|]. by destruct (Z.eqb_spec (byte_val c) 43); [lia|]. }
    exact HU.
  - cbn [signed]. rewrite Hm. cbn [Z.eqb Pos.eqb]. revert HU. destruct (span_digits _) as [a b]. destruct (match b with [] => _ | _ => _ end) as [c d].
    intros (m & Hr & (x & Hx & [= -> -> ->])%bind_Some)%bind_Some. by rewrite Hr, Hx.
Qed.

(** The integer kept for a number is what the number stands for. *)
Lemma normal_number_worth t x m k b :
  normal_number t = Some x -> json_number t m k -> b <= k -> b <= 0 -> m * 10 ^ (k - b) = x * 10 ^ (- b).
Proof.
  intros HN (fr & e & HP & ->)%number_parts_spec Hk H0. revert HN. unfold normal_number. destruct (_ <? _); [done|]. rewrite HP.
  cbn [mbind option_bind]. destruct (negb _); [done|]. cbv zeta. set (k := e - fr) in *. clearbody k.
  intros (y & Hy & Hx)%bind_Some. destruct (between _ _ y); [|done]. injection Hx as ->.
  destruct (Z.leb_spec 0 k) as [Hk0|Hk0].
  - injection Hy as <-. rewrite <- Z.mul_assoc, <- Z.pow_add_r by lia. do 2 f_equal; lia.
  - destruct (Z.eqb_spec (m `mod` 10 ^ (- k)) 0) as [Em|Em]; [|done]. injection Hy as <-.
    assert (0 < 10 ^ (- k)) by (apply Z.pow_pos_nonneg; lia).
    rewrite (Z.div_mod m (10 ^ (- k))) at 1 by lia. rewrite Em, Z.add_0_r, (Z.mul_comm (10 ^ (- k))), <- Z.mul_assoc, <- Z.pow_add_r by lia.
    do 2 f_equal; lia.
Qed.
Lemma normal_number_same t t' x x' :
  (exists m k, json_number t m k) -> (exists m k, json_number t' m k) ->
  normal_number t = Some x -> normal_number t' = Some x' -> x = x' <-> same_doc (VNum t) (VNum t').
Proof.
  assert (forall m k m' k', json_number t m k -> json_number t' m' k' -> normal_number t = Some x -> normal_number t' = Some x' ->
    x = x' <-> m * 10 ^ (k - Z.min k k') = m' * 10 ^ (k' - Z.min k k')) as HS.
  { intros m k m' k' Hn Hn' Hx Hx'. set (c := Z.min k k'). set (b := Z.min c 0).
    pose proof (normal_number_worth t x m k b Hx Hn ltac:(lia) ltac:(lia)) as E.
    pose proof (normal_number_worth t' x' m' k' b Hx' Hn' ltac:(lia) ltac:(lia)) as E'.
    assert (0 < 10 ^ (- b)) by (apply Z.pow_pos_nonneg; lia). assert (0 < 10 ^ (c - b)) by (apply Z.pow_pos_nonneg; lia).
    assert (10 ^ (k - b) = 10 ^ (k - c) * 10 ^ (c - b)) as E1 by (rewrite <- Z.pow_add_r by lia; f_equal; lia).
    assert (10 ^ (k' - b) = 10 ^ (k' - c) * 10 ^ (c - b)) as E2 by (rewrite <- Z.pow_add_r by lia; f_equal; lia).
    rewrite E1, Z.mul_assoc in E. rewrite E2, Z.mul_assoc in E'. split.
    - intros ->. apply (Z.mul_cancel_r _ _ (10 ^ (c - b))); [lia|congruence].
    - intros Em. rewrite Em in E. apply (Z.mul_cancel_r _ _ (10 ^ (- b))); [lia|congruence]. }
  intros (m & k & Hn) (m' & k' & Hn') Hx Hx'. split.
  - intros E. eapply same_number; [exact Hn|exact Hn'|]. by apply (HS m k m' k').
  - inversion 1; subst. by eapply HS.
Qed.

(** *** Documents *)
Fixpoint numbers_at (d : nat) (v : jvalue) : Prop :=
  match d with
  | O => True
  | S d =>
      match v with
      | VNum t => exists m k, json_number t m k
      | VArr l => Forall (numbers_at d) l
      | VObj fields => Forall (fun kv => numbers_at d kv.2) fields
      | _ => True
      end
  end.
Lemma value_numbers f l w rest d :
  (forall l fs rest, read_members f l = Some (fs, rest) -> forall d, Forall (fun kv => numbers_at d kv.2) fs) ->
  (forall l ws rest, read_elements f l = Some (ws, rest) -> forall d, Forall (numbers_at d) ws) ->
  read_value (S f) l = Some (w, rest) -> numbers_at d w.
Proof.
  intros IHm IHe. destruct d as [|d]; [done|]. cbn [read_value]. destruct (skip_ws l) as [|c r]; [done|]. cbv zeta.
  destruct (byte_val c =? 123).
  { destruct (skip_ws r) as [|c' r']; [done|]. destruct (byte_val c' =? 125); [intros [= <- _]; constructor|].
    intros ([fs r1] & E & [= <- _])%bind_Some. by eapply IHm. }
  destruct (byte_val c =? 91).
  { destruct (skip_ws r) as [|c' r']; [done|]. destruct (byte_val c' =? 93); [intros [= <- _]; constructor|].
    intros ([ws r1] & E & [= <- _])%bind_Some. by eapply IHe. }
  destruct (byte_val c =? 34); [by intros ([s r1] & _ & [= <- _])%bind_Some|].
  do 3 (destruct (_ =? _); [by intros (r1 & _ & [= <- _])%bind_Some|]).
  intros H. pose proof H as (r1 & _ & [= <- _])%bind_Some. by eapply read_number_grammar.
Qed.
Lemma read_numbers f :
  (forall l w rest, read_value f l = Some (w, rest) -> forall d, numbers_at d w) /\
  (forall l fs rest, read_members f l = Some (fs, rest) -> forall d, Forall (fun kv => numbers_at d kv.2) fs) /\
  (forall l ws rest, read_elements f l = Some (ws, rest) -> forall d, Forall (numbers_at d) ws).
Proof.
  induction f as [|f (IHv & IHm & IHe)]; [split_and!; done|]. split_and!; [intros; by eapply value_numbers|..].
  - intros l fs rest. cbn [read_members]. destruct (skip_ws l) as [|c r]; [done|]. destruct (byte_val c =? 34); [|done].
    intros ([key r1] & _ & H)%bind_Some d. destruct (skip_ws r1) as [|c1 r2]; [done|]. destruct (byte_val c1 =? 58); [|done].
    apply bind_Some in H as ([w r3] & Hw & H). destruct (skip_ws r3) as [|c2 r4]; [done|]. destruct (byte_val c2 =? 44).
    + apply bind_Some in H as ([fs' r5] & Hf & [= <- _]). constructor; [by eapply IHv|by eapply IHm].
    + destruct (byte_val c2 =? 125); [|done]. injection H as <- _. constructor; [by eapply IHv|constructor].
  - intros l ws rest. cbn [read_elements]. intros ([w r] & Hw & H)%bind_Some d. destruct (skip_ws r) as [|c r1]; [done|].
    destruct (byte_val c =? 44).
    + apply bind_Some in H as ([ws' r2] & Hf & [= <- _]). constructor; [by eapply IHv|by eapply IHe].
    + destruct (byte_val c =? 93); [|done]. injection H as <- _. constructor; [by eapply IHv|constructor].
Qed.

Lemma normal_shape d v j :
  normal_value (S d) v = Some j ->
  match v with
  | VNull => j = JNull
  | VBool b => j = JBool b
  | VStr s => j = JStr s
  | VNum t => exists x, normal_number t = Some x /\ j = JInt x
  | VArr l => exists js, Forall2 (fun v j => normal_value d v = Some j) l js /\ j = JArr js
  | VObj fields => NoDup fields.*1 /\ exists ms, ms.*1 = fields.*1 /\ j = JObj (merge_sort field_le ms) /\
      Forall2 (fun kv m => kv.1 = m.1 /\ normal_value d kv.2 = Some m.2) fields ms
  end.
Proof.
  destruct v as [|b|t|s|l|fs]; cbn [normal_value]; try (by intros [= <-]).
  - intros (x & Hx & ->)%fmap_Some. eauto.
  - intros (js & Hj & ->)%fmap_Some. apply mapM_Some_1 in Hj. eauto.
  - destruct (duplicate_free fs) eqn:E; [|done]. apply bool_decide_eq_true_1 in E. cbn [negb].
    intros (ms & Hm & [= <-])%bind_Some. split; [done|]. exists ms. split; [by eapply mapM_keys|]. split; [done|].
    apply mapM_Some_1 in Hm. eapply Forall2_impl; [exact Hm|]. intros [key v] m (j & Hj & [= <-])%bind_Some. done.
Qed.

(** Element by element. *)
Lemma pairwise {A B} (P : A -> B -> Prop) (Q : A -> A -> Prop) l l' js js' :
  Forall2 P l js -> Forall2 P l' js' ->
  (forall x x' y y', x ∈ l -> x' ∈ l' -> P x y -> P x' y' -> y = y' <-> Q x x') -> js = js' <-> Forall2 Q l l'.
Proof.
  intros H. revert l' js'. induction H as [|x y l js Hxy _ IH]; intros l' js' H' HQ.
  - destruct H'; [by split; [constructor|]|]. split; [done|inversion 1].
  - destruct H' as [|x' y' l' js' Hxy' H']; [split; [done|inversion 1]|].
    specialize (IH l' js' H' (fun a a' b b' Ha Ha' => HQ a a' b b' (list_elem_of_further _ _ _ Ha) (list_elem_of_further _ _ _ Ha'))).
    pose proof (HQ x x' y y' (list_elem_of_here _ _) (list_elem_of_here _ _) Hxy Hxy') as HQ0. split.
    + intros [= -> ->]. constructor; [by apply HQ0|by apply IH].
    + inversion 1; subst. f_equal; [by apply HQ0|by apply IH].
Qed.

Section Members.
Context (d : nat) (IH : forall v v' j j', numbers_at d v -> numbers_at d v' -> normal_value d v = Some j -> normal_value d v' = Some j' ->
  j = j' <-> same_doc v v').
Definition member_normal (kv : string * jvalue) (m : string * json) : Prop := kv.1 = m.1 /\ normal_value d kv.2 = Some m.2.
Definition member_same (a b : string * jvalue) : Prop := a.1 = b.1 /\ same_doc a.2 b.2.
Lemma members_same f g ms ms' :
  Forall (fun kv => numbers_at d kv.2) f -> Forall (fun kv => numbers_at d kv.2) g ->
  Forall2 member_normal f ms -> Forall2 member_normal g ms' -> ms = ms' <-> Forall2 member_same f g.
Proof.
  intros Hf Hg Hm Hm'. apply (pairwise member_normal _ _ _ _ _ Hm Hm'). intros [k v] [k' v'] [k2 j] [k2' j'] Hin Hin' [E Hj] [E' Hj'].
  unfold member_same. cbn in *. subst. rewrite Forall_forall in Hf, Hg. rewrite <- (IH v v' j j' (Hf _ Hin) (Hg _ Hin') Hj Hj').
  split; [by intros [= -> ->]|by intros [-> ->]].
Qed.
Lemma objects_same f f' ms ms' :
  Forall (fun kv => numbers_at d kv.2) f -> Forall (fun kv => numbers_at d kv.2) f' -> NoDup ms'.*1 ->
  Forall2 member_normal f ms -> Forall2 member_normal f' ms' ->
  merge_sort field_le ms = merge_sort field_le ms' <-> exists g, g ≡ₚ f' /\ Forall2 member_same f g.
Proof.
  intros Hf Hf' Hn Hm Hm'. split.
  - intros E. assert (ms' ≡ₚ ms) as Hp by (rewrite <- (merge_sort_Permutation field_le ms), E; symmetry; apply merge_sort_Permutation).
    destruct (Permutation_Forall2 Hp (proj2 (Forall2_flip _ _ _) Hm')) as (g & Hg & Hmg%Forall2_flip). exists g. split; [done|].
    apply (members_same f g ms ms); try done. by rewrite <- Hg.
  - intros (g & Hg & Hs). destruct (Permutation_Forall2 (Permutation_sym Hg) Hm') as (ms2 & Hp & Hm2).
    apply sort_permuted; [done|]. rewrite Hp. apply (members_same f g ms ms2) in Hs; try done; [by rewrite Hs|by rewrite Hg].
Qed.
End Members.

Lemma normal_same d : forall v v' j j',
  numbers_at d v -> numbers_at d v' -> normal_value d v = Some j -> normal_value d v' = Some j' -> j = j' <-> same_doc v v'.
Proof.
  induction d as [|d IH]; [done|]. intros v v' j j' Hn Hn' Hj%normal_shape Hj'%normal_shape.
  destruct v as [|b|t|s|l|fs], v' as [|b'|t'|s'|l'|fs']; cbn in Hn, Hn';
    try solve [split; [intros <-; naive_solver congruence|inversion 1]].
  - subst. split; [constructor|done].
  - subst. split; [intros [= ->]; constructor|by inversion 1].
  - destruct Hj as (x & Hx & ->), Hj' as (x' & Hx' & ->). rewrite <- (normal_number_same t t' x x') by done. split; [by intros [= ->]|by intros ->].
  - subst. split; [intros [= ->]; constructor|by inversion 1].
  - destruct Hj as (js & Hs & ->), Hj' as (js' & Hs' & ->). rewrite Forall_forall in Hn, Hn'.
    pose proof (pairwise _ same_doc l l' js js' Hs Hs' (fun x x' y y' Hi Hi' => IH x x' y y' (Hn x Hi) (Hn' x' Hi'))) as HP. split.
    + intros [= E]. constructor. by apply HP.
    + inversion 1; subst. f_equal. by apply HP.
  - destruct Hj as (Hd & ms & Hk & -> & Hs), Hj' as (Hd' & ms' & Hk' & -> & Hs').
    pose proof (objects_same d IH fs fs' ms ms' Hn Hn' ltac:(by rewrite Hk') Hs Hs') as HO. split.
    + intros [= E]. apply HO in E as (g & Hg & HF). by eapply same_object.
    + inversion 1; subst. f_equal. apply HO. eauto.
Qed.


(** ** Requests *)
Lemma Marshal_read v : canonical_at max_depth v -> ReadDocument (Marshal v) ≫= normal_value max_depth = Some v.
Proof.
  intros Hv. unfold ReadDocument, Marshal. cbv zeta. rewrite bytes_of_string_of. rewrite <- (app_nil_r (json_bytes true v)) at 2.
  rewrite (read_printed _ v (canonical_printable _ _ Hv)) by (done || lia). cbn [mbind option_bind skip_ws]. rewrite bool_decide_eq_true_2 by done.
  cbn [mbind option_bind]. by apply normal_printed.
Qed.
Lemma Marshal_unicode v : canonical_at max_depth v -> validUnicode (Marshal v) = true.
Proof.
  intros Hv. destruct (clean_printed _ v (canonical_printable _ _ Hv)) as [Hu Hp]. unfold validUnicode, Marshal. cbv zeta. rewrite bytes_of_string_of.
  apply andb_true_iff. split; [exact Hu|]. specialize (Hp []). by rewrite app_nil_r in Hp.
Qed.
Lemma canonicalJSON_value raw b v :
  canonicalJSON raw = Ok (b, v) -> canonical_at max_depth v /\ b = Marshal v /\ len b <= MaxRequestBytes /\ exists fields, v = JObj fields.
Proof.
  unfold canonicalJSON. destruct (_ || _); [done|]. destruct (ReadDocument raw ≫= _) as [w|] eqn:E; [|done].
  apply bind_Some in E as (x & Hx & Hn). unfold ReadDocument in Hx. cbv zeta in Hx. apply bind_Some in Hx as ([y rest] & Hy & Hx).
  destruct (bool_decide _); [|done]. injection Hx as ->.
  pose proof (proj1 (read_canonical _) _ _ _ Hy _ _ Hn) as Hc.
  destruct w as [| | | | |fields|]; try done. cbv zeta. destruct (Z.ltb_spec MaxRequestBytes (len (Marshal (JObj fields)))); [done|].
  intros [= <- <-]. split_and!; eauto.
Qed.
Lemma canonicalJSON_fixed raw b v : canonicalJSON raw = Ok (b, v) -> canonicalJSON b = Ok (b, v).
Proof.
  intros (Hc & -> & Hl & fields & ->)%canonicalJSON_value. unfold canonicalJSON.
  rewrite (Marshal_unicode _ Hc), (Marshal_read _ Hc). cbv zeta.
  rewrite (proj2 (Z.ltb_ge MaxRequestBytes _)) by lia. cbn [negb]. rewrite !orb_false_r.
  destruct (Z.eqb_spec (len (Marshal (JObj fields))) 0) as [E|E]; [|done]. by apply len_zero in E.
Qed.

(** An accepted document is one that was read, and its value is what the
    normal form makes of it. *)
Lemma canonicalJSON_read raw b v :
  canonicalJSON raw = Ok (b, v) ->
  exists doc, ReadDocument raw = Some doc /\ numbers_at max_depth doc /\ normal_value max_depth doc = Some v.
Proof.
  unfold canonicalJSON. destruct (_ || _); [done|]. destruct (ReadDocument raw ≫= _) as [w|] eqn:E; [|done].
  apply bind_Some in E as (doc & Hd & Hn). intros HC. exists doc.
  assert (w = v) as ->. { destruct w; try done. cbv zeta in HC. destruct (_ <? _) in HC; [done|]. by injection HC. }
  split_and!; try done. unfold ReadDocument in Hd. cbv zeta in Hd. apply bind_Some in Hd as ([y rest] & Hy & Hd).
  destruct (bool_decide _); [|done]. injection Hd as <-. by eapply (proj1 (read_numbers _)).
Qed.
Lemma canonicalJSON_same raw b v raw' b' v' :
  canonicalJSON raw = Ok (b, v) -> canonicalJSON raw' = Ok (b', v') ->
  (b' = b <-> v' = v) /\ exists doc doc', ReadDocument raw = Some doc /\ ReadDocument raw' = Some doc' /\ (v = v' <-> same_doc doc doc').
Proof.
  intros E E'. split.
  - split; [intros ->; apply canonicalJSON_fixed in E, E'; congruence|].
    intros ->. apply canonicalJSON_value in E as (_ & -> & _), E' as (_ & -> & _). done.
  - apply canonicalJSON_read in E as (doc & Hd & Hn & Hv), E' as (doc' & Hd' & Hn' & Hv'). exists doc, doc'. split_and!; try done.
    by apply (normal_same max_depth).
Qed.

(** C29: the canonical bytes of an accepted request are themselves accepted
    and give the same request. And two documents have the same canonical
    bytes, and so the same digest and the same request, exactly when they say
    the same: when the values they are read to differ at most in how their
    numbers are written and in the order of the members of their objects
    (white space and escapes are gone once a document is read). What a number
    says is its decimal value, by the grammar of sign, digits, fraction and
    exponent, and not what the normal form makes of it. *)
Theorem Parse_fixed schema raw r :
  Parse schema raw = Ok r ->
  Parse schema (rq_canonical r) = Ok r /\
  exists doc, ReadDocument raw = Some doc /\
    forall raw' b' v', canonicalJSON raw' = Ok (b', v') ->
      exists doc', ReadDocument raw' = Some doc' /\
        (b' = rq_canonical r <-> same_doc doc doc') /\ (Parse schema raw' = Ok r <-> same_doc doc doc').
Proof.
  unfold Parse. destruct (canonicalJSON raw) as [[b v]|] eqn:E; [|done]. cbn [result_bind].
  destruct (negb (schema v)) eqn:Es; [done|]. destruct (ReadDocument b ≫= dec_spec) as [spec|] eqn:Ed; [|done].
  destruct (semantic spec) eqn:Em; [done|]. intros [= <-]. cbn [rq_canonical]. pose proof (canonicalJSON_fixed _ _ _ E) as HF.
  split; [by rewrite HF; cbn [result_bind]; rewrite Es, Ed, Em|].
  destruct (canonicalJSON_read _ _ _ E) as (doc & Hd & _). exists doc. split; [done|]. intros raw' b' v' E'.
  destruct (canonicalJSON_same _ _ _ _ _ _ E E') as (Hb & doc0 & doc' & Hd0 & Hd' & Hs). rewrite Hd in Hd0. injection Hd0 as <-.
  assert (b' = b <-> same_doc doc doc') as HB by (rewrite Hb, <- Hs; split; congruence). exists doc'. split_and!; try done.
  rewrite E', <- HB. cbn [result_bind]. split.
  - destruct (negb (schema v')); [done|]. destruct (ReadDocument b' ≫= dec_spec) as [spec'|]; [|done]. destruct (semantic spec'); [done|].
    intros H%(f_equal (fun r => match r with Ok r => rq_canonical r | Err _ => "" end)). exact H.
  - intros ->. rewrite (proj1 Hb eq_refl), Es, Ed, Em. reflexivity.
Qed.

Definition loose_request : string :=
  " { " +:+ quoted "timeouts" +:+ ": {" +:+ quoted "remote_wall_seconds" +:+ ":6.0e2}, " +:+ quoted "name" +:+ " : " +:+ quoted "x\u0041" +:+ "}".
Definition tight_request : string :=
  "{" +:+ quoted "name" +:+ ":" +:+ quoted "xA" +:+ "," +:+ quoted "timeouts" +:+ ":{" +:+ quoted "remote_wall_seconds" +:+ ":600}}".
Definition any_schema (v : json) : bool := true.
Definition sample_request : Request := Eval vm_compute in
  match Parse any_schema loose_request with Ok r => r | Err _ => mkRequest "" "" end.
Definition other_request : string :=
  "{" +:+ quoted "name" +:+ ":" +:+ quoted "xA" +:+ "," +:+ quoted "timeouts" +:+ ":{" +:+ quoted "remote_wall_seconds" +:+ ":601}}".
Lemma Parse_fixed_witness :
  rq_canonical sample_request = tight_request /\ Parse any_schema tight_request = Ok sample_request /\
  exists loose tight other, ReadDocument loose_request = Some loose /\ ReadDocument tight_request = Some tight /\
    ReadDocument other_request = Some other /\ same_doc loose tight /\ ~ same_doc loose other.
Proof.
  assert (Parse any_schema loose_request = Ok sample_request) as H by (vm_compute; reflexivity).
  split; [vm_compute; reflexivity|]. destruct (Parse_fixed any_schema loose_request sample_request H) as (HF & loose & Hl & Hs).
  split; [exact HF|].
  destruct (canonicalJSON tight_request) as [[b v]|e] eqn:E; [|vm_compute in E; discriminate E].
  destruct (canonicalJSON other_request) as [[b' v']|e] eqn:E'; [|vm_compute in E'; discriminate E'].
  destruct (Hs tight_request b v E) as (tight & Ht & Hb & _). destruct (Hs other_request b' v' E') as (other & Ho & Hb' & _).
  exists loose, tight, other. split; [exact Hl|]. split; [exact Ht|]. split; [exact Ho|]. split.
  - apply Hb. vm_compute in E. injection E as <- _. vm_compute. reflexivity.
  - intros HS. apply Hb' in HS. vm_compute in E'. injection E' as <- _. vm_compute in HS. discriminate HS.
Defined.
