(* ===== verification/JsonWire.v ===== *)
(** * Bounded JSON objects

    [internal/jsonwire]: the checks a request body passes before it is decoded
    into a struct, so that no ambiguity is dropped silently. *)

From S2P Require Import Prelude GoStrings GoJson JsonRead Canonical Problems.
#[local] Open Scope string_scope.
#[local] Open Scope list_scope.
#[local] Open Scope Z_scope.
#[local] Open Scope bool_scope.

Definition wire_invalid : error := ENew "invalid bounded JSON object".

(** The string holds U+FFFD, which is what malformed text decodes to. *)
Fixpoint has_replacement (l : list ascii) : bool :=
  match l with
  | [] => false
  | _ :: l' => not_nil (strip_prefix (encode_rune RuneError) l) || has_replacement l'
  end.
Definition clean_text (s : string) : bool := negb (has_replacement (bytes_of s)).

(** The recursive [value]: [depth] levels are left. *)
Fixpoint wire_value (depth : nat) (v : jvalue) : bool :=
  match depth with
  | O => false
  | S d =>
      match v with
      | VStr s => clean_text s
      | VArr l => forallb (wire_value d) l
      | VObj fields => duplicate_free fields && forallb (fun kv => clean_text kv.1 && wire_value d kv.2) fields
      | _ => true
      end
  end.
(** The number of values, which [tokens] counts. *)
Fixpoint count_values (v : jvalue) : Z :=
  match v with
  | VArr l => 1 + fold_right (fun v n => count_values v + n) 0 l
  | VObj fields => 1 + fold_right (fun kv n => count_values kv.2 + n) 0 fields
  | _ => 1
  end.
Definition wire_depth : nat := 33.
Definition wire_tokens : Z := 100000.

(** The members of the object; their text is only ever compared with [null]. *)
Definition Object (raw : string) (limit : Z) : result error (list (string * jvalue)) :=
  throw (len raw =? 0) || (limit <? len raw) || negb (utf8_valid (String.length raw) (bytes_of raw))
    with wire_invalid ;;
  match ReadDocument raw with
  | Some v =>
      throw negb (wire_value wire_depth v) || (wire_tokens <? count_values v) with wire_invalid ;;
      match v with VObj fields => Ok fields | _ => Err wire_invalid end
  | None => Err wire_invalid
  end.

Definition is_null (v : jvalue) : bool := match v with VNull => true | _ => false end.
Definition Fields (object : list (string * jvalue)) (required optional : list string) : option error :=
  reject existsb (fun key => match member key object with Some v => is_null v | None => true end) required
    with wire_invalid ;;
  reject existsb (fun kv => negb (bool_decide (kv.1 ∈ required ++ optional)) || is_null kv.2) object
    with wire_invalid ;;
  None.
