(* ===== verification/Auth.v ===== *)
(** * Runtime tokens and workspace authorization

    [internal/auth/auth.go]: tokens are stored as digests, every request looks
    the token and the workspace up again, and no scope implies another. The
    repositories are calls; a service that authorizes its callers has calls of
    its own beside them, so the operations are written against the interface
    [AuthCalls]. *)

From S2P Require Import Prelude Effects GoStrings GoTime GoSha256 Identifiers Problems.
#[local] Open Scope string_scope.
#[local] Open Scope list_scope.
#[local] Open Scope Z_scope.
#[local] Open Scope bool_scope.

(** ** Errors of a service

    A Go function returning [(T, error)] that calls its environment. *)
Abbreviation service E A := (prog E (result error A)).
Definition serve_bind {E A B} (k : A -> service E B) (m : service E A) : service E B :=
  prog_bind (fun r => match r with Ok a => k a | Err e => Done (Err e) end) m.
(** [x, err := m; if err != nil { return err }]. *)
Notation "'try' x <- m ;; k" := (serve_bind (fun x => k) m)
  (at level 90, x binder, m at level 99, k at level 200, right associativity) : relay_scope.
Definition fail_with {E A} (e : error) : service E A := Done (Err e).
Definition check_error {E} (m : prog E (option error)) : service E unit :=
  prog_bind (fun e => Done (match e with Some e => Err e | None => Ok tt end)) m.
(** [if c { return err }]. *)
Notation "'refuse' c 'with' e ;; k" := (if c then fail_with e else k)
  (at level 90, c at level 99, e at level 99, k at level 200, right associativity) : relay_scope.

(** ** Sentinels and scopes *)
Definition ErrUnauthenticated : error := ENew "missing or invalid runtime token".
Definition ErrForbidden : error := ENew "workspace action not permitted".
Definition ErrForbidden_text : string := "workspace action not permitted".
Definition access_NotFound : error := ENew "resource not found".
Definition access_NotFound_text : string := "resource not found".
Definition access_Unavailable : error := ENew "authorization repository unavailable".

Inductive Scope := ScopeRead | ScopeWrite | ScopeOperate | ScopeManage | ScopeExecute | ScopeOther (raw : string).
#[export] Instance Scope_eq_dec : EqDecision Scope.
Proof. solve_decision. Defined.
Definition Scope_string (x : Scope) : string :=
  match x with
  | ScopeRead => "read" | ScopeWrite => "write" | ScopeOperate => "operate" | ScopeManage => "manage"
  | ScopeExecute => "execute" | ScopeOther raw => raw
  end.
Definition Scope_values : list Scope := [ScopeRead; ScopeWrite; ScopeOperate; ScopeManage; ScopeExecute].
#[export] Instance Scope_wire : WireEnum Scope.
Proof.
  refine {| wire_name := Scope_string; wire_other := ScopeOther; wire_values := Scope_values |}; wire_enum_tac.
Defined.

Fixpoint scopes_distinct (seen scopes : list Scope) : bool :=
  match scopes with
  | [] => true
  | scope :: rest =>
      if (scope <>? ScopeRead) && (scope <>? ScopeWrite) && (scope <>? ScopeOperate) && (scope <>? ScopeManage)
         && (scope <>? ScopeExecute) || bool_decide (scope ∈ seen)
      then false else scopes_distinct (scope :: seen) rest
  end.
Definition ValidScopes (scopes : list Scope) : bool :=
  if bool_decide (scopes = []) || (5 <? Z.of_nat (length scopes)) then false else scopes_distinct [] scopes.

(** ** Records *)
(** A digest is kept in hexadecimal. *)
Record TokenRecord := mkTokenRecord {
  tr_ID : string; tr_WorkspaceID : string; tr_Digest : string; tr_Scopes : list Scope; tr_CreatedAt : Time;
  tr_ExpiresAt : Time; tr_Revoked : bool }.
Record TokenIssuance := mkTokenIssuance { is_Record : TokenRecord; is_Lifetime : Duration }.
Record Workspace := mkWorkspace { ws_ID : string; ws_Enabled : bool; ws_AllowedProfiles : list string }.
Record Principal := mkPrincipal {
  pr_tokenID : string; pr_workspace : string; pr_digest : string; pr_scopes : list Scope }.
Inductive ResourceKind :=
  | KindJob | KindAttempt | KindObject | KindArtifact | KindEvent | KindLog | KindOperation
  | KindOther (raw : string).
#[export] Instance ResourceKind_eq_dec : EqDecision ResourceKind.
Proof. solve_decision. Defined.
Definition resource_kinds : list ResourceKind :=
  [KindJob; KindAttempt; KindObject; KindArtifact; KindEvent; KindLog; KindOperation].

(** ** Encodings *)
Definition hex_byte (z : Z) : list ascii := [hex_digit (z / 16); hex_digit (z `mod` 16)].
Definition EncodeHex (l : list Z) : string := string_of (flat_map hex_byte l).
(** [base64.RawURLEncoding]: no padding, [-] and [_] for the last two digits. *)
Definition url64_digit (z : Z) : ascii :=
  byte_of (if z <? 26 then 65 + z else if z <? 52 then 71 + z else if z <? 62 then z - 4 else if z =? 62 then 45 else 95).
Definition url64_value (c : ascii) : option Z :=
  let b := byte_val c in
  if is_upper b then Some (b - 65) else if is_lower b then Some (b - 71) else if is_digit b then Some (b + 4)
  else if b =? 45 then Some 62 else if b =? 95 then Some 63 else None.
Fixpoint raw_url64 (l : list Z) : list ascii :=
  match l with
  | a :: b :: c :: rest =>
      url64_digit (a / 4) :: url64_digit (a `mod` 4 * 16 + b / 16) :: url64_digit (b `mod` 16 * 4 + c / 64)
        :: url64_digit (c `mod` 64) :: raw_url64 rest
  | [a; b] => [url64_digit (a / 4); url64_digit (a `mod` 4 * 16 + b / 16); url64_digit (b `mod` 16 * 4)]
  | [a] => [url64_digit (a / 4); url64_digit (a `mod` 4 * 16)]
  | [] => []
  end.
(** [Strict]: the bits after the last byte are zero. *)
Fixpoint raw_url64_decode (l : list ascii) : option (list Z) :=
  match l with
  | c1 :: c2 :: c3 :: c4 :: rest =>
      v1 ← url64_value c1; v2 ← url64_value c2; v3 ← url64_value c3; v4 ← url64_value c4;
      out ← raw_url64_decode rest;
      Some (v1 * 4 + v2 / 16 :: v2 `mod` 16 * 16 + v3 / 4 :: v3 `mod` 4 * 64 + v4 :: out)
  | [c1; c2; c3] =>
      v1 ← url64_value c1; v2 ← url64_value c2; v3 ← url64_value c3;
      if v3 `mod` 4 =? 0 then Some [v1 * 4 + v2 / 16; v2 `mod` 16 * 16 + v3 / 4] else None
  | [c1; c2] =>
      v1 ← url64_value c1; v2 ← url64_value c2; if v2 `mod` 16 =? 0 then Some [v1 * 4 + v2 / 16] else None
  | [_] => None
  | [] => Some []
  end.
(** The decoder passes over line breaks. *)
Definition line_break (c : ascii) : bool := (byte_val c =? 10) || (byte_val c =? 13).
Definition DecodeString (s : list ascii) : option (list Z) :=
  raw_url64_decode (List.filter (fun c => negb (line_break c)) s).

(** ** The repositories *)
Class AuthCalls (E : Type -> Type) := {
  AccessCtxErr : E (option error);
  LookupToken (digest : string) : E (result error TokenRecord);
  LookupWorkspace (id : string) : E (result error Workspace) }.

Section Service.
Context {E : Type -> Type} `{!AuthCalls E}.

Definition enabled (id : string) : prog E (option error) :=
  r ← perform (LookupWorkspace id);
  mret match r with
  | Err e => if errors_Is (Some e) access_NotFound_text then Some ErrForbidden else Some access_Unavailable
  | Ok w => if (ws_ID w <>? id) || negb (ws_Enabled w) then Some ErrForbidden else None
  end.
Definition lookup (digest : string) : service E Principal :=
  try _ <- check_error (perform AccessCtxErr) ;;
  r ← perform (LookupToken digest);
  match r with
  | Err e => if errors_Is (Some e) access_NotFound_text then fail_with ErrUnauthenticated else fail_with access_Unavailable
  | Ok record =>
      refuse (tr_Digest record <>? digest) || tr_Revoked record || negb (ID_Valid (tr_WorkspaceID record))
             || negb (ValidScopes (tr_Scopes record)) || (tr_ID record ==? "") with ErrUnauthenticated ;;
      try _ <- check_error (enabled (tr_WorkspaceID record)) ;;
      Done (Ok (mkPrincipal (tr_ID record) (tr_WorkspaceID record) digest (tr_Scopes record)))
  end.
Definition Authenticate (raw : string) : service E Principal :=
  refuse (negb (len raw =? 47)) || negb (HasPrefix raw "cr1_") with ErrUnauthenticated ;;
  match DecodeString (drop 4 (bytes_of raw)) with
  | None => fail_with ErrUnauthenticated
  | Some decoded =>
      refuse negb (Z.of_nat (length decoded) =? 32) with ErrUnauthenticated ;;
      lookup (sha256_hex raw)
  end.
Definition Revalidate (p : Principal) : service E Principal :=
  refuse (pr_tokenID p ==? "") || negb (ID_Valid (pr_workspace p)) with ErrUnauthenticated ;;
  try fresh <- lookup (pr_digest p) ;;
  refuse (pr_tokenID fresh <>? pr_tokenID p) || (pr_workspace fresh <>? pr_workspace p) with ErrUnauthenticated ;;
  Done (Ok fresh).
Definition auth_Require (p : Principal) (workspace : string) (scope : Scope) : option error :=
  reject pr_tokenID p ==? "" with ErrUnauthenticated ;;
  reject negb (ID_Valid workspace) || (pr_workspace p <>? workspace) with ErrForbidden ;;
  if existsb (fun granted => granted ==? scope) (pr_scopes p) then None else Some ErrForbidden.
(** The helper every service of the program writes for itself. *)
Definition authorize (p : Principal) (w : string) (scope : Scope) : service E Principal :=
  try fresh <- Revalidate p ;;
  match auth_Require fresh w scope with Some err => fail_with err | None => Done (Ok fresh) end.
Definition RequireProfile (p : Principal) (workspace profile : string) : prog E (option error) :=
  match auth_Require p workspace ScopeRead with
  | Some err => Done (Some err)
  | None =>
      r ← perform (LookupWorkspace workspace);
      mret match r with
      | Err _ => Some access_Unavailable
      | Ok w =>
          if (ws_ID w <>? workspace) || negb (ws_Enabled w) then Some ErrForbidden
          else if existsb (fun allowed => (profile <>? "") && (profile ==? allowed)) (ws_AllowedProfiles w)
          then None else Some ErrForbidden
      end
  end.
End Service.

(** ** Administration *)
Class TokenAdmin (E : Type -> Type) := {
  RandomBytes (n : Z) : E (option (list Z));
  CreateToken (issuance : TokenIssuance) : E (result error TokenRecord);
  RevokeToken (id : string) : E (option error) }.
Class Owners (E : Type -> Type) := { Owner (kind : ResourceKind) (id : string) : E (result error string) }.

Section Administration.
Context {E : Type -> Type} `{!AuthCalls E, !TokenAdmin E, !Owners E}.

Definition token_secret (bytes : list Z) : string := "cr1_" +:+ string_of (raw_url64 bytes).
Definition issue (workspace : string) (scopes : list Scope) (expires : Time) (lifetime : Duration) :
    service E (string * TokenRecord) :=
  refuse negb (ID_Valid workspace) || negb (ValidScopes scopes) with ErrForbidden ;;
  try _ <- check_error (enabled workspace) ;;
  secretBytes ← perform (RandomBytes 32);
  match secretBytes with
  | None => fail_with access_Unavailable
  | Some secretBytes =>
      idBytes ← perform (RandomBytes 16);
      match idBytes with
      | None => fail_with access_Unavailable
      | Some idBytes =>
          let secret := token_secret secretBytes in
          let stored := mkTokenRecord ("tok_" +:+ EncodeHex idBytes) workspace (sha256_hex secret) scopes zero_time
                          expires false in
          r ← perform (CreateToken (mkTokenIssuance stored lifetime));
          match r with
          | Err e => if errors_Is (Some e) ErrForbidden_text then fail_with ErrForbidden else fail_with access_Unavailable
          | Ok record => Done (Ok (secret, record))
          end
      end
  end.
Definition Issue (workspace : string) (scopes : list Scope) (expires : Time) : service E (string * TokenRecord) :=
  issue workspace scopes expires 0.
Definition IssueForLifetime (workspace : string) (scopes : list Scope) (lifetime : Duration) :
    service E (string * TokenRecord) :=
  refuse lifetime <=? 0 with ErrForbidden ;; issue workspace scopes zero_time lifetime.
Definition RevokeIssued (tokenID : string) : prog E (option error) :=
  if negb (ID_Valid tokenID) then mret (Some access_NotFound)
  else
    r ← perform (RevokeToken tokenID);
    mret match r with
    | None => None
    | Some e => if errors_Is (Some e) access_NotFound_text then Some access_NotFound else Some access_Unavailable
    end.
Definition RequireResource (p : Principal) (workspace : string) (scope : Scope) (kind : ResourceKind) (id : string)
    (owners : bool) : prog E (option error) :=
  match auth_Require p workspace scope with
  | Some err => Done (Some err)
  | None =>
      if negb (bool_decide (kind ∈ resource_kinds)) then Done (Some access_NotFound)
      else if negb (ID_Valid id) then Done (Some access_NotFound)
      else if negb owners then Done (Some access_Unavailable)
      else
        r ← perform (Owner kind id);
        mret match r with
        | Err e => if errors_Is (Some e) access_NotFound_text then Some access_NotFound else Some access_Unavailable
        | Ok owner => if owner <>? workspace then Some access_NotFound else None
        end
  end.
End Administration.
