(* ===== verification/AuthProps.v ===== *)
(** * What authorization guarantees

    Tokens: the texts that reach a lookup are exactly those that were issued
    for 32 bytes. Requests: a monitor over the answers of the token and
    workspace repositories accepts an action on behalf of a caller only while
    the last answers grant it; [authorize] obtains such a grant in every
    service that observes those calls. *)

From S2P Require Import Prelude Effects GoStrings GoTime GoSha256 Identifiers Problems Auth.
#[local] Open Scope string_scope.
#[local] Open Scope list_scope.
#[local] Open Scope Z_scope.
#[local] Open Scope bool_scope.

(** ** Tokens *)
Definition is_byte (z : Z) : Prop := 0 <= z < 256.
Lemma url64_roundtrip z : 0 <= z < 64 -> url64_value (url64_digit z) = Some z.
Proof.
  intros Hz. assert (forallb (fun z => url64_value (url64_digit z) ==? Some z) (seqZ 0 64) = true) as H by by vm_compute.
  rewrite forallb_forall in H. apply (bool_decide_eq_true_1 _), H, list_elem_of_In, elem_of_seqZ. lia.
Qed.
Lemma url64_value_inv c z : url64_value c = Some z -> 0 <= z < 64 /\ c = url64_digit z.
Proof.
  assert (match url64_value c with Some z => bool_decide (0 <= z < 64 /\ c = url64_digit z) | None => true end = true) as H
    by (destruct c as [[] [] [] [] [] [] [] []]; by vm_compute).
  intros E. rewrite E in H. by apply bool_decide_eq_true in H.
Qed.
Lemma url64_not_break z : 0 <= z < 64 -> line_break (url64_digit z) = false.
Proof.
  intros Hz. assert (forallb (fun z => negb (line_break (url64_digit z))) (seqZ 0 64) = true) as H by by vm_compute.
  rewrite forallb_forall in H. apply negb_true_iff, H, list_elem_of_In, elem_of_seqZ. lia.
Qed.

Ltac lia_div := Z.to_euclidean_division_equations; lia.
Lemma raw_url64_roundtrip (l : list Z) : Forall is_byte l -> raw_url64_decode (raw_url64 l) = Some l.
Proof.
  revert l. fix IH 1. destruct l as [|a [|b [|c l]]]; intros H; repeat (apply Forall_cons in H as [? H]); unfold is_byte in *; cbn [raw_url64 raw_url64_decode];
    repeat (rewrite url64_roundtrip by lia_div; cbn [mbind option_bind]); try done.
  - rewrite (proj2 (Z.eqb_eq _ _)) by lia_div. do 2 f_equal. lia_div.
  - rewrite (proj2 (Z.eqb_eq _ _)) by lia_div. repeat f_equal; lia_div.
  - rewrite (IH l H). cbn [mbind option_bind]. repeat f_equal; lia_div.
Qed.
(** The strict decoder accepts one text per sequence of bytes. *)
Lemma raw_url64_strict (t : list ascii) : forall l, raw_url64_decode t = Some l -> Forall is_byte l /\ t = raw_url64 l.
Proof.
  revert t. fix IH 1. destruct t as [|c1 [|c2 [|c3 [|c4 t]]]]; intros l; cbn [raw_url64_decode]; try done.
  - intros [= <-]. done.
  - intros (v1 & H1 & H)%bind_Some. apply bind_Some in H as (v2 & H2 & H). apply url64_value_inv in H1 as [? ->], H2 as [? ->].
    destruct (Z.eqb_spec (v2 `mod` 16) 0); [|done]. injection H as <-. split; [repeat constructor; unfold is_byte; lia_div|].
    cbn [raw_url64]. repeat f_equal; lia_div.
  - intros (v1 & H1 & H)%bind_Some. apply bind_Some in H as (v2 & H2 & H). apply bind_Some in H as (v3 & H3 & H).
    apply url64_value_inv in H1 as [? ->], H2 as [? ->], H3 as [? ->].
    destruct (Z.eqb_spec (v3 `mod` 4) 0); [|done]. injection H as <-. split; [repeat constructor; unfold is_byte; lia_div|].
    cbn [raw_url64]. repeat f_equal; lia_div.
  - intros (v1 & H1 & H)%bind_Some. apply bind_Some in H as (v2 & H2 & H). apply bind_Some in H as (v3 & H3 & H).
    apply bind_Some in H as (v4 & H4 & H). apply bind_Some in H as (out & Ho & H).
    apply url64_value_inv in H1 as [? ->], H2 as [? ->], H3 as [? ->], H4 as [? ->]. apply IH in Ho as [Hb ->].
    injection H as <-. split; [repeat constructor; unfold is_byte; try done; lia_div|]. cbn [raw_url64]. repeat f_equal; lia_div.
Qed.
Lemma raw_url64_length l : (3 * length (raw_url64 l) = 4 * length l + (2 * length l) mod 3)%nat.
Proof.
  revert l. fix IH 1. destruct l as [|a [|b [|c l]]]; [done..|]. cbn [raw_url64 length]. pose proof (IH l) as H.
  replace (2 * S (S (S (length l))))%nat with (2 * length l + 2 * 3)%nat by lia. rewrite Nat.Div0.mod_add. lia.
Qed.
Lemma decode_strict t l :
  DecodeString t = Some l -> length l = 32%nat -> length t = 43%nat -> Forall is_byte l /\ t = raw_url64 l.
Proof.
  unfold DecodeString. intros H Hl Ht. apply raw_url64_strict in H as [Hb E]. split; [done|].
  pose proof (raw_url64_length l) as HL. rewrite Hl in HL. cbn in HL. rewrite <- E in HL. rewrite <- E. symmetry. clear E.
  assert (length (List.filter (fun c => negb (line_break c)) t) = length t) as En by lia. clear -En. induction t as [|c t IH]; [done|].
  cbn in *. pose proof (List.filter_length_le (fun c => negb (line_break c)) t) as Hf. destruct (negb (line_break c)); cbn in *; [|lia].
  f_equal. apply IH. lia.
Qed.
Lemma decode_issued l : Forall is_byte l -> DecodeString (raw_url64 l) = Some l.
Proof.
  intros Hl. unfold DecodeString. replace (List.filter _ _) with (raw_url64 l); [by apply raw_url64_roundtrip|].
  assert (Forall (fun c => negb (line_break c) = true) (raw_url64 l)) as H.
  { revert l Hl. fix IH 1. destruct l as [|a [|b [|c l]]]; intros H; repeat (apply Forall_cons in H as [? H]); unfold is_byte in *; cbn [raw_url64];
      repeat (apply Forall_cons; split; [rewrite url64_not_break by lia_div; done|]); [done..|]. by apply IH. }
  induction H as [|c t Hc _ IH]; [done|]. cbn. rewrite Hc. by f_equal.
Qed.
Lemma token_text s : HasPrefix s "cr1_" = true -> s = "cr1_" +:+ string_of (drop 4 (bytes_of s)).
Proof.
  unfold HasPrefix. do 4 (destruct s as [|? s]; [done|]; cbn [String.prefix]; destruct (ascii_dec _ _) as [<-|]; [|done]).
  intros _. exact (f_equal (fun t => "cr1_" +:+ t) (eq_sym (string_of_bytes_of s))).
Qed.

(** The texts that [Authenticate] looks up are exactly the
    secrets that issuing makes of 32 bytes, under the digest that issuing
    stores; every other text is refused without a call. *)
Theorem token_texts {E} `{!AuthCalls E} raw :
  (forall bytes, length bytes = 32%nat -> Forall is_byte bytes -> raw = token_secret bytes ->
     Authenticate raw = lookup (E := E) (sha256_hex raw)) /\
  ((forall bytes, length bytes = 32%nat -> Forall is_byte bytes -> raw <> token_secret bytes) ->
     Authenticate raw = fail_with (E := E) ErrUnauthenticated).
Proof.
  unfold Authenticate. split.
  - intros bytes Hl Hb ->. pose proof (raw_url64_length bytes) as HL. rewrite Hl in HL. cbn in HL.
    assert (drop 4 (bytes_of (token_secret bytes)) = raw_url64 bytes) as Ed by exact (bytes_of_string_of _).
    assert (len (token_secret bytes) = 47) as El.
    { rewrite len_bytes. rewrite <- (take_drop 4 (bytes_of (token_secret bytes))), Ed, length_app.
      change (length (take 4 (bytes_of (token_secret bytes)))) with 4%nat. lia. }
    rewrite El, Ed, decode_issued, Hl by done. assert (HasPrefix (token_secret bytes) "cr1_" = true) as -> by (unfold token_secret, HasPrefix; by destruct (string_of (raw_url64 bytes))). reflexivity.
  - intros Hno. destruct (_ || _) eqn:E1; [done|]. bool_to_prop. destruct (DecodeString _) as [l|] eqn:Ed; [|done].
    destruct (negb _) eqn:E2; [done|]. bool_to_prop. exfalso.
    apply decode_strict in Ed as [Hb Et]; [|lia|rewrite length_drop; rewrite len_bytes in *; lia].
    apply (Hno l); [lia|done|]. unfold token_secret. rewrite <- Et. by apply token_text.
Qed.
(** The calls of the authorization service alone. *)
Inductive access_call : Type -> Type :=
  | CallCtxErr : access_call (option error)
  | CallToken (digest : string) : access_call (result error TokenRecord)
  | CallWorkspace (id : string) : access_call (result error Workspace).
#[export] Instance access_call_auth : AuthCalls access_call :=
  {| AccessCtxErr := CallCtxErr; LookupToken := CallToken; LookupWorkspace := CallWorkspace |}.
Lemma token_texts_witness :
  let raw := token_secret (replicate 32 7) in
  Authenticate raw = lookup (E := access_call) (sha256_hex raw) /\ Authenticate "cr1_short" = fail_with (E := access_call) ErrUnauthenticated.
Proof.
  intros raw. split.
  - apply (proj1 (token_texts raw) (replicate 32 7)); [reflexivity| |reflexivity].
    apply Forall_replicate. unfold is_byte. lia.
  - apply (proj2 (token_texts "cr1_short")). intros bytes Hl Hb H. apply (f_equal len) in H. revert H.
    rewrite (len_bytes (token_secret _)). unfold token_secret. pose proof (raw_url64_length bytes) as HL. rewrite Hl in HL.
    change (bytes_of ("cr1_" +:+ ?t)) with (bytes_of "cr1_" ++ bytes_of t). rewrite length_app, bytes_of_string_of.
    change (len "cr1_short") with 9. cbn in *. lia.
Defined.

(** ** Grants

    What a service does outside its own process on behalf of a caller: reads
    or changes something of a workspace, in its own name or under the name of
    the caller's token, and for a scope. A part that a call does not name is
    [None]. *)
Record reach := mkReach { rc_change : bool; rc_workspace : option string; rc_token : option string; rc_scope : option Scope }.
Inductive access_event :=
  | TokenSeen (digest : string) (r : result error TokenRecord)
  | WorkspaceSeen (id : string) (r : result error Workspace)
  | Acts (a : reach)
  | Elapsed.
(** What the answers so far grant: the record of the token, whether its
    workspace was found enabled since, whether that was after the last long
    call, and whether a call under the token's name was made since then. *)
Record access := mkAccess { ac_token : option TokenRecord; ac_enabled : bool; ac_fresh : bool; ac_checked : bool }.
Definition no_access : access := mkAccess None false false false.
Definition token_usable (digest : string) (r : TokenRecord) : bool := (tr_Digest r ==? digest) && negb (tr_Revoked r).
(** The names a call gives are the ones of the request and of the token. *)
Definition names_fit (target : string * Scope) (token : string) (a : reach) : bool :=
  match rc_workspace a with Some w => w ==? target.1 | None => true end
  && match rc_scope a with Some sc => sc ==? target.2 | None => true end
  && match rc_token a with Some t => t ==? token | None => true end.
(** Anything may be read under a grant that was given in this run; something
    is changed only while the grant is fresh, or under the token's name, by a
    repository that looks the token up again in its transaction. *)
Definition may_act (target : string * Scope) (s : access) (a : reach) : bool :=
  match ac_token s with
  | Some r =>
      ac_enabled s && (tr_WorkspaceID r ==? target.1) && bool_decide (target.2 ∈ tr_Scopes r) && names_fit target (tr_ID r) a
      && (negb (rc_change a) || ac_fresh s || not_nil (rc_token a))
  | None => false
  end.
(** The monitor of a caller who presented the token with that digest and named
    a workspace and an action: no other workspace, no other scope is used. *)
Definition access_step (digest : string) (target : string * Scope) (s : access) (e : access_event) : option access :=
  match e with
  | TokenSeen d r =>
      if d ==? digest then
        Some (mkAccess (match r with Ok r => if token_usable d r then Some r else None | Err _ => None end) false true (ac_checked s))
      else None
  | WorkspaceSeen id r =>
      Some (mkAccess (ac_token s)
        match r, ac_token s with
        | Ok w, Some t => (id ==? tr_WorkspaceID t) && (ws_ID w ==? id) && ws_Enabled w
        | _, _ => false
        end (ac_fresh s) (ac_checked s))
  | Acts a =>
      if may_act target s a
      then Some (mkAccess (ac_token s) (ac_enabled s) (ac_fresh s) (ac_checked s || not_nil (rc_token a))) else None
  | Elapsed => Some (mkAccess (ac_token s) (ac_enabled s) false false)
  end.

(** *** What the calls of a service show

    [reach_of]: what a call does for the caller, nothing for the clock, for
    random bytes and for what stays in the process; [long_call]: calls that
    move the bytes of an object, wait for a provider or wait for another
    caller, after which what was granted may have been revoked. *)
Class Reaches (E : Type -> Type) := {
  reach_of {X} : E X -> option reach;
  long_call {X} : E X -> bool;
  lookup_seen {X} : E X -> X -> list access_event }.
#[export] Instance reaches_observed {E} `{!Reaches E} : Observed E access_event := {|
  called X e := match reach_of e with Some a => [Acts a] | None => [] end ++ (if long_call e then [Elapsed] else []);
  answered X e x := lookup_seen e x |}.
(** A service whose token and workspace lookups are observed. *)
Class AccessObserved (E : Type -> Type) `{!AuthCalls E, !Observed E access_event} : Prop := {
  ctx_called : called (L := access_event) AccessCtxErr = [];
  ctx_answered x : answered (L := access_event) AccessCtxErr x = [];
  token_called d : called (LookupToken d) = [];
  token_answered d r : answered (LookupToken d) r = [TokenSeen d r];
  space_called id : called (LookupWorkspace id) = [];
  space_answered id r : answered (LookupWorkspace id) r = [WorkspaceSeen id r] }.

Definition any_answer {E : Type -> Type} (s : access) (X : Type) (e : E X) (x : X) : Prop := True.
(** The caller holds a grant for [scope] in [w] under the token's own name;
    [fresh]: since the last long call; [checked]: a call was made under that
    name since then. *)
Definition holding (w : string) (scope : Scope) (token : string) (fresh checked : bool) (s : access) : Prop :=
  (exists r, ac_token s = Some r /\ ac_enabled s = true /\ tr_WorkspaceID r = w /\ scope ∈ tr_Scopes r /\ tr_ID r = token) /\
  (fresh = true -> ac_fresh s = true) /\ (checked = true -> ac_checked s = true).

Section Access.
Context {E : Type -> Type} `{!AuthCalls E, !Observed E access_event, !AccessObserved E} (digest : string) (target : string * Scope).
Definition access_ok {R} (t : prog E R) (s : access) (Q : R -> access -> Prop) : Prop :=
  obeys (access_step digest target) (@any_answer E) t s Q.
(** The postcondition of a fallible step. *)
Definition when_ok {A} (Q : A -> access -> Prop) (r : result error A) (s : access) : Prop :=
  match r with Ok a => Q a s | Err _ => True end.

Lemma ok_try {A B} (m : service E A) (k : A -> service E B) s Q :
  access_ok m s (when_ok (fun a s => access_ok (k a) s (when_ok Q))) -> access_ok (serve_bind k m) s (when_ok Q).
Proof.
  intros H. apply obeys_bind. eapply obeys_mono; [exact H|]. intros [a|e] s'; cbn; [done|]. by intros _.
Qed.
Lemma ok_call {X R} (e : E X) (k : X -> prog E R) s s1 Q :
  feed (access_step digest target) s (called e) = Some s1 ->
  (forall x, exists s2, feed (access_step digest target) s1 (answered e x) = Some s2 /\ access_ok (k x) s2 Q) ->
  access_ok (Call e k) s Q.
Proof. intros H1 H2. exists s1. split; [done|]. intros x _. apply H2. Qed.

Lemma ok_ctx {A} (k : unit -> service E A) s Q :
  access_ok (k tt) s (when_ok Q) -> access_ok (serve_bind k (check_error (perform AccessCtxErr))) s (when_ok Q).
Proof.
  intros H. apply ok_try. cbn [check_error perform prog_bind]. apply (ok_call _ _ _ s); [by rewrite ctx_called|].
  intros x. exists s. rewrite ctx_answered. split; [done|]. by destruct x.
Qed.
Lemma ok_enabled id s (Q : option error -> access -> Prop) :
  (forall s', ac_token s' = ac_token s -> ac_fresh s' = ac_fresh s ->
     (forall r, ac_token s = Some r -> id = tr_WorkspaceID r -> ac_enabled s' = true) -> Q None s') ->
  (forall e s', Q (Some e) s') -> access_ok (enabled id) s Q.
Proof.
  intros HN HS. apply (ok_call _ _ _ s); [by rewrite space_called|]. intros x. rewrite space_answered. cbn. eexists. split; [done|].
  destruct x as [w|e]; cbn; [|by destruct (errors_Is _ _)]. destruct ((_ <>? _) || _) eqn:Ew; cbn; [apply HS|]. bool_to_prop.
  apply HN; [done|done|]. cbn. intros r -> ->. rewrite !bool_decide_eq_true_2 by done. done.
Qed.
Lemma ok_lookup s :
  access_ok (lookup digest) s (when_ok (fun p s' =>
    exists r, ac_token s' = Some r /\ ac_enabled s' = true /\ ac_fresh s' = true /\ pr_tokenID p = tr_ID r /\ pr_workspace p = tr_WorkspaceID r /\
      pr_scopes p = tr_Scopes r /\ pr_digest p = digest)).
Proof.
  unfold lookup. apply ok_ctx. apply (ok_call _ _ _ s); [by rewrite token_called|]. intros x. rewrite token_answered. cbn [feed access_step].
  rewrite bool_decide_eq_true_2 by done. eexists. split; [done|]. destruct x as [r|e]; cbn [prog_bind]; [|by destruct (errors_Is _ _)].
  destruct ((tr_Digest r <>? digest) || _ || _ || _ || _) eqn:Er; [done|]. bool_to_prop. unfold token_usable.
  rewrite bool_decide_eq_true_2 by done. replace (tr_Revoked r) with false by done. cbn [negb andb]. apply ok_try.
  unfold check_error. apply obeys_bind. apply ok_enabled; [|done]. cbn. intros s' Hs Hf He. exists r. rewrite Hs, Hf. split_and!; eauto.
Qed.
Lemma ok_authorize p w scope s :
  pr_digest p = digest ->
  access_ok (authorize p w scope) s (when_ok (fun fresh s' =>
    holding w scope (pr_tokenID fresh) true false s' /\ pr_tokenID fresh = pr_tokenID p /\ pr_digest fresh = pr_digest p)).
Proof.
  intros Hd. unfold authorize, Revalidate. apply ok_try. destruct (_ || _); [done|]. rewrite Hd. apply ok_try.
  eapply obeys_mono; [apply ok_lookup|]. intros [q|e] s'; [|done]. cbn. intros (r & Hr & He & Hf & Hi & Hw & Hs & Hdq).
  destruct ((_ <>? _) || _) eqn:Ep; [done|]. bool_to_prop. cbn. destruct (auth_Require q w scope) eqn:Ea; [done|]. cbn.
  split; [|split; congruence]. split; [|done]. exists r. unfold auth_Require in Ea. split_guards Ea. bool_to_prop. split_and!; try congruence.
  match goal with H : existsb _ _ = true |- _ => apply existsb_exists in H as (g & Hg & E') end. bool_to_prop. subst.
  rewrite <- Hs. by apply list_elem_of_In.
Qed.
Lemma ok_authorized {A} p w sc (k : Principal -> service E A) s Q :
  pr_digest p = digest ->
  (forall fresh s', holding w sc (pr_tokenID fresh) true false s' -> pr_tokenID fresh = pr_tokenID p -> pr_digest fresh = digest ->
     access_ok (k fresh) s' (when_ok Q)) ->
  access_ok (serve_bind k (authorize p w sc)) s (when_ok Q).
Proof.
  intros Hd H. apply ok_try. eapply obeys_mono; [by apply ok_authorize|]. intros [fresh|e] s'; [|done]. intros (Hg & Ht & Hf). apply H; congruence.
Qed.
End Access.

(** *** Calls under a grant *)
Section Reaching.
Context {E : Type -> Type} `{!Reaches E} (digest w : string) (sc : Scope).
#[local] Notation ok := (access_ok (E := E) digest (w, sc)).
(** The grant an answer is released with. *)
Definition releasing (s : access) : Prop := exists token fresh checked, holding w sc token fresh checked s /\ fresh || checked = true.
Definition with_grant {A} (_ : A) (s : access) : Prop := releasing s.

Lemma ok_quiet {X R} (e : E X) (k : X -> prog E R) s Q :
  reach_of e = None -> long_call e = false -> (forall x, lookup_seen e x = []) -> (forall x, ok (k x) s Q) -> ok (Call e k) s Q.
Proof. intros H1 H2 H3 H. apply (ok_call _ _ _ _ _ s); [cbn; by rewrite H1, H2|]. intros x. exists s. cbn. by rewrite H3. Qed.
Lemma ok_reach {X R} (e : E X) (k : X -> prog E R) s token fresh checked a Q :
  holding w sc token fresh checked s -> reach_of e = Some a -> names_fit (w, sc) token a = true ->
  negb (rc_change a) || fresh || not_nil (rc_token a) = true -> (forall x, lookup_seen e x = []) ->
  (forall x s', holding w sc token (fresh && negb (long_call e)) ((checked || not_nil (rc_token a)) && negb (long_call e)) s' -> ok (k x) s' Q) ->
  ok (Call e k) s Q.
Proof.
  intros [(r & Hr & He & Hw & Hs & Ht) [Hf Hc]] H1 H2 H3 H4 H.
  set (s1 := mkAccess (ac_token s) (ac_enabled s) (ac_fresh s) (ac_checked s || not_nil (rc_token a))).
  assert (feed (access_step digest (w, sc)) s [Acts a] = Some s1) as HA.
  { cbn [feed access_step]. assert (may_act (w, sc) s a = true) as ->; [|done]. unfold may_act. rewrite Hr, He, Ht, H2. cbn [fst snd].
    rewrite !bool_decide_eq_true_2 by done. cbn [andb]. destruct fresh; [rewrite (Hf eq_refl); by rewrite orb_true_r|].
    rewrite orb_false_r in H3. apply orb_true_iff in H3 as [-> | ->]; [done|apply orb_true_r]. }
  assert (holding w sc token fresh (checked || not_nil (rc_token a)) s1) as Hs1.
  { split; [by exists r|]. split; [done|]. cbn. destruct checked; [by rewrite (Hc eq_refl)|]. cbn. intros ->. apply orb_true_r. }
  destruct (long_call e) eqn:El.
  - apply (ok_call _ _ _ _ _ (mkAccess (ac_token s1) (ac_enabled s1) false false)).
    + unfold called, reaches_observed. rewrite H1, El, feed_app, HA. done.
    + intros x. eexists. cbn [answered reaches_observed]. rewrite H4. split; [done|]. apply H. rewrite !andb_false_r.
      destruct Hs1 as [Hr1 _]. by split.
  - apply (ok_call _ _ _ _ _ s1).
    + unfold called, reaches_observed. rewrite H1, El, app_nil_r. exact HA.
    + intros x. exists s1. cbn [answered reaches_observed]. rewrite H4. split; [done|]. apply H. by rewrite !andb_true_r.
Qed.
(** Waiting for another caller. *)
Lemma ok_wait {X R} (e : E X) (k : X -> prog E R) s token fresh checked Q :
  holding w sc token fresh checked s -> reach_of e = None -> long_call e = true -> (forall x, lookup_seen e x = []) ->
  (forall x s', holding w sc token false false s' -> ok (k x) s' Q) -> ok (Call e k) s Q.
Proof.
  intros [Hr _] H1 H2 H3 H. apply (ok_call _ _ _ _ _ (mkAccess (ac_token s) (ac_enabled s) false false)).
  - unfold called, reaches_observed. by rewrite H1, H2.
  - intros x. eexists. cbn [answered reaches_observed]. rewrite H3. split; [done|]. apply H. by split.
Qed.
Lemma ok_bind {A B} (t : prog E A) (k : A -> prog E B) s Q :
  ok t s (fun a s' => ok (k a) s' Q) -> ok (prog_bind k t) s Q.
Proof. apply obeys_bind. Qed.
End Reaching.

(** ** What an accepted action means

    The last answer of the token repository is the caller's token, not
    revoked, with the scope, in the workspace of the request; after it the
    last answer about a workspace is that workspace, enabled. What the access
    names are that workspace, that scope and that token. And if it changes
    something, no long call was made since the token was answered, or the
    access is made under the token's name. *)
Definition token_answer (e : access_event) : Prop := match e with TokenSeen _ _ => True | _ => False end.
Definition space_answer (e : access_event) : Prop := match e with WorkspaceSeen _ _ => True | _ => False end.
Definition authorized (digest : string) (target : string * Scope) (past : list access_event) (a : reach) : Prop :=
  exists la r lb ws lc,
    past = la ++ TokenSeen digest (Ok r) :: lb ++ WorkspaceSeen target.1 (Ok ws) :: lc /\
    Forall (fun e => ~ token_answer e) (lb ++ lc) /\ Forall (fun e => ~ space_answer e) lc /\
    tr_Digest r = digest /\ tr_Revoked r = false /\ tr_WorkspaceID r = target.1 /\ target.2 ∈ tr_Scopes r /\
    ws_ID ws = target.1 /\ ws_Enabled ws = true /\
    (forall w, rc_workspace a = Some w -> w = target.1) /\ (forall sc, rc_scope a = Some sc -> sc = target.2) /\
    (forall t, rc_token a = Some t -> t = tr_ID r) /\
    (rc_change a = true -> is_Some (rc_token a) \/ Elapsed ∉ lb ++ lc).
(** An answer is released under such a grant, if no long call was made since
    the token was answered, or if a call under the token's name was made after
    the last long call. *)
Definition released (digest : string) (target : string * Scope) (past : list access_event) : Prop :=
  authorized digest target past (mkReach false None None None) /\
  (authorized digest target past (mkReach true None None None) \/
   exists l1 a l2, past = l1 ++ Acts a :: l2 /\ is_Some (rc_token a) /\ Elapsed ∉ l2).

Definition remembers_grant (digest : string) (past : list access_event) (s : access) : Prop :=
  forall r, ac_token s = Some r ->
    exists la lb, past = la ++ TokenSeen digest (Ok r) :: lb /\ token_usable digest r = true /\ Forall (fun e => ~ token_answer e) lb /\
      (ac_fresh s = true -> Elapsed ∉ lb) /\
      (ac_enabled s = true -> exists l1 ws l2, lb = l1 ++ WorkspaceSeen (tr_WorkspaceID r) (Ok ws) :: l2 /\
         Forall (fun e => ~ space_answer e) l2 /\ ws_ID ws = tr_WorkspaceID r /\ ws_Enabled ws = true).
Definition remembers_check (past : list access_event) (s : access) : Prop :=
  ac_checked s = true -> exists l1 a l2, past = l1 ++ Acts a :: l2 /\ is_Some (rc_token a) /\ Elapsed ∉ l2.

(** An event that is no answer of a lookup. *)
Lemma grant_later digest past s s' e :
  remembers_grant digest past s -> ~ token_answer e -> ~ space_answer e -> ac_token s' = ac_token s -> ac_enabled s' = ac_enabled s ->
  (ac_fresh s' = true -> ac_fresh s = true /\ e <> Elapsed) -> remembers_grant digest (past ++ [e]) s'.
Proof.
  intros HR Ht Hw E1 E2 E3 r Hr. rewrite E1 in Hr. destruct (HR r Hr) as (la & lb & -> & Hu & Hn & Hf & He). exists la, (lb ++ [e]).
  rewrite E2. split_and!; [by rewrite <- app_assoc|done|by apply Forall_app; split; [|apply Forall_singleton]| |].
  - intros [Hs Hne]%E3. specialize (Hf Hs). set_solver.
  - intros Hen. destruct (He Hen) as (l1 & ws & l2 & -> & Hn2 & Hi & Hws). exists l1, ws, (l2 ++ [e]).
    split_and!; [by rewrite <- app_assoc|by apply Forall_app; split; [|apply Forall_singleton]|done|done].
Qed.
Lemma check_later past s s' e :
  remembers_check past s -> (ac_checked s' = true -> ac_checked s = true /\ e <> Elapsed) -> remembers_check (past ++ [e]) s'.
Proof.
  intros HR H Hc. destruct (H Hc) as [Hs Hne]. destruct (HR Hs) as (l1 & a & l2 & -> & Ha & Hn). exists l1, a, (l2 ++ [e]).
  split_and!; [by rewrite <- app_assoc|done|set_solver].
Qed.
Lemma remembers_step digest target past s e s' :
  remembers_grant digest past s /\ remembers_check past s -> access_step digest target s e = Some s' ->
  remembers_grant digest (past ++ [e]) s' /\ remembers_check (past ++ [e]) s'.
Proof.
  intros [HG HC]. destruct e as [d r|id r|a|]; cbn [access_step].
  - case_bool_decide; [|done]. subst d. intros [= <-]. split; [|by eapply check_later]. intros r'. cbn. destruct r as [r|]; [|done].
    destruct (token_usable digest r) eqn:E; [|done]. intros [= ->]. exists past, []. split_and!; try done. set_solver.
  - intros [= <-]. split; [|by eapply check_later]. intros r'. cbn. intros Hr. destruct (HG r' Hr) as (la & lb & -> & Hu & Hn & Hf & _).
    exists la, (lb ++ [WorkspaceSeen id r]). rewrite Hr.
    split_and!; [by rewrite <- app_assoc|done|apply Forall_app; split; [done|apply Forall_singleton; by intros []]|intros H; specialize (Hf H); set_solver|].
    destruct r as [w|]; [|done]. intros H. bool_to_prop. subst id. exists lb, w, []. split_and!; [done|constructor|done|done].
  - destruct (may_act target s a) eqn:E; [|done]. intros [= <-]. split; [eapply grant_later; [exact HG|by intros []|by intros []|done|done|done]|]. cbn. destruct (rc_token a) as [t|] eqn:Et.
    + intros _. exists past, a, []. rewrite Et. split_and!; [done|by eexists|set_solver].
    + eapply check_later; [exact HC|]. cbn. rewrite orb_false_r. by intros ->.
  - intros [= <-]. split; [eapply grant_later; [exact HG|by intros []|by intros []|done|done|done]|]. done.
Qed.
Lemma remembers_feed digest target l : forall past s s',
  remembers_grant digest past s /\ remembers_check past s -> feed (access_step digest target) s l = Some s' ->
  remembers_grant digest (past ++ l) s' /\ remembers_check (past ++ l) s'.
Proof.
  induction l as [|e l IH]; intros past s s' HR; cbn; [intros [= <-]; by rewrite app_nil_r|].
  destruct (access_step digest target s e) as [s1|] eqn:E; [|done]. intros H. rewrite (app_assoc past [e] l : past ++ e :: l = _).
  eapply IH; [|exact H]. by eapply (remembers_step digest target).
Qed.
Lemma remembers_none digest : remembers_grant digest [] no_access /\ remembers_check [] no_access.
Proof. split; [by intros r|done]. Qed.
Lemma may_act_authorized digest target past s a :
  remembers_grant digest past s -> may_act target s a = true -> authorized digest target past a.
Proof.
  unfold may_act, names_fit. intros HR. destruct (ac_token s) as [r|] eqn:Hr; [|done]. rewrite !andb_true_iff, !bool_decide_eq_true.
  intros ((((He & Hw) & Hs) & ((Fw & Fs) & Ft)) & Hc). destruct (HR r Hr) as (la & lb & -> & Hu & Hn & Hf & Hen).
  destruct (Hen He) as (l1 & ws & l2 & -> & Hn2 & Hi & Hws). unfold token_usable in Hu. bool_to_prop. rewrite Hw in *.
  exists la, r, l1, ws, l2. split_and!; try done.
  - rewrite Forall_app, Forall_cons in Hn. rewrite Forall_app. tauto.
  - intros w E. rewrite E in Fw. by apply bool_decide_eq_true_1 in Fw.
  - intros x E. rewrite E in Fs. by apply bool_decide_eq_true_1 in Fs.
  - intros t E. rewrite E in Ft. by apply bool_decide_eq_true_1 in Ft.
  - intros Ec. rewrite Ec in Hc. destruct (rc_token a); [by left; eexists|]. right. cbn in Hc. rewrite orb_false_r in Hc. specialize (Hf Hc). set_solver.
Qed.
Lemma accepted_authorized digest target l s l1 a l2 :
  feed (access_step digest target) no_access l = Some s -> l = l1 ++ Acts a :: l2 -> authorized digest target l1 a.
Proof.
  intros H ->. rewrite feed_app in H. destruct (feed _ no_access l1) as [s1|] eqn:E; [|done]. cbn in H.
  destruct (may_act target s1 a) eqn:Em; [|done].
  eapply may_act_authorized; [|exact Em]. exact (proj1 (remembers_feed digest target l1 [] no_access s1 (remembers_none digest) E)).
Qed.
Lemma releasing_released digest w sc l s :
  feed (access_step digest (w, sc)) no_access l = Some s -> releasing w sc s -> released digest (w, sc) l.
Proof.
  intros H (token & fresh & checked & [(r & Hr & He & Hw & Hs & Ht) [Hf Hc]] & Hor).
  destruct (remembers_feed digest (w, sc) l [] no_access s (remembers_none digest) H) as [HG HC]. cbn [app] in *.
  assert (forall change, negb change || ac_fresh s = true -> may_act (w, sc) s (mkReach change None None None) = true) as HM.
  { intros change Hch. unfold may_act. rewrite Hr, He. cbn. rewrite !bool_decide_eq_true_2 by done. cbn. by rewrite orb_false_r. }
  split; [by eapply may_act_authorized; [exact HG|apply HM]|]. apply orb_true_iff in Hor as [-> | ->].
  - left. eapply may_act_authorized; [exact HG|]. apply HM. cbn. by apply Hf.
  - right. by apply HC, Hc.
Qed.
(** Every run of a program that obeys the monitor. *)
Lemma access_runs {E} `{!Observed E access_event} {R} (t : prog E R) digest w sc (Q : R -> Prop) l r :
  access_ok digest (w, sc) t no_access (fun x s => Q x -> releasing w sc s) -> runs t l r ->
  (forall l1 a l2, l = l1 ++ Acts a :: l2 -> authorized digest (w, sc) l1 a) /\
  (forall x, r = Some x -> Q x -> released digest (w, sc) l).
Proof.
  intros Ho Hr. apply (runs_fair (access_step digest (w, sc)) (@any_answer E) _ no_access _) with (2 := Ho) in Hr; [|done].
  destruct (obeys_runs _ _ _ _ _ _ _ Ho Hr) as (s' & Hf & HQ). split.
  - intros l1 a l2 Hl. by eapply accepted_authorized.
  - intros x -> Hx. eapply releasing_released; [exact Hf|by apply (HQ x)].
Qed.
