(* ===== verification/Retention.v ===== *)
(** * Retention of stored bytes

    [internal/retention]: when the bytes of an object may expire, the sweep
    that deletes what the repository has marked, and the explicit release of
    results and inputs by their owner. *)

From S2P Require Import Prelude Effects GoStrings GoTime GoSha256 GoJson JsonRead Canonical Identifiers Problems AttemptStates Attempts DomainRecords Auth.
#[local] Open Scope string_scope.
#[local] Open Scope list_scope.
#[local] Open Scope Z_scope.
#[local] Open Scope bool_scope.

Definition retention_ErrInvalid : error := ENew "invalid retention request".
Definition MaxReferences : Z := 100000.

(** ** Policy *)
Inductive RetentionKind := RetainInput | RetainResult | RetainOther (raw : string).
#[export] Instance RetentionKind_eq_dec : EqDecision RetentionKind.
Proof. solve_decision. Defined.
Definition RetentionKind_Valid (k : RetentionKind) : bool := (k ==? RetainInput) || (k ==? RetainResult).
Record RetentionPolicy := mkRetentionPolicy { rp_UnreferencedFor : Duration; rp_CompletedFor : Duration }.
Definition DefaultRetentionPolicy : RetentionPolicy := mkRetentionPolicy (24 * Hour) (7 * 24 * Hour).
Definition RetentionPolicy_Valid (p : RetentionPolicy) : bool :=
  (Hour <=? rp_UnreferencedFor p) && (rp_UnreferencedFor p <=? 365 * 24 * Hour)
  && (Hour <=? rp_CompletedFor p) && (rp_CompletedFor p <=? 365 * 24 * Hour).

(** An attempt that used the object. *)
Record Reference := mkReference {
  rf_State : AttemptState; rf_UpdatedAt : Time; rf_Busy : bool; rf_RecoveryRequired : bool; rf_InputReleased : bool }.
Definition ReleaseBlocker (r : Reference) : string :=
  let s := rf_State r in
  if rf_Busy r then "local_work"
  else if negb (OrchestrationState_Terminal (as_Orchestration s))
          || (as_RemoteActivity s <>? RemoteActivityInactive) && (as_RemoteActivity s <>? RemoteActivityNotStarted)
  then "active_or_unresolved"
  else if rf_RecoveryRequired r
          || ExecutionState_Terminal (as_Execution s) && (as_Result s <>? ResultAvailable) && (as_Result s <>? ResultExpired)
  then "recovery_required"
  else "".
Record RetentionDecision := mkRetentionDecision { de_Eligible : bool; de_Reason : string; de_NotBefore : Time }.
(** The loop over the references, with the time due so far. *)
Fixpoint assess_references (p : RetentionPolicy) (now due : Time) (refs : list Reference) : result error RetentionDecision :=
  match refs with
  | [] =>
      if Before now due then Ok (mkRetentionDecision false "retention_window" due)
      else Ok (mkRetentionDecision true "retention_elapsed" due)
  | r :: refs =>
      throw not_nil (AttemptState_Validate (rf_State r)) || IsZero (rf_UpdatedAt r) || After (rf_UpdatedAt r) now
        with retention_ErrInvalid ;;
      if ReleaseBlocker r <>? "" then Ok (mkRetentionDecision false (ReleaseBlocker r) zero_time)
      else
        let t := rf_UpdatedAt r + rp_CompletedFor p in
        assess_references p now (if After t due then t else due) refs
  end.
Definition Assess (p : RetentionPolicy) (now recordedAt : Time) (refs : list Reference) : result error RetentionDecision :=
  throw negb (RetentionPolicy_Valid p) || IsZero now || IsZero recordedAt || After recordedAt now
        || (MaxReferences <? Z.of_nat (length refs)) with retention_ErrInvalid ;;
  let due := if bool_decide (refs = []) then recordedAt + rp_UnreferencedFor p else recordedAt + rp_CompletedFor p in
  assess_references p now due refs.

Record Deletion := mkDeletion { dl_Kind : RetentionKind; dl_Object : ObjectMetadata }.
#[export] Instance Deletion_eq_dec : EqDecision Deletion.
Proof. solve_decision. Defined.
Definition Deletion_Valid (d : Deletion) : bool := RetentionKind_Valid (dl_Kind d) && ObjectMetadata_Valid (dl_Object d).
Record SweepReport := mkSweepReport {
  sw_Examined : Z; sw_Expired : Z; sw_Deleted : Z; sw_AlreadyAbsent : Z; sw_Pending : Z }.
Record DeletionPage := mkDeletionPage { pg_Items : list Deletion; pg_NextAfter : Z }.

(** ** Release requests *)
Definition ReleasePageSize : Z := 100.
Record ReleaseRequest := mkReleaseRequest { rl_AttemptID : string; rl_ArtifactID : string; rl_SHA256 : string }.
#[export] Instance ReleaseRequest_eq_dec : EqDecision ReleaseRequest.
Proof. solve_decision. Defined.
Definition ReleaseRequest_Valid (r : ReleaseRequest) : bool :=
  ID_Valid (rl_AttemptID r) && ID_Valid (rl_ArtifactID r) && SHA256Digest_Valid (rl_SHA256 r).
Record ReleaseReceipt := mkReleaseReceipt {
  re_WorkspaceID : string; re_JobID : string; re_Request : ReleaseRequest; re_ReleasedAt : Time; re_Files : Z;
  re_Bytes : Z; re_PendingFiles : Z; re_ReclaimedBytes : Z }.
Definition MaxInputReleaseJobs : Z := 100.
Record InputReleaseJob := mkInputReleaseJob { ij_JobID : string; ij_Request : ReleaseRequest }.
#[export] Instance InputReleaseJob_eq_dec : EqDecision InputReleaseJob.
Proof. solve_decision. Defined.
Record InputReleaseRequest := mkInputReleaseRequest { ir_Jobs : list InputReleaseJob; ir_PreviewSHA256 : string }.
Definition ij_AttemptID (j : InputReleaseJob) : string := rl_AttemptID (ij_Request j).
(** The order of the jobs: not greater than. *)
Definition job_le (a b : InputReleaseJob) : Prop :=
  (if ij_JobID a ==? ij_JobID b then str_leb (ij_AttemptID a) (ij_AttemptID b) else str_ltb (ij_JobID a) (ij_JobID b)) = true.
#[export] Instance job_le_dec : RelDecision job_le.
Proof. intros a b. unfold job_le. apply _. Defined.
Definition same_target (a b : InputReleaseJob) : bool := (ij_JobID a ==? ij_JobID b) && (ij_AttemptID a ==? ij_AttemptID b).
Fixpoint targets_distinct (prior : option InputReleaseJob) (jobs : list InputReleaseJob) : bool :=
  match jobs with
  | [] => true
  | j :: jobs =>
      if negb (ID_Valid (ij_JobID j)) || negb (ReleaseRequest_Valid (ij_Request j))
         || match prior with Some p => same_target j p | None => false end
      then false else targets_distinct (Some j) jobs
  end.
(** The normalised request, or nothing. [sort.Slice] may order equal targets
    either way; a request that has some is refused. *)
Definition Normalize (confirm : bool) (r : InputReleaseRequest) : option InputReleaseRequest :=
  if (Z.of_nat (length (ir_Jobs r)) <? 1) || (MaxInputReleaseJobs <? Z.of_nat (length (ir_Jobs r)))
     || confirm && negb (SHA256Digest_Valid (ir_PreviewSHA256 r)) || negb confirm && (ir_PreviewSHA256 r <>? "")
  then None else
  let jobs := merge_sort job_le (ir_Jobs r) in
  if targets_distinct None jobs then Some (mkInputReleaseRequest jobs (ir_PreviewSHA256 r)) else None.
Record InputReleasePreview := mkInputReleasePreview {
  iv_WorkspaceID : string; iv_Jobs : list InputReleaseJob; iv_Files : Z; iv_ReleasableBytes : Z; iv_PreviewSHA256 : string;
  iv_MeasuredAt : Time }.
Record InputReleaseReceipt := mkInputReleaseReceipt {
  ie_WorkspaceID : string; ie_Request : InputReleaseRequest; ie_ReleasedAt : Time; ie_Files : Z; ie_Bytes : Z;
  ie_PendingFiles : Z; ie_ReclaimedBytes : Z }.

(** ** Calls *)
Inductive rcall : Type -> Type :=
  | RetCtxErr : rcall (option error)
  | RetToken (digest : string) : rcall (result error TokenRecord)
  | RetWorkspace (id : string) : rcall (result error Workspace)
  | StoreIdentity (kind : RetentionKind) : rcall (result error string)
  | DeleteBlob (kind : RetentionKind) (m : ObjectMetadata) : rcall (result error bool)
  | BindRetentionStores (inputs results : string) : rcall (option error)
  | ExpireRetention (p : RetentionPolicy) (limit : Z) : rcall (result error SweepReport)
  | PendingRetention (after limit : Z) : rcall (result error DeletionPage)
  | CompleteRetention (d : Deletion) : rcall (option error)
  | AdmitResultRelease (w token job key : string) (r : ReleaseRequest) : rcall (result error (ReleaseReceipt * list Deletion))
  | ReadResultRelease (w token job key : string) (r : ReleaseRequest) : rcall (result error ReleaseReceipt)
  | PreviewInputRelease (w token : string) (r : InputReleaseRequest) : rcall (result error InputReleasePreview)
  | AdmitInputRelease (w token key : string) (r : InputReleaseRequest) : rcall (result error (InputReleaseReceipt * list Deletion))
  | ReadInputRelease (w token key : string) (r : InputReleaseRequest) : rcall (result error InputReleaseReceipt).
#[export] Instance rcall_auth : AuthCalls rcall :=
  {| AccessCtxErr := RetCtxErr; LookupToken := RetToken; LookupWorkspace := RetWorkspace |}.

(** ** The sweep *)
Definition bind_stores : service rcall unit :=
  try inputID <- perform (StoreIdentity RetainInput) ;;
  try resultID <- perform (StoreIdentity RetainResult) ;;
  refuse (inputID ==? resultID) || negb (ID_Valid inputID) || negb (ID_Valid resultID) with retention_ErrInvalid ;;
  check_error (perform (BindRetentionStores inputID resultID)).
(** The store of a deletion: the results' for a result, else the inputs'. *)
Definition deletion_store (d : Deletion) : RetentionKind := if dl_Kind d ==? RetainResult then RetainResult else RetainInput.
Definition count_pending (r : SweepReport) : SweepReport :=
  mkSweepReport (sw_Examined r) (sw_Expired r) (sw_Deleted r) (sw_AlreadyAbsent r) (sw_Pending r + 1).
Definition count_deleted (absent : bool) (r : SweepReport) : SweepReport :=
  if absent then mkSweepReport (sw_Examined r) (sw_Expired r) (sw_Deleted r) (sw_AlreadyAbsent r + 1) (sw_Pending r)
  else mkSweepReport (sw_Examined r) (sw_Expired r) (sw_Deleted r + 1) (sw_AlreadyAbsent r) (sw_Pending r).
(** The loop over a page; the answer is the report, the cursor and the error. *)
Fixpoint sweep_items (after next : Z) (report : SweepReport) (failures : list error) (items : list Deletion) :
    prog rcall (SweepReport * Z * option error) :=
  match items with
  | [] => mret (report, next, Join (map Some failures))
  | d :: items =>
      if negb (Deletion_Valid d) then mret (report, after, Some retention_ErrInvalid) else
      r ← perform (DeleteBlob (deletion_store d) (dl_Object d));
      match r with
      | Err err => sweep_items after next (count_pending report) (failures ++ [err]) items
      | Ok absent =>
          e ← perform (CompleteRetention d);
          match e with
          | Some err => sweep_items after next (count_pending report) (failures ++ [err]) items
          | None => sweep_items after next (count_deleted absent report) failures items
          end
      end
  end.
Definition no_report : SweepReport := mkSweepReport 0 0 0 0 0.
Definition SweepOnce (policy : RetentionPolicy) (after limit : Z) : prog rcall (SweepReport * Z * option error) :=
  if negb (RetentionPolicy_Valid policy) || (after <? 0) || (limit <? 1) || (100 <? limit)
  then mret (no_report, after, Some retention_ErrInvalid) else
  bound ← bind_stores;
  match bound with
  | Err err => mret (no_report, after, Some err)
  | Ok _ =>
      r ← perform (ExpireRetention policy limit);
      match r with
      | Err err => mret (no_report, after, Some err)
      | Ok report =>
          p ← perform (PendingRetention after limit);
          match p with
          | Err err => mret (report, after, Some err)
          | Ok page =>
              let items := pg_Items page in
              if (limit <? Z.of_nat (length items)) || (0 <? Z.of_nat (length items)) && (pg_NextAfter page <=? after)
              then mret (report, after, Some retention_ErrInvalid)
              else sweep_items after (pg_NextAfter page) report [] items
          end
      end
  end.

(** ** Releases *)
(** The loop over the admitted deletions: [true] unless one is invalid. *)
Fixpoint release_items (kind : RetentionKind) (w : string) (pending : list Deletion) : prog rcall bool :=
  match pending with
  | [] => mret true
  | d :: pending =>
      if (dl_Kind d <>? kind) || negb (Deletion_Valid d) || (om_WorkspaceID (dl_Object d) <>? w) then mret false else
      r ← perform (DeleteBlob kind (dl_Object d));
      match r with
      | Err _ =>
          ctx ← perform RetCtxErr;
          match ctx with Some _ => mret true | None => release_items kind w pending end
      | Ok _ =>
          e ← perform (CompleteRetention d);
          match e with Some _ => mret true | None => release_items kind w pending end
      end
  end.
(** After the loop: the receipt is read again unless the context ended. *)
Definition finish_release {A} (kind : RetentionKind) (w : string) (pending : list Deletion) (read : rcall (result error A)) : service rcall A :=
  refuse ReleasePageSize <? Z.of_nat (length pending) with retention_ErrInvalid ;;
  ok ← release_items kind w pending;
  refuse negb ok with retention_ErrInvalid ;;
  try _ <- check_error (perform RetCtxErr) ;;
  perform read.
Definition Releaser_Release (p : Principal) (w job key : string) (request : ReleaseRequest) : service rcall ReleaseReceipt :=
  try fresh <- authorize p w ScopeOperate ;;
  match KeyDigest key with
  | Err _ => fail_with retention_ErrInvalid
  | Ok keyHash =>
      refuse negb (ID_Valid job) || negb (ReleaseRequest_Valid request) with retention_ErrInvalid ;;
      try _ <- bind_stores ;;
      try '(_, pending) <- perform (AdmitResultRelease w (pr_tokenID fresh) job keyHash request) ;;
      finish_release RetainResult w pending (ReadResultRelease w (pr_tokenID fresh) job keyHash request)
  end.
Definition InputReleaser_Preview (p : Principal) (w : string) (request : InputReleaseRequest) : service rcall InputReleasePreview :=
  try fresh <- authorize p w ScopeRead ;;
  match Normalize false request with
  | None => fail_with retention_ErrInvalid
  | Some request => perform (PreviewInputRelease w (pr_tokenID fresh) request)
  end.
Definition InputReleaser_Release (p : Principal) (w key : string) (request : InputReleaseRequest) : service rcall InputReleaseReceipt :=
  try fresh <- authorize p w ScopeOperate ;;
  match KeyDigest key, Normalize true request with
  | Ok digest, Some request =>
      try _ <- bind_stores ;;
      try '(_, pending) <- perform (AdmitInputRelease w (pr_tokenID fresh) digest request) ;;
      finish_release RetainInput w pending (ReadInputRelease w (pr_tokenID fresh) digest request)
  | _, _ => fail_with retention_ErrInvalid
  end.
