(* ===== verification/RetentionProps.v ===== *)
(** * Expiry is conservative

    An object expires only when nothing that used it is unresolved and every
    window has passed; bytes are deleted only after the repository has marked
    them, and a deletion is reported done only after the bytes are gone; the
    order in which the jobs of a release are named does not matter. *)

From S2P Require Import Prelude Effects GoStrings GoTime GoSha256 GoJson JsonRead Canonical Identifiers Problems AttemptStates AttemptRuns Attempts DomainRecords Auth AuthProps Retention.
#[local] Open Scope string_scope.
#[local] Open Scope list_scope.
#[local] Open Scope Z_scope.
#[local] Open Scope bool_scope.

(** ** Eligibility *)
Definition settled_reference (r : Reference) : Prop :=
  rf_Busy r = false /\ rf_RecoveryRequired r = false /\ terminal_orch (as_Orchestration (rf_State r)) /\
  as_RemoteActivity (rf_State r) ∈ [RemoteActivityInactive; RemoteActivityNotStarted] /\
  (terminal_exec (as_Execution (rf_State r)) -> as_Result (rf_State r) ∈ [ResultAvailable; ResultExpired]).
Lemma ReleaseBlocker_spec r : ReleaseBlocker r = "" <-> settled_reference r.
Proof.
  unfold ReleaseBlocker, settled_reference, terminal_orch, terminal_exec. destruct (rf_Busy r); [split; [done|by intros [? _]]|].
  destruct (OrchestrationState_Terminal _); cbn [negb orb]; [|split; [done|by intros (_ & _ & ? & _)]].
  destruct (as_RemoteActivity (rf_State r)); cbn; try (split; [done|]; intros (_ & _ & _ & H & _); set_solver);
    destruct (rf_RecoveryRequired r); cbn; try (by split; [done|intros (_ & ? & _)]);
    destruct (ExecutionState_Terminal _); cbn; destruct (as_Result (rf_State r)); cbn; set_solver.
Qed.
Definition latest (p : RetentionPolicy) (due : Time) (refs : list Reference) : Time :=
  foldr (fun r due => Z.max (rf_UpdatedAt r + rp_CompletedFor p) due) due refs.
(** The latest of the times before which the object must be kept. *)
Definition due_time (p : RetentionPolicy) (recordedAt : Time) (refs : list Reference) : Time :=
  match refs with
  | [] => recordedAt + rp_UnreferencedFor p
  | _ => latest p (recordedAt + rp_CompletedFor p) refs
  end.
Definition usable_reference (now : Time) (r : Reference) : bool :=
  negb (not_nil (AttemptState_Validate (rf_State r)) || IsZero (rf_UpdatedAt r) || After (rf_UpdatedAt r) now).
Definition blocked (r : Reference) : bool := ReleaseBlocker r <>? "".
Lemma assess_unblocked p now refs : forall due,
  forallb (usable_reference now) refs = true -> forallb (fun r => negb (blocked r)) refs = true ->
  assess_references p now due refs =
  let due := latest p due refs in
  Ok (mkRetentionDecision (due <=? now) (if due <=? now then "retention_elapsed" else "retention_window") due).
Proof.
  induction refs as [|r refs IH]; intros due Hu Hb; cbn [assess_references forallb] in *.
  - change (latest p due []) with due. unfold Before. destruct (Z.leb_spec due now), (Z.ltb_spec now due); try lia; done.
  - apply andb_true_iff in Hu as [Hr Hu], Hb as [Hrb Hb]. unfold usable_reference, blocked in *. apply negb_true_iff in Hr. rewrite Hr.
    apply negb_true_iff in Hrb. rewrite Hrb. rewrite IH by done. unfold After.
    assert (latest p (if due <? rf_UpdatedAt r + rp_CompletedFor p then rf_UpdatedAt r + rp_CompletedFor p else due) refs
            = latest p due (r :: refs)) as ->; [|done].
    unfold latest. cbn [foldr]. clear. destruct (Z.ltb_spec due (rf_UpdatedAt r + rp_CompletedFor p)); induction refs as [|x refs IH]; cbn; lia.
Qed.
Lemma assess_eligible p now refs : forall due d,
  assess_references p now due refs = Ok d -> de_Eligible d = true ->
  forallb (usable_reference now) refs = true /\ forallb (fun r => negb (blocked r)) refs = true.
Proof.
  induction refs as [|r refs IH]; intros due d; cbn [assess_references forallb]; [done|]. unfold usable_reference at 1, blocked at 1.
  destruct (_ || _); [done|]. destruct (_ <>? _); [intros [= <-]; done|]. intros H He. destruct (IH _ _ H He) as [-> ->]. done.
Qed.
Lemma assess_window p now refs : forall due d,
  assess_references p now due refs = Ok d -> de_Reason d = "retention_window" ->
  forallb (usable_reference now) refs = true /\ forallb (fun r => negb (blocked r)) refs = true.
Proof.
  induction refs as [|r refs IH]; intros due d; cbn [assess_references forallb]; [done|]. unfold usable_reference at 1, blocked at 1.
  destruct (_ || _); [done|]. case_bool_decide as Hb; cbn [negb].
  - intros H He. destruct (IH _ _ H He) as [-> ->]. done.
  - intros [= <-]. cbn. unfold ReleaseBlocker in *. by repeat case_match.
Qed.
Lemma assess_usable p now refs : forall due d, assess_references p now due refs = Ok d ->
  forallb (fun r => negb (blocked r)) refs = true -> forallb (usable_reference now) refs = true.
Proof.
  induction refs as [|r refs IH]; intros due d; cbn [assess_references forallb]; [done|]. unfold usable_reference at 1, blocked at 1.
  destruct (_ || _); [done|]. destruct (_ <>? _); [done|]. intros H He. cbn [negb andb] in *. by eapply IH.
Qed.

(** C32: When an object is assessed it is eligible for expiry
    exactly when every reference to it is settled (no local work, terminal,
    nothing remote, no recovery required, its results collected or expired)
    and the time due has come, which is the latest of the record's and the references' windows. A
    refusal because of the window names exactly that time: assessing the same
    references at any later time finds the object eligible once it has come,
    and not before. *)
Theorem assess_exact p now recordedAt refs d :
  Assess p now recordedAt refs = Ok d ->
  (de_Eligible d = true <-> Forall settled_reference refs /\ due_time p recordedAt refs <= now) /\
  (de_Reason d = "retention_window" -> de_NotBefore d = due_time p recordedAt refs /\ now < de_NotBefore d /\
     forall later, now <= later -> IsZero later = false -> exists d', Assess p later recordedAt refs = Ok d' /\ de_Eligible d' = (de_NotBefore d <=? later)).
Proof.
  unfold Assess. destruct (_ || _) eqn:E; [done|]. cbv zeta.
  set (start := if bool_decide (refs = []) then _ else _).
  assert (latest p start refs = due_time p recordedAt refs) as Hdue by (unfold start; by destruct refs).
  assert (Forall settled_reference refs <-> forallb (fun r => negb (blocked r)) refs = true) as Hset.
  { rewrite forallb_forall, Forall_forall. setoid_rewrite list_elem_of_In. unfold blocked. setoid_rewrite negb_involutive.
    setoid_rewrite bool_decide_eq_true. by setoid_rewrite ReleaseBlocker_spec. }
  intros H. split; [split|].
  - intros He. destruct (assess_eligible _ _ _ _ _ H He) as [Hu Hb]. rewrite assess_unblocked in H by done. injection H as <-. cbn in He.
    rewrite Hdue in He. split; [by apply Hset|by apply Z.leb_le].
  - intros [Hs Ht]. apply Hset in Hs. rewrite assess_unblocked in H; [|by eapply assess_usable|done]. injection H as <-. cbn.
    rewrite Hdue. by apply Z.leb_le.
  - intros Hr. destruct (assess_window _ _ _ _ _ H Hr) as [Hu Hb]. rewrite assess_unblocked in H by done. injection H as <-. cbn in Hr |- *.
    rewrite Hdue in *. destruct (Z.leb_spec (due_time p recordedAt refs) now) as [|Hlt]; [done|]. split_and!; [done|done|].
    intros later Hl Hz. bool_to_prop. unfold IsZero, After in *. replace (_ || _) with false.
    + rewrite assess_unblocked; [|clear -Hu Hl|done].
      * eexists. split; [done|]. cbn. rewrite Hdue. done.
      * rewrite forallb_forall in *. intros r Hr. specialize (Hu r Hr). unfold usable_reference, After in *.
        apply negb_true_iff in Hu. apply negb_true_iff. apply orb_false_iff in Hu as [Hu1 Hu2]. rewrite Hu1. cbn. apply Z.ltb_ge in Hu2. apply Z.ltb_ge. lia.
    + symmetry. rewrite !orb_false_iff, negb_false_iff. split_and!; try done; lia.
Qed.
Definition sample_reference : Reference :=
  mkReference (InitialAttemptState <| as_Orchestration := OrchestrationFailed |>) (1000 * Second) false false false.
Lemma assess_exact_witness :
  let now := 1000 * Second + Hour in let p := DefaultRetentionPolicy in
  exists d, Assess p now (1000 * Second) [sample_reference] = Ok d /\ de_Reason d = "retention_window" /\ now < de_NotBefore d.
Proof.
  intros now p. eexists. assert (Assess p now (1000 * Second) [sample_reference] = Ok _) as H by (vm_compute; reflexivity).
  split; [exact H|]. split; [reflexivity|]. exact (proj1 (proj2 (proj2 (assess_exact _ _ _ _ _ H) eq_refl))).
Defined.

(** ** Deletions *)
Inductive deletion_event :=
  | Bound | Expires | Marked (l : list Deletion) | Deletes (d : Deletion) | Deleted (d : Deletion) | Completes (d : Deletion)
  | Reported (r : SweepReport).
#[export] Instance rcall_deletions : Observed rcall deletion_event := {|
  called X e :=
    match e with
    | ExpireRetention _ _ => [Expires]
    | DeleteBlob k m => [Deletes (mkDeletion k m)]
    | CompleteRetention d => [Completes d]
    | _ => []
    end;
  answered X e :=
    match e in rcall X return X -> list deletion_event with
    | BindRetentionStores _ _ => fun r => match r with None => [Bound] | Some _ => [] end
    | ExpireRetention _ _ => fun r => match r with Ok report => [Reported report] | Err _ => [] end
    | DeleteBlob k m => fun r => match r with Ok _ => [Deleted (mkDeletion k m)] | Err _ => [] end
    | PendingRetention _ _ => fun r => match r with Ok page => [Marked (pg_Items page)] | Err _ => [] end
    | AdmitResultRelease _ _ _ _ _ => fun r => match r with Ok (_, l) => [Marked l] | Err _ => [] end
    | AdmitInputRelease _ _ _ _ => fun r => match r with Ok (_, l) => [Marked l] | Err _ => [] end
    | _ => fun _ => []
    end |}.
(** The stores are bound before anything is marked or expires; what is deleted
    was marked by the repository in this run and is what the caller may
    delete; what is completed was deleted, and not completed before. *)
Record sweep_state := mkSweepState { sv_bound : bool; sv_marked : list Deletion; sv_deleted : option Deletion; sv_report : SweepReport }.
Definition sweep_step (mine : Deletion -> bool) (s : sweep_state) (e : deletion_event) : option sweep_state :=
  match e with
  | Bound => Some (mkSweepState true (sv_marked s) (sv_deleted s) (sv_report s))
  | Expires => if sv_bound s then Some s else None
  | Marked l => if sv_bound s then Some (mkSweepState true l None (sv_report s)) else None
  | Deletes d => if bool_decide (d ∈ sv_marked s) && mine d then Some (mkSweepState (sv_bound s) (sv_marked s) None (sv_report s)) else None
  | Deleted d => Some (mkSweepState (sv_bound s) (sv_marked s) (Some d) (sv_report s))
  | Completes d => if sv_deleted s ==? Some d then Some (mkSweepState (sv_bound s) (sv_marked s) None (sv_report s)) else None
  | Reported r => Some (mkSweepState (sv_bound s) (sv_marked s) (sv_deleted s) r)
  end.
Definition fresh_sweep : sweep_state := mkSweepState false [] None no_report.
Definition swept {R} mine (t : prog rcall R) s Q := obeys (sweep_step mine) (fun _ _ (_ : rcall _) _ => True) t s Q.
Definition anything {R} (_ : R) (_ : sweep_state) : Prop := True.

Lemma swept_call {X R} mine (e : rcall X) (k : X -> prog rcall R) s s1 Q :
  feed (sweep_step mine) s (called e) = Some s1 ->
  (forall x, exists s2, feed (sweep_step mine) s1 (answered e x) = Some s2 /\ swept mine (k x) s2 Q) -> swept mine (Call e k) s Q.
Proof. intros H1 H2. exists s1. split; [done|]. intros x _. apply H2. Qed.
Lemma swept_silent {X R} mine (e : rcall X) (k : X -> prog rcall R) s Q :
  called (L := deletion_event) e = [] -> (forall x, answered (L := deletion_event) e x = []) -> (forall x, swept mine (k x) s Q) -> swept mine (Call e k) s Q.
Proof. intros H1 H2 H. apply (swept_call _ _ _ _ s); [by rewrite H1|]. intros x. exists s. by rewrite H2. Qed.
Lemma swept_delete {R} mine k m (c : result error bool -> prog rcall R) s Q :
  mkDeletion k m ∈ sv_marked s -> mine (mkDeletion k m) = true ->
  (forall e, swept mine (c (Err e)) (mkSweepState (sv_bound s) (sv_marked s) None (sv_report s)) Q) ->
  (forall b, swept mine (c (Ok b)) (mkSweepState (sv_bound s) (sv_marked s) (Some (mkDeletion k m)) (sv_report s)) Q) ->
  swept mine (Call (DeleteBlob k m) c) s Q.
Proof.
  intros Hm Hd HE HO. eapply swept_call; [cbn; rewrite bool_decide_eq_true_2, Hd by done; done|].
  intros [b|e]; eexists; (split; [done|]); cbn; auto.
Qed.
Lemma swept_complete {R} mine d (c : option error -> prog rcall R) s Q :
  sv_deleted s = Some d -> (forall e, swept mine (c e) (mkSweepState (sv_bound s) (sv_marked s) None (sv_report s)) Q) ->
  swept mine (Call (CompleteRetention d) c) s Q.
Proof. intros Hd H. eapply swept_call; [cbn; rewrite bool_decide_eq_true_2 by done; done|]. intros e. eexists. split; [done|]. apply H. Qed.
Lemma swept_bind mine s (Q : result error unit -> sweep_state -> Prop) :
  Q (Ok tt) (mkSweepState true (sv_marked s) (sv_deleted s) (sv_report s)) -> (forall e s', Q (Err e) s') -> swept mine bind_stores s Q.
Proof.
  intros HO HE. unfold bind_stores. apply swept_silent; [done..|]. intros [i|e]; [|apply HE]. apply swept_silent; [done..|].
  intros [r|e]; [|apply HE]. cbn [prog_bind]. destruct (_ || _); [apply HE|]. apply (swept_call _ _ _ _ s); [done|].
  intros [e|]; eexists; (split; [done|]); [apply HE|exact HO].
Qed.
(** One error-returning step after another. *)
Lemma swept_try {A B} mine (m : service rcall A) (k : A -> service rcall B) s :
  swept mine m s (fun r s' => match r with Ok a => swept mine (k a) s' anything | Err _ => True end) -> swept mine (serve_bind k m) s anything.
Proof. intros H. apply obeys_bind. eapply obeys_mono; [exact H|]. intros [a|e] s'; cbn; [done|]. by intros _. Qed.

(** *** The sweep counts every item once *)
Definition counted (report report' : SweepReport) (n : nat) : Prop :=
  sw_Examined report' = sw_Examined report /\ sw_Expired report' = sw_Expired report /\
  sw_Deleted report' + sw_AlreadyAbsent report' + sw_Pending report' =
  sw_Deleted report + sw_AlreadyAbsent report + sw_Pending report + Z.of_nat n.
Definition sweep_mine (d : Deletion) : bool := Deletion_Valid d.
Lemma deletion_store_self d : Deletion_Valid d = true -> mkDeletion (deletion_store d) (dl_Object d) = d.
Proof.
  unfold Deletion_Valid, RetentionKind_Valid, deletion_store. intros H. apply andb_true_iff in H as [H _]. apply orb_true_iff in H.
  destruct d as [k o]; cbn in *. by destruct H as [H|H]; apply bool_decide_eq_true in H; subst k.
Qed.
Definition sweep_result (first : SweepReport) (after next : Z) (report : SweepReport) (items marked : list Deletion) (out : SweepReport * Z * option error) (s : sweep_state) : Prop :=
  let '(report', cursor, err) := out in
  cursor = after /\ err <> None \/ cursor = next /\ counted report report' (length items) /\ sv_marked s = marked /\ sv_report s = first.
Lemma sweep_items_swept first after next marked items : forall s report failures,
  sv_marked s = marked -> sv_report s = first -> (forall d, d ∈ items -> d ∈ marked) ->
  swept sweep_mine (sweep_items after next report failures items) s (sweep_result first after next report items marked).
Proof.
  induction items as [|d items IH]; intros s report failures Hs Hf Hm; cbn [sweep_items].
  - right. split_and!; [done| |done|done]. unfold counted. cbn. lia.
  - destruct (Deletion_Valid d) eqn:Ed; cbn [negb]; [|left; done].
    assert (forall report' s' f, counted report report' 1 -> sv_marked s' = marked -> sv_report s' = first ->
      swept sweep_mine (sweep_items after next report' f items) s' (sweep_result first after next report (d :: items) marked)) as HN.
    { intros report' s' f Hc Hs' Hf'. eapply obeys_mono; [apply IH; [done|done|set_solver]|]. intros [[r'' cursor] err] s''. unfold sweep_result. cbn [length].
      unfold counted in *. intros [?|(-> & ? & -> & ->)]; [by left|right]. split_and!; [done|lia..|done|done]. }
    cbn [mbind prog_mbind prog_bind perform]. apply swept_delete.
    + rewrite deletion_store_self by done. set_solver.
    + rewrite deletion_store_self by done. exact Ed.
    + intros e. apply HN; [unfold counted; cbn; lia|done|done].
    + intros b. apply swept_complete; [cbn; by rewrite deletion_store_self|]. intros [e|]; apply HN; try done; unfold counted; destruct b; cbn; lia.
Qed.

(** C33: In every run of a sweep, complete or cut, the two stores are
    bound first, only bytes that the repository has marked and listed in this
    very run are deleted, and a deletion is marked as completed only right
    after those bytes were found gone, at most once. A complete sweep either
    keeps its cursor and reports an error, or its report accounts for every
    listed item exactly once. *)
Theorem sweep_safe policy after limit l r :
  runs (SweepOnce policy after limit) l r ->
  exists s, feed (sweep_step Deletion_Valid) fresh_sweep l = Some s /\
    forall report cursor err, r = Some (report, cursor, err) ->
      cursor = after /\ err <> None \/
      counted (sv_report s) report (length (sv_marked s)) /\ (after < cursor \/ sv_marked s = []).
Proof.
  intros Hr.
  assert (swept sweep_mine (SweepOnce policy after limit) fresh_sweep (fun '(report, cursor, err) s =>
    cursor = after /\ err <> None \/ counted (sv_report s) report (length (sv_marked s)) /\ (after < cursor \/ sv_marked s = []))) as Ho.
  { unfold SweepOnce. destruct (_ || _); [by left|]. apply obeys_bind. apply swept_bind; [|intros; by left].
    eapply swept_call; [done|]. intros [report|e]; eexists; (split; [done|]); [|by left]. cbn [prog_bind].
    eapply swept_call; [done|]. intros [page|e]; eexists; (split; [done|]); [|by left]. cbn [prog_bind]. cbv zeta.
    destruct (_ || _) eqn:E; [by left|]. bool_to_prop. eapply obeys_mono; [by apply (sweep_items_swept report _ _ (pg_Items page))|].
    intros [[report' cursor] err] s. unfold sweep_result. intros [?|(-> & Hc & -> & ->)]; [by left|right]. split; [done|].
    destruct (pg_Items page); [by right|left].
    match goal with H : (_ && _) = false |- _ => apply andb_false_iff in H as [H|H]; bool_to_prop; cbn [length] in H; lia end. }
  apply (runs_fair (sweep_step sweep_mine) (fun _ _ (_ : rcall _) _ => True) _ fresh_sweep _) with (2 := Ho) in Hr; [|done].
  destruct (obeys_runs _ _ _ _ _ _ _ Ho Hr) as (s & Hf & HQ). exists s. split; [exact Hf|]. intros report cursor err E. exact (HQ _ E).
Qed.
Definition stored_object : ObjectMetadata := mkObjectMetadata "obj-1" "ws-1" 3 (sha256_hex "abc").
Definition sweep_env (s : sweep_state) (X : Type) (e : rcall X) : option X :=
  match e in rcall X return option X with
  | StoreIdentity k => Some (Ok (if k ==? RetainInput then "store-inputs" else "store-results"))
  | BindRetentionStores _ _ => Some None
  | ExpireRetention _ _ => Some (Ok (mkSweepReport 1 1 0 0 0))
  | PendingRetention _ _ => Some (Ok (mkDeletionPage [mkDeletion RetainResult stored_object] 7))
  | DeleteBlob _ _ => Some (Ok false)
  | CompleteRetention _ => Some None
  | _ => None
  end.
Definition sample_sweep := play (sweep_step Deletion_Valid) sweep_env (SweepOnce DefaultRetentionPolicy 0 10) fresh_sweep.
Lemma sweep_safe_witness :
  sample_sweep.2 = Some (mkSweepReport 1 1 1 0 0, 7, None) /\
  exists s, feed (sweep_step Deletion_Valid) fresh_sweep sample_sweep.1 = Some s /\
    counted (sv_report s) (mkSweepReport 1 1 1 0 0) (length (sv_marked s)).
Proof.
  assert (runs (SweepOnce DefaultRetentionPolicy 0 10) sample_sweep.1 sample_sweep.2) as Hr.
  { eapply fair_runs_runs. apply (play_fair (sweep_step Deletion_Valid) (fun _ _ (_ : rcall _) _ => True) sweep_env). done. }
  assert (sample_sweep.2 = Some (mkSweepReport 1 1 1 0 0, 7, None)) as E by (vm_compute; reflexivity).
  split; [exact E|]. destruct (sweep_safe _ _ _ _ _ Hr) as (s & Hf & HQ). exists s. split; [exact Hf|].
  destruct (HQ _ _ _ E) as [[? ?]|[? _]]; [done|assumption].
Defined.

(** *** Releases *)
Definition release_mine (kind : RetentionKind) (w : string) (d : Deletion) : bool :=
  (dl_Kind d ==? kind) && Deletion_Valid d && (om_WorkspaceID (dl_Object d) ==? w).
Lemma release_items_swept kind w pending : forall s,
  (forall d, d ∈ pending -> d ∈ sv_marked s) -> swept (release_mine kind w) (release_items kind w pending) s anything.
Proof.
  induction pending as [|d pending IH]; intros s Hm; cbn [release_items]; [done|]. destruct (_ || _) eqn:E; [done|]. bool_to_prop.
  cbn [mbind prog_mbind prog_bind perform]. assert (mkDeletion kind (dl_Object d) = d) as Ed by (destruct d; cbn in *; congruence).
  apply swept_delete.
  - rewrite Ed. set_solver.
  - rewrite Ed. unfold release_mine. rewrite !bool_decide_eq_true_2 by done. by rewrite andb_true_r.
  - intros e. apply swept_silent; [done..|]. intros [?|]; [done|]. apply IH. set_solver.
  - intros b. apply swept_complete; [cbn; by rewrite Ed|]. intros [?|]; [done|]. apply IH. set_solver.
Qed.
Lemma silent_authorize mine p w sc s : swept mine (authorize p w sc) s (fun _ s' => s' = s).
Proof.
  unfold authorize, Revalidate, lookup, enabled, serve_bind, check_error. destruct (_ || _); [done|]. cbn [perform prog_bind].
  apply swept_silent; [done..|]. intros [e|]; cbn [prog_bind]; [done|]. cbn [mbind prog_mbind perform prog_bind]. apply swept_silent; [done..|].
  intros [rec|e]; [|by destruct (errors_Is _ _)]. destruct (_ || _ || _ || _ || _); [done|]. cbn [prog_bind]. apply swept_silent; [done..|].
  intros x. cbn [mret prog_ret prog_bind]. destruct (match x with Ok w => _ | Err e => _ end); [done|]. cbn [prog_bind].
  destruct (_ || _); [done|]. cbn [prog_bind]. by destruct (auth_Require _ _ _).
Qed.
Lemma finish_release_swept {A} kind w pending (read : rcall (result error A)) s :
  called (L := deletion_event) read = [] -> (forall x, answered (L := deletion_event) read x = []) ->
  (forall d, d ∈ pending -> d ∈ sv_marked s) -> swept (release_mine kind w) (finish_release kind w pending read) s anything.
Proof.
  intros H1 H2 Hm. unfold finish_release. destruct (_ <? _); [done|]. apply obeys_bind. eapply obeys_mono; [by apply release_items_swept|].
  intros ok s' _. destruct (negb ok); [done|]. apply swept_try. apply swept_silent; [done..|]. intros [e|]; [done|]. by apply swept_silent.
Qed.
Lemma swept_authorized {A} mine p w sc (k : Principal -> service rcall A) s :
  (forall fresh, swept mine (k fresh) s anything) -> swept mine (serve_bind k (authorize p w sc)) s anything.
Proof. intros H. apply swept_try. eapply obeys_mono; [apply silent_authorize|]. intros [fresh|e] s' ->; [apply H|done]. Qed.
Lemma swept_bound {A} mine (k : unit -> service rcall A) s :
  swept mine (k tt) (mkSweepState true (sv_marked s) (sv_deleted s) (sv_report s)) anything -> swept mine (serve_bind k bind_stores) s anything.
Proof. intros H. apply swept_try. by apply swept_bind. Qed.
Lemma swept_runs {R} mine (t : prog rcall R) l r :
  swept mine t fresh_sweep anything -> runs t l r -> exists s, feed (sweep_step mine) fresh_sweep l = Some s.
Proof.
  intros Ho Hr. apply (runs_fair (sweep_step mine) (fun _ _ (_ : rcall _) _ => True) _ fresh_sweep _) with (2 := Ho) in Hr; [|done].
  destruct (obeys_runs _ _ _ _ _ _ _ Ho Hr) as (s & Hf & _). by exists s.
Qed.

(** In every run of an explicit release, complete or cut, the
    stores are bound first, only bytes that the repository has marked for this
    release are deleted, they are results (or inputs) of the workspace named
    by the request, and each is reported completed only right after it was
    found gone, at most once. *)
Theorem release_safe p w job key :
  (forall request l r, runs (Releaser_Release p w job key request) l r ->
     exists s, feed (sweep_step (release_mine RetainResult w)) fresh_sweep l = Some s) /\
  (forall request l r, runs (InputReleaser_Release p w key request) l r ->
     exists s, feed (sweep_step (release_mine RetainInput w)) fresh_sweep l = Some s).
Proof.
  split; intros request l r; apply swept_runs.
  - unfold Releaser_Release. apply swept_authorized. intros fresh. destruct (KeyDigest key) as [h|e]; [|done]. destruct (_ || _); [done|].
    apply swept_bound, swept_try. eapply swept_call; [done|]. intros [[receipt pending]|e]; eexists; (split; [done|]); [|done].
    by apply finish_release_swept.
  - unfold InputReleaser_Release. apply swept_authorized. intros fresh. destruct (KeyDigest key) as [h|e]; [|done].
    destruct (Normalize true request) as [q|]; [|done].
    apply swept_bound, swept_try. eapply swept_call; [done|]. intros [[receipt pending]|e]; eexists; (split; [done|]); [|done].
    by apply finish_release_swept.
Qed.
Definition release_request : ReleaseRequest := mkReleaseRequest "attempt-1" "artifact-1" (sha256_hex "abc").
Definition release_receipt : ReleaseReceipt := mkReleaseReceipt "ws-1" "job-1" release_request 1 1 3 0 3.
Definition release_env (s : sweep_state) (X : Type) (e : rcall X) : option X :=
  match e in rcall X return option X with
  | RetCtxErr => Some None
  | RetToken d => Some (Ok (mkTokenRecord "tok-1" "ws-1" d [ScopeOperate] 1 zero_time false))
  | RetWorkspace id => Some (Ok (mkWorkspace id true []))
  | AdmitResultRelease _ _ _ _ _ => Some (Ok (release_receipt, [mkDeletion RetainResult stored_object]))
  | ReadResultRelease _ _ _ _ _ => Some (Ok release_receipt)
  | e => sweep_env s _ e
  end.
Definition release_caller : Principal := mkPrincipal "tok-1" "ws-1" (sha256_hex "secret") [].
Definition sample_release :=
  play (sweep_step (release_mine RetainResult "ws-1")) release_env (Releaser_Release release_caller "ws-1" "job-1" "key-12345" release_request) fresh_sweep.
Lemma release_safe_witness :
  sample_release.2 = Some (Ok release_receipt) /\ Completes (mkDeletion RetainResult stored_object) ∈ sample_release.1 /\
  exists s, feed (sweep_step (release_mine RetainResult "ws-1")) fresh_sweep sample_release.1 = Some s.
Proof.
  assert (runs (Releaser_Release release_caller "ws-1" "job-1" "key-12345" release_request) sample_release.1 sample_release.2) as Hr.
  { eapply fair_runs_runs. apply (play_fair (sweep_step (release_mine RetainResult "ws-1")) (fun _ _ (_ : rcall _) _ => True) release_env). done. }
  split; [vm_compute; reflexivity|]. split; [apply (list_elem_of_lookup_2 _ 4); vm_compute; reflexivity|].
  exact (proj1 (release_safe release_caller "ws-1" "job-1" "key-12345") _ _ _ Hr).
Defined.

(** ** Release requests *)
Definition target (j : InputReleaseJob) : string * string := (ij_JobID j, ij_AttemptID j).
Definition target_lt (a b : string * string) : Prop := str_lt a.1 b.1 \/ a.1 = b.1 /\ str_lt a.2 b.2.
#[export] Instance target_lt_strict : StrictOrder target_lt.
Proof.
  split.
  - intros a [H|[_ H]]; by apply (irreflexivity str_lt) in H.
  - intros [a1 a2] [b1 b2] [c1 c2]; unfold target_lt; cbn. intros [H|[-> H]] [H'|[-> H']]; [left; by transitivity b1|by left..|].
    right. split; [done|]. by transitivity b2.
Qed.
Lemma target_lt_total a b : target_lt a b \/ a = b \/ target_lt b a.
Proof.
  destruct a as [a1 a2], b as [b1 b2]; unfold target_lt; cbn.
  destruct (str_lt_total a1 b1) as [|[->|]], (str_lt_total a2 b2) as [|[->|]]; auto.
Qed.
Lemma job_le_alt a b : job_le a b <-> target_lt (target a) (target b) \/ target a = target b.
Proof.
  unfold job_le, target_lt, target; cbn. case_bool_decide as E.
  - rewrite E. split.
    + intros H. destruct (str_lt_total (ij_AttemptID a) (ij_AttemptID b)) as [|[->|Hl]]; auto.
      unfold str_lt in Hl. by rewrite str_ltb_leb, H in Hl.
    + intros [[H|[_ H]]|[= H]]; [by apply (irreflexivity str_lt) in H| |by rewrite H, str_leb_refl].
      destruct (String.leb_total (ij_AttemptID a) (ij_AttemptID b)) as [H'|H']; [done|].
      unfold str_lt in H. rewrite str_ltb_leb in H. fold (str_leb (ij_AttemptID b) (ij_AttemptID a)) in H'. by rewrite H' in H.
  - fold (str_lt (ij_JobID a) (ij_JobID b)). split; [auto|]. intros [[H|[H _]]|[= H]]; done.
Qed.
#[export] Instance job_le_total : Total job_le.
Proof. intros a b. rewrite !job_le_alt. destruct (target_lt_total (target a) (target b)) as [|[|]]; auto. Qed.
#[export] Instance job_le_trans : Transitive job_le.
Proof.
  intros a b c. rewrite !job_le_alt. intros [H1| ->] [H2|H2]; auto.
  - left. by transitivity (target b).
  - rewrite <- H2. auto.
Qed.
Lemma job_le_antisym a b : job_le a b -> job_le b a -> target a = target b.
Proof.
  rewrite !job_le_alt. intros [H1|H1] [H2|H2]; auto.
  exfalso. apply (irreflexivity target_lt (target a)). by transitivity (target b).
Qed.
Definition job_valid (j : InputReleaseJob) : bool := ID_Valid (ij_JobID j) && ReleaseRequest_Valid (ij_Request j).
Lemma same_target_alt a b : same_target a b = true <-> target a = target b.
Proof. unfold same_target, target. rewrite andb_true_iff, !bool_decide_eq_true. split; [intros [-> ->]|intros [= -> ->]]; done. Qed.

(** On a sorted list, comparing neighbours finds every repeated target. *)
Lemma targets_distinct_alt prior l :
  StronglySorted job_le l -> match prior with Some p => Forall (job_le p) l | None => True end ->
  targets_distinct prior l = true <->
    Forall (fun j => job_valid j = true) l /\ NoDup (map target l) /\
    match prior with Some p => target p ∉ map target l | None => True end.
Proof.
  revert prior. induction l as [|j l IH]; intros prior Hs Hp; cbn [targets_distinct map].
  { split; [intros _|done]. repeat split; [constructor..|]. destruct prior; [apply not_elem_of_nil|done]. }
  apply StronglySorted_inv in Hs as [Hs Hj]. specialize (IH (Some j) Hs Hj).
  assert (negb (ID_Valid (ij_JobID j)) || negb (ReleaseRequest_Valid (ij_Request j)) = negb (job_valid j)) as ->
    by (unfold job_valid; by rewrite negb_andb).
  rewrite Forall_cons, NoDup_cons. destruct (job_valid j) eqn:Ev; [|by split; [|intros [[]]]].
  cbn [negb orb]. destruct prior as [p|]; [|rewrite IH; tauto].
  apply Forall_cons in Hp as [Hpj Hp]. destruct (same_target j p) eqn:Es.
  - apply same_target_alt in Es. rewrite <- Es, not_elem_of_cons. split; [done|]. tauto.
  - assert (target j <> target p) as Hne by (intros H%same_target_alt; congruence).
    rewrite IH, not_elem_of_cons. split; [|tauto]. intros (Hv & Hn & Hi). repeat split; auto.
    intros (k & Hk & Hin)%list_elem_of_fmap. rewrite Forall_forall in Hj. apply Hne, job_le_antisym; [|done].
    specialize (Hj _ Hin). rewrite !job_le_alt in *. rewrite Hk. tauto.
Qed.
Lemma sort_jobs_perm (l l' : list InputReleaseJob) :
  NoDup (map target l) -> l' ≡ₚ l -> merge_sort job_le l' = merge_sort job_le l.
Proof.
  intros Hn Hp. apply (Sorted_unique_strong job_le).
  - intros a b Ha Hb H1 H2. rewrite merge_sort_Permutation, Hp in Ha. rewrite merge_sort_Permutation in Hb.
    pose proof (job_le_antisym _ _ H1 H2) as E.
    apply list_elem_of_lookup_1 in Ha as [i Hi]. apply list_elem_of_lookup_1 in Hb as [j Hj].
    assert (i = j) as ->; [|congruence].
    apply (NoDup_lookup (map target l) i j (target a)); [done|..]; rewrite list_lookup_fmap; [by rewrite Hi|by rewrite Hj, E].
  - apply Sorted_merge_sort, _.
  - apply Sorted_merge_sort, _.
  - by rewrite !merge_sort_Permutation.
Qed.
Lemma distinct_sorted l :
  targets_distinct None (merge_sort job_le l) = true <-> Forall (fun j => job_valid j = true) l /\ NoDup (map target l).
Proof.
  rewrite targets_distinct_alt; [|apply (StronglySorted_merge_sort job_le)|done].
  rewrite (merge_sort_Permutation job_le l). tauto.
Qed.

(** An input-release request is judged as a set of targets:
    the order of its jobs changes neither whether it is accepted nor the
    normalised request, which holds exactly the given jobs, one per job and
    attempt, in the order of their identifiers, and normalises to itself. *)
Theorem normalize_order confirm jobs preview :
  (forall jobs', jobs' ≡ₚ jobs -> Normalize confirm (mkInputReleaseRequest jobs' preview) = Normalize confirm (mkInputReleaseRequest jobs preview)) /\
  match Normalize confirm (mkInputReleaseRequest jobs preview) with
  | Some q =>
      ir_Jobs q ≡ₚ jobs /\ ir_PreviewSHA256 q = preview /\ StronglySorted target_lt (map target (ir_Jobs q)) /\
      Normalize confirm q = Some q
  | None =>
      ~ (1 <= Z.of_nat (length jobs) <= MaxInputReleaseJobs) \/ (if confirm then SHA256Digest_Valid preview = false else preview <> "") \/
      Exists (fun j => job_valid j = false) jobs \/ ~ NoDup (map target jobs)
  end.
Proof.
  assert (forall l l' : list InputReleaseJob, l' ≡ₚ l ->
    Normalize confirm (mkInputReleaseRequest l' preview) = Normalize confirm (mkInputReleaseRequest l preview)) as Hperm.
  { intros l l' Hp. unfold Normalize; cbn [ir_Jobs ir_PreviewSHA256]. rewrite (Permutation_length Hp). destruct (_ || _); [done|].
    destruct (targets_distinct None (merge_sort job_le l)) eqn:E.
    - rewrite (sort_jobs_perm l l'); [by rewrite E|by apply distinct_sorted in E as []|done].
    - destruct (targets_distinct None (merge_sort job_le l')) eqn:E'; [|done].
      rewrite distinct_sorted, Hp, <- distinct_sorted in E'. congruence. }
  split; [by apply Hperm|]. destruct (Normalize confirm _) as [q|] eqn:E.
  - pose proof E as E0. unfold Normalize in E; cbn [ir_Jobs ir_PreviewSHA256] in E. destruct (_ || _); [done|].
    destruct (targets_distinct _ _) eqn:Ed; [|done]. injection E as <-. cbn [ir_Jobs ir_PreviewSHA256].
    split; [apply merge_sort_Permutation|]. split; [done|]. split.
    + apply distinct_sorted in Ed as [_ Hn]. rewrite <- (merge_sort_Permutation job_le jobs) in Hn.
      pose proof (StronglySorted_merge_sort job_le jobs) as Hs. clear E0. revert Hn Hs.
      induction (merge_sort job_le jobs) as [|j l IH]; cbn; [constructor|]. intros [Hj Hn]%NoDup_cons [Hs Hl]%StronglySorted_inv.
      constructor; [by apply IH|]. apply Forall_map, Forall_forall. intros k Hk. rewrite Forall_forall in Hl.
      specialize (Hl k Hk). apply job_le_alt in Hl as [|Heq]; [done|]. destruct Hj. rewrite Heq. by apply list_elem_of_fmap_2.
    + rewrite <- E0. apply Hperm, merge_sort_Permutation.
  - unfold Normalize in E; cbn [ir_Jobs ir_PreviewSHA256] in E. destruct (_ || _) eqn:Ec.
    + rewrite !orb_true_iff, !andb_true_iff in Ec. destruct Ec as [[[H|H]|[-> H]]|[H0 H]].
      * left. apply Z.ltb_lt in H. lia.
      * left. apply Z.ltb_lt in H. lia.
      * right. left. by apply negb_true_iff in H.
      * destruct confirm; [done|]. right. left. intros ->. done.
    + right. right. destruct (targets_distinct _ _) eqn:Ed; [done|].
      destruct (decide (Forall (fun j => job_valid j = true) jobs)) as [Hv|Hv].
      * right. intros Hn. rewrite (proj2 (distinct_sorted jobs)) in Ed; done.
      * left. apply not_Forall_Exists in Hv; [|apply _]. eapply Exists_impl; [exact Hv|]. intros j. cbn. by rewrite not_true_iff_false.
Qed.
Definition release_jobs : list InputReleaseJob := [mkInputReleaseJob "job-2" release_request; mkInputReleaseJob "job-1" release_request].
Lemma normalize_order_witness :
  Normalize false (mkInputReleaseRequest release_jobs "") = Some (mkInputReleaseRequest (reverse release_jobs) "") /\
  Normalize false (mkInputReleaseRequest (reverse release_jobs) "") = Normalize false (mkInputReleaseRequest release_jobs "").
Proof.
  split; [vm_compute; reflexivity|]. destruct (normalize_order false release_jobs "") as [H _].
  exact (H _ (reverse_Permutation _)).
Defined.
