(* ===== verification/ControlOps.v ===== *)
(** * Control requests

    [internal/operations/model.go] and [resources.go]: the requests by which a
    caller cancels, retries, reconciles, collects or cleans up one attempt,
    their canonical text and digest, the durable record of such an operation,
    and when computing again is allowed. *)

From S2P Require Import Prelude GoStrings GoTime GoSha256 GoJson JsonRead Canonical JsonWire Identifiers Problems AttemptStates Attempts Operations DomainRecords Provider ProviderResources Admission.
#[local] Open Scope string_scope.
#[local] Open Scope list_scope.
#[local] Open Scope Z_scope.
#[local] Open Scope bool_scope.

Definition control_MaxRequestBytes : Z := 4096.
Definition control_Version (kind : OperationKind) : string :=
  if kind ==? OperationCleanup then "cleanup/v1" else "control/v1".
Definition control_ErrRequest : error := ENew "invalid control request".
Definition control_ErrNotFound : error := ENew "operation or attempt not found".
Definition ErrUnresolved : error := ENew "remote execution is unresolved".
Definition ErrCollect : error := ENew "recover results without rerunning successful compute".
Definition ErrInputs : error := ENew "original immutable inputs are unavailable".
Definition control_ErrState : error := ENew "control is not appropriate for the current state".

(** ** Requests *)
Record ControlRequest := mkControlRequest {
  cq_AttemptID : string; cq_Reason : string; cq_DiscardUncollected : bool; cq_SubmissionResolution : string;
  cq_ResourceName : string }.
#[export] Instance ControlRequest_eq_dec : EqDecision ControlRequest.
Proof. solve_decision. Defined.

Definition Supported (kind : OperationKind) : bool :=
  (kind ==? OperationCancel) || (kind ==? OperationRetryCompute) || (kind ==? OperationReconcile)
  || (kind ==? OperationCollect) || (kind ==? OperationCleanup).
Definition ValidString (s : string) : bool := utf8_valid (length (bytes_of s)) (bytes_of s).
(** [unicode.IsControl] of some rune: the control characters of ASCII and the
    ones U+0080 to U+009F, which take two bytes. *)
Fixpoint has_control (l : list ascii) : bool :=
  match l with
  | [] => false
  | c :: l' =>
      (byte_val c <? 32) || (byte_val c =? 127)
      || (byte_val c =? 194) && match l' with d :: _ => between 128 159 (byte_val d) | [] => false end
      || has_control l'
  end.
Definition ControlRequest_Validate (r : ControlRequest) (kind : OperationKind) : option error :=
  reject ((cq_SubmissionResolution r <>? "") || (cq_ResourceName r <>? ""))
         && ((kind <>? OperationReconcile)
             || (cq_SubmissionResolution r <>? "absent") && (cq_SubmissionResolution r <>? "present")
             || negb (ValidResourceName (cq_ResourceName r)))
    with control_ErrRequest ;;
  reject negb (Supported kind) || negb (ID_Valid (cq_AttemptID r)) || negb (ValidString (cq_Reason r))
         || (512 <? len (cq_Reason r))
    with control_ErrRequest ;;
  reject has_control (bytes_of (cq_Reason r)) with control_ErrRequest ;;
  reject (kind <>? OperationCleanup) && cq_DiscardUncollected r with control_ErrRequest ;;
  reject (kind ==? OperationRetryCompute) && (TrimSpace (cq_Reason r) ==? "") with control_ErrRequest ;;
  None.
Definition dec_control (f : list (string * jvalue)) : option ControlRequest :=
  id ← dec_str (member "attempt_id" f); reason ← dec_str (member "reason" f);
  discard ← dec_bool (member "discard_uncollected" f); resolution ← dec_str (member "submission_resolution" f);
  name ← dec_str (member "resource_name" f);
  Some (mkControlRequest id reason discard resolution name).
Definition control_optional (kind : OperationKind) : list string :=
  ["reason"] ++ (if kind ==? OperationReconcile then ["submission_resolution"; "resource_name"] else [])
  ++ (if kind ==? OperationCleanup then ["discard_uncollected"] else []).
Definition control_Parse (kind : OperationKind) (raw : string) : result error ControlRequest :=
  match Object raw control_MaxRequestBytes with
  | Err _ => Err control_ErrRequest
  | Ok fields =>
      throw not_nil (Fields fields ["attempt_id"] (control_optional kind)) with control_ErrRequest ;;
      match dec_control fields with
      | None => Err control_ErrRequest
      | Some r => throw not_nil (ControlRequest_Validate r kind) with control_ErrRequest ;; Ok r
      end
  end.

(** The members that are encoded: a cleanup writes its flag always and first. *)
Definition json_control (r : ControlRequest) (kind : OperationKind) : json :=
  if kind ==? OperationCleanup then
    JObj ([("attempt_id", JStr (cq_AttemptID r)); ("discard_uncollected", JBool (cq_DiscardUncollected r))]
          ++ str_field "reason" (cq_Reason r))
  else
    JObj ([("attempt_id", JStr (cq_AttemptID r))] ++ str_field "reason" (cq_Reason r)
          ++ bool_field "discard_uncollected" (cq_DiscardUncollected r)
          ++ str_field "submission_resolution" (cq_SubmissionResolution r)
          ++ str_field "resource_name" (cq_ResourceName r)).
Definition control_CanonicalJSON (r : ControlRequest) (kind : OperationKind) : result error string :=
  throw not_nil (ControlRequest_Validate r kind) with control_ErrRequest ;;
  Ok (Marshal (json_control r kind)).
(** What is hashed: encoding the canonical text again changes none of it. *)
Definition control_document (r : ControlRequest) (job : string) (kind : OperationKind) : json :=
  JObj [("version", JStr (control_Version kind)); ("job_id", JStr job); ("kind", JStr (OperationKind_string kind));
        ("request", json_control r kind)].
Definition control_Digest (r : ControlRequest) (job : string) (kind : OperationKind) : result error string :=
  throw negb (ID_Valid job) || not_nil (ControlRequest_Validate r kind) with control_ErrRequest ;;
  Ok (sha256_hex (Marshal (control_document r job kind))).

(** ** Cleaned resources *)
Definition MaxCleanupResources : Z := 2.
Inductive ResourceState :=
  | ResourcePending | ResourceRunning | ResourceDeleted | ResourceAbsent | ResourceRetained | ResourceFailed
  | ResourceUnknown | ResourceStateOther (raw : string).
#[export] Instance ResourceState_eq_dec : EqDecision ResourceState.
Proof. solve_decision. Defined.
Definition ResourceState_Valid (s : ResourceState) : bool :=
  match s with ResourceStateOther _ => false | _ => true end.
Definition ResourceState_Confirmed (s : ResourceState) : bool := (s ==? ResourceDeleted) || (s ==? ResourceAbsent).
Record ResourceResult := mkResourceResult {
  rr_ResourceID : string; rr_Purpose : string; rr_Fingerprint : string; rr_State : ResourceState; rr_Reason : string }.
(** The pattern [^[a-z][a-z0-9_]{0,95}$]. *)
Definition resourceReason (s : string) : bool :=
  match bytes_of s with
  | [] => false
  | c :: l =>
      is_lower (byte_val c) && (Z.of_nat (length l) <=? 95)
      && forallb (fun c => is_lower (byte_val c) || is_digit (byte_val c) || (byte_val c =? 95)) l
  end.
Definition ResourceResult_Valid (r : ResourceResult) : bool :=
  ID_Valid (rr_ResourceID r) && ((rr_Purpose r ==? "staging") || (rr_Purpose r ==? "execution"))
  && SHA256Digest_Valid (rr_Fingerprint r) && ResourceState_Valid (rr_State r) && resourceReason (rr_Reason r).

(** ** Records *)
Inductive Effect :=
  | EffectPending | RemoteDeleted | AlreadyAbsent | DispatchPrevented | CancellationRequested
  | CancellationConfirmed | TooLate | ObservationRefreshed | SubmissionResolvedAbsent | CollectionRequested
  | ResultsAvailable | NewAttemptCreated | ManualRequired | EffectFailed | EffectOther (raw : string).
#[export] Instance Effect_eq_dec : EqDecision Effect.
Proof. solve_decision. Defined.
Definition Effect_Valid (e : Effect) : bool := match e with EffectOther _ => false | _ => true end.
Record OperationRecord := mkOperationRecord {
  or_Operation : Operation; or_Effect : Effect; or_NewAttemptID : string; or_TerminationConfirmed : bool;
  or_Replay : bool; or_Resources : list ResourceResult }.
Fixpoint resources_distinct (seen : list string) (l : list ResourceResult) : bool :=
  match l with
  | [] => true
  | resource :: l =>
      if negb (ResourceResult_Valid resource) || bool_decide (rr_ResourceID resource ∈ seen) then false
      else resources_distinct (rr_ResourceID resource :: seen) l
  end.
(** The switch on the status: an effect the kind may have in that status. *)
Definition effect_fits (r : OperationRecord) : bool :=
  let kind := op_Kind (or_Operation r) in let e := or_Effect r in
  match op_Status (or_Operation r) with
  | OperationAccepted => (e ==? EffectPending) || (kind ==? OperationCollect) && (e ==? CollectionRequested)
  | OperationRunning =>
      (kind ==? OperationCancel) && (e ==? CancellationRequested) || (kind ==? OperationCleanup) && (e ==? EffectPending)
  | OperationFailed => e ==? EffectFailed
  | OperationManualRequired => negb ((kind ==? OperationCleanup) || (e <>? ManualRequired))
  | OperationSucceeded =>
      match kind with
      | OperationCleanup => (e ==? RemoteDeleted) || (e ==? AlreadyAbsent)
      | OperationCancel => (e ==? DispatchPrevented) || (e ==? CancellationConfirmed) || (e ==? TooLate)
      | OperationRetryCompute => (e ==? NewAttemptCreated) && (or_NewAttemptID r <>? "")
      | OperationReconcile => (e ==? ObservationRefreshed) || (e ==? SubmissionResolvedAbsent)
      | OperationCollect => e ==? ResultsAvailable
      | _ => true
      end
  | OperationStatusOther _ => true
  end.
Definition OperationRecord_Validate (r : OperationRecord) : option error :=
  let o := or_Operation r in
  reject not_nil (Operation_Validate o) || negb (Supported (op_Kind o)) || negb (Effect_Valid (or_Effect r))
         || negb (ID_Valid (op_JobID o)) || negb (ID_Valid (op_AttemptID o))
         || (MaxCleanupResources <? Z.of_nat (length (or_Resources r)))
         || (op_Kind o <>? OperationCleanup) && negb (Z.of_nat (length (or_Resources r)) =? 0)
    with control_ErrRequest ;;
  reject negb (resources_distinct [] (or_Resources r)) with control_ErrRequest ;;
  reject (or_NewAttemptID r <>? "")
         && (negb (ID_Valid (or_NewAttemptID r)) || (op_Kind o <>? OperationRetryCompute)
             || (or_NewAttemptID r ==? op_AttemptID o) || (or_Effect r <>? NewAttemptCreated))
    with control_ErrRequest ;;
  reject negb (Bool.eqb (or_TerminationConfirmed r) (or_Effect r ==? CancellationConfirmed)) with control_ErrRequest ;;
  reject negb (effect_fits r) with control_ErrRequest ;;
  None.

(** ** Computing again *)
Definition RetryAllowed (s : AttemptState) : option error :=
  reject not_nil (AttemptState_Validate s) with control_ErrState ;;
  reject (as_RemoteActivity s <>? RemoteActivityNotStarted) && (as_RemoteActivity s <>? RemoteActivityInactive)
    with ErrUnresolved ;;
  reject as_Execution s ==? ExecutionSucceeded with ErrCollect ;;
  reject negb (OrchestrationState_Terminal (as_Orchestration s)) with ErrUnresolved ;;
  reject (as_Execution s <>? ExecutionNotSubmitted) && negb (ExecutionState_Terminal (as_Execution s))
    with ErrUnresolved ;;
  None.
