(* ===== verification/ExecutionAuth.v ===== *)
(** * Execution authorization

    [internal/executionauth/model.go] and [gate.go]: the requests by which the
    owner of an attempt permits its preparation and its start, their digests
    and receipts, and the gate that holds them. *)

From S2P Require Import Prelude GoStrings GoTime GoSha256 GoJson JsonRead Canonical JsonWire Identifiers Problems AttemptStates Attempts DomainRecords Provider ProviderResources Admission.
#[local] Open Scope string_scope.
#[local] Open Scope list_scope.
#[local] Open Scope Z_scope.
#[local] Open Scope bool_scope.

Definition auth_MaxRequestBytes : Z := 4096.
Definition auth_CanonicalVersion : string := "execution-authorization/v1".
Definition auth_ErrRequest : error := ENew "invalid execution authorization request".

(** ** The combined permit *)
Record AuthRequest := mkAuthRequest {
  aq_AttemptID : string; aq_MaxRemoteWallSeconds : Z; aq_AuthorizePrivateStaging : bool;
  aq_AuthorizeCompute : bool }.
Definition AuthRequest_Validate (r : AuthRequest) : option error :=
  reject negb (ID_Valid (aq_AttemptID r)) || (aq_MaxRemoteWallSeconds r <? 1)
         || (MaxRemoteWallSeconds <? aq_MaxRemoteWallSeconds r)
         || negb (aq_AuthorizePrivateStaging r) || negb (aq_AuthorizeCompute r)
    with auth_ErrRequest ;;
  None.
Definition dec_auth (f : list (string * jvalue)) : option AuthRequest :=
  id ← dec_str (member "attempt_id" f); wall ← dec_int (member "max_remote_wall_seconds" f);
  staging ← dec_bool (member "authorize_private_staging" f); compute ← dec_bool (member "authorize_compute" f);
  Some (mkAuthRequest id wall staging compute).
(** What the three parsers share: the wire checks, the decoding, the
    validation; every failure is the same error. *)
Definition parse_request {A} (raw : string) (required optional : list string)
    (decode : list (string * jvalue) -> option A) (validate : A -> option error) : result error A :=
  match Object raw auth_MaxRequestBytes with
  | Err _ => Err auth_ErrRequest
  | Ok fields =>
      throw not_nil (Fields fields required optional) with auth_ErrRequest ;;
      match decode fields with
      | None => Err auth_ErrRequest
      | Some r => throw not_nil (validate r) with auth_ErrRequest ;; Ok r
      end
  end.
Definition AuthRequest_Parse (raw : string) : result error AuthRequest :=
  parse_request raw ["attempt_id"; "max_remote_wall_seconds"; "authorize_private_staging"; "authorize_compute"] []
    dec_auth AuthRequest_Validate.
Definition json_auth (r : AuthRequest) : json :=
  JObj [("attempt_id", JStr (aq_AttemptID r)); ("max_remote_wall_seconds", JInt (aq_MaxRemoteWallSeconds r));
        ("authorize_private_staging", JBool (aq_AuthorizePrivateStaging r));
        ("authorize_compute", JBool (aq_AuthorizeCompute r))].
Definition AuthRequest_Digest (r : AuthRequest) (job : string) : result error string :=
  throw negb (ID_Valid job) || not_nil (AuthRequest_Validate r) with auth_ErrRequest ;;
  Ok (sha256_hex (Marshal (JObj [("Version", JStr auth_CanonicalVersion); ("Job", JStr job); ("Request", json_auth r)]))).

(** ** Prepare and start *)
Definition MaxPreparationSeconds : Z := 3600.
Definition MaxReadyHold : Duration := Hour.
Definition MaxStagedBytes : Z := 4 * 2 ^ 30 + 100 * 2 ^ 20.
Record PrepareRequest := mkPrepareRequest {
  pq_AttemptID : string; pq_MaxPreparationSeconds : Z; pq_ReadyUntil : string; pq_MaxStagedBytes : Z;
  pq_AuthorizePrivateStaging : bool }.
(** The text is written with the suffix [Z] exactly when the location is UTC. *)
Definition gate_canonicalTime (raw : string) : option Time := CanonicalTime raw.
Definition PrepareRequest_Validate (r : PrepareRequest) : option error :=
  reject negb (ID_Valid (pq_AttemptID r)) || (pq_MaxPreparationSeconds r <? 1)
         || (MaxPreparationSeconds <? pq_MaxPreparationSeconds r) || is_nil (gate_canonicalTime (pq_ReadyUntil r))
         || (pq_MaxStagedBytes r <? 1) || (MaxStagedBytes <? pq_MaxStagedBytes r)
         || negb (pq_AuthorizePrivateStaging r)
    with auth_ErrRequest ;;
  None.
Record StartRequest := mkStartRequest {
  sq_SecretAuthorizationID : string; sq_AttemptID : string; sq_ReadinessRevision : string;
  sq_MaxRemoteWallSeconds : Z; sq_ExecutionDeadline : string; sq_AuthorizeCompute : bool }.
Definition StartRequest_Validate (r : StartRequest) : option error :=
  reject (sq_SecretAuthorizationID r <>? "") && negb (ID_Valid (sq_SecretAuthorizationID r))
         || negb (ID_Valid (sq_AttemptID r)) || negb (SHA256Digest_Valid (sq_ReadinessRevision r))
         || (sq_MaxRemoteWallSeconds r <? 1) || (MaxRemoteWallSeconds <? sq_MaxRemoteWallSeconds r)
         || is_nil (gate_canonicalTime (sq_ExecutionDeadline r)) || negb (sq_AuthorizeCompute r)
    with auth_ErrRequest ;;
  None.
Definition dec_prepare (f : list (string * jvalue)) : option PrepareRequest :=
  id ← dec_str (member "attempt_id" f); seconds ← dec_int (member "max_preparation_seconds" f);
  until ← dec_str (member "ready_until" f); bytes ← dec_int (member "max_staged_bytes" f);
  staging ← dec_bool (member "authorize_private_staging" f);
  Some (mkPrepareRequest id seconds until bytes staging).
Definition ParsePrepare (raw : string) : result error PrepareRequest :=
  parse_request raw ["attempt_id"; "max_preparation_seconds"; "ready_until"; "max_staged_bytes"; "authorize_private_staging"]
    [] dec_prepare PrepareRequest_Validate.
Definition dec_start (f : list (string * jvalue)) : option StartRequest :=
  secret ← dec_str (member "secret_authorization_id" f); id ← dec_str (member "attempt_id" f);
  revision ← dec_str (member "readiness_revision" f); wall ← dec_int (member "max_remote_wall_seconds" f);
  deadline ← dec_str (member "execution_deadline" f); compute ← dec_bool (member "authorize_compute" f);
  Some (mkStartRequest secret id revision wall deadline compute).
(** The last check needs the members of the object again. *)
Definition ParseStart (raw : string) : result error StartRequest :=
  do r <- parse_request raw
            ["attempt_id"; "readiness_revision"; "max_remote_wall_seconds"; "execution_deadline"; "authorize_compute"]
            ["secret_authorization_id"] dec_start StartRequest_Validate ;;
  do fields <- Object raw auth_MaxRequestBytes ;;
  throw not_nil (member "secret_authorization_id" fields) && negb (ID_Valid (sq_SecretAuthorizationID r))
    with auth_ErrRequest ;;
  Ok r.
Definition json_prepare (r : PrepareRequest) : json :=
  JObj [("attempt_id", JStr (pq_AttemptID r)); ("max_preparation_seconds", JInt (pq_MaxPreparationSeconds r));
        ("ready_until", JStr (pq_ReadyUntil r)); ("max_staged_bytes", JInt (pq_MaxStagedBytes r));
        ("authorize_private_staging", JBool (pq_AuthorizePrivateStaging r))].
Definition json_start_request (r : StartRequest) : json :=
  JObj (str_field "secret_authorization_id" (sq_SecretAuthorizationID r) ++
        [("attempt_id", JStr (sq_AttemptID r)); ("readiness_revision", JStr (sq_ReadinessRevision r));
         ("max_remote_wall_seconds", JInt (sq_MaxRemoteWallSeconds r));
         ("execution_deadline", JStr (sq_ExecutionDeadline r)); ("authorize_compute", JBool (sq_AuthorizeCompute r))]).
Definition GateDigest (kind job : string) (request : json) : string :=
  Digest (Marshal (JObj [("Version", JStr "execution-gate/v1"); ("Kind", JStr kind); ("Job", JStr job);
                         ("Request", request)])).

(** ** Receipts *)
Inductive AuthStatus := Granted | AuthConsumed | Revoked | AuthStatusOther (raw : string).
#[export] Instance AuthStatus_eq_dec : EqDecision AuthStatus.
Proof. solve_decision. Defined.
Definition consumption_ok (status : AuthStatus) (created : Time) (consumed : option Time) : bool :=
  Bool.eqb (status ==? AuthConsumed) (not_nil consumed)
  && negb (match consumed with Some at_ => Before at_ created | None => false end).
Record AuthReceipt := mkAuthReceipt {
  ap_AuthorizationID : string; ap_WorkspaceID : string; ap_JobID : string; ap_AttemptID : string;
  ap_Status : AuthStatus; ap_MaxRemoteWallSeconds : Z; ap_CreatedAt : Time; ap_ConsumedAt : option Time;
  ap_Replay : bool }.
Definition AuthReceipt_Validate (r : AuthReceipt) : option error :=
  reject negb (ID_Valid (ap_AuthorizationID r)) || negb (ID_Valid (ap_WorkspaceID r)) || negb (ID_Valid (ap_JobID r))
         || negb (ID_Valid (ap_AttemptID r)) || (ap_MaxRemoteWallSeconds r <? 1)
         || (MaxRemoteWallSeconds <? ap_MaxRemoteWallSeconds r) || IsZero (ap_CreatedAt r)
    with auth_ErrRequest ;;
  reject (ap_Status r <>? Granted) && (ap_Status r <>? AuthConsumed) && (ap_Status r <>? Revoked)
    with auth_ErrRequest ;;
  reject negb (consumption_ok (ap_Status r) (ap_CreatedAt r) (ap_ConsumedAt r)) with auth_ErrRequest ;;
  None.
Record GateReceipt := mkGateReceipt {
  gr_AuthorizationID : string; gr_WorkspaceID : string; gr_JobID : string; gr_AttemptID : string;
  gr_Kind : string; gr_Status : AuthStatus; gr_CreatedAt : Time; gr_ConsumedAt : option Time; gr_Replay : bool }.
Definition GateReceipt_Validate (r : GateReceipt) : option error :=
  reject negb (ID_Valid (gr_AuthorizationID r)) || negb (ID_Valid (gr_WorkspaceID r)) || negb (ID_Valid (gr_JobID r))
         || negb (ID_Valid (gr_AttemptID r)) || (gr_Kind r <>? "prepare") && (gr_Kind r <>? "start")
         || (gr_Status r <>? Granted) && (gr_Status r <>? AuthConsumed) || IsZero (gr_CreatedAt r)
         || negb (consumption_ok (gr_Status r) (gr_CreatedAt r) (gr_ConsumedAt r))
    with auth_ErrRequest ;;
  None.

(** ** The gate *)
Record Gate := mkGate {
  gt_Preparation : GateReceipt; gt_Request : PrepareRequest; gt_StagedBytes : Z; gt_ReadyRevision : string;
  gt_ReadyAt : option Time; gt_Start : option StartAuthorization; gt_StartReceipt : option GateReceipt }.
(** A time that does not parse is the zero time, which is always past. *)
Definition Gate_Expired (g : Gate) (now : Time) : bool :=
  let at_ := default zero_time (ParseRFC3339 (pq_ReadyUntil (gt_Request g))) in
  if negb (Before now at_) then true
  else match gt_Start g with
       | Some start => negb (Before now (default zero_time (ParseRFC3339 (sz_StartBefore start))))
       | None => false
       end.
