(* ===== verification/SecretPool.v ===== *)
(** * The workload secret pool

    [internal/workloadsecret/pool.go]: secret material held in memory between
    its supply and the one start that uses it. Go maps of byte slices are
    shared by reference and wiped in place, so they live in a store of their
    own: an entry of the pool holds the address of its values. Every operation
    runs under the pool's lock, its callbacks included: a callback is the
    answer it gives. The store holds the maps the pool allocates; the buffer
    [Supply] encodes the request into for its fingerprint, which it clears
    before it calls the repository, is not part of it. *)

From S2P Require Import Prelude GoStrings GoTime GoSha256 GoJson JsonRead Canonical Identifiers Problems AttemptStates Attempts DomainRecords Provider ProviderResources Admission.
#[local] Open Scope string_scope.
#[local] Open Scope list_scope.
#[local] Open Scope Z_scope.
#[local] Open Scope bool_scope.

#[export] Instance Key_eq_dec : EqDecision Key.
Proof. solve_decision. Defined.
#[export] Instance Key_countable : Countable Key.
Proof.
  refine (inj_countable' (fun k => (ky_WorkspaceID k, ky_JobID k, ky_AttemptID k)) (fun '(w, j, a) => mkKey w j a) _).
  by intros [].
Defined.

Definition MaxHeld : Z := 16.
Definition secret_ErrState : error := ENew "attempt is not eligible for workload secret supply".
Definition secret_ErrUnavailable : string := "required workload secret material is unavailable".
Definition secret_ErrLimit : error := ENew "ephemeral workload secret capacity reached".

(** ** HMAC-SHA256 *)
Fixpoint unhex (l : list ascii) : list ascii :=
  match l with
  | a :: b :: l' => byte_of (16 * default 0 (hex_value a) + default 0 (hex_value b)) :: unhex l'
  | _ => []
  end.
Definition hmac_pad (mask : Z) (key : list ascii) : list ascii :=
  map (fun b => byte_of (Z.lxor b mask)) (map byte_val key ++ replicate (64 - length key) 0).
(** [hex.EncodeToString] of the code, for keys of at most 64 bytes. *)
Definition hmac_hex (key message : string) : string :=
  let inner := sha256_hex (string_of (hmac_pad 54 (bytes_of key) ++ bytes_of message)) in
  sha256_hex (string_of (hmac_pad 92 (bytes_of key) ++ unhex (bytes_of inner))).
Example hmac_example :
  hmac_hex "Jefe" "what do ya want for nothing?" = "5bdcc146bf60754e6a042426089575c75a003f089d2739839dec58b964ec3843".
Proof. vm_compute. reflexivity. Qed.

(** [base64.StdEncoding]. *)
Definition base64_digit (z : Z) : ascii :=
  byte_of (if z <? 26 then 65 + z else if z <? 52 then 71 + z else if z <? 62 then z - 4 else if z =? 62 then 43 else 47).
Fixpoint base64 (l : list Z) : list ascii :=
  match l with
  | a :: b :: c :: l' =>
      base64_digit (a / 4) :: base64_digit (16 * (a `mod` 4) + b / 16) :: base64_digit (4 * (b `mod` 16) + c / 64)
      :: base64_digit (c `mod` 64) :: base64 l'
  | [a; b] => [base64_digit (a / 4); base64_digit (16 * (a `mod` 4) + b / 16); base64_digit (4 * (b `mod` 16)); byte_of 61]
  | [a] => [base64_digit (a / 4); base64_digit (16 * (a `mod` 4)); byte_of 61; byte_of 61]
  | [] => []
  end.
Definition base64_string (s : string) : string := string_of (base64 (map byte_val (bytes_of s))).

(** ** The pool *)
Definition values := gmap string string.
Record PoolMaterial := mkPoolMaterial {
  pm_AuthorizationID : string; pm_Key : Key; pm_ExpiresAt : string; pm_Values : nat }.
(** [po_store] holds the contents of every map ever allocated. *)
Record Pool := mkPool {
  po_key : string; po_entries : gmap Key PoolMaterial; po_closed : bool; po_store : list values }.
Definition with_entries (p : Pool) (entries : gmap Key PoolMaterial) : Pool :=
  mkPool (po_key p) entries (po_closed p) (po_store p).
Definition with_store (p : Pool) (store : list values) : Pool :=
  mkPool (po_key p) (po_entries p) (po_closed p) store.
Definition contents (p : Pool) (m : PoolMaterial) : values := default ∅ (po_store p !! pm_Values m).

Definition NewPool (key : string) : result error Pool :=
  throw negb (len key =? 32) with ErrRequest ;; Ok (mkPool key ∅ false []).
(** A new map with copies of the values. *)
Definition cloneValues (p : Pool) (v : values) : Pool * nat :=
  (with_store p (po_store p ++ [v]), length (po_store p)).
(** [Material.Clear] zeroes each value and deletes its member; here both are
    one step to the empty map, so a value that was only unlinked and one that
    was zeroed first are not told apart. *)
Definition Material_Clear (p : Pool) (m : PoolMaterial) : Pool := with_store p (<[pm_Values m := ∅]> (po_store p)).
Definition drop_key (p : Pool) (key : Key) : Pool :=
  match po_entries p !! key with
  | Some m => let p := Material_Clear p m in with_entries p (delete key (po_entries p))
  | None => p
  end.
Definition stale (now : Time) (m : PoolMaterial) : bool :=
  match CanonicalTime (pm_ExpiresAt m) with Some expires => negb (Before now expires) | None => true end.
(** Dropping entries one by one; the order of the map loop cannot be seen. *)
Definition drop_where (p : Pool) (bad : Key -> PoolMaterial -> bool) : Pool :=
  foldl (fun p km => if bad km.1 km.2 then drop_key p km.1 else p) p (map_to_list (po_entries p)).
Definition prune (p : Pool) (now : Time) : Pool := drop_where p (fun _ m => stale now m).
Definition available (p : Pool) (key : Key) (id : string) (now : Time) : bool * Pool :=
  let p := prune p now in
  (negb (po_closed p) && match po_entries p !! key with Some m => pm_AuthorizationID m ==? id | None => false end
   && ID_Valid id, p).

Definition json_key (k : Key) : json :=
  JObj [("WorkspaceID", JStr (ky_WorkspaceID k)); ("JobID", JStr (ky_JobID k)); ("AttemptID", JStr (ky_AttemptID k))].
Definition json_supply (r : Supply) : json :=
  JObj [("attempt_id", JStr (sp_AttemptID r)); ("readiness_revision", JStr (sp_ReadinessRevision r));
        ("expires_at", JStr (sp_ExpiresAt r)); ("values", json_map (base64_string <$> sp_Values r))].
Definition fingerprint (p : Pool) (key : Key) (request : Supply) : string :=
  hmac_hex (po_key p) (Marshal (JObj [("Version", JStr "workload-secret/v1"); ("Key", json_key key); ("Request", json_supply request)])).
Definition Receipt_Key (r : Receipt) : Key :=
  mkKey (rt_WorkspaceID r) (rt_JobID r) (md_AttemptID (rt_Metadata r)).

Definition Pool_Supply (p : Pool) (key : Key) (request : Supply) (now : Time)
    (persist : string -> Metadata -> result error (Receipt * bool)) : result error Receipt * Pool :=
  if po_closed p || negb (Key_Valid key) || (ky_AttemptID key <>? sp_AttemptID request)
     || not_nil (Supply_Validate request)
  then (Err ErrRequest, p) else
  let p := prune p now in
  let metadata := mkMetadata (sp_AttemptID request) (sp_ReadinessRevision request) (sp_ExpiresAt request)
                    (Supply_Names request) in
  match persist (fingerprint p key request) metadata with
  | Err e => (Err e, p)
  | Ok (receipt, usable) =>
      if not_nil (Receipt_Validate receipt) || (Receipt_Key receipt <>? key) then (Err secret_ErrState, p) else
      if negb usable then (Ok receipt, drop_key p key) else
      if is_nil (po_entries p !! key) && (MaxHeld <=? Z.of_nat (size (po_entries p))) then (Err secret_ErrLimit, p) else
      let p := drop_key p key in
      let '(p, loc) := cloneValues p (sp_Values request) in
      (Ok receipt, with_entries p (<[key := mkPoolMaterial (rt_AuthorizationID receipt) key (sp_ExpiresAt request) loc]> (po_entries p)))
  end.

(** [WithAvailability] passes the answer of [available] to its action under
    the lock; [Available] only reads it. A nil pool has nothing. *)
Definition WithAvailability (p : option Pool) (key : Key) (id : string) (now : Time) : bool * option Pool :=
  match p with None => (false, None) | Some p => let '(b, p) := available p key id now in (b, Some p) end.

(** [Pool.Claim]: [commit] is what the callback answers; [None] in the second
    component means it was not called. The last case cannot occur: the key was
    found available under the same lock. *)
Definition Pool_Claim (p : Pool) (key : Key) (id : string) (now : Time) (commit : option error)
    : result error PoolMaterial * option (option error) * Pool :=
  let '(ok, p) := available p key id now in
  if negb ok then (Err (ENew secret_ErrUnavailable), None, p) else
  match commit with
  | Some e => (Err e, Some commit, p)
  | None =>
      match po_entries p !! key with
      | Some m =>
          let '(p, loc) := cloneValues p (contents p m) in
          let m := mkPoolMaterial (pm_AuthorizationID m) (pm_Key m) (pm_ExpiresAt m) loc in
          (Ok m, Some commit, drop_key p key)
      | None => (Err (ENew secret_ErrUnavailable), Some commit, p)
      end
  end.
Definition Revoke (p : Pool) (key : Key) (id : string) (persist : result error Receipt) : result error Receipt * Pool :=
  (persist,
   match persist, po_entries p !! key with
   | Ok _, Some m => if pm_AuthorizationID m ==? id then drop_key p key else p
   | _, _ => p
   end).
Definition Sweep (p : Pool) (now : Time) (usable : Key -> string -> bool) : Pool :=
  drop_where (prune p now) (fun key m => negb (usable key (pm_AuthorizationID m))).
Definition Close (p : Pool) : Pool :=
  let p := drop_where p (fun _ _ => true) in
  mkPool (string_of (replicate (length (bytes_of (po_key p))) (byte_of 0))) (po_entries p) true (po_store p).
