(* ===== verification/Services.v ===== *)
(** * Application services

    The services behind the HTTP API: [operations/service.go], the service of
    [admission/model.go], [executionauth/service.go] and [gate_service.go],
    [objects/service.go], [joblogs/reader.go] and [workloadsecret/service.go].
    Every method authorizes its caller anew, checks the request and calls its
    repository; the repositories, stored bytes, providers and the clock are
    calls. The secret pool is the one of [SecretPool]. *)

From S2P Require Import Prelude Effects GoStrings GoTime GoSha256 GoJson JsonRead Canonical JsonWire Identifiers Problems AttemptStates Attempts Operations DomainRecords Provider ProviderResources Admission Auth ControlOps ExecutionAuth SecretPool.
#[local] Open Scope string_scope.
#[local] Open Scope list_scope.
#[local] Open Scope Z_scope.
#[local] Open Scope bool_scope.

(** ** Commands and answers *)
Record RetryInputs := mkRetryInputs { ri_Attempt : Attempt; ri_Objects : list FrozenObject }.
Record ControlCommand := mkControlCommand {
  cc_WorkspaceID : string; cc_TokenID : string; cc_JobID : string; cc_Kind : OperationKind;
  cc_Request : ControlRequest; cc_KeyDigest : string; cc_RequestHash : string; cc_Inputs : option RetryInputs;
  cc_Limits : Limits }.
Definition ControlCommand_Validate (c : ControlCommand) : option error :=
  match control_Digest (cc_Request c) (cc_JobID c) (cc_Kind c) with
  | Err _ => Some control_ErrRequest
  | Ok digest =>
      reject negb (ID_Valid (cc_WorkspaceID c)) || (cc_TokenID c ==? "") || negb (SHA256Digest_Valid (cc_KeyDigest c))
             || (digest <>? cc_RequestHash c) || negb (Limits_Valid (cc_Limits c))
        with control_ErrRequest ;;
      reject negb (Bool.eqb (cc_Kind c ==? OperationRetryCompute) (not_nil (cc_Inputs c))) with control_ErrRequest ;;
      None
  end.

Record Links := mkLinks { lk_Self : string; lk_Events : string; lk_Attempts : string; lk_Artifacts : string }.
(** [url.PathEscape]: what a path segment may hold is kept. *)
Definition path_safe (c : Z) : bool := alnum c || existsb (Z.eqb c) [45; 95; 46; 126; 36; 38; 43; 58; 61; 64].
Definition upper_hex (z : Z) : ascii := byte_of (if z <? 10 then 48 + z else 55 + z).
Definition PathEscape (s : string) : string :=
  string_of (flat_map (fun c => if path_safe (byte_val c) then [c]
                                else [byte_of 37; upper_hex (byte_val c / 16); upper_hex (byte_val c `mod` 16)]) (bytes_of s)).
Definition JobLinks (w j : string) : Links :=
  let base := "/v1/workspaces/" +:+ PathEscape w +:+ "/jobs/" +:+ PathEscape j in
  mkLinks base (base +:+ "/events") (base +:+ "/attempts") (base +:+ "/artifacts").
Record JobReceipt := mkJobReceipt {
  jt_JobID : string; jt_AttemptID : string; jt_Status : string; jt_CreatedAt : Time; jt_Replay : bool; jt_Links : Links }.
Record Requirement := mkRequirement { rm_Name : string; rm_Verification : string; rm_Reason : string }.
Record Validation := mkValidation {
  vl_Valid : bool; vl_Warnings : list string; vl_Requirements : list Requirement }.

Record AuthCommand := mkAuthCommand {
  ad_WorkspaceID : string; ad_TokenID : string; ad_JobID : string; ad_KeyDigest : string; ad_Request : AuthRequest }.
Definition AuthCommand_Validate (c : AuthCommand) : option error :=
  reject negb (ID_Valid (ad_WorkspaceID c)) || negb (ID_Valid (ad_TokenID c)) || negb (ID_Valid (ad_JobID c))
         || negb (SHA256Digest_Valid (ad_KeyDigest c)) || not_nil (AuthRequest_Validate (ad_Request c))
    with auth_ErrRequest ;;
  None.
Record GateCommand := mkGateCommand {
  gc_SecretAvailable : bool; gc_WorkspaceID : string; gc_TokenID : string; gc_JobID : string; gc_KeyDigest : string }.
Definition GateCommand_Validate (c : GateCommand) : option error :=
  reject negb (ID_Valid (gc_WorkspaceID c)) || negb (ID_Valid (gc_TokenID c)) || negb (ID_Valid (gc_JobID c))
         || negb (SHA256Digest_Valid (gc_KeyDigest c))
    with auth_ErrRequest ;;
  None.
Record SecretReadiness := mkSecretReadiness {
  sr_RequiredSlots : list Slot; sr_AuthorizationID : string; sr_Status : string; sr_ExpiresAt : string }.
Record Readiness := mkReadiness {
  rd_Secrets : option SecretReadiness; rd_AttemptID : string; rd_State : string; rd_Revision : string;
  rd_ObservedAt : option Time; rd_ReadyUntil : string; rd_StagedBytes : Z; rd_RequiredActions : list string }.
Record SecretCommand := mkSecretCommand {
  sd_WorkspaceID : string; sd_TokenID : string; sd_JobID : string; sd_KeyDigest : string }.
Definition SecretCommand_Validate (c : SecretCommand) : option error :=
  reject negb (ID_Valid (sd_WorkspaceID c)) || negb (ID_Valid (sd_TokenID c)) || negb (ID_Valid (sd_JobID c))
         || negb (SHA256Digest_Valid (sd_KeyDigest c))
    with ErrRequest ;;
  None.
Record LogAttempt := mkLogAttempt { la_Binding : BindingSnapshot; la_Remote : option RemoteReference }.

(** ** Calls *)
Inductive svc : Type -> Type :=
  | SvcCtxErr : svc (option error)
  | SvcNow : svc Time
  | SvcToken (digest : string) : svc (result error TokenRecord)
  | SvcWorkspace (id : string) : svc (result error Workspace)
  | SvcRandom (n : Z) : svc (option (list Z))
  (* stored bytes *)
  | OpenObject (w id : string) : svc bool
  | ReadObject (limit : Z) : svc (string * option error)
  | CloseObject : svc (option error)
  | PutBlob (declaration : ObjectMetadata) : svc (result error ObjectMetadata)
  | CommitObject (m : ObjectMetadata) : svc (option error)
  | GetObject (w id : string) : svc (result error ObjectMetadata)
  (* operations *)
  | ReplayOperation (w token : string) (kind : OperationKind) (key hash : string) : svc (result error (option OperationRecord))
  | ReadRetryInputs (w token job attempt : string) : svc (result error RetryInputs)
  | AdmitOperation (c : ControlCommand) : svc (result error OperationRecord)
  | ReadOperation (w token id : string) : svc (result error OperationRecord)
  (* jobs *)
  | PreflightAdmission (w token key : string) (r : Request) : svc (result error (option JobReceipt))
  | AdmitJob (w token key : string) (r : Request) (limits : Limits) : svc (result error JobReceipt)
  | ValidateAdmission (w token : string) (r : Request) : svc (result error Validation)
  | ReadJob (w token id : string) : svc (result error JobRecord)
  (* execution authorization *)
  | AuthorizeExecution (c : AuthCommand) : svc (result error AuthReceipt)
  | ReadExecutionAuthorization (w token job id : string) : svc (result error AuthReceipt)
  | PrepareExecution (c : GateCommand) (r : PrepareRequest) : svc (result error GateReceipt)
  | StartExecution (c : GateCommand) (r : StartRequest) : svc (result error GateReceipt)
  | ReadGateAuthorization (w token job id : string) : svc (result error GateReceipt)
  | ReadReadiness (w token job : string) : svc (result error Readiness)
  | MaterialAvailable (key : Key) (id : string) (now : Time) : svc bool
  (* workload secrets *)
  | SupplyWorkloadSecrets (c : SecretCommand) (m : Metadata) (fingerprint : string) : svc (result error (Receipt * bool))
  | RevokeWorkloadSecrets (c : SecretCommand) (attempt id : string) : svc (result error Receipt)
  | ReadWorkloadSecrets (w token job id : string) : svc (result error Receipt)
  (* logs *)
  | ReadLogAttempt (w token job attempt : string) : svc (result error LogAttempt)
  | ResolveAdapter (b : BindingSnapshot) : svc bool
  | AdapterInstance : svc string
  | VerifyAdapter (b : BindingSnapshot) : svc (option error)
  | ReadLogs (r : RemoteReference) (request : PageRequest) : svc (result error LogPage).
#[export] Instance svc_auth : AuthCalls svc :=
  {| AccessCtxErr := SvcCtxErr; LookupToken := SvcToken; LookupWorkspace := SvcWorkspace |}.
Definition svc_error {A} (r : result error A) : service svc A := Done r.
Definition from {A} (e : svc (result error A)) : service svc A := perform e.

(** ** Control operations *)
(** [operations/service.go]: the bytes of one object are read and compared. *)
Definition verifyBlob (m : ObjectMetadata) : service svc unit :=
  try _ <- check_error (perform SvcCtxErr) ;;
  opened ← perform (OpenObject (om_WorkspaceID m) (om_ID m));
  if negb opened then
    ctx ← perform SvcCtxErr; fail_with (default ErrInputs ctx)
  else
    '(data, readErr) ← perform (ReadObject (om_Bytes m + 1));
    closeErr ← perform CloseObject;
    try _ <- check_error (perform SvcCtxErr) ;;
    refuse not_nil readErr || not_nil closeErr || negb (len data =? om_Bytes m) || (sha256_hex data <>? om_SHA256 m)
      with ErrInputs ;;
    Done (Ok tt).
Definition retry_total_limit : Z := 4 * 2 ^ 30 + 100 * 2 ^ 20.
(** The loop: [image] and [total] so far, and the objects already read. *)
Fixpoint verify_objects (w : string) (image : bool) (total : Z) (seen : gmap string ObjectMetadata)
    (l : list FrozenObject) : service svc unit :=
  match l with
  | [] => Done (Ok tt)
  | ref :: l =>
      let m := fo_Object ref in
      refuse negb (ObjectMetadata_Valid m) || (om_WorkspaceID m <>? w) || (2 * 2 ^ 30 <? om_Bytes m) with ErrInputs ;;
      let continue image total :=
        match seen !! om_ID m with
        | Some prior => refuse prior <>? m with ErrInputs ;; verify_objects w image total seen l
        | None => try _ <- verifyBlob m ;; verify_objects w image total (<[om_ID m := m]> seen) l
        end in
      if fo_Role ref ==? "application_image" then refuse image with ErrInputs ;; continue true total
      else refuse retry_total_limit - total <? om_Bytes m with ErrInputs ;; continue image (total + om_Bytes m)
  end.
Definition verify_retry (w : string) (inputs : RetryInputs) : service svc unit :=
  refuse not_nil (Attempt_Validate (ri_Attempt inputs)) || not_nil (RetryAllowed (at_State (ri_Attempt inputs)))
         || (Z.of_nat (length (ri_Objects inputs)) =? 0) || (258 <? Z.of_nat (length (ri_Objects inputs))) with ErrInputs ;;
  verify_objects w false 0 ∅ (ri_Objects inputs).
Definition replayAfterRead (w token : string) (kind : OperationKind) (key hash : string) (original : error) :
    service svc OperationRecord :=
  try prior <- from (ReplayOperation w token kind key hash) ;;
  match prior with Some record => Done (Ok record) | None => fail_with original end.
(** Without a blob reader there is no retry of the compute. *)
Definition SubmitControl (blobs : bool) (limits : Limits) (p : Principal) (w job : string) (kind : OperationKind)
    (key raw : string) : service svc OperationRecord :=
  try p <- authorize p w ScopeOperate ;;
  try req <- svc_error (control_Parse kind raw) ;;
  try keyHash <- svc_error (KeyDigest key) ;;
  try hash <- svc_error (control_Digest req job kind) ;;
  try prior <- from (ReplayOperation w (pr_tokenID p) kind keyHash hash) ;;
  match prior with
  | Some record => Done (Ok record)
  | None =>
      let command inputs := mkControlCommand w (pr_tokenID p) job kind req keyHash hash inputs limits in
      if kind ==? OperationRetryCompute then
        refuse negb blobs with ErrInputs ;;
        r ← perform (ReadRetryInputs w (pr_tokenID p) job (cq_AttemptID req));
        match r with
        | Err err => replayAfterRead w (pr_tokenID p) kind keyHash hash err
        | Ok inputs =>
            v ← verify_retry w inputs;
            match v with
            | Err err => replayAfterRead w (pr_tokenID p) kind keyHash hash err
            | Ok _ => from (AdmitOperation (command (Some inputs)))
            end
        end
      else from (AdmitOperation (command None))
  end.
Definition GetOperation (p : Principal) (w id : string) : service svc OperationRecord :=
  try p <- authorize p w ScopeRead ;;
  refuse negb (ID_Valid id) with control_ErrNotFound ;;
  from (ReadOperation w (pr_tokenID p) id).

(** ** Jobs *)
Definition admission_ErrNotFound : error := ENew "job or admission not found".
Section Jobs.
Context (schema : json -> bool).
Definition SubmitJob (preflight : bool) (limits : Limits) (p : Principal) (w key raw : string) : service svc JobReceipt :=
  try p <- authorize p w ScopeWrite ;;
  try k <- svc_error (KeyDigest key) ;;
  try req <- svc_error (Parse schema raw) ;;
  try _ <- check_error (mret (CheckInputs (Request_Spec req))) ;;
  if preflight then
    try prior <- from (PreflightAdmission w (pr_tokenID p) k req) ;;
    match prior with
    | Some receipt => Done (Ok receipt)
    | None => from (AdmitJob w (pr_tokenID p) k req limits)
    end
  else from (AdmitJob w (pr_tokenID p) k req limits).
Definition ValidateJobRequest (p : Principal) (w raw : string) : service svc Validation :=
  try p <- authorize p w ScopeRead ;;
  try req <- svc_error (Parse schema raw) ;;
  try _ <- check_error (mret (CheckInputs (Request_Spec req))) ;;
  from (ValidateAdmission w (pr_tokenID p) req).
End Jobs.
Definition GetJob (p : Principal) (w id : string) : service svc JobRecord :=
  try p <- authorize p w ScopeRead ;;
  refuse negb (ID_Valid id) with admission_ErrNotFound ;;
  from (ReadJob w (pr_tokenID p) id).

(** ** Execution authorization *)
Definition auth_ErrNotFound : error := ENew "execution authorization or attempt not found".
Definition AuthorizeJob (p : Principal) (w job key raw : string) : service svc AuthReceipt :=
  try p <- authorize p w ScopeExecute ;;
  try req <- svc_error (AuthRequest_Parse raw) ;;
  try digest <- svc_error (KeyDigest key) ;;
  from (AuthorizeExecution (mkAuthCommand w (pr_tokenID p) job digest req)).
Definition GetAuthorization (p : Principal) (w job id : string) : service svc AuthReceipt :=
  try p <- authorize p w ScopeExecute ;;
  refuse negb (ID_Valid job) || negb (ID_Valid id) with auth_ErrNotFound ;;
  from (ReadExecutionAuthorization w (pr_tokenID p) job id).
Definition gateCommand (p : Principal) (w job key : string) : service svc GateCommand :=
  try fresh <- authorize p w ScopeExecute ;;
  try digest <- svc_error (KeyDigest key) ;;
  let c := mkGateCommand false w (pr_tokenID fresh) job digest in
  match GateCommand_Validate c with Some err => fail_with err | None => Done (Ok c) end.
Definition PrepareGate (p : Principal) (w job key raw : string) : service svc GateReceipt :=
  try c <- gateCommand p w job key ;;
  try req <- svc_error (ParsePrepare raw) ;;
  from (PrepareExecution c req).
(** The repository is called under the lock of the secret pool. *)
Definition StartGate (p : Principal) (w job key raw : string) : service svc GateReceipt :=
  try c <- gateCommand p w job key ;;
  try req <- svc_error (ParseStart raw) ;;
  now ← perform SvcNow;
  available ← perform (MaterialAvailable (mkKey w job (sq_AttemptID req)) (sq_SecretAuthorizationID req) now);
  from (StartExecution (mkGateCommand available (gc_WorkspaceID c) (gc_TokenID c) (gc_JobID c) (gc_KeyDigest c)) req).
Definition GateAuthorization (p : Principal) (w job id : string) : service svc GateReceipt :=
  try fresh <- authorize p w ScopeExecute ;;
  refuse negb (ID_Valid job) || negb (ID_Valid id) with auth_ErrNotFound ;;
  from (ReadGateAuthorization w (pr_tokenID fresh) job id).
Definition GetReadiness (p : Principal) (w job : string) : service svc Readiness :=
  try fresh <- authorize p w ScopeRead ;;
  refuse negb (ID_Valid job) with auth_ErrNotFound ;;
  now ← perform SvcNow;
  try result <- from (ReadReadiness w (pr_tokenID fresh) job) ;;
  match rd_Secrets result with
  | Some s =>
      if sr_Status s ==? "granted" then
        available ← perform (MaterialAvailable (mkKey w job (rd_AttemptID result)) (sr_AuthorizationID s) now);
        let status := if (available : bool) then "available" else "material_lost" in
        let actions :=
          if negb available && ((rd_State result ==? "ready") || (rd_State result ==? "start_authorized"))
          then rd_RequiredActions result ++ ["resupply_secrets"] else rd_RequiredActions result in
        Done (Ok (mkReadiness (Some (mkSecretReadiness (sr_RequiredSlots s) (sr_AuthorizationID s) status (sr_ExpiresAt s)))
                    (rd_AttemptID result) (rd_State result) (rd_Revision result) (rd_ObservedAt result)
                    (rd_ReadyUntil result) (rd_StagedBytes result) actions))
      else Done (Ok result)
  | None => Done (Ok result)
  end.

(** ** Objects *)
Definition object_ErrInvalid : error := ENew "invalid object metadata".
Definition object_NotFound_text : string := "object not found".
Definition object_ErrNotFound : error := ENew object_NotFound_text.
Definition object_ErrUnavailable : error := ENew "object metadata repository unavailable".
(** [body]: there is a body to read. *)
Definition Upload (p : Principal) (w : string) (length : Z) (digest : string) (body : bool) : service svc ObjectMetadata :=
  try _ <- authorize p w ScopeWrite ;;
  refuse (length <? -1) || (digest <>? "") && negb (SHA256Digest_Valid digest) || negb body with object_ErrInvalid ;;
  id ← perform (SvcRandom 16);
  match id with
  | None => fail_with object_ErrUnavailable
  | Some id =>
      let declaration := mkObjectMetadata ("obj_" +:+ EncodeHex id) w length digest in
      try result <- from (PutBlob declaration) ;;
      refuse negb (ObjectMetadata_Valid result) || (om_ID result <>? om_ID declaration) || (om_WorkspaceID result <>? w)
             || (0 <=? length) && negb (length =? om_Bytes result) || (digest <>? "") && (digest <>? om_SHA256 result)
        with object_ErrUnavailable ;;
      try _ <- authorize p w ScopeWrite ;;
      try _ <- check_error (perform SvcCtxErr) ;;
      err ← perform (CommitObject result);
      refuse not_nil err with object_ErrUnavailable ;;
      Done (Ok result)
  end.
Definition GetObjectMetadata (p : Principal) (w id : string) : service svc ObjectMetadata :=
  try _ <- authorize p w ScopeRead ;;
  refuse negb (ID_Valid id) with object_ErrNotFound ;;
  r ← perform (GetObject w id);
  match r with
  | Err e => if errors_Is (Some e) object_NotFound_text then fail_with object_ErrNotFound else fail_with object_ErrUnavailable
  | Ok result =>
      refuse (om_WorkspaceID result <>? w) || (om_ID result <>? id) with object_ErrNotFound ;;
      refuse negb (ObjectMetadata_Valid result) with object_ErrUnavailable ;;
      Done (Ok result)
  end.

(** ** Logs *)
Definition log_ErrInvalid : error := ENew "invalid log request".
Definition log_ErrUnavailable : error := ENew "logs unavailable".
Definition ErrLogCursorInvalid : string := "invalid log cursor".
Definition ErrLogCursorReset : string := "log cursor continuity reset".
(** [if ctx.Err() != nil { return ctx.Err() }; return err]. *)
Definition ctx_or {A} (err : error) : service svc A := ctx ← perform SvcCtxErr; fail_with (default err ctx).
Definition log_error {A} (err : error) : service svc A :=
  ctx ← perform SvcCtxErr;
  fail_with match ctx with
       | Some e => e
       | None =>
           if errors_Is (Some err) ErrLogCursorInvalid then ENew ErrLogCursorInvalid
           else if errors_Is (Some err) ErrLogCursorReset then ENew ErrLogCursorReset
           else match errors_As as_log_read (Some err) with
                | Some reason => if LogReadFailure_Valid reason then ELogReadFailure reason else log_ErrUnavailable
                | None => log_ErrUnavailable
                end
       end.
Definition provider_logs (w job attempt : string) (request : PageRequest) (b : BindingSnapshot) (remote : RemoteReference) :
    service svc LogPage :=
  let id := rr_Identity remote in
  refuse negb (BindingSnapshot_Valid b) || not_nil (RemoteReference_Validate remote) || (id_WorkspaceID id <>? w)
         || (id_JobID id <>? job) || (id_AttemptID id <>? attempt)
         || (id_InstanceID id <>? bd_ProviderInstanceID (bs_Binding b)) with log_ErrUnavailable ;;
  resolved ← perform (ResolveAdapter b);
  if negb resolved then ctx_or log_ErrUnavailable else
  instance ← perform AdapterInstance;
  if instance <>? id_InstanceID id then ctx_or log_ErrUnavailable else
  verified ← perform (VerifyAdapter b);
  if not_nil verified then ctx_or log_ErrUnavailable else
  r ← perform (ReadLogs remote request);
  match r with
  | Err err => log_error err
  | Ok page => match LogPage_Validate page request with Some err => log_error err | None => Done (Ok page) end
  end.
Definition ReadJobLogs (resolver : bool) (p : Principal) (w job attempt : string) (request : PageRequest) : service svc LogPage :=
  try fresh <- authorize p w ScopeRead ;;
  refuse negb (ID_Valid job) || negb (ID_Valid attempt) || (pq_Limit request <? 1) || (100 <? pq_Limit request)
         || not_nil (PageRequest_Validate request) with log_ErrInvalid ;;
  try target <- from (ReadLogAttempt w (pr_tokenID fresh) job attempt) ;;
  try page <- match la_Remote target with
              | Some remote =>
                  if resolver then provider_logs w job attempt request (la_Binding target) remote
                  else Done (Ok (mkLogPage "provider" "unavailable" [] "" false))
              | None => Done (Ok (mkLogPage "provider" "unavailable" [] "" false))
              end ;;
  try _ <- check_error (perform SvcCtxErr) ;;
  try _ <- authorize p w ScopeRead ;;
  Done (Ok page).

(** ** Workload secrets *)
Definition std64_value (c : ascii) : option Z :=
  let b := byte_val c in
  if is_upper b then Some (b - 65) else if is_lower b then Some (b - 71) else if is_digit b then Some (b + 4)
  else if b =? 43 then Some 62 else if b =? 47 then Some 63 else None.
Definition is_pad (c : ascii) : bool := byte_val c =? 61.
Fixpoint base64_decode (l : list ascii) : option (list Z) :=
  match l with
  | [] => Some []
  | c1 :: c2 :: c3 :: c4 :: rest =>
      v1 ← std64_value c1; v2 ← std64_value c2;
      if is_pad c3 then if is_pad c4 && bool_decide (rest = []) then Some [v1 * 4 + v2 / 16] else None
      else
        v3 ← std64_value c3;
        if is_pad c4 then if bool_decide (rest = []) then Some [v1 * 4 + v2 / 16; v2 `mod` 16 * 16 + v3 / 4] else None
        else
          v4 ← std64_value c4; out ← base64_decode rest;
          Some (v1 * 4 + v2 / 16 :: v2 `mod` 16 * 16 + v3 / 4 :: v3 `mod` 4 * 64 + v4 :: out)
  | _ => None
  end.
(** A byte slice in JSON: standard base64, where line breaks are passed over. *)
Definition dec_bytes (v : option jvalue) : option string :=
  match v with
  | None | Some VNull => Some ""
  | Some (VStr s) => (fun l => string_of (map byte_of l)) <$> base64_decode (List.filter (fun c => negb (line_break c)) (bytes_of s))
  | _ => None
  end.
Definition dec_supply (f : list (string * jvalue)) : option Supply :=
  id ← dec_str (member "attempt_id" f); revision ← dec_str (member "readiness_revision" f);
  expires ← dec_str (member "expires_at" f); fields ← dec_fields (member "values" f);
  l ← mapM (fun kv => s ← dec_bytes (Some kv.2); Some (kv.1, s)) fields;
  Some (mkSupply id revision expires (list_to_map l)).
Definition secret_MaxRequestBytes : Z := 48 * 2 ^ 10.
Definition ParseSupply (raw : string) : result error Supply :=
  match Object raw secret_MaxRequestBytes with
  | Err _ => Err ErrRequest
  | Ok fields =>
      throw not_nil (Fields fields ["attempt_id"; "readiness_revision"; "expires_at"; "values"] []) with ErrRequest ;;
      match dec_supply fields with
      | None => Err ErrRequest
      | Some r =>
          throw not_nil (Supply_Validate r) with ErrRequest ;;
          match dec_map (member "values" fields) with
          | None => Err ErrRequest
          | Some wire =>
              throw negb (bool_decide (map_Forall (fun name encoded => base64_string (default "" (sp_Values r !! name)) = encoded) wire))
                with ErrRequest ;;
              Ok r
          end
      end
  end.
Definition secret_ErrNotFound : error := ENew "workload secret authorization not found".
Definition secret_command (p : Principal) (w job key : string) : service svc SecretCommand :=
  try fresh <- authorize p w ScopeExecute ;;
  refuse (len key <? 8) || (256 <? len key) with ErrRequest ;;
  refuse negb (all_bytes (fun ch => negb ((ch <? 33) || (126 <? ch))) key) with ErrRequest ;;
  let c := mkSecretCommand w (pr_tokenID fresh) job (sha256_hex key) in
  match SecretCommand_Validate c with Some err => fail_with err | None => Done (Ok c) end.
(** The pool's [Supply] calls the repository once it has checked the request:
    the call gets the fingerprint and the metadata, never the values. *)
Definition pool_accepts (pool : Pool) (key : Key) (r : Supply) : bool :=
  negb (po_closed pool || negb (Key_Valid key) || (ky_AttemptID key <>? sp_AttemptID r) || not_nil (Supply_Validate r)).
Definition SupplySecrets (pool : Pool) (p : Principal) (w job key raw : string) : prog svc (result error Receipt * Pool) :=
  c ← secret_command p w job key;
  match c with
  | Err err => mret (Err err, pool)
  | Ok c =>
      match ParseSupply raw with
      | Err err => mret (Err err, pool)
      | Ok req =>
          now ← perform SvcNow;
          let k := mkKey w job (sp_AttemptID req) in
          let supplied persist := mret (Pool_Supply pool k req now (fun _ _ => persist)) in
          if pool_accepts pool k req then
            persist ← perform (SupplyWorkloadSecrets c
              (mkMetadata (sp_AttemptID req) (sp_ReadinessRevision req) (sp_ExpiresAt req) (Supply_Names req))
              (fingerprint (prune pool now) k req));
            supplied persist
          else supplied (Err ErrRequest)
      end
  end.
Definition dec_revoke (raw : string) : option string :=
  match Object raw 4096 with
  | Ok fields => if nil_error (Fields fields ["attempt_id"] []) then dec_str (member "attempt_id" fields) else None
  | Err _ => None
  end.
Definition RevokeSecrets (pool : Pool) (p : Principal) (w job id key raw : string) : prog svc (result error Receipt * Pool) :=
  c ← secret_command p w job key;
  match c, dec_revoke raw with
  | Err err, _ => mret (Err err, pool)
  | Ok c, Some attempt =>
      if negb (ID_Valid id) || negb (ID_Valid attempt) then mret (Err ErrRequest, pool)
      else persist ← perform (RevokeWorkloadSecrets c attempt id); mret (Revoke pool (mkKey w job attempt) id persist)
  | Ok _, None => mret (Err ErrRequest, pool)
  end.
Definition GetSecrets (p : Principal) (w job id : string) : service svc Receipt :=
  try fresh <- authorize p w ScopeExecute ;;
  refuse negb (ID_Valid job) || negb (ID_Valid id) with secret_ErrNotFound ;;
  from (ReadWorkloadSecrets w (pr_tokenID fresh) job id).
