(* ===== verification/ProviderProps.v ===== *)
(** * Properties of the provider contract

    Paths and input snapshots ([internal/provider/contract.go],
    [preparation.go], [validate.go]), the registries ([registry.go]), the
    selection of shared inputs ([resource_bounds.go]) and the time allowed
    for reading artifacts ([artifact_batch.go]). *)

From S2P Require Import Prelude GoStrings GoTime Identifiers Problems AttemptStates Attempts DomainRecords Provider ProviderResources.
#[local] Open Scope string_scope.
#[local] Open Scope list_scope.
#[local] Open Scope Z_scope.
#[local] Open Scope bool_scope.

(** ** Paths

    Where a relative path leads from a directory: a directory is the list of
    its names below the root. *)
Definition walk_part (dir : list string) (part : string) : list string :=
  if (part ==? "") || (part ==? ".") then dir
  else if part ==? ".." then take (length dir - 1) dir
  else dir ++ [part].
Definition walk (dir : list string) (path : string) : list string := fold_left walk_part (Split path slash) dir.

Definition plain_part (part : string) : Prop := part <> "" /\ part <> "." /\ part <> "..".
Lemma walk_plain parts : forall dir, Forall plain_part parts -> fold_left walk_part parts dir = dir ++ parts.
Proof.
  induction parts as [|p parts IH]; intros dir H; [by rewrite app_nil_r|]. apply Forall_cons in H as [(H1 & H2 & H3) H].
  cbn. rewrite IH by done. unfold walk_part. rewrite !bool_decide_eq_false_2 by done. cbn. by rewrite <- app_assoc.
Qed.

Lemma split_on_cons sep l acc : exists p parts, split_on sep l acc = p :: parts.
Proof. revert acc. induction l as [|c l IH]; intros acc; cbn; [by eexists _, _|]. case_bool_decide; [by eexists _, _|apply IH]. Qed.

(** A path that passes [SafeArtifactPath] cannot escape: from
    any directory it leads to its own parts below that directory, one level
    at least, and it has no separator or drive letter of another system and
    no control byte. *)
Theorem SafeArtifactPath_contained path dir :
  SafeArtifactPath path = true ->
  walk dir path = dir ++ Split path slash /\ Split path slash <> [] /\
  len path <= 1024 /\ ContainsAny path [92; 58] = false /\ no_control path = true.
Proof.
  unfold SafeArtifactPath. destruct (_ || _) eqn:E; [done|]. destruct (negb _) eqn:E2; [done|]. intros H. bool_to_prop.
  split_and!; try done; try lia.
  - unfold walk. apply walk_plain, Forall_forall. intros part Hp. rewrite forallb_forall in H.
    specialize (H part). rewrite <- list_elem_of_In in H. specialize (H Hp). bool_to_prop. done.
  - unfold Split. destruct (split_on_cons slash (bytes_of path) []) as (p & parts & ->). done.
Qed.
Lemma SafeArtifactPath_contained_witness :
  SafeArtifactPath "results/model.bin" = true /\ walk ["srv"; "job"] "results/model.bin" = ["srv"; "job"; "results"; "model.bin"] /\
  SafeArtifactPath "results/../../etc" = false /\ walk ["srv"; "job"] "results/../../etc" = ["srv"; "etc"].
Proof.
  assert (SafeArtifactPath "results/model.bin" = true) as H by (vm_compute; reflexivity).
  split_and!; [exact H| |vm_compute; reflexivity|vm_compute; reflexivity].
  rewrite (proj1 (SafeArtifactPath_contained _ ["srv"; "job"] H)). vm_compute. reflexivity.
Defined.

(** ** Splitting and joining *)
Fixpoint join (parts : list (list ascii)) : list ascii :=
  match parts with
  | [] => []
  | [p] => p
  | p :: rest => p ++ slash :: join rest
  end.
Lemma join_cons p rest : rest <> [] -> join (p :: rest) = p ++ slash :: join rest.
Proof. by destruct rest. Qed.
Lemma join_split l : forall acc, join (split_on slash l acc) = rev acc ++ l.
Proof.
  induction l as [|c l IH]; intros acc; cbn [split_on]; [by rewrite app_nil_r|]. case_bool_decide as Hc.
  - rewrite join_cons, IH by (destruct (split_on_cons slash l []) as (? & ? & ->); done). by rewrite Hc.
  - rewrite IH. cbn. by rewrite <- app_assoc.
Qed.
Lemma join_app a b : a <> [] -> b <> [] -> join (a ++ b) = join a ++ slash :: join b.
Proof.
  intros Ha Hb. induction a as [|x a IH]; [done|]. destruct a as [|y a]; [by cbn [app]; rewrite join_cons|].
  cbn [app] in *. rewrite (join_cons x (y :: a ++ b)), IH, (join_cons x (y :: a)) by done. by rewrite <- app_assoc.
Qed.
Lemma prefix_bytes a b : String.prefix a b = true <-> exists k, bytes_of b = bytes_of a ++ k.
Proof.
  revert b. induction a as [|c a IH]; intros b; cbn; [split; [by eexists|by destruct b]|].
  destruct b as [|d b]; cbn; [split; [done|by intros [k H]]|].
  case_match; subst.
  - rewrite IH. split; intros [k Hk]; exists k; [by f_equal|by injection Hk].
  - split; [done|]. intros [k [= E _]]. congruence.
Qed.
Lemma bytes_of_app a b : bytes_of (a +:+ b) = bytes_of a ++ bytes_of b.
Proof. induction a as [|c a IH]; [done|]. exact (f_equal (cons c) IH). Qed.
Lemma bytes_of_inj a b : bytes_of a = bytes_of b -> a = b.
Proof.
  intros H. rewrite <- (String.string_of_list_ascii_of_string a), <- (String.string_of_list_ascii_of_string b).
  unfold bytes_of in H. by rewrite H.
Qed.
Lemma split_bytes path : map bytes_of (Split path slash) = split_on slash (bytes_of path) [].
Proof. unfold Split. rewrite map_map. rewrite <- (map_id (split_on _ _ _)) at 2. apply map_ext. intros l. apply bytes_of_string_of. Qed.
Lemma join_parts path : join (map bytes_of (Split path slash)) = bytes_of path.
Proof. by rewrite split_bytes, join_split. Qed.

(** A path whose parts begin with those of another overlaps it. *)
Lemma overlaps_prefix a b : Split a slash `prefix_of` Split b slash -> overlaps a b = true.
Proof.
  intros [k Hk]. unfold overlaps. destruct k as [|x k].
  - rewrite app_nil_r in Hk. rewrite bool_decide_eq_true_2; [done|]. apply bytes_of_inj.
    by rewrite <- (join_parts a), <- (join_parts b), Hk.
  - assert (HasPrefix b (a +:+ "/") = true) as ->; [|by rewrite orb_true_r].
    apply prefix_bytes. exists (join (map bytes_of (x :: k))). rewrite bytes_of_app, <- (join_parts b), <- (join_parts a), Hk.
    rewrite map_app, join_app; [|by unfold Split; destruct (split_on_cons slash (bytes_of a) []) as (? & ? & ->)|done].
    by rewrite <- app_assoc.
Qed.
Lemma overlaps_sym a b : overlaps a b = overlaps b a.
Proof.
  unfold overlaps. rewrite <- !orb_assoc. f_equal; [|apply orb_comm]. apply bool_decide_ext. split; congruence.
Qed.

(** ** Input snapshots *)
Definition target_of (x : FrozenInput) : string := ToLower (fi_Target x).
(** Neither input lies at or below the other, letters compared without case. *)
Definition apart (x y : FrozenInput) : Prop :=
  ToLower (fi_Name x) <> ToLower (fi_Name y) /\
  ~ Split (target_of x) slash `prefix_of` Split (target_of y) slash /\
  ~ Split (target_of y) slash `prefix_of` Split (target_of x) slash.
Definition input_ok (w : string) (x : FrozenInput) : Prop :=
  ObjectMetadata_Valid (fi_Object x) = true /\ om_WorkspaceID (fi_Object x) = w /\
  0 <= om_Bytes (fi_Object x) <= 2 * 2 ^ 30 /\ SafeArtifactPath (fi_Target x) = true /\ 1 <= len (fi_Name x) <= 64.
Definition snapshot_bytes (l : list FrozenInput) : Z := foldr (fun x n => om_Bytes (fi_Object x) + n) 0 l.

Lemma not_overlapping a b : overlaps a b = false ->
  ~ Split a slash `prefix_of` Split b slash /\ ~ Split b slash `prefix_of` Split a slash.
Proof.
  intros H. split; intros HP%overlaps_prefix; [congruence|]. rewrite overlaps_sym in HP. congruence.
Qed.
Lemma ObjectMetadata_Valid_bytes m : ObjectMetadata_Valid m = true -> 0 <= om_Bytes m.
Proof. unfold ObjectMetadata_Valid. intros H. bool_to_prop. lia. Qed.

Lemma validate_inputs_spec w l : forall names paths total,
  0 <= total <= 4 * 2 ^ 30 -> validate_inputs w names paths total l = None ->
  Forall (input_ok w) l /\ total + snapshot_bytes l <= 4 * 2 ^ 30 /\ ForallOrdPairs apart l /\
  Forall (fun x => ToLower (fi_Name x) ∉ names /\ Forall (fun p => overlaps p (target_of x) = false) paths) l.
Proof.
  induction l as [|x l IH]; intros names paths total Ht H; [split_and!; try constructor; cbn; lia|].
  cbn [validate_inputs] in H. rewrite !reject_None in H. destruct H as (H1 & _ & _ & H2 & H). bool_to_prop.
  pose proof (ObjectMetadata_Valid_bytes (fi_Object x)) as Hb. specialize (Hb ltac:(done)).
  apply IH in H as (Ho & Hs & Hp & Hn); [|lia]. split_and!.
  - constructor; [|done]. unfold input_ok. split_and!; try done; lia.
  - change (snapshot_bytes (x :: l)) with (om_Bytes (fi_Object x) + snapshot_bytes l). lia.
  - constructor; [|done]. eapply Forall_impl; [exact Hn|]. intros y [Hy HF]. rewrite not_elem_of_cons in Hy.
    destruct Hy as [Hy _]. rewrite Forall_app, Forall_singleton in HF. destruct HF as [_ HF]. unfold apart.
    split; [congruence|]. by apply not_overlapping.
  - constructor.
    + split; [done|]. apply Forall_forall. intros p Hin. destruct (overlaps p (target_of x)) eqn:E; [|done].
      assert (existsb (fun old => overlaps old (target_of x)) paths = true) as HE.
      { apply existsb_exists. exists p. by rewrite <- list_elem_of_In. }
      unfold target_of in HE. congruence.
    + eapply Forall_impl; [exact Hn|]. intros y [Hy HF]. rewrite not_elem_of_cons in Hy. apply Forall_app in HF. tauto.
Qed.

(** C39: A validated input snapshot can be laid out safely: at
    most 256 inputs of the workspace, at most four gibibytes in all, every
    target a contained path, and no input at or below the place of another
    on a file system that ignores case. *)
Theorem InputSnapshot_layout s w :
  InputSnapshot_Validate s w = None ->
  (length (elems (is_Inputs s)) <= 256)%nat /\ Forall (input_ok w) (elems (is_Inputs s)) /\
  0 <= snapshot_bytes (elems (is_Inputs s)) <= 4 * 2 ^ 30 /\ ForallOrdPairs apart (elems (is_Inputs s)) /\
  om_WorkspaceID (is_Bundle s) = w /\ 0 <= om_Bytes (is_Bundle s) <= 100 * 2 ^ 20.
Proof.
  unfold InputSnapshot_Validate. cbv zeta. rewrite !reject_None. intros (H1 & _ & H). bool_to_prop.
  apply validate_inputs_spec in H as (Ho & Hs & Hp & _); [|lia].
  pose proof (ObjectMetadata_Valid_bytes (is_Bundle s)) as Hb. specialize (Hb ltac:(done)).
  assert (0 <= snapshot_bytes (elems (is_Inputs s))) as Hpos.
  { clear -Ho. induction Ho as [|x l (_ & _ & Hx & _) _ IH]; [done|].
    change (snapshot_bytes (x :: l)) with (om_Bytes (fi_Object x) + snapshot_bytes l). lia. }
  split_and!; try done; try lia.
Qed.
Definition sample_digest : string := "0123456789abcdef0123456789abcdef0123456789abcdef0123456789abcdef".
Definition sample_object (id : string) (bytes : Z) : ObjectMetadata := mkObjectMetadata id "workspace-1" bytes sample_digest.
Definition sample_snapshot : InputSnapshot :=
  mkInputSnapshot (sample_object "bundle-1" 4096)
    (Some [mkFrozenInput "train" "data/train.csv" (sample_object "object-1" 10);
           mkFrozenInput "test" "data/test.csv" (sample_object "object-2" 20)]) None.
Lemma InputSnapshot_layout_witness :
  InputSnapshot_Validate sample_snapshot "workspace-1" = None /\ snapshot_bytes (elems (is_Inputs sample_snapshot)) = 30 /\
  ForallOrdPairs apart (elems (is_Inputs sample_snapshot)).
Proof.
  assert (InputSnapshot_Validate sample_snapshot "workspace-1" = None) as H by (vm_compute; reflexivity).
  split; [exact H|]. split; [vm_compute; reflexivity|].
  exact (proj1 (proj2 (proj2 (proj2 (InputSnapshot_layout _ _ H))))).
Defined.

(** ** Shared inputs

    The reference selection: the objects large enough to share, the first of
    each content, cut at the limit. *)
Definition shared_key (o : ObjectMetadata) : string := SharedResourceKey (om_SHA256 o) (om_Bytes o).
Definition sharable (minBytes : Z) (o : ObjectMetadata) : bool :=
  negb (om_Bytes o <? minBytes) && negb (shared_key o ==? "").
Fixpoint first_of_each (seen : list string) (l : list ObjectMetadata) : list ObjectMetadata :=
  match l with
  | [] => []
  | o :: l' => if bool_decide (shared_key o ∈ seen) then first_of_each seen l'
               else o :: first_of_each (shared_key o :: seen) l'
  end.
Definition sharable_objects (minBytes : Z) (inputs : list FrozenInput) : list ObjectMetadata :=
  List.filter (sharable minBytes) (map fi_Object inputs).

Lemma select_shared_spec minBytes limit inputs : forall seen selected,
  Z.of_nat (length selected) <= limit ->
  select_shared minBytes limit seen selected inputs =
  selected ++ take (Z.to_nat limit - length selected) (first_of_each seen (sharable_objects minBytes inputs)).
Proof.
  induction inputs as [|x inputs IH]; intros seen selected Hl; [cbn; by rewrite take_nil, app_nil_r|].
  unfold sharable_objects. cbn [select_shared map List.filter]. cbv zeta. fold (shared_key (fi_Object x)). unfold sharable at 1.
  fold (sharable_objects minBytes inputs).
  destruct (om_Bytes (fi_Object x) <? minBytes); [by apply IH|]. cbn [negb andb].
  destruct (shared_key (fi_Object x) ==? ""); [by apply IH|]. cbn [negb orb first_of_each].
  destruct (bool_decide _) eqn:Es; [by apply IH|]. destruct (Z.leb_spec limit (Z.of_nat (length selected))).
  - replace (Z.to_nat limit - length selected)%nat with 0%nat by lia. by rewrite take_0, app_nil_r.
  - rewrite IH by (rewrite length_app; cbn; lia). rewrite length_app. cbn [length].
    replace (Z.to_nat limit - length selected)%nat with (S (Z.to_nat limit - (length selected + 1))) by lia.
    cbn [take]. by rewrite <- app_assoc.
Qed.

(** The inputs selected for sharing are the first [limit]
    distinct contents, in input order, among those of at least [minBytes]
    bytes with a valid digest, and none when a bound is not positive. *)
Theorem SelectSharedInputs_spec inputs minBytes limit :
  SelectSharedInputs inputs minBytes limit =
  if (minBytes <=? 0) || (limit <=? 0) then []
  else take (Z.to_nat limit) (first_of_each [] (sharable_objects minBytes inputs)).
Proof.
  unfold SelectSharedInputs. destruct (_ || _) eqn:E; [done|]. bool_to_prop.
  rewrite select_shared_spec by (cbn; lia). cbn [length app]. by rewrite Nat.sub_0_r.
Qed.

(** ** Time for reading artifacts *)
(** Reading artifacts is allowed the base time, a second per
    started mebibyte and a second per file, and never more than two hours;
    unknown sizes get the two hours, and the base time is never cut short of
    them. *)
Theorem ArtifactReadBudget_spec base bytes files :
  is_int64 base -> is_int64 bytes -> is_int64 files ->
  ArtifactReadBudget base bytes files =
    (if (bytes <? 0) || (files <? 0) then 2 * Hour
     else Z.min (2 * Hour) (Z.max 0 base + ((bytes + (2 ^ 20 - 1)) / 2 ^ 20 + files) * Second)) /\
  Z.min base (2 * Hour) <= ArtifactReadBudget base bytes files <= 2 * Hour /\
  is_int64 (ArtifactReadBudget base bytes files).
Proof.
  intros Hb Hy Hf. assert (2 * Hour = 7200000000000) as Eh by reflexivity. assert (Second = 1000000000) as Es by reflexivity.
  assert (ArtifactReadBudget base bytes files =
    (if (bytes <? 0) || (files <? 0) then 2 * Hour
     else Z.min (2 * Hour) (Z.max 0 base + ((bytes + (2 ^ 20 - 1)) / 2 ^ 20 + files) * Second))) as E.
  { unfold ArtifactReadBudget. cbv zeta. rewrite Eh, Es. unfold is_int64 in *.
    destruct (Z.leb_spec 7200000000000 base) as [H1|H1].
    - cbn [orb]. destruct (Z.ltb_spec bytes 0), (Z.ltb_spec files 0); cbn [orb]; try done.
      rewrite Z.min_l; [done|]. assert (0 <= (bytes + (2 ^ 20 - 1)) / 2 ^ 20) by (apply Z.div_pos; lia). lia.
    - cbn [orb]. destruct (Z.ltb_spec bytes 0), (Z.ltb_spec files 0); cbn [orb]; try done.
      assert ((if base <? 0 then 0 else base) = Z.max 0 base) as -> by (destruct (Z.ltb_spec base 0); lia).
      assert ((if Z.rem bytes (2 ^ 20) =? 0 then Z.quot bytes (2 ^ 20) else Z.quot bytes (2 ^ 20) + 1) = (bytes + (2 ^ 20 - 1)) / 2 ^ 20) as ->.
      { rewrite Z.quot_div_nonneg, Z.rem_mod_nonneg by lia. destruct (Z.eqb_spec (bytes mod 2 ^ 20) 0);
          Z.to_euclidean_division_equations; lia. }
      rewrite Z.quot_div_nonneg by lia. set (n := (bytes + (2 ^ 20 - 1)) / 2 ^ 20).
      set (rem := (7200000000000 - Z.max 0 base) / 1000000000).
      assert (rem * 1000000000 <= 7200000000000 - Z.max 0 base < (rem + 1) * 1000000000) as Hr
        by (unfold rem; Z.to_euclidean_division_equations; lia). clearbody n rem.
      destruct (Z.ltb_spec rem n), (Z.ltb_spec (rem - n) files); cbn [orb]; lia. }
  rewrite E. split; [done|]. unfold is_int64, MinInt64, MaxInt64 in *. rewrite Eh, Es.
  destruct (Z.ltb_spec bytes 0), (Z.ltb_spec files 0); cbn [orb]; try lia.
  assert (0 <= (bytes + (2 ^ 20 - 1)) / 2 ^ 20) by (apply Z.div_pos; lia). lia.
Qed.
Lemma ArtifactReadBudget_spec_witness :
  is_int64 (60 * Second) /\ ArtifactReadBudget (60 * Second) 1048577 3 = 65 * Second /\ 65 * Second <= 2 * Hour.
Proof.
  assert (is_int64 (60 * Second)) as H1 by (split; vm_compute; discriminate).
  assert (is_int64 1048577) as H2 by (split; vm_compute; discriminate).
  assert (is_int64 3) as H3 by (split; vm_compute; discriminate).
  split; [exact H1|]. split; [rewrite (proj1 (ArtifactReadBudget_spec _ _ _ H1 H2 H3)); vm_compute; reflexivity|].
  exact (proj2 (proj1 (proj2 (ArtifactReadBudget_spec _ _ _ H1 H2 H3)))).
Defined.

(** ** Registries *)
Section RegistryRuns.
Context {Provider : Type} (Describe : Provider -> Descriptor).

(** Registries as the program builds them. *)
Inductive built : list (BindingSnapshot * Provider) -> Prop :=
  | built_empty : built []
  | built_register r s p r' : built r -> Snapshot_Register Describe r s p = Ok r' -> built r'.

Lemma Snapshot_Register_Ok r s p r' :
  Snapshot_Register Describe r s p = Ok r' ->
  exists q, p = Some q /\ r' = (s, q) :: r /\ snapshot_get r s = None /\ BindingSnapshot_Valid s = true /\
    ds_InstanceID (Describe q) = bd_ProviderInstanceID (bs_Binding s).
Proof.
  unfold Snapshot_Register. destruct (_ || _) eqn:E; [done|]. destruct p as [q|]; [|by rewrite orb_true_r in E].
  bool_to_prop. destruct (Register _ _ _); [cbn [result_bind]|done]. destruct (not_nil _) eqn:E2; [done|].
  intros [= <-]. exists q. split_and!; try done. by destruct (snapshot_get r s).
Qed.

Lemma built_resolves r s q :
  built r -> Resolve r s = Ok q ->
  BindingSnapshot_Valid s = true /\ ds_InstanceID (Describe q) = bd_ProviderInstanceID (bs_Binding s).
Proof.
  induction 1 as [|r s1 p r' _ IH HR]; [done|].
  apply Snapshot_Register_Ok in HR as (q1 & -> & -> & _ & Hv & Hi). unfold Resolve. cbn.
  case_bool_decide; [subst; by intros [= <-]|]. apply IH.
Qed.

(** A frozen binding always resolves to the provider it was
    registered with, or to nothing: later registrations never replace an
    entry, nothing else is offered instead, and a resolved provider carries
    the instance the binding names. *)
Theorem Snapshot_registry r s p r' :
  built r -> Snapshot_Register Describe r s p = Ok r' ->
  (forall s0 q, Resolve r s0 = Ok q -> Resolve r' s0 = Ok q) /\
  (exists q, p = Some q /\ Resolve r' s = Ok q) /\
  (forall s0 q, s0 <> s -> Resolve r' s0 = Ok q -> Resolve r s0 = Ok q) /\
  (forall s0 q, Resolve r' s0 = Ok q ->
     BindingSnapshot_Valid s0 = true /\ ds_InstanceID (Describe q) = bd_ProviderInstanceID (bs_Binding s0)).
Proof.
  intros HB HR. assert (built r') as HB' by by eapply built_register. pose proof HR as HR0.
  apply Snapshot_Register_Ok in HR as (q & -> & -> & Hn & _). split_and!.
  - intros s0 q0. unfold Resolve. cbn. case_bool_decide; [subst; by rewrite Hn|done].
  - exists q. unfold Resolve. cbn. by rewrite bool_decide_eq_true_2.
  - intros s0 q0 Hs. unfold Resolve. cbn. by rewrite bool_decide_eq_false_2.
  - intros s0 q0. by apply built_resolves.
Qed.
End RegistryRuns.

Definition sample_capabilities : Capabilities :=
  mkCapabilities true true true CapabilitySupportUnsupported true false false CapabilitySupportUnsupported true
    CapabilitySupportUnsupported true false false false false true [] "" 3600.
Definition sample_descriptor : Descriptor := mkDescriptor "ssh" "host-1" "1.0" sample_capabilities.
Definition sample_binding : BindingSnapshot := mkBindingSnapshot (mkProviderBinding "default" "host-1" "r1") "account-1" "".
Lemma Snapshot_registry_witness :
  let describe := fun _ : unit => sample_descriptor in
  Snapshot_Register describe [] sample_binding (Some ()) = Ok [(sample_binding, ())] /\
  exists q, Resolve [(sample_binding, ())] sample_binding = Ok q.
Proof.
  intros describe. assert (Snapshot_Register describe [] sample_binding (Some ()) = Ok [(sample_binding, ())]) as H
    by (vm_compute; reflexivity).
  split; [exact H|]. destruct (Snapshot_registry describe _ _ _ _ (built_empty describe) H) as (_ & (q & _ & Hq) & _).
  exists q. exact Hq.
Defined.
