(* ===== verification/SecretProps.v ===== *)
(** * Properties of the workload secret pool

    Material is usable once, only before it expires, and every copy that is
    neither waiting nor handed out has been wiped. *)

From S2P Require Import Prelude GoStrings GoTime GoSha256 GoJson JsonRead Canonical Identifiers Problems AttemptStates Attempts DomainRecords Provider ProviderResources Admission SecretPool Workers ProviderProps.
#[local] Open Scope string_scope.
#[local] Open Scope list_scope.
#[local] Open Scope Z_scope.
#[local] Open Scope bool_scope.

(** ** Well-formed pools

    Entries are found under their own key, no two share their values, and at
    most [MaxHeld] are held, none after the pool is closed. *)
Record pool_ok (p : Pool) : Prop := {
  ok_key k m : po_entries p !! k = Some m -> pm_Key m = k /\ (pm_Values m < length (po_store p))%nat;
  ok_apart k1 k2 m1 m2 : po_entries p !! k1 = Some m1 -> po_entries p !! k2 = Some m2 ->
    pm_Values m1 = pm_Values m2 -> k1 = k2;
  ok_held : Z.of_nat (size (po_entries p)) <= MaxHeld;
  ok_closed : po_closed p = true -> po_entries p = ∅ }.
(** [handed]: the addresses given to callers that have not cleared them. *)
Definition wiped (handed : list nat) (p : Pool) : Prop :=
  forall loc v, po_store p !! loc = Some v ->
    (exists k m, po_entries p !! k = Some m /\ pm_Values m = loc) \/ loc ∈ handed \/ v = ∅.
Definition fresh_handed (handed : list nat) (p : Pool) : Prop :=
  forall loc, loc ∈ handed -> (loc < length (po_store p))%nat /\
    forall k m, po_entries p !! k = Some m -> pm_Values m <> loc.

(** ** Dropping entries *)
Inductive dropped : Pool -> Pool -> Prop :=
  | dropped_refl p : dropped p p
  | dropped_key p q k : dropped p q -> dropped p (drop_key q k).

Lemma drop_key_entries p k : po_entries (drop_key p k) = delete k (po_entries p).
Proof.
  unfold drop_key. destruct (po_entries p !! k) eqn:E; [done|]. by rewrite delete_id.
Qed.
Lemma drop_key_store p k :
  po_store (drop_key p k) =
  match po_entries p !! k with Some m => <[pm_Values m := ∅]> (po_store p) | None => po_store p end.
Proof. unfold drop_key. by destruct (po_entries p !! k). Qed.
Lemma drop_key_rest p k : po_closed (drop_key p k) = po_closed p /\ po_key (drop_key p k) = po_key p.
Proof. unfold drop_key. by destruct (po_entries p !! k). Qed.
Lemma drop_key_length p k : length (po_store (drop_key p k)) = length (po_store p).
Proof. rewrite drop_key_store. destruct (po_entries p !! k); [apply length_insert|done]. Qed.

Lemma drop_key_ok p k : pool_ok p -> pool_ok (drop_key p k).
Proof.
  intros H. split; rewrite drop_key_entries; try rewrite drop_key_length.
  - intros k' m [? Hm]%lookup_delete_Some. by apply (ok_key p H).
  - intros k1 k2 m1 m2 [_ H1]%lookup_delete_Some [_ H2]%lookup_delete_Some. by apply (ok_apart p H).
  - pose proof (ok_held p H). rewrite map_size_delete. destruct (po_entries p !! k); cbn [id]; lia.
  - rewrite (proj1 (drop_key_rest p k)). intros ->%(ok_closed p H). apply delete_empty.
Qed.
Lemma drop_key_wiped handed p k : wiped handed p -> wiped handed (drop_key p k).
Proof.
  intros H loc v. rewrite drop_key_store, drop_key_entries.
  destruct (po_entries p !! k) as [m|] eqn:E.
  - intros [(<- & -> & _)|(Hne & Hv)]%list_lookup_insert_Some; [by right; right|].
    destruct (H _ _ Hv) as [(k' & m' & Hk & <-)|Hr]; [left|by right].
    exists k', m'. split; [|done]. rewrite lookup_delete_ne; [done|]. intros <-. congruence.
  - intros Hv. rewrite delete_id by done. by apply H.
Qed.
Lemma drop_key_contents p k k' m :
  pool_ok p -> po_entries p !! k' = Some m -> k' <> k -> contents (drop_key p k) m = contents p m.
Proof.
  intros H Hm Hne. unfold contents. rewrite drop_key_store.
  destruct (po_entries p !! k) as [m'|] eqn:E; [|done].
  rewrite list_lookup_insert_ne; [done|]. intros Hv. by destruct (Hne (ok_apart p H _ _ _ _ Hm E (eq_sym Hv))).
Qed.
Lemma drop_key_fresh handed p k : fresh_handed handed p -> fresh_handed handed (drop_key p k).
Proof.
  intros H loc Hl. rewrite drop_key_length, drop_key_entries. split; [by apply H|].
  intros k' m [_ Hm]%lookup_delete_Some. by eapply H.
Qed.

(** What dropping any entries keeps. *)
Record drop_frame (p q : Pool) : Prop := {
  fr_ok : pool_ok p -> pool_ok q;
  fr_wiped handed : wiped handed p -> wiped handed q;
  fr_fresh handed : fresh_handed handed p -> fresh_handed handed q;
  fr_entries : po_entries q ⊆ po_entries p;
  fr_contents k m : pool_ok p -> po_entries q !! k = Some m -> contents q m = contents p m;
  fr_handed handed loc : fresh_handed handed p -> loc ∈ handed -> po_store q !! loc = po_store p !! loc;
  fr_rest : po_closed q = po_closed p /\ po_key q = po_key p /\ length (po_store q) = length (po_store p) }.

Lemma dropped_frame p q : dropped p q -> drop_frame p q.
Proof.
  induction 1 as [p|p q k _ IH]; [by split|]. destruct IH as [H1 H2 H3 H4 H5 H6 (H7 & H8 & H9)]. split.
  - auto using drop_key_ok.
  - auto using drop_key_wiped.
  - auto using drop_key_fresh.
  - rewrite drop_key_entries. etrans; [apply delete_subseteq|done].
  - intros k' m Hp. rewrite drop_key_entries. intros [Hne Hm]%lookup_delete_Some.
    rewrite (drop_key_contents q k k' m); eauto.
  - intros handed loc Hf Hl. rewrite <- (H6 handed loc Hf Hl). rewrite drop_key_store.
    destruct (po_entries q !! k) as [m|] eqn:E; [|done]. rewrite list_lookup_insert_ne; [done|].
    by eapply (H3 handed Hf).
  - destruct (drop_key_rest q k) as [-> ->]. rewrite drop_key_length. done.
Qed.

Lemma drop_fold (bad : Key -> PoolMaterial -> bool) (l : list (Key * PoolMaterial)) : forall p, dropped p (foldl (fun p km => if bad km.1 km.2 then drop_key p km.1 else p) p l).
Proof.
  induction l as [|[k m] l IH] using rev_ind; intros p; [constructor|]. rewrite foldl_snoc. cbn.
  destruct (bad k m); [constructor|]; apply IH.
Qed.
Lemma drop_where_dropped p bad : dropped p (drop_where p bad).
Proof. apply drop_fold. Qed.

Lemma drop_fold_lookup (bad : Key -> PoolMaterial -> bool) (l : list (Key * PoolMaterial)) k : forall p,
  po_entries (foldl (fun p km => if bad km.1 km.2 then drop_key p km.1 else p) p l) !! k =
  if existsb (fun km => (km.1 ==? k) && bad km.1 km.2) l then None else po_entries p !! k.
Proof.
  induction l as [|[k' m] l IH]; intros p; cbn; [done|]. rewrite IH. clear IH.
  destruct (bad k' m); case_bool_decide; subst; cbn; destruct (existsb _ l); try done;
    rewrite drop_key_entries; by rewrite ?lookup_delete_eq, ?lookup_delete_ne by done.
Qed.
Lemma drop_where_lookup p bad k :
  po_entries (drop_where p bad) !! k =
  match po_entries p !! k with Some m => if bad k m then None else Some m | None => None end.
Proof.
  unfold drop_where. rewrite drop_fold_lookup.
  destruct (existsb _ _) eqn:E.
  - apply existsb_exists in E as ([k' m] & Hin & E). cbn in E. apply andb_true_iff in E as [Ek Eb].
    apply bool_decide_eq_true_1 in Ek as ->. apply list_elem_of_In, elem_of_map_to_list in Hin.
    by rewrite Hin, Eb.
  - destruct (po_entries p !! k) as [m|] eqn:Hk; [|done]. destruct (bad k m) eqn:Eb; [|done].
    rewrite <- not_true_iff_false, existsb_exists in E. destruct E. exists (k, m).
    rewrite <- list_elem_of_In, elem_of_map_to_list. cbn. by rewrite bool_decide_eq_true_2, Eb.
Qed.

(** ** The operations *)
Lemma available_spec p key id now ok p' :
  available p key id now = (ok, p') ->
  dropped p p' /\ p' = prune p now /\
  (ok = true <-> po_closed p = false /\ ID_Valid id = true /\
     exists m, po_entries p !! key = Some m /\ stale now m = false /\ pm_AuthorizationID m = id).
Proof.
  unfold available. intros [= <- <-]. split; [apply drop_where_dropped|split; [done|]].
  destruct (dropped_frame _ _ (drop_where_dropped p (fun _ m => stale now m))) as [_ _ _ _ _ _ (Hc & _)].
  unfold prune in *. rewrite Hc, drop_where_lookup, !andb_true_iff, negb_true_iff.
  destruct (po_entries p !! key) as [m|]; [destruct (stale now m) eqn:Es|]; try naive_solver congruence.
  case_bool_decide; naive_solver.
Qed.

Lemma clone_frame handed p v p' loc :
  cloneValues p v = (p', loc) -> pool_ok p -> wiped handed p -> fresh_handed handed p ->
  pool_ok p' /\ wiped (loc :: handed) p' /\ fresh_handed (loc :: handed) p' /\
  po_entries p' = po_entries p /\ po_closed p' = po_closed p /\ po_store p' !! loc = Some v /\
  (forall k m, po_entries p !! k = Some m -> contents p' m = contents p m).
Proof.
  intros [= <- <-] Ho Hw Hf. cbn [with_store po_store po_entries po_closed]. split_and!; try done.
  - split; cbn [with_store po_store po_entries po_closed]; try apply Ho. intros k m Hm.
    rewrite length_app. destruct (ok_key p Ho k m Hm). split; [done|lia].
  - intros loc v' [Hv|(Hl & Hv)]%lookup_app_Some; [destruct (Hw _ _ Hv); set_solver|].
    assert (loc = length (po_store p)) as ->; [|set_solver].
    apply lookup_lt_Some in Hv. cbn in Hv. lia.
  - intros loc [-> |Hl]%elem_of_cons; cbn [with_store po_store po_entries]; rewrite length_app; cbn.
    + split; [lia|]. intros k m Hm. destruct (ok_key p Ho k m Hm). lia.
    + destruct (Hf loc Hl) as [? ?]. split; [lia|done].
  - rewrite lookup_app_r, Nat.sub_diag by lia. done.
  - intros k m Hm. unfold contents. cbn. by rewrite lookup_app_l by apply (ok_key p Ho k m Hm).
Qed.

(** A fresh copy becomes the values of an entry. *)
Lemma insert_frame handed p key m :
  pool_ok p -> wiped (pm_Values m :: handed) p -> fresh_handed (pm_Values m :: handed) p -> pm_Values m ∉ handed ->
  po_entries p !! key = None -> Z.of_nat (size (po_entries p)) < MaxHeld -> po_closed p = false -> pm_Key m = key ->
  let q := with_entries p (<[key := m]> (po_entries p)) in pool_ok q /\ wiped handed q /\ fresh_handed handed q.
Proof.
  intros Ho Hw Hf Hn Hk Hs Hc <-. cbv zeta. split_and!.
  - destruct (Hf (pm_Values m)) as [Hlt Hne]; [by left|].
    split; cbn [with_entries po_entries po_store po_closed].
    + intros k m' [(<- & <-)|(_ & Hm)]%lookup_insert_Some; [done|by apply (ok_key p Ho)].
    + intros k1 k2 m1 m2 [(<- & <-)|(_ & H1)]%lookup_insert_Some [(<- & <-)|(_ & H2)]%lookup_insert_Some E; [done| | |].
      * by destruct (Hne _ _ H2).
      * by destruct (Hne _ _ H1).
      * by apply (ok_apart p Ho _ _ _ _ H1 H2).
    + rewrite map_size_insert_None by done. lia.
    + congruence.
  - intros loc v Hv. cbn [with_entries po_entries] in *. destruct (Hw loc v Hv) as [(k & m' & Hm & <-)|Hr].
    + left. exists k, m'. rewrite lookup_insert_ne; [done|congruence].
    + rewrite elem_of_cons in Hr. destruct Hr as [[-> |?]|?]; [|by auto..]. left. exists (pm_Key m), m.
      by rewrite lookup_insert_eq.
  - intros loc Hl. cbn [with_entries po_entries po_store]. destruct (Hf loc) as [? Hne]; [by right|]. split; [done|].
    intros k m' [(_ & <-)|(_ & Hm)]%lookup_insert_Some; [by intros <-|by eapply Hne].
Qed.

(** ** Runs

    Every sequence of operations on a pool, with the addresses callers hold. *)
Inductive pool_run : list nat -> Pool -> Prop :=
  | pool_new key p : NewPool key = Ok p -> pool_run [] p
  | pool_supply handed p key request now persist :
      pool_run handed p -> pool_run handed (Pool_Supply p key request now persist).2
  | pool_available handed p key id now : pool_run handed p -> pool_run handed (available p key id now).2
  | pool_claim handed p key id now commit m called p' :
      pool_run handed p -> Pool_Claim p key id now commit = (Ok m, called, p') -> pool_run (pm_Values m :: handed) p'
  | pool_refuse handed p key id now commit e called p' :
      pool_run handed p -> Pool_Claim p key id now commit = (Err e, called, p') -> pool_run handed p'
  | pool_revoke handed p key id persist : pool_run handed p -> pool_run handed (Revoke p key id persist).2
  | pool_sweep handed p now usable : pool_run handed p -> pool_run handed (Sweep p now usable)
  | pool_close handed p : pool_run handed p -> pool_run handed (Close p)
  | pool_clear handed p m :
      pool_run handed p -> pm_Values m ∈ handed ->
      pool_run (filter (fun loc => loc <> pm_Values m) handed) (Material_Clear p m).

(** What may happen to a pool later as long as no usable material is
    supplied for [key] again: the same operations, where a supply for [key]
    is one that the repository does not answer to be usable. *)
Inductive pool_later (key : Key) : list nat * Pool -> list nat * Pool -> Prop :=
  | later_now x : pool_later key x x
  | later_supply x handed p key' request now persist :
      pool_later key x (handed, p) ->
      (key' = key -> forall fingerprint metadata receipt, persist fingerprint metadata <> Ok (receipt, true)) ->
      pool_later key x (handed, (Pool_Supply p key' request now persist).2)
  | later_available x handed p key' id now :
      pool_later key x (handed, p) -> pool_later key x (handed, (available p key' id now).2)
  | later_claim x handed p key' id now commit m called p' :
      pool_later key x (handed, p) -> Pool_Claim p key' id now commit = (Ok m, called, p') ->
      pool_later key x (pm_Values m :: handed, p')
  | later_refuse x handed p key' id now commit e called p' :
      pool_later key x (handed, p) -> Pool_Claim p key' id now commit = (Err e, called, p') -> pool_later key x (handed, p')
  | later_revoke x handed p key' id persist :
      pool_later key x (handed, p) -> pool_later key x (handed, (Revoke p key' id persist).2)
  | later_sweep x handed p now usable : pool_later key x (handed, p) -> pool_later key x (handed, Sweep p now usable)
  | later_close x handed p : pool_later key x (handed, p) -> pool_later key x (handed, Close p)
  | later_clear x handed p m :
      pool_later key x (handed, p) -> pm_Values m ∈ handed ->
      pool_later key x (filter (fun loc => loc <> pm_Values m) handed, Material_Clear p m).

Definition pool_good (handed : list nat) (p : Pool) : Prop := pool_ok p /\ wiped handed p /\ fresh_handed handed p.
Lemma dropped_good handed p q : dropped p q -> pool_good handed p -> pool_good handed q.
Proof. intros [H1 H2 H3 _ _ _ _]%dropped_frame (? & ? & ?). split_and!; auto. Qed.

Lemma available_good handed p key id now : pool_good handed p -> pool_good handed (available p key id now).2.
Proof. apply dropped_good, drop_where_dropped. Qed.

Lemma handed_fresh_loc handed p v p' loc : cloneValues p v = (p', loc) -> fresh_handed handed p -> loc ∉ handed.
Proof. intros [= <- <-] Hf Hin. destruct (Hf _ Hin). lia. Qed.

Lemma supply_good handed p key request now persist :
  pool_good handed p -> pool_good handed (Pool_Supply p key request now persist).2.
Proof.
  intros Hp. unfold Pool_Supply. destruct (po_closed p) eqn:Hcl; [done|]. cbn [orb].
  destruct (_ || not_nil (Supply_Validate request)); [done|].
  assert (po_closed (prune p now) = false) as Hcl'.
  { rewrite <- Hcl. apply (dropped_frame _ _ (drop_where_dropped p (fun _ m => stale now m))). }
  pose proof (dropped_good handed p _ (drop_where_dropped p (fun _ m => stale now m)) Hp) as Hq.
  fold (prune p now) in Hq. generalize dependent (prune p now). clear p Hp Hcl. intros p Hcl Hp.
  destruct (persist _ _) as [[receipt usable]|e]; [|done].
  destruct (_ || _); [done|]. destruct usable; cbn [negb]; [|by apply (dropped_good _ p); [repeat constructor|]].
  destruct (is_nil _ && _) eqn:Hlim; [done|].
  destruct (cloneValues (drop_key p key) (sp_Values request)) as [p1 loc] eqn:Ecl. cbn [snd].
  assert (pool_good handed (drop_key p key)) as (Ho & Hw & Hf) by (by apply (dropped_good _ p); [repeat constructor|]).
  destruct (clone_frame _ _ _ _ _ Ecl Ho Hw Hf) as (Ho1 & Hw1 & Hf1 & He1 & Hc1 & _).
  apply insert_frame; cbn [pm_Values pm_Key]; try done.
  - by apply (handed_fresh_loc handed _ _ _ _ Ecl).
  - by rewrite He1, drop_key_entries, lookup_delete_eq.
  - rewrite He1, drop_key_entries, map_size_delete. destruct Hp as (Hp & _ & _). pose proof (ok_held p Hp) as Hh.
    destruct (po_entries p !! key) as [m|] eqn:Em; cbn [is_nil not_nil negb andb id] in *.
    + assert (size (po_entries p) <> 0%nat) by (rewrite map_size_ne_0_lookup; eauto). lia.
    + by apply Z.leb_gt in Hlim.
  - rewrite Hc1. by rewrite (proj1 (drop_key_rest p key)).
Qed.

(** A successful claim: what was taken, and what is left behind. *)
Lemma Claim_Ok handed p key id now commit m called p' :
  pool_good handed p -> Pool_Claim p key id now commit = (Ok m, called, p') ->
  commit = None /\ called = Some None /\ po_closed p = false /\ pool_good (pm_Values m :: handed) p' /\
  po_entries p' !! key = None /\
  exists m0, po_entries p !! key = Some m0 /\ stale now m0 = false /\ pm_AuthorizationID m0 = id /\
    pm_AuthorizationID m = id /\ contents p' m = contents p m0 /\ po_store p' !! pm_Values m0 = Some ∅.
Proof.
  intros Hp. unfold Pool_Claim. destruct (available p key id now) as [ok p1] eqn:Ea.
  pose proof (available_good _ _ key id now Hp) as Hp1. rewrite Ea in Hp1. cbn [snd] in Hp1.
  apply available_spec in Ea as (Hd & -> & Hok). destruct ok; cbn [negb]; [|discriminate].
  destruct (proj1 Hok eq_refl) as (Hcl & _ & m0 & Hm0 & Hst & Hid). clear Hok.
  destruct commit; [discriminate|].
  assert (po_entries (prune p now) !! key = Some m0) as Hm1.
  { unfold prune. by rewrite drop_where_lookup, Hm0, Hst. }
  rewrite Hm1. destruct (cloneValues _ _) as [p2 loc] eqn:Ec. intros [= <- <- <-].
  destruct Hp1 as (Ho & Hw & Hf). destruct (clone_frame _ _ _ _ _ Ec Ho Hw Hf) as (Ho2 & Hw2 & Hf2 & He2 & _ & Hs2 & _).
  assert (dropped p2 (drop_key p2 key)) as Hd2 by repeat constructor.
  pose proof (dropped_frame _ _ Hd2) as Hfr. destruct Hp as (Hop & _ & _).
  split_and!; try done.
  - apply (dropped_good _ p2); [done|by split_and!].
  - by rewrite drop_key_entries, lookup_delete_eq.
  - exists m0. split_and!; try done.
    + unfold contents at 1. cbn [pm_Values].
      rewrite (fr_handed _ _ Hfr (loc :: handed)), Hs2; [|done|by left]. cbn [default].
      rewrite <- (fr_contents _ _ (dropped_frame _ _ Hd) key m0 Hop Hm1). done.
    + rewrite drop_key_store, He2, Hm1. rewrite list_lookup_insert_eq; [done|]. by apply (ok_key p2 Ho2 key); rewrite He2.
Qed.

Lemma Claim_good handed p key id now commit e called p' :
  pool_good handed p -> Pool_Claim p key id now commit = (Err e, called, p') -> pool_good handed p'.
Proof.
  intros Hp. pose proof (available_good _ _ key id now Hp) as Hp1. unfold Pool_Claim.
  destruct (available p key id now) as [ok p1]. cbn [snd] in Hp1.
  destruct ok; cbn [negb]; [|by intros [= _ _ <-]]. destruct commit; [by intros [= _ _ <-]|].
  destruct (po_entries p1 !! key); [by destruct (cloneValues _ _)|by intros [= _ _ <-]].
Qed.

Lemma clear_good handed p m :
  pool_good handed p -> pm_Values m ∈ handed ->
  pool_good (filter (fun loc => loc <> pm_Values m) handed) (Material_Clear p m).
Proof.
  intros (Ho & Hw & Hf) Hin. destruct (Hf _ Hin) as [Hlt Hne]. split_and!.
  - split; cbn; try apply Ho. intros k m' Hm. rewrite length_insert. by apply (ok_key p Ho).
  - intros loc v. cbn. intros [(<- & -> & _)|(Hn & Hv)]%list_lookup_insert_Some; [by right; right|].
    destruct (Hw _ _ Hv) as [?|[?|?]]; [by left| |by right; right]. right. left. apply list_elem_of_filter. by split.
  - intros loc [_ Hl]%list_elem_of_filter. cbn. rewrite length_insert. by apply Hf.
Qed.

(** No operation but a usable supply brings an entry back. *)
Lemma drop_where_absent p bad key : po_entries p !! key = None -> po_entries (drop_where p bad) !! key = None.
Proof. intros H. by rewrite drop_where_lookup, H. Qed.
Lemma drop_key_absent p k key : po_entries p !! key = None -> po_entries (drop_key p k) !! key = None.
Proof. intros H. rewrite drop_key_entries. by apply lookup_delete_None; right. Qed.
Lemma supply_absent p key key' request now persist :
  (key' = key -> forall fingerprint metadata receipt, persist fingerprint metadata <> Ok (receipt, true)) ->
  po_entries p !! key = None -> po_entries (Pool_Supply p key' request now persist).2 !! key = None.
Proof.
  intros Hn H. unfold Pool_Supply. destruct (_ || not_nil (Supply_Validate request)); [done|].
  apply (drop_where_absent _ (fun _ m => stale now m)) in H. fold (prune p now) in H. generalize dependent (prune p now). intros q H.
  destruct (persist _ _) as [[receipt usable]|e] eqn:Ep; [|done].
  destruct (_ || _); [done|]. destruct usable; cbn [negb]; [|by apply drop_key_absent].
  destruct (is_nil _ && _); [done|]. cbn. rewrite lookup_insert_ne; [by apply drop_key_absent|].
  intros E. by eapply Hn.
Qed.
Lemma claim_absent p key key' id now commit : po_entries p !! key = None -> po_entries (Pool_Claim p key' id now commit).2 !! key = None.
Proof.
  intros H. unfold Pool_Claim. destruct (available p key' id now) as [ok q] eqn:Ea. apply available_spec in Ea as (_ & -> & _).
  apply (drop_where_absent _ (fun _ m => stale now m)) in H. fold (prune p now) in H. destruct ok; cbn [negb]; [|done]. destruct commit; [done|].
  destruct (po_entries (prune p now) !! key') as [m|]; [|done]. cbn [cloneValues snd]. by apply drop_key_absent.
Qed.
Lemma later_absent key x y : pool_later key x y -> po_entries x.2 !! key = None -> po_entries y.2 !! key = None.
Proof.
  induction 1 as [x|x handed p key' request now persist _ IH Hn|x handed p key' id now _ IH|x handed p key' id now commit m called p' _ IH HC
    |x handed p key' id now commit e called p' _ IH HC|x handed p key' id persist _ IH|x handed p now usable _ IH|x handed p _ IH
    |x handed p m _ IH _]; intros Hx; try specialize (IH Hx); cbn [snd] in *.
  - done.
  - by apply supply_absent.
  - by apply drop_where_absent.
  - apply (claim_absent _ _ key' id now commit) in IH. by rewrite HC in IH.
  - apply (claim_absent _ _ key' id now commit) in IH. by rewrite HC in IH.
  - unfold Revoke. cbn [snd]. destruct persist; [|done]. destruct (po_entries p !! key') as [m|]; [|done].
    destruct (_ ==? _); [by apply drop_key_absent|done].
  - by apply drop_where_absent, drop_where_absent.
  - by apply drop_where_absent.
  - done.
Qed.
Lemma absent_refused q key id now commit :
  po_entries q !! key = None -> (Pool_Claim q key id now commit).1 = (Err (ENew secret_ErrUnavailable), None).
Proof.
  intros H. unfold Pool_Claim. destruct (available q key id now) as [ok q1] eqn:Ea.
  apply available_spec in Ea as (_ & _ & Hok). destruct ok; cbn [negb]; [|done].
  destruct (proj1 Hok eq_refl) as (_ & _ & m1 & Hm1 & _). congruence.
Qed.

Lemma empty_good key : pool_good [] (mkPool key ∅ false []).
Proof.
  split; [split|split]; cbn [po_entries po_store po_closed].
  - intros k m. by rewrite lookup_empty.
  - intros k1 k2 m1 m2. by rewrite lookup_empty.
  - by rewrite map_size_empty.
  - done.
  - intros loc v Hv. cbn in Hv. by rewrite lookup_nil in Hv.
  - intros loc Hin. by apply not_elem_of_nil in Hin.
Qed.

Lemma pool_run_good handed p : pool_run handed p -> pool_good handed p.
Proof.
  induction 1.
  - unfold NewPool in *. destruct (negb _); simplify_eq. apply empty_good.
  - by apply supply_good.
  - by apply available_good.
  - by destruct (Claim_Ok _ _ _ _ _ _ _ _ _ IHpool_run H0) as (_ & _ & _ & ? & _).
  - by eapply Claim_good.
  - unfold Revoke. cbn [snd]. repeat case_match; try done. apply (dropped_good _ p); [repeat constructor|done].
  - apply (dropped_good _ (prune p now)); [apply drop_where_dropped|].
    apply (dropped_good _ p); [apply drop_where_dropped|done].
  - pose proof (dropped_good _ _ _ (drop_where_dropped p (fun _ _ => true)) IHpool_run) as (Ho & Hw & Hf).
    split_and!; [|done|done].
    split; cbn; try apply Ho. intros _. apply map_eq. intros k. rewrite drop_where_lookup, lookup_empty.
    by destruct (po_entries p !! k).
  - by apply clear_good.
Qed.

(** ** Theorems *)

(** C34: whatever is done with the pool, at most sixteen entries are
    held and none once it is closed, and every copy of secret values that is
    neither waiting in an entry nor in the hands of a start has been wiped. *)
Theorem pool_run_wiped handed p :
  pool_run handed p ->
  Z.of_nat (size (po_entries p)) <= MaxHeld /\ (po_closed p = true -> po_entries p = ∅) /\
  forall loc v, po_store p !! loc = Some v -> v <> ∅ ->
    (exists k m, po_entries p !! k = Some m /\ pm_Key m = k /\ pm_Values m = loc) \/ loc ∈ handed.
Proof.
  intros (Ho & Hw & _)%pool_run_good. split_and!; [apply Ho|apply Ho|].
  intros loc v Hv Hne. destruct (Hw loc v Hv) as [(k & m & Hm & Hl)|[?|?]]; [|by right|done].
  left. exists k, m. split_and!; try done. by apply (ok_key p Ho).
Qed.

(** C35: a claim takes material only while the pool is open, under
    the authorization it was supplied for and before it expires, and only
    after its commit succeeded; the caller gets the values intact, the pool's
    own copy is wiped; and whatever is done with the pool afterwards (claims
    and supplies of other keys, supplies of this key that the repository
    refuses or answers to be unusable, revocations, sweeps, clearing what was
    handed out, closing), every claim of that key is refused without a
    commit, until usable material is supplied for it again. *)
Theorem Claim_once handed p key id now commit m called p' :
  pool_run handed p -> Pool_Claim p key id now commit = (Ok m, called, p') ->
  commit = None /\ called = Some None /\ po_closed p = false /\
  (exists m0 expires, po_entries p !! key = Some m0 /\ pm_AuthorizationID m0 = id /\
     CanonicalTime (pm_ExpiresAt m0) = Some expires /\ now < expires /\
     contents p' m = contents p m0 /\ po_store p' !! pm_Values m0 = Some ∅) /\
  forall handed' q id' now' commit', pool_later key (pm_Values m :: handed, p') (handed', q) ->
    (Pool_Claim q key id' now' commit').1 = (Err (ENew secret_ErrUnavailable), None).
Proof.
  intros Hr HC. destruct (Claim_Ok _ _ _ _ _ _ _ _ _ (pool_run_good _ _ Hr) HC)
    as (-> & -> & Hcl & Hg & Hn & m0 & Hm0 & Hst & Hid & _ & Hc & Hw).
  split_and!; try done.
  - unfold stale in Hst. destruct (CanonicalTime (pm_ExpiresAt m0)) as [ex|] eqn:Ex; [|done].
    exists m0, ex. split_and!; try done. unfold Before in Hst. by apply negb_false_iff, Z.ltb_lt in Hst.
  - intros handed' q id' now' commit' Hl. apply absent_refused. exact (later_absent _ _ _ Hl Hn).
Qed.

(** What was supplied is what the start receives: after an
    accepted supply the claim under its authorization, before it expires,
    succeeds and returns the same values. *)
Theorem supply_claim handed p key request now persist receipt p1 now' :
  pool_run handed p -> Pool_Supply p key request now persist = (Ok receipt, p1) ->
  persist (fingerprint (prune p now) key request)
    (mkMetadata (sp_AttemptID request) (sp_ReadinessRevision request) (sp_ExpiresAt request) (Supply_Names request))
    = Ok (receipt, true) ->
  (exists expires, CanonicalTime (sp_ExpiresAt request) = Some expires /\ now' < expires) ->
  exists m p2, Pool_Claim p1 key (rt_AuthorizationID receipt) now' None = (Ok m, Some None, p2) /\
    contents p2 m = sp_Values request /\ pm_Key m = key.
Proof.
  intros Hr HS HP (ex & Hex & Hlt). pose proof (pool_supply _ _ key request now persist Hr) as Hr1.
  rewrite HS in Hr1. cbn [snd] in Hr1. unfold Pool_Supply in HS.
  destruct (_ || not_nil (Supply_Validate request)) eqn:Hv; [done|]. rewrite HP in HS.
  destruct (_ || (Receipt_Key receipt <>? key)) eqn:Hrc; [done|]. cbn [negb] in HS.
  destruct (is_nil _ && _); [done|].
  set (q := drop_key (prune p now) key) in *.
  destruct (cloneValues q (sp_Values request)) as [q1 loc] eqn:Ecl. injection HS as HS. subst p1.
  set (m0 := mkPoolMaterial (rt_AuthorizationID receipt) key (sp_ExpiresAt request) loc) in *.
  set (p1 := with_entries q1 (<[key := m0]> (po_entries q1))) in *.
  assert (po_entries p1 !! key = Some m0) as Hm0 by apply lookup_insert_eq.
  assert (po_closed p1 = false) as Hc1.
  { injection Ecl as <- <-. subst p1 q. cbn. rewrite (proj1 (drop_key_rest _ _)).
    destruct (dropped_frame _ _ (drop_where_dropped p (fun _ m => stale now m))) as [_ _ _ _ _ _ (Hc & _)].
    unfold prune. rewrite Hc. by destruct (po_closed p). }
  assert (stale now' m0 = false) as Hst. { unfold stale, m0, Before. cbn [pm_ExpiresAt]. rewrite Hex. apply negb_false_iff. lia. }
  assert (ID_Valid (rt_AuthorizationID receipt) = true) as Hid.
  { apply orb_false_iff in Hrc as [Hrc _]. unfold Receipt_Validate in Hrc.
    destruct (ID_Valid (rt_AuthorizationID receipt)); done. }
  destruct (Pool_Claim p1 key (rt_AuthorizationID receipt) now' None) as [[r c] p2] eqn:EC.
  assert (exists m, r = Ok m) as [m ->].
  { unfold Pool_Claim in EC. destruct (available p1 _ _ now') as [ok p1'] eqn:Ea.
    apply available_spec in Ea as (_ & -> & Hok). destruct ok.
    - cbn [negb] in EC. unfold prune in EC. rewrite drop_where_lookup, Hm0, Hst in EC.
      destruct (cloneValues _ _). injection EC as <- _ _. eauto.
    - assert (false = true); [|done]. apply Hok. split_and!; [done|done|]. by exists m0. }
  destruct (Claim_Ok _ _ _ _ _ _ _ _ _ (pool_run_good _ _ Hr1) EC) as (_ & -> & _ & _ & _ & m1 & Hm1 & _ & _ & _ & Hc & _).
  rewrite Hm0 in Hm1. injection Hm1 as <-. exists m, p2. split_and!; [done| |].
  - rewrite Hc. injection Ecl as <- <-. unfold contents, p1, m0. cbn.
    by rewrite lookup_app_r, Nat.sub_diag by lia.
  - unfold Pool_Claim in EC. destruct (available p1 _ _ now') as [ok p1'] eqn:Ea.
    destruct ok; [|done]. cbn [negb] in EC. apply available_spec in Ea as (_ & -> & _).
    unfold prune in EC. rewrite drop_where_lookup, Hm0, Hst in EC.
    destruct (cloneValues _ _). by injection EC as <- _.
Qed.

(** ** A secret on its way to a start

    One pool on concrete values: a supply, the claim of its start, and what is
    left afterwards; and one iteration of a worker that backs off. *)
Definition pool_now : Time := 1700000000 * Second.
Definition secret_values : values := {[ "api_token" := "hunter2"; "other" := "x" ]}.
Definition secret_supply : Supply := mkSupply "attempt-1" sample_digest "2023-11-14T23:00:00Z" secret_values.
Definition secret_slot : Key := mkKey "workspace-1" "job-1" "attempt-1".
Definition secret_receipt : Receipt :=
  mkReceipt "authorization-1" "workspace-1" "job-1"
    (mkMetadata "attempt-1" sample_digest "2023-11-14T23:00:00Z" (Supply_Names secret_supply)) "granted" pool_now None None false.
Definition persisted (fingerprint : string) (m : Metadata) : result error (Receipt * bool) := Ok (secret_receipt, true).
Definition pool_key : string := "0123456789abcdef0123456789abcdef".
Definition empty_pool : Pool := mkPool pool_key ∅ false [].
Definition filled_pool : Pool := (Pool_Supply empty_pool secret_slot secret_supply pool_now persisted).2.
Definition claimed : result error PoolMaterial * option (option error) * Pool :=
  Pool_Claim filled_pool secret_slot "authorization-1" (pool_now + Second) None.
Definition claimed_material : PoolMaterial :=
  match claimed.1.1 with Ok m => m | Err _ => mkPoolMaterial "" secret_slot "" 0 end.

Lemma empty_run : pool_run [] empty_pool.
Proof. apply (pool_new pool_key). vm_compute. reflexivity. Qed.
Lemma filled_run : pool_run [] filled_pool.
Proof. exact (pool_supply [] _ secret_slot secret_supply pool_now persisted empty_run). Qed.
Lemma claim_step :
  Pool_Claim filled_pool secret_slot "authorization-1" (pool_now + Second) None = (Ok claimed_material, Some None, claimed.2).
Proof. vm_compute. reflexivity. Qed.

Lemma pool_run_wiped_witness :
  size (po_entries filled_pool) = 1%nat /\ Z.of_nat (size (po_entries filled_pool)) <= MaxHeld.
Proof. split; [vm_compute; reflexivity|]. exact (proj1 (pool_run_wiped [] filled_pool filled_run)). Defined.
(** After the claim another attempt is supplied and claimed, the first copy is
    cleared, a second supply for the first attempt is refused by the
    repository, and the pool is swept. *)
Definition other_slot : Key := mkKey "workspace-1" "job-1" "attempt-2".
Definition other_supply : Supply := mkSupply "attempt-2" sample_digest "2023-11-14T23:00:00Z" secret_values.
Definition other_receipt : Receipt :=
  mkReceipt "authorization-2" "workspace-1" "job-1"
    (mkMetadata "attempt-2" sample_digest "2023-11-14T23:00:00Z" (Supply_Names other_supply)) "granted" pool_now None None false.
Definition supplied_again : Pool :=
  (Pool_Supply claimed.2 other_slot other_supply (pool_now + 2 * Second) (fun _ _ => Ok (other_receipt, true))).2.
Definition other_claim : result error PoolMaterial * option (option error) * Pool :=
  Pool_Claim supplied_again other_slot "authorization-2" (pool_now + 3 * Second) None.
Definition other_material : PoolMaterial :=
  match other_claim.1.1 with Ok m => m | Err _ => mkPoolMaterial "" other_slot "" 0 end.
Definition cleared_pool : Pool := Material_Clear other_claim.2 claimed_material.
Definition refused_pool : Pool :=
  (Pool_Supply cleared_pool secret_slot secret_supply (pool_now + 4 * Second) (fun _ _ => Err secret_ErrState)).2.
Definition swept_pool : Pool := Sweep refused_pool (pool_now + 5 * Second) (fun _ _ => true).
Lemma claim_step_again :
  Pool_Claim supplied_again other_slot "authorization-2" (pool_now + 3 * Second) None = (Ok other_material, Some None, other_claim.2).
Proof. vm_compute. reflexivity. Qed.
Lemma swept_later : pool_later secret_slot ([pm_Values claimed_material], claimed.2)
  (filter (fun loc => loc <> pm_Values claimed_material) [pm_Values other_material; pm_Values claimed_material], swept_pool).
Proof.
  apply later_sweep, later_supply; [|intros _ f m r [=]]. apply later_clear; [|right; left].
  eapply later_claim; [|exact claim_step_again]. apply later_supply; [constructor|intros [=]].
Qed.
Lemma Claim_once_witness :
  contents claimed.2 claimed_material = secret_values /\
  (Pool_Claim swept_pool secret_slot "authorization-1" (pool_now + 6 * Second) None).1 = (Err (ENew secret_ErrUnavailable), None).
Proof.
  destruct (Claim_once [] filled_pool secret_slot "authorization-1" (pool_now + Second) None claimed_material (Some None) claimed.2
    filled_run claim_step) as (_ & _ & _ & (m0 & ex & Hm & _ & _ & _ & Hc & _) & H).
  split; [rewrite Hc; vm_compute in Hm; injection Hm as <-; vm_compute; reflexivity|exact (H _ _ _ _ _ swept_later)].
Defined.
Lemma supply_claim_witness :
  exists m p2, Pool_Claim filled_pool secret_slot "authorization-1" (pool_now + Second) None = (Ok m, Some None, p2) /\
    contents p2 m = secret_values /\ pm_Key m = secret_slot.
Proof.
  apply (supply_claim [] empty_pool secret_slot secret_supply pool_now persisted secret_receipt filled_pool (pool_now + Second) empty_run).
  - vm_compute. reflexivity.
  - reflexivity.
  - exists 1700002800000000000. split; vm_compute; reflexivity.
Defined.
Lemma run_iteration_backoff_witness :
  run_iteration (mkWorkerConfig 1 Second false) (fun _ => Retry) Second 0 false None = (Waits (Second / 2), Second) /\
  run_backoff <= Second <= Second.
Proof.
  assert (run_iteration (mkWorkerConfig 1 Second false) (fun _ => Retry) Second 0 false None = (Waits (Second / 2), Second)) as E by
    (vm_compute; reflexivity).
  split; [exact E|].
  refine (proj1 (run_iteration_backoff (mkWorkerConfig 1 Second false) (fun _ => Retry) Second 0 false None _ _ _ _ E));
    split; vm_compute; discriminate.
Defined.
