(* ===== verification/Transfer.v ===== *)
(** * Verified transfers

    [internal/provider/transfer.go]: [CopyVerified] streams an artifact into a
    temporary destination and accepts it only when its length and digest are
    the declared ones. The reader, the writer and the context are the
    caller's: a reader is the list of results its calls produce, a writer a
    function of what it already holds, a context the results of successive
    [Err] calls. *)

From S2P Require Import Prelude GoStrings GoTime GoSha256 Identifiers Problems DomainRecords AttemptStates Provider ProviderResources.
#[local] Open Scope string_scope.
#[local] Open Scope list_scope.
#[local] Open Scope Z_scope.
#[local] Open Scope bool_scope.

Definition EOF : error := ENew "EOF".
Definition is_EOF (e : error) : bool := match e with ENew t => t ==? "EOF" | _ => false end.
Definition ErrShortWrite : error := ENew "short write".

(** One call of [Read]: the bytes it has for the caller and its error. A call
    with a smaller buffer leaves the rest for the next one; a reader with
    nothing left reports [EOF]. *)
Record read_result := mkRead { rd_data : list ascii; rd_err : option error }.
Abbreviation reader := (list read_result).
Definition Read (src : reader) (max : nat) : list ascii * option error * reader :=
  match src with
  | [] => ([], Some EOF, [])
  | mkRead data err :: src' =>
      if (length data <=? max)%nat then (data, err, src')
      else (take max data, None, mkRead (drop max data) err :: src')
  end.

(** Everything the reader hands out up to its first error, and that error. *)
Fixpoint delivered (src : reader) : list ascii * error :=
  match src with
  | [] => ([], EOF)
  | mkRead data (Some e) :: _ => (data, e)
  | mkRead data None :: src' => let '(rest, e) := delivered src' in (data ++ rest, e)
  end.

Section Transfer.
(** [ctx.Err()] at its n-th call, and [destination.Write(p)] after [held]. *)
Context (ctx_Err : nat -> option error).
Context (dst_Write : list ascii -> list ascii -> nat * option error).

(** [contextReader.Read]; [calls] counts the context checks made so far. *)
Definition contextReader_Read (calls : nat) (src : reader) (max : nat)
    : list ascii * option error * reader * nat :=
  match ctx_Err calls with
  | Some e => ([], Some e, src, S calls)
  | None => let '(data, err, src') := Read src max in (data, err, src', S calls)
  end.

(** The destination and the hash behind [io.MultiWriter]. *)
Record sink := mkSink { sk_destination : list ascii; sk_hash : list ascii }.
Definition MultiWriter_Write (s : sink) (p : list ascii) : nat * option error * sink :=
  let '(n, err) := dst_Write (sk_destination s) p in
  let s' := mkSink (sk_destination s ++ take n p) (sk_hash s) in
  match err with
  | Some e => (n, Some e, s')
  | None => if (n =? length p)%nat then (n, None, mkSink (sk_destination s') (sk_hash s ++ p))
            else (n, Some ErrShortWrite, s')
  end.

Definition copy_buffer : Z := 32 * 2 ^ 10.

(** [io.Copy(MultiWriter, LimitReader(reader, limit))]: bytes written, error,
    and what is left of the reader. Every round takes a result from the reader
    or shortens its first one, so [read_measure] rounds are enough. *)
Fixpoint io_Copy (fuel : nat) (calls : nat) (src : reader) (limit written : Z) (s : sink)
    : Z * option error * reader * nat * sink :=
  match fuel with
  | O => (written, None, src, calls, s)
  | S f =>
      if limit <=? 0 then (written, None, src, calls, s) else
      let max := Z.to_nat (Z.min copy_buffer limit) in
      let '(data, er, src', calls') := contextReader_Read calls src max in
      let limit' := limit - Z.of_nat (length data) in
      let after (written : Z) (s : sink) :=
        match er with
        | Some e => (written, if is_EOF e then None else Some e, src', calls', s)
        | None => io_Copy f calls' src' limit' written s
        end in
      match data with
      | [] => after written s
      | _ =>
          let '(n, ew, s') := MultiWriter_Write s data in
          let n := if (length data <? n)%nat then O else n in
          let written' := written + Z.of_nat n in
          match ew with
          | Some e => (written', Some e, src', calls', s')
          | None => after written' s'
          end
      end
  end.

Definition read_measure (src : reader) : nat :=
  S (fold_right (fun r n => S (length (rd_data r) + n)) O src).

(** [io.ReadFull(reader, extra[:])] with one byte: how many were read. *)
Fixpoint ReadFull1 (calls : nat) (src : reader) : nat * error :=
  match ctx_Err calls with
  | Some e => (O, e)
  | None =>
      match src with
      | [] => (O, EOF)
      | mkRead (_ :: _) _ :: _ => (1%nat, EOF)
      | mkRead [] (Some e) :: _ => (O, e)
      | mkRead [] None :: src' => ReadFull1 (S calls) src'
      end
  end.

Record TransferResult := mkTransferResult { tr_Bytes : Z; tr_SHA256 : string }.

(** A problem built with [provider.Problem]; its panic is kept as an error. *)
Definition transfer_problem (code : ErrorCode) (message : string) : error :=
  match provider_Problem code FailureStageResults message with
  | Ok p => EProblem false p
  | Err e => e
  end.

(** The result and what the destination holds afterwards. *)
Definition CopyVerified (source : option reader) (destination : bool) (artifact : Artifact) (maxBytes : Z)
    : result error TransferResult * list ascii :=
  match ctx_Err 0 with
  | Some e => (Err e, [])
  | None =>
  match Artifact_Validate artifact (af_Remote artifact) with
  | Some e => (Err e, [])
  | None =>
  match source with
  | None => (Err (ENew "invalid transfer endpoint or byte budget"), [])
  | Some src =>
  if negb destination || (maxBytes <? 0) || (maxBytes <? af_Bytes artifact)
  then (Err (ENew "invalid transfer endpoint or byte budget"), []) else
  let '(n, err, src', calls, s) :=
    io_Copy (read_measure src) 1 src (af_Bytes artifact) 0 (mkSink [] []) in
  let held := sk_destination s in
  match err with
  | Some e => (Err e, held)
  | None =>
  match ctx_Err calls with
  | Some e => (Err e, held)
  | None =>
  if negb (n =? af_Bytes artifact)
  then (Err (transfer_problem CodeArtifactCollectionFailed "artifact byte count mismatch"), held) else
  let '(tail, tailErr) := ReadFull1 (S calls) src' in
  if negb (tail =? 0)%nat
  then (Err (transfer_problem CodeArtifactCollectionFailed "artifact exceeds declared byte count"), held) else
  if negb (is_EOF tailErr) then (Err tailErr, held) else
  let digest := sha256_hex (string_of (sk_hash s)) in
  if digest <>? af_SHA256 artifact
  then (Err (transfer_problem CodeArtifactDigestMismatch "artifact digest mismatch"), held)
  else (Ok (mkTransferResult n digest), held)
  end end end end end.

(** ** Progress

    [WithTransferProgress]: the wrapped writer, with the absolute count and
    the sticky error of the callback. *)
Context (report : Z -> option error).
Record progressWriter := mkProgressWriter { pw_held : list ascii; pw_n : Z; pw_err : option error }.
Definition progressWriter_Write (w : progressWriter) (p : list ascii) : nat * option error * progressWriter :=
  match pw_err w with
  | Some e => (O, Some e, w)
  | None =>
      let '(n, err) := dst_Write (pw_held w) p in
      if (length p <? n)%nat then (O, Some ErrShortWrite, mkProgressWriter (pw_held w ++ take n p) (pw_n w) None) else
      let w' := mkProgressWriter (pw_held w ++ take n p) (pw_n w + Z.of_nat n) None in
      match err with
      | None =>
          if (n =? length p)%nat then
            match report (pw_n w') with
            | Some e => (n, Some e, mkProgressWriter (pw_held w') (pw_n w') (Some e))
            | None => (n, None, w')
            end
          else (n, None, w')
      | Some e => (n, Some e, w')
      end
  end.

(** ** Lemmas *)
Lemma Read_spec src max data err src' :
  (0 < max)%nat -> Read src max = (data, err, src') ->
  (length data <= max)%nat /\
  match err with
  | Some e => delivered src = (data, e)
  | None => delivered src = (data ++ (delivered src').1, (delivered src').2)
            /\ (read_measure src' < read_measure src)%nat
  end.
Proof.
  intros Hmax. destruct src as [|[d er] src0]; cbn; [by intros [= <- <- <-]; cbn; split; [lia|]|].
  destruct (Nat.leb_spec (length d) max) as [Hl|Hl]; intros [= <- <- <-]; (split; [rewrite ?length_take; lia|]).
  - destruct er; [done|]. destruct (delivered src0). cbn. split; [done|]. unfold read_measure. cbn. lia.
  - split.
    + cbn. destruct er; cbn; [by rewrite take_drop|].
      destruct (delivered src0). cbn. by rewrite app_assoc, take_drop.
    + unfold read_measure. cbn. rewrite length_drop. lia.
Qed.

(** [ctx.Err()] is nil, [Canceled] or [DeadlineExceeded], never [io.EOF]. *)
Context (ctx_not_EOF : forall n e, ctx_Err n = Some e -> is_EOF e = false).

Lemma contextReader_spec calls src max data err src' calls' :
  (0 < max)%nat -> contextReader_Read calls src max = (data, err, src', calls') ->
  (length data <= max)%nat /\ (exists more, (delivered src).1 = data ++ more) /\
  match err with
  | Some e => is_EOF e = true -> delivered src = (data, e)
  | None => delivered src = (data ++ (delivered src').1, (delivered src').2)
            /\ (read_measure src' < read_measure src)%nat
  end.
Proof.
  intros Hmax. unfold contextReader_Read. destruct (ctx_Err calls) as [e|] eqn:Hc.
  - intros [= <- <- <- <-]. cbn. split; [lia|]. split; [by exists (delivered src).1|].
    by rewrite (ctx_not_EOF _ _ Hc).
  - destruct (Read src max) as [[d er] s] eqn:HR. apply Read_spec in HR as [Hl HR]; [|done].
    intros [= <- <- <- <-]. split; [done|]. destruct er as [e|].
    + rewrite HR. split; [|done]. exists []. by rewrite app_nil_r.
    + destruct HR as [HR Hm]. split; [exists (delivered s).1; by rewrite HR|done].
Qed.

Lemma MultiWriter_spec s p n err s' :
  MultiWriter_Write s p = (n, err, s') ->
  (exists k, sk_destination s' = sk_destination s ++ take k p) /\
  (err = None -> n = length p /\ sk_destination s' = sk_destination s ++ p /\ sk_hash s' = sk_hash s ++ p).
Proof.
  unfold MultiWriter_Write. destruct (dst_Write _ p) as [k e]. destruct e as [e|].
  - intros [= <- <- <-]. cbn. split; [by eexists|done].
  - destruct (Nat.eqb_spec k (length p)) as [->|]; intros [= <- <- <-]; cbn; (split; [by eexists|]); [|done].
    by rewrite take_ge.
Qed.

(** What a copy of at most [limit] bytes has done when it stops. *)
Definition copied (src : reader) (limit written : Z) (s : sink) (n : Z) (err : option error)
    (src' : reader) (s' : sink) : Prop :=
  exists chunk more, sk_destination s' = sk_destination s ++ chunk /\ Z.of_nat (length chunk) <= limit /\
    (delivered src).1 = chunk ++ more /\
    (err = None ->
       n = written + Z.of_nat (length chunk) /\ sk_hash s' = sk_hash s ++ chunk /\
       ((more = [] /\ is_EOF (delivered src).2 = true) \/
        (Z.of_nat (length chunk) = limit /\ delivered src = (chunk ++ (delivered src').1, (delivered src').2)))).

Lemma copied_stop src limit written s data er src' n err s' :
  Z.of_nat (length data) <= limit ->
  (exists more, (delivered src).1 = data ++ more) ->
  (is_EOF er = true -> delivered src = (data, er)) ->
  sk_destination s' = sk_destination s ++ data -> sk_hash s' = sk_hash s ++ data ->
  n = written + Z.of_nat (length data) -> err = (if is_EOF er then None else Some er) ->
  copied src limit written s n err src' s'.
Proof.
  intros Hl [more Hd] He Hs Hh -> ->. exists data, more. split_and!; [done..|].
  destruct (is_EOF er) eqn:Er; [|done]. intros _. split_and!; [done..|]. left.
  rewrite He in Hd |- * by done. cbn in Hd. split; [|done].
  rewrite <- (app_nil_r data) in Hd at 1. by apply app_inv_head in Hd.
Qed.

Lemma copied_step src src1 limit written s s1 data n err src' s' :
  delivered src = (data ++ (delivered src1).1, (delivered src1).2) ->
  sk_destination s1 = sk_destination s ++ data -> sk_hash s1 = sk_hash s ++ data ->
  copied src1 (limit - Z.of_nat (length data)) (written + Z.of_nat (length data)) s1 n err src' s' ->
  copied src limit written s n err src' s'.
Proof.
  intros Hd Hs Hh (chunk & more & H1 & H2 & H3 & H4). exists (data ++ chunk), more.
  rewrite H1, Hs, app_assoc, length_app, Nat2Z.inj_add, Hd, H3. cbn. split_and!; [done|lia|by rewrite app_assoc|].
  intros He. destruct (H4 He) as (-> & -> & HX). rewrite Hh, app_assoc. split_and!; [lia|done|].
  destruct HX as [HX|[HX1 HX2]]; [by left|right]. split; [lia|].
  rewrite <- H3, HX2. cbn. by rewrite app_assoc.
Qed.

Lemma io_Copy_spec fuel : forall calls src limit written s n err src' calls' s',
  (read_measure src <= fuel)%nat -> 0 <= limit ->
  io_Copy fuel calls src limit written s = (n, err, src', calls', s') ->
  copied src limit written s n err src' s'.
Proof.
  induction fuel as [|f IH]; intros calls src limit written s n err src' calls' s' Hf Hl; [unfold read_measure in Hf; lia|].
  cbn [io_Copy]. destruct (Z.leb_spec limit 0).
  { intros [= <- <- <- <- <-]. exists [], (delivered src).1. rewrite app_nil_r. cbn. split_and!; [done|lia|done|].
    intros _. rewrite app_nil_r. split_and!; [lia|done|right]. split; [lia|]. by destruct (delivered src). }
  destruct (contextReader_Read _ _ _) as [[[data er] src1] calls1] eqn:HR.
  apply contextReader_spec in HR as (Hlen & Hmore & Her); [|unfold copy_buffer; lia].
  assert (Z.of_nat (length data) <= limit) as Hdl by lia.
  destruct data as [|c data']; [|destruct (MultiWriter_Write s (c :: data')) as [[k ew] s1] eqn:HW;
    apply MultiWriter_spec in HW as [[j Hj] HW]; destruct ew as [e|]; [|destruct (HW eq_refl) as (-> & Hs1 & Hh1);
      rewrite Nat.ltb_irrefl]]; cbv zeta.
  - destruct er as [e|].
    + intros [= <- <- <- <- <-].
      eapply (copied_stop _ _ _ _ [] e); [done..|by rewrite app_nil_r|by rewrite app_nil_r|cbn; lia|done].
    + destruct Her as [Hd Hm]. intros HC. apply IH in HC; [|lia..].
      eapply copied_step; [exact Hd|by rewrite app_nil_r|by rewrite app_nil_r|].
      cbn. by rewrite Z.sub_0_r, Z.add_0_r in *.
  - intros [= <- <- <- <- <-]. destruct Hmore as [more Hmore].
    exists (take j (c :: data')), (drop j (c :: data') ++ more). rewrite length_take.
    split_and!; [done|lia|by rewrite app_assoc, take_drop|done].
  - destruct er as [e|].
    + intros [= <- <- <- <- <-]. by eapply (copied_stop _ _ _ _ (c :: data') e).
    + destruct Her as [Hd Hm]. intros HC. apply IH in HC; [|lia..]. by eapply copied_step.
Qed.

Lemma ReadFull1_EOF src : forall calls e,
  ReadFull1 calls src = (O, e) -> is_EOF e = true -> (delivered src).1 = [] /\ is_EOF (delivered src).2 = true.
Proof.
  induction src as [|[data er] src IH]; intros calls e; cbn; destruct (ctx_Err calls) as [ce|] eqn:Hc;
    try (intros [= <-] He; by rewrite (ctx_not_EOF _ _ Hc) in He); [done|].
  destruct data; [|done]. destruct er as [e'|]; [by intros [= <-]|].
  intros HR He. destruct (IH _ _ HR He). by destruct (delivered src).
Qed.

(** C23: an accepted transfer is complete and exact. The destination
    holds everything the source delivered up to its end of file, nothing else,
    with the declared length and digest, within the byte budget. *)
Theorem CopyVerified_sound src destination artifact maxBytes r held :
  CopyVerified (Some src) destination artifact maxBytes = (Ok r, held) ->
  (delivered src).1 = held /\ is_EOF (delivered src).2 = true /\
  Z.of_nat (length held) = af_Bytes artifact /\ af_Bytes artifact <= maxBytes /\
  sha256_hex (string_of held) = af_SHA256 artifact /\
  r = mkTransferResult (af_Bytes artifact) (af_SHA256 artifact).
Proof.
  unfold CopyVerified. destruct (ctx_Err 0); [done|].
  destruct (Artifact_Validate _ _) eqn:HA; [done|]. destruct (_ || _) eqn:HG; [done|]. bool_to_prop.
  destruct (io_Copy _ _ _ _ _ _) as [[[[n err] src'] calls] s] eqn:HC.
  assert (0 <= af_Bytes artifact) as Hb.
  { unfold Artifact_Validate in HA. split_guards HA. bool_to_prop. lia. }
  apply io_Copy_spec in HC as (chunk & more & D1 & D2 & D3 & D4); [|done..]. cbn in D1.
  destruct err; [done|]. destruct (D4 eq_refl) as (Hn & Hh & HX). cbn in Hh.
  destruct (ctx_Err calls); [done|]. destruct (Z.eqb_spec n (af_Bytes artifact)) as [En|]; [cbn|done].
  destruct (ReadFull1 _ _) as [tail tailErr] eqn:HF. destruct (Nat.eqb_spec tail 0) as [->|]; [cbn|done].
  destruct (is_EOF tailErr) eqn:He; [cbn|done]. case_bool_decide as Hd; [cbn|done]. intros [= <- <-].
  destruct (ReadFull1_EOF _ _ _ HF He) as [Hr1 Hr2].
  assert (more = [] /\ is_EOF (delivered src).2 = true) as [-> HE].
  { destruct HX as [HX|[_ HX]]; [done|]. rewrite HX in D3 |- *. cbn in *. rewrite Hr1 in D3.
    by apply app_inv_head in D3. }
  rewrite D1, D3, app_nil_r. rewrite Hh in Hd. split_and!; [done|done|lia|lia|done|by rewrite Hh, Hd, En].
Qed.

(** Whatever the source, the writer and the context do, the
    destination never holds more than the declared length, and only bytes
    the source delivered, in order. *)
Theorem CopyVerified_bounded src destination artifact maxBytes :
  let held := (CopyVerified (Some src) destination artifact maxBytes).2 in
  (held = [] \/ Z.of_nat (length held) <= af_Bytes artifact <= maxBytes) /\
  exists more, (delivered src).1 = held ++ more.
Proof.
  cbv zeta. unfold CopyVerified. destruct (ctx_Err 0); [split; [by left|by eexists]|].
  destruct (Artifact_Validate _ _) eqn:HA; [split; [by left|by eexists]|].
  destruct (_ || _) eqn:HG; [split; [by left|by eexists]|]. bool_to_prop.
  destruct (io_Copy _ _ _ _ _ _) as [[[[n err] src'] calls] s] eqn:HC.
  assert (0 <= af_Bytes artifact) as Hb.
  { unfold Artifact_Validate in HA. split_guards HA. bool_to_prop. lia. }
  apply io_Copy_spec in HC as (chunk & more & D1 & D2 & D3 & _); [|done..]. cbn in D1.
  enough (forall r : result error TransferResult, (sk_destination s = [] \/ Z.of_nat (length (sk_destination s)) <= af_Bytes artifact <= maxBytes) /\
    exists more, (delivered src).1 = (r, sk_destination s).2 ++ more) as HK.
  { destruct err; [apply HK|]. destruct (ctx_Err calls); [apply HK|]. case_match; [apply HK|].
    destruct (ReadFull1 _ _). repeat (case_match; [apply HK|]). apply HK. }
  intros r. cbn. rewrite D1. split; [right; lia|by exists more].
Qed.
End Transfer.

(** ** Honest readers

    A reader without errors, whatever the fragments it returns. *)
Definition fragments (chunks : list (list ascii)) : reader := map (fun d => mkRead d None) chunks.
Definition writes_all (held p : list ascii) : nat * option error := (length p, None).

Lemma delivered_fragments chunks : delivered (fragments chunks) = (concat chunks, EOF).
Proof.
  induction chunks as [|c chunks IH]; [done|]. unfold fragments in *. cbn [map delivered]. by rewrite IH.
Qed.

Lemma Read_fragments chunks max data err src' :
  Read (fragments chunks) max = (data, err, src') ->
  exists chunks', src' = fragments chunks' /\ concat chunks = data ++ concat chunks' /\
    (err = None \/ err = Some EOF).
Proof.
  destruct chunks as [|c chunks]; cbn.
  - intros [= <- <- <-]. exists []. auto.
  - destruct (_ <=? _)%nat; intros [= <- <- <-]; [by exists chunks; auto|].
    exists (drop max c :: chunks). cbn. rewrite app_assoc, take_drop. auto.
Qed.

Lemma io_Copy_fragments fuel : forall calls chunks limit written s n err src' calls' s',
  io_Copy (fun _ => None) writes_all fuel calls (fragments chunks) limit written s = (n, err, src', calls', s') ->
  err = None /\ exists chunks' pre, src' = fragments chunks' /\ concat chunks = pre ++ concat chunks' /\
    sk_destination s' = sk_destination s ++ pre.
Proof.
  induction fuel as [|f IH]; intros calls chunks limit written s n err src' calls' s'; cbn [io_Copy].
  { intros [= <- <- <- <- <-]. split; [done|]. exists chunks, []. by rewrite app_nil_r. }
  destruct (limit <=? 0).
  { intros [= <- <- <- <- <-]. split; [done|]. exists chunks, []. by rewrite app_nil_r. }
  unfold contextReader_Read.
  destruct (Read _ _) as [[data er] src1] eqn:HR. apply Read_fragments in HR as (chunks1 & -> & -> & Her). cbv zeta.
  destruct data as [|c data]; [|unfold MultiWriter_Write, writes_all; rewrite Nat.eqb_refl, Nat.ltb_irrefl];
    (destruct Her as [-> | ->];
     [intros HC; apply IH in HC as (-> & chunks' & pre & -> & -> & HD)|intros [= <- <- <- <- <-]]); (split; [done|]).
  - by exists chunks', pre.
  - exists chunks1, []. by rewrite app_nil_r.
  - exists chunks', ((c :: data) ++ pre). rewrite HD. cbn [sk_destination]. rewrite firstn_all.
    split_and!; [done|by rewrite <- app_assoc|by rewrite <- app_assoc].
  - exists chunks1, (c :: data). cbn [sk_destination]. by rewrite firstn_all.
Qed.

Lemma ReadFull1_fragments chunks : forall calls,
  concat chunks = [] -> ReadFull1 (fun _ => None) calls (fragments chunks) = (O, EOF).
Proof. induction chunks as [|c chunks IH]; intros calls; [done|]. cbn. destruct c; [by intros ?; apply IH|done]. Qed.

(** C38: A valid artifact whose bytes arrive intact, in any
    fragments and however many reads that takes, within the budget, is copied
    to the end and accepted: the copy loop terminates with the whole content. *)
Theorem CopyVerified_complete chunks artifact maxBytes :
  Artifact_Validate artifact (af_Remote artifact) = None ->
  Z.of_nat (length (concat chunks)) = af_Bytes artifact -> af_Bytes artifact <= maxBytes ->
  sha256_hex (string_of (concat chunks)) = af_SHA256 artifact ->
  CopyVerified (fun _ => None) writes_all (Some (fragments chunks)) true artifact maxBytes
  = (Ok (mkTransferResult (af_Bytes artifact) (af_SHA256 artifact)), concat chunks).
Proof.
  intros HA Hl Hm Hd. unfold CopyVerified. rewrite HA, (proj2 (Z.ltb_ge maxBytes 0)) by lia.
  rewrite (proj2 (Z.ltb_ge maxBytes (af_Bytes artifact))) by lia. cbn [negb orb].
  destruct (io_Copy _ _ _ _ _ _ _ _) as [[[[n err] src'] calls] s] eqn:HC.
  destruct (io_Copy_fragments _ _ _ _ _ _ _ _ _ _ _ HC) as (-> & chunks' & pre & -> & Hpre & HD).
  apply io_Copy_spec in HC as (chunk & more & D1 & D2 & D3 & D4); [|done|done|lia].
  destruct (D4 eq_refl) as (-> & Hh & HX). rewrite !delivered_fragments in *. cbn in *.
  assert (chunk = concat chunks /\ concat chunks' = []) as [-> HT].
  { rewrite D1 in HD. cbn in HD. subst pre. rewrite Hpre, length_app in Hl.
    rewrite Hpre in D3. apply app_inv_head in D3. rewrite Hpre, D3 in *.
    destruct HX as [[-> _]|[HX1 _]]; [by rewrite app_nil_r|].
    destruct more; [by rewrite app_nil_r|cbn in Hl; lia]. }
  rewrite (proj2 (Z.eqb_eq _ _)) by lia. cbn. rewrite ReadFull1_fragments by done. cbn.
  rewrite Hh, Hd, D1, Hl, (bool_decide_eq_true_2 (af_SHA256 artifact = _)) by done. done.
Qed.
