(* ===== verification/Scheduler.v ===== *)
(** * Scheduler

    [internal/scheduler]: policy records ([model.go]), quota decisions
    ([quota.go]) and the selection of one attempt to prepare ([select.go]).
    [Select] works on one consistent snapshot of the candidate rows; its
    result is committed by the store together with the workspace cursor. *)

From Stdlib Require Import SpecFloat.
From S2P Require Import Prelude GoStrings GoTime Identifiers Problems DomainRecords AttemptStates Provider ProviderResources.
#[local] Open Scope string_scope.
#[local] Open Scope list_scope.
#[local] Open Scope Z_scope.
#[local] Open Scope bool_scope.

(** ** Records and policy *)
Definition ScanLimit : Z := 100000.

Inductive scheduler_error := ErrInvalid | ErrLeaseLost | ErrPhaseGate | ErrScanLimit.

Record Settings := mkSettings {
  st_Paused : bool; st_MaxWorkers : Z; st_MaxActivePerAccount : Z;
  st_LeaseDuration : Duration; st_QuotaFreshFor : Duration; st_BlockedRecheck : Duration }.
Definition DefaultSettings : Settings :=
  mkSettings false 4 1 (30 * Second) (5 * Minute) (5 * Minute).
Definition Settings_Valid (s : Settings) : bool :=
  (0 <? st_MaxWorkers s) && (st_MaxWorkers s <=? 64) && (0 <? st_MaxActivePerAccount s)
  && (st_MaxActivePerAccount s <=? 64)
  && (Second <=? st_LeaseDuration s) && (st_LeaseDuration s <=? 5 * Minute) && (Z.rem (st_LeaseDuration s) Millisecond =? 0)
  && (Second <=? st_QuotaFreshFor s) && (st_QuotaFreshFor s <=? Hour) && (Z.rem (st_QuotaFreshFor s) Millisecond =? 0)
  && (Second <=? st_BlockedRecheck s) && (st_BlockedRecheck s <=? Hour) && (Z.rem (st_BlockedRecheck s) Millisecond =? 0).

Record AccountPolicy := mkAccountPolicy { ap_Disabled : bool; ap_MaxActive : Z; ap_StrictQuota : bool }.
Definition AccountPolicy_Valid (p : AccountPolicy) : bool := (0 <? ap_MaxActive p) && (ap_MaxActive p <=? 64).

(** [scheduler.Identity]. *)
Record SchedIdentity := mkSchedIdentity { si_WorkspaceID : string; si_JobID : string; si_AttemptID : string }.
Definition SchedIdentity_Valid (i : SchedIdentity) : bool :=
  ID_Valid (si_WorkspaceID i) && ID_Valid (si_JobID i) && ID_Valid (si_AttemptID i).

(** [scheduler.Reason]; the empty string, used for no warning, is [NoReason]. *)
Inductive SchedulerReason :=
  | Eligible | AuthorizationRequired | Paused | WorkerLimit | AccountLimit | ResourceLimit
  | ResourceUnverified | ResourceUnresolved | AccountDisabled | WorkspaceDisabled | Deferred
  | QuotaUnknownReason | QuotaStaleReason | QuotaUnavailableReason | QuotaExhausted
  | QuotaInsufficient | QuotaUncertain
  | NoReason.
#[export] Instance SchedulerReason_eq_dec : EqDecision SchedulerReason.
Proof. solve_decision. Defined.

Definition ValidTime (t : Time) : bool := negb (IsZero t) && (1970 <=? Year t) && (Year t <? 9999).

Record Claim := mkClaim {
  cl_Identity : SchedIdentity; cl_Sequence : Z; cl_Owner : string; cl_Generation : Z; cl_Fence : string;
  cl_ExpiresAt : Time; cl_AttemptRevision : Z; cl_AccountScope : string; cl_ProviderInstanceID : string;
  cl_QuotaWarning : SchedulerReason }.
Definition Claim_Valid (c : Claim) : bool :=
  SchedIdentity_Valid (cl_Identity c) && (0 <? cl_Sequence c) && ID_Valid (cl_Owner c) && (0 <? cl_Generation c)
  && SHA256Digest_Valid (cl_Fence c) && ValidTime (cl_ExpiresAt c) && (0 <? cl_AttemptRevision c)
  && ID_Valid (cl_AccountScope c) && ID_Valid (cl_ProviderInstanceID c).

(** ** Quota *)
Record Quota := mkQuota { qt_Observation : option QuotaObservation; qt_Exhausted : bool }.

(** [Seconds]: the remaining allowance and whether it is usable. *)
Definition usable (value : float64) : bool :=
  negb (IsNaN value) && negb (IsInf value) && SFleb float_zero value.
Definition Seconds (q : QuotaObservation) : float64 * bool :=
  match qo_Remaining q with
  | None => (float_zero, false)
  | Some value =>
      if not_nil (QuotaObservation_Validate q) then (float_zero, false) else
      if qo_Unit q ==? "seconds" then (value, usable value)
      else if qo_Unit q ==? "hours" then
        let value := SFmul float_prec float_emax value (float_of_Z 3600) in (value, usable value)
      else (float_zero, false)
  end.

(** [Time.Sub] saturates at the int64 bounds. *)
Definition time_Sub (a b : Time) : Duration := Z.max MinInt64 (Z.min MaxInt64 (a - b)).

Definition Decide (q : Quota) (resource : string) (wall : Z) (strict : bool) (freshFor : Duration) (now : Time)
    : SchedulerReason * SchedulerReason :=
  if qt_Exhausted q then (QuotaExhausted, NoReason) else
  let finish (warning : SchedulerReason) := if strict then (warning, NoReason) else (Eligible, warning) in
  match qt_Observation q with
  | None => finish QuotaUnknownReason
  | Some o =>
      if not_nil (QuotaObservation_Validate o) || (qo_Resource o <>? resource) || IsZero (qo_ObservedAt o)
         || After (qo_ObservedAt o) now
      then finish QuotaUncertain
      else match qo_Status o with
      | QuotaUnavailable => finish QuotaUnavailableReason
      | QuotaUnknown => finish QuotaUnknownReason
      | QuotaKnown | QuotaStale =>
          let '(remaining, ok) := Seconds o in
          if ok && SFeqb remaining float_zero then (QuotaExhausted, NoReason)
          else if negb ok then finish QuotaUncertain
          else if (qo_Status o ==? QuotaStale) || (freshFor <=? time_Sub now (qo_ObservedAt o))
          then finish QuotaStaleReason
          else if SFltb remaining (float_of_Z wall) then (QuotaInsufficient, NoReason)
          else if (qo_Precision o <>? "exact") && (qo_Precision o <>? "lower_bound")
          then finish QuotaUncertain
          else (Eligible, NoReason)
      | QuotaOther _ => finish QuotaUncertain
      end
  end.

(** ** Candidates *)
Record Candidate := mkCandidate {
  ca_Identity : SchedIdentity; ca_Sequence : Z; ca_State : AttemptState; ca_ActiveAttempt : bool;
  ca_WorkspaceEnabled : bool; ca_AccountScope : string; ca_ProviderInstanceID : string;
  ca_Policy : AccountPolicy; ca_Resource : string; ca_WallSeconds : Z; ca_DispatchBarrier : bool;
  ca_LeaseUntil : Time; ca_NotBefore : Time; ca_Quota : Quota; ca_ResourceKind : string;
  ca_ResourceScope : string; ca_ResourceMaxActive : Z; ca_AuthorizationGranted : bool }.
Definition ca_WorkspaceID (c : Candidate) : string := si_WorkspaceID (ca_Identity c).

Definition LocalOnly (s : AttemptState) : bool :=
  if not_nil (AttemptState_Validate s) || as_DeadlineExceeded s || (as_Cancellation s <>? CancellationNotRequested)
     || (as_Execution s <>? ExecutionNotSubmitted) || (as_RemoteActivity s <>? RemoteActivityNotStarted)
     || (as_Result s <>? ResultNotAvailable)
  then false
  else match as_Orchestration s with
       | OrchestrationQueued | OrchestrationPreparing | OrchestrationBlocked => true
       | _ => false
       end.

Definition HoldsAccount (s : AttemptState) (barrier : bool) : bool :=
  if not_nil (AttemptState_Validate s) then true else
  if (as_RemoteActivity s ==? RemoteActivityInactive)
     || (OrchestrationState_Terminal (as_Orchestration s) && (as_Execution s ==? ExecutionNotSubmitted)
         && (as_RemoteActivity s ==? RemoteActivityNotStarted))
  then false else
  if barrier then true else
  if as_RemoteActivity s <>? RemoteActivityNotStarted then true else
  match as_Orchestration s with
  | OrchestrationDispatching | OrchestrationSubmitted | OrchestrationRunning | OrchestrationCancelling
  | OrchestrationReconciling | OrchestrationNeedsAttention => true
  | _ => as_Execution s <>? ExecutionNotSubmitted
  end.

Definition live (c : Candidate) (now : Time) : bool := After (ca_LeaseUntil c) now.
Definition HoldsCapacity (c : Candidate) (now : Time) : bool :=
  live c now && LocalOnly (ca_State c) || HoldsAccount (ca_State c) (ca_DispatchBarrier c).

(** ** Selection *)
Record QueueStatus := mkQueueStatus {
  qs_Identity : SchedIdentity; qs_Sequence : Z; qs_AccountScope : string; qs_ResourceScope : string;
  qs_Reason : SchedulerReason; qs_Warning : SchedulerReason; qs_NotBefore : Time }.
Record View := mkView {
  vw_MaxWorkers : Z; vw_LiveWorkers : Z;
  vw_AccountReservations : gmap string Z; vw_ResourceReservations : gmap string Z;
  vw_ActiveAccountLimits : gmap string Z; vw_ActiveResourceLimits : gmap string Z;
  vw_UnresolvedResources : gset string; vw_Heads : list QueueStatus }.
Definition empty_view (settings : Settings) : View :=
  mkView (st_MaxWorkers settings) 0 ∅ ∅ ∅ ∅ ∅ [].

(** [m[k]++] and the running minimum [if limit, ok := m[k]; !ok || v < limit { m[k] = v }]. *)
Definition count_of (m : gmap string Z) (k : string) : Z := default 0 (m !! k).
Definition bump (m : gmap string Z) (k : string) : gmap string Z := <[k := count_of m k + 1]> m.
Definition lower (m : gmap string Z) (k : string) (v : Z) : gmap string Z :=
  match m !! k with
  | Some limit => if v <? limit then <[k := v]> m else m
  | None => <[k := v]> m
  end.

(** The two guards at the top of the row loop. *)
Definition row_invalid (seen : gset Z) (r : Candidate) : bool :=
  negb (SchedIdentity_Valid (ca_Identity r)) || (ca_Sequence r <=? 0) || bool_decide (ca_Sequence r ∈ seen)
  || not_nil (AttemptState_Validate (ca_State r)) || negb (ID_Valid (ca_AccountScope r))
  || negb (ID_Valid (ca_ProviderInstanceID r)) || negb (AccountPolicy_Valid (ca_Policy r))
  || (ca_Resource r <>? "cpu") && (ca_Resource r <>? "gpu")
  || (ca_WallSeconds r <? 1) || (MaxRemoteWallSeconds <? ca_WallSeconds r)
  || negb (IsZero (ca_LeaseUntil r)) && negb (ValidTime (ca_LeaseUntil r))
  || negb (IsZero (ca_NotBefore r)) && negb (ValidTime (ca_NotBefore r)).
Definition resource_invalid (r : Candidate) : bool :=
  (ca_ResourceKind r <>? "")
  && (negb (ID_Valid (ca_ResourceKind r)) || (ca_ResourceMaxActive r <? 1) || (64 <? ca_ResourceMaxActive r)
      || (ca_ResourceScope r <>? "") && negb (ID_Valid (ca_ResourceScope r)))
  || (ca_ResourceKind r ==? "") && ((ca_ResourceScope r <>? "") || negb (ca_ResourceMaxActive r =? 0)).

(** The effect of one row on the reservations of the view. *)
Definition reserve (r : Candidate) (v : View) : View :=
  let accounts := bump (vw_AccountReservations v) (ca_AccountScope r) in
  let account_limits := lower (vw_ActiveAccountLimits v) (ca_AccountScope r) (ap_MaxActive (ca_Policy r)) in
  let v' resources resource_limits unresolved :=
    mkView (vw_MaxWorkers v) (vw_LiveWorkers v) accounts resources account_limits resource_limits unresolved
      (vw_Heads v) in
  if ca_ResourceKind r <>? "" then
    if ca_ResourceScope r ==? "" then
      v' (vw_ResourceReservations v) (vw_ActiveResourceLimits v) ({[ca_ResourceKind r]} ∪ vw_UnresolvedResources v)
    else v' (bump (vw_ResourceReservations v) (ca_ResourceScope r))
            (lower (vw_ActiveResourceLimits v) (ca_ResourceScope r) (ca_ResourceMaxActive r))
            (vw_UnresolvedResources v)
  else v' (vw_ResourceReservations v) (vw_ActiveResourceLimits v) (vw_UnresolvedResources v).
Definition count_live (r : Candidate) (now : Time) (v : View) : View :=
  if live r now then
    mkView (vw_MaxWorkers v) (vw_LiveWorkers v + 1) (vw_AccountReservations v) (vw_ResourceReservations v)
      (vw_ActiveAccountLimits v) (vw_ActiveResourceLimits v) (vw_UnresolvedResources v) (vw_Heads v)
  else v.
Definition view_row (now : Time) (r : Candidate) (v : View) : View :=
  let v := count_live r now v in
  if HoldsCapacity r now then reserve r v else v.

(** Rows that wait for a start. *)
Definition waiting (now : Time) (r : Candidate) : bool :=
  negb (negb (ca_ActiveAttempt r) || live r now || ca_DispatchBarrier r || negb (LocalOnly (ca_State r))).
(** The head of each workspace, as an index into the rows. *)
Definition add_head (rows : list Candidate) (i : nat) (r : Candidate) (heads : gmap string nat) : gmap string nat :=
  match heads !! ca_WorkspaceID r with
  | Some prior =>
      match rows !! prior with
      | Some p => if ca_Sequence r <? ca_Sequence p then <[ca_WorkspaceID r := i]> heads else heads
      | None => heads
      end
  | None => <[ca_WorkspaceID r := i]> heads
  end.

Fixpoint scan_rows (rows : list Candidate) (now : Time) (i : nat) (seen : gset Z) (heads : gmap string nat) (v : View)
    (l : list Candidate) : result scheduler_error (gmap string nat * View) :=
  match l with
  | [] => Ok (heads, v)
  | r :: l' =>
      throw row_invalid seen r with ErrInvalid ;;
      throw resource_invalid r with ErrInvalid ;;
      let heads := if waiting now r then add_head rows i r heads else heads in
      scan_rows rows now (S i) ({[ca_Sequence r]} ∪ seen) heads (view_row now r v) l'
  end.

Definition EffectiveLimits (c : Candidate) (settings : Settings) (view : View) : Z * Z :=
  let account := Z.min (st_MaxActivePerAccount settings) (ap_MaxActive (ca_Policy c)) in
  let account := match vw_ActiveAccountLimits view !! ca_AccountScope c with
                 | Some active => Z.min account active | None => account end in
  let resource := Z.min (st_MaxActivePerAccount settings) (ca_ResourceMaxActive c) in
  let resource := match vw_ActiveResourceLimits view !! ca_ResourceScope c with
                  | Some active => Z.min resource active | None => resource end in
  (account, resource).

(** The [switch] over one head. *)
Definition head_reason (settings : Settings) (now : Time) (view : View) (r : Candidate)
    : SchedulerReason * SchedulerReason :=
  let '(limit, resourceLimit) := EffectiveLimits r settings view in
  if negb (ca_AuthorizationGranted r) then (AuthorizationRequired, NoReason)
  else if st_Paused settings then (Paused, NoReason)
  else if negb (ca_WorkspaceEnabled r) then (WorkspaceDisabled, NoReason)
  else if ap_Disabled (ca_Policy r) then (AccountDisabled, NoReason)
  else if After (ca_NotBefore r) now then (Deferred, NoReason)
  else if (ca_ResourceKind r <>? "") && (ca_ResourceScope r ==? "") then (ResourceUnverified, NoReason)
  else if (ca_ResourceKind r <>? "") && bool_decide (ca_ResourceKind r ∈ vw_UnresolvedResources view)
  then (ResourceUnresolved, NoReason)
  else if st_MaxWorkers settings <=? vw_LiveWorkers view then (WorkerLimit, NoReason)
  else if limit <=? count_of (vw_AccountReservations view) (ca_AccountScope r) then (AccountLimit, NoReason)
  else if (ca_ResourceScope r <>? "") && (resourceLimit <=? count_of (vw_ResourceReservations view) (ca_ResourceScope r))
  then (ResourceLimit, NoReason)
  else Decide (ca_Quota r) (ca_Resource r) (ca_WallSeconds r) (ap_StrictQuota (ca_Policy r))
         (st_QuotaFreshFor settings) now.

Definition head_status (settings : Settings) (now : Time) (view : View) (r : Candidate) : QueueStatus :=
  let '(reason, warning) := head_reason settings now view r in
  mkQueueStatus (ca_Identity r) (ca_Sequence r) (ca_AccountScope r) (ca_ResourceScope r) reason warning
    (ca_NotBefore r).

Definition is_eligible (settings : Settings) (now : Time) (view : View) (r : Candidate) : bool :=
  (head_reason settings now view r).1 ==? Eligible.

(** The last two loops: the first eligible workspace after the cursor, or the
    first one. *)
Definition pick (spaces : list string) (eligible : string -> bool) (last : string) : option string :=
  match list_find (fun w => str_ltb last w && eligible w) spaces with
  | Some (_, w) => Some w
  | None => snd <$> list_find eligible spaces
  end.

Definition head_of (rows : list Candidate) (heads : gmap string nat) (w : string) : option (nat * Candidate) :=
  i ← heads !! w; r ← rows !! i; Some (i, r).
Definition workspaces (heads : gmap string nat) : list string := merge_sort id_le (map_to_list heads).*1.

(** [None] is the index -1. *)
Definition Select (rows : list Candidate) (last : string) (settings : Settings) (now : Time)
    : result scheduler_error (option nat * View) :=
  throw negb (Settings_Valid settings) || negb (ValidTime now) || (last <>? "") && negb (ID_Valid last)
    with ErrInvalid ;;
  throw ScanLimit <? Z.of_nat (length rows) with ErrScanLimit ;;
  do '(heads, view) <- scan_rows rows now 0 ∅ ∅ (empty_view settings) rows ;;
  let spaces := workspaces heads in
  let statuses := omap (fun w => head_status settings now view ∘ snd <$> head_of rows heads w) spaces in
  let eligible w := match head_of rows heads w with
                    | Some (_, r) => is_eligible settings now view r | None => false end in
  let view' := mkView (vw_MaxWorkers view) (vw_LiveWorkers view) (vw_AccountReservations view)
                 (vw_ResourceReservations view) (vw_ActiveAccountLimits view) (vw_ActiveResourceLimits view)
                 (vw_UnresolvedResources view) statuses in
  Ok ((w ← pick spaces eligible last; fst <$> head_of rows heads w), view').
