(* ===== verification/HostHealth.v ===== *)
(** * Host health

    [internal/hosthealth]: snapshots of a host and their validity, the policy
    that judges them, the guard that decides whether new work is refused and
    running work stopped, and the per-machine bookkeeping of the sampling
    service that says which observations this process has confirmed itself. *)

From Stdlib Require Import SpecFloat.
From S2P Require Import Prelude Effects GoStrings GoTime GoSha256 Identifiers Problems ProviderResources Workers Scheduler Auth.
#[local] Open Scope string_scope.
#[local] Open Scope list_scope.
#[local] Open Scope Z_scope.
#[local] Open Scope bool_scope.

(** ** Model *)
Definition health_SchemaVersion : Z := 1.
Inductive MetricStatus := MetricAvailable | MetricUnavailable | MetricUnsupported | MetricOther (raw : string).
#[export] Instance MetricStatus_eq_dec : EqDecision MetricStatus.
Proof. solve_decision. Defined.
Record Metric (T : Type) := mkMetric { mt_Status : MetricStatus; mt_Value : option T; mt_Reason : string }.
Arguments mkMetric {T} _ _ _.
Arguments mt_Status {T} _.
Arguments mt_Value {T} _.
Arguments mt_Reason {T} _.
Definition metric_value {T} (v : T) : Metric T := mkMetric MetricAvailable (Some v) "".
Definition metric_missing {T} (reason : string) : Metric T := mkMetric MetricUnavailable None reason.
Record Load := mkLoad { ld_One : float64; ld_Five : float64; ld_Fifteen : float64 }.
Record HealthSnapshot := mkSnapshot {
  hs_SchemaVersion : Z; hs_ObservedAt : Time; hs_ResourceID : string; hs_Cause : string;
  hs_Platform : Metric string; hs_ThermalLevel : Metric Z; hs_CPUSpeedLimitPercent : Metric float64; hs_CPUCount : Metric Z;
  hs_LoadAverage : Metric Load; hs_CPUUsagePercent : Metric float64; hs_MemoryTotalBytes : Metric Z; hs_MemoryUsedBytes : Metric Z;
  hs_MemoryFreePercent : Metric float64; hs_MemoryPressure : Metric string; hs_GPUUsagePercent : Metric float64;
  hs_DockerCPUCount : Metric Z; hs_DockerMemoryBytes : Metric Z; hs_DockerDataFreeBytes : Metric Z; hs_PowerSource : Metric string;
  hs_BatteryChargePercent : Metric float64; hs_BatteryCharging : Metric bool; hs_BatteryTemperatureCelsius : Metric float64;
  hs_BatteryCycleCount : Metric Z; hs_BatteryHealthPercent : Metric float64; hs_BatteryCondition : Metric string;
  hs_SleepEnabled : Metric bool; hs_SudoGrant : Metric string; hs_CPUDieTemperatureCelsius : Metric float64;
  hs_GPUDieTemperatureCelsius : Metric float64; hs_FanRPM : Metric float64; hs_Warnings : list string }.

(** ** Validity *)
Definition ErrSnapshot : error := ENew "invalid host health snapshot".
Definition resourcePattern (s : string) : bool :=
  match strip_prefix (bytes_of "resource_") (bytes_of s) with
  | Some rest => (Z.of_nat (length rest) =? 64) && all_bytes (fun c => is_digit c || GoStrings.between 97 102 c) (string_of rest)
  | None => false
  end.
Definition safeReason (reason : string) : bool :=
  bool_decide (reason ∈ ["source_unavailable"; "source_missing_or_invalid"; "source_not_exposed";
    "docker_vm_free_space_not_exposed"; "platform_unknown"; "platform_unsupported"; "sudo_grant_absent"; "output_limit";
    "collection_timeout"; "command_failed"]).
Definition validState {T} (m : Metric T) : bool :=
  match mt_Status m with
  | MetricAvailable => not_nil (mt_Value m) && (mt_Reason m ==? "")
  | MetricUnavailable | MetricUnsupported => is_nil (mt_Value m) && safeReason (mt_Reason m)
  | MetricOther _ => false
  end.
Definition metricRange {T} (m : Metric T) (valid : T -> bool) : bool :=
  match mt_Value m with None => true | Some v => valid v end.
(** [between(min, max)] on [float64]. *)
Definition float_between (min max v : float64) : bool :=
  negb (IsNaN v) && negb (IsInf v) && SFleb min v && SFleb v max.
Definition oneOf (allowed : list string) (v : string) : bool := bool_decide (v ∈ allowed).
(** The nearest [float64] to -50.05. *)
Definition lowest_temperature : float64 := S754_finite true 7043911292184166 (-47).
(** The metrics as [Validate] lists them: whether the state is valid, and the status. *)
Definition metric_view {T} (m : Metric T) : bool * MetricStatus := (validState m, mt_Status m).
Definition snapshot_metrics (s : HealthSnapshot) : list (bool * MetricStatus) :=
  [ metric_view (hs_Platform s); metric_view (hs_ThermalLevel s); metric_view (hs_CPUSpeedLimitPercent s);
    metric_view (hs_CPUCount s); metric_view (hs_LoadAverage s); metric_view (hs_CPUUsagePercent s);
    metric_view (hs_MemoryTotalBytes s); metric_view (hs_MemoryUsedBytes s); metric_view (hs_MemoryFreePercent s);
    metric_view (hs_MemoryPressure s); metric_view (hs_GPUUsagePercent s); metric_view (hs_DockerCPUCount s);
    metric_view (hs_DockerMemoryBytes s); metric_view (hs_DockerDataFreeBytes s); metric_view (hs_PowerSource s);
    metric_view (hs_BatteryChargePercent s); metric_view (hs_BatteryCharging s); metric_view (hs_BatteryTemperatureCelsius s);
    metric_view (hs_BatteryCycleCount s); metric_view (hs_BatteryHealthPercent s); metric_view (hs_BatteryCondition s);
    metric_view (hs_SleepEnabled s); metric_view (hs_SudoGrant s); metric_view (hs_CPUDieTemperatureCelsius s);
    metric_view (hs_GPUDieTemperatureCelsius s); metric_view (hs_FanRPM s) ].
(** The loop over the metrics after the platform. *)
Definition platform_refuses (platform : option string) (status : MetricStatus) : bool :=
  match platform with
  | None => status <>? MetricUnavailable
  | Some p => (p ==? "unsupported") && (status <>? MetricUnsupported) || (p ==? "macos_intel") && (status ==? MetricUnsupported)
  end.
Definition Snapshot_Validate (s : HealthSnapshot) : option error :=
  reject (hs_Cause s <>? "") && negb (ValidReason (hs_Cause s)) with ErrSnapshot ;;
  reject (mt_Status (hs_Platform s) ==? MetricUnsupported) || negb (hs_SchemaVersion s =? health_SchemaVersion)
         || negb (resourcePattern (hs_ResourceID s)) || IsZero (hs_ObservedAt s) || (Year (hs_ObservedAt s) <? 2000)
         || (9999 <? Year (hs_ObservedAt s)) with ErrSnapshot ;;
  reject existsb (fun m => negb m.1) (snapshot_metrics s) with ErrSnapshot ;;
  reject existsb (fun m => platform_refuses (mt_Value (hs_Platform s)) m.2) (tail (snapshot_metrics s)) with ErrSnapshot ;;
  reject negb (metricRange (hs_Platform s) (oneOf ["macos_intel"; "unsupported"]))
         || negb (metricRange (hs_PowerSource s) (oneOf ["ac"; "battery"]))
         || negb (metricRange (hs_SudoGrant s) (oneOf ["absent"; "narrow"; "broader"]))
         || negb (metricRange (hs_MemoryPressure s) (oneOf ["normal"; "warning"; "critical"]))
         || negb (metricRange (hs_BatteryCondition s) (oneOf ["normal"; "service_recommended"; "replace_soon"; "replace_now"; "service_battery"]))
    with ErrSnapshot ;;
  reject existsb (fun m => negb (metricRange m (float_between float_zero (float_of_Z 100))))
           [hs_CPUSpeedLimitPercent s; hs_CPUUsagePercent s; hs_MemoryFreePercent s; hs_GPUUsagePercent s; hs_BatteryChargePercent s]
    with ErrSnapshot ;;
  reject negb (metricRange (hs_BatteryHealthPercent s) (float_between float_zero (float_of_Z 200)))
         || negb (metricRange (hs_BatteryTemperatureCelsius s) (float_between lowest_temperature (float_of_Z 100)))
         || negb (metricRange (hs_CPUDieTemperatureCelsius s) (float_between float_zero (float_of_Z 150)))
         || negb (metricRange (hs_GPUDieTemperatureCelsius s) (float_between float_zero (float_of_Z 150)))
         || negb (metricRange (hs_FanRPM s) (float_between float_zero (float_of_Z 30000))) with ErrSnapshot ;;
  reject negb (metricRange (hs_CPUCount s) (fun v => (0 <? v) && (v <=? 65536)))
         || negb (metricRange (hs_DockerCPUCount s) (fun v => (0 <? v) && (v <=? 65536)))
         || negb (metricRange (hs_ThermalLevel s) (fun v => (0 <=? v) && (v <=? 3)))
         || negb (metricRange (hs_BatteryCycleCount s) (fun v => (0 <=? v) && (v <=? 100000))) with ErrSnapshot ;;
  reject existsb (fun m => negb (metricRange m (fun v => v <=? 2 ^ 53)))
           [hs_MemoryTotalBytes s; hs_MemoryUsedBytes s; hs_DockerMemoryBytes s; hs_DockerDataFreeBytes s] with ErrSnapshot ;;
  reject negb (metricRange (hs_LoadAverage s) (fun v =>
            float_between float_zero (float_of_Z 1000000) (ld_One v) && float_between float_zero (float_of_Z 1000000) (ld_Five v)
            && float_between float_zero (float_of_Z 1000000) (ld_Fifteen v))) with ErrSnapshot ;;
  reject (1 <? Z.of_nat (length (hs_Warnings s)))
         || match hs_Warnings s with [w] => w <>? "sudo_grant_broader" | _ => false end with ErrSnapshot ;;
  None.

(** ** Policy *)
Definition health_ErrPolicy : error := ENew "invalid host health policy".
Definition MaxCriticalDurationSeconds : Z := 900.
Record HealthPolicy := mkHealthPolicy {
  hp_WarningThermalLevel : Z; hp_CriticalThermalLevel : Z; hp_WarningCPUSpeedPercent : float64; hp_CriticalCPUSpeedPercent : float64;
  hp_WarningDieTemperatureCelsius : float64; hp_CriticalDieTemperatureCelsius : float64; hp_LowBatteryPercent : float64;
  hp_CriticalDurationSeconds : Z }.
Definition health_DefaultPolicy : HealthPolicy :=
  mkHealthPolicy 1 2 (float_of_Z 90) (float_of_Z 50) (float_of_Z 90) (float_of_Z 95) (float_of_Z 10) 30.
Definition LegacyPolicyV1 : HealthPolicy :=
  mkHealthPolicy 1 2 (float_of_Z 90) (float_of_Z 50) (float_of_Z 90) (float_of_Z 100) (float_of_Z 10) 60.
Definition HealthPolicy_Validate (p : HealthPolicy) : option error :=
  reject (hp_WarningThermalLevel p <? 0) || (3 <? hp_CriticalThermalLevel p) || (hp_CriticalThermalLevel p <? hp_WarningThermalLevel p)
         || negb (float_between float_zero (float_of_Z 100) (hp_WarningCPUSpeedPercent p))
         || negb (float_between float_zero (hp_WarningCPUSpeedPercent p) (hp_CriticalCPUSpeedPercent p))
         || negb (float_between float_zero (float_of_Z 150) (hp_WarningDieTemperatureCelsius p))
         || negb (float_between (hp_WarningDieTemperatureCelsius p) (float_of_Z 150) (hp_CriticalDieTemperatureCelsius p))
         || negb (float_between float_zero (float_of_Z 100) (hp_LowBatteryPercent p))
         || (hp_CriticalDurationSeconds p <? 1) || (MaxCriticalDurationSeconds <? hp_CriticalDurationSeconds p)
    with health_ErrPolicy ;;
  None.
Record PolicyPatch := mkPolicyPatch {
  pp_WarningThermalLevel : option Z; pp_CriticalThermalLevel : option Z; pp_WarningCPUSpeedPercent : option float64;
  pp_CriticalCPUSpeedPercent : option float64; pp_WarningDieTemperatureCelsius : option float64;
  pp_CriticalDieTemperatureCelsius : option float64; pp_LowBatteryPercent : option float64; pp_CriticalDurationSeconds : option Z }.
Definition HealthPolicy_Patch (p : HealthPolicy) : PolicyPatch :=
  mkPolicyPatch (Some (hp_WarningThermalLevel p)) (Some (hp_CriticalThermalLevel p)) (Some (hp_WarningCPUSpeedPercent p))
    (Some (hp_CriticalCPUSpeedPercent p)) (Some (hp_WarningDieTemperatureCelsius p)) (Some (hp_CriticalDieTemperatureCelsius p))
    (Some (hp_LowBatteryPercent p)) (Some (hp_CriticalDurationSeconds p)).
(** The patched policy, and the error of its validation. *)
Definition HealthPolicy_Apply (p : HealthPolicy) (patch : option PolicyPatch) : HealthPolicy * option error :=
  let p :=
    match patch with
    | None => p
    | Some q =>
        mkHealthPolicy (default (hp_WarningThermalLevel p) (pp_WarningThermalLevel q))
          (default (hp_CriticalThermalLevel p) (pp_CriticalThermalLevel q))
          (default (hp_WarningCPUSpeedPercent p) (pp_WarningCPUSpeedPercent q))
          (default (hp_CriticalCPUSpeedPercent p) (pp_CriticalCPUSpeedPercent q))
          (default (hp_WarningDieTemperatureCelsius p) (pp_WarningDieTemperatureCelsius q))
          (default (hp_CriticalDieTemperatureCelsius p) (pp_CriticalDieTemperatureCelsius q))
          (default (hp_LowBatteryPercent p) (pp_LowBatteryPercent q))
          (default (hp_CriticalDurationSeconds p) (pp_CriticalDurationSeconds q))
    end in
  (p, HealthPolicy_Validate p).
Definition bad_override {T} (valid : T -> bool) (v : option T) : bool :=
  match v with Some x => negb (valid x) | None => false end.
Definition PolicyPatch_Validate (p : PolicyPatch) : option error :=
  reject bad_override (fun v => (0 <=? v) && (v <=? 3)) (pp_WarningThermalLevel p)
         || bad_override (fun v => (0 <=? v) && (v <=? 3)) (pp_CriticalThermalLevel p) with health_ErrPolicy ;;
  reject existsb (bad_override (float_between float_zero (float_of_Z 100)))
           [pp_WarningCPUSpeedPercent p; pp_CriticalCPUSpeedPercent p; pp_LowBatteryPercent p] with health_ErrPolicy ;;
  reject existsb (bad_override (float_between float_zero (float_of_Z 150)))
           [pp_WarningDieTemperatureCelsius p; pp_CriticalDieTemperatureCelsius p] with health_ErrPolicy ;;
  reject bad_override (fun v => (1 <=? v) && (v <=? MaxCriticalDurationSeconds)) (pp_CriticalDurationSeconds p) with health_ErrPolicy ;;
  None.

(** ** The guard *)
Definition SampleCadence : Duration := 30 * Second.
Definition DemandCache : Duration := 15 * Second.
Definition StaleAfter : Duration := 90 * Second.
Definition HistoryMaxAge : Duration := 24 * Hour.
Definition HistoryMaxRows : Z := 120.
Record HealthView := mkHealthView {
  hv_ResourceID : string; hv_Latest : option HealthSnapshot; hv_History : list HealthSnapshot; hv_Fresh : bool; hv_UnknownReason : string;
  hv_ReobservedSince : Time; hv_Policy : option HealthPolicy }.
Inductive HealthLevel := LevelOK | LevelWarning | LevelCritical | LevelUnknown | LevelUnsupported.
#[export] Instance HealthLevel_eq_dec : EqDecision HealthLevel.
Proof. solve_decision. Defined.
Inductive HealthReason :=
  | HReasonPolicyInvalid | HReasonSnapshotInvalid | HReasonCoreUnavailable | HReasonUnsupported | HReasonThermalWarning
  | HReasonThermalCritical | HReasonSpeedWarning | HReasonSpeedCritical | HReasonCPUWarning | HReasonCPUCritical | HReasonGPUWarning
  | HReasonGPUCritical | HReasonBatteryLow | HReasonSustained | HReasonNotObserved | HReasonNotReobserved
  | HReasonObservationFailed | HReasonClockChanged | HReasonStale | HReasonSudoBroader | HReasonSleepEnabled.
#[export] Instance HealthReason_eq_dec : EqDecision HealthReason.
Proof. solve_decision. Defined.
Record HealthDecision := mkHealthDecision {
  hd_Level : HealthLevel; hd_Reasons : list HealthReason; hd_Diagnostics : list HealthReason; hd_RefuseNew : bool; hd_Stop : bool;
  hd_CriticalSince : option Time }.
Definition health_unknown (reason : HealthReason) : HealthDecision := mkHealthDecision LevelUnknown [reason] [] true false None.
Definition unknownReason (reason : string) : HealthReason :=
  if reason ==? "health_not_observed" then HReasonNotObserved
  else if reason ==? "health_not_reobserved" then HReasonNotReobserved
  else if reason ==? "health_clock_changed" then HReasonClockChanged
  else if reason ==? "health_stale" then HReasonStale
  else HReasonObservationFailed.
(** [available], with the value it lets the code read. *)
Definition available_value {T} (m : Metric T) : option T :=
  if mt_Status m ==? MetricAvailable then mt_Value m else None.
(** The closure [add]. *)
Definition add_finding (d : HealthDecision) (warning critical : bool) (wr cr : HealthReason) : HealthDecision :=
  let '(mkHealthDecision level reasons diagnostics refused stop since) := d in
  if critical then mkHealthDecision LevelCritical (reasons ++ [cr]) diagnostics refused stop since
  else if warning then
    mkHealthDecision (if level <>? LevelCritical then LevelWarning else level) (reasons ++ [wr]) diagnostics refused stop since
  else d.
Definition add_temperature (p : HealthPolicy) (d : HealthDecision) (m : Metric float64) (wr cr : HealthReason) : HealthDecision :=
  match available_value m with
  | Some v => add_finding d (SFleb (hp_WarningDieTemperatureCelsius p) v) (SFleb (hp_CriticalDieTemperatureCelsius p) v) wr cr
  | None => d
  end.
Definition health_diagnostics (s : HealthSnapshot) : list HealthReason :=
  (if bool_decide (available_value (hs_SudoGrant s) = Some "broader") then [HReasonSudoBroader] else [])
  ++ (if bool_decide (available_value (hs_SleepEnabled s) = Some true) then [HReasonSleepEnabled] else []).
Definition low_battery (s : HealthSnapshot) (p : HealthPolicy) : bool :=
  match available_value (hs_PowerSource s), available_value (hs_BatteryChargePercent s) with
  | Some source, Some charge => (source ==? "battery") && SFleb charge (hp_LowBatteryPercent p)
  | _, _ => false
  end.
Definition evaluateSnapshot (s : HealthSnapshot) (p : HealthPolicy) : HealthDecision :=
  match available_value (hs_Platform s) with
  | None => health_unknown HReasonCoreUnavailable
  | Some platform =>
      if platform ==? "unsupported" then mkHealthDecision LevelUnsupported [HReasonUnsupported] [] false false None
      else if platform <>? "macos_intel" then health_unknown HReasonCoreUnavailable
      else
        let diagnostics := health_diagnostics s in
        if low_battery s p then mkHealthDecision LevelCritical [HReasonBatteryLow] diagnostics true true None else
        match available_value (hs_ThermalLevel s), available_value (hs_CPUSpeedLimitPercent s), available_value (hs_PowerSource s) with
        | Some thermal, Some speed, Some source =>
            if (source ==? "battery") && is_nil (available_value (hs_BatteryChargePercent s))
            then mkHealthDecision LevelUnknown [HReasonCoreUnavailable] diagnostics true false None
            else
              let d := mkHealthDecision LevelOK [] diagnostics false false None in
              let d := add_finding d (hp_WarningThermalLevel p <=? thermal) (hp_CriticalThermalLevel p <=? thermal)
                         HReasonThermalWarning HReasonThermalCritical in
              let d := add_finding d (SFleb speed (hp_WarningCPUSpeedPercent p)) (SFleb speed (hp_CriticalCPUSpeedPercent p))
                         HReasonSpeedWarning HReasonSpeedCritical in
              let d := add_temperature p d (hs_CPUDieTemperatureCelsius s) HReasonCPUWarning HReasonCPUCritical in
              let d := add_temperature p d (hs_GPUDieTemperatureCelsius s) HReasonGPUWarning HReasonGPUCritical in
              mkHealthDecision (hd_Level d) (hd_Reasons d) (hd_Diagnostics d)
                ((hd_Level d ==? LevelWarning) || (hd_Level d ==? LevelCritical)) (hd_Stop d) (hd_CriticalSince d)
        | _, _, _ => mkHealthDecision LevelUnknown [HReasonCoreUnavailable] diagnostics true false None
        end
  end.

(** The walk back through the history: the earliest observation of the
    unbroken critical window that ends with the latest one. *)
Fixpoint critical_start (view : HealthView) (p : HealthPolicy) (now : Time) (first : bool) (start previous : Time) (history : list HealthSnapshot) : Time :=
  match history with
  | [] => start
  | s :: history =>
      let at_ := hs_ObservedAt s in
      if (hs_ResourceID s <>? hv_ResourceID view) || not_nil (Snapshot_Validate s) || Before at_ (hv_ReobservedSince view)
         || (HistoryMaxAge <? time_Sub now at_) then start
      else if negb first && (negb (Before at_ previous) || (StaleAfter <? time_Sub previous at_)) then start
      else if hd_Level (evaluateSnapshot s p) <>? LevelCritical then start
      else critical_start view p now false at_ at_ history
  end.
Definition Evaluate (view : HealthView) (p : HealthPolicy) (now : Time) : HealthDecision :=
  if negb (hv_Fresh view) then health_unknown (unknownReason (hv_UnknownReason view))
  else if not_nil (HealthPolicy_Validate p) then health_unknown HReasonPolicyInvalid
  else match hv_Latest view with
  | None => health_unknown HReasonNotObserved
  | Some latest =>
      let at_ := hs_ObservedAt latest in
      if not_nil (Snapshot_Validate latest) || (hs_ResourceID latest <>? hv_ResourceID view) then health_unknown HReasonSnapshotInvalid
      else if Before now at_ then health_unknown HReasonClockChanged
      else if StaleAfter <? time_Sub now at_ then health_unknown HReasonStale
      else if IsZero (hv_ReobservedSince view) then health_unknown HReasonNotReobserved
      else if Before at_ (hv_ReobservedSince view) then health_unknown HReasonClockChanged
      else
        let d := evaluateSnapshot latest p in
        if (hd_Level d <>? LevelCritical) || hd_Stop d then d
        else match hv_History view with
        | [] => d
        | h0 :: _ =>
            if (HistoryMaxRows <? Z.of_nat (length (hv_History view))) || negb (hs_ObservedAt h0 =? at_) then d
            else
              let start := critical_start view p now true at_ at_ (hv_History view) in
              if hp_CriticalDurationSeconds p * Second <=? time_Sub at_ start
              then mkHealthDecision (hd_Level d) (hd_Reasons d ++ [HReasonSustained]) (hd_Diagnostics d) (hd_RefuseNew d) true (Some start)
              else mkHealthDecision (hd_Level d) (hd_Reasons d) (hd_Diagnostics d) (hd_RefuseNew d) (hd_Stop d) (Some start)
        end
  end.

(** ** Targets and blank snapshots *)
Definition health_ErrUnavailable : error := ENew "host health unavailable".
Definition ErrUnverified : error := ENew "host health requires a verified machine".
Record HealthTarget := mkHealthTarget {
  ht_Workspace : string; ht_ConnectionID : string; ht_ProviderType : string; ht_CanonicalAccount : string; ht_CredentialRef : string;
  ht_ResourceID : string; ht_RuntimeConfig : string; ht_Policy : option HealthPolicy }.
Definition HealthTarget_Valid (t : HealthTarget) : bool :=
  match ht_Policy t with None => true | Some p => is_nil (HealthPolicy_Validate p) end
  && ID_Valid (ht_Workspace t) && ID_Valid (ht_ConnectionID t) && ID_Valid (ht_ProviderType t) && ID_Valid (ht_CanonicalAccount t)
  && (ht_CredentialRef t ==? "vault:" ++ ht_ConnectionID t)%string && resourcePattern (ht_ResourceID t) && (len (ht_RuntimeConfig t) <=? 8192).
Definition metric_blank {T} (status : MetricStatus) (reason : string) : Metric T := mkMetric status None reason.
Definition emptySnapshot (resource : string) (observed : Time) (status : MetricStatus) (reason : string) : HealthSnapshot :=
  mkSnapshot health_SchemaVersion observed resource "" (metric_blank status reason) (metric_blank status reason)
    (metric_blank status reason) (metric_blank status reason) (metric_blank status reason) (metric_blank status reason)
    (metric_blank status reason) (metric_blank status reason) (metric_blank status reason) (metric_blank status reason)
    (metric_blank status reason) (metric_blank status reason) (metric_blank status reason) (metric_blank status reason)
    (metric_blank status reason) (metric_blank status reason) (metric_blank status reason) (metric_blank status reason)
    (metric_blank status reason) (metric_blank status reason) (metric_blank status reason) (metric_blank status reason)
    (metric_blank status reason) (metric_blank status reason) (metric_blank status reason) (metric_blank status reason) [].
(** [Parse] of no samples at all. *)
Definition Parse_nothing (resource : string) (observed : Time) : HealthSnapshot :=
  emptySnapshot (if resourcePattern resource then resource else "") observed MetricUnavailable "platform_unknown".
Definition with_cause (cause : string) (s : HealthSnapshot) : HealthSnapshot :=
  let '(mkSnapshot v at_ id _ a b c d e f g h i j k l m n o p q r s t u w x y z aa ws) := s in
  mkSnapshot v at_ id cause a b c d e f g h i j k l m n o p q r s t u w x y z aa ws.

(** ** What the process knows of each machine

    The entries of the service's map. [mm_inflight] is whether a probe is
    running; every function below is one section under the service's mutex. *)
Record machineSample := mkMachine {
  mm_inflight : bool; mm_attempted : Time; mm_confirmed : Time; mm_since : Time; mm_failed : bool; mm_digest : string }.
Definition new_machine : machineSample := mkMachine false zero_time zero_time zero_time false "".
(** The confirmation is withdrawn: the clock moved behind the observation. *)
Definition unconfirm (m : machineSample) : machineSample :=
  mkMachine (mm_inflight m) (mm_attempted m) zero_time zero_time (mm_failed m) "".
Abbreviation machines := (gmap string machineSample).
Inductive refresh_choice := WaitForProbe | AnswerFromCache | BeginProbe.
#[export] Instance refresh_choice_eq_dec : EqDecision refresh_choice.
Proof. solve_decision. Defined.
(** A machine that is forgotten when another one is probed. *)
Definition evicted (resource : string) (now : Time) (id : string) (old : machineSample) : bool :=
  (id <>? resource) && negb (mm_inflight old) && (HistoryMaxAge <? time_Sub now (mm_attempted old)).
Definition begin_refresh (now : Time) (resource : string) (ms : machines) : refresh_choice * machines :=
  let m := default new_machine (ms !! resource) in
  let ms := <[resource := m]> ms in
  if mm_inflight m then (WaitForProbe, ms)
  else if negb (IsZero (mm_attempted m)) && (time_Sub now (mm_attempted m) <? DemandCache) then (AnswerFromCache, ms)
  else
    let probing := mkMachine true now (mm_confirmed m) (mm_since m) (mm_failed m) (mm_digest m) in
    (BeginProbe, filter (fun '(id, old) => evicted resource now id old = false) (<[resource := probing]> ms)).
Definition probe_cause (sample : result error HealthSnapshot) (probeErr : option error) (target : HealthTarget) : string :=
  let sampleErr := match sample with Err e => Some e | Ok _ => None end in
  if errors_Is sampleErr DeadlineExceeded || errors_Is probeErr DeadlineExceeded then "health_collection_timeout"
  else match sample with
  | Err e => Reason (Some e) "health_collection_failed"
  | Ok snapshot =>
      if not_nil probeErr then "health_collection_timeout"
      else if not_nil (Snapshot_Validate snapshot) then "health_snapshot_invalid"
      else if hs_ResourceID snapshot <>? ht_ResourceID target then "health_binding_mismatch"
      else "health_snapshot_invalid"
  end.
(** The judgement of a probe: whether it failed, and the snapshot to record. *)
Definition judge_probe (target : HealthTarget) (now finished : Time) (sample : result error HealthSnapshot) (probeErr : option error) : bool * HealthSnapshot :=
  let blank := with_cause (probe_cause sample probeErr target) (Parse_nothing (ht_ResourceID target) finished) in
  match sample with
  | Err _ => (true, blank)
  | Ok s =>
      if not_nil probeErr || not_nil (Snapshot_Validate s) || (hs_ResourceID s <>? ht_ResourceID target)
         || Before (hs_ObservedAt s) now || After (hs_ObservedAt s) finished
      then (true, blank) else (false, s)
  end.

Section Service.
(** [json.Marshal] of a snapshot; the formatting of floating point numbers is
    not modelled, and nothing below depends on it. *)
Variable json_snapshot : HealthSnapshot -> result error string.
Definition snapshotDigest (s : HealthSnapshot) : string :=
  match json_snapshot s with
  | Err _ => ""
  | Ok raw => if not_nil (Snapshot_Validate s) then "" else sha256_hex raw
  end.
Definition probe_unusable (failed : bool) (s : HealthSnapshot) (recorded : option error) : bool :=
  failed || not_nil recorded || (mt_Status (hs_Platform s) <>? MetricAvailable) || is_nil (mt_Value (hs_Platform s)).
Definition settle_machine (finished : Time) (failed : bool) (s : HealthSnapshot) (recorded : option error) (m : machineSample) : machineSample :=
  if probe_unusable failed s recorded then mkMachine false finished zero_time zero_time true ""
  else
    let at_ := hs_ObservedAt s in
    let since := if IsZero (mm_since m) || Before at_ (mm_confirmed m) || (StaleAfter <? time_Sub at_ (mm_confirmed m)) then at_ else mm_since m in
    mkMachine false finished at_ since false (snapshotDigest s).
Definition finish_refresh (resource : string) (finished : Time) (failed : bool) (s : HealthSnapshot) (recorded : option error) (ms : machines) : machines :=
  alter (settle_machine finished failed s recorded) resource ms.
(** The section of [Cached], on a history that is not empty. *)
Definition cached_view (resource : string) (latest : HealthSnapshot) (history : list HealthSnapshot) (now : Time) (ms : machines) : HealthView * machines :=
  let at_ := hs_ObservedAt latest in
  let m := default new_machine (ms !! resource) in
  let view fresh reason since := mkHealthView resource (Some latest) (latest :: history) fresh reason since None in
  let v :=
    if mm_failed m then view false "health_observation_failed" zero_time
    else if IsZero (mm_confirmed m) then view false "health_not_reobserved" zero_time
    else if negb (at_ =? mm_confirmed m) || (snapshotDigest latest <>? mm_digest m) then view false "health_not_reobserved" zero_time
    else if Before now at_ then view false "health_clock_changed" zero_time
    else if StaleAfter <? time_Sub now at_ then view false "health_stale" zero_time
    else if (mt_Status (hs_Platform latest) <>? MetricAvailable) || is_nil (mt_Value (hs_Platform latest))
    then view false "health_observation_failed" zero_time
    else view true "" (mm_since m) in
  (v, if Before now at_ then alter unconfirm resource ms else ms).

(** ** Evidence *)
Record HealthEvidence := mkHealthEvidence { he_resource : string; he_digest : string; he_observed : Time; he_since : Time }.
(** [None] is the zero value, which no service has confirmed. *)
Definition Service_Evidence (resource : string) (ms : machines) : option HealthEvidence :=
  match ms !! resource with
  | None => None
  | Some m =>
      if mm_failed m || IsZero (mm_confirmed m) || IsZero (mm_since m) || (mm_digest m ==? "") then None
      else Some (mkHealthEvidence resource (mm_digest m) (mm_confirmed m) (mm_since m))
  end.
Definition evidence_current (e : HealthEvidence) (resource : string) (ms : machines) : bool :=
  match ms !! resource with
  | None => false
  | Some m => negb (mm_failed m) && (mm_digest m ==? he_digest e) && (mm_confirmed m =? he_observed e) && (mm_since m =? he_since e)
  end.
Definition Evidence_View (ev : option HealthEvidence) (resource : string) (history : list HealthSnapshot) (now : Time) (ms : machines) : HealthView * machines :=
  match history with
  | [] => (mkHealthView resource None [] false "health_not_observed" zero_time None, ms)
  | latest :: _ =>
      let view fresh reason since := mkHealthView resource (Some latest) history fresh reason since None in
      match ev with
      | None => (view false "health_not_reobserved" zero_time, ms)
      | Some e =>
          if (resource <>? he_resource e) || (snapshotDigest latest <>? he_digest e) || negb (hs_ObservedAt latest =? he_observed e)
          then (view false "health_not_reobserved" zero_time, ms)
          else if negb (evidence_current e resource ms) then (view false "health_not_reobserved" zero_time, ms)
          else if Before now (he_observed e) then (view false "health_clock_changed" zero_time, alter unconfirm resource ms)
          else if StaleAfter <? time_Sub now (he_observed e) then (view false "health_stale" zero_time, ms)
          else (view true "" (he_since e), ms)
      end
  end.
End Service.

(** ** Reading and refreshing a machine

    The calls of the service. [HBegin], [HFinish] and [HCached] are the
    sections under the mutex, whose effect on the machines is [begin_refresh],
    [finish_refresh] and [cached_view]. *)
Inductive hcall : Type -> Type :=
  | HCtxErr : hcall (option error)
  | HToken (digest : string) : hcall (result error TokenRecord)
  | HWorkspace (id : string) : hcall (result error Workspace)
  | HNow : hcall Time
  | HResolve (w token id : string) : hcall (result error HealthTarget)
  | HBegin (now : Time) (resource : string) : hcall refresh_choice
  | HWait (resource : string) : hcall (option error)
  | HSample (target : HealthTarget) : hcall (option (result error HealthSnapshot))
  | HProbeErr : hcall (option error)
  | HRecord (s : HealthSnapshot) : hcall (option error)
  | HFinish (resource : string) (finished : Time) (failed : bool) (s : HealthSnapshot) (recorded : option error) : hcall unit
  | HRead (resource : string) : hcall (result error (list HealthSnapshot))
  | HCached (resource : string) (latest : HealthSnapshot) (history : list HealthSnapshot) (now : Time) : hcall HealthView.
#[export] Instance hcall_auth : AuthCalls hcall :=
  {| AccessCtxErr := HCtxErr; LookupToken := HToken; LookupWorkspace := HWorkspace |}.

(** [sampleHealth]: a panic of the sampler is an error. *)
Definition recovered : option error := WithReason (Some health_ErrUnavailable) "health_collector_panic".
Definition sampleHealth (target : HealthTarget) : prog hcall (result error HealthSnapshot) :=
  r ← perform (HSample target);
  mret match r with Some r => r | None => match recovered with Some e => Err e | None => Err health_ErrUnavailable end end.
Definition withTargetPolicy (view : HealthView) (target : HealthTarget) : HealthView :=
  match ht_Policy target with
  | None => view
  | Some p => mkHealthView (hv_ResourceID view) (hv_Latest view) (hv_History view) (hv_Fresh view) (hv_UnknownReason view)
                (hv_ReobservedSince view) (Some p)
  end.
Definition health_Cached (resource : string) : service hcall HealthView :=
  refuse negb (resourcePattern resource) with ErrUnverified ;;
  try history <- perform (HRead resource) ;;
  match history with
  | [] => mret (Ok (mkHealthView resource None [] false "health_not_observed" zero_time None))
  | latest :: history =>
      now ← perform HNow;
      v ← perform (HCached resource latest history now);
      mret (Ok v)
  end.
Definition cached_for (target : HealthTarget) : service hcall HealthView :=
  try view <- health_Cached (ht_ResourceID target) ;; mret (Ok (withTargetPolicy view target)).
(** The probe of a caller that was let through. *)
Definition probe_machine (target : HealthTarget) (now : Time) : service hcall HealthView :=
  sample ← sampleHealth target;
  probeErr ← perform HProbeErr;
  finished ← perform HNow;
  let '(failed, snapshot) := judge_probe target now finished sample probeErr in
  recorded ← perform (HRecord snapshot);
  _ ← perform (HFinish (ht_ResourceID target) finished failed snapshot recorded);
  match recorded with
  | Some e => fail_with e
  | None => cached_for target
  end.
(** [Refresh] with at most [fuel] turns of its loop: nothing means that the
    caller is still waiting for the probe of another one. *)
Fixpoint refresh_loop (fuel : nat) (target : HealthTarget) : prog hcall (option (result error HealthView)) :=
  match fuel with
  | O => mret None
  | S fuel =>
      ctx ← perform HCtxErr;
      match ctx with
      | Some e => mret (Some (Err e))
      | None =>
          now ← perform HNow;
          choice ← perform (HBegin now (ht_ResourceID target));
          match choice with
          | WaitForProbe =>
              waited ← perform (HWait (ht_ResourceID target));
              match waited with Some e => mret (Some (Err e)) | None => refresh_loop fuel target end
          | AnswerFromCache => v ← cached_for target; mret (Some v)
          | BeginProbe => v ← probe_machine target now; mret (Some v)
          end
      end
  end.
Definition Refresh (fuel : nat) (target : HealthTarget) : prog hcall (option (result error HealthView)) :=
  if negb (HealthTarget_Valid target) then mret (Some (Err ErrUnverified)) else refresh_loop fuel target.
Definition GetHealth (fuel : nat) (p : Principal) (w id : string) : prog hcall (option (result error HealthView)) :=
  a ← authorize p w ScopeRead;
  match a with
  | Err e => mret (Some (Err e))
  | Ok p =>
      t ← perform (HResolve w (pr_tokenID p) id);
      match t with
      | Err e => mret (Some (Err e))
      | Ok target =>
          v ← Refresh fuel target;
          match v with
          | None => mret None
          | Some (Err e) => mret (Some (Err e))
          | Some (Ok view) =>
              again ← authorize p w ScopeRead;
              match again with Err e => mret (Some (Err e)) | Ok _ => mret (Some (Ok view)) end
          end
      end
  end.
