(* ===== verification/HostHealthProps.v ===== *)
(** * Theorems on host health

    When the guard stops running work and refuses new work, what a fresh view
    says about this process's own observations, and how probes of a machine
    are ordered. *)

From Stdlib Require Import SpecFloat.
From S2P Require Import Prelude Effects GoStrings GoTime GoSha256 Identifiers Problems ProviderResources Workers Scheduler Auth HostHealth.
#[local] Open Scope string_scope.
#[local] Open Scope list_scope.
#[local] Open Scope Z_scope.
#[local] Open Scope bool_scope.

(** Comparisons with a duration do not see the saturation of [Time.Sub]. *)
Lemma time_Sub_lt d a b : MinInt64 <= d < MaxInt64 -> d < time_Sub a b <-> d < a - b.
Proof. unfold time_Sub. lia. Qed.
Lemma time_Sub_le d a b : MinInt64 < d <= MaxInt64 -> d <= time_Sub a b <-> d <= a - b.
Proof. unfold time_Sub. lia. Qed.
Lemma StaleAfter_range : MinInt64 <= StaleAfter < MaxInt64.
Proof. by vm_compute. Qed.
Lemma HistoryMaxAge_range : MinInt64 <= HistoryMaxAge < MaxInt64.
Proof. by vm_compute. Qed.
#[local] Opaque Snapshot_Validate.

(** ** One snapshot *)
Definition dangerous (s : HealthSnapshot) (p : HealthPolicy) : Prop := hd_Level (evaluateSnapshot s p) = LevelCritical.
Lemma add_finding_stop d w c wr cr : hd_Stop (add_finding d w c wr cr) = hd_Stop d.
Proof. destruct d, w, c; done. Qed.
Lemma add_finding_since d w c wr cr : hd_CriticalSince (add_finding d w c wr cr) = hd_CriticalSince d.
Proof. destruct d, w, c; done. Qed.
Lemma add_temperature_stop p d m wr cr : hd_Stop (add_temperature p d m wr cr) = hd_Stop d.
Proof. unfold add_temperature. destruct (available_value m); [apply add_finding_stop|done]. Qed.
(** The battery of a supported host is confirmed low. *)
Definition battery_low (s : HealthSnapshot) (p : HealthPolicy) : Prop :=
  available_value (hs_Platform s) = Some "macos_intel" /\ low_battery s p = true.
Lemma evaluateSnapshot_stop s p : hd_Stop (evaluateSnapshot s p) = true <-> battery_low s p.
Proof.
  unfold evaluateSnapshot, battery_low. destruct (available_value (hs_Platform s)) as [q|]; [|naive_solver].
  case_bool_decide as E1; [subst; naive_solver|]. case_bool_decide as E2; [|naive_solver]. subst. cbv zeta.
  destruct (low_battery s p); [naive_solver|].
  destruct (available_value (hs_ThermalLevel s)), (available_value (hs_CPUSpeedLimitPercent s)), (available_value (hs_PowerSource s)); try naive_solver.
  destruct (_ && _); [naive_solver|]. cbn [hd_Stop]. rewrite !add_temperature_stop, !add_finding_stop. naive_solver.
Qed.
Lemma battery_low_dangerous s p : battery_low s p -> dangerous s p.
Proof. intros [H1 H2]. unfold dangerous, evaluateSnapshot. rewrite H1. cbn. by rewrite H2. Qed.
(** New work is let through only on a host that is well or not guarded. *)
Lemma evaluateSnapshot_refuses s p :
  hd_RefuseNew (evaluateSnapshot s p) = negb ((hd_Level (evaluateSnapshot s p) ==? LevelOK) || (hd_Level (evaluateSnapshot s p) ==? LevelUnsupported)).
Proof.
  unfold evaluateSnapshot. destruct (available_value (hs_Platform s)) as [q|]; [|done].
  case_bool_decide; [done|]. case_bool_decide; [|done]. cbv zeta. destruct (low_battery s p); [done|].
  destruct (available_value (hs_ThermalLevel s)), (available_value (hs_CPUSpeedLimitPercent s)), (available_value (hs_PowerSource s)); try done.
  destruct (_ && _); [done|]. cbn [hd_RefuseNew hd_Level].
  set (d := add_temperature _ _ _ _ _). assert (hd_Level d = LevelOK \/ hd_Level d = LevelWarning \/ hd_Level d = LevelCritical) as Hd.
  { assert (forall d' w c wr cr, (hd_Level d' = LevelOK \/ hd_Level d' = LevelWarning \/ hd_Level d' = LevelCritical) ->
      let l := hd_Level (add_finding d' w c wr cr) in l = LevelOK \/ l = LevelWarning \/ l = LevelCritical) as Hf.
    { intros [] [] [] wr cr; cbn; try tauto. case_bool_decide; cbn; tauto. }
    subst d. unfold add_temperature. repeat case_match; repeat apply Hf; by left. }
  by destruct Hd as [->|[->| ->]].
Qed.

(** ** The critical window

    A run of observations from the newest on: each of the same machine,
    valid, confirmed by this process, dangerous under the policy, and at most
    [StaleAfter] older than the one after it. *)
Definition in_window (view : HealthView) (p : HealthPolicy) (now : Time) (s : HealthSnapshot) : Prop :=
  hs_ResourceID s = hv_ResourceID view /\ Snapshot_Validate s = None /\ hv_ReobservedSince view <= hs_ObservedAt s /\
  now - hs_ObservedAt s <= HistoryMaxAge /\ dangerous s p.
Fixpoint unbroken (t : Time) (w : list HealthSnapshot) : Prop :=
  match w with
  | [] => True
  | s :: w => hs_ObservedAt s < t /\ t - hs_ObservedAt s <= StaleAfter /\ unbroken (hs_ObservedAt s) w
  end.
Fixpoint oldest (t : Time) (w : list HealthSnapshot) : Time :=
  match w with [] => t | s :: w => oldest (hs_ObservedAt s) w end.
Lemma oldest_app t w s : oldest t (w ++ [s]) = hs_ObservedAt s.
Proof. revert t. induction w as [|x w IH]; intros t; cbn; [done|]. apply IH. Qed.

Lemma walk_test view p now s :
  (hs_ResourceID s <>? hv_ResourceID view) || not_nil (Snapshot_Validate s) || Before (hs_ObservedAt s) (hv_ReobservedSince view)
    || (HistoryMaxAge <? time_Sub now (hs_ObservedAt s)) = false /\ (hd_Level (evaluateSnapshot s p) <>? LevelCritical) = false <->
  in_window view p now s.
Proof.
  unfold in_window, dangerous, Before. rewrite !orb_false_iff, !negb_false_iff, !bool_decide_eq_true, !Z.ltb_ge.
  pose proof (time_Sub_lt HistoryMaxAge now (hs_ObservedAt s) HistoryMaxAge_range).
  destruct (Snapshot_Validate s); cbn; split; intros; destruct_and?; try done; split_and!; try done; try lia.
Qed.
#[local] Instance in_window_dec view p now s : base.Decision (in_window view p now s).
Proof. unfold in_window, dangerous. apply and_dec; [apply _|]. apply and_dec; [destruct (Snapshot_Validate s); [by right|by left]|apply _]. Defined.
Lemma step_test t s :
  negb (Before (hs_ObservedAt s) t) || (StaleAfter <? time_Sub t (hs_ObservedAt s)) = false <->
  hs_ObservedAt s < t /\ t - hs_ObservedAt s <= StaleAfter.
Proof.
  unfold Before. rewrite orb_false_iff, negb_false_iff, Z.ltb_lt, Z.ltb_ge.
  pose proof (time_Sub_lt StaleAfter t (hs_ObservedAt s) StaleAfter_range). lia.
Qed.
Lemma critical_start_walk view p now l t :
  exists w, w `prefix_of` l /\ Forall (in_window view p now) w /\ unbroken t w /\ critical_start view p now false t t l = oldest t w /\
    forall w', w' `prefix_of` l -> Forall (in_window view p now) w' -> unbroken t w' -> oldest t w <= oldest t w'.
Proof.
  revert t. induction l as [|s l IH]; intros t; cbn [critical_start].
  { exists []. repeat split; try done. intros w' ->%prefix_nil_inv. done. }
  assert (forall w', w' `prefix_of` s :: l -> Forall (in_window view p now) w' -> unbroken t w' -> w' = [] \/
    exists w0, w' = s :: w0 /\ w0 `prefix_of` l /\ in_window view p now s /\ hs_ObservedAt s < t /\ t - hs_ObservedAt s <= StaleAfter) as Hcase.
  { intros [|x w'] Hp Hw Hu; [by left|]. right. pose proof (prefix_cons_inv_1 _ _ _ _ Hp) as ->. apply prefix_cons_inv_2 in Hp.
    apply Forall_cons in Hw as [Hx _]. destruct Hu as (? & ? & _). by exists w'. }
  destruct (_ || _) eqn:E1; [|destruct (negb false && _) eqn:E2; [|destruct (hd_Level (evaluateSnapshot s p) <>? LevelCritical) eqn:E3]].
  1-3: exists []; (split; [apply prefix_nil|]); (split; [constructor|]); (split; [done|]); (split; [done|]); intros w' Hp Hw Hu;
    destruct (Hcase w' Hp Hw Hu) as [->|(w0 & -> & _ & Hs & H1 & H2)]; [done|]; exfalso.
  - apply (walk_test _ p) in Hs as [Hs _]. congruence.
  - cbn [negb andb] in E2. rewrite (proj2 (step_test t s)) in E2; done.
  - apply walk_test in Hs as [_ Hs]. congruence.
  - destruct (IH (hs_ObservedAt s)) as (w & Hp & Hw & Hu & Hc & Hm). cbn [negb andb] in E2. apply step_test in E2.
    assert (in_window view p now s) as Hs by (apply walk_test; split; [exact E1|exact E3]).
    exists (s :: w). split; [by apply prefix_cons|]. split; [by constructor|]. split; [by destruct E2|]. split; [done|].
    intros w' Hp' Hw' Hu'. destruct (Hcase w' Hp' Hw' Hu') as [->|(w0 & -> & Hp0 & _)]; cbn [oldest].
    + transitivity (hs_ObservedAt s); [|lia]. apply (Hm []); [apply prefix_nil|constructor|done].
    + apply Forall_cons in Hw' as [_ Hw']. destruct Hu' as (_ & _ & Hu'). by apply Hm.
Qed.

(** The view is judged at all: fresh, with a valid policy and a valid latest
    observation that this process has confirmed and that is not too old. *)
Definition judged (view : HealthView) (p : HealthPolicy) (now : Time) (latest : HealthSnapshot) : Prop :=
  hv_Fresh view = true /\ HealthPolicy_Validate p = None /\ hv_Latest view = Some latest /\ Snapshot_Validate latest = None /\
  hs_ResourceID latest = hv_ResourceID view /\ 0 <= now - hs_ObservedAt latest <= StaleAfter /\
  hv_ReobservedSince view <> zero_time /\ hv_ReobservedSince view <= hs_ObservedAt latest.
(** The history begins with an unbroken critical window at least as long as
    the policy's duration, which ends with the latest observation. *)
Definition sustained (view : HealthView) (p : HealthPolicy) (now : Time) (latest : HealthSnapshot) : Prop :=
  dangerous latest p /\ Z.of_nat (length (hv_History view)) <= HistoryMaxRows /\
  exists h0 w, h0 :: w `prefix_of` hv_History view /\ hs_ObservedAt h0 = hs_ObservedAt latest /\
    Forall (in_window view p now) (h0 :: w) /\ unbroken (hs_ObservedAt h0) w /\
    hp_CriticalDurationSeconds p * Second <= hs_ObservedAt latest - oldest (hs_ObservedAt h0) w.
(** What [Evaluate] answers when nothing is judged. *)
Lemma Evaluate_judged view p now :
  (exists latest, judged view p now latest) \/
  hd_Level (Evaluate view p now) = LevelUnknown /\ hd_RefuseNew (Evaluate view p now) = true /\ hd_Stop (Evaluate view p now) = false /\
  forall latest, ~ judged view p now latest.
Proof.
  unfold Evaluate, judged, Before, IsZero. destruct (hv_Fresh view); cbn [negb]; [|right; repeat split; naive_solver].
  destruct (HealthPolicy_Validate p); cbn [not_nil is_nil negb]; [right; repeat split; naive_solver|].
  destruct (hv_Latest view) as [latest|]; [|right; repeat split; naive_solver]. cbv zeta.
  destruct (Snapshot_Validate latest) eqn:Ev; cbn [not_nil is_nil negb orb]; [right; repeat split; naive_solver|].
  case_bool_decide; cbn [negb]; [|right; repeat split; naive_solver].
  destruct (Z.ltb_spec now (hs_ObservedAt latest)); [right; repeat split; intros ? Hj; destruct_and?; simplify_eq; lia|].
  pose proof (time_Sub_lt StaleAfter now (hs_ObservedAt latest) StaleAfter_range) as Hs.
  destruct (Z.ltb_spec StaleAfter (time_Sub now (hs_ObservedAt latest))); [right; repeat split; intros ? Hj; destruct_and?; simplify_eq; lia|].
  destruct (Z.eqb_spec (hv_ReobservedSince view) zero_time); [right; repeat split; intros ? Hj; destruct_and?; simplify_eq; lia|].
  destruct (Z.ltb_spec (hs_ObservedAt latest) (hv_ReobservedSince view)); [right; repeat split; intros ? Hj; destruct_and?; simplify_eq; lia|].
  left. exists latest. split_and!; try done; lia.
Qed.
Definition judge_latest (view : HealthView) (p : HealthPolicy) (now : Time) (latest : HealthSnapshot) : HealthDecision :=
  let at_ := hs_ObservedAt latest in
  let d := evaluateSnapshot latest p in
  if (hd_Level d <>? LevelCritical) || hd_Stop d then d
  else match hv_History view with
  | [] => d
  | h0 :: _ =>
      if (HistoryMaxRows <? Z.of_nat (length (hv_History view))) || negb (hs_ObservedAt h0 =? at_) then d
      else
        let start := critical_start view p now true at_ at_ (hv_History view) in
        if hp_CriticalDurationSeconds p * Second <=? time_Sub at_ start
        then mkHealthDecision (hd_Level d) (hd_Reasons d ++ [HReasonSustained]) (hd_Diagnostics d) (hd_RefuseNew d) true (Some start)
        else mkHealthDecision (hd_Level d) (hd_Reasons d) (hd_Diagnostics d) (hd_RefuseNew d) (hd_Stop d) (Some start)
  end.
Lemma Evaluate_on view p now latest : judged view p now latest -> Evaluate view p now = judge_latest view p now latest.
Proof.
  intros (Hf & Hp & Hl & Hv & Hr & Ha & Hz & Hs). unfold Evaluate. rewrite Hf, Hp, Hl, Hv. cbn [negb not_nil is_nil orb]. cbv zeta.
  rewrite bool_decide_eq_true_2 by done. unfold Before, IsZero. cbn [negb].
  pose proof (time_Sub_lt StaleAfter now (hs_ObservedAt latest) StaleAfter_range).
  rewrite (proj2 (Z.ltb_ge now _)) by lia. rewrite (proj2 (Z.ltb_ge StaleAfter _)) by lia.
  rewrite (proj2 (Z.eqb_neq (hv_ReobservedSince view) _)) by done. by rewrite (proj2 (Z.ltb_ge (hs_ObservedAt latest) _)) by lia.
Qed.
Lemma policy_duration p : HealthPolicy_Validate p = None -> 1 <= hp_CriticalDurationSeconds p <= MaxCriticalDurationSeconds.
Proof. unfold HealthPolicy_Validate. destruct (_ || _) eqn:E; [done|]. intros _. rewrite !orb_false_iff, !Z.ltb_ge in E. lia. Qed.
(** The first step of the walk looks at the latest observation itself. *)
Lemma critical_start_first view p now t h l :
  hs_ObservedAt h = t ->
  critical_start view p now true t t (h :: l) =
    if decide (in_window view p now h) then critical_start view p now false t t l else t.
Proof.
  intros <-. cbn [critical_start negb andb]. case_decide as D.
  - apply walk_test in D as [-> ->]. done.
  - destruct (_ || _ || _ || _) eqn:E1; [done|]. destruct (hd_Level _ <>? _) eqn:E2; [done|]. by destruct D; apply walk_test.
Qed.
Lemma sustained_alt view p now latest :
  judged view p now latest -> dangerous latest p ->
  sustained view p now latest <->
  exists h0 l, hv_History view = h0 :: l /\ Z.of_nat (length (hv_History view)) <= HistoryMaxRows /\ hs_ObservedAt h0 = hs_ObservedAt latest /\
    hp_CriticalDurationSeconds p * Second
      <= hs_ObservedAt latest - critical_start view p now true (hs_ObservedAt latest) (hs_ObservedAt latest) (hv_History view).
Proof.
  intros (_ & Hp%policy_duration & _) Hd. split.
  - intros (_ & Hn & h0 & w & [k Hk] & Ht & Hw & Hu & Hl). exists h0, (w ++ k). rewrite Hk in *. split; [done|]. split; [done|]. split; [done|].
    cbn [app]. rewrite critical_start_first by done. apply Forall_cons in Hw as [H0 Hw]. rewrite decide_True by done.
    destruct (critical_start_walk view p now (w ++ k) (hs_ObservedAt latest)) as (w' & _ & _ & _ & -> & Hm).
    rewrite Ht in *. specialize (Hm w (prefix_app_r _ _ _ (reflexivity w)) Hw Hu). lia.
  - intros (h0 & l & Hh & Hn & Ht & Hl). split; [done|]. split; [done|]. rewrite Hh in *. rewrite critical_start_first in Hl by done.
    case_decide as D; [|unfold Second in Hl; lia].
    destruct (critical_start_walk view p now l (hs_ObservedAt latest)) as (w & Hp' & Hw & Hu & E & _). rewrite E, <- Ht in Hl. rewrite <- Ht in Hu.
    exists h0, w. split; [by apply prefix_cons|]. split; [done|]. split; [by constructor|]. split; [done|]. by rewrite <- Ht.
Qed.
Lemma judge_latest_refuses view p now latest :
  hd_RefuseNew (judge_latest view p now latest) = hd_RefuseNew (evaluateSnapshot latest p).
Proof.
  unfold judge_latest. cbv zeta. destruct (_ || _); [done|]. destruct (hv_History view) as [|h l]; [done|].
  destruct (_ || _); [done|]. by destruct (_ <=? _).
Qed.
Lemma judge_latest_stop view p now latest :
  judged view p now latest ->
  hd_Stop (judge_latest view p now latest) = true <-> battery_low latest p \/ sustained view p now latest.
Proof.
  intros Hj. unfold judge_latest. cbv zeta. destruct (hd_Level (evaluateSnapshot latest p) <>? LevelCritical) eqn:El; cbn [orb].
  { rewrite negb_true_iff, bool_decide_eq_false in El. rewrite evaluateSnapshot_stop. split; [by left|].
    intros [H|[H _]]; [done|]. by destruct El. }
  rewrite negb_false_iff, bool_decide_eq_true in El. destruct (hd_Stop (evaluateSnapshot latest p)) eqn:Es.
  { rewrite ?Es. split; [|done]. intros _. left. by apply evaluateSnapshot_stop. }
  assert (~ battery_low latest p) as Hb by (rewrite <- evaluateSnapshot_stop; congruence).
  rewrite (sustained_alt view p now latest Hj El).
  destruct Hj as (_ & Hp%policy_duration & _). unfold MaxCriticalDurationSeconds in Hp.
  destruct (hv_History view) as [|h l] eqn:Eh.
  { rewrite ?Es. split; [done|]. intros [?|(? & ? & ? & _)]; done. }
  set (start := critical_start _ _ _ _ _ _ _). destruct (_ || _) eqn:E.
  - rewrite ?Es. split; [done|]. intros [?|(h0 & l0 & [= <- <-] & Hn & Ht & _)]; [done|].
    rewrite orb_true_iff, negb_true_iff, Z.ltb_lt, Z.eqb_neq in E. lia.
  - rewrite orb_false_iff, negb_false_iff, Z.ltb_ge, Z.eqb_eq in E. destruct E as [En Et].
    pose proof (time_Sub_le (hp_CriticalDurationSeconds p * Second) (hs_ObservedAt latest) start) as Hs.
    assert (MinInt64 < hp_CriticalDurationSeconds p * Second <= MaxInt64) as Hr by (unfold Second, MinInt64, MaxInt64; lia).
    specialize (Hs Hr). destruct (Z.leb_spec (hp_CriticalDurationSeconds p * Second) (time_Sub (hs_ObservedAt latest) start)); cbn [hd_Stop].
    + split; [|done]. intros _. right. exists h, l. split_and!; try done. lia.
    + rewrite ?Es. split; [done|]. intros [?|(? & ? & _ & _ & _ & ?)]; [done|lia].
Qed.

(** C30: The guard stops running work exactly when it has a fresh view,
    confirmed by this process and at most 90 seconds old, whose latest
    observation shows a low battery, or whose history shows an unbroken run of
    critical observations of this machine, made since this process confirmed
    it and each at most 90 seconds after the one before, that spans the
    policy's duration. It lets new work through exactly when such a view's
    latest observation is judged well or the host is not guarded. *)
Theorem stop_exact view p now :
  (hd_Stop (Evaluate view p now) = true <->
     exists latest, judged view p now latest /\ (battery_low latest p \/ sustained view p now latest)) /\
  (hd_RefuseNew (Evaluate view p now) = false <->
     exists latest, judged view p now latest /\
       (hd_Level (evaluateSnapshot latest p) = LevelOK \/ hd_Level (evaluateSnapshot latest p) = LevelUnsupported)).
Proof.
  assert (forall a b, judged view p now a -> judged view p now b -> a = b) as Huniq
    by (intros a b (_ & _ & Ha & _) (_ & _ & Hb & _); congruence).
  destruct (Evaluate_judged view p now) as [[latest Hj]|(_ & Hr & Hs & Hn)].
  - rewrite (Evaluate_on _ _ _ _ Hj), judge_latest_refuses, evaluateSnapshot_refuses, (judge_latest_stop _ _ _ _ Hj).
    rewrite negb_false_iff, orb_true_iff, !bool_decide_eq_true. split; (split; [by exists latest|]).
    + intros (l & Hl & H). by rewrite (Huniq latest l Hj Hl).
    + intros (l & Hl & H). by rewrite (Huniq latest l Hj Hl).
  - rewrite Hr, Hs. split; (split; [done|]); intros (l & Hl & _); by apply Hn in Hl.
Qed.

(** ** Runs of the sampling service

    The sections under the mutex, in any order and of any callers. A probe
    that was begun is finished at most once, by the caller that began it; the
    judgement is made on an arbitrary sample. The log has the newest event
    first. *)
Inductive hevent :=
  | EvBegin (now : Time) (resource : string)
  | EvFinish (resource : string) (finished : Time) (failed : bool) (s : HealthSnapshot) (recorded : option error)
  | EvRead (resource : string).
Lemma judge_probe_ok target begun finished sample probeErr s :
  judge_probe target begun finished sample probeErr = (false, s) ->
  Snapshot_Validate s = None /\ hs_ResourceID s = ht_ResourceID target /\ begun <= hs_ObservedAt s <= finished.
Proof.
  unfold judge_probe, Before, After. destruct sample as [s'|e]; [|done]. destruct (_ || _) eqn:E; [done|]. intros [= <-].
  rewrite !orb_false_iff, negb_false_iff, bool_decide_eq_true, !Z.ltb_ge in E. destruct (Snapshot_Validate s'); cbn in E; naive_solver.
Qed.
Transparent Snapshot_Validate.
Lemma Snapshot_Validate_time s : Snapshot_Validate s = None -> hs_ObservedAt s <> zero_time.
Proof.
  unfold Snapshot_Validate. destruct (_ && _); [done|]. destruct (_ || _ || IsZero _ || _ || _) eqn:E; [done|]. intros _.
  rewrite !orb_false_iff in E. destruct E as [[[_ E] _] _]. unfold IsZero in E. lia.
Qed.
#[local] Opaque Snapshot_Validate.
Section Runs.
Context (json_snapshot : HealthSnapshot -> result error string).
#[local] Abbreviation snap_digest := (snapshotDigest json_snapshot).
Definition hstate : Type := machines * gset string.
Inductive hstep : hstate -> hevent -> hstate -> Prop :=
  | step_begin ms probes now r c ms' :
      begin_refresh now r ms = (c, ms') ->
      hstep (ms, probes) (EvBegin now r) (ms', if c ==? BeginProbe then {[r]} ∪ probes else probes)
  | step_finish ms probes target begun finished sample probeErr failed s recorded :
      ht_ResourceID target ∈ probes -> judge_probe target begun finished sample probeErr = (failed, s) ->
      hstep (ms, probes) (EvFinish (ht_ResourceID target) finished failed s recorded)
        (finish_refresh json_snapshot (ht_ResourceID target) finished failed s recorded ms, probes ∖ {[ht_ResourceID target]})
  | step_cached ms probes r latest history now :
      hstep (ms, probes) (EvRead r) ((cached_view json_snapshot r latest history now ms).2, probes)
  | step_evidence ms probes ev r history now :
      hstep (ms, probes) (EvRead r) ((Evidence_View json_snapshot ev r history now ms).2, probes).
Inductive hreach : list hevent -> hstate -> Prop :=
  | hreach_nil : hreach [] (∅, ∅)
  | hreach_step log st e st' : hreach log st -> hstep st e st' -> hreach (e :: log) st'.

(** The usable observations of a machine since its last failed probe. *)
Fixpoint confirmations (r : string) (log : list hevent) : list HealthSnapshot :=
  match log with
  | [] => []
  | EvFinish r' _ failed s recorded :: log =>
      if r' ==? r then if probe_unusable failed s recorded then [] else s :: confirmations r log else confirmations r log
  | _ :: log => confirmations r log
  end.
(** Each at most [StaleAfter] before the one after it. *)
Fixpoint chained (t : Time) (w : list HealthSnapshot) : Prop :=
  match w with
  | [] => True
  | s :: w => 0 <= t - hs_ObservedAt s <= StaleAfter /\ chained (hs_ObservedAt s) w
  end.
(** What an entry of the map says about the log. *)
Definition accounted (log : list hevent) (r : string) (m : machineSample) : Prop :=
  if IsZero (mm_confirmed m) then mm_since m = zero_time
  else mm_failed m = false /\ mm_since m <> zero_time /\
    exists s w, s :: w `prefix_of` confirmations r log /\ hs_ObservedAt s = mm_confirmed m /\ mm_digest m = snap_digest s /\
      chained (mm_confirmed m) w /\ mm_since m = oldest (mm_confirmed m) w.
Definition all_accounted (log : list hevent) (ms : machines) : Prop := forall r m, ms !! r = Some m -> accounted log r m.

Lemma accounted_new log r : accounted log r new_machine.
Proof. done. Qed.
Lemma accounted_unconfirm log r m : accounted log r (unconfirm m).
Proof. done. Qed.
Lemma accounted_silent log log' r m : confirmations r log' = confirmations r log -> accounted log r m -> accounted log' r m.
Proof. unfold accounted. by intros ->. Qed.
Lemma accounted_settle log r m finished failed s recorded :
  (failed = false -> hs_ObservedAt s <> zero_time) -> accounted log r m ->
  accounted (EvFinish r finished failed s recorded :: log) r (settle_machine json_snapshot finished failed s recorded m).
Proof.
  intros Hf Hm. unfold settle_machine. destruct (probe_unusable failed s recorded) eqn:Eu; [done|].
  assert (hs_ObservedAt s <> zero_time) as Hz by (apply Hf; unfold probe_unusable in Eu; by destruct failed).
  unfold accounted at 1. cbn [mm_confirmed mm_failed mm_since mm_digest confirmations]. rewrite bool_decide_eq_true_2 by done. rewrite Eu.
  unfold IsZero at 1. rewrite (proj2 (Z.eqb_neq _ _) Hz). split; [done|]. cbv zeta.
  destruct (_ || _) eqn:E.
  - split; [done|]. exists s, []. split; [by exists (confirmations r log)|]. by split_and!.
  - unfold IsZero, Before in E. rewrite !orb_false_iff, Z.eqb_neq, !Z.ltb_ge in E. destruct E as [[Hs Hb] Hg].
    pose proof (time_Sub_lt StaleAfter (hs_ObservedAt s) (mm_confirmed m) StaleAfter_range).
    unfold accounted in Hm. destruct (IsZero (mm_confirmed m)); [done|]. destruct Hm as (_ & Hs' & s' & w & Hp & Hat & Hd & Hc & Ho).
    split; [done|]. exists s, (s' :: w). split; [by apply prefix_cons|]. cbn [chained oldest]. rewrite Hat. split_and!; try done; lia.
Qed.
(** Reading a view changes the map at most by withdrawing a confirmation. *)
Definition read_only (r : string) (ms ms' : machines) : Prop := ms' = ms \/ ms' = alter unconfirm r ms.
Lemma cached_machines r latest history now ms : read_only r ms (cached_view json_snapshot r latest history now ms).2.
Proof. unfold cached_view, read_only. cbn [snd]. destruct (Before _ _); auto. Qed.
Lemma evidence_machines ev r history now ms : read_only r ms (Evidence_View json_snapshot ev r history now ms).2.
Proof. unfold Evidence_View, read_only. repeat case_match; auto. Qed.
Lemma accounted_read log r ms ms' : read_only r ms ms' -> all_accounted log ms -> all_accounted (EvRead r :: log) ms'.
Proof.
  intros H Ha r' m Hm. apply (accounted_silent log); [done|]. destruct H as [->| ->]; [by apply Ha|].
  destruct (decide (r = r')) as [->|]; [|rewrite lookup_alter_ne in Hm by done; by apply Ha].
  rewrite lookup_alter_eq in Hm. by apply fmap_Some in Hm as (m' & _ & ->).
Qed.
Lemma accounted_step log st e st' : hstep st e st' -> all_accounted log st.1 -> all_accounted (e :: log) st'.1.
Proof.
  intros Hs Ha r m. destruct Hs; cbn [fst] in *.
  - intros Hm. apply (accounted_silent log); [done|]. revert Hm. rename r0 into r1.
    assert (accounted log r1 (default new_machine (ms !! r1))) as Hd by (destruct (ms !! r1) eqn:E; [by apply Ha|done]).
    assert (forall m', accounted log r1 m' -> all_accounted log (<[r1 := m']> ms)) as Hi.
    { intros m' Hm' r' m0. destruct (decide (r1 = r')) as [->|]; [rewrite lookup_insert_eq; by intros [= <-]|].
      rewrite lookup_insert_ne by done. apply Ha. }
    revert H. unfold begin_refresh. cbv zeta. destruct (mm_inflight _); [intros [= _ <-]; by apply Hi|].
    destruct (_ && _); [intros [= _ <-]; by apply Hi|]. intros [= _ <-] [Hm _]%map_lookup_filter_Some.
    rewrite insert_insert_eq in Hm. revert Hm. apply Hi. exact Hd.
  - intros Hm. unfold finish_refresh in Hm. destruct (decide (ht_ResourceID target = r)) as [Hr|Hne].
    + rewrite <- Hr, lookup_alter_eq in Hm. rewrite <- Hr. apply fmap_Some in Hm as (m' & Hm' & ->).
      apply accounted_settle; [|by apply Ha]. intros ->. by apply Snapshot_Validate_time, (judge_probe_ok _ _ _ _ _ _ H0).
    + rewrite lookup_alter_ne in Hm by done. apply (accounted_silent log); [|by apply Ha]. cbn. by rewrite bool_decide_eq_false_2.
  - apply (accounted_read log _ ms); [apply cached_machines|done].
  - apply (accounted_read log _ ms); [apply evidence_machines|done].
Qed.
Lemma accounted_reach log st : hreach log st -> all_accounted log st.1.
Proof. induction 1; [intros r m; cbn [fst]; by rewrite lookup_empty|by eapply accounted_step]. Qed.

(** ** Probes *)
(** The machines with a probe running are those whose caller has not finished. *)
Definition probes_match (st : hstate) : Prop :=
  forall r, r ∈ st.2 <-> exists m, st.1 !! r = Some m /\ mm_inflight m = true.
Lemma begin_refresh_lookup now r ms c ms' r' :
  begin_refresh now r ms = (c, ms') ->
  ms' !! r' =
    if decide (r' = r) then
      let m := default new_machine (ms !! r) in
      Some (if c ==? BeginProbe then mkMachine true now (mm_confirmed m) (mm_since m) (mm_failed m) (mm_digest m) else m)
    else match ms !! r' with
         | Some m => if (c ==? BeginProbe) && evicted r now r' m then None else Some m
         | None => None
         end.
Proof.
  unfold begin_refresh. cbv zeta. set (m := default _ _).
  destruct (mm_inflight m) eqn:Ei; [|destruct (_ && _) eqn:Ec].
  - intros [= <- <-]. cbn. case_decide as D; [subst; by rewrite lookup_insert_eq|]. rewrite lookup_insert_ne by done. by destruct (ms !! r').
  - intros [= <- <-]. cbn. case_decide as D; [subst; by rewrite lookup_insert_eq|]. rewrite lookup_insert_ne by done. by destruct (ms !! r').
  - intros [= <- <-]. rewrite bool_decide_eq_true_2 by done. cbn [andb]. rewrite insert_insert_eq. case_decide as D.
    + subst r'. apply map_lookup_filter_Some. rewrite lookup_insert_eq. split; [done|]. unfold evicted. by rewrite bool_decide_eq_true_2.
    + destruct (ms !! r') as [m'|] eqn:El.
      * destruct (evicted r now r' m') eqn:Ee.
        -- apply map_lookup_filter_None. right. intros x. rewrite lookup_insert_ne, El by done. intros [= <-]. by rewrite Ee.
        -- apply map_lookup_filter_Some. by rewrite lookup_insert_ne, El by done.
      * apply map_lookup_filter_None. left. by rewrite lookup_insert_ne, El by done.
Qed.
Lemma begin_refresh_choice now r ms c ms' :
  begin_refresh now r ms = (c, ms') ->
  let m := default new_machine (ms !! r) in
  match c with
  | WaitForProbe => mm_inflight m = true
  | AnswerFromCache => mm_inflight m = false /\ mm_attempted m <> zero_time /\ now - mm_attempted m < DemandCache
  | BeginProbe => mm_inflight m = false /\ (mm_attempted m = zero_time \/ DemandCache <= now - mm_attempted m)
  end.
Proof.
  unfold begin_refresh. cbv zeta. destruct (mm_inflight _) eqn:Ei; [intros [= <- <-]; done|].
  pose proof (time_Sub_le DemandCache now (mm_attempted (default new_machine (ms !! r)))) as H.
  assert (MinInt64 < DemandCache <= MaxInt64) as Hd by by vm_compute. specialize (H Hd).
  unfold IsZero. destruct (_ && _) eqn:Ec; intros [= <- <-]; (split; [done|]).
  - rewrite andb_true_iff, negb_true_iff, Z.eqb_neq, Z.ltb_lt in Ec. split; [tauto|lia].
  - rewrite andb_false_iff, negb_false_iff, Z.eqb_eq, Z.ltb_ge in Ec. destruct Ec; [by left|right; lia].
Qed.

Lemma read_only_lookup r ms ms' r' :
  read_only r ms ms' -> match ms !! r', ms' !! r' with
                        | Some m, Some m' => mm_inflight m' = mm_inflight m /\ mm_attempted m' = mm_attempted m
                        | None, None => True
                        | _, _ => False
                        end.
Proof.
  intros [->| ->]; [by destruct (ms !! r')|]. destruct (decide (r = r')) as [->|].
  - rewrite lookup_alter_eq. by destruct (ms !! r').
  - rewrite lookup_alter_ne by done. by destruct (ms !! r').
Qed.
Lemma read_keeps_probes r ms ms' probes : read_only r ms ms' -> probes_match (ms, probes) -> probes_match (ms', probes).
Proof.
  intros Hr Hp r'. cbn [fst snd]. rewrite (Hp r'). cbn [fst]. pose proof (read_only_lookup r ms ms' r' Hr) as H.
  destruct (ms !! r') as [m|], (ms' !! r') as [m'|]; try done. destruct H as [Hi _].
  split; intros (x & [= <-] & Hx); eexists; (split; [done|]); congruence.
Qed.
Lemma probes_step st e st' : hstep st e st' -> probes_match st -> probes_match st'.
Proof.
  intros Hs Hp. destruct Hs; [|..|by eapply read_keeps_probes; [apply cached_machines|]|by eapply read_keeps_probes; [apply evidence_machines|]]; intros r'; cbn [fst snd].
  - rewrite (begin_refresh_lookup _ _ _ _ _ r' H). pose proof (begin_refresh_choice _ _ _ _ _ H) as Hc. cbv zeta in Hc.
    specialize (Hp r'). cbn [fst snd] in Hp. case_bool_decide as E.
    + subst c. rewrite elem_of_union, elem_of_singleton. case_decide as D; [subst; split; [eauto|by left]|].
      rewrite Hp. cbn [andb]. unfold evicted. destruct (ms !! r') as [m|]; [|naive_solver].
      destruct (mm_inflight m) eqn:Ei; cbn [negb andb]; rewrite ?andb_false_r; [naive_solver|].
      split; [intros [?|(? & [= <-] & ?)]; congruence|]. destruct (_ && _); intros (? & [= <-] & ?); congruence.
    + rewrite Hp. case_decide as D; [|by destruct (ms !! r')]. subst r'. destruct (ms !! r) as [m|] eqn:El; cbn; [done|].
      split; [by intros (? & ? & _)|]. by intros (m & [= <-] & ?).
  - rewrite elem_of_difference, elem_of_singleton, (Hp r'). cbn [fst]. unfold finish_refresh.
    destruct (decide (ht_ResourceID target = r')) as [->|].
    + rewrite lookup_alter_eq. split; [tauto|]. intros (m & (m' & _ & ->)%fmap_Some & Hm). unfold settle_machine in Hm. by destruct (probe_unusable _ _ _).
    + rewrite lookup_alter_ne by done. naive_solver.
Qed.
Lemma probes_reach log st : hreach log st -> probes_match st.
Proof. induction 1; [|by eapply probes_step]. intros r. cbn [fst snd]. rewrite lookup_empty. set_solver. Qed.

(** No probe of [r] was finished by these events. *)
Definition no_finish (r : string) (log : list hevent) : Prop :=
  Forall (fun e => match e with EvFinish r' _ _ _ _ => r' <> r | _ => True end) log.
(** A later event forgot a machine last probed at [f]: it came a day after. *)
Definition forgotten (f : Time) (newer : list hevent) : Prop :=
  exists now r, EvBegin now r ∈ newer /\ HistoryMaxAge < now - f.
Definition remembered (log : list hevent) (st : hstate) : Prop :=
  forall r newer f failed s recorded older,
    log = newer ++ EvFinish r f failed s recorded :: older -> no_finish r newer ->
    r ∈ st.2 \/ (exists m, st.1 !! r = Some m /\ mm_attempted m = f) \/ forgotten f newer.
Lemma forgotten_cons f e newer : forgotten f newer -> forgotten f (e :: newer).
Proof. intros (now & r & H & Hf). exists now, r. split; [by right|done]. Qed.
Lemma read_remembers log r ms ms' probes : read_only r ms ms' -> remembered log (ms, probes) -> remembered (EvRead r :: log) (ms', probes).
Proof.
  intros Hr Hm r' [|e newer] f failed s recorded older Hl Hn; [done|]. injection Hl as <- Hl. apply Forall_cons in Hn as [_ Hn].
  destruct (Hm _ _ _ _ _ _ _ Hl Hn) as [Hp|[(m & Ha & Hf)|Hf]]; [by left| |right; right; by apply forgotten_cons].
  right. left. pose proof (read_only_lookup r ms ms' r' Hr) as H. cbn [fst] in Ha. rewrite Ha in H.
  cbn [fst]. destruct (ms' !! r') as [m'|]; [|done]. exists m'. split; [done|]. destruct H. congruence.
Qed.
Lemma remembered_step log st e st' : hstep st e st' -> probes_match st -> remembered log st -> remembered (e :: log) st'.
Proof.
  intros Hs Hp Hm. destruct Hs; [|..|by eapply read_remembers; [apply cached_machines|]|by eapply read_remembers; [apply evidence_machines|]].
  - intros r' [|e newer] f failed s recorded older Hl Hn; [done|]. injection Hl as <- Hl. apply Forall_cons in Hn as [_ Hn].
    cbn [fst snd]. rewrite (begin_refresh_lookup _ _ _ _ _ r' H).
    destruct (Hm _ _ _ _ _ _ _ Hl Hn) as [Hr|[(m & Ha & Hf)|Hf]]; [left; case_bool_decide; set_solver| |right; right; by apply forgotten_cons].
    cbn [fst] in Ha. case_decide as D.
    + subst r'. rewrite Ha. case_bool_decide; [left; set_solver|]. right. left. cbv zeta. cbn [default]. by exists m.
    + rewrite Ha. destruct (_ && _) eqn:E; [|right; left; by exists m]. right. right. exists now, r. split; [by left|].
      unfold evicted in E. rewrite !andb_true_iff, Z.ltb_lt, Hf in E. apply (time_Sub_lt _ _ _ HistoryMaxAge_range). tauto.
  - intros r' [|e newer] f failed' s' recorded' older Hl Hn; cbn [fst snd].
    + injection Hl as <- <- _ _ _ _. right. left. unfold finish_refresh. apply Hp in H as (m & Hm' & _). cbn [fst] in Hm'.
      rewrite lookup_alter_eq, Hm'. eexists. split; [done|]. unfold settle_machine. by destruct (probe_unusable _ _ _).
    + injection Hl as <- Hl. apply Forall_cons in Hn as [Hne Hn].
      destruct (Hm _ _ _ _ _ _ _ Hl Hn) as [Hr|[(m & Ha & Hf)|Hf]]; [left; set_solver| |right; right; by apply forgotten_cons].
      right. left. exists m. split; [|done]. unfold finish_refresh. by rewrite lookup_alter_ne.
Qed.
Lemma remembered_reach log st : hreach log st -> remembered log st.
Proof. induction 1; [by intros r [|]|]. eapply remembered_step; [done| |done]. by eapply probes_reach. Qed.

(** However the callers interleave, a probe of a machine is begun
    only when none is running, and no earlier than the demand cache allows
    after the last one finished, unless the machine was not probed for a day
    and forgotten in between. *)
Theorem probe_spacing log ms probes now r ms' :
  hreach log (ms, probes) -> begin_refresh now r ms = (BeginProbe, ms') ->
  r ∉ probes /\
  forall newer f failed s recorded older,
    log = newer ++ EvFinish r f failed s recorded :: older -> no_finish r newer -> f <> zero_time ->
    DemandCache <= now - f \/ forgotten f newer.
Proof.
  intros Hr Hb. pose proof (begin_refresh_choice _ _ _ _ _ Hb) as [Hi Ha]. assert (r ∉ probes) as Hn.
  { intros (m & Hm & Hm')%(probes_reach _ _ Hr). cbn [fst] in Hm. rewrite Hm in Hi. cbn in Hi. congruence. }
  split; [done|]. intros newer f failed s recorded older Hl Hf Hz.
  destruct (remembered_reach _ _ Hr _ _ _ _ _ _ _ Hl Hf) as [H|[(m & Hm & Hm')|H]]; [done| |by right].
  left. cbn [fst] in Hm. rewrite Hm in Ha. cbn in Ha. destruct Ha; [congruence|lia].
Qed.

(** ** Fresh views *)
Definition own_window (log : list hevent) (r : string) (latest : HealthSnapshot) (view : HealthView) (now : Time) : Prop :=
  0 <= now - hs_ObservedAt latest <= StaleAfter /\
  exists s w, s :: w `prefix_of` confirmations r log /\ hs_ObservedAt s = hs_ObservedAt latest /\ snap_digest s = snap_digest latest /\
    chained (hs_ObservedAt s) w /\ hv_ReobservedSince view = oldest (hs_ObservedAt s) w.
Lemma accounted_fresh log r m latest view now :
  accounted log r m -> mm_confirmed m <> zero_time -> hs_ObservedAt latest = mm_confirmed m -> snap_digest latest = mm_digest m ->
  hv_ReobservedSince view = mm_since m -> 0 <= now - hs_ObservedAt latest <= StaleAfter -> own_window log r latest view now.
Proof.
  unfold accounted, IsZero. intros Ha Hz Ho Hd Hs Hn. rewrite (proj2 (Z.eqb_neq _ _) Hz) in Ha.
  destruct Ha as (_ & _ & s & w & Hp & Hat & Hds & Hc & Hw). split; [done|]. exists s, w. rewrite Hat, Ho, Hs. split_and!; try done. congruence.
Qed.
Lemma evidence_time r ms e : Service_Evidence r ms = Some e -> he_observed e <> zero_time.
Proof.
  unfold Service_Evidence. destruct (ms !! r) as [m|]; [|done]. destruct (_ || _) eqn:E; [done|]. intros [= <-]. cbn.
  unfold IsZero in E. rewrite !orb_false_iff, !Z.eqb_neq in E. tauto.
Qed.
(** C31: A view is fresh only if this process itself has observed
    the machine: its latest snapshot is the one of the last probe, usable and
    recorded, with no failed probe since, at most 90 seconds old; and the time
    since when the machine counts as observed is that of an own observation,
    from which own observations at most 90 seconds apart lead to the latest.
    This holds for views from the cache and for views of evidence handed out
    at any earlier time. *)
Theorem fresh_reobserved log ms probes r latest history now r0 ms0 :
  hreach log (ms, probes) ->
  (let v := (cached_view json_snapshot r latest history now ms).1 in hv_Fresh v = true -> own_window log r latest v now) /\
  (let v := (Evidence_View json_snapshot (Service_Evidence r0 ms0) r (latest :: history) now ms).1 in
   hv_Fresh v = true -> own_window log r latest v now).
Proof.
  intros Ha%accounted_reach. cbn [fst] in Ha. pose proof (time_Sub_lt StaleAfter now (hs_ObservedAt latest) StaleAfter_range) as Hst.
  split; cbv zeta.
  - assert (accounted log r (default new_machine (ms !! r))) as Hm by (destruct (ms !! r) eqn:E; [by apply Ha|done]). revert Hm.
    unfold cached_view. cbn [fst]. set (m := default _ _). intros Hm. destruct (mm_failed m); [done|]. destruct (IsZero (mm_confirmed m)) eqn:Ez; [done|].
    destruct (negb (_ =? _) || _) eqn:E1; [done|]. destruct (Before _ _) eqn:E2; [done|]. destruct (StaleAfter <? _) eqn:E3; [done|]. destruct ((mt_Status (hs_Platform latest) <>? MetricAvailable) || _); [done|]. intros _.
    rewrite orb_false_iff, !negb_false_iff, Z.eqb_eq, bool_decide_eq_true in E1. unfold Before, IsZero in *.
    rewrite Z.eqb_neq in Ez. rewrite Z.ltb_ge in E2, E3. eapply accounted_fresh; try done; try tauto. lia.
  - unfold Evidence_View. destruct (Service_Evidence r0 ms0) as [e|] eqn:Ee; [|done]. destruct (_ || _) eqn:E1; [done|]. destruct (evidence_current e r ms) eqn:Ec; [|done]. cbn [negb].
    destruct (Before _ _) eqn:E2; [done|]. destruct (StaleAfter <? _) eqn:E3; [done|]. intros _. pose proof (evidence_time _ _ _ Ee) as Hz.
    rewrite !orb_false_iff, !negb_false_iff, !Z.eqb_eq, !bool_decide_eq_true in E1. destruct E1 as [[-> Hd] Ho].
    unfold evidence_current in Ec. destruct (ms !! he_resource e) as [m|] eqn:El; [|done].
    rewrite !andb_true_iff, !Z.eqb_eq, bool_decide_eq_true in Ec. destruct Ec as [[[_ H1] H2] H3]. unfold Before in E2. rewrite Z.ltb_ge in E2, E3.
    rewrite <- Ho in E2, E3, Hz, H2. apply (accounted_fresh log _ m); [by apply Ha|congruence..|cbn; congruence|lia].
Qed.
End Runs.

(** ** One caller *)
(** The discipline of a refresh: a machine is sampled and its entry settled
    only by a caller that was let through, once, with the snapshot that was
    offered to the repository just before. *)
Inductive probe_event := Let_through (r : string) | Sampled (r : string) | Offered (s : HealthSnapshot) | Settled (r : string) (failed : bool) (s : HealthSnapshot).
Inductive probe_state := NoProbe | Probing (r : string) | Sampling (r : string) | Recording (r : string) (s : HealthSnapshot).
Definition probe_step (st : probe_state) (e : probe_event) : option probe_state :=
  match st, e with
  | NoProbe, Let_through r => Some (Probing r)
  | Probing r, Sampled r' => if r ==? r' then Some (Sampling r) else None
  | Sampling r, Offered s => if hs_ResourceID s ==? r then Some (Recording r s) else None
  | Recording r s, Settled r' failed s' => if (r ==? r') && (failed || is_nil (Snapshot_Validate s')) then Some NoProbe else None
  | _, _ => None
  end.
#[export] Instance hcall_probe : Observed hcall probe_event := {|
  called X e := match e with
    | HSample t => [Sampled (ht_ResourceID t)] | HRecord s => [Offered s] | HFinish r _ failed s _ => [Settled r failed s] | _ => [] end;
  answered X e := match e in hcall X return X -> list probe_event with
    | HBegin _ r => fun c => if c ==? BeginProbe then [Let_through r] else [] | _ => fun _ => [] end |}.
Definition probe_ok {R} (t : prog hcall R) (st : probe_state) (Q : probe_state -> Prop) : Prop :=
  obeys (E := hcall) probe_step (fun _ _ _ _ => True) t st (fun _ => Q).
Lemma probe_bind {A B} (t : prog hcall A) (k : A -> prog hcall B) st Q :
  probe_ok t st (fun st' => forall a, probe_ok (k a) st' Q) -> probe_ok (prog_bind k t) st Q.
Proof. intros H. apply obeys_bind. eapply obeys_mono; [exact H|]. intros r s' Hs. apply Hs. Qed.
Lemma probe_silent {X R} (e : hcall X) (k : X -> prog hcall R) st Q :
  called (L := probe_event) e = [] -> (forall x, answered (L := probe_event) e x = []) -> (forall x, probe_ok (k x) st Q) -> probe_ok (Call e k) st Q.
Proof. intros H1 H2 H3. unfold probe_ok. cbn [obeys]. rewrite H1. exists st. split; [done|]. intros x _. rewrite H2. exists st. split; [done|apply H3]. Qed.
Lemma probe_call {X R} (e : hcall X) (k : X -> prog hcall R) st st' Q :
  feed probe_step st (called (L := probe_event) e) = Some st' -> (forall x, answered (L := probe_event) e x = []) -> (forall x, probe_ok (k x) st' Q) ->
  probe_ok (Call e k) st Q.
Proof. intros H1 H2 H3. unfold probe_ok. cbn [obeys]. exists st'. split; [done|]. intros x _. rewrite H2. exists st'. split; [done|apply H3]. Qed.
Lemma health_Cached_probe r st (Q : probe_state -> Prop) : Q st -> probe_ok (health_Cached r) st Q.
Proof.
  intros HQ. unfold health_Cached. destruct (negb _); [done|]. apply probe_silent; [done..|]. intros [[|latest history]|e]; [done| |done].
  apply probe_silent; [done..|]. intros now. apply probe_silent; [done..|]. done.
Qed.
Lemma cached_for_probe t st (Q : probe_state -> Prop) : Q st -> probe_ok (cached_for t) st Q.
Proof. intros HQ. unfold cached_for. apply probe_bind, health_Cached_probe. by intros [v|e]. Qed.
Lemma judge_probe_resource t begun finished sample probeErr failed s :
  HealthTarget_Valid t = true -> judge_probe t begun finished sample probeErr = (failed, s) ->
  hs_ResourceID s = ht_ResourceID t /\ (failed || is_nil (Snapshot_Validate s)) = true.
Proof.
  intros Hv H. destruct failed; [|apply judge_probe_ok in H as (-> & -> & _); done]. split; [|done].
  assert (resourcePattern (ht_ResourceID t) = true) as Hr by (unfold HealthTarget_Valid in Hv; rewrite !andb_true_iff in Hv; tauto).
  revert H. unfold judge_probe, Parse_nothing. rewrite Hr. destruct sample as [s'|e]; [|by intros [= <-]].
  destruct (_ || _); [by intros [= <-]|done].
Qed.
Lemma probe_machine_ok t now (Q : probe_state -> Prop) :
  HealthTarget_Valid t = true -> Q NoProbe -> probe_ok (probe_machine t now) (Probing (ht_ResourceID t)) Q.
Proof.
  intros Hv HQ. unfold probe_machine, sampleHealth. cbn [mbind prog_mbind mret prog_ret perform prog_bind].
  apply (probe_call _ _ _ (Sampling (ht_ResourceID t))); [cbn; by rewrite bool_decide_eq_true_2|done|]. intros r. cbn [prog_bind].
  apply probe_silent; [done..|]. intros probeErr. apply probe_silent; [done..|]. intros finished. cbn [prog_bind].
  destruct (judge_probe _ _ _ _ _) as [failed s] eqn:Ej. destruct (judge_probe_resource _ _ _ _ _ _ _ Hv Ej) as [Hr Hs].
  cbn [prog_bind]. apply (probe_call _ _ _ (Recording (ht_ResourceID t) s)); [cbn; by rewrite bool_decide_eq_true_2|done|]. intros recorded.
  cbn [prog_bind]. apply (probe_call _ _ _ NoProbe); [cbn [called hcall_probe feed probe_step]; by rewrite bool_decide_eq_true_2, Hs|done|].
  intros _. cbn [prog_bind]. destruct recorded; [done|by apply cached_for_probe].
Qed.
Lemma refresh_loop_ok fuel t (Q : probe_state -> Prop) : HealthTarget_Valid t = true -> Q NoProbe -> probe_ok (refresh_loop fuel t) NoProbe Q.
Proof.
  intros Hv HQ. induction fuel as [|fuel IH]; [done|]. cbn [refresh_loop mbind prog_mbind mret prog_ret perform prog_bind].
  apply probe_silent; [done..|]. intros [e|]; [done|]. cbn [prog_bind]. apply probe_silent; [done..|]. intros now. cbn [prog_bind].
  exists NoProbe. split; [done|]. intros c _. destruct c.
  - exists NoProbe. split; [done|]. apply probe_silent; [done..|]. intros [e|]; [done|]. cbn [prog_bind]. done.
  - exists NoProbe. split; [done|]. apply probe_bind, cached_for_probe. done.
  - exists (Probing (ht_ResourceID t)). split; [done|]. apply probe_bind, probe_machine_ok; [done|]. done.
Qed.
(** In every run of a refresh, cut or complete and whatever is
    answered, the host is sampled only after the service let this caller
    through, exactly one snapshot is then offered to the repository, it names
    the machine of the target, and the entry of the machine is settled once
    with a judgement that calls only valid snapshots usable; a refresh that
    answers leaves no probe open. *)
Theorem refresh_protocol fuel t l r :
  runs (Refresh fuel t) l r -> exists st, feed probe_step NoProbe l = Some st /\ (r <> None -> st = NoProbe).
Proof.
  intros Hr. assert (probe_ok (Refresh fuel t) NoProbe (fun st => st = NoProbe)) as Ho.
  { unfold Refresh. destruct (HealthTarget_Valid t) eqn:Hv; [|done]. by apply refresh_loop_ok. }
  apply (runs_fair probe_step (fun _ _ _ _ => True) _ NoProbe _) with (2 := Ho) in Hr; [|done].
  destruct (obeys_runs _ _ _ _ _ _ _ Ho Hr) as (s & Hf & HQ). exists s. split; [done|]. intros Hn. destruct r as [v|]; [|done]. by apply (HQ v).
Qed.

(** ** A host in trouble *)
Definition sample_machine : string :=
  "resource_0123456789abcdef0123456789abcdef0123456789abcdef0123456789abcdef".
Definition sample_start : Time := 1700000000 * Second.
(** A host that is at the critical thermal level. *)
Definition hot_host (at_ : Time) : HealthSnapshot :=
  let none T := metric_missing (T := T) "source_missing_or_invalid" in
  mkSnapshot 1 at_ sample_machine "" (metric_value "macos_intel") (metric_value 2) (metric_value (float_of_Z 100)) (metric_value 8)
    (none _) (none _) (none _) (none _) (none _) (none _) (none _) (none _) (none _) (none _) (metric_value "ac") (none _) (none _) (none _)
    (none _) (none _) (none _) (metric_value true) (metric_value "absent") (none _) (none _) (none _) [].
Definition hot_view (n : nat) : HealthView :=
  let seen := map (fun i => hot_host (sample_start + Z.of_nat i * 15 * Second)) (rev (seq 0 n)) in
  mkHealthView sample_machine (head seen) seen true "" sample_start None.
Definition hot_now (n : nat) : Time := sample_start + Z.of_nat n * 15 * Second.
(** Two observations fifteen seconds apart refuse new work; the third, thirty
    seconds after the first, stops what is running. *)
Example hot_host_stops :
  map (fun n => let d := Evaluate (hot_view n) health_DefaultPolicy (hot_now n) in (hd_RefuseNew d, hd_Stop d)) [2; 3]%nat
  = [(true, false); (true, true)].
Proof. vm_compute. reflexivity. Qed.
Lemma stop_exact_witness :
  exists latest, judged (hot_view 3) health_DefaultPolicy (hot_now 3) latest /\ sustained (hot_view 3) health_DefaultPolicy (hot_now 3) latest.
Proof.
  destruct (proj1 (proj1 (stop_exact (hot_view 3) health_DefaultPolicy (hot_now 3)))) as (latest & Hj & [[_ Hb]|Hs]).
  - vm_compute. reflexivity.
  - exfalso. destruct Hj as (_ & _ & Hl & _). injection Hl as <-. vm_compute in Hb. discriminate Hb.
  - by exists latest.
Defined.

Definition sample_json (s : HealthSnapshot) : result error string := Ok (FormatInt (hs_ObservedAt s)).
Definition probed (ms : machines) (t : Time) : machines :=
  finish_refresh sample_json sample_machine t false (hot_host t) None (begin_refresh t sample_machine ms).2.
Definition sample_target : HealthTarget := mkHealthTarget "ws-1" "conn-1" "sshhost" "account-1" "vault:conn-1" sample_machine "" None.
Definition probe_log (t : Time) : list hevent := [EvFinish sample_machine t false (hot_host t) None; EvBegin t sample_machine].
Lemma probed_reach log ms t :
  hreach sample_json log (ms, ∅) -> (begin_refresh t sample_machine ms).1 = BeginProbe -> Snapshot_Validate (hot_host t) = None ->
  hreach sample_json (probe_log t ++ log) (probed ms t, ∅).
Proof.
  intros Hr Hb Hv. destruct (begin_refresh t sample_machine ms) as [c ms1] eqn:E. cbn in Hb. subst c.
  unfold probed, probe_log. rewrite E. cbn [app snd].
  replace (∅ : gset string) with (({[sample_machine]} ∪ ∅ : gset string) ∖ {[sample_machine]}) by set_solver.
  eapply (hreach_step _ _ (ms1, {[sample_machine]} ∪ ∅)); [eapply hreach_step; [exact Hr|exact (step_begin _ _ _ _ _ BeginProbe _ E)]|].
  apply (step_finish _ _ _ sample_target t t (Ok (hot_host t)) None false (hot_host t) None); [set_solver|].
  unfold judge_probe. rewrite Hv. unfold Before, After. cbn. by rewrite Z.ltb_irrefl.
Qed.
Definition second_probe : Time := sample_start + 15 * Second.
Definition sample_probes : list hevent := probe_log second_probe ++ probe_log sample_start.
Definition sample_machines : machines := probed (probed ∅ sample_start) second_probe.
Lemma sample_probes_reach : hreach sample_json sample_probes (sample_machines, ∅).
Proof.
  apply probed_reach; [|vm_compute; reflexivity..]. rewrite <- (app_nil_r (probe_log sample_start)).
  apply probed_reach; [constructor|vm_compute; reflexivity..].
Qed.
Lemma fresh_reobserved_witness :
  let v := (cached_view sample_json sample_machine (hot_host second_probe) [hot_host sample_start] (second_probe + Second) sample_machines).1 in
  hv_Fresh v = true /\ hv_ReobservedSince v = sample_start /\
  own_window sample_json sample_probes sample_machine (hot_host second_probe) v (second_probe + Second).
Proof.
  intros v. split; [vm_compute; reflexivity|]. split; [vm_compute; reflexivity|].
  apply (proj1 (fresh_reobserved sample_json _ _ _ sample_machine (hot_host second_probe) [hot_host sample_start] (second_probe + Second)
    sample_machine ∅ sample_probes_reach)). vm_compute. reflexivity.
Defined.
Lemma probe_spacing_witness :
  (begin_refresh (second_probe + DemandCache) sample_machine sample_machines).1 = BeginProbe /\
  (DemandCache <= second_probe + DemandCache - second_probe \/ forgotten second_probe []).
Proof.
  split; [vm_compute; reflexivity|].
  refine (proj2 (probe_spacing sample_json sample_probes sample_machines ∅ (second_probe + DemandCache) sample_machine
    (begin_refresh (second_probe + DemandCache) sample_machine sample_machines).2 sample_probes_reach _)
    [] second_probe false (hot_host second_probe) None (EvBegin second_probe sample_machine :: probe_log sample_start) _ _ _).
  - destruct (begin_refresh _ _ _) as [c ms'] eqn:E. 
    assert ((c, ms').1 = BeginProbe) as H by (rewrite <- E; vm_compute; reflexivity). cbn in H. by subst c.
  - reflexivity.
  - constructor.
  - by vm_compute.
Defined.
Definition health_env (s : probe_state) (X : Type) (e : hcall X) : option X :=
  match e in hcall X return option X with
  | HCtxErr => Some None
  | HNow => Some sample_start
  | HBegin _ _ => Some BeginProbe
  | HSample _ => Some (Some (Ok (hot_host sample_start)))
  | HProbeErr => Some None
  | HRecord _ => Some None
  | HFinish _ _ _ _ _ => Some tt
  | HRead _ => Some (Ok [hot_host sample_start])
  | HCached r latest history now => Some (cached_view sample_json r latest history now (probed ∅ sample_start)).1
  | _ => None
  end.
Definition sample_refresh := play (E := hcall) probe_step health_env (Refresh 1 sample_target) NoProbe.
Lemma refresh_protocol_witness :
  (match sample_refresh.2 with Some (Some (Ok v)) => hv_Fresh v | _ => false end) = true /\
  sample_refresh.1 = [Let_through sample_machine; Sampled sample_machine; Offered (hot_host sample_start); Settled sample_machine false (hot_host sample_start)] /\
  exists st, feed probe_step NoProbe sample_refresh.1 = Some st.
Proof.
  assert (runs (Refresh 1 sample_target) sample_refresh.1 sample_refresh.2) as Hr.
  { eapply fair_runs_runs. apply (play_fair (E := hcall) probe_step (fun _ _ _ _ => True) health_env). done. }
  split; [vm_compute; reflexivity|]. split; [vm_compute; reflexivity|].
  destruct (refresh_protocol _ _ _ _ Hr) as (st & Hf & _). by exists st.
Defined.
