(* ===== verification/SchedulerProps.v ===== *)
(** * Scheduler: properties

    What [Select] guarantees: first-in first-out order inside a workspace,
    round-robin order between workspaces without starvation, capacity that
    stays within every limit after the claim, and no idle pass while a head is
    eligible; and when an attempt gives its capacity back. *)

From Stdlib Require Import SpecFloat.
From S2P Require Import Prelude GoStrings GoTime Identifiers Problems DomainRecords AttemptStates AttemptRuns Provider ProviderResources Scheduler.
#[local] Open Scope string_scope.
#[local] Open Scope list_scope.
#[local] Open Scope Z_scope.
#[local] Open Scope bool_scope.

(** ** Counting rows *)
Fixpoint count_rows (p : Candidate -> bool) (l : list Candidate) : Z :=
  match l with [] => 0 | r :: l' => (if p r then 1 else 0) + count_rows p l' end.

Lemma count_rows_insert p rows i r r' :
  rows !! i = Some r ->
  count_rows p (<[i := r']> rows) = count_rows p rows - (if p r then 1 else 0) + (if p r' then 1 else 0).
Proof.
  revert i. induction rows as [|x rows IH]; intros [|i]; cbn; try done.
  - intros [= ->]. lia.
  - intros H. rewrite IH by done. lia.
Qed.

Definition account_holder (now : Time) (k : string) (r : Candidate) : bool :=
  HoldsCapacity r now && (ca_AccountScope r ==? k).
Definition resource_holder (now : Time) (k : string) (r : Candidate) : bool :=
  HoldsCapacity r now && (ca_ResourceKind r <>? "") && (ca_ResourceScope r <>? "") && (ca_ResourceScope r ==? k).

(** ** The view of a snapshot *)
Definition view_of (now : Time) (v : View) (l : list Candidate) : View :=
  fold_left (fun v r => view_row now r v) l v.

Lemma count_bump m k k' : count_of (bump m k) k' = count_of m k' + (if k ==? k' then 1 else 0).
Proof.
  unfold bump, count_of. case_bool_decide as E.
  - subst. by rewrite lookup_insert_eq.
  - rewrite lookup_insert_ne by done. lia.
Qed.

(** [lower] keeps a lower bound of everything recorded under a key. *)
Lemma lower_le m k v k' limit :
  lower m k v !! k' = Some limit ->
  (k = k' -> limit <= v) /\ (forall limit', m !! k' = Some limit' -> limit <= limit').
Proof.
  unfold lower. destruct (m !! k) as [l|] eqn:E; [destruct (Z.ltb_spec v l)|];
    (destruct (decide (k = k')) as [<-|Hk]; [rewrite ?lookup_insert_eq, ?E|rewrite ?lookup_insert_ne by done]);
    intros; simplify_eq; (split; [intros; try lia; done|intros; simplify_eq; lia]).
Qed.
Lemma lower_some m k v k' : is_Some (m !! k') \/ k = k' -> is_Some (lower m k v !! k').
Proof.
  unfold lower. intros H. destruct (m !! k) as [l|] eqn:E; [case_match|]; rewrite ?lookup_insert_is_Some;
    destruct (decide (k = k')); subst; naive_solver.
Qed.

(** What one row adds to each component of the view. *)
Lemma view_row_live now r v :
  vw_LiveWorkers (view_row now r v) = vw_LiveWorkers v + (if live r now then 1 else 0).
Proof.
  unfold view_row, count_live, reserve. repeat (case_match; cbn); lia.
Qed.
Lemma view_row_account now r v k :
  count_of (vw_AccountReservations (view_row now r v)) k =
  count_of (vw_AccountReservations v) k + (if account_holder now k r then 1 else 0).
Proof.
  unfold view_row, account_holder. destruct (HoldsCapacity r now); cbn.
  - unfold reserve, count_live. repeat (case_match; cbn); rewrite count_bump; repeat case_match; congruence || lia.
  - unfold count_live. case_match; cbn; lia.
Qed.
Lemma view_row_resource now r v k :
  count_of (vw_ResourceReservations (view_row now r v)) k =
  count_of (vw_ResourceReservations v) k + (if resource_holder now k r then 1 else 0).
Proof.
  unfold view_row, resource_holder. destruct (HoldsCapacity r now); cbn.
  - unfold reserve, count_live. destruct (ca_ResourceKind r <>? ""), (ca_ResourceScope r ==? "");
      destruct (live r now); cbn; rewrite ?count_bump; lia.
  - unfold count_live. case_match; cbn; lia.
Qed.

(** The limit recorded for an account bounds the policy of every holder. *)
Definition limits_ok (now : Time) (v : View) (l : list Candidate) : Prop :=
  (forall r, r ∈ l -> HoldsCapacity r now = true ->
     exists limit, vw_ActiveAccountLimits v !! ca_AccountScope r = Some limit /\ limit <= ap_MaxActive (ca_Policy r)) /\
  (forall r, r ∈ l -> HoldsCapacity r now = true -> ca_ResourceKind r <> "" -> ca_ResourceScope r <> "" ->
     exists limit, vw_ActiveResourceLimits v !! ca_ResourceScope r = Some limit /\ limit <= ca_ResourceMaxActive r) /\
  (forall r, r ∈ l -> HoldsCapacity r now = true -> ca_ResourceKind r <> "" -> ca_ResourceScope r = "" ->
     ca_ResourceKind r ∈ vw_UnresolvedResources v).

(** Limits only go down, and stay recorded. *)
Definition tighter (m m' : gmap string Z) : Prop :=
  forall k limit, m !! k = Some limit -> exists limit', m' !! k = Some limit' /\ limit' <= limit.
Lemma tighter_lower m k v : tighter m (lower m k v).
Proof.
  intros k' limit H. destruct (lower_some m k v k') as [limit' H']; [by left|].
  exists limit'. split; [done|]. apply lower_le in H' as [_ H']. by apply H'.
Qed.
Lemma lower_bounds m k v : exists limit, lower m k v !! k = Some limit /\ limit <= v.
Proof.
  destruct (lower_some m k v k) as [limit H]; [by right|]. exists limit. split; [done|].
  by apply lower_le in H as [H _]; apply H.
Qed.

Lemma view_row_limits now r v :
  tighter (vw_ActiveAccountLimits v) (vw_ActiveAccountLimits (view_row now r v)) /\
  tighter (vw_ActiveResourceLimits v) (vw_ActiveResourceLimits (view_row now r v)) /\
  vw_UnresolvedResources v ⊆ vw_UnresolvedResources (view_row now r v) /\
  limits_ok now (view_row now r v) [r].
Proof.
  assert (forall m, tighter m m) as Hrefl by (intros m k l H; exists l; split; [done|lia]).
  unfold view_row, limits_ok. destruct (HoldsCapacity r now) eqn:Hh.
  - unfold reserve. destruct (ca_ResourceKind r <>? "") eqn:E1, (ca_ResourceScope r ==? "") eqn:E2; bool_to_prop;
      unfold count_live; (destruct (live r now); cbn); split_and!;
      try apply tighter_lower; try apply Hrefl; try done; try apply union_subseteq_r;
      intros r' ->%list_elem_of_singleton; intros; first [apply lower_bounds|by apply elem_of_union_l, elem_of_singleton|congruence].
  - unfold count_live. destruct (live r now); cbn; split_and!; try apply Hrefl; try done;
      intros r' ->%list_elem_of_singleton; congruence.
Qed.

Lemma limits_ok_mono now v v' l :
  tighter (vw_ActiveAccountLimits v) (vw_ActiveAccountLimits v') ->
  tighter (vw_ActiveResourceLimits v) (vw_ActiveResourceLimits v') ->
  vw_UnresolvedResources v ⊆ vw_UnresolvedResources v' -> limits_ok now v l -> limits_ok now v' l.
Proof.
  intros H1 H2 H3 (L1 & L2 & L3). split_and!.
  - intros r Hr Hh. destruct (L1 r Hr Hh) as (x & Hx & Hle). destruct (H1 _ _ Hx) as (y & Hy & ?). exists y. split; [done|lia].
  - intros r Hr Hh Hk Hs. destruct (L2 r Hr Hh Hk Hs) as (x & Hx & Hle). destruct (H2 _ _ Hx) as (y & Hy & ?). exists y. split; [done|lia].
  - intros r Hr Hh Hk Hs. apply H3. by apply L3.
Qed.

Lemma view_of_spec now l : forall v seen,
  limits_ok now v seen ->
  let v' := view_of now v l in
  vw_LiveWorkers v' = vw_LiveWorkers v + count_rows (fun r => live r now) l /\
  (forall k, count_of (vw_AccountReservations v') k =
             count_of (vw_AccountReservations v) k + count_rows (account_holder now k) l) /\
  (forall k, count_of (vw_ResourceReservations v') k =
             count_of (vw_ResourceReservations v) k + count_rows (resource_holder now k) l) /\
  limits_ok now v' (seen ++ l).
Proof.
  induction l as [|r l IH]; intros v seen HL; cbn.
  - rewrite app_nil_r. split_and!; [lia|intros; lia|intros; lia|done].
  - destruct (view_row_limits now r v) as (T1 & T2 & T3 & L).
    destruct (IH (view_row now r v) (seen ++ [r])) as (H1 & H2 & H3 & H4).
    { pose proof (limits_ok_mono _ _ _ _ T1 T2 T3 HL) as (A1 & A2 & A3). destruct L as (B1 & B2 & B3).
      split_and!; intros r' [?|?]%elem_of_app; by eauto. }
    rewrite <- app_assoc in H4. cbn in *. unfold view_of in *.
    split_and!; [rewrite H1, view_row_live; lia|intros; rewrite H2, view_row_account; lia
      |intros; rewrite H3, view_row_resource; lia|done].
Qed.

(** ** Workspace heads *)
Definition is_head (now : Time) (rows : list Candidate) (w : string) (i : nat) : Prop :=
  exists r, rows !! i = Some r /\ waiting now r = true /\ ca_WorkspaceID r = w /\
    forall j r', rows !! j = Some r' -> waiting now r' = true -> ca_WorkspaceID r' = w ->
      ca_Sequence r <= ca_Sequence r'.
Definition heads_ok (now : Time) (rows : list Candidate) (heads : gmap string nat) : Prop :=
  (forall w i, heads !! w = Some i -> is_head now rows w i) /\
  (forall r, r ∈ rows -> waiting now r = true -> is_Some (heads !! ca_WorkspaceID r)).

Lemma is_head_extend now rows r w i :
  is_head now rows w i ->
  (waiting now r = true -> ca_WorkspaceID r = w ->
     forall h, rows !! i = Some h -> ca_Sequence h <= ca_Sequence r) ->
  is_head now (rows ++ [r]) w i.
Proof.
  intros (h & Hi & Hw & Hs & Hmin) Hr. exists h. split_and!; [by apply lookup_app_l_Some|done|done|].
  intros j r' [Hj|[Hj Hj']]%lookup_app_Some Hw' Hs'; [by eapply Hmin|].
  apply list_lookup_singleton_Some in Hj' as [_ <-]. by eapply Hr.
Qed.

Lemma is_head_new now rows r :
  waiting now r = true ->
  (forall j r', rows !! j = Some r' -> waiting now r' = true -> ca_WorkspaceID r' = ca_WorkspaceID r ->
     ca_Sequence r <= ca_Sequence r') ->
  is_head now (rows ++ [r]) (ca_WorkspaceID r) (length rows).
Proof.
  intros Hw Hmin. exists r. split_and!; [by rewrite list_lookup_middle|done|done|].
  intros j r' [Hj|[Hj Hj']]%lookup_app_Some Hw' Hs'; [by eapply Hmin|].
  apply list_lookup_singleton_Some in Hj' as [_ <-]. lia.
Qed.

Lemma add_head_ok now pre r l heads :
  heads_ok now pre heads ->
  heads_ok now (pre ++ [r])
    (if waiting now r then add_head (pre ++ r :: l) (length pre) r heads else heads).
Proof.
  intros [Hh Hn]. destruct (waiting now r) eqn:Hw.
  2:{ split; [intros w i Hi; apply is_head_extend; [by apply Hh|congruence]|].
      intros r' [Hr'|Hr'%list_elem_of_singleton]%elem_of_app Hw'; [by apply Hn|congruence]. }
  unfold add_head. destruct (heads !! ca_WorkspaceID r) as [p|] eqn:Hp.
  - pose proof (Hh _ _ Hp) as (h & Hi & Hwh & Hsh & Hmin).
    rewrite (lookup_app_l_Some _ _ _ _ Hi). destruct (Z.ltb_spec (ca_Sequence r) (ca_Sequence h)) as [Hlt|Hge].
    + split.
      * intros w i. destruct (decide (w = ca_WorkspaceID r)) as [->|Hne].
        -- rewrite lookup_insert_eq. intros [= <-]. apply is_head_new; [done|].
           intros j r' Hj Hw' Hs'. specialize (Hmin j r' Hj Hw' Hs'). lia.
        -- rewrite lookup_insert_ne by done. intros Hi'. apply is_head_extend; [by apply Hh|congruence].
      * intros r' Hr' Hw'. apply lookup_insert_is_Some. destruct (decide (ca_WorkspaceID r = ca_WorkspaceID r')); [by left|right].
        split; [done|]. apply elem_of_app in Hr' as [Hr'|Hr'%list_elem_of_singleton]; [by apply Hn|congruence].
    + split.
      * intros w i Hi'. apply is_head_extend; [by apply Hh|]. intros _ <- h' Hh'.
        rewrite Hi' in Hp. simplify_eq. lia.
      * intros r' [Hr'|Hr'%list_elem_of_singleton]%elem_of_app Hw'; [by apply Hn|]. subst. by rewrite Hp.
  - split.
    + intros w i. destruct (decide (w = ca_WorkspaceID r)) as [->|Hne].
      * rewrite lookup_insert_eq. intros [= <-]. apply is_head_new; [done|]. intros j r' Hj Hw' Hs'.
        destruct (Hn r') as [x Hx]; [by eapply list_elem_of_lookup_2|done|]. congruence.
      * rewrite lookup_insert_ne by done. intros Hi'. apply is_head_extend; [by apply Hh|congruence].
    + intros r' Hr' Hw'. apply lookup_insert_is_Some. destruct (decide (ca_WorkspaceID r = ca_WorkspaceID r')); [by left|right].
      split; [done|]. apply elem_of_app in Hr' as [Hr'|Hr'%list_elem_of_singleton]; [by apply Hn|congruence].
Qed.

Definition row_ok (r : Candidate) : Prop := resource_invalid r = false /\ exists seen, row_invalid seen r = false.

Lemma scan_rows_spec now l : forall pre seen heads v heads' v',
  heads_ok now pre heads ->
  scan_rows (pre ++ l) now (length pre) seen heads v l = Ok (heads', v') ->
  heads_ok now (pre ++ l) heads' /\ v' = view_of now v l /\ Forall row_ok l.
Proof.
  induction l as [|r l IH]; intros pre seen heads v heads' v' Hok; cbn.
  - intros [= <- <-]. by rewrite app_nil_r.
  - destruct (row_invalid seen r) eqn:E1; [done|]. destruct (resource_invalid r) eqn:E2; [done|].
    intros HS. replace (pre ++ r :: l) with ((pre ++ [r]) ++ l) in HS |- * by by rewrite <- app_assoc.
    replace (S (length pre)) with (length (pre ++ [r])) in HS by (rewrite length_app; cbn; lia).
    apply IH in HS as (H1 & H2 & H3); [|rewrite <- app_assoc; by apply add_head_ok].
    split_and!; [done|done|constructor; [|done]]. split; [done|by exists seen].
Qed.

Lemma scan_all_spec now settings rows heads v :
  scan_rows rows now 0 ∅ ∅ (empty_view settings) rows = Ok (heads, v) ->
  heads_ok now rows heads /\ v = view_of now (empty_view settings) rows /\ Forall row_ok rows.
Proof.
  intros H. apply (scan_rows_spec now rows [] ∅ ∅ (empty_view settings)); [|done].
  split; [done|intros r Hr; by apply not_elem_of_nil in Hr].
Qed.

(** A repeated sequence is refused. *)
Lemma scan_rows_unique now rows l : forall i seen heads v res,
  scan_rows rows now i seen heads v l = Ok res ->
  NoDup (ca_Sequence <$> l) /\ forall r, r ∈ l -> ca_Sequence r ∉ seen.
Proof.
  induction l as [|r l IH]; intros i seen heads v res; cbn.
  - intros _. split; [constructor|]. intros r Hr. by apply not_elem_of_nil in Hr.
  - destruct (row_invalid seen r) eqn:E1; [done|]. destruct (resource_invalid r); [done|].
    intros [HN HS]%IH. assert (ca_Sequence r ∉ seen) as Hr by (unfold row_invalid in E1; by bool_to_prop). split.
    + constructor; [|done]. intros (r' & Hs & Hr')%list_elem_of_fmap. apply (HS r' Hr'). set_solver.
    + intros r' [->|Hr']%elem_of_cons; [done|]. specialize (HS r' Hr'). set_solver.
Qed.

Lemma is_head_unique now rows w i j :
  NoDup (ca_Sequence <$> rows) -> is_head now rows w i -> is_head now rows w j -> i = j.
Proof.
  intros HN (x & Hx & Wx & Sx & Mx) (y & Hy & Wy & Sy & My).
  apply (NoDup_lookup _ _ _ (ca_Sequence x) HN); rewrite list_lookup_fmap; [by rewrite Hx|].
  rewrite Hy. cbn. f_equal. specialize (Mx j y Hy Wy Sy). specialize (My i x Hx Wx Sx). lia.
Qed.

(** The view the whole snapshot gives. *)
Lemma view_all now settings rows :
  let v := view_of now (empty_view settings) rows in
  vw_LiveWorkers v = count_rows (fun r => live r now) rows /\
  (forall k, count_of (vw_AccountReservations v) k = count_rows (account_holder now k) rows) /\
  (forall k, count_of (vw_ResourceReservations v) k = count_rows (resource_holder now k) rows) /\
  limits_ok now v rows.
Proof.
  assert (limits_ok now (empty_view settings) []) as H0.
  { split_and!; intros r Hr; by apply not_elem_of_nil in Hr. }
  destruct (view_of_spec now rows _ _ H0) as (H1 & H2 & H3 & H4). cbn in *.
  split_and!; [done|intros k; rewrite H2; unfold count_of; by rewrite lookup_empty
    |intros k; rewrite H3; unfold count_of; by rewrite lookup_empty|done].
Qed.

(** ** Picking a workspace *)
#[local] Instance id_le_trans : Transitive id_le.
Proof. intros a b c. apply str_leb_trans. Qed.
#[local] Instance id_le_total : Total id_le.
Proof. intros a b. apply String.leb_total. Qed.

Lemma workspaces_elem heads w : w ∈ workspaces heads <-> is_Some (heads !! w).
Proof.
  unfold workspaces. rewrite (merge_sort_Permutation id_le), list_elem_of_fmap. split.
  - intros ([w' i] & -> & H%elem_of_map_to_list). by exists i.
  - intros [i H]. exists (w, i). split; [done|by apply elem_of_map_to_list].
Qed.

Lemma workspaces_sorted heads i j a b :
  workspaces heads !! i = Some a -> workspaces heads !! j = Some b -> (i < j)%nat -> str_leb a b = true.
Proof.
  unfold workspaces. pose proof (StronglySorted_merge_sort id_le (map_to_list heads).*1) as HS.
  revert i j. induction HS as [|x l HS IH Hx]; intros [|i] [|j] Ha Hb Hij; cbn in *; simplify_eq; try lia.
  - rewrite Forall_forall in Hx. apply Hx. by eapply list_elem_of_lookup_2.
  - eapply (IH i j); [done..|lia].
Qed.

(** The first element of a sorted list that passes a test is the least. *)
Lemma find_least (l : list string) (p : string -> bool) i w :
  (forall i j a b, l !! i = Some a -> l !! j = Some b -> (i < j)%nat -> str_leb a b = true) ->
  list_find p l = Some (i, w) ->
  w ∈ l /\ p w = true /\ forall w', w' ∈ l -> p w' = true -> str_leb w w' = true.
Proof.
  intros HS (Hi & Hp & Hmin)%list_find_Some. split_and!.
  - by eapply list_elem_of_lookup_2.
  - by apply Is_true_true.
  - intros w' [j Hj]%list_elem_of_lookup_1 Hp'. destruct (Nat.lt_total i j) as [H|[->|H]].
    + by eapply HS.
    + rewrite Hi in Hj. injection Hj as ->. apply str_leb_refl.
    + destruct (Hmin _ _ Hj H). by apply Is_true_true.
Qed.

Lemma pick_spec heads eligible last w :
  pick (workspaces heads) eligible last = Some w ->
  is_Some (heads !! w) /\ eligible w = true /\
  forall w', is_Some (heads !! w') -> eligible w' = true ->
    if str_ltb last w then str_ltb last w' = true -> str_leb w w' = true
    else str_ltb last w' = false /\ str_leb w w' = true.
Proof.
  unfold pick. destruct (list_find (fun w => str_ltb last w && eligible w) _) as [[i x]|] eqn:E1.
  - intros [= ->]. apply find_least in E1 as (Hw & Hp & Hmin); [|apply workspaces_sorted]. bool_to_prop.
    rewrite workspaces_elem in Hw. split_and!; [done..|]. intros w' Hw' He'.
    replace (str_ltb last w) with true by done. intros Hl. apply Hmin; [by apply workspaces_elem|]. by rewrite Hl.
  - destruct (list_find eligible _) as [[i x]|] eqn:E2; [|done]. intros [= ->].
    apply find_least in E2 as (Hw & Hp & Hmin); [|apply workspaces_sorted].
    assert (forall w', w' ∈ workspaces heads -> eligible w' = true -> str_ltb last w' = false) as Hno.
    { intros w' Hw' He'. apply list_find_None in E1. rewrite Forall_forall in E1. specialize (E1 w' Hw').
      rewrite He' in E1. destruct (str_ltb last w'); [by destruct E1|done]. }
    rewrite (Hno w Hw Hp). rewrite workspaces_elem in Hw. split_and!; [done..|].
    intros w' Hw'%workspaces_elem He'. auto.
Qed.

Lemma pick_none heads eligible last :
  pick (workspaces heads) eligible last = None ->
  forall w, is_Some (heads !! w) -> eligible w = false.
Proof.
  unfold pick. destruct (list_find _ _) as [[i x]|]; [done|].
  destruct (list_find eligible _) as [[i x]|] eqn:E; [done|]. intros _ w Hw.
  apply list_find_None in E. rewrite Forall_forall in E. apply workspaces_elem in Hw.
  specialize (E w Hw). destruct (eligible w); [by destruct E|done].
Qed.

(** ** [Select] as a whole *)
Definition snapshot_view (rows : list Candidate) (settings : Settings) (now : Time) : View :=
  view_of now (empty_view settings) rows.
Definition eligible_head (rows : list Candidate) (settings : Settings) (now : Time) (w : string) : Prop :=
  exists i r, is_head now rows w i /\ rows !! i = Some r /\
    is_eligible settings now (snapshot_view rows settings now) r = true.

(** The scan does not depend on the cursor. *)
Definition scanned (rows : list Candidate) (settings : Settings) (now : Time) (heads : gmap string nat) : Prop :=
  Settings_Valid settings = true /\ ValidTime now = true /\
  scan_rows rows now 0 ∅ ∅ (empty_view settings) rows = Ok (heads, snapshot_view rows settings now).

Definition head_eligible (rows : list Candidate) (settings : Settings) (now : Time) (heads : gmap string nat)
    (w : string) : bool :=
  match head_of rows heads w with
  | Some (_, r) => is_eligible settings now (snapshot_view rows settings now) r | None => false end.

Lemma Select_scanned rows last settings now oi view :
  Select rows last settings now = Ok (oi, view) ->
  exists heads, scanned rows settings now heads /\ heads_ok now rows heads /\ Forall row_ok rows /\
    Z.of_nat (length rows) <= ScanLimit /\
    oi = (w ← pick (workspaces heads) (head_eligible rows settings now heads) last; fst <$> head_of rows heads w) /\
    vw_Heads view = omap (fun w => head_status settings now (snapshot_view rows settings now) ∘ snd <$> head_of rows heads w)
                      (workspaces heads).
Proof.
  unfold Select. destruct (_ || _) eqn:E1; [done|]. destruct (Z.ltb_spec ScanLimit (Z.of_nat (length rows))); [done|].
  destruct (scan_rows _ _ _ _ _ _ _) as [[heads v]|] eqn:E2; [|done]. cbn. intros [= <- <-].
  pose proof (scan_all_spec _ _ _ _ _ E2) as (Hh & -> & Hr). bool_to_prop.
  exists heads. unfold scanned. split_and!; try done; lia.
Qed.

Lemma scanned_Select rows last settings now heads :
  scanned rows settings now heads -> (last = "" \/ ID_Valid last = true) -> Z.of_nat (length rows) <= ScanLimit ->
  exists view, Select rows last settings now =
    Ok ((w ← pick (workspaces heads) (head_eligible rows settings now heads) last; fst <$> head_of rows heads w), view).
Proof.
  intros (H1 & H2 & H3) Hl Hs. unfold Select. rewrite H1, H2. cbn.
  replace ((last <>? "") && negb (validOpaqueID last)) with false
    by (destruct Hl as [-> | ->]; [done|cbn; by rewrite andb_false_r]).
  rewrite (proj2 (Z.ltb_ge _ _) Hs), H3. cbn. by eexists.
Qed.

Lemma head_of_spec now rows heads w i :
  heads_ok now rows heads -> heads !! w = Some i ->
  exists r, head_of rows heads w = Some (i, r) /\ rows !! i = Some r /\ is_head now rows w i /\ ca_WorkspaceID r = w.
Proof.
  intros [Hh _] Hi. pose proof (Hh _ _ Hi) as HH. destruct HH as (r & Hr & HH). exists r. unfold head_of.
  rewrite Hi. cbn. rewrite Hr. cbn. split_and!; [done|done|by exists r|tauto].
Qed.

(** The recorded head of a workspace is its only one. *)
Lemma head_of_is_head now rows settings heads w i r :
  scanned rows settings now heads -> heads_ok now rows heads -> is_head now rows w i -> rows !! i = Some r ->
  head_of rows heads w = Some (i, r).
Proof.
  intros (_ & _ & HS) Hh Hi Hr. apply scan_rows_unique in HS as [HN _].
  pose proof Hi as (r' & Hr' & Hw & <- & _). rewrite Hr in Hr'. injection Hr' as <-.
  destruct (proj2 Hh r) as [j Hj]; [by eapply list_elem_of_lookup_2|done|].
  destruct (head_of_spec _ _ _ _ _ Hh Hj) as (x & -> & Hx & Hhd & _).
  rewrite (is_head_unique _ _ _ _ _ HN Hhd Hi) in *. by rewrite Hr in Hx; injection Hx as <-.
Qed.
Lemma head_of_heads rows heads w x : head_of rows heads w = Some x -> is_Some (heads !! w).
Proof. unfold head_of. destruct (heads !! w); [by eexists|done]. Qed.

Lemma eligible_head_bool now rows settings heads w :
  scanned rows settings now heads -> heads_ok now rows heads ->
  eligible_head rows settings now w <-> head_eligible rows settings now heads w = true.
Proof.
  intros HS Hh. unfold head_eligible, eligible_head. split.
  - intros (i & r & Hi & Hr & He). by rewrite (head_of_is_head _ _ _ _ _ _ _ HS Hh Hi Hr).
  - destruct (heads !! w) as [i|] eqn:Hi; [|unfold head_of; by rewrite Hi].
    destruct (head_of_spec _ _ _ _ _ Hh Hi) as (r & -> & Hr & Hhd & _). eauto.
Qed.
Lemma head_eligible_heads rows settings now heads w :
  head_eligible rows settings now heads w = true -> is_Some (heads !! w).
Proof. unfold head_eligible. destruct (head_of rows heads w) eqn:E; [|done]. intros _. by eapply head_of_heads. Qed.

(** What a successful selection chose. *)
Lemma Select_chosen rows last settings now i view :
  Select rows last settings now = Ok (Some i, view) ->
  exists heads r, scanned rows settings now heads /\ heads_ok now rows heads /\ Forall row_ok rows /\
    pick (workspaces heads) (head_eligible rows settings now heads) last = Some (ca_WorkspaceID r) /\
    rows !! i = Some r /\ is_head now rows (ca_WorkspaceID r) i /\
    is_eligible settings now (snapshot_view rows settings now) r = true.
Proof.
  intros (heads & HS & Hh & Hr & _ & Hi & _)%Select_scanned. exists heads.
  destruct (pick _ _ last) as [w|] eqn:HP; [|done]. cbn in Hi.
  pose proof (pick_spec _ _ _ _ HP) as ([j Hj] & He & _).
  destruct (head_of_spec _ _ _ _ _ Hh Hj) as (r & Ho & Hrow & Hhd & <-).
  unfold head_eligible in He. rewrite Ho in He, Hi. cbn in *. injection Hi as ->. exists r. done.
Qed.

(** ** Gates, order and capacity *)
Lemma is_eligible_gates settings now view r :
  is_eligible settings now view r = true ->
  ca_AuthorizationGranted r = true /\ st_Paused settings = false /\ ca_WorkspaceEnabled r = true /\
  ap_Disabled (ca_Policy r) = false /\ After (ca_NotBefore r) now = false /\
  (ca_ResourceKind r <> "" -> ca_ResourceScope r <> "" /\ ca_ResourceKind r ∉ vw_UnresolvedResources view) /\
  vw_LiveWorkers view < st_MaxWorkers settings /\
  count_of (vw_AccountReservations view) (ca_AccountScope r) < (EffectiveLimits r settings view).1 /\
  (ca_ResourceScope r <> "" ->
   count_of (vw_ResourceReservations view) (ca_ResourceScope r) < (EffectiveLimits r settings view).2) /\
  (Decide (ca_Quota r) (ca_Resource r) (ca_WallSeconds r) (ap_StrictQuota (ca_Policy r))
     (st_QuotaFreshFor settings) now).1 = Eligible.
Proof.
  unfold is_eligible, head_reason. destruct (EffectiveLimits r settings view) as [limit rlimit].
  destruct (ca_AuthorizationGranted r); [cbn|by cbn]. destruct (st_Paused settings); [by cbn|].
  destruct (ca_WorkspaceEnabled r); [cbn|by cbn]. destruct (ap_Disabled _); [by cbn|].
  destruct (After _ now); [by cbn|].
  destruct (_ && (ca_ResourceScope r ==? "")) eqn:E1; [by cbn|].
  destruct (_ && bool_decide (_ ∈ _)) eqn:E2; [by cbn|].
  destruct (Z.leb_spec (st_MaxWorkers settings) (vw_LiveWorkers view)); [by cbn|].
  destruct (Z.leb_spec limit (count_of (vw_AccountReservations view) (ca_AccountScope r))); [by cbn|].
  destruct (_ && (rlimit <=? _)) eqn:E3; [by cbn|]. intros HD%bool_decide_eq_true_1.
  rewrite andb_false_iff in E1, E2, E3. split_and!; try done.
  - intros Hk. split; [destruct E1 as [E1|E1]|destruct E2 as [E2|E2]]; bool_to_prop; congruence.
  - intros Hk. destruct E3 as [E3|E3]; bool_to_prop; [done|lia].
Qed.

(** A waiting attempt holds no capacity yet. *)
Lemma waiting_not_holding now r : waiting now r = true -> live r now = false /\ HoldsCapacity r now = false.
Proof.
  unfold waiting, HoldsCapacity. intros H. bool_to_prop. split; [done|].
  replace (live r now) with false by done. cbn. replace (ca_DispatchBarrier r) with false by done.
  match goal with H : LocalOnly _ = true |- _ => rename H into HL end.
  unfold LocalOnly in HL. destruct (_ || _) eqn:E in HL; [done|]. bool_to_prop.
  unfold HoldsAccount. destruct (AttemptState_Validate (ca_State r)); [done|].
  destruct (ca_State r) as [o e re c ra rel d]. cbn in *. subst. by destruct o.
Qed.

(** The selected attempt is a waiting attempt of its workspace
    and no waiting attempt of that workspace has a smaller sequence: starts
    are first-in first-out, and a blocked head is never overtaken. *)
Theorem Select_fifo rows last settings now i view :
  Select rows last settings now = Ok (Some i, view) ->
  exists r, rows !! i = Some r /\ waiting now r = true /\
    forall j r', rows !! j = Some r' -> waiting now r' = true -> ca_WorkspaceID r' = ca_WorkspaceID r ->
      ca_Sequence r <= ca_Sequence r'.
Proof.
  intros (heads & r & _ & _ & _ & _ & Hr & (r' & Hr' & Hw & _ & Hmin) & _)%Select_chosen.
  rewrite Hr in Hr'. injection Hr' as <-. by exists r.
Qed.

(** Nothing starts without its authorization, while the
    scheduler is paused, in a disabled workspace or account, before its
    backoff ends, on an unverified resource, or against its quota. *)
Theorem Select_gates rows last settings now i view r :
  Select rows last settings now = Ok (Some i, view) -> rows !! i = Some r ->
  ca_AuthorizationGranted r = true /\ st_Paused settings = false /\ ca_WorkspaceEnabled r = true /\
  ap_Disabled (ca_Policy r) = false /\ ca_NotBefore r <= now /\
  (ca_ResourceKind r <> "" -> ca_ResourceScope r <> "" /\
     forall c, c ∈ rows -> HoldsCapacity c now = true -> ca_ResourceKind c = ca_ResourceKind r -> ca_ResourceScope c <> "") /\
  (Decide (ca_Quota r) (ca_Resource r) (ca_WallSeconds r) (ap_StrictQuota (ca_Policy r))
     (st_QuotaFreshFor settings) now).1 = Eligible.
Proof.
  intros (heads & r0 & _ & _ & _ & _ & Hr & _ & He)%Select_chosen Hr0. rewrite Hr in Hr0. injection Hr0 as <-.
  apply is_eligible_gates in He as (H1 & H2 & H3 & H4 & H5 & H6 & _ & _ & _ & H7).
  destruct (view_all now settings rows) as (_ & _ & _ & _ & _ & HU). fold (snapshot_view rows settings now) in HU.
  split_and!; try done.
  - unfold After in H5. lia.
  - intros Hk. destruct (H6 Hk) as [Hs Hu]. split; [done|]. intros c Hc Hh Hk' Hs'. apply Hu.
    rewrite <- Hk'. apply HU; congruence.
Qed.

(** The row after the store has committed the claim: its lease runs, and its
    attempt is being prepared. *)
Definition claim_row (settings : Settings) (now : Time) (c : Candidate) : Candidate :=
  mkCandidate (ca_Identity c) (ca_Sequence c) (ca_State c <| as_Orchestration := OrchestrationPreparing |>) (ca_ActiveAttempt c) (ca_WorkspaceEnabled c)
    (ca_AccountScope c) (ca_ProviderInstanceID c) (ca_Policy c) (ca_Resource c) (ca_WallSeconds c)
    (ca_DispatchBarrier c) (now + st_LeaseDuration settings) (ca_NotBefore c) (ca_Quota c) (ca_ResourceKind c)
    (ca_ResourceScope c) (ca_ResourceMaxActive c) (ca_AuthorizationGranted c).

Lemma preparing_local s : LocalOnly s = true -> LocalOnly (s <| as_Orchestration := OrchestrationPreparing |>) = true.
Proof.
  unfold LocalOnly. destruct s as [o x r c a e d]; cbn. destruct d; [by rewrite !orb_true_r|]. destruct (_ || _) eqn:E; [done|].
  bool_to_prop. subst. intros Ho. destruct o; try done; destruct e; done.
Qed.
Lemma claim_row_holds settings now c :
  Settings_Valid settings = true -> waiting now c = true ->
  live (claim_row settings now c) now = true /\ HoldsCapacity (claim_row settings now c) now = true.
Proof.
  intros Hs Hw. assert (live (claim_row settings now c) now = true) as HL.
  { unfold Settings_Valid, Second in Hs. bool_to_prop. unfold live, After. cbn. lia. }
  split; [done|]. unfold HoldsCapacity. rewrite HL. unfold waiting in Hw. bool_to_prop. cbn.
  by rewrite preparing_local.
Qed.

(** Holders of an account in the rows after the claim. *)
Lemma claim_holder settings now (rows : list Candidate) i r c :
  rows !! i = Some r -> c ∈ <[i := claim_row settings now r]> rows -> c = claim_row settings now r \/ c ∈ rows.
Proof.
  intros Hi [j Hj]%list_elem_of_lookup_1. destruct (decide (i = j)) as [<-|Hne].
  - rewrite list_lookup_insert_eq in Hj by by eapply lookup_lt_Some. left. congruence.
  - rewrite list_lookup_insert_ne in Hj by done. right. by eapply list_elem_of_lookup_2.
Qed.

(** C21: after the claim is committed, the live workers, the
    holders of the account and the holders of the resource are within the
    worker limit, the global per-account limit and the policy of every
    holder, the new one included. *)
Theorem Select_capacity rows last settings now i view r :
  Select rows last settings now = Ok (Some i, view) -> rows !! i = Some r ->
  let rows' := <[i := claim_row settings now r]> rows in
  count_rows (fun c => live c now) rows' <= st_MaxWorkers settings /\
  (forall c, c ∈ rows' -> account_holder now (ca_AccountScope r) c = true ->
     count_rows (account_holder now (ca_AccountScope r)) rows'
     <= Z.min (st_MaxActivePerAccount settings) (ap_MaxActive (ca_Policy c))) /\
  (ca_ResourceScope r <> "" -> forall c, c ∈ rows' -> resource_holder now (ca_ResourceScope r) c = true ->
     count_rows (resource_holder now (ca_ResourceScope r)) rows'
     <= Z.min (st_MaxActivePerAccount settings) (ca_ResourceMaxActive c)).
Proof.
  intros (heads & r0 & HS & _ & HF & _ & Hr & (r1 & Hr1 & Hw & _) & He)%Select_chosen Hr0. cbv zeta.
  rewrite Hr in Hr0, Hr1. injection Hr0 as <-. injection Hr1 as <-. rename r0 into r. destruct HS as (Hset & _ & _).
  apply is_eligible_gates in He as (_ & _ & _ & _ & _ & _ & H1 & H2 & H3 & _).
  destruct (view_all now settings rows) as (V1 & V2 & V3 & V4 & V5 & _).
  fold (snapshot_view rows settings now) in V1, V2, V3, V4, V5.
  destruct (claim_row_holds settings now r Hset Hw) as [C1 C2].
  destruct (waiting_not_holding _ _ Hw) as [W1 W2].
  unfold EffectiveLimits in H2, H3. cbn in H2, H3. rewrite !(count_rows_insert _ _ _ _ _ Hr). cbv beta. rewrite C1, W1.
  split_and!; [rewrite <- V1; lia|..].
  - intros c Hc Hh. unfold account_holder at 2 3. rewrite C2, W2. cbn. rewrite bool_decide_eq_true_2 by done.
    rewrite <- V2. unfold account_holder in Hh. bool_to_prop.
    destruct (claim_holder _ _ _ _ _ _ Hr Hc) as [->|Hc']; [cbn; destruct (_ !! ca_AccountScope r); lia|].
    destruct (V4 c Hc') as (limit & Hlim & Hle); [done|].
    match goal with H : ca_AccountScope c = _ |- _ => rewrite H in Hlim end. rewrite Hlim in H2. lia.
  - intros Hs c Hc Hh. unfold resource_holder at 2 3. rewrite C2, W2. cbn.
    assert (ca_ResourceKind r <> "") as Hk.
    { intros Hk. rewrite Forall_forall in HF. destruct (HF r) as [HR _]; [by eapply list_elem_of_lookup_2|].
      unfold resource_invalid in HR. rewrite Hk in HR. cbn in HR. by rewrite (bool_decide_eq_false_2 _ Hs) in HR. }
    rewrite (bool_decide_eq_false_2 _ Hk), (bool_decide_eq_false_2 _ Hs), bool_decide_eq_true_2 by done.
    cbn. rewrite <- V3. specialize (H3 Hs). unfold resource_holder in Hh. bool_to_prop.
    destruct (claim_holder _ _ _ _ _ _ Hr Hc) as [->|Hc']; [cbn; destruct (_ !! ca_ResourceScope r); lia|].
    destruct (V5 c Hc') as (limit & Hlim & Hle); [done..|].
    match goal with H : ca_ResourceScope c = _ |- _ => rewrite H in Hlim end. rewrite Hlim in H3. lia.
Qed.

(** A pass is idle only when every workspace head is blocked,
    and the view then reports each head with its reason. *)
Theorem Select_idle rows last settings now view :
  Select rows last settings now = Ok (None, view) ->
  forall w i r, is_head now rows w i -> rows !! i = Some r ->
  (head_reason settings now (snapshot_view rows settings now) r).1 <> Eligible /\
  head_status settings now (snapshot_view rows settings now) r ∈ vw_Heads view.
Proof.
  intros (heads & HS & Hh & _ & _ & Hi & Hv)%Select_scanned w i r Hhd Hr.
  pose proof (head_of_is_head _ _ _ _ _ _ _ HS Hh Hhd Hr) as Ho. pose proof (head_of_heads _ _ _ _ Ho) as Hw.
  assert (pick (workspaces heads) (head_eligible rows settings now heads) last = None) as HP.
  { destruct (pick _ _ last) as [x|] eqn:HP; [|done]. cbn in Hi.
    pose proof (pick_spec _ _ _ _ HP) as ([k Hk] & _ & _).
    destruct (head_of_spec _ _ _ _ _ Hh Hk) as (y & Hy & _). by rewrite Hy in Hi. }
  pose proof (pick_none _ _ _ HP w Hw) as HE. unfold head_eligible in HE. rewrite Ho in HE.
  unfold is_eligible in HE. apply bool_decide_eq_false_1 in HE. split; [done|].
  rewrite Hv. apply list_elem_of_omap. exists w. split; [by apply workspaces_elem|]. by rewrite Ho.
Qed.

(** ** Fairness *)

(** The winner is the first eligible workspace after the cursor, wrapping. *)
Lemma Select_next rows last settings now i view r w :
  Select rows last settings now = Ok (Some i, view) -> rows !! i = Some r -> eligible_head rows settings now w ->
  if str_ltb last (ca_WorkspaceID r)
  then str_ltb last w = true -> str_leb (ca_WorkspaceID r) w = true
  else str_ltb last w = false /\ str_leb (ca_WorkspaceID r) w = true.
Proof.
  intros (heads & r0 & HS & Hh & _ & HP & Hr & _)%Select_chosen Hr0 HE.
  rewrite Hr in Hr0. injection Hr0 as <-. apply (eligible_head_bool _ _ _ _ _ HS Hh) in HE.
  apply pick_spec in HP as (_ & _ & HP). apply HP; [|done]. by eapply head_eligible_heads.
Qed.

(** No eligible workspace between the cursor and the
    winner, in cyclic order, is skipped. *)
Theorem Select_round_robin rows last settings now i view r w :
  Select rows last settings now = Ok (Some i, view) -> rows !! i = Some r -> eligible_head rows settings now w ->
  (str_lt last w -> str_lt last (ca_WorkspaceID r)) /\
  (str_lt w (ca_WorkspaceID r) -> str_lt last (ca_WorkspaceID r) /\ ~ str_lt last w).
Proof.
  intros HS Hr HE. pose proof (Select_next _ _ _ _ _ _ _ _ HS Hr HE) as H. unfold str_lt.
  rewrite !(str_ltb_leb w). destruct (str_ltb last (ca_WorkspaceID r)).
  - split; [done|]. intros Hw. split; [done|]. intros Hl. by rewrite (H Hl) in Hw.
  - destruct H as [-> ->]. done.
Qed.

(** Successive passes; the cursor moves only with a successful claim. *)
Fixpoint serve (last : string) (passes : list (list Candidate * Settings * Time)) : list string :=
  match passes with
  | [] => []
  | (rows, settings, now) :: passes' =>
      match Select rows last settings now with
      | Ok (Some i, _) =>
          match rows !! i with
          | Some r => ca_WorkspaceID r :: serve (ca_WorkspaceID r) passes'
          | None => serve last passes'
          end
      | _ => serve last passes'
      end
  end.

(** [w] has an eligible head in the pass, as [Select] itself reports. *)
Definition eligible_pass (w : string) (pass : list Candidate * Settings * Time) : Prop :=
  let '(rows, settings, now) := pass in
  exists heads, scanned rows settings now heads /\ Z.of_nat (length rows) <= ScanLimit /\ eligible_head rows settings now w.

(** Cyclic order ending at [w]: what is above [w] comes before what is below. *)
Definition nearer (w a b : string) : Prop :=
  (str_lt w a /\ str_lt b w) \/ (str_lt a b /\ (str_lt b w \/ str_lt w a)).

Lemma str_lt_irrefl a : ~ str_lt a a.
Proof. apply (irreflexivity str_lt). Qed.
Lemma str_lt_asym a b : str_lt a b -> ~ str_lt b a.
Proof. intros H1 H2. apply (str_lt_irrefl a). by transitivity b. Qed.
Lemma str_le_ne a b : str_leb a b = true -> a <> b -> str_lt a b.
Proof.
  intros H1 H2. destruct (str_lt_total a b) as [H|[H|H]]; [done|done|].
  unfold str_lt in H. rewrite str_ltb_leb, H1 in H. done.
Qed.

#[local] Instance nearer_trans w : Transitive (nearer w).
Proof.
  intros a b c [[H1 H2]|[H1 [H2|H2]]] [[H3 H4]|[H3 [H4|H4]]]; unfold nearer;
    try (exfalso; by eapply (str_lt_asym w b)).
  - by left.
  - right. split; [by transitivity b|by left].
  - by left.
  - exfalso. apply (str_lt_asym w b); [by transitivity a|by transitivity c].
  - right. split; [by transitivity b|by right].
Qed.
Lemma nearer_irrefl w a : ~ nearer w a a.
Proof. intros [[H1 H2]|[H1 _]]; [by eapply str_lt_asym|by eapply str_lt_irrefl]. Qed.

(** One pass in which [w] is eligible but another workspace wins. *)
Lemma Select_nearer rows last settings now w :
  eligible_pass w (rows, settings, now) -> (last = "" \/ ID_Valid last = true) ->
  exists i view r, Select rows last settings now = Ok (Some i, view) /\ rows !! i = Some r /\
    ID_Valid (ca_WorkspaceID r) = true /\
    (ca_WorkspaceID r = w \/ last = w \/ nearer w last (ca_WorkspaceID r)).
Proof.
  intros (heads & HS & Hlim & HE) Hl. destruct (scanned_Select _ _ _ _ _ HS Hl Hlim) as [view HSel].
  pose proof (scan_all_spec _ _ _ _ _ (proj2 (proj2 HS))) as (Hh & _ & HF).
  pose proof (proj1 (eligible_head_bool _ _ _ _ _ HS Hh) HE) as HEb.
  destruct (pick _ _ last) as [x|] eqn:HP.
  2:{ pose proof (pick_none _ _ _ HP w (head_eligible_heads _ _ _ _ _ HEb)). congruence. }
  pose proof (pick_spec _ _ _ _ HP) as ([k Hk] & _ & HPs).
  destruct (head_of_spec _ _ _ _ _ Hh Hk) as (r & Ho & Hr & _ & <-). cbn in HSel. rewrite Ho in HSel. cbn in HSel.
  exists k, view, r. split_and!; [done|done|..].
  { rewrite Forall_forall in HF. destruct (HF r) as [_ [seen HI]]; [by eapply list_elem_of_lookup_2|].
    unfold row_invalid in HI. bool_to_prop. unfold SchedIdentity_Valid in *. bool_to_prop. done. }
  specialize (HPs w (head_eligible_heads _ _ _ _ _ HEb) HEb).
  destruct (decide (ca_WorkspaceID r = w)) as [|Hne]; [by left|right].
  destruct (str_lt_total last w) as [Hlw|[->|Hlw]]; [|by left|]; right; unfold nearer.
  - destruct (str_ltb last (ca_WorkspaceID r)) eqn:E; [|destruct HPs; unfold str_lt in Hlw; congruence].
    right. split; [done|left]. apply str_le_ne; [by apply HPs|done].
  - destruct (str_ltb last (ca_WorkspaceID r)) eqn:E.
    + right. split; [done|by right].
    + left. split; [done|]. apply str_le_ne; [by apply HPs|done].
Qed.

Lemma serve_nearer w : forall passes last,
  Forall (eligible_pass w) passes -> (last = "" \/ ID_Valid last = true) -> w ∉ serve last passes ->
  length (serve last passes) = length passes /\ NoDup (serve last passes) /\
  (last <> w -> Forall (nearer w last) (serve last passes)).
Proof.
  induction passes as [|[[rows settings] now] passes IH]; intros last HE Hl Hw; [by repeat constructor|].
  apply Forall_cons in HE as [HE HE']. destruct (Select_nearer _ _ _ _ _ HE Hl) as (i & view & r & HS & Hr & Hv & Hn).
  cbn in *. rewrite HS, Hr in *. apply not_elem_of_cons in Hw as [Hwr Hw].
  destruct (IH (ca_WorkspaceID r) HE' (or_intror Hv) Hw) as (I1 & I2 & I3).
  specialize (I3 (not_eq_sym Hwr)). cbn. split_and!; [by rewrite I1|..].
  - constructor; [|done]. intros Hin. rewrite Forall_forall in I3. by apply (nearer_irrefl w (ca_WorkspaceID r)), I3.
  - intros Hlw. destruct Hn as [Hn|[Hn|Hn]]; [congruence|congruence|]. constructor; [done|].
    eapply Forall_impl; [exact I3|]. intros x Hx. by transitivity (ca_WorkspaceID r).
Qed.

(** C28: while a workspace stays eligible and is not
    served, every pass serves some workspace and never the same one twice; so
    it waits for fewer passes than there are workspaces. *)
Theorem Select_no_starvation w passes last :
  Forall (eligible_pass w) passes -> (last = "" \/ ID_Valid last = true) -> w ∉ serve last passes ->
  length (serve last passes) = length passes /\ NoDup (serve last passes).
Proof. intros H1 H2 H3. by destruct (serve_nearer w passes last H1 H2 H3) as (? & ? & _). Qed.

(** ** Giving capacity back *)
(** Capacity is kept exactly while remote work cannot be
    ruled out: it is free only for an attempt whose remote side is inactive,
    that ended without a submission, or that is still purely local. *)
Theorem HoldsAccount_spec s barrier :
  consistent s ->
  HoldsAccount s barrier = false <->
  as_RemoteActivity s = RemoteActivityInactive \/
  (as_RemoteActivity s = RemoteActivityNotStarted /\ as_Execution s = ExecutionNotSubmitted /\
   (terminal_orch (as_Orchestration s) \/
    (barrier = false /\ as_Orchestration s ∉
       [OrchestrationDispatching; OrchestrationSubmitted; OrchestrationRunning; OrchestrationCancelling;
        OrchestrationReconciling; OrchestrationNeedsAttention]))).
Proof.
  intros Hc%Validate_spec. unfold HoldsAccount, terminal_orch. rewrite Hc. cbn.
  destruct s as [o e re c ra rel d]. cbn. clear Hc.
  destruct (decide (ra = RemoteActivityInactive)) as [->|Hr]; [cbn; naive_solver|].
  rewrite (bool_decide_eq_false_2 _ Hr). cbn [orb].
  destruct (decide (ra = RemoteActivityNotStarted)) as [->|Hr'].
  - rewrite (bool_decide_eq_true_2 (RemoteActivityNotStarted = _)) by done. cbn [negb]. rewrite andb_true_r.
    destruct (decide (e = ExecutionNotSubmitted)) as [->|He].
    + rewrite (bool_decide_eq_true_2 (ExecutionNotSubmitted = _)) by done. rewrite !elem_of_cons, elem_of_nil. destruct barrier, o; cbn; naive_solver.
    + rewrite (bool_decide_eq_false_2 _ He), andb_false_r. destruct barrier, o; cbn; naive_solver.
  - rewrite (bool_decide_eq_false_2 _ Hr'), andb_false_r. destruct barrier; cbn; naive_solver.
Qed.

(** Along any run of legal transitions, an attempt
    whose remote work has begun gives its capacity back only when the remote
    side is known to be inactive. *)
Lemma capacity_until_inactive s s' barrier :
  consistent s -> attempt_run s s' -> as_RemoteActivity s <> RemoteActivityNotStarted ->
  HoldsAccount s' barrier = false -> as_RemoteActivity s' = RemoteActivityInactive.
Proof.
  intros Hc Hrun Hs Hf. pose proof (run_consistent _ _ Hrun Hc) as Hc'. pose proof (run_activity_rank _ _ Hrun) as Hr.
  unfold HoldsAccount in Hf. apply Validate_spec in Hc'. rewrite Hc' in Hf. cbn in Hf.
  destruct (as_RemoteActivity s') eqn:E; try done; cbn in Hf.
  1:{ exfalso. destruct (as_RemoteActivity s); cbn in Hr; destruct Hr; (congruence || lia). }
  all: rewrite !andb_false_r in Hf; by destruct barrier.
Qed.

(** ** Quota *)

(** Fresh, exact or lower-bound evidence of enough remaining time. *)
Definition proven_quota (q : Quota) (resource : string) (wall : Z) (freshFor : Duration) (now : Time) : Prop :=
  qt_Exhausted q = false /\
  exists o remaining, qt_Observation q = Some o /\ QuotaObservation_Validate o = None /\ qo_Resource o = resource /\
    qo_Status o = QuotaKnown /\ IsZero (qo_ObservedAt o) = false /\ qo_ObservedAt o <= now /\
    time_Sub now (qo_ObservedAt o) < freshFor /\ Seconds o = (remaining, true) /\
    SFeqb remaining float_zero = false /\ SFltb remaining (float_of_Z wall) = false /\
    (qo_Precision o = "exact" \/ qo_Precision o = "lower_bound").

(** A branch whose reason is not [Eligible] in strict mode. *)
Ltac quota_refuses :=
  cbn [fst negb andb orb]; split;
  [ split; [done|intros (_ & ? & ? & [= <-] & ?); destruct_and?; congruence]
  | done || (intros _; split; [done|]; by auto) ].

(** In strict mode an attempt is eligible exactly when fresh
    evidence proves enough quota; without strict mode only an exhausted or
    insufficient quota refuses it, and missing evidence becomes a warning. *)
Theorem Decide_spec q resource wall freshFor now :
  ((Decide q resource wall true freshFor now).1 = Eligible <-> proven_quota q resource wall freshFor now) /\
  ((Decide q resource wall false freshFor now).1 <> Eligible ->
   (Decide q resource wall false freshFor now).1 = (Decide q resource wall true freshFor now).1 /\
   ((Decide q resource wall false freshFor now).1 = QuotaExhausted \/
    (Decide q resource wall false freshFor now).1 = QuotaInsufficient)).
Proof.
  unfold Decide, proven_quota. destruct (qt_Exhausted q); [cbn; naive_solver|].
  destruct (qt_Observation q) as [o|]; [|cbn; naive_solver].
  destruct (_ || _) eqn:E; cbn [fst].
  { split; [split; [done|]|done]. intros (_ & o' & x & [= <-] & H1 & H2 & H3 & H4 & H5 & _).
    rewrite H1, H2, H4, bool_decide_eq_true_2 in E by done. cbn in E. unfold After in E. lia. }
  bool_to_prop. unfold After in *. destruct (QuotaObservation_Validate o) eqn:HV; [done|].
  destruct (qo_Status o) eqn:Hst; try quota_refuses.
  all: destruct (Seconds o) as [remaining ok] eqn:Hsec; destruct ok; [|quota_refuses].
  all: destruct (SFeqb remaining float_zero) eqn:Hz; [quota_refuses|]. 2: quota_refuses.
  cbn [andb negb]. rewrite bool_decide_eq_false_2 by done.
  destruct (Z.leb_spec freshFor (time_Sub now (qo_ObservedAt o))) as [Hf|Hf]; cbn [orb fst].
  { split; [split; [done|]|done]. intros (_ & o' & x & [= <-] & _ & _ & _ & _ & _ & Hfr & _). lia. }
  destruct (SFltb remaining (float_of_Z wall)) eqn:Hlt; [quota_refuses|].
  destruct (_ && _) eqn:Hp; cbn [fst]; rewrite ?andb_false_iff in Hp; bool_to_prop.
  - split; [split; [done|]|done]. naive_solver.
  - split; [split; [intros _|done]|done]. split; [done|]. exists o, remaining.
    assert (qo_Precision o = "exact" \/ qo_Precision o = "lower_bound")
      by (destruct Hp as [Hp|Hp]; bool_to_prop; auto).
    split_and!; first [done|lia].
Qed.
