(* ===== verification/Journal.v ===== *)
(** * Dispatch journal

    [internal/dispatch/model.go]: the durable record of one attempt's
    preparation and submission, its validity, the actions that change it, and
    the problems recorded in it. [reload] is the copy [Apply] makes by encoding
    the journal as JSON and decoding it. *)

From S2P Require Import Prelude GoStrings GoTime GoSha256 GoJson Identifiers Problems DomainRecords AttemptStates Attempts Provider ProviderResources Scheduler.
#[local] Open Scope string_scope.
#[local] Open Scope list_scope.
#[local] Open Scope Z_scope.
#[local] Open Scope bool_scope.

Definition MaxJournalBytes : Z := 2 * 2 ^ 20.
Definition MaxFailures : Z := 5.
Definition PreparationObservationGrace : Duration := 10 * Minute.
Definition LocalFailureBudget : Duration := 10 * Minute.
Definition SubmissionAbsenceGrace : Duration := 2 * Minute.

(** ** Data *)
Inductive Phase :=
  | Local | Staging | Ready | Submitting | Submitted | Rejected | Collectible | Attention
  | Failed | Prevented 
  | PhaseOther (raw : string).
#[export] Instance Phase_eq_dec : EqDecision Phase.
Proof. solve_decision. Defined.
Definition Phase_string (x : Phase) : string :=
  match x with
  | Local => "local"
  | Staging => "staging"
  | Ready => "ready"
  | Submitting => "submitting"
  | Submitted => "submitted"
  | Rejected => "rejected"
  | Collectible => "collectible"
  | Attention => "attention"
  | Failed => "failed"
  | Prevented => "prevented"
  | PhaseOther raw => raw
  end.
Definition Phase_values : list Phase :=
  [Local; Staging; Ready; Submitting; Submitted; Rejected; Collectible; Attention; Failed;
   Prevented].
#[export] Instance Phase_wire : WireEnum Phase.
Proof.
  refine {| wire_name := Phase_string; wire_other := PhaseOther; wire_values := Phase_values |}; wire_enum_tac.
Defined.

Record Journal := mkJournal {
  jn_Version : Z;
  jn_Phase : Phase;
  jn_Plan : option Plan;
  jn_PreparationID : string;
  jn_PreparationObservationStarted : option Time;
  jn_Prepared : option Prepared;
  jn_SubmitStarted : bool;
  jn_SubmissionProblem : option Problem;
  jn_SubmissionAbsenceObservedAt : option Time;
  jn_SubmissionResourceName : string;
  jn_OwnerSubmissionPresent : bool;
  jn_StartAuthorization : option StartAuthorization;
  jn_Remote : option RemoteReference;
  jn_Observation : option Observation;
  jn_Problem : option Problem;
  jn_Failures : Z }.
#[export] Instance set_jn_Version : Setter jn_Version := fun f j =>
  mkJournal (f (jn_Version j)) (jn_Phase j) (jn_Plan j) (jn_PreparationID j) (jn_PreparationObservationStarted j) (jn_Prepared j) (jn_SubmitStarted j) (jn_SubmissionProblem j) (jn_SubmissionAbsenceObservedAt j) (jn_SubmissionResourceName j) (jn_OwnerSubmissionPresent j) (jn_StartAuthorization j) (jn_Remote j) (jn_Observation j) (jn_Problem j) (jn_Failures j).
#[export] Instance set_jn_Phase : Setter jn_Phase := fun f j =>
  mkJournal (jn_Version j) (f (jn_Phase j)) (jn_Plan j) (jn_PreparationID j) (jn_PreparationObservationStarted j) (jn_Prepared j) (jn_SubmitStarted j) (jn_SubmissionProblem j) (jn_SubmissionAbsenceObservedAt j) (jn_SubmissionResourceName j) (jn_OwnerSubmissionPresent j) (jn_StartAuthorization j) (jn_Remote j) (jn_Observation j) (jn_Problem j) (jn_Failures j).
#[export] Instance set_jn_Plan : Setter jn_Plan := fun f j =>
  mkJournal (jn_Version j) (jn_Phase j) (f (jn_Plan j)) (jn_PreparationID j) (jn_PreparationObservationStarted j) (jn_Prepared j) (jn_SubmitStarted j) (jn_SubmissionProblem j) (jn_SubmissionAbsenceObservedAt j) (jn_SubmissionResourceName j) (jn_OwnerSubmissionPresent j) (jn_StartAuthorization j) (jn_Remote j) (jn_Observation j) (jn_Problem j) (jn_Failures j).
#[export] Instance set_jn_PreparationID : Setter jn_PreparationID := fun f j =>
  mkJournal (jn_Version j) (jn_Phase j) (jn_Plan j) (f (jn_PreparationID j)) (jn_PreparationObservationStarted j) (jn_Prepared j) (jn_SubmitStarted j) (jn_SubmissionProblem j) (jn_SubmissionAbsenceObservedAt j) (jn_SubmissionResourceName j) (jn_OwnerSubmissionPresent j) (jn_StartAuthorization j) (jn_Remote j) (jn_Observation j) (jn_Problem j) (jn_Failures j).
#[export] Instance set_jn_PreparationObservationStarted : Setter jn_PreparationObservationStarted := fun f j =>
  mkJournal (jn_Version j) (jn_Phase j) (jn_Plan j) (jn_PreparationID j) (f (jn_PreparationObservationStarted j)) (jn_Prepared j) (jn_SubmitStarted j) (jn_SubmissionProblem j) (jn_SubmissionAbsenceObservedAt j) (jn_SubmissionResourceName j) (jn_OwnerSubmissionPresent j) (jn_StartAuthorization j) (jn_Remote j) (jn_Observation j) (jn_Problem j) (jn_Failures j).
#[export] Instance set_jn_Prepared : Setter jn_Prepared := fun f j =>
  mkJournal (jn_Version j) (jn_Phase j) (jn_Plan j) (jn_PreparationID j) (jn_PreparationObservationStarted j) (f (jn_Prepared j)) (jn_SubmitStarted j) (jn_SubmissionProblem j) (jn_SubmissionAbsenceObservedAt j) (jn_SubmissionResourceName j) (jn_OwnerSubmissionPresent j) (jn_StartAuthorization j) (jn_Remote j) (jn_Observation j) (jn_Problem j) (jn_Failures j).
#[export] Instance set_jn_SubmitStarted : Setter jn_SubmitStarted := fun f j =>
  mkJournal (jn_Version j) (jn_Phase j) (jn_Plan j) (jn_PreparationID j) (jn_PreparationObservationStarted j) (jn_Prepared j) (f (jn_SubmitStarted j)) (jn_SubmissionProblem j) (jn_SubmissionAbsenceObservedAt j) (jn_SubmissionResourceName j) (jn_OwnerSubmissionPresent j) (jn_StartAuthorization j) (jn_Remote j) (jn_Observation j) (jn_Problem j) (jn_Failures j).
#[export] Instance set_jn_SubmissionProblem : Setter jn_SubmissionProblem := fun f j =>
  mkJournal (jn_Version j) (jn_Phase j) (jn_Plan j) (jn_PreparationID j) (jn_PreparationObservationStarted j) (jn_Prepared j) (jn_SubmitStarted j) (f (jn_SubmissionProblem j)) (jn_SubmissionAbsenceObservedAt j) (jn_SubmissionResourceName j) (jn_OwnerSubmissionPresent j) (jn_StartAuthorization j) (jn_Remote j) (jn_Observation j) (jn_Problem j) (jn_Failures j).
#[export] Instance set_jn_SubmissionAbsenceObservedAt : Setter jn_SubmissionAbsenceObservedAt := fun f j =>
  mkJournal (jn_Version j) (jn_Phase j) (jn_Plan j) (jn_PreparationID j) (jn_PreparationObservationStarted j) (jn_Prepared j) (jn_SubmitStarted j) (jn_SubmissionProblem j) (f (jn_SubmissionAbsenceObservedAt j)) (jn_SubmissionResourceName j) (jn_OwnerSubmissionPresent j) (jn_StartAuthorization j) (jn_Remote j) (jn_Observation j) (jn_Problem j) (jn_Failures j).
#[export] Instance set_jn_SubmissionResourceName : Setter jn_SubmissionResourceName := fun f j =>
  mkJournal (jn_Version j) (jn_Phase j) (jn_Plan j) (jn_PreparationID j) (jn_PreparationObservationStarted j) (jn_Prepared j) (jn_SubmitStarted j) (jn_SubmissionProblem j) (jn_SubmissionAbsenceObservedAt j) (f (jn_SubmissionResourceName j)) (jn_OwnerSubmissionPresent j) (jn_StartAuthorization j) (jn_Remote j) (jn_Observation j) (jn_Problem j) (jn_Failures j).
#[export] Instance set_jn_OwnerSubmissionPresent : Setter jn_OwnerSubmissionPresent := fun f j =>
  mkJournal (jn_Version j) (jn_Phase j) (jn_Plan j) (jn_PreparationID j) (jn_PreparationObservationStarted j) (jn_Prepared j) (jn_SubmitStarted j) (jn_SubmissionProblem j) (jn_SubmissionAbsenceObservedAt j) (jn_SubmissionResourceName j) (f (jn_OwnerSubmissionPresent j)) (jn_StartAuthorization j) (jn_Remote j) (jn_Observation j) (jn_Problem j) (jn_Failures j).
#[export] Instance set_jn_StartAuthorization : Setter jn_StartAuthorization := fun f j =>
  mkJournal (jn_Version j) (jn_Phase j) (jn_Plan j) (jn_PreparationID j) (jn_PreparationObservationStarted j) (jn_Prepared j) (jn_SubmitStarted j) (jn_SubmissionProblem j) (jn_SubmissionAbsenceObservedAt j) (jn_SubmissionResourceName j) (jn_OwnerSubmissionPresent j) (f (jn_StartAuthorization j)) (jn_Remote j) (jn_Observation j) (jn_Problem j) (jn_Failures j).
#[export] Instance set_jn_Remote : Setter jn_Remote := fun f j =>
  mkJournal (jn_Version j) (jn_Phase j) (jn_Plan j) (jn_PreparationID j) (jn_PreparationObservationStarted j) (jn_Prepared j) (jn_SubmitStarted j) (jn_SubmissionProblem j) (jn_SubmissionAbsenceObservedAt j) (jn_SubmissionResourceName j) (jn_OwnerSubmissionPresent j) (jn_StartAuthorization j) (f (jn_Remote j)) (jn_Observation j) (jn_Problem j) (jn_Failures j).
#[export] Instance set_jn_Observation : Setter jn_Observation := fun f j =>
  mkJournal (jn_Version j) (jn_Phase j) (jn_Plan j) (jn_PreparationID j) (jn_PreparationObservationStarted j) (jn_Prepared j) (jn_SubmitStarted j) (jn_SubmissionProblem j) (jn_SubmissionAbsenceObservedAt j) (jn_SubmissionResourceName j) (jn_OwnerSubmissionPresent j) (jn_StartAuthorization j) (jn_Remote j) (f (jn_Observation j)) (jn_Problem j) (jn_Failures j).
#[export] Instance set_jn_Problem : Setter jn_Problem := fun f j =>
  mkJournal (jn_Version j) (jn_Phase j) (jn_Plan j) (jn_PreparationID j) (jn_PreparationObservationStarted j) (jn_Prepared j) (jn_SubmitStarted j) (jn_SubmissionProblem j) (jn_SubmissionAbsenceObservedAt j) (jn_SubmissionResourceName j) (jn_OwnerSubmissionPresent j) (jn_StartAuthorization j) (jn_Remote j) (jn_Observation j) (f (jn_Problem j)) (jn_Failures j).
#[export] Instance set_jn_Failures : Setter jn_Failures := fun f j =>
  mkJournal (jn_Version j) (jn_Phase j) (jn_Plan j) (jn_PreparationID j) (jn_PreparationObservationStarted j) (jn_Prepared j) (jn_SubmitStarted j) (jn_SubmissionProblem j) (jn_SubmissionAbsenceObservedAt j) (jn_SubmissionResourceName j) (jn_OwnerSubmissionPresent j) (jn_StartAuthorization j) (jn_Remote j) (jn_Observation j) (jn_Problem j) (f (jn_Failures j)).

Inductive Kind :=
  | BeginPreparation | PreparationSeen | EndUnconfirmedPreparation | BeginSubmission
  | SubmissionSeen | ObservationSeen | RemoteAbsenceSeen | Fault | PreventDispatch
  | ExpireDispatch | RefuseNewWork | RequestReconciliation | SubmissionAbsenceSeen
  | OwnerSubmissionAbsent 
  | KindOther (raw : string).
#[export] Instance Kind_eq_dec : EqDecision Kind.
Proof. solve_decision. Defined.
Definition Kind_string (x : Kind) : string :=
  match x with
  | BeginPreparation => "begin_preparation"
  | PreparationSeen => "preparation_seen"
  | EndUnconfirmedPreparation => "end_unconfirmed_preparation"
  | BeginSubmission => "begin_submission"
  | SubmissionSeen => "submission_seen"
  | ObservationSeen => "observation_seen"
  | RemoteAbsenceSeen => "remote_absence_seen"
  | Fault => "fault"
  | PreventDispatch => "prevent_dispatch"
  | ExpireDispatch => "expire_dispatch"
  | RefuseNewWork => "refuse_new_work"
  | RequestReconciliation => "request_reconciliation"
  | SubmissionAbsenceSeen => "submission_absence_seen"
  | OwnerSubmissionAbsent => "owner_submission_absent"
  | KindOther raw => raw
  end.
Definition Kind_values : list Kind :=
  [BeginPreparation; PreparationSeen; EndUnconfirmedPreparation; BeginSubmission;
   SubmissionSeen; ObservationSeen; RemoteAbsenceSeen; Fault; PreventDispatch; ExpireDispatch;
   RefuseNewWork; RequestReconciliation; SubmissionAbsenceSeen; OwnerSubmissionAbsent].
#[export] Instance Kind_wire : WireEnum Kind.
Proof.
  refine {| wire_name := Kind_string; wire_other := KindOther; wire_values := Kind_values |}; wire_enum_tac.
Defined.

Record Action := mkAction {
  ac_RefusalReason : string;
  ac_SecretsAvailable : bool;
  ac_Kind : Kind;
  ac_Plan : option Plan;
  ac_PreparationID : string;
  ac_Prepared : option Prepared;
  ac_Submission : option SubmissionOutcome;
  ac_Absence : option RemoteAbsence;
  ac_Observation : option Observation;
  ac_Code : ErrorCode;
  ac_Reason : string;
  ac_Cause : string;
  ac_Details : option (gmap string string);
  ac_ResourceName : string;
  ac_OwnerPresent : bool;
  ac_StartAuthorization : option StartAuthorization;
  ac_PreparationExpired : bool }.

(** ** Details and validity *)
Definition localFailureDetail : string := "local_failure_started".
Definition remoteAbsenceDetail : string := "remote_absence_observed_at".

Definition journalDetail (j : Journal) (key : string) : string :=
  match jn_Problem j with None => "" | Some p => detail p key end.
Definition journalTime (raw : string) : option Time :=
  match ParseRFC3339 raw with
  | Some at_ => if ValidTime at_ then Some at_ else None
  | None => None
  end.

Definition Journal_RemoteAbsence (j : Journal) : option RemoteAbsence :=
  match jn_Remote j, jn_Problem j with
  | Some remote, Some p =>
      if (jn_Phase j <>? Attention) || (pb_Code p <>? CodeRemoteExecutionUnresolved)
         || (map_get (PublicDetails p) ReasonDetail <>? "remote_not_found")
      then None
      else mkRemoteAbsence remote <$> journalTime (journalDetail j remoteAbsenceDetail)
  | _, _ => None
  end.

Definition Recoverable (j : Journal) : bool :=
  (jn_Phase j ==? Staging) || (jn_Phase j ==? Ready) || (jn_Phase j ==? Submitting) || (jn_Phase j ==? Submitted).

(** A test on what a pointer points to, false for nil. *)
Definition some_and {A} (x : option A) (p : A -> bool) : bool :=
  match x with Some a => p a | None => false end.
Definition problem_ok (p : option Problem) : bool :=
  match p with Some p => nil_error (Problem_Validate p) | None => true end.

(** The checks before the phase is looked at. *)
Definition valid_evidence (j : Journal) : bool :=
  if some_and (jn_SubmissionProblem j) (fun p => negb (jn_SubmitStarted j) || not_nil (Problem_Validate p))
  then false else
  if (jn_SubmissionResourceName j <>? "")
     && (negb (jn_SubmitStarted j) || negb (ValidResourceName (jn_SubmissionResourceName j)))
  then false else
  if some_and (jn_SubmissionAbsenceObservedAt j)
       (fun t => negb (jn_SubmitStarted j) || negb (ValidTime t) || (jn_SubmissionResourceName j ==? ""))
  then false else
  if (journalDetail j localFailureDetail <>? "") && is_nil (journalTime (journalDetail j localFailureDetail))
  then false else
  if (journalDetail j remoteAbsenceDetail <>? "") && is_nil (Journal_RemoteAbsence j)
  then false else
  if some_and (jn_PreparationObservationStarted j) (fun t => negb (ValidTime t) || is_nil (jn_Plan j))
  then false else
  if some_and (jn_StartAuthorization j) (fun a =>
       negb (jn_SubmitStarted j)
       || match jn_Prepared j with Some p => not_nil (StartAuthorization_Validate a p) | None => true end)
  then false else
  if (jn_Version j <? 0) || (jn_Failures j <? 0) || (MaxFailures <? jn_Failures j) then false else
  if match jn_Phase j with PhaseOther _ => true | _ => false end then false else
  if (jn_Phase j ==? Prevented) && jn_SubmitStarted j then false else true.

(** Without a plan nothing has been asked of a provider. *)
Definition valid_without_plan (j : Journal) : bool :=
  ((jn_Phase j ==? Local) || (jn_Phase j ==? Failed) || (jn_Phase j ==? Prevented))
  && (jn_PreparationID j ==? "") && negb (jn_SubmitStarted j) && is_nil (jn_Prepared j) && is_nil (jn_Remote j)
  && is_nil (jn_Observation j) && problem_ok (jn_Problem j).

Definition valid_with_plan (j : Journal) (plan : Plan) : bool :=
  if not_nil (ResolvedJob_Validate (pl_Job plan))
     || match rj_Inputs (pl_Job plan) with
        | Some inputs => not_nil (InputSnapshot_Validate inputs (id_WorkspaceID (rj_Identity (pl_Job plan))))
        | None => true
        end
     || negb (ID_Valid (jn_PreparationID j))
  then false else
  if some_and (jn_Prepared j) (fun p => not_nil (Prepared_Validate p plan (jn_PreparationID j))) then false else
  if ((jn_Phase j ==? Ready) || jn_SubmitStarted j)
     && match jn_Prepared j with Some p => negb (pr_Ready p) || negb (pr_Private p) | None => true end
  then false else
  if (jn_Phase j ==? Local) || (jn_Phase j ==? Failed) || (jn_Version j =? 0) then false else
  if ((jn_Phase j ==? Staging) || (jn_Phase j ==? Ready)) && jn_SubmitStarted j then false else
  if ((jn_Phase j ==? Submitting) || (jn_Phase j ==? Rejected)) && (not_nil (jn_Remote j) || not_nil (jn_Observation j))
  then false else
  if some_and (jn_Prepared j) (fun p => negb (pr_Private p)) && (jn_Phase j <>? Attention) && (jn_Phase j <>? Prevented)
  then false else
  if (jn_Phase j ==? Collectible)
     && match jn_Observation j with Some o => negb (ExecutionState_Terminal (ob_Execution o)) | None => true end
  then false else
  if (jn_Phase j ==? Submitted) && some_and (jn_Observation j) (fun o => ExecutionState_Terminal (ob_Execution o))
  then false else
  if ((jn_Phase j ==? Submitting) || (jn_Phase j ==? Submitted) || (jn_Phase j ==? Rejected) || (jn_Phase j ==? Collectible))
     && negb (jn_SubmitStarted j)
  then false else
  if some_and (jn_Remote j) (fun r =>
       negb (jn_SubmitStarted j) || not_nil (RemoteReference_Validate r)
       || (rr_Identity r <>? rj_Identity (pl_Job plan)))
  then false else
  if ((jn_Phase j ==? Submitted) || (jn_Phase j ==? Collectible)) && is_nil (jn_Remote j) then false else
  if some_and (jn_Observation j) (fun o =>
       match jn_Remote j with Some r => not_nil (Observation_Validate o r) | None => true end)
  then false else
  problem_ok (jn_Problem j).

Definition Journal_Valid (j : Journal) : bool :=
  if negb (valid_evidence j) then false else
  match jn_Plan j with
  | None => valid_without_plan j
  | Some plan => valid_with_plan j plan
  end.

(** ** The encoded journal *)
Definition json_time (t : Time) : json := JStr (FormatRFC3339Nano t).
Definition json_problem (p : Problem) : json :=
  JObj [("Code", JStr (ErrorCode_string (pb_Code p))); ("Message", JStr (pb_Message p));
        ("Stage", JStr (FailureStage_string (pb_Stage p))); ("SafeOperationRetry", JBool (pb_SafeOperationRetry p));
        ("ComputeMayHaveStarted", JBool (pb_ComputeMayHaveStarted p));
        ("RecommendedAction", JStr (RecommendedAction_string (pb_RecommendedAction p)));
        ("Details", nullable json_map (pb_Details p))].
Definition json_remote (r : RemoteReference) : json :=
  JObj [("Identity", json_identity (rr_Identity r)); ("Resource", JStr (rr_Resource r)); ("Version", JStr (rr_Version r))].
Definition json_observation (o : Observation) : json :=
  JObj [("Remote", json_remote (ob_Remote o)); ("Execution", JStr (ExecutionState_string (ob_Execution o)));
        ("RawState", JStr (ob_RawState o)); ("RemoteActivity", JStr (RemoteActivityState_string (ob_RemoteActivity o)));
        ("ReleaseEvidence", JStr (ReleaseEvidence_string (ob_ReleaseEvidence o)));
        ("ObservedAt", json_time (ob_ObservedAt o))].
Definition json_slot (s : Slot) : json := JObj [("name", JStr (sl_Name s)); ("exposure", JStr (sl_Exposure s))].
Definition json_secrets (x : SecretAuthorization) : json :=
  JObj [("authorization_id", JStr (sx_AuthorizationID x)); ("expires_at", JStr (sx_ExpiresAt x));
        ("slots", json_slice json_slot (sx_Slots x))].
Definition json_start (s : StartAuthorization) : json :=
  JObj (opt_field "secrets" (json_secrets <$> sz_Secrets s)
        ++ [("authorization_id", JStr (sz_AuthorizationID s)); ("readiness_revision", JStr (sz_ReadinessRevision s));
            ("max_remote_wall_seconds", JInt (sz_MaxRemoteWallSeconds s));
            ("execution_deadline", JStr (sz_ExecutionDeadline s)); ("start_before", JStr (sz_StartBefore s))]).
Definition json_journal (j : Journal) : json :=
  JObj ([("version", JInt (jn_Version j)); ("phase", JStr (Phase_string (jn_Phase j)))]
        ++ opt_field "plan" (json_plan <$> jn_Plan j) ++ str_field "preparation_id" (jn_PreparationID j)
        ++ opt_field "preparation_observation_started" (json_time <$> jn_PreparationObservationStarted j)
        ++ opt_field "prepared" (json_prepared <$> jn_Prepared j)
        ++ [("submit_started", JBool (jn_SubmitStarted j))]
        ++ opt_field "submission_problem" (json_problem <$> jn_SubmissionProblem j)
        ++ opt_field "submission_absence_observed_at" (json_time <$> jn_SubmissionAbsenceObservedAt j)
        ++ str_field "submission_resource_name" (jn_SubmissionResourceName j)
        ++ bool_field "owner_submission_present" (jn_OwnerSubmissionPresent j)
        ++ opt_field "start_authorization" (json_start <$> jn_StartAuthorization j)
        ++ opt_field "remote" (json_remote <$> jn_Remote j)
        ++ opt_field "observation" (json_observation <$> jn_Observation j)
        ++ opt_field "problem" (json_problem <$> jn_Problem j)
        ++ [("failures", JInt (jn_Failures j))]).

(** ** Encoding and decoding

    What [json.Unmarshal] returns for each value [json.Marshal] wrote: strings
    lose invalid UTF-8, an embedded specification is compacted, the cause of a
    problem is not encoded, and times, numbers and flags come back unchanged. *)
Definition reload_enum `{WireEnum A} (x : A) : A := wire_read (sanitize (wire_name x)).
Definition reload_map (m : gmap string string) : gmap string string :=
  foldl (fun acc kv => <[sanitize kv.1 := sanitize kv.2]> acc) ∅ (merge_sort entry_le (map_to_list m)).
Definition reload_problem (p : Problem) : Problem :=
  mkProblem (reload_enum (pb_Code p)) (sanitize (pb_Message p)) (reload_enum (pb_Stage p)) (pb_SafeOperationRetry p)
    (pb_ComputeMayHaveStarted p) (reload_enum (pb_RecommendedAction p)) (reload_map <$> pb_Details p) None.
Definition reload_identity (i : Identity) : Identity :=
  mkIdentity (sanitize (id_InstallationID i)) (sanitize (id_WorkspaceID i)) (sanitize (id_JobID i))
    (sanitize (id_AttemptID i)) (sanitize (id_InstanceID i)) (sanitize (id_IntentID i)) (sanitize (id_ResourceKey i))
    (sanitize (id_Nonce i)) (sanitize (id_BundleSHA256 i)) (sanitize (id_InputManifestSHA256 i)).
Definition reload_object (m : ObjectMetadata) : ObjectMetadata :=
  mkObjectMetadata (sanitize (om_ID m)) (sanitize (om_WorkspaceID m)) (om_Bytes m) (sanitize (om_SHA256 m)).
Definition reload_input (x : FrozenInput) : FrozenInput :=
  mkFrozenInput (sanitize (fi_Name x)) (sanitize (fi_Target x)) (reload_object (fi_Object x)).
Definition reload_inputs (s : InputSnapshot) : InputSnapshot :=
  mkInputSnapshot (reload_object (is_Bundle s)) (map reload_input <$> is_Inputs s) (reload_object <$> is_ApplicationImage s).
Definition reload_binding (b : ProviderBinding) : ProviderBinding :=
  mkProviderBinding (sanitize (bd_Profile b)) (sanitize (bd_ProviderInstanceID b)) (sanitize (bd_ConfigurationRevision b)).
Definition reload_job (job : ResolvedJob) : ResolvedJob :=
  mkResolvedJob (reload_identity (rj_Identity job)) (reload_binding (rj_Binding job))
    (string_of (compact (rj_Specification job))) (sanitize (rj_SpecificationSHA256 job))
    (map reload_enum <$> rj_Required job) (rj_WallSeconds job) (reload_inputs <$> rj_Inputs job).
Definition reload_plan (plan : Plan) : Plan :=
  mkPlan (reload_job (pl_Job plan)) (map reload_enum <$> pl_VerifyAfterStart plan).
Definition reload_prepared (p : Prepared) : Prepared :=
  mkPrepared (sanitize (pr_VerificationSHA256 p)) (sanitize (pr_ManifestSHA256 p)) (reload_identity (pr_Identity p))
    (sanitize (pr_PreparationID p)) (sanitize (pr_PlanSHA256 p)) (sanitize (pr_Resource p)) (pr_Ready p) (pr_Private p).
Definition reload_remote (r : RemoteReference) : RemoteReference :=
  mkRemoteReference (reload_identity (rr_Identity r)) (sanitize (rr_Resource r)) (sanitize (rr_Version r)).
Definition reload_observation (o : Observation) : Observation :=
  mkObservation (reload_remote (ob_Remote o)) (reload_enum (ob_Execution o)) (sanitize (ob_RawState o))
    (reload_enum (ob_RemoteActivity o)) (reload_enum (ob_ReleaseEvidence o)) (ob_ObservedAt o).
Definition reload_slot (s : Slot) : Slot := mkSlot (sanitize (sl_Name s)) (sanitize (sl_Exposure s)).
Definition reload_secrets (x : SecretAuthorization) : SecretAuthorization :=
  mkSecretAuthorization (sanitize (sx_AuthorizationID x)) (sanitize (sx_ExpiresAt x)) (map reload_slot <$> sx_Slots x).
Definition reload_start (s : StartAuthorization) : StartAuthorization :=
  mkStartAuthorization (reload_secrets <$> sz_Secrets s) (sanitize (sz_AuthorizationID s))
    (sanitize (sz_ReadinessRevision s)) (sz_MaxRemoteWallSeconds s) (sanitize (sz_ExecutionDeadline s))
    (sanitize (sz_StartBefore s)).
Definition reload_journal (j : Journal) : Journal :=
  mkJournal (jn_Version j) (reload_enum (jn_Phase j)) (reload_plan <$> jn_Plan j) (sanitize (jn_PreparationID j))
    (jn_PreparationObservationStarted j) (reload_prepared <$> jn_Prepared j) (jn_SubmitStarted j)
    (reload_problem <$> jn_SubmissionProblem j) (jn_SubmissionAbsenceObservedAt j)
    (sanitize (jn_SubmissionResourceName j)) (jn_OwnerSubmissionPresent j) (reload_start <$> jn_StartAuthorization j)
    (reload_remote <$> jn_Remote j) (reload_observation <$> jn_Observation j) (reload_problem <$> jn_Problem j)
    (jn_Failures j).

(** [time.Time] marshals only years 0 to 9999. *)
Definition time_ok (t : Time) : bool := (0 <=? Year t) && (Year t <=? 9999).
Definition opt_time_ok (t : option Time) : bool := match t with Some t => time_ok t | None => true end.
Definition Journal_Marshal (j : Journal) : option string :=
  if opt_time_ok (jn_PreparationObservationStarted j) && opt_time_ok (jn_SubmissionAbsenceObservedAt j)
     && opt_time_ok (ob_ObservedAt <$> jn_Observation j)
     && match jn_Plan j with Some plan => GoJson.Valid (rj_Specification (pl_Job plan)) | None => true end
  then Some (Marshal (json_journal j)) else None.

(** Lines 19 to 26 of [transition.go]; decoding fails when the embedded
    specification makes the nesting too deep. *)
Definition reload (old : Journal) : option Journal :=
  match Journal_Marshal old with
  | None => None
  | Some raw =>
      if MaxJournalBytes <? len raw then None
      else if negb (GoJson.Valid raw) then None else Some (reload_journal old)
  end.

(** ** Problems recorded by the journal *)
Definition controlled (code : ErrorCode) (may : bool) (stage : FailureStage) (message : string)
    (action : RecommendedAction) : option Problem :=
  match NewProblem code message stage with
  | Err _ => None
  | Ok p =>
      let p := WithRecommendedAction action (WithRetrySemantics false may p) in
      if not_nil (Problem_Validate p) then None else Some p
  end.

Definition problem (code : ErrorCode) (may : bool) : result error (option Problem) :=
  let unresolved := "Provider observation is unresolved; no new execution was requested." in
  match code with
  | CodeRemoteTimeout =>
      do p <- provider_Problem code FailureStageExecution
                "Execution authorization deadline has expired; no new execution was requested." ;;
      Ok (Some (WithDetail ReasonDetail "absolute_deadline_expired" p))
  | CodeInputFetchFailed | CodeInputNotFound | CodeInputDigestMismatch | CodeInputTooLarge =>
      Ok (controlled code may FailureStageInputPreparation
            "Input snapshot could not be prepared or verified." RecommendedActionFixRequest)
  | CodeUnsupportedCapability | CodeResourceRequirementUnsatisfied | CodeInvalidInputPath =>
      Ok (controlled code may FailureStageValidation
            "The frozen job cannot satisfy required capabilities or runner constraints." RecommendedActionFixRequest)
  | CodeConfigurationInvalid | CodeStateStoreUnavailable =>
      Ok (controlled code may FailureStageLocalRuntime
            "The frozen configuration or local store is unavailable; no fallback was selected." RecommendedActionConfigure)
  | CodeProviderAuthFailed | CodeProviderAccessDenied =>
      Ok (controlled code may FailureStageAuthentication
            "The frozen provider account binding could not be verified." RecommendedActionConfigure)
  | CodePrivateStagingUnavailable | CodeStagingFailed | CodeStagingNotReady =>
      Ok (controlled code may FailureStageProviderPreparation
            "Private staging identity or readiness is unresolved; creation was not repeated." RecommendedActionReconcile)
  | CodeProviderRejected | CodeProviderRateLimited | CodeQuotaExhausted =>
      Ok (controlled code may FailureStageSubmission
            "Provider proved non-acceptance; another compute request requires explicit operator action."
            RecommendedActionInspectProvider)
  | CodeProviderSubmissionUnknown =>
      Ok (controlled code may FailureStageSubmission
            "Submission may have been accepted; reconcile the recorded identity without resubmitting."
            RecommendedActionReconcile)
  | CodeRemoteExecutionUnresolved => Ok (controlled code may FailureStageOperation unresolved RecommendedActionReconcile)
  | CodeProviderStateUnknown | CodeProviderUnreachable | CodeRemoteIdentityMismatch =>
      Ok (controlled code may FailureStageObservation unresolved RecommendedActionReconcile)
  | _ => Ok None
  end.

(** ** Small predicates of [engine.go] and [cancellation.go] *)
Definition unconfirmedPreparation (j : Journal) : bool :=
  (jn_Phase j ==? Staging) && not_nil (jn_Plan j) && is_nil (jn_Prepared j) && negb (jn_SubmitStarted j).
Definition cancellationPending (s : AttemptState) : bool :=
  (as_Cancellation s ==? CancellationRequested) || (as_Cancellation s ==? CancellationRequesting)
  || (as_Cancellation s ==? CancellationAccepted).

Definition submittedPollFloor : Duration := 15 * Second.
Definition submittedRetryFloor : Duration := 30 * Second.
(** The doubling loop of [nextPassDelay], one round per recorded failure. *)
Fixpoint double_delay (n : nat) (delay : Duration) : Duration :=
  match n with
  | O => delay
  | S n' => if delay <? 120 * Second then double_delay n' (delay * 2) else delay
  end.
Definition nextPassDelay (poll : Duration) (j : Journal) : Duration :=
  let delay := poll in
  let delay := if is_nil (jn_Plan j) && (0 <? jn_Failures j) then Z.max delay (15 * Second) else delay in
  let delay := if not_nil (jn_Remote j) then Z.max delay submittedPollFloor else delay in
  let delay := if jn_SubmitStarted j && (0 <? jn_Failures j) then Z.max delay submittedRetryFloor else delay in
  Z.min (double_delay (Z.to_nat (jn_Failures j)) delay) (120 * Second).
