(* ===== verification/JournalLemmas.v ===== *)
(** * Journal: encoding and decoding

    What a journal keeps when it is written as JSON and read back: valid
    identifiers, digests, known enumeration values and closed details are
    unchanged, and a second pass changes no string any more. *)

From S2P Require Import Prelude GoStrings GoTime GoJson JsonText Identifiers Problems DomainRecords AttemptStates Attempts Provider Scheduler Journal.
#[local] Open Scope string_scope.
#[local] Open Scope list_scope.
#[local] Open Scope Z_scope.
#[local] Open Scope bool_scope.

(** ** Strings *)
Lemma utf8_width_ascii c l : byte_val c < 128 -> utf8_width (c :: l) = Some 1%nat.
Proof. intros H. unfold utf8_width. cbn. by rewrite (proj2 (Z.ltb_lt _ _) H). Qed.

Lemma sanitize_bytes_ascii l : forall fuel,
  Forall (fun c => byte_val c < 128) l -> (length l <= fuel)%nat -> sanitize_bytes fuel l = l.
Proof.
  induction l as [|c l IH]; intros [|fuel] HF Hl; cbn in Hl; try lia; try done.
  apply Forall_cons in HF as [Hc HF]. cbn [sanitize_bytes]. rewrite utf8_width_ascii by done. cbn. by rewrite IH by (done || lia).
Qed.

Definition ascii_only (s : string) : Prop := Forall (fun c => byte_val c < 128) (bytes_of s).
#[export] Instance ascii_only_dec s : Decision (ascii_only s).
Proof. unfold ascii_only. apply _. Defined.

Lemma sanitize_ascii s : ascii_only s -> sanitize s = s.
Proof. intros H. unfold sanitize. rewrite sanitize_bytes_ascii by done. apply string_of_bytes_of. Qed.

(** Every byte class of the source is below 128. *)
Lemma all_bytes_ascii p s : (forall c, p c = true -> c < 128) -> all_bytes p s = true -> ascii_only s.
Proof. intros Hp H%all_bytes_Forall. eapply Forall_impl; [exact H|]. intros c Hc. by apply Hp. Qed.

Lemma alnum_ascii c : alnum c = true -> c < 128.
Proof. unfold alnum, is_lower, is_upper, is_digit, between. lia. Qed.

Lemma ID_ascii s : ID_Valid s = true -> ascii_only s.
Proof.
  intros (c & l & Hb & _ & Hc & Hl)%validOpaqueID_spec. unfold ascii_only. rewrite Hb.
  constructor; [by apply alnum_ascii|]. eapply Forall_impl; [exact Hl|]. intros x.
  unfold opaque_safe. cbn. intros H. pose proof (alnum_ascii (byte_val x)). destruct (alnum (byte_val x)); [auto|]. lia.
Qed.
Lemma SHA256_ascii s : SHA256Digest_Valid s = true -> ascii_only s.
Proof.
  intros [_ H]%SHA256Digest_Valid_spec. eapply Forall_impl; [exact H|]. intros c.
  cbn. unfold hex_lower, is_digit, between. lia.
Qed.
Lemma ValidReason_ascii s : ValidReason s = true -> ascii_only s.
Proof.
  unfold ValidReason. destruct s as [|c s]; [done|]. destruct (_ || _); [done|].
  apply all_bytes_ascii. intros x Hx. bool_to_prop. lia.
Qed.
Lemma ValidResourceName_ascii s : ValidResourceName s = true -> ascii_only s.
Proof.
  unfold ValidResourceName. destruct (_ || _); [done|].
  apply all_bytes_ascii. intros x Hx. bool_to_prop. lia.
Qed.

(** ** A second pass changes nothing *)


Definition replacement : list ascii := map byte_of [239; 191; 189].
Lemma utf8_width_replacement r : utf8_width (replacement ++ r) = Some 3%nat.
Proof. by vm_compute. Qed.

(** One round of [sanitize_bytes] on a list that starts with a whole rune. *)
Lemma sanitize_bytes_rune fuel rune r :
  rune <> [] -> utf8_width (rune ++ r) = Some (length rune) ->
  sanitize_bytes (S fuel) (rune ++ r) = rune ++ sanitize_bytes fuel r.
Proof.
  intros Hn Hw. destruct (rune ++ r) as [|c l] eqn:E; [by destruct rune|]. cbn [sanitize_bytes]. rewrite Hw, <- E.
  by rewrite take_app_length, drop_app_length.
Qed.

Lemma sanitize_bytes_idem : forall fuel l fuel',
  (length l <= fuel)%nat -> (length (sanitize_bytes fuel l) <= fuel')%nat ->
  sanitize_bytes fuel' (sanitize_bytes fuel l) = sanitize_bytes fuel l.
Proof.
  induction fuel as [|fuel IH]; intros l fuel' Hl Hf; [by destruct fuel'|].
  destruct l as [|c l]; [by destruct fuel'|]. cbn [sanitize_bytes] in *.
  destruct (utf8_width (c :: l)) as [w|] eqn:Hw.
  - pose proof (utf8_width_bound _ _ Hw) as Hb. rewrite length_app in Hf.
    assert (length (take w (c :: l)) = w) as Hlt by (rewrite length_take; lia).
    destruct fuel' as [|fuel']; [lia|].
    rewrite sanitize_bytes_rune; [|intros E; rewrite E in Hlt; cbn in Hlt; lia|rewrite Hlt; by apply utf8_width_take].
    f_equal. apply IH; [rewrite length_drop; cbn in *; lia|lia].
  - fold replacement in *. rewrite length_app in Hf. cbn [length replacement map] in Hf. destruct fuel' as [|fuel']; [lia|].
    rewrite sanitize_bytes_rune; [|done|apply utf8_width_replacement].
    f_equal. apply IH; [cbn in Hl; lia|lia].
Qed.

Lemma sanitize_idem s : sanitize (sanitize s) = sanitize s.
Proof.
  unfold sanitize. rewrite bytes_of_string_of. f_equal. by apply sanitize_bytes_idem.
Qed.

(** ** Values *)
Lemma reload_enum_known `{WireEnum A} (x : A) :
  x ∈ wire_values -> ascii_only (wire_name x) -> reload_enum x = x.
Proof. intros Hx Ha. unfold reload_enum. rewrite sanitize_ascii by done. by apply wire_read_name. Qed.
Lemma reload_enum_idem `{WireEnum A} (x : A) : reload_enum (reload_enum x) = reload_enum x.
Proof. unfold reload_enum. by rewrite wire_name_read, sanitize_idem. Qed.

(** Any known constant of a finite enumeration. *)
Ltac reload_known := match goal with |- reload_enum ?x = ?x => destruct x; try done; by vm_compute end.
Lemma reload_Phase p : (forall raw, p <> PhaseOther raw) -> reload_enum p = p.
Proof. intros H. destruct p as [| | | | | | | | | |raw]; [by vm_compute..|by destruct (H raw)]. Qed.

Lemma reload_identity_valid i : Identity_Validate i = None -> reload_identity i = i.
Proof.
  unfold Identity_Validate. intros H. split_guards H. bool_to_prop. destruct i. unfold reload_identity. cbn in *.
  f_equal; apply sanitize_ascii; first [by apply ID_ascii|by apply SHA256_ascii].
Qed.
Lemma reload_identity_idem i : reload_identity (reload_identity i) = reload_identity i.
Proof. unfold reload_identity. cbn. by rewrite !sanitize_idem. Qed.
Lemma reload_remote_idem r : reload_remote (reload_remote r) = reload_remote r.
Proof. unfold reload_remote. cbn. by rewrite !sanitize_idem, reload_identity_idem. Qed.
Lemma reload_prepared_idem p : reload_prepared (reload_prepared p) = reload_prepared p.
Proof. unfold reload_prepared. cbn. by rewrite !sanitize_idem, reload_identity_idem. Qed.

(** ** Details *)
(** Inserting the entries of a list, last wins: what decoding an object does. *)
Lemma foldl_insert_lookup (l : list (string * string)) : forall (acc : gmap string string) k,
  NoDup l.*1 ->
  foldl (fun acc kv => <[kv.1 := kv.2]> acc) acc l !! k =
  match list_to_map (M := gmap string string) l !! k with Some v => Some v | None => acc !! k end.
Proof.
  induction l as [|[k0 v0] l IH]; intros acc k HN; cbn; [by rewrite lookup_empty|].
  apply NoDup_cons in HN as [Hk0 HN]. rewrite IH by done. cbn.
  destruct (decide (k0 = k)) as [<-|Hne].
  - rewrite (not_elem_of_list_to_map_1 l k0 Hk0), !lookup_insert_eq. done.
  - by rewrite !lookup_insert_ne.
Qed.

Lemma reload_map_ascii m :
  (forall k v, m !! k = Some v -> ascii_only k /\ ascii_only v) -> reload_map m = m.
Proof.
  intros HA. unfold reload_map. pose proof (merge_sort_Permutation entry_le (map_to_list m)) as HP.
  set (l := merge_sort entry_le (map_to_list m)) in *.
  assert (forall (acc : gmap string string) l', (forall kv, kv ∈ l' -> kv ∈ l) ->
    foldl (fun acc kv => <[sanitize kv.1 := sanitize kv.2]> acc) acc l' = foldl (fun acc kv => <[kv.1 := kv.2]> acc) acc l') as HS.
  { intros acc l'. revert acc. induction l' as [|[k v] l' IH]; intros acc Hl'; [done|]. cbn.
    destruct (HA k v) as [Hk Hv].
    { apply elem_of_map_to_list. rewrite <- HP. apply Hl'. by left. }
    rewrite !sanitize_ascii by done. apply IH. intros kv Hkv. apply Hl'. by right. }
  rewrite HS by done. apply map_eq. intros k.
  rewrite foldl_insert_lookup by (rewrite HP; apply NoDup_fst_map_to_list). rewrite lookup_empty.
  rewrite (list_to_map_proper l (map_to_list m)); [|rewrite HP; apply NoDup_fst_map_to_list|done].
  rewrite list_to_map_to_list. by destruct (m !! k).
Qed.

(** ** The copy made by [Apply] *)
Lemma reload_Some old j : reload old = Some j -> j = reload_journal old.
Proof. unfold reload. destruct (Journal_Marshal old); [|done]. by repeat (case_match; [done|]); intros [= <-]. Qed.
