(* ===== verification/ControlProps.v ===== *)
(** * Control requests mean what they say

    A parsed control request is recovered from its canonical text, and the
    text that is hashed for idempotency determines the job, the kind and the
    request. *)

From S2P Require Import Prelude GoStrings GoTime GoSha256 GoJson JsonRead Canonical JsonText JsonPrint JsonWire Identifiers Problems AttemptStates AttemptRuns Attempts Operations DomainRecords Provider ProviderResources Admission ControlOps Journal JournalLemmas.
#[local] Open Scope string_scope.
#[local] Open Scope list_scope.
#[local] Open Scope Z_scope.
#[local] Open Scope bool_scope.

(** ** Objects that were printed *)
Lemma escape_byte_length c : (length (escape_byte true c) <= 6)%nat.
Proof.
  unfold escape_byte. cbv zeta.
  repeat match goal with |- context [if ?b then _ else _] => destruct b end; cbn; lia.
Qed.
Lemma json_chars_length l : forall f, (length (json_chars f true l) <= 6 * length l)%nat.
Proof.
  induction l as [l IH] using (induction_ltof1 _ (@length ascii)); intros [|f]; destruct l as [|c l]; cbn [json_chars length]; try lia.
  assert (forall w, (0 < w)%nat -> (w <= S (length l))%nat ->
            (length (json_chars f true (drop w (c :: l))) <= 6 * (S (length l) - w))%nat) as Hd.
  { intros w Hw Hb. pose proof (IH (drop w (c :: l)) ltac:(unfold ltof; rewrite length_drop; cbn; lia) f) as H'.
    rewrite length_drop in H'. cbn [length] in H'. lia. }
  destruct (utf8_width (c :: l)) as [[|[|w]]|] eqn:E.
  - apply utf8_width_bound in E. lia.
  - rewrite length_app. pose proof (escape_byte_length c). pose proof (Hd 1%nat ltac:(lia) ltac:(lia)) as H'. cbn [drop] in H'. rewrite drop_0 in H'. lia.
  - apply utf8_width_bound in E. cbn [length] in E. pose proof (Hd (S (S w)) ltac:(lia) ltac:(lia)) as H'.
    destruct (line_separator (c :: l)).
    + rewrite !length_app. cbn [length]. change (length (lit "\u202")) with 5%nat. lia.
    + rewrite length_app, length_take. cbn [length]. lia.
  - rewrite length_app. change (length (lit "\ufffd")) with 6%nat. pose proof (Hd 1%nat ltac:(lia) ltac:(lia)) as H'. cbn [drop] in H'. rewrite drop_0 in H'. lia.
Qed.
Lemma json_quote_length s : (length (json_quote true s) <= 2 + 6 * length (bytes_of s))%nat.
Proof.
  unfold json_quote. cbv zeta. cbn [length]. rewrite length_app. pose proof (json_chars_length (bytes_of s) (length (bytes_of s))).
  cbn [length]. lia.
Qed.

Lemma Object_Marshal d fields limit :
  printable_at d (JObj fields) -> len (Marshal (JObj fields)) <= limit ->
  wire_value wire_depth (to_jvalue (JObj fields)) = true -> count_values (to_jvalue (JObj fields)) <= wire_tokens ->
  Object (Marshal (JObj fields)) limit = Ok (map (fun kv => (kv.1, to_jvalue kv.2)) fields).
Proof.
  intros Hp Hl Hw Ht. unfold Object. rewrite (ReadDocument_Marshal d) by done. rewrite Hw. destruct (clean_printed _ _ Hp) as [Hu _].
  assert (0 < len (Marshal (JObj fields))) as Hz.
  { unfold Marshal. rewrite len_bytes, bytes_of_string_of. cbn [json_bytes]. rewrite length_app. change (length (lit "{")) with 1%nat. lia. }
  rewrite (proj2 (Z.eqb_neq _ _)) by lia. rewrite (proj2 (Z.ltb_ge limit _)) by lia.
  replace (utf8_valid _ _) with true.
  - cbn [orb negb]. rewrite (proj2 (Z.ltb_ge wire_tokens _)) by lia. done.
  - unfold utf8_ok in Hu. unfold Marshal. rewrite bytes_of_string_of. symmetry. rewrite utf8_valid_fuel; [exact Hu|].
    pose proof (len_bytes (string_of (json_bytes true (JObj fields)))) as H. rewrite bytes_of_string_of in H. unfold len in H. lia.
Qed.
Lemma Object_inv raw limit fields : Object raw limit = Ok fields -> wire_value wire_depth (VObj fields) = true.
Proof.
  unfold Object. destruct (_ || _); [done|]. destruct (ReadDocument raw) as [v|]; [|done]. destruct (negb _ || _) eqn:E; [done|].
  bool_to_prop. destruct v; intros [= <-]. done.
Qed.

(** ** Texts without the replacement character *)
Lemma ascii_clean s : ascii_only s -> clean_text s = true.
Proof.
  unfold clean_text, ascii_only. intros H. apply negb_true_iff. induction H as [|c l Hc _ IH]; [done|]. cbn [has_replacement].
  rewrite IH, orb_false_r. change (encode_rune RuneError) with (map byte_of [239; 191; 189]). cbn [map strip_prefix].
  case_decide as E; [|done]. subst c. exfalso. revert Hc. vm_compute. discriminate.
Qed.
Lemma ascii_utf8 s : ascii_only s -> utf8_ok (bytes_of s).
Proof. apply utf8_ok_ascii. Qed.
#[export] Hint Resolve ascii_clean ascii_utf8 ID_ascii ValidResourceName_ascii SHA256_ascii : relay.

(** ** What validation promises *)
Lemma Supported_values kind : Supported kind = true ->
  kind ∈ [OperationCancel; OperationRetryCompute; OperationReconcile; OperationCollect; OperationCleanup].
Proof. unfold Supported. rewrite !orb_true_iff, !bool_decide_eq_true. set_solver. Qed.

Record control_ok (r : ControlRequest) (kind : OperationKind) : Prop := {
  ok_kind : kind ∈ [OperationCancel; OperationRetryCompute; OperationReconcile; OperationCollect; OperationCleanup];
  ok_attempt : ID_Valid (cq_AttemptID r) = true;
  ok_reason : utf8_ok (bytes_of (cq_Reason r));
  ok_length : len (cq_Reason r) <= 512;
  ok_discard : kind <> OperationCleanup -> cq_DiscardUncollected r = false;
  ok_resolution : cq_SubmissionResolution r = "" /\ cq_ResourceName r = "" \/
    kind = OperationReconcile /\ cq_SubmissionResolution r ∈ ["absent"; "present"] /\ ValidResourceName (cq_ResourceName r) = true }.
Lemma Validate_ok r kind : ControlRequest_Validate r kind = None -> control_ok r kind.
Proof.
  unfold ControlRequest_Validate. intros H. split_guards H. clear H. bool_to_prop. split.
  - by apply Supported_values.
  - done.
  - done.
  - done.
  - intros Hk. apply andb_false_iff in G2 as [G2|G2]; [|done]. by bool_to_prop.
  - apply andb_false_iff in G as [G|G]; bool_to_prop; [by left|]. right.
    split_and!; [done| |done].
    match goal with H : (cq_SubmissionResolution r <>? _) && _ = false |- _ => apply andb_false_iff in H as [Hr|Hr] end;
      bool_to_prop; rewrite Hr; set_solver.
Qed.

(** Texts that are printed as they are. *)
Definition plain_byte (c : ascii) : Prop := byte_val c < 128 /\ escape_byte true c = [c].
Lemma plain_length s : Forall plain_byte (bytes_of s) -> length (json_quote true s) = (2 + length (bytes_of s))%nat.
Proof.
  intros H. unfold json_quote. cbv zeta. cbn [length]. rewrite length_app. cbn [length].
  assert (json_chars (length (bytes_of s)) true (bytes_of s) = bytes_of s) as ->; [|lia].
  induction H as [|c l [Hc He] _ IH]; [done|]. cbn [length json_chars].
  assert (utf8_width (c :: l) = Some 1%nat) as ->.
  { unfold utf8_width. cbn [take map]. by rewrite (proj2 (Z.ltb_lt _ _) Hc). }
  by rewrite He, IH.
Qed.
Lemma name_byte_plain c : opaque_safe (byte_val c) || (byte_val c =? 47) = true -> plain_byte c.
Proof.
  intros H. apply (bool_decide_unpack ((byte_val c < 128) /\ escape_byte true c = [c])). revert H.
  destruct c as [[] [] [] [] [] [] [] []]; vm_compute; done.
Qed.
Lemma plain_ID s : ID_Valid s = true -> Forall plain_byte (bytes_of s) /\ (length (bytes_of s) <= 128)%nat.
Proof.
  intros (c & l & -> & Hl & Hc & Hs)%validOpaqueID_spec. split; [|cbn; lia].
  constructor; [apply name_byte_plain; unfold opaque_safe; by rewrite Hc|].
  eapply Forall_impl; [exact Hs|]. intros x Hx. apply name_byte_plain. cbn in Hx. by rewrite Hx.
Qed.
Lemma plain_name s : ValidResourceName s = true -> Forall plain_byte (bytes_of s) /\ (length (bytes_of s) <= 256)%nat.
Proof.
  unfold ValidResourceName. destruct (_ || _) eqn:E; [done|]. bool_to_prop. rewrite len_bytes in *. intros Hall. split; [|lia].
  eapply Forall_impl; [exact (proj1 (all_bytes_Forall _ _) Hall)|]. intros c Hc. apply name_byte_plain. cbn in Hc.
  unfold opaque_safe, alnum, is_lower, is_upper, is_digit, between. cbn [existsb].
  repeat match goal with |- context [?a <=? ?b] => destruct (Z.leb_spec a b) | |- context [?a =? ?b] => destruct (Z.eqb_spec a b) end;
    cbn; try done; exfalso; lia.
Qed.

Lemma plain_resolution s : s ∈ ["absent"; "present"] -> Forall plain_byte (bytes_of s) /\ (length (bytes_of s) <= 7)%nat.
Proof.
  intros [<-|[<-|[]]]%list_elem_of_In; (split; [|cbn; lia]); unfold plain_byte; apply (bool_decide_unpack _); by vm_compute.
Qed.
Lemma plain_ascii s : Forall plain_byte (bytes_of s) -> ascii_only s.
Proof. intros H. eapply Forall_impl; [exact H|]. by intros c [? _]. Qed.

(** ** Round trip *)
Definition control_members (r : ControlRequest) (kind : OperationKind) : list (string * json) :=
  match json_control r kind with JObj l => l | _ => [] end.
Lemma json_control_members r kind : json_control r kind = JObj (control_members r kind).
Proof. unfold control_members, json_control. by destruct (_ ==? _). Qed.
Lemma control_cases (P : list (string * json) -> Prop) r kind :
  control_ok r kind ->
  (kind = OperationCleanup -> P ([("attempt_id", JStr (cq_AttemptID r)); ("discard_uncollected", JBool (cq_DiscardUncollected r))] ++ str_field "reason" (cq_Reason r))) ->
  (kind <> OperationCleanup -> cq_SubmissionResolution r = "" -> P ([("attempt_id", JStr (cq_AttemptID r))] ++ str_field "reason" (cq_Reason r))) ->
  (kind = OperationReconcile -> cq_SubmissionResolution r <> "" -> ValidResourceName (cq_ResourceName r) = true ->
     P ([("attempt_id", JStr (cq_AttemptID r))] ++ str_field "reason" (cq_Reason r)
        ++ [("submission_resolution", JStr (cq_SubmissionResolution r)); ("resource_name", JStr (cq_ResourceName r))])) ->
  P (control_members r kind).
Proof.
  intros Ho H1 H2 H3. unfold control_members, json_control. case_bool_decide as Hk; [by apply H1|].
  rewrite (ok_discard _ _ Ho Hk). destruct (ok_resolution _ _ Ho) as [[E1 E2]|(Ek & Hr & Hn)].
  - rewrite E1, E2. cbn [bool_field str_field app]. rewrite !app_nil_r. by apply H2.
  - assert (cq_SubmissionResolution r <> "") as Hne by (intros E; rewrite E in Hr; set_solver).
    assert (cq_ResourceName r <> "") as Hnn by (intros E; by rewrite E in Hn).
    unfold bool_field. cbn [app]. unfold str_field at 2 3. rewrite !bool_decide_eq_false_2 by done. cbn [app]. by apply H3.
Qed.

Lemma control_printable r kind : control_ok r kind -> printable_at 2 (JObj (control_members r kind)).
Proof.
  intros Ho. pose proof (ok_reason _ _ Ho) as Hr. pose proof (ok_attempt _ _ Ho) as Ha.
  assert (Forall (fun kv : string * json => utf8_ok (bytes_of kv.1) /\ printable_at 1 kv.2) (str_field "reason" (cq_Reason r))) as Hs.
  { unfold str_field. case_bool_decide; [done|]. constructor; [|done]. split; [by vm_compute|exact Hr]. }
  cbn [printable_at]. apply control_cases; [done|intros..]; rewrite ?Forall_app; repeat split; try exact Hs;
    repeat (constructor; [split; [by vm_compute|cbn; eauto with relay]|]); try done.
  destruct (ok_resolution _ _ Ho) as [[? _]|(_ & Hres & _)]; [done|]. apply ascii_utf8, plain_ascii.
  by apply plain_resolution.
Qed.

(** The bytes of an object are those of its members, the separators and the
    braces. *)
Definition members_length (l : list (string * json)) : nat :=
  fold_right (fun kv n => (length (json_quote true kv.1) + length (json_bytes true kv.2) + 2 + n)%nat) 1%nat l.
Lemma object_length l : l <> [] -> length (json_bytes true (JObj l)) = members_length l.
Proof.
  destruct l as [|kv l]; [done|]. intros _. rewrite object_text. cbn [length]. rewrite !length_app. cbn [length].
  assert (length (tail_members l) + 1 = members_length l)%nat as E.
  { induction l as [|kv' l IH]; [done|]. change (tail_members (kv' :: l)) with (byte_of 44 :: member_text kv' ++ tail_members l).
    cbn [length members_length fold_right]. fold (members_length l). rewrite <- IH, length_app. unfold member_text.
    rewrite length_app. cbn [length]. lia. }
  unfold member_text. rewrite length_app. cbn [length members_length fold_right]. fold (members_length l). lia.
Qed.
Lemma control_length r kind : control_ok r kind -> len (Marshal (JObj (control_members r kind))) <= control_MaxRequestBytes.
Proof.
  intros Ho. unfold Marshal. rewrite len_bytes, bytes_of_string_of.
  pose proof (ok_length _ _ Ho) as Hl. rewrite len_bytes in Hl. pose proof (json_quote_length (cq_Reason r)) as Hq.
  destruct (plain_ID _ (ok_attempt _ _ Ho)) as [Ha Hal]. apply plain_length in Ha.
  assert (members_length (str_field "reason" (cq_Reason r)) <= 13 + length (json_quote true (cq_Reason r)))%nat as Hs.
  { unfold str_field. case_bool_decide; [unfold members_length; cbn [fold_right]; lia|]. unfold members_length. cbn [fold_right fst snd json_bytes]. change (length (json_quote true "reason")) with 8%nat. lia. }
  assert (forall a b, members_length (a ++ b) + 1 = members_length a + members_length b)%nat as Happ.
  { intros a b. induction a as [|kv a IH]; [change (members_length []) with 1%nat; cbn [app]; lia|]. cbn [app members_length fold_right]. fold (members_length (a ++ b)). fold (members_length a). lia. }
  apply (control_cases (fun l => Z.of_nat (length (json_bytes true (JObj l))) <= control_MaxRequestBytes) r kind Ho); intros;
    (rewrite object_length by done).
  - pose proof (Happ [("attempt_id", JStr (cq_AttemptID r)); ("discard_uncollected", JBool (cq_DiscardUncollected r))] (str_field "reason" (cq_Reason r))) as E.
    change (members_length [_; _]) with (12 + length (json_quote true (cq_AttemptID r)) + 2 + (21 + length (json_bytes true (JBool (cq_DiscardUncollected r))) + 2 + 1))%nat in E.
    assert (length (json_bytes true (JBool (cq_DiscardUncollected r))) <= 5)%nat by (destruct (cq_DiscardUncollected r); cbn; lia).
    unfold control_MaxRequestBytes. lia.
  - pose proof (Happ [("attempt_id", JStr (cq_AttemptID r))] (str_field "reason" (cq_Reason r))) as E.
    change (members_length [_]) with (12 + length (json_quote true (cq_AttemptID r)) + 2 + 1)%nat in E.
    unfold control_MaxRequestBytes. lia.
  - destruct (ok_resolution _ _ Ho) as [[? _]|(_ & Hres & _)]; [done|].
    apply plain_resolution in Hres as [Hp Hpl]. apply plain_length in Hp.
    match goal with H : ValidResourceName _ = true |- _ => apply plain_name in H as [Hn Hnl] end. apply plain_length in Hn.
    set (tail := [("submission_resolution", JStr (cq_SubmissionResolution r)); ("resource_name", JStr (cq_ResourceName r))]).
    pose proof (Happ [("attempt_id", JStr (cq_AttemptID r))] (str_field "reason" (cq_Reason r) ++ tail)) as E.
    pose proof (Happ (str_field "reason" (cq_Reason r)) tail) as E2.
    change (members_length [_]) with (12 + length (json_quote true (cq_AttemptID r)) + 2 + 1)%nat in E.
    change (members_length tail) with (23 + length (json_quote true (cq_SubmissionResolution r)) + 2 + (15 + length (json_quote true (cq_ResourceName r)) + 2 + 1))%nat in E2.
    unfold control_MaxRequestBytes. lia.
Qed.

Definition decoded (r : ControlRequest) (kind : OperationKind) (l : list (string * json)) : Prop :=
  let fields := map (fun kv => (kv.1, to_jvalue kv.2)) l in
  Fields fields ["attempt_id"] (control_optional kind) = None /\ dec_control fields = Some r /\
  (clean_text (cq_Reason r) = true -> wire_value wire_depth (VObj fields) = true) /\ count_values (VObj fields) <= wire_tokens.
Lemma wire_object d l :
  wire_value (S d) (VObj l) = duplicate_free l && forallb (fun kv => clean_text kv.1 && wire_value d kv.2) l.
Proof. reflexivity. Qed.
Ltac decode_request :=
  unfold decoded, str_field; case_bool_decide; subst; (split_and!; [reflexivity|reflexivity|cbn [cq_Reason]; intros Hc|vm_compute; discriminate]);
  unfold wire_depth; rewrite wire_object; cbn [app map forallb fst snd to_jvalue wire_value];
  repeat match goal with H : clean_text _ = true |- _ => rewrite H; clear H end; reflexivity.
Lemma control_decoded r kind :
  control_ok r kind -> decoded r kind (control_members r kind).
Proof.
  intros Ho. pose proof (ascii_clean _ (ID_ascii _ (ok_attempt _ _ Ho))) as Ha. pose proof (ok_kind _ _ Ho) as Hk.
  pose proof (ok_discard _ _ Ho) as Hd. pose proof (ok_resolution _ _ Ho) as Hr.
  apply control_cases; [done|intros..]; destruct r as [id reason discard resolution name]; cbn in *; clear Ho.
  - destruct Hr as [[-> ->]|(-> & _)]; [|done]. subst kind. decode_request.
  - rewrite Hd by done. destruct Hr as [[-> ->]|(_ & Hr & _)]; [|subst resolution; set_solver].
    apply list_elem_of_In in Hk as [<-|[<-|[<-|[<-|[<-|[]]]]]]; done || decode_request.
  - rewrite Hd by (subst; done). destruct Hr as [[-> _]|(_ & Hr & Hn)]; [done|].
    pose proof (ascii_clean _ (ValidResourceName_ascii _ Hn)). pose proof (ascii_clean _ (plain_ascii _ (proj1 (plain_resolution _ Hr)))).
    subst kind. decode_request.
Qed.

Lemma control_reparse r kind :
  ControlRequest_Validate r kind = None -> clean_text (cq_Reason r) = true ->
  control_Parse kind (Marshal (json_control r kind)) = Ok r.
Proof.
  intros Hv Hc. pose proof (Validate_ok _ _ Hv) as Ho. destruct (control_decoded r kind Ho) as (Hf & Hd & Hw & Ht).
  unfold control_Parse. rewrite json_control_members, (Object_Marshal 2); [|by apply control_printable|by apply control_length|by apply Hw|done].
  rewrite Hf, Hd. cbn. by rewrite Hv.
Qed.
Lemma member_elem name fields v : member name fields = Some v -> exists k, (k, v) ∈ fields.
Proof.
  unfold member. intros ((k & w) & Hl & [= <-])%fmap_Some. exists k. apply last_Some_elem_of in Hl. by apply list_elem_of_filter in Hl as [_ ?].
Qed.
Lemma wire_member d name fields s :
  wire_value (S (S d)) (VObj fields) = true -> member name fields = Some (VStr s) -> clean_text s = true.
Proof.
  rewrite wire_object. intros [_ Hw]%andb_true_iff (k & Hk)%member_elem. rewrite forallb_forall in Hw.
  apply list_elem_of_In in Hk. apply Hw in Hk. cbn [fst snd wire_value] in Hk. by apply andb_true_iff in Hk as [_ ?].
Qed.
Lemma Parse_clean kind raw r :
  control_Parse kind raw = Ok r -> ControlRequest_Validate r kind = None /\ clean_text (cq_Reason r) = true.
Proof.
  unfold control_Parse. destruct (Object raw _) as [fields|] eqn:Eo; [|done]. apply Object_inv in Eo. destruct (not_nil _); [done|].
  destruct (dec_control fields) as [r'|] eqn:Ed; [|done]. destruct (ControlRequest_Validate r' kind) eqn:Ev; cbn; [done|].
  intros [= <-]. split; [done|]. unfold dec_control in Ed. apply bind_Some in Ed as (id & _ & Ed). apply bind_Some in Ed as (reason & Hr & Ed).
  apply bind_Some in Ed as (? & _ & Ed). apply bind_Some in Ed as (? & _ & Ed). apply bind_Some in Ed as (? & _ & Ed). injection Ed as <-. cbn.
  unfold wire_depth in Eo. destruct (member "reason" fields) as [[| | |s| |]|] eqn:Em; try discriminate Hr; injection Hr as <-; try done.
  by eapply wire_member.
Qed.

(** Every control request the parser accepts has a
    canonical text of at most 4096 bytes, and parsing that text for the same
    kind of operation gives the same request. *)
Theorem control_roundtrip kind raw r :
  control_Parse kind raw = Ok r ->
  exists text, control_CanonicalJSON r kind = Ok text /\ len text <= control_MaxRequestBytes /\ control_Parse kind text = Ok r.
Proof.
  intros [Hv Hc]%Parse_clean. exists (Marshal (json_control r kind)). unfold control_CanonicalJSON. rewrite Hv. cbn. split; [done|].
  split; [|by apply control_reparse]. rewrite json_control_members. by apply control_length, Validate_ok.
Qed.
Definition sample_control : string :=
  "{" +:+ quoted "reason" +:+ " : " +:+ quoted "a <b> \u00e9" +:+ ", " +:+ quoted "attempt_id" +:+ ":" +:+ quoted "attempt-1" +:+ "} ".
Lemma control_roundtrip_witness :
  exists r text, control_Parse OperationCancel sample_control = Ok r /\ control_CanonicalJSON r OperationCancel = Ok text /\ text <> sample_control /\
    control_Parse OperationCancel text = Ok r.
Proof.
  destruct (control_roundtrip OperationCancel sample_control
    (mkControlRequest "attempt-1" ("a <b> " +:+ string_of (map byte_of [195; 169])) false "" "")) as (text & H1 & _ & H2); [by vm_compute|].
  eexists _, text. split_and!; [|exact H1| |exact H2]; [by vm_compute|]. revert H1. vm_compute. by intros [= <-].
Defined.

(** ** Digests *)
Lemma control_document_printable r job kind :
  ID_Valid job = true -> ControlRequest_Validate r kind = None -> printable_at 3 (control_document r job kind).
Proof.
  intros Hj Ho%Validate_ok. pose proof (ok_kind _ _ Ho) as Hk.
  assert (utf8_ok (bytes_of (control_Version kind))) as H1.
  { apply ascii_utf8, (bool_decide_unpack _). unfold control_Version. by destruct (_ ==? _). }
  assert (utf8_ok (bytes_of job)) as H2 by by apply ascii_utf8, ID_ascii.
  assert (utf8_ok (bytes_of (OperationKind_string kind))) as H3.
  { apply ascii_utf8, (bool_decide_unpack _). by apply list_elem_of_In in Hk as [<-|[<-|[<-|[<-|[<-|[]]]]]]. }
  assert (printable_at 2 (json_control r kind)) as H4 by (rewrite json_control_members; by apply control_printable).
  unfold control_document. refine (_ : members_printable 2 _). unfold members_printable. rewrite !Forall_cons, Forall_nil. cbn [fst snd].
  split_and!; try done; apply ascii_utf8, (bool_decide_unpack _); reflexivity.
Qed.
Lemma control_members_inj r1 r2 kind :
  control_ok r1 kind -> control_ok r2 kind -> control_members r1 kind = control_members r2 kind -> r1 = r2.
Proof. intros (_ & H1 & _)%control_decoded (_ & H2 & _)%control_decoded E. rewrite E in H1. congruence. Qed.

(** Two accepted control requests with the same digest are
    the same request for the same kind of operation on the same job, unless
    their two texts are a collision of the hash function. An idempotency key
    can not be spent on another route. *)
Theorem control_digest r1 job1 kind1 r2 job2 kind2 d :
  control_Digest r1 job1 kind1 = Ok d -> control_Digest r2 job2 kind2 = Ok d ->
  (r1 = r2 /\ job1 = job2 /\ kind1 = kind2) \/ exists a b, a <> b /\ sha256_hex a = d /\ sha256_hex b = d.
Proof.
  unfold control_Digest. destruct (_ || _) eqn:E1; [done|]. destruct (_ || not_nil (ControlRequest_Validate r2 kind2)) eqn:E2; [done|].
  intros [= H1] [= H2]. bool_to_prop. destruct (ControlRequest_Validate r1 kind1) eqn:V1; [done|]. destruct (ControlRequest_Validate r2 kind2) eqn:V2; [done|].
  destruct (decide (Marshal (control_document r1 job1 kind1) = Marshal (control_document r2 job2 kind2))) as [E|]; [left|right; eauto].
  apply (Marshal_inj 3) in E; [|by apply control_document_printable..]. unfold control_document in E. injection E as _ Ej Ek Em.
  pose proof (Validate_ok _ _ V1) as O1. pose proof (Validate_ok _ _ V2) as O2.
  assert (kind1 = kind2) as <-.
  { pose proof (ok_kind _ _ O1) as K1. pose proof (ok_kind _ _ O2) as K2. clear -Ek K1 K2.
    apply list_elem_of_In in K1, K2. cbn in K1, K2. naive_solver. }
  rewrite !json_control_members in Em. injection Em as Em. split_and!; [by eapply control_members_inj|done|done].
Qed.
Lemma control_digest_witness :
  let r := mkControlRequest "attempt-1" "" false "" "" in
  exists d, control_Digest r "job-1" OperationCancel = Ok d /\
    ((r = r /\ "job-1" = "job-1" /\ OperationCancel = OperationCancel) \/ exists a b, a <> b /\ sha256_hex a = d /\ sha256_hex b = d).
Proof.
  intros r. eexists. assert (control_Digest r "job-1" OperationCancel = Ok _) as E by (vm_compute; reflexivity).
  split; [exact E|]. exact (control_digest r "job-1" OperationCancel r "job-1" OperationCancel _ E E).
Defined.
