(* ===== verification/RunnerPlan.v ===== *)
(** * Result manifests of a runner

    [internal/provider/runnerplan]: the strict reading of the manifest a
    runner leaves, [provider.ValidateManifestIdentity], and the checks on its
    claims before any output is trusted. The JSON schema of the manifest is
    checked by a library: it is the parameter [schema]. *)

From S2P Require Import Prelude GoStrings GoTime GoSha256 GoJson JsonRead Canonical Identifiers Problems AttemptStates Attempts DomainRecords Provider ProviderResources Admission JsonWire.
#[local] Open Scope string_scope.
#[local] Open Scope list_scope.
#[local] Open Scope Z_scope.
#[local] Open Scope bool_scope.

Definition MaxManifestBytes : Z := 2 ^ 20.
Definition ErrResult : error := ENew "invalid execution result manifest".

(** ** Strict JSON *)
(** The loop of [pairedEscapes]: every escaped surrogate has its partner. *)
Fixpoint paired_escapes (fuel : nat) (l : list ascii) : bool :=
  match fuel, l with
  | _, [] => true
  | O, _ => false
  | S fuel, c :: l =>
      if negb (byte_val c =? 92) then paired_escapes fuel l
      else match l with
      | [] => false
      | e :: l =>
          if negb (byte_val e =? 117) then paired_escapes fuel l
          else match read_u4 l with
          | None => false
          | Some (n, l) =>
              if between 56320 57343 n then false
              else if negb (between 55296 56319 n) then paired_escapes fuel l
              else match l with
              | b :: u :: l =>
                  if negb ((byte_val b =? 92) && (byte_val u =? 117)) then false
                  else match read_u4 l with
                  | Some (low, l) => if between 56320 57343 low then paired_escapes fuel l else false
                  | None => false
                  end
              | _ => false
              end
          end
      end
  end.
Definition pairedEscapes (raw : string) : bool := paired_escapes (String.length raw) (bytes_of raw).
(** [walkJSON] on the value that was read: nesting and repeated names. *)
Fixpoint walk_value (depth : nat) (v : jvalue) : bool :=
  match depth with
  | O => false
  | S d =>
      match v with
      | VArr l => forallb (walk_value d) l
      | VObj fields => duplicate_free fields && forallb (fun kv => walk_value d kv.2) fields
      | _ => true
      end
  end.
Definition walk_depth : nat := 33.
Definition walk_budget : Z := 100000.
Definition strictValue (raw : string) : result error (list (string * jvalue)) :=
  throw (len raw =? 0) || (MaxManifestBytes <? len raw) || negb (utf8_valid (String.length raw) (bytes_of raw)) || negb (pairedEscapes raw)
    with ErrResult ;;
  match ReadDocument raw with
  | Some v =>
      throw negb (walk_value walk_depth v) || (walk_budget <? count_values v) with ErrResult ;;
      match v with VObj fields => Ok fields | _ => Err ErrResult end
  | None => Err ErrResult
  end.

(** ** Identity *)
Definition ValidateManifestIdentity (expected : Identity) (data : string) : option error :=
  check Identity_Validate expected ;;
  reject 2 ^ 20 <? len data with ENew "manifest exceeds byte limit" ;;
  match (v ← ReadDocument data; f ← dec_fields (Some v);
         version ← dec_str (member "manifest_version" f); job ← dec_str (member "job_id" f); attempt ← dec_str (member "attempt_id" f);
         nonce ← dec_str (member "attempt_nonce" f); bundle ← dec_str (member "bundle_sha256" f);
         inputs ← dec_str (member "input_manifest_sha256" f); Some (version, job, attempt, nonce, bundle, inputs)) with
  | None => Some (ENew "invalid manifest JSON")
  | Some (version, job, attempt, nonce, bundle, inputs) =>
      reject (version <>? "1") || (job <>? id_JobID expected) || (attempt <>? id_AttemptID expected) || (nonce <>? id_Nonce expected)
             || (bundle <>? id_BundleSHA256 expected) || (inputs <>? id_InputManifestSHA256 expected)
        with identity_mismatch "result manifest identity mismatch" ;;
      None
  end.

(** ** Results *)
Record ResultArtifact := mkResultArtifact { ra_Path : string; ra_Bytes : Z; ra_SHA256 : string; ra_MediaType : string }.
(** [rn_HasError]: the member [error] is present and not null. *)
Record RunnerResult := mkRunnerResult {
  rn_Phase : string; rn_Started : Time; rn_Finished : Time; rn_TimedOut : bool; rn_HasError : bool; rn_GPURequired : bool;
  rn_GPUVerified : bool; rn_Artifacts : list ResultArtifact }.
Definition dec_time (v : option jvalue) : option Time :=
  match v with None | Some VNull => Some zero_time | Some (VStr s) => ParseRFC3339 s | _ => None end.
Definition dec_artifact (v : option jvalue) : option ResultArtifact :=
  f ← dec_fields v;
  path ← dec_str (member "path" f); bytes ← dec_int (member "bytes" f); sha ← dec_str (member "sha256" f);
  media ← dec_str (member "media_type" f); Some (mkResultArtifact path bytes sha media).
(** [json.Unmarshal] into a [Result]. A time is taken as decoded; Go wants it
    written without escapes. *)
Definition dec_result (f : list (string * jvalue)) : option RunnerResult :=
  phase ← dec_str (member "phase" f); started ← dec_time (member "started_at" f); finished ← dec_time (member "finished_at" f);
  timed ← dec_bool (member "timed_out" f); rc ← dec_fields (member "resource_check" f);
  required ← dec_bool (member "gpu_required" rc); verified ← dec_bool (member "gpu_verified" rc);
  artifacts ← dec_list dec_artifact (member "artifacts" f);
  Some (mkRunnerResult phase started finished timed
    match member "error" f with None | Some VNull => false | Some _ => true end required verified artifacts).

(** ** Portable paths *)
(** Printable ASCII. *)
Definition printable (path : string) : bool := all_bytes (fun c => negb ((c <? 32) || (126 <? c))) path.
Definition name_le (a b : string) : Prop := str_leb a b = true.
#[export] Instance name_le_dec : RelDecision name_le.
Proof. intros a b. unfold name_le. apply _. Defined.
(** The directories of a path, shortest first: what precedes each slash. *)
Fixpoint dirs_of (done : list ascii) (l : list ascii) : list string :=
  match l with
  | [] => []
  | c :: l => (if Ascii.eqb c slash then [string_of done] else []) ++ dirs_of (done ++ [c]) l
  end.
Definition parents (name : string) : list string := dirs_of [] (bytes_of name).
(** The same directories as [ParseResult] finds them: the joined parts. *)
Fixpoint join_slash (parts : list string) : string :=
  match parts with [] => "" | [p] => p | p :: parts => p +:+ "/" +:+ join_slash parts end.
Definition split_parents (name : string) : list string :=
  let parts := Split name slash in map (fun i => join_slash (take i parts)) (seq 1 (length parts - 1)).
(** The loop over the sorted names. *)
Fixpoint names_apart (parents : string -> list string) (seen names : list string) : bool :=
  match names with
  | [] => true
  | n :: names =>
      if bool_decide (n ∈ seen) then false
      else if existsb (fun d => bool_decide (d ∈ seen)) (parents n) then false
      else names_apart parents (n :: seen) names
  end.
Definition collisionFree (paths : list string) : bool :=
  if existsb (fun p => negb (SafeArtifactPath p) || negb (printable p)) paths then false
  else names_apart parents [] (merge_sort name_le (map ToLower paths)).
(** The check of [ParseResult] on the artifacts of a manifest. *)
Definition artifact_paths_ok (paths : list string) : bool :=
  if existsb (fun p => negb (SafeArtifactPath p) || negb (printable p)) paths then false
  else names_apart split_parents [] (merge_sort name_le (map ToLower paths)).

Section ParseResult.
Context (schema : jvalue -> bool).
Definition ParseResult (expected : Identity) (raw : string) : result error RunnerResult :=
  do fields <- strictValue raw ;;
  throw negb (schema (VObj fields)) with ErrResult ;;
  match ValidateManifestIdentity expected raw with
  | Some e => Err e
  | None =>
      match dec_result fields with
      | None => Err ErrResult
      | Some m =>
          throw Before (rn_Finished m) (rn_Started m) || negb (Bool.eqb (rn_TimedOut m) (rn_Phase m ==? "timed_out"))
                || (rn_Phase m <>? "completed") && negb (rn_HasError m) with ErrResult ;;
          throw negb (artifact_paths_ok (map ra_Path (rn_Artifacts m))) with ErrResult ;;
          Ok m
      end
  end.
End ParseResult.
