(* ===== verification/Collection.v ===== *)
(** * Collection of results: records and the snapshot

    [internal/collection/model.go] and [manifest.go]: leases and work, the
    failures of a collection, the snapshot of the files to fetch that is built
    from a runner's manifest and the provider's listing, and the final state
    of an attempt whose results are verified. *)

From S2P Require Import Prelude Effects GoStrings GoTime GoSha256 GoJson JsonRead Identifiers Problems AttemptStates Attempts DomainRecords Provider ProviderResources Transfer Workers Admission Journal RunnerPlan.
#[local] Open Scope string_scope.
#[local] Open Scope list_scope.
#[local] Open Scope Z_scope.
#[local] Open Scope bool_scope.

Definition ManifestPath : string := "control/execution-result.json".
Definition MaxSnapshotBytes : Z := 16 * 2 ^ 20.
Definition MaxFiles : Z := 10004.
Definition collection_ErrInvalid : error := ENew "invalid collection evidence".
Definition collection_ErrLeaseLost_text : string := "collection ownership expired or changed".
Definition collection_ErrUnavailable : error := ENew "collection unavailable; retain the existing attempt".
Definition collection_ErrNotFound : error := ENew "verified result not found or not visible".

(** ** Failures

    A [Failure] with its code, validity, reason, cause text and cause. *)
Record CollectionFailure := mkCollectionFailure {
  cf_Code : ErrorCode; cf_Invalid : bool; cf_Reason : string; cf_Cause : string; cf_cause : option error }.
Definition failure_error (f : CollectionFailure) : error :=
  ECollectionFailure (cf_Code f) (cf_Invalid f) (cf_Reason f) (cf_Cause f) (cf_cause f).
Definition failureAt (code : ErrorCode) (invalid : bool) (reason : string) : error :=
  failure_error (mkCollectionFailure code invalid reason "" None).
Definition failure (code : ErrorCode) (invalid : bool) : error :=
  failureAt code invalid
    (if code ==? CodeRemoteIdentityMismatch then "artifact_remote_identity_mismatch"
     else if code ==? CodeResultManifestMissing then "artifact_manifest_missing"
     else if code ==? CodeArtifactDigestMismatch then "artifact_digest_mismatch"
     else if code ==? CodeArtifactMissing then "artifact_output_missing"
     else if code ==? CodeArtifactCollectionFailed then "artifact_catalog_invalid"
     else "artifact_request_invalid").
Definition as_failure (e : error) : option CollectionFailure :=
  match e with ECollectionFailure c i r t k => Some (mkCollectionFailure c i r t k) | _ => None end.
(** A problem of that code in the chain, by value or by pointer. *)
Definition problem_with (pointer : bool) (code : ErrorCode) (err : option error) : option Problem :=
  match errors_As (as_problem pointer) err with
  | Some p => if pb_Code p ==? code then Some p else None
  | None => None
  end.
Definition collectionFailureAt (err : option error) (reason : string) : CollectionFailure :=
  let cause := Reason err "" in
  let '(code, invalid, r, c) :=
    match errors_As as_failure err with
    | Some known => (cf_Code known, cf_Invalid known, cf_Reason known, cf_Cause known)
    | None =>
        let found := match problem_with false CodeArtifactCollectionFailed err with
                     | Some p => Some p
                     | None => problem_with true CodeArtifactCollectionFailed err
                     end in
        match found with
        | Some p =>
            let r := map_get (PublicDetails p) ReasonDetail in
            (CodeArtifactCollectionFailed, false, r, if ValidCollectionReason r then cause else "")
        | None => (CodeArtifactCollectionFailed, false, "", cause)
        end
    end in
  let r := if ValidCollectionReason r then r else reason in
  let c := if negb (ValidReason c) || (c ==? r) then "" else c in
  mkCollectionFailure code invalid r c err.
Definition collectionFailure (err : option error) : CollectionFailure := collectionFailureAt err "artifact_collection_failed".
(** The error value of [collectionFailureAt]. *)
Definition fail_at (err : option error) (reason : string) : error := failure_error (collectionFailureAt err reason).

(** ** Work *)
Record CollectionLease := mkCollectionLease {
  cl_WorkspaceID : string; cl_JobID : string; cl_AttemptID : string; cl_OperationID : string; cl_Generation : Z; cl_Fence : string;
  cl_Until : Time; cl_AttemptRevision : Z }.
#[export] Instance CollectionLease_eq_dec : EqDecision CollectionLease.
Proof. solve_decision. Defined.
Definition CollectionLease_Valid (l : CollectionLease) : bool :=
  ID_Valid (cl_WorkspaceID l) && ID_Valid (cl_JobID l) && ID_Valid (cl_AttemptID l) && ID_Valid (cl_OperationID l)
  && (0 <? cl_Generation l) && ID_Valid (cl_Fence l) && (32 <=? len (cl_Fence l)) && negb (IsZero (cl_Until l))
  && (0 <? cl_AttemptRevision l).
Record CollFile := mkCollFile { fl_ID : string; fl_Path : string; fl_Role : string; fl_Object : ObjectMetadata; fl_MediaType : string }.
#[export] Instance CollFile_eq_dec : EqDecision CollFile.
Proof. solve_decision. Defined.
Record CollSnapshot := mkCollSnapshot { sn_Manifest : string; sn_Files : list CollFile }.
#[export] Instance CollSnapshot_eq_dec : EqDecision CollSnapshot.
Proof. solve_decision. Defined.
Record CollectionWork := mkCollectionWork {
  wk_Lease : CollectionLease; wk_Plan : Plan; wk_Binding : BindingSnapshot; wk_Observation : Observation; wk_Snapshot : option CollSnapshot }.
Definition wk_Remote (w : CollectionWork) : RemoteReference := ob_Remote (wk_Observation w).
Definition CollectionWork_Valid (w : CollectionWork) : bool :=
  let id := rj_Identity (pl_Job (wk_Plan w)) in
  CollectionLease_Valid (wk_Lease w) && is_nil (ResolvedJob_Validate (pl_Job (wk_Plan w))) && BindingSnapshot_Valid (wk_Binding w)
  && (rj_Binding (pl_Job (wk_Plan w)) ==? bs_Binding (wk_Binding w))
  && is_nil (Observation_Validate (wk_Observation w) (wk_Remote w)) && (rr_Identity (wk_Remote w) ==? id)
  && ExecutionState_Terminal (ob_Execution (wk_Observation w)) && (id_WorkspaceID id ==? cl_WorkspaceID (wk_Lease w))
  && (id_JobID id ==? cl_JobID (wk_Lease w)) && (id_AttemptID id ==? cl_AttemptID (wk_Lease w)).

(** ** The text and digest of a snapshot *)
Definition json_file (f : CollFile) : json :=
  JObj ([("artifact_id", JStr (fl_ID f)); ("path", JStr (fl_Path f)); ("role", JStr (fl_Role f)); ("object", json_object (fl_Object f))]
        ++ str_field "media_type" (fl_MediaType f)).
(** A snapshot without files is written with [null]: its slice is nil. *)
Definition json_snapshot_of (s : CollSnapshot) : json :=
  JObj [("manifest", JStr (sn_Manifest s));
        ("files", match sn_Files s with [] => JNull | l => JArr (map json_file l) end)].
Definition CollSnapshot_Digest (s : CollSnapshot) : string :=
  let raw := Marshal (json_snapshot_of s) in if MaxSnapshotBytes <? len raw then "" else Digest raw.
Definition FileIdentity (remote : RemoteReference) (path : string) (size : Z) (digest : string) : string :=
  "art_" +:+ Digest (Marshal (JObj [("Version", JStr "collection-file/v1"); ("Remote", json_remote remote); ("Path", JStr path);
                                    ("Bytes", JInt size); ("Digest", JStr digest)])).

(** ** Verified snapshots *)
Record Verified := mkVerified { vf_lease : CollectionLease; vf_snapshot : CollSnapshot; vf_phase : string }.
Definition Verified_Matches (v : Verified) (w : CollectionWork) : bool :=
  CollectionWork_Valid w && (vf_lease v ==? wk_Lease w)
  && match wk_Snapshot w with
     | None => false
     | Some s => SHA256Digest_Valid (CollSnapshot_Digest (vf_snapshot v)) && (CollSnapshot_Digest (vf_snapshot v) ==? CollSnapshot_Digest s)
     end.

(** ** Configuration *)
Record CollectionConfig := mkCollectionConfig {
  cg_MaxBytes : Z; cg_MaxFiles : Z; cg_Workers : Z; cg_Timeout : Duration; cg_PollDelay : Duration }.
Definition collection_DefaultConfig : CollectionConfig := mkCollectionConfig (4 * 2 ^ 30) MaxFiles 2 (10 * Minute) Second.
Definition CollectionConfig_Valid (c : CollectionConfig) : bool :=
  (0 <? cg_MaxBytes c) && (cg_MaxBytes c <=? 4 * 2 ^ 30) && (1 <=? cg_MaxFiles c) && (cg_MaxFiles c <=? MaxFiles) && (1 <=? cg_Workers c)
  && (cg_Workers c <=? 16) && (Second <=? cg_Timeout c) && (cg_Timeout c <=? 30 * Minute) && (Millisecond <=? cg_PollDelay c)
  && (cg_PollDelay c <=? Minute).

(** ** Building the snapshot *)
Abbreviation catalog_map := (gmap string Artifact).
Section Manifest.
(** The JSON schema of result manifests. *)
Context (schema : jvalue -> bool).
Definition parseManifest (w : CollectionWork) (raw : string) : result error (RunnerResult * Spec) :=
  throw negb (CollectionWork_Valid w) with collection_ErrInvalid ;;
  match ParseResult schema (rj_Identity (pl_Job (wk_Plan w))) raw with
  | Err (EProblem false p) =>
      if pb_Code p ==? CodeRemoteIdentityMismatch then Err (failure CodeRemoteIdentityMismatch true)
      else Err (failureAt CodeArtifactCollectionFailed true "artifact_manifest_invalid")
  | Err _ => Err (failureAt CodeArtifactCollectionFailed true "artifact_manifest_invalid")
  | Ok m =>
      match ReadDocument (rj_Specification (pl_Job (wk_Plan w))) ≫= dec_spec with
      | None => Err collection_ErrInvalid
      | Some spec =>
          throw negb (Bool.eqb (rn_GPURequired m) (rs_Accelerator (sc_Resources spec) ==? "gpu"))
            with failureAt CodeArtifactCollectionFailed true "artifact_manifest_invalid" ;;
          Ok (m, spec)
      end
  end.

(** The files selected so far and their bytes; the closure [add]. *)
Definition selection : Type := list CollFile * Z.
Definition file_of (w : CollectionWork) (a : Artifact) (role media : string) : CollFile :=
  let id := FileIdentity (wk_Remote w) (af_Path a) (af_Bytes a) (af_SHA256 a) in
  mkCollFile id (af_Path a) role (mkObjectMetadata id (cl_WorkspaceID (wk_Lease w)) (af_Bytes a) (af_SHA256 a)) media.
Definition add_file (cfg : CollectionConfig) (w : CollectionWork) (sel : selection) (a : Artifact) (role media : string) : result error selection :=
  throw cg_MaxBytes cfg - sel.2 <? af_Bytes a with failureAt CodeArtifactCollectionFailed false "artifact_byte_limit" ;;
  throw cg_MaxFiles cfg <=? Z.of_nat (length sel.1) with failureAt CodeArtifactCollectionFailed false "artifact_file_limit" ;;
  Ok (sel.1 ++ [file_of w a role media], sel.2 + af_Bytes a).
(** The first declared output that covers a path. *)
Definition declares (o : Output) (path : string) : bool :=
  let isDir := ou_Kind o ==? "directory" in
  negb isDir && (path ==? ou_Path o) || isDir && HasPrefix path (ou_Path o +:+ "/").
Fixpoint matching_output (i : nat) (outputs : list Output) (path : string) : option (nat * Output) :=
  match outputs with
  | [] => None
  | o :: outputs => if declares o path then Some (i, o) else matching_output (S i) outputs path
  end.
(** The loop over the artifacts of the manifest: [sizes] are the bytes found
    so far for each declared output, [counts] the files. *)
Fixpoint add_outputs (cfg : CollectionConfig) (w : CollectionWork) (spec : Spec) (byPath : catalog_map) (sizes counts : list Z)
    (sel : selection) (l : list ResultArtifact) : result error (list Z * selection) :=
  match l with
  | [] => Ok (counts, sel)
  | a :: l =>
      match matching_output 0 (sc_Outputs spec) (ra_Path a) with
      | None => Err (failureAt CodeArtifactCollectionFailed true "artifact_output_undeclared")
      | Some (i, o) =>
          let size := default 0 (sizes !! i) in
          throw (0 <? ou_MaxBytes o) && (ou_MaxBytes o - size <? ra_Bytes a)
            with failureAt CodeArtifactCollectionFailed false "artifact_byte_limit" ;;
          match byPath !! ("outputs/" +:+ ra_Path a) with
          | None => Err (failure CodeArtifactMissing false)
          | Some listed =>
              throw negb (af_Bytes listed =? ra_Bytes a) || (af_SHA256 listed <>? ra_SHA256 a) with failure CodeArtifactDigestMismatch true ;;
              do sel <- add_file cfg w sel listed "output" (ra_MediaType a) ;;
              add_outputs cfg w spec byPath (<[i := size + ra_Bytes a]> sizes) (<[i := default 0 (counts !! i) + 1]> counts) sel l
          end
      end
  end.
(** A required output of which no file was listed. *)
Fixpoint output_absent (counts : list Z) (outputs : list Output) : bool :=
  match outputs, counts with
  | o :: outputs, n :: counts => ou_Required o && (n =? 0) || output_absent counts outputs
  | _, _ => false
  end.
Definition control_files : list (string * string * string * Z) :=
  [("control/stdout.log", "log", "text/plain", 20 * 2 ^ 20); ("control/stderr.log", "log", "text/plain", 20 * 2 ^ 20);
   ("control/environment.json", "provenance", "application/json", 2 ^ 20)].
Fixpoint add_controls (cfg : CollectionConfig) (w : CollectionWork) (byPath : catalog_map) (sel : selection)
    (l : list (string * string * string * Z)) : result error selection :=
  match l with
  | [] => Ok sel
  | (path, role, media, max) :: l =>
      match byPath !! path with
      | None => add_controls cfg w byPath sel l
      | Some a =>
          throw max <? af_Bytes a with failureAt CodeArtifactCollectionFailed false "artifact_byte_limit" ;;
          do sel <- add_file cfg w sel a role media ;;
          add_controls cfg w byPath sel l
      end
  end.
Definition path_le (a b : CollFile) : Prop := str_leb (fl_Path a) (fl_Path b) = true.
#[export] Instance path_le_dec : RelDecision path_le.
Proof. intros a b. unfold path_le. apply _. Defined.
(** The files selected from the listing for a manifest. *)
Definition select_files (cfg : CollectionConfig) (w : CollectionWork) (m : RunnerResult) (spec : Spec) (byPath : catalog_map) (control : Artifact) :
    result error (list CollFile) :=
  do sel <- add_file cfg w ([], 0) control "manifest" "application/json" ;;
  let zeros := map (fun _ => 0) (sc_Outputs spec) in
  do '(counts, sel) <- add_outputs cfg w spec byPath zeros zeros sel (rn_Artifacts m) ;;
  throw negb (collisionFree (map ra_Path (rn_Artifacts m))) with failureAt CodeArtifactCollectionFailed true "artifact_path_invalid" ;;
  throw (rn_Phase m ==? "completed") && output_absent counts (sc_Outputs spec) with failure CodeArtifactMissing false ;;
  do sel <- add_controls cfg w byPath sel control_files ;;
  Ok sel.1.
Definition by_path (catalog : list Artifact) : catalog_map := foldl (fun m a => <[af_Path a := a]> m) ∅ catalog.
Definition BuildSnapshot (w : CollectionWork) (raw : string) (catalog : list Artifact) (cfg : CollectionConfig) : result error CollSnapshot :=
  throw negb (CollectionConfig_Valid cfg) with collection_ErrInvalid ;;
  throw cg_MaxFiles cfg <? Z.of_nat (length catalog) with failureAt CodeArtifactCollectionFailed true "artifact_file_limit" ;;
  do '(m, spec) <- parseManifest w raw ;;
  throw existsb (fun a => not_nil (Artifact_Validate a (wk_Remote w))) catalog with failure CodeRemoteIdentityMismatch true ;;
  throw negb (collisionFree (map af_Path catalog)) with failureAt CodeArtifactCollectionFailed true "artifact_path_invalid" ;;
  match by_path catalog !! ManifestPath with
  | None => Err (failure CodeResultManifestMissing false)
  | Some control =>
      throw negb (af_Bytes control =? len raw) || (af_SHA256 control <>? Digest raw) with failure CodeArtifactDigestMismatch true ;;
      do files <- select_files cfg w m spec (by_path catalog) control ;;
      let s := mkCollSnapshot raw (merge_sort path_le files) in
      throw negb (SHA256Digest_Valid (CollSnapshot_Digest s)) with collection_ErrInvalid ;;
      Ok s
  end.
Definition artifact_of (w : CollectionWork) (f : CollFile) : Artifact :=
  mkArtifact (wk_Remote w) (fl_Path f) (om_Bytes (fl_Object f)) (om_SHA256 (fl_Object f)).
Definition ValidateSnapshot (w : CollectionWork) (s : CollSnapshot) : option error :=
  let n := Z.of_nat (length (sn_Files s)) in
  reject (n =? 0) || (MaxFiles <? n) || (MaxManifestBytes <? len (sn_Manifest s)) || negb (SHA256Digest_Valid (CollSnapshot_Digest s))
    with collection_ErrInvalid ;;
  reject existsb (fun f => negb (ObjectMetadata_Valid (fl_Object f)) || (om_WorkspaceID (fl_Object f) <>? cl_WorkspaceID (wk_Lease w))) (sn_Files s)
    with collection_ErrInvalid ;;
  match BuildSnapshot w (sn_Manifest s) (map (artifact_of w) (sn_Files s)) collection_DefaultConfig with
  | Err _ => Some collection_ErrInvalid
  | Ok rebuilt => reject CollSnapshot_Digest rebuilt <>? CollSnapshot_Digest s with collection_ErrInvalid ;; None
  end.
End Manifest.

(** ** The final state *)
Definition FinalState (s : AttemptState) (phase : string) : AttemptState * option error :=
  if negb (ExecutionState_Terminal (as_Execution s)) || OrchestrationState_Terminal (as_Orchestration s) || (as_Result s <>? ResultCollecting)
  then (s, Some collection_ErrInvalid)
  else
    let s := s <| as_Result := ResultAvailable |> <| as_Orchestration := OrchestrationNeedsAttention |> in
    let ordinaryCancel := (as_Cancellation s ==? CancellationNotRequested) || (as_Cancellation s ==? CancellationTooLate) in
    let s :=
      match as_Execution s with
      | ExecutionSucceeded =>
          if ordinaryCancel then
            s <| as_Orchestration := if phase ==? "completed" then OrchestrationSucceeded else OrchestrationFailed |>
          else s
      | ExecutionFailed => if ordinaryCancel then s <| as_Orchestration := OrchestrationFailed |> else s
      | ExecutionTimedOut =>
          if ordinaryCancel then s <| as_Orchestration := OrchestrationTimedOut |> <| as_DeadlineExceeded := true |> else s
      | ExecutionCancelled =>
          if as_Cancellation s ==? CancellationConfirmed then s <| as_Orchestration := OrchestrationCancelled |> else s
      | _ => s
      end in
    (s, AttemptState_Validate s).
