(* ===== verification/CollectionProps.v ===== *)
(** * Theorems on the collection of results

    Portable paths, the snapshot built from a manifest and a listing, and the
    final state of a collected attempt. *)

From S2P Require Import Prelude GoStrings GoTime GoSha256 GoJson JsonRead Identifiers Problems AttemptStates Attempts DomainRecords Provider ProviderResources Transfer Workers Admission ProviderProps Journal RunnerPlan Collection.
#[local] Open Scope string_scope.
#[local] Open Scope list_scope.
#[local] Open Scope Z_scope.
#[local] Open Scope bool_scope.

(** ** Directories of a path *)
Lemma dirs_of_spec d done l : d ∈ dirs_of done l <-> exists k, string_of (done ++ k) = d /\ exists rest, l = k ++ slash :: rest.
Proof.
  revert done. induction l as [|c l IH]; intros done; cbn [dirs_of].
  { split; [by intros ?%not_elem_of_nil|]. intros (k & _ & rest & H). by destruct k. }
  rewrite elem_of_app, IH. split.
  - intros [H|(k & <- & rest & ->)].
    + destruct (Ascii.eqb_spec c slash) as [->|]; [|by apply not_elem_of_nil in H]. apply list_elem_of_singleton in H as ->.
      exists []. rewrite app_nil_r. split; [done|]. by exists l.
    + exists (c :: k). rewrite <- app_assoc. split; [done|]. by exists rest.
  - intros ([|c' k] & <- & rest & H).
    + injection H as -> ->. left. rewrite Ascii.eqb_refl, app_nil_r. by left.
    + injection H as <- ->. right. exists k. rewrite <- app_assoc. split; [done|]. by exists rest.
Qed.
(** The parents of a name are the names it has as a directory. *)
Lemma parents_spec d n : d ∈ parents n <-> HasPrefix n (d +:+ "/") = true.
Proof.
  unfold parents, HasPrefix. rewrite dirs_of_spec, prefix_bytes. cbn [app]. split.
  - intros (k & <- & rest & H). exists rest. by rewrite bytes_of_app, bytes_of_string_of, H, <- app_assoc.
  - intros [k Hk]. rewrite bytes_of_app, <- app_assoc in Hk. exists (bytes_of d).
    split; [apply String.string_of_list_ascii_of_string|]. by exists k.
Qed.
Lemma split_parents_eq n : split_parents n = parents n.
Proof.
  assert (forall l (P : list (list ascii)) acc,
    dirs_of (join (P ++ [rev acc])) l =
    map (fun i => string_of (join (take i (P ++ split_on slash l acc)))) (seq (S (length P)) (length (split_on slash l acc) - 1))) as H.
  { induction l as [|c l IH]; intros P acc; [done|]. cbn [dirs_of split_on]. case_bool_decide as Hc.
    - subst c. rewrite Ascii.eqb_refl. destruct (split_on_cons slash l []) as (p & parts & Hp). cbn [length]. rewrite Nat.sub_1_r. cbn [pred app].
      rewrite Hp. cbn [length seq map]. f_equal.
      + replace (P ++ rev acc :: p :: parts) with ((P ++ [rev acc]) ++ p :: parts) by (by rewrite <- app_assoc).
        rewrite take_app_length'; [done|]. rewrite length_app. cbn. lia.
      + specialize (IH (P ++ [rev acc]) []). cbn [rev] in IH. rewrite join_app in IH by (destruct P; done). cbn [join] in IH. rewrite IH, Hp, length_app.
        rewrite <- app_assoc. cbn [length app]. by rewrite Nat.sub_1_r, Nat.add_1_r.
    - rewrite (proj2 (Ascii.eqb_neq _ _)) by done. cbn [app]. specialize (IH P (c :: acc)). cbn [rev] in IH. rewrite <- IH. f_equal.
      destruct P as [|x P]; [done|]. rewrite !join_app by done. cbn [join]. by rewrite <- app_assoc. }
  unfold split_parents, parents. specialize (H (bytes_of n) [] []). cbn [app rev join length] in H. rewrite H. clear H.
  unfold Split. rewrite length_map. apply map_ext. intros i. rewrite firstn_map.
  generalize (take i (split_on slash (bytes_of n) [])). intros parts. apply bytes_of_inj. rewrite bytes_of_string_of.
  induction parts as [|p [|q parts] IH]; cbn [map join_slash join]; [done|apply bytes_of_string_of|].
  rewrite !bytes_of_app, bytes_of_string_of. cbn [map join_slash] in IH. by rewrite IH.
Qed.

(** ** Portable sets of paths

    Without regard to case, no path occurs twice and none is a directory of
    another. *)
Definition below (a b : string) : Prop := HasPrefix b (a +:+ "/") = true.
Definition disjoint_names (names : list string) : Prop := NoDup names /\ forall a b, a ∈ names -> b ∈ names -> ~ below a b.
Lemma below_lt a b : below a b -> str_lt a b.
Proof.
  unfold below, HasPrefix, str_lt, str_ltb. rewrite prefix_bytes, bytes_of_app. intros [k Hk]. revert b Hk.
  induction a as [|c a IH]; intros b Hk.
  - by destruct b as [|d b].
  - destruct b as [|d b]; [done|]. injection Hk as -> Hk. specialize (IH b Hk). revert IH. unfold String.ltb. cbn [String.compare].
    unfold Ascii.compare. by rewrite N.compare_refl.
Qed.
Lemma names_apart_spec dirs seen l :
  (forall d n, d ∈ dirs n <-> below d n) -> Sorted name_le l ->
  names_apart dirs seen l = true <->
    NoDup l /\ (forall a b, a ∈ l -> b ∈ l -> ~ below a b) /\ (forall a b, a ∈ seen -> b ∈ l -> a <> b /\ ~ below a b).
Proof.
  intros Hd Hs. apply Sorted_StronglySorted in Hs; [|intros a b c; apply str_leb_trans]. revert seen.
  induction Hs as [|n l Hs IH Hn]; intros seen; cbn [names_apart].
  { split; [|done]. intros _. split; [constructor|]. split; intros a b H1 H2; by apply not_elem_of_nil in H2. }
  assert (forall a, a ∈ l -> ~ below a n) as Hback.
  { intros a Ha Hb%below_lt. rewrite Forall_forall in Hn. specialize (Hn a Ha). unfold name_le in Hn.
    unfold str_lt in Hb. by rewrite str_ltb_leb, Hn in Hb. }
  assert (~ below n n) as Hself by (intros H%below_lt; by apply (irreflexivity str_lt) in H).
  case_bool_decide as E1; [split; [done|]; intros (_ & _ & H); by destruct (H n n E1 (list_elem_of_here _ _))|].
  destruct (existsb _ _) eqn:E2.
  - split; [done|]. intros (_ & _ & H). apply existsb_exists in E2 as (d & Hp & Hd'). apply list_elem_of_In, Hd in Hp. bool_to_prop.
    by destruct (H d n Hd' (list_elem_of_here _ _)).
  - assert (forall a, a ∈ seen -> ~ below a n) as Hseen.
    { intros a Ha Hb. apply not_true_iff_false in E2. apply E2, existsb_exists. exists a. split; [by apply list_elem_of_In, Hd|by apply bool_decide_eq_true_2]. }
    rewrite IH, NoDup_cons. split.
    + intros (H1 & H2 & H3). split; [split; [|done]|split].
      * intros Hin. by destruct (H3 n n (list_elem_of_here _ _) Hin).
      * intros a b [->|Ha]%elem_of_cons [->|Hb]%elem_of_cons; [done| |by apply Hback|by apply H2]. apply H3; [by left|done].
      * intros a b Ha [->|Hb]%elem_of_cons; [split; [by intros ->|by apply Hseen]|]. apply H3; [by right|done].
    + intros ([H1 H1'] & H2 & H3). split; [done|]. split; [intros a b Ha Hb; apply H2; by right|].
      intros a b [->|Ha]%elem_of_cons Hb; [split; [by intros ->|apply H2; [by left|by right]]|]. apply H3; [done|by right].
Qed.
#[export] Instance name_le_trans : Transitive name_le.
Proof. intros a b c. apply str_leb_trans. Qed.
#[export] Instance name_le_total : Total name_le.
Proof. intros a b. apply String.leb_total. Qed.
Definition path_ok (p : string) : Prop := SafeArtifactPath p = true /\ printable p = true.
Lemma paths_checked paths :
  existsb (fun p => negb (SafeArtifactPath p) || negb (printable p)) paths = false <-> Forall path_ok paths.
Proof.
  rewrite <- not_true_iff_false, existsb_exists, Forall_forall. unfold path_ok. split.
  - intros H p Hp. destruct (SafeArtifactPath p) eqn:E1, (printable p) eqn:E2; try done; destruct H; exists p; rewrite E1, E2; by split; [apply list_elem_of_In|].
  - intros H (p & Hp%list_elem_of_In & E). destruct (H p Hp) as [E1 E2]. by rewrite E1, E2 in E.
Qed.
Lemma apart_sorted names :
  NoDup (merge_sort name_le names) /\ (forall a b, a ∈ merge_sort name_le names -> b ∈ merge_sort name_le names -> ~ below a b) <-> disjoint_names names.
Proof. unfold disjoint_names. by setoid_rewrite (merge_sort_Permutation name_le names). Qed.

Lemma checked_apart dirs paths :
  (forall d n, d ∈ dirs n <-> below d n) ->
  (if existsb (fun p => negb (SafeArtifactPath p) || negb (printable p)) paths then false
   else names_apart dirs [] (merge_sort name_le (map ToLower paths))) = true <-> Forall path_ok paths /\ disjoint_names (map ToLower paths).
Proof.
  intros Hd. destruct (existsb _ _) eqn:E.
  - split; [done|]. intros [Hp _]. apply paths_checked in Hp. congruence.
  - rewrite names_apart_spec; [|done|apply Sorted_merge_sort, _]. apply paths_checked in E. rewrite <- apart_sorted.
    split; [tauto|]. intros (_ & H1 & H2). split; [done|]. split; [done|]. intros a b Ha. by apply not_elem_of_nil in Ha.
Qed.
Lemma collisionFree_apart paths : collisionFree paths = true <-> Forall path_ok paths /\ disjoint_names (map ToLower paths).
Proof. apply checked_apart. intros d n. apply parents_spec. Qed.
(** The one-pass check of a sorted list of names accepts a list
    of paths exactly when every path is safe and printable, and, without
    regard to case, no two are equal and none is a directory of another; the
    check of a manifest's artifacts, which looks at joined parts instead of
    prefixes, accepts the same lists. *)
Theorem collision_free paths :
  (collisionFree paths = true <-> Forall path_ok paths /\ disjoint_names (map ToLower paths)) /\ artifact_paths_ok paths = collisionFree paths.
Proof.
  split; [apply collisionFree_apart|]. apply eq_true_iff_eq. rewrite collisionFree_apart. apply checked_apart.
  intros d n. rewrite split_parents_eq. apply parents_spec.
Qed.

(** ** Selecting files *)
(** A configuration that allows at least as much. *)
Definition allows_more (cfg cfg' : CollectionConfig) : Prop := cg_MaxBytes cfg <= cg_MaxBytes cfg' /\ cg_MaxFiles cfg <= cg_MaxFiles cfg'.
(** What a selection has cost so far. *)
Definition files_bytes (l : list CollFile) : Z := foldr (fun f n => om_Bytes (fl_Object f) + n) 0 l.
Lemma files_bytes_app l l' : files_bytes (l ++ l') = files_bytes l + files_bytes l'.
Proof. induction l as [|f l IH]; [done|]. change (om_Bytes (fl_Object f) + files_bytes (l ++ l') = om_Bytes (fl_Object f) + files_bytes l + files_bytes l'). lia. Qed.
Definition within (cfg : CollectionConfig) (sel : selection) : Prop :=
  sel.2 = files_bytes sel.1 /\ sel.2 <= cg_MaxBytes cfg /\ Z.of_nat (length sel.1) <= cg_MaxFiles cfg.
Lemma add_file_ok cfg w sel a role media sel' :
  add_file cfg w sel a role media = Ok sel' ->
  sel' = (sel.1 ++ [file_of w a role media], sel.2 + af_Bytes a) /\ sel.2 + af_Bytes a <= cg_MaxBytes cfg /\ Z.of_nat (length sel.1) < cg_MaxFiles cfg.
Proof.
  unfold add_file. destruct (Z.ltb_spec (cg_MaxBytes cfg - sel.2) (af_Bytes a)); [done|].
  destruct (Z.leb_spec (cg_MaxFiles cfg) (Z.of_nat (length sel.1))); [done|]. intros [= <-]. split; [done|lia].
Qed.
Lemma add_file_within cfg w sel a role media sel' : add_file cfg w sel a role media = Ok sel' -> within cfg sel -> within cfg sel'.
Proof.
  intros (-> & H1 & H2)%add_file_ok (Hs & _ & _). split_and!; cbn [fst snd].
  - rewrite files_bytes_app. cbn. lia.
  - done.
  - rewrite length_app. cbn. lia.
Qed.
Lemma add_file_mono cfg cfg' w sel a role media sel' :
  allows_more cfg cfg' -> add_file cfg w sel a role media = Ok sel' -> add_file cfg' w sel a role media = Ok sel'.
Proof.
  intros [Hb Hf] (-> & H1 & H2)%add_file_ok. unfold add_file. rewrite (proj2 (Z.ltb_ge _ _)) by lia. by rewrite (proj2 (Z.leb_gt _ _)) by lia.
Qed.

(** The artifact of the listing that a manifest entry names. *)
Definition names_artifact (byPath : catalog_map) (outputs : list Output) (a : ResultArtifact) (x : Artifact) : Prop :=
  byPath !! ("outputs/" +:+ ra_Path a) = Some x /\ af_Bytes x = ra_Bytes a /\ af_SHA256 x = ra_SHA256 a /\
  Exists (fun o => declares o (ra_Path a) = true) outputs.
Definition output_file (w : CollectionWork) (a : ResultArtifact) (x : Artifact) : CollFile := file_of w x "output" (ra_MediaType a).
Lemma matching_output_ok i outputs path j o :
  matching_output i outputs path = Some (j, o) -> (i <= j)%nat /\ outputs !! (j - i)%nat = Some o /\ declares o path = true.
Proof.
  revert i. induction outputs as [|o' outputs IH]; intros i; cbn [matching_output]; [done|]. destruct (declares o' path) eqn:E.
  - intros [= <- <-]. rewrite Nat.sub_diag. done.
  - intros (H1 & H2 & H3)%IH. split; [lia|]. split; [|done]. replace (j - i)%nat with (S (j - S i)) by lia. done.
Qed.
Lemma add_outputs_ok cfg w spec byPath sizes counts sel l counts' sel' :
  add_outputs cfg w spec byPath sizes counts sel l = Ok (counts', sel') ->
  (within cfg sel -> within cfg sel') /\
  exists xs, Forall2 (names_artifact byPath (sc_Outputs spec)) l xs /\ sel'.1 = sel.1 ++ zip_with (output_file w) l xs.
Proof.
  revert sizes counts sel. induction l as [|a l IH]; intros sizes counts sel; cbn [add_outputs].
  { intros [= <- <-]. split; [done|]. exists []. split; [constructor|]. by rewrite app_nil_r. }
  destruct (matching_output _ _ _) as [[i o]|] eqn:Em; [|done]. cbv zeta. destruct (_ && _); [done|].
  destruct (byPath !! _) as [x|] eqn:Ex; [|done]. destruct (_ || _) eqn:Ed; [done|]. bool_to_prop.
  destruct (add_file _ _ _ _ _ _) as [sel1|e] eqn:Ea; [|done]. cbn. intros (Hw & xs & Hf & Hs)%IH.
  split; [intros Hw0; by apply Hw, (add_file_within _ _ _ _ _ _ _ Ea)|]. apply add_file_ok in Ea as (-> & _). exists (x :: xs).
  split.
  - constructor; [|done]. apply matching_output_ok in Em as (_ & Ho & Hd). split_and!; [done|lia|done|]. apply Exists_exists. exists o. split; [|done].
    by eapply list_elem_of_lookup_2.
  - rewrite Hs. cbn [fst zip_with]. by rewrite <- app_assoc.
Qed.
Lemma add_outputs_mono cfg cfg' w spec byPath byPath' sizes counts sel l r :
  allows_more cfg cfg' -> (forall a, a ∈ l -> byPath' !! ("outputs/" +:+ ra_Path a) = byPath !! ("outputs/" +:+ ra_Path a)) ->
  add_outputs cfg w spec byPath sizes counts sel l = Ok r -> add_outputs cfg' w spec byPath' sizes counts sel l = Ok r.
Proof.
  intros Hc. revert sizes counts sel. induction l as [|a l IH]; intros sizes counts sel Hp; cbn [add_outputs]; [done|].
  destruct (matching_output _ _ _) as [[i o]|]; [|done]. cbv zeta. destruct (_ && _); [done|]. rewrite (Hp a) by left.
  destruct (byPath !! _) as [x|]; [|done]. destruct (_ || _); [done|].
  destruct (add_file cfg w sel x "output" (ra_MediaType a)) as [sel1|e] eqn:Ea; [|done]. rewrite (add_file_mono _ _ _ _ _ _ _ _ Hc Ea). cbn.
  apply IH. intros b Hb. apply Hp. by right.
Qed.
Lemma add_outputs_counts cfg w spec byPath sizes counts sel l counts' sel' i :
  add_outputs cfg w spec byPath sizes counts sel l = Ok (counts', sel') ->
  length counts' = length counts /\
  (counts' !! i = counts !! i \/ exists a o, a ∈ l /\ sc_Outputs spec !! i = Some o /\ declares o (ra_Path a) = true).
Proof.
  revert sizes counts sel. induction l as [|a l IH]; intros sizes counts sel; cbn [add_outputs]; [intros [= <- <-]; auto|].
  destruct (matching_output _ _ _) as [[j o]|] eqn:Em; [|done]. cbv zeta. destruct (_ && _); [done|].
  destruct (byPath !! _) as [x|]; [|done]. destruct (_ || _); [done|]. destruct (add_file _ _ _ _ _ _); [|done]. cbn.
  intros (Hl & H)%IH. rewrite length_insert in Hl. split; [done|]. apply matching_output_ok in Em as (_ & Ho & Hd). rewrite Nat.sub_0_r in Ho.
  destruct H as [H|(b & o' & Hb & H)]; [|right; exists b, o'; split; [by right|done]].
  destruct (decide (i = j)) as [->|Hne]; [right; exists a, o; split; [left|done]|].
  left. by rewrite H, list_lookup_insert_ne.
Qed.
Lemma output_absent_ok counts outputs :
  length counts = length outputs -> output_absent counts outputs = false ->
  forall i o, outputs !! i = Some o -> ou_Required o = true -> counts !! i <> Some 0.
Proof.
  revert counts. induction outputs as [|o' outputs IH]; intros [|n counts]; cbn; try done.
  intros Hl H [|i] o Ho Hr; rewrite orb_false_iff in H; destruct H as [H1 H2].
  - injection Ho as ->. rewrite Hr in H1. cbn in H1. intros [= ->]. done.
  - apply (IH counts) with (o := o); try done. by injection Hl.
Qed.

Definition control_path (c : string * string * string * Z) : string := c.1.1.1.
Definition control_file (w : CollectionWork) (c : string * string * string * Z) (x : Artifact) : CollFile := file_of w x c.1.1.2 c.1.2.
Lemma add_controls_ok cfg w byPath sel l sel' :
  add_controls cfg w byPath sel l = Ok sel' ->
  (within cfg sel -> within cfg sel') /\
  exists cs xs, cs `sublist_of` l /\ Forall2 (fun c x => byPath !! control_path c = Some x) cs xs /\
    (forall c, c ∈ l -> c ∈ cs \/ byPath !! control_path c = None) /\ sel'.1 = sel.1 ++ zip_with (control_file w) cs xs.
Proof.
  revert sel. induction l as [|[[[path role] media] max] l IH]; intros sel; cbn [add_controls].
  { intros [= <-]. split; [done|]. exists [], []. split; [constructor|]. split; [constructor|]. split; [by intros c ?%not_elem_of_nil|]. by rewrite app_nil_r. }
  destruct (byPath !! path) as [x|] eqn:Ex.
  - destruct (_ <? _); [done|]. destruct (add_file _ _ _ _ _ _) as [sel1|e] eqn:Ea; [|done]. cbn. intros (Hw & cs & xs & Hs & Hf & Hn & He)%IH.
    split; [intros H; by apply Hw, (add_file_within _ _ _ _ _ _ _ Ea)|]. apply add_file_ok in Ea as (-> & _).
    exists ((path, role, media, max) :: cs), (x :: xs). split; [by constructor|]. split; [by constructor|]. split.
    + intros c [->|Hc]%elem_of_cons; [left; left|]. destruct (Hn c Hc); [left; by right|by right].
    + rewrite He. cbn [fst zip_with]. by rewrite <- app_assoc.
  - intros (Hw & cs & xs & Hs & Hf & Hn & He)%IH. split; [done|]. exists cs, xs. split; [by constructor|]. split; [done|]. split; [|done].
    intros c [->|Hc]%elem_of_cons; [by right|by apply Hn].
Qed.
Lemma add_controls_mono cfg cfg' w byPath byPath' sel l sel' :
  allows_more cfg cfg' -> (forall c, c ∈ l -> byPath' !! control_path c = byPath !! control_path c) ->
  add_controls cfg w byPath sel l = Ok sel' -> add_controls cfg' w byPath' sel l = Ok sel'.
Proof.
  intros Hc. revert sel. induction l as [|[[[path role] media] max] l IH]; intros sel Hp; cbn [add_controls]; [done|].
  pose proof (Hp _ (list_elem_of_here _ _)) as Hp0. cbn in Hp0. rewrite Hp0.
  assert (forall c, c ∈ l -> byPath' !! control_path c = byPath !! control_path c) as Hp' by (intros c ?; apply Hp; by right).
  destruct (byPath !! path) as [x|]; [|by apply IH]. destruct (_ <? _); [done|].
  destruct (add_file cfg w sel x role media) as [sel1|e] eqn:Ea; [|done]. rewrite (add_file_mono _ _ _ _ _ _ _ _ Hc Ea). cbn. by apply IH.
Qed.

(** The selected files: the manifest, its outputs, and the control files the
    listing has, each made from an artifact of the listing. *)
Record selected (cfg : CollectionConfig) (w : CollectionWork) (m : RunnerResult) (spec : Spec) (byPath : catalog_map) (control : Artifact)
    (files : list CollFile) : Prop := mkSelected {
  sd_bytes : files_bytes files <= cg_MaxBytes cfg;
  sd_count : Z.of_nat (length files) <= cg_MaxFiles cfg;
  sd_paths : collisionFree (map ra_Path (rn_Artifacts m)) = true;
  sd_required : rn_Phase m = "completed" -> forall o, o ∈ sc_Outputs spec -> ou_Required o = true ->
    exists a, a ∈ rn_Artifacts m /\ declares o (ra_Path a) = true;
  sd_files : exists xs cs ys,
    Forall2 (names_artifact byPath (sc_Outputs spec)) (rn_Artifacts m) xs /\ cs `sublist_of` control_files /\
    Forall2 (fun c x => byPath !! control_path c = Some x) cs ys /\
    (forall c, c ∈ control_files -> c ∈ cs \/ byPath !! control_path c = None) /\
    files = file_of w control "manifest" "application/json" :: zip_with (output_file w) (rn_Artifacts m) xs ++ zip_with (control_file w) cs ys }.
Lemma select_files_ok cfg w m spec byPath control files :
  0 <= cg_MaxBytes cfg -> 0 <= cg_MaxFiles cfg -> select_files cfg w m spec byPath control = Ok files -> selected cfg w m spec byPath control files.
Proof.
  intros Hb Hm. unfold select_files. destruct (add_file _ _ _ _ _ _) as [sel0|e] eqn:E0; [|done]. cbn [result_bind].
  assert (within cfg sel0) as Hw0 by (eapply add_file_within; [exact E0|by split_and!]). apply add_file_ok in E0 as (-> & _). cbn [fst snd app].
  destruct (add_outputs _ _ _ _ _ _ _ _) as [[counts sel1]|e] eqn:E1; [|done]. cbn [result_bind]. destruct (negb _) eqn:Ec; [done|].
  destruct (_ && _) eqn:Er; [done|]. destruct (add_controls _ _ _ _ _) as [sel2|e] eqn:E2; [|done]. cbn [result_bind]. intros [= <-].
  pose proof (add_outputs_counts _ _ _ _ _ _ _ _ _ _ 0%nat E1) as [Hlen _]. rewrite length_map in Hlen.
  assert (forall i, _) as Hcounts by exact (fun i => proj2 (add_outputs_counts cfg w spec byPath _ _ _ _ counts sel1 i E1)).
  apply add_outputs_ok in E1 as (Hw1 & xs & Hxs & Hs1). apply add_controls_ok in E2 as (Hw2 & cs & ys & Hcs & Hys & Hn & Hs2).
  destruct (Hw2 (Hw1 Hw0)) as (Hs & Hsb & Hsf). split.
  - congruence.
  - done.
  - by apply negb_false_iff.
  - intros Hp o Ho Hr. rewrite Hp, bool_decide_eq_true_2 in Er by done. cbn [andb] in Er. apply list_elem_of_lookup_1 in Ho as [i Hi].
    pose proof (output_absent_ok _ _ Hlen Er i o Hi Hr) as Hne. destruct (Hcounts i) as [He|(a & o' & Ha & Ho & Hd)].
    + destruct Hne. rewrite He, list_lookup_fmap. by rewrite Hi.
    + exists a. split; [done|]. by replace o with o' by congruence.
  - exists xs, cs, ys. split_and!; try done. rewrite Hs2, Hs1. cbn. done.
Qed.
Lemma select_files_mono cfg cfg' w m spec byPath byPath' control files :
  allows_more cfg cfg' ->
  (forall a, a ∈ rn_Artifacts m -> byPath' !! ("outputs/" +:+ ra_Path a) = byPath !! ("outputs/" +:+ ra_Path a)) ->
  (forall c, c ∈ control_files -> byPath' !! control_path c = byPath !! control_path c) ->
  select_files cfg w m spec byPath control = Ok files -> select_files cfg' w m spec byPath' control = Ok files.
Proof.
  intros Hc Ho Hk. unfold select_files. destruct (add_file cfg _ _ _ _ _) as [sel0|e] eqn:E0; [|done].
  rewrite (add_file_mono _ _ _ _ _ _ _ _ Hc E0). cbn [result_bind]. cbv zeta. destruct (add_outputs cfg _ _ _ _ _ _ _) as [[counts sel1]|e] eqn:E1; [|done].
  rewrite (add_outputs_mono _ _ _ _ _ _ _ _ _ _ _ Hc Ho E1). cbn [result_bind]. destruct (negb _); [done|]. destruct (_ && _); [done|].
  destruct (add_controls cfg _ _ _ _) as [sel2|e] eqn:E2; [|done]. by rewrite (add_controls_mono _ _ _ _ _ _ _ _ Hc Hk E2).
Qed.

(** ** The listing by path *)
Lemma by_path_lookup catalog p x :
  NoDup (map af_Path catalog) -> by_path catalog !! p = Some x <-> x ∈ catalog /\ af_Path x = p.
Proof.
  unfold by_path. assert (forall l (m0 : catalog_map), NoDup (map af_Path l) ->
    foldl (fun m a => <[af_Path a := a]> m) m0 l !! p = Some x <-> x ∈ l /\ af_Path x = p \/ p ∉ map af_Path l /\ m0 !! p = Some x) as H.
  { induction l as [|a l IH]; intros m0 Hn; cbn [foldl map].
    - split; [intros H; right; split; [apply not_elem_of_nil|done]|]. intros [[H _]|[_ H]]; [by apply not_elem_of_nil in H|done].
    - apply NoDup_cons in Hn as [Ha Hn]. rewrite IH by done. rewrite elem_of_cons, not_elem_of_cons.
      destruct (decide (af_Path a = p)) as [<-|Hne].
      + rewrite lookup_insert_eq. split.
        * intros [[Hx Hp]|[_ [= <-]]]; [left; by split; [right|]|]. left. by split; [left|].
        * intros [[[->|Hx] Hp]|[[H _] _]]; [by right|by left|done].
      + rewrite lookup_insert_ne by done. split; [intros [[Hx Hp]|[H1 H2]]|intros [[[->|Hx] Hp]|[[H1 H1'] H2]]]; try done; auto. }
  intros Hn. rewrite H by done. rewrite lookup_empty. naive_solver.
Qed.
Lemma collisionFree_NoDup paths : collisionFree paths = true -> NoDup paths.
Proof. intros [_ [H _]]%collisionFree_apart. by eapply NoDup_fmap_1. Qed.
(** A selection from a portable set of paths is portable. *)
Lemma collisionFree_sub paths paths' :
  collisionFree paths = true -> NoDup paths' -> (forall p, p ∈ paths' -> p ∈ paths) -> collisionFree paths' = true.
Proof.
  rewrite !collisionFree_apart. intros (Hok & Hn & Hb) Hn' Hs. split; [|split].
  - rewrite Forall_forall in *. auto.
  - apply NoDup_fmap_2_strong; [|done]. intros a b Ha Hb' He. apply Hs, list_elem_of_lookup_1 in Ha as [i Hi]. apply Hs, list_elem_of_lookup_1 in Hb' as [j Hj].
    assert (i = j) as ->; [|congruence]. apply (NoDup_lookup _ i j (ToLower a) Hn); rewrite list_lookup_fmap; [by rewrite Hi|by rewrite Hj, He].
  - intros a b (a' & -> & Ha)%list_elem_of_fmap (b' & -> & Hb')%list_elem_of_fmap. apply Hb; apply list_elem_of_fmap_2; auto.
Qed.

(** ** Built snapshots *)
Section Snapshots.
Context (schema : jvalue -> bool).
Record built_from (w : CollectionWork) (raw : string) (catalog : list Artifact) (cfg : CollectionConfig) (s : CollSnapshot)
    (m : RunnerResult) (spec : Spec) (control : Artifact) (files : list CollFile) : Prop := mkBuilt {
  bt_config : CollectionConfig_Valid cfg = true;
  bt_parsed : parseManifest schema w raw = Ok (m, spec);
  bt_valid : Forall (fun a => Artifact_Validate a (wk_Remote w) = None) catalog;
  bt_portable : collisionFree (map af_Path catalog) = true;
  bt_control : by_path catalog !! ManifestPath = Some control;
  bt_digest : af_Bytes control = len raw /\ af_SHA256 control = Digest raw;
  bt_files : select_files cfg w m spec (by_path catalog) control = Ok files;
  bt_snapshot : s = mkCollSnapshot raw (merge_sort path_le files);
  bt_stamp : SHA256Digest_Valid (CollSnapshot_Digest s) = true }.
Lemma BuildSnapshot_ok w raw catalog cfg s :
  BuildSnapshot schema w raw catalog cfg = Ok s -> exists m spec control files, built_from w raw catalog cfg s m spec control files.
Proof.
  unfold BuildSnapshot. destruct (CollectionConfig_Valid cfg) eqn:Ec; [|done]. cbn [negb]. destruct (_ <? _); [done|].
  destruct (parseManifest schema w raw) as [[m spec]|e] eqn:Em; [|done]. cbn [result_bind]. destruct (existsb _ _) eqn:Ev; [done|].
  destruct (collisionFree (map af_Path catalog)) eqn:Ep; [|done]. cbn [negb]. destruct (by_path catalog !! ManifestPath) as [control|] eqn:Ek; [|done].
  destruct (_ || _) eqn:Ed; [done|]. destruct (select_files _ _ _ _ _ _) as [files|e] eqn:Es; [|done]. cbn [result_bind]. cbv zeta.
  destruct (SHA256Digest_Valid _) eqn:Eg; [|done]. cbn [negb]. intros [= <-]. exists m, spec, control, files.
  rewrite orb_false_iff, !negb_false_iff, Z.eqb_eq, bool_decide_eq_true in Ed. split; try done.
  apply Forall_forall. intros a Ha. destruct (Artifact_Validate a (wk_Remote w)) eqn:E; [|done]. exfalso.
  apply not_true_iff_false in Ev. apply Ev, existsb_exists. exists a. split; [by apply list_elem_of_In|]. by rewrite E.
Qed.
Lemma BuildSnapshot_built w raw catalog cfg s m spec control files :
  built_from w raw catalog cfg s m spec control files -> Z.of_nat (length catalog) <= cg_MaxFiles cfg -> BuildSnapshot schema w raw catalog cfg = Ok s.
Proof.
  intros [Hc Hm Hv Hp Hk [Hb Hd] Hs -> Hg] Hn. unfold BuildSnapshot. rewrite Hc, (proj2 (Z.ltb_ge _ _)) by lia. cbn [negb]. rewrite Hm. cbn [result_bind].
  assert (existsb (fun a => not_nil (Artifact_Validate a (wk_Remote w))) catalog = false) as ->.
  { apply not_true_iff_false. intros (a & Ha%list_elem_of_In & E)%existsb_exists. rewrite Forall_forall in Hv. by rewrite (Hv a Ha) in E. }
  rewrite Hp. cbn [negb]. rewrite Hk, Hb, Hd, Z.eqb_refl, bool_decide_eq_true_2 by done. cbn [negb orb]. rewrite Hs. cbn [result_bind]. by rewrite Hg.
Qed.
Lemma valid_remote a remote : Artifact_Validate a remote = None -> af_Remote a = remote /\ 0 <= af_Bytes a /\ SHA256Digest_Valid (af_SHA256 a) = true.
Proof.
  unfold Artifact_Validate. destruct (RemoteReference_Validate remote); [done|]. destruct (_ <>? _) eqn:E; [done|].
  destruct (_ || _) eqn:E2; [done|]. intros _. bool_to_prop. split_and!; [done|lia|done].
Qed.
Lemma artifact_of_file w x role media : af_Remote x = wk_Remote w -> artifact_of w (file_of w x role media) = x.
Proof. intros H. unfold artifact_of. rewrite <- H. by destruct x. Qed.
Lemma zip_paths {A} (f : A -> Artifact -> CollFile) (p : A -> string) l xs :
  Forall2 (fun a x => fl_Path (f a x) = p a) l xs -> map fl_Path (zip_with f l xs) = map p l.
Proof. induction 1 as [|a x l xs H _ IH]; cbn; [done|]. by rewrite H, IH. Qed.

Section Built.
Context {w : CollectionWork} {raw : string} {catalog : list Artifact} {cfg : CollectionConfig} {s : CollSnapshot} {m : RunnerResult} {spec : Spec}
  {control : Artifact} {files : list CollFile} (B : built_from w raw catalog cfg s m spec control files).
Lemma built_NoDup : NoDup (map af_Path catalog).
Proof. apply collisionFree_NoDup, B. Qed.
Lemma built_lookup p x : by_path catalog !! p = Some x <-> x ∈ catalog /\ af_Path x = p.
Proof. apply by_path_lookup, built_NoDup. Qed.
Lemma built_selected : selected cfg w m spec (by_path catalog) control files.
Proof.
  pose proof (bt_config _ _ _ _ _ _ _ _ _ B) as Hc. unfold CollectionConfig_Valid in Hc. rewrite !andb_true_iff in Hc.
  apply select_files_ok; [lia|lia|apply B].
Qed.
(** Every selected file is an artifact of the listing. *)
Lemma built_listed : Forall (fun f => exists x role media, x ∈ catalog /\ af_Remote x = wk_Remote w /\ f = file_of w x role media) files.
Proof.
  assert (forall x, x ∈ catalog -> af_Remote x = wk_Remote w) as Hr.
  { intros x Hx. pose proof (bt_valid _ _ _ _ _ _ _ _ _ B) as Hv. rewrite Forall_forall in Hv. apply (valid_remote x), Hv, Hx. }
  destruct (sd_files _ _ _ _ _ _ _ built_selected) as (xs & cs & ys & Hxs & _ & Hys & _ & Heq). rewrite Heq. constructor; [|apply Forall_app; split].
  - pose proof (bt_control _ _ _ _ _ _ _ _ _ B) as [Hx _]%built_lookup. exists control, "manifest", "application/json". auto.
  - clear Heq. induction Hxs as [|a x l xs (Hx & _) _ IH]; cbn; constructor; [|done]. apply built_lookup in Hx as [Hx _]. exists x, "output", (ra_MediaType a). auto.
  - clear Heq. induction Hys as [|c x l ys Hx _ IH]; cbn; constructor; [|done]. apply built_lookup in Hx as [Hx _]. exists x, c.1.1.2, c.1.2. auto.
Qed.
Lemma built_paths : exists cs, cs `sublist_of` control_files /\
  map fl_Path files = ManifestPath :: map (fun a => "outputs/" +:+ ra_Path a) (rn_Artifacts m) ++ map control_path cs.
Proof.
  destruct (sd_files _ _ _ _ _ _ _ built_selected) as (xs & cs & ys & Hxs & Hcs & Hys & _ & Heq). rewrite Heq. exists cs. split; [done|].
  cbn [map]. rewrite map_app. f_equal; [|f_equal].
  - pose proof (bt_control _ _ _ _ _ _ _ _ _ B) as [_ Hp]%built_lookup. exact Hp.
  - apply zip_paths. eapply Forall2_impl; [exact Hxs|]. intros a x (Hx & _). by apply built_lookup in Hx as [_ ?].
  - apply zip_paths. eapply Forall2_impl; [exact Hys|]. intros c x Hx. by apply built_lookup in Hx as [_ ?].
Qed.
Lemma built_distinct : NoDup (map fl_Path files).
Proof.
  destruct built_paths as (cs & Hcs & ->).
  assert (NoDup (map (fun a => "outputs/" +:+ ra_Path a) (rn_Artifacts m))) as Ho.
  { replace (map (fun a => "outputs/" +:+ ra_Path a) (rn_Artifacts m)) with (map (String.append "outputs/") (map ra_Path (rn_Artifacts m))) by apply map_map.
    apply NoDup_fmap_2; [intros a b H; by injection H|]. apply collisionFree_NoDup, (sd_paths _ _ _ _ _ _ _ built_selected). }
  assert (NoDup (ManifestPath :: map control_path control_files)) as Hk by (apply (bool_decide_unpack _); vm_compute; exact I).
  apply NoDup_cons in Hk as [Hm Hk]. assert (map control_path cs `sublist_of` map control_path control_files) as Hs by by apply fmap_sublist.
  assert (forall p, p ∈ map control_path control_files -> HasPrefix p "outputs/" = false) as Hc.
  { intros p Hp. assert (Forall (fun p => HasPrefix p "outputs/" = false) (map control_path control_files)) as HF by (repeat constructor).
    rewrite Forall_forall in HF. auto. }
  assert (forall a, HasPrefix ("outputs/" +:+ ra_Path a) "outputs/" = true) as Hout by (intros a; unfold HasPrefix; cbn; by destruct (ra_Path a)).
  apply NoDup_cons. split.
  - rewrite elem_of_app. intros [(a & Ha & _)%list_elem_of_fmap|H]; [|by apply Hm; eapply elem_of_sublist].
    specialize (Hout a). by rewrite <- Ha in Hout.
  - apply NoDup_app. split; [done|]. split; [|by eapply sublist_NoDup].
    intros p (a & -> & _)%list_elem_of_fmap H. specialize (Hc ("outputs/" +:+ ra_Path a)). rewrite Hout in Hc. by assert (true = false) by (apply Hc; by eapply elem_of_sublist).
Qed.
(** The catalog of a built snapshot's own files. *)
Definition own_catalog : list Artifact := map (artifact_of w) (merge_sort path_le files).
Lemma own_listed x : x ∈ own_catalog <-> exists f, f ∈ files /\ artifact_of w f = x.
Proof.
  unfold own_catalog. rewrite list_elem_of_fmap. setoid_rewrite (merge_sort_Permutation path_le files). naive_solver.
Qed.
Lemma own_catalog_sub x : x ∈ own_catalog -> x ∈ catalog.
Proof.
  intros (f & Hf & <-)%own_listed. pose proof built_listed as HL. rewrite Forall_forall in HL.
  destruct (HL f Hf) as (x & role & media & Hx & Hr & ->). by rewrite artifact_of_file.
Qed.
Lemma own_paths : map af_Path own_catalog ≡ₚ map fl_Path files.
Proof. unfold own_catalog. rewrite map_map. change (map (fun f => af_Path (artifact_of w f))) with (map fl_Path). by rewrite (merge_sort_Permutation path_le files). Qed.
Lemma own_NoDup : NoDup (map af_Path own_catalog).
Proof. rewrite own_paths. apply built_distinct. Qed.
(** A selected path is found in the own catalog as it was in the listing. *)
Lemma own_lookup p : p ∈ map fl_Path files -> by_path own_catalog !! p = by_path catalog !! p.
Proof.
  intros Hp. rewrite <- own_paths in Hp. apply list_elem_of_fmap in Hp as (x & -> & Hx).
  rewrite (proj2 (by_path_lookup own_catalog (af_Path x) x own_NoDup)) by done. symmetry.
  apply built_lookup. split; [|done]. by apply own_catalog_sub.
Qed.
Lemma own_missing p : by_path catalog !! p = None -> by_path own_catalog !! p = None.
Proof.
  intros Hp. destruct (by_path own_catalog !! p) as [x|] eqn:E; [|done]. apply (by_path_lookup _ _ _ own_NoDup) in E as [Hx%own_catalog_sub Hpx].
  by rewrite (proj2 (built_lookup p x)) in Hp.
Qed.
Lemma own_built : built_from w raw own_catalog collection_DefaultConfig s m spec control files.
Proof.
  pose proof built_selected as Hsel. destruct built_paths as (cs0 & _ & Hpaths).
  assert (by_path own_catalog !! ManifestPath = by_path catalog !! ManifestPath) as Hman by (apply own_lookup; rewrite Hpaths; left).
  destruct B as [Hc Hm Hv Hp Hk Hd Hs Hsn Hg]. split; try done.
  - rewrite Forall_forall in *. intros x Hx. by apply Hv, own_catalog_sub.
  - apply (collisionFree_sub (map af_Path catalog)); [done|apply own_NoDup|].
    intros p (x & -> & Hx)%list_elem_of_fmap. apply list_elem_of_fmap_2. by apply own_catalog_sub.
  - by rewrite Hman.
  - apply (select_files_mono cfg _ _ _ _ (by_path catalog)); [|..|done].
    + unfold CollectionConfig_Valid in Hc. rewrite !andb_true_iff in Hc. unfold allows_more, collection_DefaultConfig. cbn [cg_MaxBytes cg_MaxFiles]. lia.
    + intros a Ha. apply own_lookup. rewrite Hpaths. right. apply elem_of_app. left. by apply (list_elem_of_fmap_2 (fun a => "outputs/" +:+ ra_Path a)).
    + destruct (sd_files _ _ _ _ _ _ _ Hsel) as (xs & cs & ys & _ & _ & Hys & Hn & Heq). intros c Hc'. destruct (Hn c Hc') as [Hin|Hnone].
      * apply own_lookup. rewrite Heq. cbn [map]. right. rewrite map_app. apply elem_of_app. right.
        rewrite (zip_paths (control_file w) control_path); [by apply list_elem_of_fmap_2|].
        eapply Forall2_impl; [exact Hys|]. intros c0 x Hx. apply built_lookup in Hx as [_ Hx]. exact Hx.
      * by rewrite own_missing, Hnone.
Qed.
End Built.

Lemma parseManifest_ok w raw m spec :
  parseManifest schema w raw = Ok (m, spec) -> CollectionWork_Valid w = true /\ len raw <= MaxManifestBytes.
Proof.
  unfold parseManifest. destruct (CollectionWork_Valid w); [|done]. cbn [negb]. unfold ParseResult, strictValue.
  destruct (len raw =? 0) eqn:E0; [done|]. cbn [orb]. destruct (Z.ltb_spec MaxManifestBytes (len raw)); [done|]. done.
Qed.
Lemma FileIdentity_Valid remote path size digest : ID_Valid (FileIdentity remote path size digest) = true.
Proof.
  apply validOpaqueID_spec. unfold FileIdentity. set (d := Digest _). pose proof (sha256_hex_valid (Marshal (JObj [("Version", JStr "collection-file/v1"); ("Remote", json_remote remote); ("Path", JStr path); ("Bytes", JInt size); ("Digest", JStr digest)]))) as H.
  change (SHA256Digest_Valid d = true) in H. apply SHA256Digest_Valid_spec in H as [Hl Hh].
  exists (byte_of 97), (bytes_of "rt_" ++ bytes_of d). split; [|split; [|split; [done|]]].
  - change ("art_" +:+ d) with (String (byte_of 97) ("rt_" +:+ d)). exact (f_equal (cons (byte_of 97)) (bytes_of_app "rt_" d)).
  - rewrite length_app. rewrite len_bytes in Hl. cbn. lia.
  - apply Forall_app. split; [repeat constructor|]. eapply Forall_impl; [exact Hh|]. intros c Hc. unfold opaque_safe, alnum. unfold hex_lower in Hc.
    unfold is_lower. rewrite orb_true_iff in Hc. unfold between in *. destruct Hc as [->|Hc]; [by rewrite !orb_true_r|].
    assert ((97 <=? byte_val c) && (byte_val c <=? 122) = true) as -> by lia. done.
Qed.
Lemma file_of_Valid w x role media :
  CollectionWork_Valid w = true -> Artifact_Validate x (wk_Remote w) = None ->
  ObjectMetadata_Valid (fl_Object (file_of w x role media)) = true /\ om_WorkspaceID (fl_Object (file_of w x role media)) = cl_WorkspaceID (wk_Lease w).
Proof.
  intros Hw (_ & Hb & Hd)%valid_remote. split; [|done]. unfold CollectionWork_Valid, CollectionLease_Valid in Hw. rewrite !andb_true_iff in Hw.
  unfold ObjectMetadata_Valid, file_of. cbv zeta. cbn [fl_Object om_ID om_WorkspaceID om_Bytes om_SHA256].
  rewrite FileIdentity_Valid, Hd, (proj2 (Z.leb_le 0 _)) by done. destruct Hw as [[[[[[[[[Hw _] _] _] _] _] _] _] _] _].
  destruct Hw as [[[[[[[[Hw _] _] _] _] _] _] _] _]. by rewrite Hw.
Qed.
Lemma built_validates w raw catalog cfg s :
  BuildSnapshot schema w raw catalog cfg = Ok s -> ValidateSnapshot schema w s = None /\
  BuildSnapshot schema w (sn_Manifest s) (map (artifact_of w) (sn_Files s)) collection_DefaultConfig = Ok s.
Proof.
  intros (m & spec & control & files & B)%BuildSnapshot_ok. pose proof (own_built B) as B'. pose proof (built_selected B) as Hsel.
  destruct (parseManifest_ok _ _ _ _ (bt_parsed _ _ _ _ _ _ _ _ _ B)) as [Hw Hl]. pose proof (bt_stamp _ _ _ _ _ _ _ _ _ B) as Hg.
  pose proof (bt_config _ _ _ _ _ _ _ _ _ B) as Hc. unfold CollectionConfig_Valid in Hc. rewrite !andb_true_iff in Hc.
  pose proof (bt_snapshot _ _ _ _ _ _ _ _ _ B) as Hs.
  assert (Z.of_nat (length (sn_Files s)) = Z.of_nat (length files)) as Hlen by (rewrite Hs; cbn; by rewrite (Permutation_length (merge_sort_Permutation path_le files))).
  assert (1 <= Z.of_nat (length files)) as Hpos.
  { destruct (sd_files _ _ _ _ _ _ _ Hsel) as (? & ? & ? & _ & _ & _ & _ & ->). cbn. lia. }
  pose proof (sd_count _ _ _ _ _ _ _ Hsel) as Hn.
  assert (BuildSnapshot schema w (sn_Manifest s) (map (artifact_of w) (sn_Files s)) collection_DefaultConfig = Ok s) as Hagain.
  { assert (map (artifact_of w) (sn_Files s) = own_catalog (w := w) (files := files)) as -> by (by rewrite Hs).
    replace (sn_Manifest s) with raw by (by rewrite Hs). apply (BuildSnapshot_built _ _ _ _ _ _ _ _ _ B').
    unfold own_catalog. rewrite length_map, (Permutation_length (merge_sort_Permutation path_le files)). cbn. lia. }
  split; [|done].  unfold ValidateSnapshot. cbv zeta. rewrite Hlen, Hg.
  rewrite (proj2 (Z.eqb_neq _ _)), (proj2 (Z.ltb_ge MaxFiles _)) by lia. replace (sn_Manifest s) with raw by (by rewrite Hs).
  rewrite (proj2 (Z.ltb_ge _ _)) by lia. cbn [negb orb].
  assert (existsb (fun f => negb (ObjectMetadata_Valid (fl_Object f)) || (om_WorkspaceID (fl_Object f) <>? cl_WorkspaceID (wk_Lease w))) (sn_Files s) = false) as ->.
  { apply not_true_iff_false. intros (f & Hf%list_elem_of_In & E)%existsb_exists. rewrite Hs in Hf. cbn in Hf. rewrite (merge_sort_Permutation path_le files) in Hf.
    pose proof (built_listed B) as HL. rewrite Forall_forall in HL. destruct (HL f Hf) as (x & role & media & Hx & _ & ->).
    pose proof (bt_valid _ _ _ _ _ _ _ _ _ B) as Hv. rewrite Forall_forall in Hv.
    destruct (file_of_Valid w x role media Hw (Hv x Hx)) as [H1 H2]. rewrite H1, H2, bool_decide_eq_true_2 in E by done. done. }
  replace raw with (sn_Manifest s) by (by rewrite Hs). by rewrite Hagain, bool_decide_eq_true_2.
Qed.
(** C13: A snapshot that was built from a manifest and a
    provider's listing passes the check that is made when a pinned snapshot is
    loaded again: rebuilding it from its own files, under the default limits,
    gives the same snapshot. A collection that was interrupted after pinning
    can always be resumed with its pin. *)
Theorem snapshot_revalidates w raw catalog cfg s :
  BuildSnapshot schema w raw catalog cfg = Ok s ->
  ValidateSnapshot schema w s = None /\
  BuildSnapshot schema w (sn_Manifest s) (map (artifact_of w) (sn_Files s)) collection_DefaultConfig = Ok s.
Proof. apply built_validates. Qed.
#[export] Instance path_le_trans : Transitive path_le.
Proof. intros a b c. apply str_leb_trans. Qed.
#[export] Instance path_le_total : Total path_le.
Proof. intros a b. apply String.leb_total. Qed.
Lemma sorted_paths l : NoDup (map fl_Path l) -> StronglySorted (fun a b => str_lt (fl_Path a) (fl_Path b)) (merge_sort path_le l).
Proof.
  intros Hn0. assert (NoDup (map fl_Path (merge_sort path_le l))) as Hn1 by (by rewrite (merge_sort_Permutation path_le l)).
  pose proof (StronglySorted_merge_sort path_le l) as H. clear Hn0. revert Hn1.
  induction H as [|f l' H IH Hf]; [constructor|]. cbn [map]. intros [Hn Hn']%NoDup_cons. constructor; [by apply IH|].
  rewrite Forall_forall in *. intros g Hg. destruct (str_lt_total (fl_Path f) (fl_Path g)) as [|[E|E]]; [done| |].
  - destruct Hn. rewrite E. by apply list_elem_of_fmap_2.
  - specialize (Hf g Hg). unfold path_le in Hf. unfold str_lt in E. by rewrite str_ltb_leb, Hf in E.
Qed.
(** A file of the snapshot that was made from this artifact of the listing. *)
Definition made_from (w : CollectionWork) (f : CollFile) (x : Artifact) : Prop :=
  fl_Path f = af_Path x /\ fl_ID f = FileIdentity (wk_Remote w) (af_Path x) (af_Bytes x) (af_SHA256 x) /\
  fl_Object f = mkObjectMetadata (fl_ID f) (cl_WorkspaceID (wk_Lease w)) (af_Bytes x) (af_SHA256 x).
(** C12: The snapshot holds only files of the provider's listing of
    this execution, in the order of their paths and at most as many files and
    bytes as the configuration allows. It has every artifact the manifest
    names, with the size and digest the manifest claims and under an output
    the job declared, and besides them only the manifest itself and the fixed
    control files; a manifest that reports completion names a file for every
    required output. *)
Theorem snapshot_sound w raw catalog cfg s :
  BuildSnapshot schema w raw catalog cfg = Ok s ->
  exists m spec, parseManifest schema w raw = Ok (m, spec) /\
    Forall (fun f => exists x, x ∈ catalog /\ Artifact_Validate x (wk_Remote w) = None /\ made_from w f x) (sn_Files s) /\
    StronglySorted (fun a b => str_lt (fl_Path a) (fl_Path b)) (sn_Files s) /\
    files_bytes (sn_Files s) <= cg_MaxBytes cfg /\ Z.of_nat (length (sn_Files s)) <= cg_MaxFiles cfg /\
    (forall a, a ∈ rn_Artifacts m -> exists f, f ∈ sn_Files s /\ fl_Path f = "outputs/" +:+ ra_Path a /\ fl_Role f = "output" /\
       om_Bytes (fl_Object f) = ra_Bytes a /\ om_SHA256 (fl_Object f) = ra_SHA256 a /\
       Exists (fun o => declares o (ra_Path a) = true) (sc_Outputs spec)) /\
    (forall f, f ∈ sn_Files s -> fl_Path f = ManifestPath \/ fl_Path f ∈ map control_path control_files \/
       exists a, a ∈ rn_Artifacts m /\ fl_Path f = "outputs/" +:+ ra_Path a) /\
    (rn_Phase m = "completed" -> forall o, o ∈ sc_Outputs spec -> ou_Required o = true ->
       exists a, a ∈ rn_Artifacts m /\ declares o (ra_Path a) = true).
Proof.
  intros (m & spec & control & files & B)%BuildSnapshot_ok. pose proof (built_selected B) as Hsel.
  assert (forall f, f ∈ sn_Files s <-> f ∈ files) as Hin by (intros f; rewrite (bt_snapshot _ _ _ _ _ _ _ _ _ B); cbn; by rewrite (merge_sort_Permutation path_le files)).
  assert (sn_Files s ≡ₚ files) as Hperm by (rewrite (bt_snapshot _ _ _ _ _ _ _ _ _ B); apply merge_sort_Permutation).
  exists m, spec. split; [apply B|]. split; [|split; [|split; [|split; [|split; [|split]]]]].
  - rewrite Hperm. eapply Forall_impl; [apply (built_listed B)|]. intros f (x & role & media & Hx & Hr & ->). exists x.
    split; [done|]. split; [|done]. pose proof (bt_valid _ _ _ _ _ _ _ _ _ B) as Hv. rewrite Forall_forall in Hv. by apply Hv.
  - rewrite (bt_snapshot _ _ _ _ _ _ _ _ _ B). apply sorted_paths, (built_distinct B).
  - replace (files_bytes (sn_Files s)) with (files_bytes files); [apply Hsel|]. clear -Hperm. unfold files_bytes.
    symmetry. induction Hperm; cbn; lia.
  - rewrite (Permutation_length Hperm). apply Hsel.
  - intros a Ha. destruct (sd_files _ _ _ _ _ _ _ Hsel) as (xs & cs & ys & Hxs & _ & _ & _ & Heq).
    apply list_elem_of_lookup_1 in Ha as [i Hi]. destruct (Forall2_lookup_l _ _ _ _ _ Hxs Hi) as (x & Hx & Hl & Hb & Hd & Ho).
    exists (output_file w a x). split.
    + rewrite Hin, Heq. right. apply elem_of_app. left. apply (list_elem_of_lookup_2 _ i). by rewrite lookup_zip_with, Hi, Hx.
    + apply (built_lookup B) in Hl as [_ Hl]. by split_and!.
  - intros f Hf. apply Hin in Hf. destruct (built_paths B) as (cs & Hcs & Hp).
    assert (fl_Path f ∈ map fl_Path files) as Hfp by by apply list_elem_of_fmap_2. rewrite Hp in Hfp.
    apply elem_of_cons in Hfp as [Hfp|Hfp]; [by left|]. right. apply elem_of_app in Hfp as [Hfp|Hfp].
    + right. apply list_elem_of_fmap in Hfp as (a & Ha & Hia). by exists a.
    + left. eapply elem_of_sublist; [exact Hfp|by apply fmap_sublist].
  - apply Hsel.
Qed.
End Snapshots.

(** ** The final state *)
Definition ordinary_cancel (s : AttemptState) : Prop := as_Cancellation s = CancellationNotRequested \/ as_Cancellation s = CancellationTooLate.
Definition awaiting_result (s : AttemptState) : Prop :=
  AttemptState_Validate s = None /\ ExecutionState_Terminal (as_Execution s) = true /\ OrchestrationState_Terminal (as_Orchestration s) = false /\
  as_Result s = ResultCollecting.
(** Every combination of known values, with the result still to come. *)
Definition collecting_states : list AttemptState :=
  o ← OrchestrationState_values; e ← ExecutionState_values; c ← CancellationState_values; r ← RemoteActivityState_values;
  v ← ReleaseEvidence_values; d ← [true; false]; [mkAttemptState o e ResultCollecting c r v d].
Lemma awaiting_listed s : awaiting_result s -> s ∈ collecting_states.
Proof.
  intros (Hv & _ & _ & Hr). apply Validate_spec in Hv. destruct (cs_values _ Hv) as (H1 & H2 & _ & H3 & H4 & H5).
  destruct s as [o e r c a v d]. clear Hv. cbn [as_Orchestration as_Execution as_Result as_Cancellation as_RemoteActivity as_ReleaseEvidence] in *. subst r. unfold collecting_states.
  repeat (apply list_elem_of_bind; eexists; split; [|eassumption]).
  apply list_elem_of_bind. exists d. split; [left|]. destruct d; [left|right; left].
Qed.
(** The claims on one state, decided. *)
Definition final_ok (completed : bool) (s : AttemptState) : bool :=
  let '(s', e) := FinalState s (if completed then "completed" else "failed") in
  let succeeded := as_Orchestration s' ==? OrchestrationSucceeded in
  is_nil e && (as_Execution s' ==? as_Execution s) && (as_Cancellation s' ==? as_Cancellation s)
  && (as_RemoteActivity s' ==? as_RemoteActivity s) && (as_ReleaseEvidence s' ==? as_ReleaseEvidence s) && (as_Result s' ==? ResultAvailable)
  && Bool.eqb succeeded ((as_Execution s ==? ExecutionSucceeded) && completed
       && ((as_Cancellation s ==? CancellationNotRequested) || (as_Cancellation s ==? CancellationTooLate)))
  && Bool.eqb (is_nil (ValidateAttemptStateTransition s s')) (negb ((as_Orchestration s ==? OrchestrationReconciling) && succeeded)).
Lemma final_checked :
  forallb (fun s => negb (is_nil (AttemptState_Validate s) && ExecutionState_Terminal (as_Execution s)
                          && negb (OrchestrationState_Terminal (as_Orchestration s))) || final_ok true s && final_ok false s) collecting_states = true.
Proof. vm_compute. reflexivity. Qed.

(** C14: A valid attempt whose execution has ended and whose result is
    being collected always gets a final state, which is valid. It keeps the
    execution, cancellation, activity and release evidence the provider gave,
    makes the result available, and is a success exactly when the execution
    succeeded, the runner completed, and no cancellation took effect. The
    change is a legal transition, except that an attempt still being
    reconciled cannot be closed as a success. *)
Theorem final_state s phase :
  awaiting_result s ->
  let s' := (FinalState s phase).1 in
  (FinalState s phase).2 = None /\ as_Execution s' = as_Execution s /\ as_Cancellation s' = as_Cancellation s /\
  as_RemoteActivity s' = as_RemoteActivity s /\ as_ReleaseEvidence s' = as_ReleaseEvidence s /\ as_Result s' = ResultAvailable /\
  (as_Orchestration s' = OrchestrationSucceeded <-> as_Execution s = ExecutionSucceeded /\ phase = "completed" /\ ordinary_cancel s) /\
  (ValidateAttemptStateTransition s s' = None <-> ~ (as_Orchestration s = OrchestrationReconciling /\ as_Orchestration s' = OrchestrationSucceeded)).
Proof.
  intros Ha. pose proof (awaiting_listed s Ha) as Hin. destruct Ha as (Hv & He & Ho & _).
  pose proof final_checked as H. rewrite forallb_forall in H. apply list_elem_of_In in Hin. specialize (H s Hin). rewrite Hv, He, Ho in H.
  apply orb_true_iff in H as [H|H]; [done|]. apply andb_true_iff in H as [Ht Hf'].
  assert (final_ok (phase ==? "completed") s = true) as Hf by (by destruct (phase ==? "completed")).
  assert (FinalState s phase = FinalState s (if phase ==? "completed" then "completed" else "failed")) as Hp.
  { unfold FinalState. case_bool_decide as E; [by subst|]. reflexivity. }
  rewrite Hp. unfold final_ok in Hf. destruct (FinalState s _) as [s' e]. cbn [fst snd]. clear Hp Hin.
  rewrite !andb_true_iff, !eqb_true_iff, !bool_decide_eq_true in Hf. destruct Hf as [[[[[[[H1 H2] H3] H4] H5] H6] H7] H8].
  destruct e; [done|]. split_and!; try done.
  - rewrite <- (bool_decide_eq_true (as_Orchestration s' = OrchestrationSucceeded)), H7, !andb_true_iff, orb_true_iff, !bool_decide_eq_true. unfold ordinary_cancel. tauto.
  - destruct (ValidateAttemptStateTransition s s'); cbn [is_nil] in H8; symmetry in H8.
    + rewrite negb_false_iff, andb_true_iff, !bool_decide_eq_true in H8. split; [done|]. intros H. by destruct H.
    + rewrite negb_true_iff, andb_false_iff, !bool_decide_eq_false in H8. split; [|done]. tauto.
Qed.
