(* ===== verification/CollectionEngine.v ===== *)
(** * The collection engine

    [internal/collection/engine.go], [batch.go], [progress.go] and
    [reader.go]: one finite run of the engine as a tree of calls to the
    repository, the provider, the blob store, the contexts and the clock.
    Calls made under a [recover] answer [None] when they panic. The bytes a
    provider sends are part of the answer of the call that transfers them. *)

From S2P Require Import Prelude Effects GoStrings GoTime GoSha256 GoJson JsonRead Identifiers Problems AttemptStates Attempts DomainRecords Provider ProviderResources Transfer Workers Scheduler Admission Auth Journal RunnerPlan Collection.
#[local] Open Scope string_scope.
#[local] Open Scope list_scope.
#[local] Open Scope Z_scope.
#[local] Open Scope bool_scope.

(** ** Calls

    The provider of a transfer writes and reports as it likes before [Fetch]
    returns: what it does is the answer of the call that starts the transfer,
    its result the answer of the call that ends it. *)
Inductive CollCtx := ParentCtx | TimeoutCtx | CallCtx | RecordCtx.
(** What a provider does with the writer and the callback it was given: a
    write carries the state of the context and the answer of the pipe. *)
Inductive stream_event :=
  | Writes (ctx : option error) (data : list ascii) (n : Z) (err : option error)
  | Reports (n : Z).
(** The end of a transfer: what [Fetch] and [Put] answered ([None]: a panic),
    and whether reading the pipe failed. *)
Record transfer_end := mkTransferEnd {
  tx_fetch : option (result error TransferResult); tx_put : option (result error ObjectMetadata); tx_failed : bool }.
(** A stored blob read through the limit: the bytes copied, and the errors of
    copying and closing. *)
Record blob_answer := mkBlobAnswer { bl_data : list ascii; bl_read : option error; bl_close : option error }.
(** One [Read] of a batch's stream. *)
Record batch_read := mkBatchRead { rd_ctx : option error; rd_data : list ascii; rd_err : option error }.
(** One call of the visitor. *)
Record batch_visit := mkBatchVisit { vs_artifact : Artifact; vs_nil : bool }.
Inductive ccall : Type -> Type :=
  | CAcquire : ccall (option error)
  | CClaim (lease : Duration) (workers : Z) : ccall (result error (option CollectionWork))
  | CHeartbeat (timeout : Duration) (until : Time) : ccall unit
  | CStop : ccall (option error)
  | CCtx (c : CollCtx) : ccall (option error)
  | CNow : ccall Time
  | CResolve (b : BindingSnapshot) : ccall (option (result error (option bool)))
  | CVerify (b : BindingSnapshot) : ccall (option (option error))
  | CList (r : RemoteReference) : ccall (option (result error (list Artifact)))
  | CFetchManifest (r : RemoteReference) (a : Artifact) : ccall (option (list (option error * list ascii) * result error TransferResult))
  | COpen (m : ObjectMetadata) : ccall (option (result error (option blob_answer)))
  | CPut (m : ObjectMetadata) (text : string) : ccall (option (result error ObjectMetadata))
  | CTransfer (a : Artifact) (m : ObjectMetadata) : ccall (list stream_event)
  | CTransferEnds : ccall transfer_end
  | CFetchBatch (r : RemoteReference) (targets : list Artifact) : ccall (option (list batch_visit))
  | CPutStream (m : ObjectMetadata) : ccall (list batch_read)
  | CPutEnds : ccall (option (result error ObjectMetadata))
  | CDrain : ccall (list batch_read)
  | CFetchBatchEnds : ccall (option error)
  | CProgress (w : CollectionWork) (stage : string) (sample : CollectionProgress) : ccall (option (option error))
  | CPin (w : CollectionWork) (s : CollSnapshot) : ccall (option error)
  | CComplete (w : CollectionWork) (v : Verified) : ccall (option error)
  | CFail (w : CollectionWork) (f : CollectionFailure) : ccall (option error).

(** ** Computations

    A value, an error or a panic on its way to the [recover] of its caller. *)
Inductive computed (A : Type) := Gives (a : A) | Errs (e : error) | Panics.
Arguments Gives {A} a.
Arguments Errs {A} e.
Arguments Panics {A}.
Definition oc (A : Type) : Type := prog ccall (computed A).
#[export] Instance oc_ret : MRet oc := fun A a => Done (Gives a).
#[export] Instance oc_bind : MBind oc := fun A B k m =>
  prog_bind (fun o => match o with Gives a => k a | Errs e => Done (Errs e) | Panics => Done Panics end) m.
Definition plain {X} (e : ccall X) : oc X := Call e (fun x => Done (Gives x)).
(** A call that may panic. *)
Definition guarded_call {X} (e : ccall (option X)) : oc X := Call e (fun x => Done match x with Some x => Gives x | None => Panics end).
Definition raise {A} (e : error) : oc A := Done (Errs e).
(** [if err := ctx.Err(); err != nil { return err }] *)
Definition ctx_alive (c : CollCtx) : oc unit := e ← plain (CCtx c); match e with Some e => raise e | None => mret tt end.
(** A function that ends with [recover]. *)
Definition recovering {A} (reason : string) (m : oc A) : prog ccall (result error A) :=
  prog_bind (fun o => Done match o with
                           | Gives a => Ok a
                           | Errs e => Err e
                           | Panics => Err (fail_at (Some collection_ErrUnavailable) reason)
                           end) m.

(** ** Progress *)
(** [progressWriteError{err}]: a wrapper with the text of its cause. No other
    wrapper of the program has an empty prefix. *)
Definition progressWriteError (e : error) : error := EWrap "" e.
Definition as_progress (e : error) : option error := match e with EWrap "" c => Some c | _ => None end.
Definition is_progress (err : option error) : bool := not_nil (errors_As as_progress err).
Record progressTracker := mkTracker { tk_completed : Z; tk_current : Z; tk_received : Z; tk_total : Z; tk_last : Time }.
Definition output_bytes (files : list CollFile) : Z :=
  foldl (fun n f => if fl_Role f ==? "output" then n + om_Bytes (fl_Object f) else n) 0 files.
Definition newProgressTracker (s : CollSnapshot) : progressTracker := mkTracker 0 0 0 (output_bytes (sn_Files s)) zero_time.
(** A computation that also changes the tracker. *)
Definition VM (A : Type) : Type := progressTracker -> prog ccall (computed A * progressTracker).
#[export] Instance VM_ret : MRet VM := fun A a p => Done (Gives a, p).
#[export] Instance VM_bind : MBind VM := fun A B k m p =>
  prog_bind (fun '(o, p) => match o with Gives a => k a p | Errs e => Done (Errs e, p) | Panics => Done (Panics, p) end) (m p).
Definition lift {A} (m : oc A) : VM A := fun p => prog_bind (fun o => Done (o, p)) m.
Definition raises {A} (e : error) : VM A := fun p => Done (Errs e, p).
Definition track (f : progressTracker -> progressTracker) : VM unit := fun p => Done (Gives tt, f p).
Definition tracked {A} (f : progressTracker -> A) : VM A := fun p => Done (Gives (f p), p).
Definition progress_sample (w : CollectionWork) (p : progressTracker) (now : Time) : CollectionProgress :=
  mkCollectionProgress "selected_output_bytes" (cl_Generation (wk_Lease w)) (tk_completed p + tk_current p) (Some (tk_received p))
    (Some (tk_total p)) now.
Definition sampled (now : Time) (p : progressTracker) : progressTracker :=
  mkTracker (tk_completed p) (tk_current p) (tk_received p) (tk_total p) now.
Definition checkpoint (w : CollectionWork) (stage : string) (force : bool) : VM unit :=
  now ← lift (plain CNow);
  last ← tracked tk_last;
  if negb force && (time_Sub now last <? Second) then mret tt
  else
    sample ← tracked (fun p => progress_sample w p now);
    e ← lift (guarded_call (CProgress w stage sample));
    match e with Some e => raises (progressWriteError e) | None => track (sampled now) end.
(** The closure of [stream]: the bytes received before, and the count
    reported before. *)
Record stream_state := mkStream { st_base : Z; st_previous : Z; st_size : Z }.
Definition stream (size : Z) : VM stream_state := tracked (fun p => mkStream (tk_received p) 0 size).
Definition transferring (st : stream_state) (n : Z) (p : progressTracker) : progressTracker :=
  mkTracker (tk_completed p) n (st_base st + n) (tk_total p) (tk_last p).
(** The error is returned to the caller of the closure. *)
Definition caught (m : VM unit) : VM (option error) := fun p =>
  prog_bind (fun '(o, p) => Done match o with Gives _ => (Gives None, p) | Errs e => (Gives (Some e), p) | Panics => (Panics, p) end) (m p).
Definition stream_report (w : CollectionWork) (st : stream_state) (n : Z) : VM (stream_state * option error) :=
  if (n <? st_previous st) || (st_size st <? n) then mret (st, Some collection_ErrInvalid)
  else
    _ ← track (transferring st n);
    e ← caught (checkpoint w "transferring" false);
    mret (mkStream (st_base st) n (st_size st), e).
Definition count_completed (f : CollFile) (p : progressTracker) : progressTracker :=
  if fl_Role f ==? "output" then mkTracker (tk_completed p + om_Bytes (fl_Object f)) (tk_current p) (tk_received p) (tk_total p) (tk_last p) else p.
Definition count_transferred (f : CollFile) (p : progressTracker) : progressTracker :=
  if fl_Role f ==? "output" then mkTracker (tk_completed p + om_Bytes (fl_Object f)) 0 (tk_received p) (tk_total p) (tk_last p) else p.

(** ** Checked streams *)
Record checkedWriter := mkChecked { ck_hash : list ascii; ck_n : Z; ck_limit : Z; ck_failed : bool }.
Definition newCheckedWriter (limit : Z) : checkedWriter := mkChecked [] 0 limit false.
Definition checked_fail (c : checkedWriter) : checkedWriter := mkChecked (ck_hash c) (ck_n c) (ck_limit c) true.
(** [Write] of [data] when the destination answers [n] and [err]. *)
Definition checked_Write (c : checkedWriter) (ctx : option error) (data : list ascii) (n : Z) (err : option error) :
    checkedWriter * (Z * option error) :=
  match ctx with
  | Some e => (checked_fail c, (0, Some e))
  | None =>
      if ck_failed c || (ck_limit c - ck_n c <? Z.of_nat (length data)) then (checked_fail c, (0, Some collection_ErrInvalid))
      else if (n <? 0) || (Z.of_nat (length data) <? n) then (checked_fail c, (0, Some collection_ErrInvalid))
      else
        let c := mkChecked (ck_hash c ++ take (Z.to_nat n) data) (ck_n c + n) (ck_limit c) (ck_failed c) in
        if not_nil err || negb (n =? Z.of_nat (length data))
        then (checked_fail c, (n, match err with None => Some (ENew "short write") | Some e => Some e end))
        else (c, (n, None))
  end.
Definition checked_matches (c : checkedWriter) (a : Artifact) (r : TransferResult) : bool :=
  negb (ck_failed c) && (ck_n c =? af_Bytes a) && (tr_Bytes r =? af_Bytes a) && (tr_SHA256 r ==? af_SHA256 a)
  && (sha256_hex (string_of (ck_hash c)) ==? af_SHA256 a).
(** Without a callback a provider reports to nobody. *)
Fixpoint fetch_events (w : CollectionWork) (cb : option stream_state) (c : checkedWriter) (l : list stream_event) : VM checkedWriter :=
  match l with
  | [] => mret c
  | Writes ctx data n err :: l => fetch_events w cb (checked_Write c ctx data n err).1 l
  | Reports n :: l =>
      match cb with
      | None => fetch_events w cb c l
      | Some st => '(st, _) ← stream_report w st n; fetch_events w (Some st) c l
      end
  end.
(** [batchReader] over a limited reader: [br_left] bytes may still be read. *)
Record batchReader := mkBatchReader {
  br_hash : list ascii; br_n : Z; br_left : Z; br_readErr : option error; br_stream : option stream_state }.
Definition batch_Read (w : CollectionWork) (r : batchReader) (x : batch_read) : VM (batchReader * option error) :=
  match rd_ctx x with
  | Some e => mret (r, Some e)
  | None =>
      let '(data, err) := if br_left r <=? 0 then ([], Some EOF) else (take (Z.to_nat (br_left r)) (rd_data x), rd_err x) in
      let r := mkBatchReader (br_hash r ++ data) (br_n r + Z.of_nat (length data)) (br_left r - Z.of_nat (length data)) (br_readErr r) (br_stream r) in
      let ends r :=
        match err with
        | Some e => if is_EOF e then mret (r, err) else mret (mkBatchReader (br_hash r) (br_n r) (br_left r) err (br_stream r), err)
        | None => mret (r, err)
        end in
      match data, br_stream r with
      | _ :: _, Some st =>
          '(st, e) ← stream_report w st (Z.min (br_n r) (st_size st));
          let r := mkBatchReader (br_hash r) (br_n r) (br_left r) (br_readErr r) (Some st) in
          match e with
          | Some e => mret (mkBatchReader (br_hash r) (br_n r) (br_left r) (Some e) (br_stream r), Some e)
          | None => ends r
          end
      | _, _ => ends r
      end
  end.
(** Reads by a store, which may go on after an error. *)
Fixpoint batch_reads (w : CollectionWork) (r : batchReader) (l : list batch_read) : VM batchReader :=
  match l with [] => mret r | x :: l => '(r, _) ← batch_Read w r x; batch_reads w r l end.
(** [io.Copy(io.Discard, r)]: reads until an error; after the last of the
    reads the stream is at its end. *)
Fixpoint batch_drain (w : CollectionWork) (r : batchReader) (l : list batch_read) : VM (batchReader * option error) :=
  match l with
  | [] => mret (r, None)
  | x :: l =>
      '(r, e) ← batch_Read w r x;
      match e with
      | Some e => mret (r, if is_EOF e then None else Some e)
      | None => batch_drain w r l
      end
  end.

Section Collect.
Context (schema : jvalue -> bool) (cfg : CollectionConfig).

(** ** Stored files *)
Definition existing (m : ObjectMetadata) : oc bool :=
  r ← guarded_call (COpen m);
  match r with
  | Err _ => mret false
  | Ok None => raise (fail_at (Some collection_ErrUnavailable) "artifact_blob_read_failed")
  | Ok (Some b) =>
      let copied := take (Z.to_nat (om_Bytes m + 1)) (bl_data b) in
      if not_nil (bl_read b) || not_nil (bl_close b) then raise (fail_at (Join [bl_read b; bl_close b]) "artifact_blob_read_failed")
      else if negb (Z.of_nat (length copied) =? om_Bytes m) || (sha256_hex (string_of copied) <>? om_SHA256 m)
      then raise (failure CodeArtifactDigestMismatch true)
      else mret true
  end.
(** The error of the goroutine that fetches. *)
Definition transfer_final (a : Artifact) (o : computed checkedWriter) (fetch : option (result error TransferResult)) : option error :=
  match o, fetch with
  | Gives c, Some (Ok r) => if checked_matches c a r then None else Some (failure CodeArtifactDigestMismatch true)
  | Gives _, Some (Err e) =>
      if IsLocalStateError (Some e) || is_progress (Some e) then Some e else Some (fail_at (Some e) "artifact_download_failed")
  | _, _ => Some (fail_at (Some collection_ErrUnavailable) "artifact_transfer_panic")
  end.
Definition transfer_error (f : CollFile) (final : option error) (ends : transfer_end) : option error :=
  match tx_put ends with
  | None => Some (fail_at (Some collection_ErrUnavailable) "artifact_blob_write_failed")
  | Some put =>
      let putErr := match put with Err e => Some e | Ok _ => None end in
      if not_nil putErr && negb (tx_failed ends) then
        Some (failure_error (mkCollectionFailure CodeArtifactCollectionFailed false "artifact_blob_write_failed" (Reason putErr "")
                               (Join [putErr; final])))
      else match final with
      | Some e => Some e
      | None =>
          match put with
          | Ok meta => if meta ==? fl_Object f then None else Some (fail_at None "artifact_blob_write_failed")
          | Err e => Some (fail_at (Some e) "artifact_blob_write_failed")
          end
      end
  end.
Definition transfer (w : CollectionWork) (f : CollFile) (cb : option stream_state) : VM unit := fun p =>
  prog_bind (fun events =>
  prog_bind (fun '(o, p) =>
  prog_bind (fun ends =>
    Done (match transfer_error f (transfer_final (artifact_of w f) o (tx_fetch ends)) ends with Some e => Errs e | None => Gives tt end, p))
  (perform CTransferEnds))
  (fetch_events w cb (newCheckedWriter (om_Bytes (fl_Object f))) events p))
  (perform (CTransfer (artifact_of w f) (fl_Object f))).

(** ** One file after another *)
Definition put_manifest (s : CollSnapshot) (f : CollFile) : oc unit :=
  r ← guarded_call (CPut (fl_Object f) (sn_Manifest s));
  match r with
  | Ok meta => if meta ==? fl_Object f then mret tt else raise (fail_at (Some collection_ErrUnavailable) "artifact_blob_write_failed")
  | Err _ => raise (fail_at (Some collection_ErrUnavailable) "artifact_blob_write_failed")
  end.
Definition fetch_file (w : CollectionWork) (f : CollFile) : VM unit :=
  if fl_Role f ==? "output" then
    st ← stream (om_Bytes (fl_Object f));
    _ ← transfer w f (Some st);
    current ← tracked tk_current;
    if negb (current =? om_Bytes (fl_Object f)) then raises (failure CodeArtifactCollectionFailed true) else mret tt
  else transfer w f None.
Definition verify_file (w : CollectionWork) (s : CollSnapshot) (f : CollFile) : VM unit :=
  _ ← lift (ctx_alive CallCtx);
  present ← lift (existing (fl_Object f));
  if present : bool then _ ← track (count_completed f); checkpoint w "transferring" false
  else
    _ ← if fl_Path f ==? ManifestPath then lift (put_manifest s f) else fetch_file w f;
    present ← lift (existing (fl_Object f));
    if negb present then raises (fail_at (Some collection_ErrUnavailable) "artifact_blob_write_failed")
    else _ ← track (count_transferred f); checkpoint w "transferring" false.
Fixpoint verify_each (w : CollectionWork) (s : CollSnapshot) (l : list CollFile) : VM unit :=
  match l with [] => mret tt | f :: l => _ ← verify_file w s f; verify_each w s l end.

(** ** In one batch *)
(** The first loop: what is stored already is counted, the rest is a target. *)
Definition put_manifest_batch (s : CollSnapshot) (f : CollFile) : oc bool :=
  r ← guarded_call (CPut (fl_Object f) (sn_Manifest s));
  match r with
  | Err e => raise (fail_at (Some e) "artifact_blob_write_failed")
  | Ok meta =>
      if meta <>? fl_Object f then raise (fail_at None "artifact_blob_write_failed")
      else
        present ← existing (fl_Object f);
        if present : bool then mret true else raise (fail_at (Some collection_ErrUnavailable) "artifact_blob_write_failed")
  end.
Fixpoint batch_targets (w : CollectionWork) (s : CollSnapshot) (targets : list CollFile) (l : list CollFile) : VM (list CollFile) :=
  match l with
  | [] => mret targets
  | f :: l =>
      _ ← lift (ctx_alive CallCtx);
      present ← lift (existing (fl_Object f));
      present ← if negb present && (fl_Path f ==? ManifestPath) then lift (put_manifest_batch s f) else mret present;
      if present : bool then _ ← track (count_completed f); batch_targets w s targets l
      else batch_targets w s (targets ++ [f]) l
  end.
Definition target_map (targets : list CollFile) : gmap string CollFile := foldl (fun m f => <[fl_Path f := f]> m) ∅ targets.
(** One call of the visitor for a file it accepts. *)
Definition visit_file (w : CollectionWork) (f : CollFile) : VM unit :=
  let m := fl_Object f in
  st ← if fl_Role f ==? "output" then st ← stream (om_Bytes m); mret (Some st) else mret None;
  reads ← lift (plain (CPutStream m));
  r ← batch_reads w (mkBatchReader [] 0 (om_Bytes m + 1) None st) reads;
  put ← lift (guarded_call CPutEnds);
  match put with
  | Err e =>
      if IsLocalStateError (Some e) || is_progress (Some e) then raises e
      else raises (fail_at (Some e) (if not_nil (br_readErr r) then "artifact_download_failed" else "artifact_blob_write_failed"))
  | Ok meta =>
      rest ← lift (plain CDrain);
      '(r, e) ← batch_drain w r rest;
      match e with
      | Some e => raises (fail_at (Some e) "artifact_download_failed")
      | None =>
          if (meta <>? m) || negb (br_n r =? om_Bytes m) || (sha256_hex (string_of (br_hash r)) <>? om_SHA256 m)
          then raises (failure CodeArtifactDigestMismatch true)
          else _ ← track (count_transferred f); checkpoint w "transferring" false
      end
  end.
Definition visit_refused (w : CollectionWork) (files : gmap string CollFile) (visited : gset string) (v : batch_visit) : bool :=
  let a := vs_artifact v in
  match files !! af_Path a with
  | None => true
  | Some f =>
      bool_decide (af_Path a ∈ visited) || not_nil (Artifact_Validate a (wk_Remote w)) || negb (af_Bytes a =? om_Bytes (fl_Object f))
      || (af_SHA256 a <>? om_SHA256 (fl_Object f)) || vs_nil v
  end.
(** The visits of one batch: the paths visited and the first error, after
    which the visitor does nothing. *)
Fixpoint batch_visits (w : CollectionWork) (files : gmap string CollFile) (visited : gset string) (l : list batch_visit) :
    VM (gset string * option error) :=
  match l with
  | [] => mret (visited, None)
  | v :: l =>
      ctx ← lift (plain (CCtx CallCtx));
      match ctx with
      | Some e => mret (visited, Some e)
      | None =>
          if visit_refused w files visited v
          then mret (visited, Some (failureAt CodeArtifactCollectionFailed true "artifact_catalog_invalid"))
          else
            let path := af_Path (vs_artifact v) in
            match files !! path with
            | None => mret (visited, None)
            | Some f =>
                e ← caught (visit_file w f);
                match e with
                | Some e => mret ({[path]} ∪ visited, Some e)
                | None => batch_visits w files ({[path]} ∪ visited) l
                end
            end
      end
  end.
Fixpoint reopen_each (l : list CollFile) : oc unit :=
  match l with
  | [] => mret tt
  | f :: l =>
      present ← existing (fl_Object f);
      if present : bool then reopen_each l else raise (fail_at (Some collection_ErrUnavailable) "artifact_blob_read_failed")
  end.
Definition verifyBatch (w : CollectionWork) (s : CollSnapshot) : VM unit :=
  targets ← batch_targets w s [] (sn_Files s);
  _ ← checkpoint w "transferring" false;
  visits ← lift (guarded_call (CFetchBatch (wk_Remote w) (map (artifact_of w) targets)));
  '(visited, visitErr) ← batch_visits w (target_map targets) ∅ visits;
  err ← lift (plain CFetchBatchEnds);
  if IsLocalStateError err || is_progress err then match err with Some e => raises e | None => mret tt end
  else match visitErr with
  | Some e => raises e
  | None =>
      match err with
      | Some e => raises (fail_at (Some e) "artifact_download_failed")
      | None =>
          if negb (Z.of_nat (size visited) =? Z.of_nat (length targets)) then raises (failure CodeArtifactMissing false)
          else lift (reopen_each (sn_Files s))
      end
  end.

(** ** The whole snapshot *)
Fixpoint exceeds (limit total : Z) (l : list CollFile) : bool :=
  match l with
  | [] => false
  | f :: l => (limit - total <? om_Bytes (fl_Object f)) || exceeds limit (total + om_Bytes (fl_Object f)) l
  end.
Definition verify_snapshot (batch : bool) (w : CollectionWork) (s : CollSnapshot) : VM Verified :=
  _ ← checkpoint w "transferring" true;
  _ ← (if batch then verifyBatch w s else verify_each w s (sn_Files s));
  _ ← checkpoint w "verifying" true;
  match parseManifest schema w (sn_Manifest s) with
  | Err e => raises e
  | Ok (m, _) => mret (mkVerified (wk_Lease w) s (rn_Phase m))
  end.
(** The deferred sample after an error. *)
Definition sample_failure (w : CollectionWork) (p : progressTracker) (e : error) : oc Verified :=
  ctx ← plain (CCtx CallCtx);
  if is_nil ctx && negb (is_progress (Some e)) then
    prog_bind (fun '(o, _) => Done match o with
      | Gives _ => Errs e
      | Errs sampleErr => Errs (if IsLocalStateError (Some e) then EJoin [e; sampleErr] else sampleErr)
      | Panics => Panics
      end) (checkpoint w "transferring" true p)
  else raise e.
Definition verifyFiles (batch : bool) (w : CollectionWork) : prog ccall (result error Verified) :=
  recovering "artifact_verification_panic"
    match wk_Snapshot w with
    | None => raise (failure CodeArtifactCollectionFailed true)
    | Some s =>
        if not_nil (ValidateSnapshot schema w s) || (cg_MaxFiles cfg <? Z.of_nat (length (sn_Files s))) || exceeds (cg_MaxBytes cfg) 0 (sn_Files s)
        then raise (failure CodeArtifactCollectionFailed true)
        else prog_bind (fun '(o, p) => match o with Errs e => sample_failure w p e | Gives v => Done (Gives v) | Panics => Done Panics end)
               (verify_snapshot batch w s (newProgressTracker s))
    end.

(** ** Discovery *)
(** The bytes the buffer holds are those the writer accepted. *)
Definition manifest_writes (limit : Z) (l : list (option error * list ascii)) : checkedWriter :=
  foldl (fun c '(ctx, data) => (checked_Write c ctx data (Z.of_nat (length data)) None).1) (newCheckedWriter limit) l.
Definition last_manifest (catalog : list Artifact) : option Artifact :=
  foldl (fun found a => if af_Path a ==? ManifestPath then Some a else found) None catalog.
Definition MaxArtifactBytes : Z := 4 * 2 ^ 30.
Fixpoint catalog_exceeds (total : Z) (l : list Artifact) : bool :=
  match l with
  | [] => false
  | a :: l => (af_Bytes a <? 0) || (MaxArtifactBytes - total <? af_Bytes a) || catalog_exceeds (total + af_Bytes a) l
  end.
Definition discover (w : CollectionWork) : prog ccall (result error CollSnapshot) :=
  recovering "artifact_discovery_panic" (
  _ ← ctx_alive CallCtx;
  r ← guarded_call (CList (wk_Remote w));
  match r with
  | Err e => raise (if IsLocalStateError (Some e) then e else fail_at (Some e) "artifact_catalog_failed")
  | Ok catalog =>
      if cg_MaxFiles cfg <? Z.of_nat (length catalog) then raise (failureAt CodeArtifactCollectionFailed true "artifact_file_limit")
      else if catalog_exceeds 0 catalog then raise (failureAt CodeArtifactCollectionFailed true "artifact_byte_limit")
      else if existsb (fun a => not_nil (Artifact_Validate a (wk_Remote w))) catalog then raise (failure CodeRemoteIdentityMismatch true)
      else if negb (collisionFree (map af_Path catalog)) then raise (failureAt CodeArtifactCollectionFailed true "artifact_path_invalid")
      else match last_manifest catalog with
      | None => raise (failure CodeResultManifestMissing false)
      | Some a =>
          if MaxManifestBytes <? af_Bytes a then raise (failureAt CodeArtifactCollectionFailed true "artifact_byte_limit")
          else
            '(writes, result) ← guarded_call (CFetchManifest (wk_Remote w) a);
            match result with
            | Err e => raise (if IsLocalStateError (Some e) then e else fail_at (Some e) "artifact_manifest_download_failed")
            | Ok result =>
                let c := manifest_writes (af_Bytes a) writes in
                if negb (checked_matches c a result) then raise (failure CodeArtifactDigestMismatch true)
                else match BuildSnapshot schema w (string_of (ck_hash c)) catalog cfg with
                | Ok s => mret s
                | Err e => raise e
                end
            end
      end
  end).
(** The provider of a binding, and whether it transfers in batches. *)
Definition mismatched (e : error) : bool :=
  not_nil (problem_with false CodeRemoteIdentityMismatch (Some e)) || not_nil (problem_with true CodeRemoteIdentityMismatch (Some e)).
Definition resolve (w : CollectionWork) : prog ccall (result error bool) :=
  recovering "artifact_resolver_panic" (
  r ← guarded_call (CResolve (wk_Binding w));
  match r with
  | Err e =>
      if IsLocalStateError (Some e) then raise e
      else _ ← ctx_alive CallCtx; raise (fail_at (Some e) "artifact_binding_unavailable")
  | Ok None => raise (failureAt CodeArtifactCollectionFailed false "artifact_binding_unavailable")
  | Ok (Some batch) =>
      e ← guarded_call (CVerify (wk_Binding w));
      match e with
      | None => mret batch
      | Some e =>
          if IsLocalStateError (Some e) then raise e
          else
            _ ← ctx_alive CallCtx;
            raise (if mismatched e then failure CodeRemoteIdentityMismatch true else fail_at (Some e) "artifact_account_read_failed")
      end
  end).

(** ** One run *)
Definition discoveryFileLimit (w : CollectionWork) : Z :=
  match ReadDocument (rj_Specification (pl_Job (wk_Plan w))) ≫= dec_spec with
  | None => cg_MaxFiles cfg
  | Some spec =>
      if existsb (fun o => ou_Kind o ==? "directory") (sc_Outputs spec) then cg_MaxFiles cfg
      else Z.min (4 + Z.of_nat (length (sc_Outputs spec))) (cg_MaxFiles cfg)
  end.
Definition collectionTimeout (w : CollectionWork) : Duration :=
  match wk_Snapshot w with
  | None => ArtifactReadBudget (cg_Timeout cfg) (cg_MaxBytes cfg) (discoveryFileLimit w)
  | Some s => ArtifactReadBudget (cg_Timeout cfg) (foldl (fun n f => n + om_Bytes (fl_Object f)) 0 (sn_Files s)) (Z.of_nat (length (sn_Files s)))
  end.
(** [Engine.recordFailure]. *)
Definition commit_failure (w : CollectionWork) (err : error) : prog ccall (option error) :=
  ctx ← perform (CCtx RecordCtx);
  match ctx with
  | Some e => mret (Some e)
  | None =>
      let f := collectionFailure (Some err) in
      e ← perform (CFail w f);
      mret match e with Some e => Some e | None => Some (failure_error f) end
  end.
(** The closure [recordFailure] of [RunOnce]. *)
Definition recordFailure (w : CollectionWork) (err : error) : prog ccall (option error) :=
  kept ← (if IsLocalStateError (Some err) then mret true
          else if is_progress (Some err) then ctx ← perform (CCtx TimeoutCtx); mret (negb (errors_Is ctx DeadlineExceeded))
          else mret false);
  if kept : bool then mret (Some err)
  else
    renewal ← perform CStop;
    match renewal with
    | Some _ =>
        mret (if errors_Is (Some err) Canceled || errors_Is (Some err) DeadlineExceeded then HeartbeatError (Some err) renewal
              else HeartbeatError (Some (failure_error (collectionFailure (Some err)))) renewal)
    | None =>
        parent ← perform (CCtx ParentCtx);
        match parent with
        | Some e => mret (Some e)
        | None =>
            ctx ← perform (CCtx TimeoutCtx);
            commit_failure w (if errors_Is ctx DeadlineExceeded
                              then failureAt CodeArtifactCollectionFailed false "artifact_call_timeout" else err)
        end
    end.
Definition with_snapshot (w : CollectionWork) (s : CollSnapshot) : CollectionWork :=
  mkCollectionWork (wk_Lease w) (wk_Plan w) (wk_Binding w) (wk_Observation w) (Some s).
(** After the snapshot is pinned. *)
Definition publish (batch : bool) (w : CollectionWork) : prog ccall (option error) :=
  proof ← verifyFiles batch w;
  match proof with
  | Err e => recordFailure w e
  | Ok proof =>
      e ← perform CStop;
      match e with Some e => mret (Some e) | None => perform (CComplete w proof) end
  end.
Definition collect (w : CollectionWork) : prog ccall (option error) :=
  src ← resolve w;
  match src with
  | Err e => recordFailure w e
  | Ok batch =>
      match wk_Snapshot w with
      | Some _ => publish batch w
      | None =>
          s ← discover w;
          match s with
          | Err e => recordFailure w e
          | Ok s =>
              e ← perform (CPin w s);
              match e with Some e => mret (Some e) | None => publish batch (with_snapshot w s) end
          end
      end
  end.
Definition RunCollection : prog ccall (bool * option error) :=
  full ← perform CAcquire;
  match full with
  | Some e => mret (false, Some e)
  | None =>
      claimed ← perform (CClaim LeaseDuration (cg_Workers cfg));
      match claimed with
      | Err e => mret (false, Some e)
      | Ok None => mret (false, None)
      | Ok (Some w) =>
          if negb (CollectionWork_Valid w) then mret (true, Some collection_ErrInvalid)
          else
            _ ← perform (CHeartbeat (collectionTimeout w) (cl_Until (wk_Lease w)));
            e ← collect w;
            renewal ← perform CStop;
            mret (true, HeartbeatError e renewal)
      end
  end.
End Collect.
(** How [Run] judges the error of one run. *)
Definition collection_classify (err : option error) : Decision :=
  if IsLocalStateError err then Classify err
  else if not_nil (errors_As as_failure err) || errors_Is err collection_ErrLeaseLost_text then Continue
  else Classify err.

(** ** Reading results

    [reader.go]: the files of a verified result, for a caller that may read
    the workspace. *)
Record CollectionResult := mkCollectionResult {
  cr_WorkspaceID : string; cr_JobID : string; cr_AttemptID : string; cr_Phase : string; cr_VerifiedAt : Time; cr_Files : list CollFile }.
Inductive readcall : Type -> Type :=
  | RdCtxErr : readcall (option error)
  | RdToken (digest : string) : readcall (result error TokenRecord)
  | RdWorkspace (id : string) : readcall (result error Workspace)
  | ReadCollection (w token job attempt : string) : readcall (result error CollectionResult)
  | OpenResult (w id : string) : readcall (result error bool).
#[export] Instance readcall_auth : AuthCalls readcall :=
  {| AccessCtxErr := RdCtxErr; LookupToken := RdToken; LookupWorkspace := RdWorkspace |}.
Definition Reader_Read (p : Principal) (w job attempt : string) : service readcall CollectionResult :=
  try fresh <- authorize p w ScopeRead ;;
  refuse negb (ID_Valid job) || negb (ID_Valid attempt) with collection_ErrNotFound ;;
  perform (ReadCollection w (pr_tokenID fresh) job attempt).
(** The file whose bytes are then streamed; [OpenResult] answers whether the
    store gave a stream. *)
Definition Reader_Open (p : Principal) (w job attempt id : string) : service readcall CollFile :=
  try result <- Reader_Read p w job attempt ;;
  match find (fun f => fl_ID f ==? id) (cr_Files result) with
  | None => fail_with collection_ErrNotFound
  | Some f =>
      opened ← perform (OpenResult w (om_ID (fl_Object f)));
      Done match opened with Ok true => Ok f | _ => Err collection_ErrUnavailable end
  end.
