(* ===== verification/CollectProps.v ===== *)
(** * A collection publishes only what it has read back

    A monitor over the calls of one run of the collection engine: what may be
    pinned, stored, sampled, published or recorded as a failure, and when. *)

From S2P Require Import Prelude Effects GoStrings GoTime GoSha256 GoJson JsonRead Identifiers Problems AttemptStates AttemptRuns Attempts DomainRecords Provider ProviderResources Transfer Workers Admission Auth Journal RunnerPlan Collection CollectionProps CollectionEngine.
#[local] Open Scope string_scope.
#[local] Open Scope list_scope.
#[local] Open Scope Z_scope.
#[local] Open Scope bool_scope.

(** ** Events *)
Inductive coll_event :=
  | ClaimsWork (w : CollectionWork) | PinsSnapshot (w : CollectionWork) (s : CollSnapshot) | PinAnswers (e : option error)
  | PutsBlob (m : ObjectMetadata) | SeesBlob (m : ObjectMetadata) | Samples (w : CollectionWork) (x : CollectionProgress)
  | Publishes (w : CollectionWork) (v : Verified) | PublishAnswers (e : option error) | FailsWork (w : CollectionWork) (f : CollectionFailure).
(** The stored bytes are those of the object. *)
Definition blob_is (m : ObjectMetadata) (b : blob_answer) : bool :=
  let copied := take (Z.to_nat (om_Bytes m + 1)) (bl_data b) in
  is_nil (bl_read b) && is_nil (bl_close b) && (Z.of_nat (length copied) =? om_Bytes m) && (sha256_hex (string_of copied) ==? om_SHA256 m).
#[export] Instance ccall_events : Observed ccall coll_event := {|
  called X e :=
    match e with
    | CPin w s => [PinsSnapshot w s]
    | CPut m _ | CTransfer _ m | CPutStream m => [PutsBlob m]
    | CProgress w _ x => [Samples w x]
    | CComplete w v => [Publishes w v]
    | CFail w f => [FailsWork w f]
    | _ => []
    end;
  answered X e :=
    match e in ccall X return X -> list coll_event with
    | CClaim _ _ => fun r => match r with Ok (Some w) => [ClaimsWork w] | _ => [] end
    | CPin _ _ => fun r => [PinAnswers r]
    | CComplete _ _ => fun r => [PublishAnswers r]
    | COpen m => fun r => match r with Some (Ok (Some b)) => if blob_is m b then [SeesBlob m] else [] | _ => [] end
    | _ => fun _ => []
    end |}.

Section Monitor.
Context (schema : jvalue -> bool).
(** The claimed work, its pinned snapshot, the objects whose stored bytes
    were read and compared in this run, the bytes of the last sample, and the
    last of the writes that decide the collection. *)
Inductive coll_phase := Collecting | PinSent | PublishSent | Published | FailureSent.
Record collect_state := mkCollectState {
  cs_work : option CollectionWork; cs_pinned : option CollSnapshot; cs_seen : list ObjectMetadata; cs_last : Z; cs_phase : coll_phase }.
Definition snapshot_objects (s : CollSnapshot) : list ObjectMetadata := map fl_Object (sn_Files s).
Definition sample_fits (lease : CollectionLease) (s : CollSnapshot) (last : Z) (x : CollectionProgress) : bool :=
  (cp_Generation x =? cl_Generation lease) && (last <=? cp_BytesCompleted x)
  && match cp_BytesReceived x, cp_BytesTotal x with
     | Some received, Some total =>
         (0 <=? received) && (received <=? cp_BytesCompleted x) && (cp_BytesCompleted x <=? total) && (total =? output_bytes (sn_Files s))
         && (total <=? 4 * 2 ^ 30)
     | _, _ => false
     end.
Definition publishable (w : CollectionWork) (s : CollSnapshot) (seen : list ObjectMetadata) (w' : CollectionWork) (v : Verified) : bool :=
  (wk_Lease w' ==? wk_Lease w) && (vf_lease v ==? wk_Lease w) && (vf_snapshot v ==? s) && Verified_Matches v w'
  && is_nil (ValidateSnapshot schema w s) && forallb (fun m => bool_decide (m ∈ seen)) (snapshot_objects s)
  && match parseManifest schema w (sn_Manifest s) with Ok (m, _) => rn_Phase m ==? vf_phase v | Err _ => false end.
Definition collect_step (c : collect_state) (e : coll_event) : option collect_state :=
  match e, cs_work c, cs_phase c with
  | ClaimsWork w, None, _ => Some (mkCollectState (Some w) (wk_Snapshot w) [] 0 Collecting)
  | PinsSnapshot w s, Some w0, Collecting =>
      if is_nil (cs_pinned c) && CollectionWork_Valid w0 && (wk_Lease w ==? wk_Lease w0) && is_nil (ValidateSnapshot schema w0 s)
      then Some (mkCollectState (Some w0) (Some s) (cs_seen c) (cs_last c) PinSent) else None
  | PinAnswers None, w, PinSent => Some (mkCollectState w (cs_pinned c) (cs_seen c) (cs_last c) Collecting)
  | PinAnswers (Some _), _, _ => Some c
  | PutsBlob m, Some _, Collecting =>
      match cs_pinned c with Some s => if bool_decide (m ∈ snapshot_objects s) then Some c else None | None => None end
  | SeesBlob m, w, phase => Some (mkCollectState w (cs_pinned c) (m :: cs_seen c) (cs_last c) phase)
  | Samples w x, Some w0, Collecting =>
      match cs_pinned c with
      | Some s =>
          if (wk_Lease w ==? wk_Lease w0) && sample_fits (wk_Lease w0) s (cs_last c) x
          then Some (mkCollectState (Some w0) (Some s) (cs_seen c) (cp_BytesCompleted x) Collecting) else None
      | None => None
      end
  | Publishes w v, Some w0, Collecting =>
      match cs_pinned c with
      | Some s =>
          if publishable w0 s (cs_seen c) w v then Some (mkCollectState (Some w0) (Some s) (cs_seen c) (cs_last c) PublishSent) else None
      | None => None
      end
  | PublishAnswers None, w, PublishSent => Some (mkCollectState w (cs_pinned c) (cs_seen c) (cs_last c) Published)
  | PublishAnswers (Some _), _, _ => Some c
  | FailsWork w f, Some w0, Collecting =>
      if (wk_Lease w ==? wk_Lease w0) && ValidCollectionReason (cf_Reason f)
      then Some (mkCollectState (Some w0) (cs_pinned c) (cs_seen c) (cs_last c) FailureSent) else None
  | _, _, _ => None
  end.
Definition no_collection : collect_state := mkCollectState None None [] 0 Collecting.
Definition collects {R} (t : prog ccall R) c Q := obeys collect_step (fun _ _ (_ : ccall _) _ => True) t c Q.
Lemma collects_call {X R} (e : ccall X) (k : X -> prog ccall R) c c1 Q :
  feed collect_step c (called e) = Some c1 ->
  (forall x, exists c2, feed collect_step c1 (answered e x) = Some c2 /\ collects (k x) c2 Q) -> collects (Call e k) c Q.
Proof. intros H1 H2. exists c1. split; [done|]. intros x _. apply H2. Qed.
Lemma collects_silent {X R} (e : ccall X) (k : X -> prog ccall R) c Q :
  called (L := coll_event) e = [] -> (forall x, answered (L := coll_event) e x = []) -> (forall x, collects (k x) c Q) -> collects (Call e k) c Q.
Proof. intros H1 H2 H. apply (collects_call _ _ _ c); [by rewrite H1|]. intros x. exists c. by rewrite H2. Qed.
Lemma collects_bind {A B} (t : prog ccall A) (k : A -> prog ccall B) c Q :
  collects t c (fun a c' => collects (k a) c' Q) -> collects (prog_bind k t) c Q.
Proof. apply obeys_bind. Qed.
Lemma collects_mono {R} (t : prog ccall R) c (Q Q' : R -> collect_state -> Prop) :
  collects t c Q -> (forall r c', Q r c' -> Q' r c') -> collects t c Q'.
Proof. apply obeys_mono. Qed.
Lemma collects_done {R} (r : R) c (Q : R -> collect_state -> Prop) : Q r c -> collects (Done r) c Q.
Proof. done. Qed.
#[local] Opaque collects.

(** ** While a snapshot is being verified *)
Section Verifying.
Context (w : CollectionWork) (s : CollSnapshot).
Definition busy (seen : list ObjectMetadata) (last : Z) : collect_state := mkCollectState (Some w) (Some s) seen last Collecting.
(** The tracker: what may be sampled now, and room for [n] more bytes. *)
Record sane (p : progressTracker) (last : Z) : Prop := mkSane {
  sn_received : 0 <= tk_received p <= tk_completed p + tk_current p;
  sn_last : last <= tk_completed p + tk_current p;
  sn_total : tk_completed p + tk_current p <= tk_total p;
  sn_output : tk_total p = output_bytes (sn_Files s) }.
Record room (p : progressTracker) (last n : Z) : Prop := mkRoom {
  rm_sane : sane p last; rm_current : tk_current p = 0; rm_room : tk_completed p + n <= tk_total p; rm_positive : 0 <= n }.
(** What a computation ends in: a value with [G], or an error or panic after
    which the tracker can be sampled. *)
Definition vpost {A} (seen : list ObjectMetadata) (G : A -> progressTracker -> list ObjectMetadata -> Z -> Prop)
    (r : computed A * progressTracker) (c : collect_state) : Prop :=
  exists seen' last', c = busy seen' last' /\ seen ⊆ seen' /\
    match r.1 with Gives a => G a r.2 seen' last' | _ => sane r.2 last' end.
Definition vcollects {A} (m : VM A) p seen last (G : A -> progressTracker -> list ObjectMetadata -> Z -> Prop) : Prop :=
  collects (m p) (busy seen last) (vpost seen G).
Definition opost {A} (seen : list ObjectMetadata) (last : Z) (G : A -> list ObjectMetadata -> Prop) (o : computed A) (c : collect_state) : Prop :=
  exists seen', c = busy seen' last /\ seen ⊆ seen' /\ match o with Gives a => G a seen' | _ => True end.
Definition ocollects {A} (m : oc A) seen last (G : A -> list ObjectMetadata -> Prop) : Prop :=
  collects m (busy seen last) (opost seen last G).

Lemma vc_bind {A B} (m : VM A) (k : A -> VM B) p seen last G1 G :
  vcollects m p seen last G1 ->
  (forall a p' seen' last', seen ⊆ seen' -> G1 a p' seen' last' -> vcollects (k a) p' seen' last' G) ->
  vcollects (m ≫= k) p seen last G.
Proof.
  intros Hm Hk. unfold vcollects, mbind, VM_bind. apply collects_bind. eapply collects_mono; [exact Hm|].
  intros [o p'] c (seen' & last' & -> & Hs & H). destruct o as [a|e|]; cbn [fst snd] in H.
  - eapply collects_mono; [by apply Hk|]. intros r c (seen2 & last2 & -> & Hs2 & H2). exists seen2, last2. split_and!; [done| |done]. by etrans.
  - apply collects_done. by exists seen', last'.
  - apply collects_done. by exists seen', last'.
Qed.
Lemma vc_ret {A} (a : A) p seen last (G : A -> _ -> _ -> _ -> Prop) : G a p seen last -> vcollects (mret a) p seen last G.
Proof. intros H. apply collects_done. by exists seen, last. Qed.
Lemma vc_raises {A} e p seen last (G : A -> _ -> _ -> _ -> Prop) : sane p last -> vcollects (raises e) p seen last G.
Proof. intros H. apply collects_done. by exists seen, last. Qed.
Lemma vc_track f p seen last (G : unit -> _ -> _ -> _ -> Prop) : G tt (f p) seen last -> vcollects (track f) p seen last G.
Proof. intros H. apply collects_done. by exists seen, last. Qed.
Lemma vc_tracked {A} (f : progressTracker -> A) p seen last (G : A -> _ -> _ -> _ -> Prop) : G (f p) p seen last -> vcollects (tracked f) p seen last G.
Proof. intros H. apply collects_done. by exists seen, last. Qed.
Lemma vc_lift {A} (m : oc A) p seen last (G1 : A -> list ObjectMetadata -> Prop) (G : A -> _ -> _ -> _ -> Prop) :
  ocollects m seen last G1 -> sane p last -> (forall a seen', seen ⊆ seen' -> G1 a seen' -> G a p seen' last) ->
  vcollects (lift m) p seen last G.
Proof.
  intros Hm Hp HG. unfold vcollects, lift. apply collects_bind. eapply collects_mono; [exact Hm|].
  intros o c (seen' & -> & Hs & H). apply collects_done. exists seen', last. split_and!; [done..|]. destruct o; cbn; auto.
Qed.
Lemma vc_mono {A} (m : VM A) p seen last (G G' : A -> _ -> _ -> _ -> Prop) :
  vcollects m p seen last G -> (forall a p' seen' last', seen ⊆ seen' -> G a p' seen' last' -> G' a p' seen' last') -> vcollects m p seen last G'.
Proof.
  intros Hm HG. eapply collects_mono; [exact Hm|]. intros [o p'] c (seen' & last' & -> & Hs & H). exists seen', last'.
  split_and!; [done..|]. destruct o; cbn in *; auto.
Qed.
Lemma oc_bind_ok {A B} (m : oc A) (k : A -> oc B) seen last G1 G :
  ocollects m seen last G1 -> (forall a seen', seen ⊆ seen' -> G1 a seen' -> ocollects (k a) seen' last G) -> ocollects (m ≫= k) seen last G.
Proof.
  intros Hm Hk. unfold ocollects, mbind, oc_bind. apply collects_bind. eapply collects_mono; [exact Hm|].
  intros [a|e|] c (seen' & -> & Hs & H).
  - eapply collects_mono; [by apply Hk|]. intros r c (seen2 & -> & Hs2 & H2). exists seen2. split_and!; [done| |done]. by etrans.
  - apply collects_done. by exists seen'.
  - apply collects_done. by exists seen'.
Qed.
Lemma oc_ret_ok {A} (a : A) seen last (G : A -> list ObjectMetadata -> Prop) : G a seen -> ocollects (mret a) seen last G.
Proof. intros H. apply collects_done. by exists seen. Qed.
Lemma oc_raise_ok {A} e seen last (G : A -> list ObjectMetadata -> Prop) : ocollects (raise e) seen last G.
Proof. apply collects_done. by exists seen. Qed.
Lemma oc_plain {X} (e : ccall X) seen last (G : X -> list ObjectMetadata -> Prop) :
  called (L := coll_event) e = [] -> (forall x, answered (L := coll_event) e x = []) -> (forall x, G x seen) -> ocollects (plain e) seen last G.
Proof. intros H1 H2 H. apply collects_silent; [done..|]. intros x. apply collects_done. exists seen. by split_and!. Qed.
Lemma oc_guarded {X} (e : ccall (option X)) seen last (G : X -> list ObjectMetadata -> Prop) :
  called (L := coll_event) e = [] -> (forall x, answered (L := coll_event) e x = []) -> (forall x, G x seen) -> ocollects (guarded_call e) seen last G.
Proof. intros H1 H2 H. apply collects_silent; [done..|]. intros x. apply collects_done. exists seen. split_and!; [done..|]. by destruct x. Qed.
Lemma oc_alive seen last (G : unit -> list ObjectMetadata -> Prop) c : G tt seen -> ocollects (ctx_alive c) seen last G.
Proof.
  intros HG. eapply (oc_bind_ok _ _ _ _ (fun _ seen' => seen' = seen)); [by apply oc_plain|].
  intros [e|] seen' _ ->; [apply oc_raise_ok|by apply oc_ret_ok].
Qed.
(** Sequences of the common steps. *)
Lemma vc_ask {A B} (m : oc A) (k : A -> VM B) p seen last G1 G :
  ocollects m seen last G1 -> sane p last -> (forall a seen', seen ⊆ seen' -> G1 a seen' -> vcollects (k a) p seen' last G) ->
  vcollects (lift m ≫= k) p seen last G.
Proof.
  intros Hm Hp Hk. eapply (vc_bind _ _ _ _ _ (fun a p' seen' last' => p' = p /\ last' = last /\ G1 a seen')).
  - by eapply vc_lift.
  - intros a p' seen' last' Hs (-> & -> & H). by apply Hk.
Qed.
Lemma vc_call {X B} (e : ccall X) (k : X -> VM B) p seen last G :
  called (L := coll_event) e = [] -> (forall x, answered (L := coll_event) e x = []) ->
  sane p last -> (forall x, vcollects (k x) p seen last G) -> vcollects (lift (plain e) ≫= k) p seen last G.
Proof. intros H1 H2 Hp Hk. eapply (vc_ask _ _ _ _ _ (fun _ seen' => seen' = seen)); [by apply oc_plain|done|]. intros x ? _ ->. apply Hk. Qed.
Lemma vc_guarded {X B} (e : ccall (option X)) (k : X -> VM B) p seen last G :
  called (L := coll_event) e = [] -> (forall x, answered (L := coll_event) e x = []) ->
  sane p last -> (forall x, vcollects (k x) p seen last G) -> vcollects (lift (guarded_call e) ≫= k) p seen last G.
Proof. intros H1 H2 Hp Hk. eapply (vc_ask _ _ _ _ _ (fun _ seen' => seen' = seen)); [by apply oc_guarded|done|]. intros x ? _ ->. apply Hk. Qed.
Lemma vc_get {A B} (f : progressTracker -> A) (k : A -> VM B) p seen last G :
  vcollects (k (f p)) p seen last G -> vcollects (tracked f ≫= k) p seen last G.
Proof. done. Qed.
Lemma vc_set {B} f (k : unit -> VM B) p seen last G : vcollects (k tt) (f p) seen last G -> vcollects (track f ≫= k) p seen last G.
Proof. done. Qed.
Lemma vc_done {A B} (a : A) (k : A -> VM B) p seen last G : vcollects (k a) p seen last G -> vcollects (mret a ≫= k) p seen last G.
Proof. done. Qed.

(** *** Samples, stored files and writes *)
Hypothesis small : output_bytes (sn_Files s) <= 4 * 2 ^ 30.
(** The work as the engine holds it after pinning. *)
Variable w' : CollectionWork.
Hypothesis same_lease : wk_Lease w' = wk_Lease w.
Lemma sample_ok p last now : sane p last -> sample_fits (wk_Lease w) s last (progress_sample w' p now) = true.
Proof.
  intros []. unfold sample_fits, progress_sample. cbn [cp_Generation cp_BytesCompleted cp_BytesReceived cp_BytesTotal]. rewrite same_lease.
  rewrite !andb_true_iff, !Z.leb_le, !Z.eqb_eq. repeat split; lia.
Qed.
Definition same_counts (p p' : progressTracker) : Prop :=
  tk_completed p' = tk_completed p /\ tk_current p' = tk_current p /\ tk_received p' = tk_received p /\ tk_total p' = tk_total p.
Lemma sane_counts p p' last : same_counts p p' -> sane p last -> sane p' last.
Proof. intros (H1 & H2 & H3 & H4) []. split; rewrite ?H1, ?H2, ?H3, ?H4; done. Qed.
Lemma sane_self p last : sane p last -> sane p (tk_completed p + tk_current p).
Proof. intros []. split; lia. Qed.
Lemma sampled_ok stage force p seen last :
  sane p last -> collects (checkpoint w' stage force p) (busy seen last)
    (fun r c => exists last', c = busy seen last' /\ same_counts p r.2 /\ sane r.2 last').
Proof.
  intros Hp. unfold checkpoint, mbind, VM_bind, lift, plain. cbn [prog_bind]. apply collects_silent; [done..|]. intros now.
  cbn [prog_bind tracked]. destruct (_ && _); [apply collects_done; by exists last|]. cbn [prog_bind guarded_call].
  apply (collects_call _ _ _ (busy seen (tk_completed p + tk_current p))).
  { cbn [called ccall_events feed collect_step busy cs_work cs_phase cs_pinned cs_last cs_seen]. rewrite same_lease, bool_decide_eq_true_2, sample_ok by done. done. }
  intros x. eexists. split; [done|]. apply sane_self in Hp. destruct x as [[e|]|]; apply collects_done; eexists; (split; [done|]); (split; [done|]); by apply (sane_counts p).
Qed.
Lemma checkpoint_ok stage force p seen last :
  sane p last ->
  vcollects (checkpoint w' stage force) p seen last (fun _ p' seen' last' => seen' = seen /\ same_counts p p' /\ sane p' last').
Proof.
  intros Hp. eapply collects_mono; [by apply sampled_ok|]. intros [o p'] c (last' & -> & H1 & H2). exists seen, last'. split_and!; [done..|]. by destruct o.
Qed.
Lemma caught_checkpoint stage force p seen last :
  sane p last ->
  vcollects (caught (checkpoint w' stage force)) p seen last (fun _ p' seen' last' => seen' = seen /\ same_counts p p' /\ sane p' last').
Proof.
  intros Hp. unfold vcollects, caught. apply collects_bind. eapply collects_mono; [by apply sampled_ok|].
  intros [o p'] c (last' & -> & H1 & H2). apply collects_done. exists seen, last'. destruct o; by split_and!.
Qed.
Lemma existing_ok m seen last : ocollects (existing m) seen last (fun b seen' => b = true -> m ∈ seen').
Proof.
  unfold ocollects, existing, mbind, oc_bind. cbn [guarded_call prog_bind]. apply (collects_call _ _ _ (busy seen last)); [done|].
  intros [[[b|]|e]|]; cbn [answered ccall_events].
  2,3,4: eexists; split; [done|]; apply collects_done; by exists seen.
  destruct (blob_is m b) eqn:E; cbv zeta; unfold blob_is in E; cbv zeta in E.
  - exists (busy (m :: seen) last). split; [done|]. rewrite !andb_true_iff in E. destruct E as [[[E1 E2] E3] E4].
    destruct (bl_read b), (bl_close b); try done. cbn [not_nil orb negb]. rewrite E3, E4. cbn [negb orb].
    apply collects_done. exists (m :: seen). split_and!; [done|set_solver|]. intros _. by left.
  - exists (busy seen last). split; [done|].
    destruct (not_nil (bl_read b) || not_nil (bl_close b)) eqn:E1; [apply collects_done; by exists seen|].
    destruct (negb _ || _) eqn:E2; [apply collects_done; by exists seen|]. exfalso.
    apply orb_false_iff in E1 as [E1 E3], E2 as [E2 E4]. apply negb_false_iff in E2, E4. rewrite E2, E4 in E.
    by destruct (bl_read b), (bl_close b).
Qed.
Lemma oc_put {X} (e : ccall (option X)) m seen last (G : X -> list ObjectMetadata -> Prop) :
  called e = [PutsBlob m] -> (forall x, answered (L := coll_event) e x = []) -> m ∈ snapshot_objects s -> (forall x, G x seen) ->
  ocollects (guarded_call e) seen last G.
Proof.
  intros H1 H2 Hm HG. apply (collects_call _ _ _ (busy seen last)).
  { rewrite H1. cbn [feed collect_step busy cs_work cs_phase cs_pinned]. by rewrite bool_decide_eq_true_2. }
  intros x. eexists. rewrite H2. split; [done|]. apply collects_done. exists seen. split_and!; [done..|]. by destruct x.
Qed.

(** *** Streams *)
(** A stream under way: what it reported is what the tracker counts. *)
Record streaming (st : stream_state) (p : progressTracker) (last : Z) : Prop := mkStreaming {
  sg_current : tk_current p = st_previous st;
  sg_received : tk_received p = st_base st + st_previous st;
  sg_previous : 0 <= st_previous st <= st_size st;
  sg_base : 0 <= st_base st <= tk_completed p;
  sg_room : tk_completed p + st_size st <= tk_total p;
  sg_last : last <= tk_completed p + st_previous st;
  sg_output : tk_total p = output_bytes (sn_Files s) }.
Lemma streaming_sane st p last : streaming st p last -> sane p last.
Proof. intros []. split; lia. Qed.
Lemma streaming_counts st p p' last last' : same_counts p p' -> streaming st p last -> last' <= tk_completed p + tk_current p -> streaming st p' last'.
Proof. intros (H1 & H2 & H3 & H4) [] ?. split; rewrite ?H1, ?H2, ?H3, ?H4; try done. lia. Qed.
(** The part of the tracker a stream leaves alone. *)
Definition same_file (st st' : stream_state) (p p' : progressTracker) : Prop :=
  st_size st' = st_size st /\ st_base st' = st_base st /\ tk_completed p' = tk_completed p.
Lemma vc_caught (m : VM unit) p seen last (G : unit -> _ -> _ -> _ -> Prop) (G' : option error -> _ -> _ -> _ -> Prop) :
  vcollects m p seen last G -> (forall p' seen' last', seen ⊆ seen' -> G tt p' seen' last' -> G' None p' seen' last') ->
  (forall e p' seen' last', seen ⊆ seen' -> sane p' last' -> G' (Some e) p' seen' last') -> vcollects (caught m) p seen last G'.
Proof.
  intros Hm HG HE. unfold vcollects, caught. apply collects_bind. eapply collects_mono; [exact Hm|].
  intros [o p'] c (seen' & last' & -> & Hs & H). apply collects_done. exists seen', last'. split_and!; [done|done|]. destruct o as [[]|e|]; cbn in *; auto.
Qed.
Lemma report_ok st n p seen last :
  streaming st p last ->
  vcollects (stream_report w' st n) p seen last
    (fun r p' seen' last' => seen' = seen /\ streaming r.1 p' last' /\ same_file st r.1 p p').
Proof.
  intros Hs. unfold stream_report. destruct ((_ <? _) || _) eqn:E; [by apply vc_ret|]. apply orb_false_iff in E as [E1%Z.ltb_ge E2%Z.ltb_ge].
  apply vc_set. assert (streaming (mkStream (st_base st) n (st_size st)) (transferring st n p) last) as Hn.
  { destruct Hs. split; cbn; lia. }
  eapply vc_bind; [apply caught_checkpoint; by eapply streaming_sane|]. intros e p' seen' last' _ (-> & Hc & Hp).
  apply vc_ret. split; [done|]. split; [|split_and!; [done..|]].
  - eapply streaming_counts; [done|done|]. destruct Hp as [_ Hl _ _]. destruct Hc as (H1 & H2 & _). by rewrite H1, H2 in Hl.
  - by destruct Hc as (-> & _).
Qed.
Lemma same_file_trans st1 st2 st3 p1 p2 p3 : same_file st1 st2 p1 p2 -> same_file st2 st3 p2 p3 -> same_file st1 st3 p1 p3.
Proof. intros (? & ? & ?) (? & ? & ?). unfold same_file. split_and!; congruence. Qed.
(** The stream of a file that is counted, or none. *)
Definition streamed (cb : option stream_state) (p : progressTracker) (last size completed : Z) : Prop :=
  match cb with
  | Some st => streaming st p last /\ st_size st = size
  | None => room p last 0
  end /\ tk_completed p = completed.
Lemma streamed_sane cb p last size completed : streamed cb p last size completed -> sane p last.
Proof. intros [H _]. destruct cb; [eapply streaming_sane, H|apply (rm_sane _ _ _ H)]. Qed.
Lemma report_streamed st n p seen last size completed :
  streamed (Some st) p last size completed ->
  vcollects (stream_report w' st n) p seen last (fun r p' seen' last' => seen' = seen /\ streamed (Some r.1) p' last' size completed).
Proof.
  intros [[Hs Hz] Hc]. eapply vc_mono; [by apply report_ok|]. intros r p' seen' last' _ (-> & Hs' & H1 & H2 & H3).
  unfold streamed. split_and!; [done|done|congruence..].
Qed.
Lemma events_ok cb c events p seen last size completed :
  streamed cb p last size completed ->
  vcollects (fetch_events w' cb c events) p seen last (fun _ p' seen' last' => seen' = seen /\ exists cb', not_nil cb' = not_nil cb /\ streamed cb' p' last' size completed).
Proof.
  revert cb c p last. induction events as [|[ctx data n err|n] events IH]; intros cb c p last Hs; cbn [fetch_events].
  - apply vc_ret. split; [done|]. by exists cb.
  - by apply IH.
  - destruct cb as [st|]; [|by apply IH]. eapply vc_bind; [by apply report_streamed|]. intros [st' e] p' seen' last' _ [-> Hs'].
    eapply vc_mono; [by apply IH|]. intros ? ? ? ? _ (-> & cb' & H1 & H2). split; [done|]. by exists cb'.
Qed.

(** *** One file *)
Definition outsize (f : CollFile) : Z := if fl_Role f ==? "output" then om_Bytes (fl_Object f) else 0.
Lemma output_bytes_cons f l : output_bytes (f :: l) = outsize f + output_bytes l.
Proof.
  unfold output_bytes. cbn [foldl]. assert (forall l n, foldl (fun n f => if fl_Role f ==? "output" then n + om_Bytes (fl_Object f) else n) n l =
    n + foldl (fun n f => if fl_Role f ==? "output" then n + om_Bytes (fl_Object f) else n) 0 l) as H.
  { clear. induction l as [|f l IH]; intros n; cbn [foldl]; [lia|]. rewrite IH, (IH (if fl_Role f ==? "output" then 0 + om_Bytes (fl_Object f) else 0)). case_match; lia. }
  rewrite H. unfold outsize. case_match; lia.
Qed.
(** A file that is stored: none of its bytes, or some, are the current ones. *)
Record fetched (f : CollFile) (p : progressTracker) (last completed : Z) : Prop := mkFetched {
  fd_sane : sane p last; fd_current : 0 <= tk_current p <= outsize f; fd_completed : tk_completed p = completed }.
Lemma count_transferred_ok f p last n :
  fetched f p last (tk_completed p) -> tk_completed p + outsize f + n <= tk_total p -> 0 <= n -> room (count_transferred f p) last n.
Proof. intros [[] Hc _] Hn H0. unfold count_transferred, outsize in *. destruct (_ ==? _); split; try split; cbn in *; try lia. Qed.
Lemma count_completed_ok f p last n : 0 <= outsize f -> room p last (outsize f + n) -> 0 <= n -> room (count_completed f p) last n.
Proof. intros Hf [[] Hc Hr _] H0. unfold count_completed, outsize in *. destruct (_ ==? _); split; try split; cbn in *; try lia. Qed.
Lemma room_counts p p' last last' n : same_counts p p' -> room p last n -> sane p' last' -> room p' last' n.
Proof. intros (H1 & H2 & H3 & H4) [] Hs. split; rewrite ?H1, ?H2, ?H3, ?H4; done. Qed.
Lemma checkpoint_room stage force p seen last n :
  room p last n -> vcollects (checkpoint w' stage force) p seen last (fun _ p' seen' last' => seen' = seen /\ room p' last' n).
Proof.
  intros Hr. eapply vc_mono; [apply checkpoint_ok, (rm_sane _ _ _ Hr)|]. intros _ p' seen' last' _ (-> & Hc & Hp). split; [done|]. by eapply room_counts.
Qed.
Lemma transfer_ok f cb p seen last completed :
  f ∈ sn_Files s -> streamed cb p last (om_Bytes (fl_Object f)) completed ->
  vcollects (transfer w' f cb) p seen last (fun _ p' seen' last' =>
    seen' = seen /\ exists cb', not_nil cb' = not_nil cb /\ streamed cb' p' last' (om_Bytes (fl_Object f)) completed).
Proof.
  intros Hf Hs. unfold vcollects, transfer, perform. cbn [prog_bind]. apply (collects_call _ _ _ (busy seen last)).
  { cbn [called ccall_events feed collect_step busy cs_work cs_phase cs_pinned]. rewrite bool_decide_eq_true_2; [done|].
    unfold snapshot_objects. apply list_elem_of_fmap. by exists f. }
  intros events. eexists. split; [done|]. apply collects_bind. eapply collects_mono; [by apply (events_ok cb (newCheckedWriter (om_Bytes (fl_Object f))) events)|].
  intros [o p'] c (seen' & last' & -> & Hsub & H). cbn [prog_bind]. apply collects_silent; [done..|]. intros ends. apply collects_done.
  exists seen', last'. split_and!; [done..|]. destruct (transfer_error _ _ _) as [x|] eqn:E; cbn [fst snd].
  - destruct o as [ck|e|]; cbn [fst snd] in H.
    + destruct H as (_ & cb' & _ & H). by eapply streamed_sane.
    + done.
    + done.
  - destruct o as [ck|e'|]; cbn [fst snd] in H; [done|..]; exfalso; unfold transfer_error, transfer_final in E; repeat case_match; done.
Qed.
Hypothesis positive : Forall (fun f => 0 <= om_Bytes (fl_Object f)) (sn_Files s).
Lemma outsize_positive f : f ∈ sn_Files s -> 0 <= outsize f.
Proof. intros Hf. rewrite Forall_forall in positive. specialize (positive f Hf). unfold outsize. case_match; lia. Qed.
Lemma object_listed f : f ∈ sn_Files s -> fl_Object f ∈ snapshot_objects s.
Proof. intros Hf. unfold snapshot_objects. apply list_elem_of_fmap. by exists f. Qed.
(** A new stream for a file there is room for. *)
Lemma stream_starts f p last n :
  f ∈ sn_Files s -> fl_Role f = "output" -> room p last (outsize f + n) -> 0 <= n ->
  streamed (Some (mkStream (tk_received p) 0 (om_Bytes (fl_Object f)))) p last (om_Bytes (fl_Object f)) (tk_completed p).
Proof.
  intros Hf Hr [[] Hc Hm _] Hn. pose proof (outsize_positive f Hf). unfold outsize in *. rewrite bool_decide_eq_true_2 in * by done.
  split; [|done]. split; [|done]. split; cbn; lia.
Qed.
Lemma fetch_file_ok f p seen last n :
  f ∈ sn_Files s -> room p last (outsize f + n) -> 0 <= n ->
  vcollects (fetch_file w' f) p seen last (fun _ p' seen' last' => seen' = seen /\ fetched f p' last' (tk_completed p)).
Proof.
  intros Hf Hr Hn. unfold fetch_file. case_bool_decide as Ho.
  - apply vc_get. eapply vc_bind; [apply transfer_ok; [done|by eapply stream_starts]|].
    intros _ p' seen' last' _ (-> & cb' & _ & Hs). pose proof (streamed_sane _ _ _ _ _ Hs) as Hp. apply vc_get.
    destruct (Z.eqb_spec (tk_current p') (om_Bytes (fl_Object f))) as [Hc|]; cbn [negb]; [|by apply vc_raises].
    apply vc_ret. split; [done|]. split; [done| |apply Hs]. pose proof (outsize_positive f Hf). unfold outsize in *. rewrite bool_decide_eq_true_2 in * by done. lia.
  - eapply vc_mono; [apply (transfer_ok _ None); [done|]|].
    + split; [|done]. pose proof (outsize_positive f Hf). destruct Hr as [[] ? ? ?]. split; [split|..]; lia.
    + intros _ p' seen' last' _ (-> & [cb'|] & Hn' & [Hs Hc]); [done|]. split; [done|]. split; [apply Hs| |done].
      unfold outsize. rewrite bool_decide_eq_false_2 by done. rewrite (rm_current _ _ _ Hs). lia.
Qed.
Lemma put_manifest_ok f seen last : f ∈ sn_Files s -> ocollects (put_manifest s f) seen last (fun _ seen' => seen' = seen).
Proof.
  intros Hf. eapply (oc_bind_ok _ _ _ _ (fun _ seen' => seen' = seen)); [eapply oc_put; [done..|by apply object_listed|done]|].
  intros [m|e] seen' _ ->; [|apply oc_raise_ok]. case_match; [by apply oc_ret_ok|apply oc_raise_ok].
Qed.
Lemma verify_file_ok f p seen last n :
  f ∈ sn_Files s -> room p last (outsize f + n) -> 0 <= n ->
  vcollects (verify_file w' s f) p seen last (fun _ p' seen' last' => fl_Object f ∈ seen' /\ room p' last' n).
Proof.
  intros Hf Hr Hn. pose proof (rm_sane _ _ _ Hr) as Hp. pose proof (outsize_positive f Hf) as Hz. unfold verify_file.
  eapply (vc_ask _ _ _ _ _ (fun _ seen' => seen' = seen)); [by apply oc_alive|done|]. intros _ ? _ ->.
  eapply vc_ask; [apply existing_ok|done|]. intros [] seen1 _ Hb.
  - apply vc_set. eapply vc_mono; [apply checkpoint_room; by apply count_completed_ok|]. intros _ p' ? last' _ [-> H]. split; [by apply Hb|done].
  - eapply (vc_bind _ _ _ _ _ (fun _ p' seen' last' => fetched f p' last' (tk_completed p))).
    + case_bool_decide as Hm.
      * eapply vc_lift; [by apply put_manifest_ok|done|]. intros _ seen' _ ->. split; [done| |done]. rewrite (rm_current _ _ _ Hr). lia.
      * eapply vc_mono; [by eapply fetch_file_ok|]. by intros _ p' ? last' _ [-> H].
    + intros _ p1 seen2 last1 _ Hfd. eapply vc_ask; [apply existing_ok|apply Hfd|]. intros [] seen3 _ Hb3; cbn [negb].
      * apply vc_set. eapply vc_mono; [apply (checkpoint_room _ _ _ _ _ n)|].
        { destruct Hfd as [H1 H2 H3]. apply count_transferred_ok; [done| |done]. rewrite H3. destruct Hr as [[] ? ? ?], H1. lia. }
        intros _ p' ? last' _ [-> H]. split; [by apply Hb3|done].
      * apply vc_raises, Hfd.
Qed.
Lemma verify_each_ok l p seen last :
  l ⊆ sn_Files s -> room p last (output_bytes l) ->
  vcollects (verify_each w' s l) p seen last (fun _ p' seen' last' => Forall (fun f => fl_Object f ∈ seen') l /\ room p' last' 0).
Proof.
  revert p seen last. induction l as [|f l IH]; intros p seen last Hl Hr; cbn [verify_each]; [by apply vc_ret|].
  assert (0 <= output_bytes l) as H0.
  { clear -Hl positive. assert (Forall (fun f => 0 <= outsize f) l) as H by (apply Forall_forall; intros x Hx; apply outsize_positive, Hl; by right).
    clear Hl. induction H; [done|]. rewrite output_bytes_cons. lia. }
  rewrite output_bytes_cons in Hr. assert (f ∈ sn_Files s) as Hf by (apply Hl; by left). eapply vc_bind; [by eapply (verify_file_ok f _ _ _ (output_bytes l))|].
  intros _ p1 seen1 last1 _ [Hs1 Hr1]. eapply vc_mono; [apply IH; [intros x Hx; apply Hl; by right|done]|].
  intros _ p2 seen2 last2 Hsub [Hs2 Hr2]. split; [constructor; [by apply Hsub|done]|done].
Qed.

(** *** One batch *)
Lemma batch_Read_ok r x p seen last size completed :
  streamed (br_stream r) p last size completed ->
  vcollects (batch_Read w' r x) p seen last (fun q p' seen' last' =>
    seen' = seen /\ not_nil (br_stream q.1) = not_nil (br_stream r) /\ streamed (br_stream q.1) p' last' size completed).
Proof.
  intros Hs. unfold batch_Read. destruct (rd_ctx x); [by apply vc_ret|].
  destruct (if br_left r <=? 0 then _ else _) as [data err]. cbv zeta. cbn [br_stream br_hash br_n br_left br_readErr].
  assert (forall q p last, not_nil (br_stream q) = not_nil (br_stream r) -> streamed (br_stream q) p last size completed ->
    vcollects match err with
      | Some e => if is_EOF e then mret (q, err) else mret (mkBatchReader (br_hash q) (br_n q) (br_left q) err (br_stream q), err)
      | None => mret (q, err) end p seen last (fun q p' seen' last' =>
        seen' = seen /\ not_nil (br_stream q.1) = not_nil (br_stream r) /\ streamed (br_stream q.1) p' last' size completed)) as Hend.
  { intros q p1 last1 Hn Hq. destruct err as [e|]; [destruct (is_EOF e)|]; by apply vc_ret. }
  destruct (br_stream r) as [st|] eqn:E.
  2: { destruct data; eapply (Hend (mkBatchReader _ _ _ _ _)); done. }
  destruct data as [|b data]; [eapply (Hend (mkBatchReader _ _ _ _ (Some st))); done|].
  eapply vc_bind; [by apply report_streamed|]. intros [st' e] p' ? last' _ [-> Hs'].
  destruct e as [e|]; [by apply vc_ret|eapply (Hend (mkBatchReader _ _ _ _ (Some st'))); done].
Qed.
Lemma batch_reads_ok r l p seen last size completed :
  streamed (br_stream r) p last size completed ->
  vcollects (batch_reads w' r l) p seen last (fun q p' seen' last' =>
    seen' = seen /\ not_nil (br_stream q) = not_nil (br_stream r) /\ streamed (br_stream q) p' last' size completed).
Proof.
  revert r p last. induction l as [|x l IH]; intros r p last Hs; cbn [batch_reads]; [by apply vc_ret|].
  eapply vc_bind; [by apply batch_Read_ok|]. intros [q e] p' ? last' _ (-> & Hn & Hq). cbn [fst] in *. rewrite <- Hn. by apply IH.
Qed.
Lemma batch_drain_ok r l p seen last size completed :
  streamed (br_stream r) p last size completed ->
  vcollects (batch_drain w' r l) p seen last (fun q p' seen' last' =>
    seen' = seen /\ not_nil (br_stream q.1) = not_nil (br_stream r) /\ streamed (br_stream q.1) p' last' size completed).
Proof.
  revert r p last. induction l as [|x l IH]; intros r p last Hs; cbn [batch_drain]; [by apply vc_ret|].
  eapply vc_bind; [by apply batch_Read_ok|]. intros [q [e|]] p' ? last' _ (-> & Hn & Hq); [by apply vc_ret|]. cbn [fst] in *. rewrite <- Hn. by apply IH.
Qed.
Lemma visit_file_ok f p seen last n :
  f ∈ sn_Files s -> room p last (outsize f + n) -> 0 <= n ->
  vcollects (visit_file w' f) p seen last (fun _ p' seen' last' => room p' last' n).
Proof.
  intros Hf Hr Hn. unfold visit_file. pose proof (outsize_positive f Hf) as Hz.
  eapply (vc_bind _ _ _ _ _ (fun st p' seen' last' => not_nil st = (fl_Role f ==? "output") /\ streamed st p' last' (om_Bytes (fl_Object f)) (tk_completed p))).
  { case_bool_decide as Ho; [apply vc_get, vc_ret; split; [done|by eapply stream_starts]|]. apply vc_ret. split; [done|]. split; [|done].
    destruct Hr as [[] ? ? ?]. split; [split|..]; lia. }
  intros st p1 seen1 last1 _ [Hst Hs].
  eapply (vc_bind _ _ _ _ _ (fun _ p' seen' last' => p' = p1 /\ last' = last1)).
  { unfold vcollects, lift, plain. cbn [prog_bind]. apply (collects_call _ _ _ (busy seen1 last1)).
    { cbn [called ccall_events feed collect_step busy cs_work cs_phase cs_pinned]. by rewrite bool_decide_eq_true_2 by (by apply object_listed). }
    intros x. eexists. split; [done|]. apply collects_done. by exists seen1, last1. }
  intros reads ? seen2 ? _ [-> ->]. eapply vc_bind; [by apply batch_reads_ok|]. intros r p2 ? last2 _ (-> & Hn2 & Hs2).
  apply vc_guarded; [done..|by eapply streamed_sane|]. intros [meta|e].
  2: { case_match; apply vc_raises; by eapply streamed_sane. }
  apply vc_call; [done..|by eapply streamed_sane|]. intros rest. eapply vc_bind; [by apply batch_drain_ok|].
  intros [q [e|]] p3 ? last3 _ (-> & Hn3 & Hs3); cbn [fst] in *; [apply vc_raises; by eapply streamed_sane|].
  destruct (_ || _); [apply vc_raises; by eapply streamed_sane|]. apply vc_set.
  eapply vc_mono; [apply (checkpoint_room _ _ _ _ _ n)|by intros _ p' ? last' _ [-> H]].
  pose proof (streamed_sane _ _ _ _ _ Hs3) as Hp3. cbn [br_stream] in Hn2. rewrite Hn2, Hst in Hn3. destruct Hs3 as [Hs3 Hc3]. apply count_transferred_ok; [|destruct Hr as [[] ? ? ?], Hp3; lia|done].
  split; [done| |done]. unfold outsize. destruct (br_stream q) as [st'|]; cbn [not_nil] in Hn3; rewrite <- Hn3.
  - destruct Hs3 as [[] ?]. lia.
  - rewrite (rm_current _ _ _ Hs3). lia.
Qed.
Lemma put_manifest_batch_ok f seen last : f ∈ sn_Files s -> ocollects (put_manifest_batch s f) seen last (fun _ _ => True).
Proof.
  intros Hf. eapply (oc_bind_ok _ _ _ _ (fun _ seen' => seen' = seen)); [eapply oc_put; [done..|by apply object_listed|done]|].
  intros [m|e] seen' _ ->; [|apply oc_raise_ok]. case_match; [apply oc_raise_ok|]. eapply oc_bind_ok; [apply existing_ok|].
  intros [] seen' _ _; [by apply oc_ret_ok|apply oc_raise_ok].
Qed.
Lemma output_positive l : l ⊆ sn_Files s -> 0 <= output_bytes l.
Proof.
  intros Hl. assert (Forall (fun f => 0 <= outsize f) l) as H by (apply Forall_forall; intros x Hx; by apply outsize_positive, Hl).
  clear Hl. induction H; [done|]. rewrite output_bytes_cons. lia.
Qed.
Lemma output_bytes_app l l' : output_bytes (l ++ l') = output_bytes l + output_bytes l'.
Proof. induction l as [|f l IH]; [done|]. cbn [app]. rewrite !output_bytes_cons, IH. lia. Qed.
Lemma batch_targets_ok targets l p seen last :
  l ⊆ sn_Files s -> targets ⊆ sn_Files s -> room p last (output_bytes targets + output_bytes l) ->
  vcollects (batch_targets w' s targets l) p seen last (fun targets' p' seen' last' =>
    targets' `sublist_of` targets ++ l /\ room p' last' (output_bytes targets')).
Proof.
  revert targets p seen last. induction l as [|f l IH]; intros targets p seen last Hl Ht Hr; cbn [batch_targets].
  { apply vc_ret. rewrite app_nil_r. split; [done|]. by rewrite Z.add_0_r in Hr. }
  assert (f ∈ sn_Files s) as Hf by (apply Hl; by left). assert (l ⊆ sn_Files s) as Hl' by (intros x Hx; apply Hl; by right).
  pose proof (rm_sane _ _ _ Hr) as Hp. pose proof (output_positive l Hl') as Hpos. pose proof (output_positive targets Ht).
  rewrite output_bytes_cons in Hr. eapply (vc_ask _ _ _ _ _ (fun _ seen' => seen' = seen)); [by apply oc_alive|done|]. intros _ ? _ ->.
  eapply vc_ask; [apply existing_ok|done|]. intros present seen1 _ _.
  eapply (vc_bind _ _ _ _ _ (fun _ p' seen' last' => p' = p /\ last' = last)).
  { destruct (_ && _); [|by apply vc_ret]. eapply vc_lift; [by apply put_manifest_batch_ok|done|]. done. }
  intros [] ? seen2 ? _ [-> ->].
  - apply vc_set. eapply vc_mono; [apply IH; [done..|]|].
    + apply count_completed_ok; [by apply outsize_positive| |lia].
      replace (outsize f + (output_bytes targets + output_bytes l)) with (output_bytes targets + (outsize f + output_bytes l)) by lia. done.
    + intros targets' p' seen' last' _ [H1 H2]. split; [|done]. etrans; [done|]. apply sublist_app; [done|]. by apply sublist_cons.
  - eapply vc_mono; [apply IH; [done| |]|].
    + intros x [?|Hx]%elem_of_app; [by apply Ht|]. by apply list_elem_of_singleton in Hx as ->.
    + rewrite output_bytes_app, output_bytes_cons. change (output_bytes []) with 0.
      replace (output_bytes targets + (outsize f + 0) + output_bytes l) with (output_bytes targets + (outsize f + output_bytes l)) by lia. done.
    + intros targets' p' seen' last' _ [H1 H2]. split; [|done]. by rewrite <- app_assoc in H1.
Qed.
Lemma target_map_lookup targets path f : target_map targets !! path = Some f -> f ∈ targets /\ fl_Path f = path.
Proof.
  unfold target_map. rewrite <- (rev_involutive targets), <- elem_of_reverse. change @reverse with (fun A (l : list A) => reverse l).
  rewrite rev_involutive. induction targets as [|x targets IH] using rev_ind; [done|]. rewrite foldl_app. cbn [foldl].
  rewrite reverse_app, elem_of_app. intros [[<- <-]|[_ H]]%lookup_insert_Some; [|naive_solver]. split; [left; by apply list_elem_of_singleton|done].
Qed.
(** What is left to fetch once some paths have been visited. *)
Definition unvisited (visited : gset string) (targets : list CollFile) : Z := output_bytes (filter (fun f => fl_Path f ∉ visited) targets).
Lemma unvisited_visit visited targets f :
  NoDup (map fl_Path targets) -> f ∈ targets -> fl_Path f ∉ visited ->
  unvisited visited targets = outsize f + unvisited ({[fl_Path f]} ∪ visited) targets.
Proof.
  unfold unvisited. intros Hn Hf Hv. induction targets as [|x targets IH]; [by apply not_elem_of_nil in Hf|].
  cbn [map] in Hn. apply NoDup_cons in Hn as [Hx Hn]. rewrite !filter_cons. apply elem_of_cons in Hf as [<-|Hf].
  - rewrite decide_True, (decide_False (P := fl_Path f ∉ {[fl_Path f]} ∪ visited)) by set_solver. rewrite output_bytes_cons. do 2 f_equal.
    clear -Hx. induction targets as [|y targets IH]; [done|]. rewrite !filter_cons. cbn [map] in Hx. apply not_elem_of_cons in Hx as [Hy Hx].
    destruct (decide (fl_Path y ∉ visited)).
    + rewrite (decide_True (P := fl_Path y ∉ {[fl_Path f]} ∪ visited)) by set_solver. by rewrite IH.
    + rewrite (decide_False (P := fl_Path y ∉ {[fl_Path f]} ∪ visited)) by set_solver. by apply IH.
  - assert (fl_Path x <> fl_Path f) as Hne. { intros E. apply Hx. rewrite E. by apply list_elem_of_fmap_2. }
    destruct (decide (fl_Path x ∉ visited)) as [H|H].
    + rewrite (decide_True (P := fl_Path x ∉ {[fl_Path f]} ∪ visited)) by set_solver. rewrite !output_bytes_cons, IH by done. lia.
    + rewrite (decide_False (P := fl_Path x ∉ {[fl_Path f]} ∪ visited)) by set_solver. by apply IH.
Qed.
Lemma batch_visits_ok targets visited l p seen last :
  targets ⊆ sn_Files s -> NoDup (map fl_Path targets) -> room p last (unvisited visited targets) ->
  vcollects (batch_visits w' (target_map targets) visited l) p seen last (fun _ p' seen' last' => sane p' last').
Proof.
  intros Ht Hn. revert visited p seen last. induction l as [|v l IH]; intros visited p seen last Hr; cbn [batch_visits].
  { apply vc_ret, Hr. }
  apply vc_call; [done..|apply Hr|]. intros [e|]; [apply vc_ret, Hr|]. destruct (visit_refused _ _ _ _) eqn:E; [apply vc_ret, Hr|]. cbv zeta.
  unfold visit_refused in E. destruct (target_map targets !! af_Path (vs_artifact v)) as [f|] eqn:Ef; [|done].
  apply target_map_lookup in Ef as [Hf Hpath]. rewrite !orb_false_iff in E. destruct E as [[[[E _] _] _] _]. apply bool_decide_eq_false in E.
  rewrite <- Hpath in *. rewrite (unvisited_visit visited targets f) in Hr by done.
  assert (0 <= unvisited ({[fl_Path f]} ∪ visited) targets) as H0.
  { apply output_positive. intros x [_ Hx]%list_elem_of_filter. by apply Ht. }
  eapply (vc_bind _ _ _ _ _ (fun e p' seen' last' => match e with None => room p' last' (unvisited ({[fl_Path f]} ∪ visited) targets) | Some _ => sane p' last' end)).
  - eapply vc_caught; [apply visit_file_ok; [by apply Ht|exact Hr|done]|done..].
  - intros [e|] p' seen' last' _ H; [by apply vc_ret|by apply IH].
Qed.
Lemma reopen_each_ok l seen last : ocollects (reopen_each l) seen last (fun _ seen' => Forall (fun f => fl_Object f ∈ seen') l).
Proof.
  revert seen. induction l as [|f l IH]; intros seen; cbn [reopen_each]; [by apply oc_ret_ok|].
  eapply oc_bind_ok; [apply existing_ok|]. intros [] seen1 _ H1; [|apply oc_raise_ok].
  unfold ocollects in *. eapply collects_mono; [apply IH|]. intros o c (seen2 & -> & Hs & H2). exists seen2. split_and!; [done..|].
  destruct o; [|done..]. constructor; [by apply Hs, H1|done].
Qed.
Hypothesis distinct : NoDup (map fl_Path (sn_Files s)).
Lemma verifyBatch_ok p seen last :
  room p last (output_bytes (sn_Files s)) ->
  vcollects (verifyBatch w' s) p seen last (fun _ p' seen' last' => Forall (fun f => fl_Object f ∈ seen') (sn_Files s) /\ sane p' last').
Proof.
  intros Hr. unfold verifyBatch. eapply vc_bind; [apply batch_targets_ok; [done|set_solver|done]|].
  intros targets p1 seen1 last1 _ [Hsub Hr1]. cbn [app] in Hsub. eapply vc_bind; [by apply checkpoint_room|]. intros _ p2 ? last2 _ [-> Hr2].
  apply vc_guarded; [done..|apply Hr2|]. intros visits. eapply vc_bind; [apply (batch_visits_ok _ ∅)|].
  - intros x Hx. by eapply elem_of_sublist.
  - eapply sublist_NoDup; [exact distinct|]. by apply fmap_sublist.
  - replace (unvisited ∅ targets) with (output_bytes targets); [done|]. unfold unvisited. f_equal. clear.
    induction targets as [|f targets IH]; [done|]. rewrite filter_cons, decide_True, <- IH by set_solver. done.
  - intros [visited visitErr] p3 seen3 last3 _ Hp3. apply vc_call; [done..|]. intros err.
    assert (forall e, vcollects (raises (A := unit) e) p3 seen3 last3 (fun _ p' seen' last' => Forall (fun f => fl_Object f ∈ seen') (sn_Files s) /\ sane p' last')) as Hraise
      by (intros; by apply vc_raises).
    destruct (IsLocalStateError err || is_progress err) eqn:E.
    { destruct err; [apply Hraise|done]. }
    destruct visitErr; [apply Hraise|]. destruct err; [apply Hraise|]. case_match; [apply Hraise|].
    eapply vc_lift; [apply reopen_each_ok|done|]. done.
Qed.

(** *** The whole snapshot *)
Lemma verify_snapshot_ok batch seen :
  vcollects (verify_snapshot schema batch w' s) (newProgressTracker s) seen 0 (fun v _ seen' _ =>
    Forall (fun f => fl_Object f ∈ seen') (sn_Files s) /\ exists m spec, parseManifest schema w' (sn_Manifest s) = Ok (m, spec) /\
    v = mkVerified (wk_Lease w') s (rn_Phase m)).
Proof.
  assert (room (newProgressTracker s) 0 (output_bytes (sn_Files s))) as Hr.
  { pose proof (output_positive (sn_Files s) ltac:(done)). split; [split|..]; cbn; lia. }
  unfold verify_snapshot. eapply vc_bind; [by apply checkpoint_room|]. intros _ p1 ? last1 _ [-> Hr1].
  eapply (vc_bind _ _ _ _ _ (fun _ p' seen' last' => Forall (fun f => fl_Object f ∈ seen') (sn_Files s) /\ sane p' last')).
  { destruct batch; [by apply verifyBatch_ok|]. eapply vc_mono; [by apply verify_each_ok|]. intros _ p' seen' last' _ [H1 H2]. split; [done|apply H2]. }
  intros _ p2 seen2 last2 _ [Hall Hp2]. eapply vc_bind; [by apply checkpoint_ok|]. intros _ p3 ? last3 _ (-> & _ & Hp3).
  destruct (parseManifest _ _ _) as [[m spec]|e] eqn:E; [|by apply vc_raises]. apply vc_ret. split; [done|]. by exists m, spec.
Qed.
End Verifying.

(** ** A whole run *)
(** The snapshot of a work is not part of what is validated. *)
Lemma add_outputs_snapshot cfg w x spec byPath sizes counts sel l :
  add_outputs cfg (with_snapshot w x) spec byPath sizes counts sel l = add_outputs cfg w spec byPath sizes counts sel l.
Proof.
  revert sizes counts sel. induction l as [|a l IH]; intros sizes counts sel; cbn [add_outputs]; [done|]. repeat (case_match; try done).
  change (add_file cfg (with_snapshot w x)) with (add_file cfg w). destruct (add_file _ _ _ _ _ _); cbn [result_bind]; [apply IH|done].
Qed.
Lemma add_controls_snapshot cfg w x byPath sel l : add_controls cfg (with_snapshot w x) byPath sel l = add_controls cfg w byPath sel l.
Proof.
  revert sel. induction l as [|[[[path role] media] max] l IH]; intros sel; cbn [add_controls]; [done|]. repeat (case_match; try done).
  change (add_file cfg (with_snapshot w x)) with (add_file cfg w). destruct (add_file _ _ _ _ _ _); cbn [result_bind]; [apply IH|done].
Qed.
Lemma select_files_snapshot cfg w x m spec byPath control : select_files cfg (with_snapshot w x) m spec byPath control = select_files cfg w m spec byPath control.
Proof.
  unfold select_files. change (add_file cfg (with_snapshot w x)) with (add_file cfg w). destruct (add_file _ _ _ _ _ _); cbn [result_bind]; [|done].
  rewrite add_outputs_snapshot. destruct (add_outputs _ _ _ _ _ _ _ _) as [[counts sel]|]; cbn [result_bind]; [|done].
  by rewrite add_controls_snapshot.
Qed.
Lemma BuildSnapshot_snapshot w x raw catalog cfg : BuildSnapshot schema (with_snapshot w x) raw catalog cfg = BuildSnapshot schema w raw catalog cfg.
Proof.
  unfold BuildSnapshot. change (parseManifest schema (with_snapshot w x)) with (parseManifest schema w).
  change (wk_Remote (with_snapshot w x)) with (wk_Remote w). destruct (negb _); [done|]. destruct (_ <? _); [done|].
  destruct (parseManifest schema w raw) as [[m spec]|]; cbn [result_bind]; [|done]. destruct (existsb _ _); [done|]. destruct (negb _); [done|].
  destruct (_ !! _); [|done]. by rewrite select_files_snapshot.
Qed.
Lemma ValidateSnapshot_snapshot w x s : ValidateSnapshot schema (with_snapshot w x) s = ValidateSnapshot schema w s.
Proof. unfold ValidateSnapshot. by rewrite BuildSnapshot_snapshot. Qed.
Lemma validated_files w s :
  ValidateSnapshot schema w s = None ->
  Forall (fun f => 0 <= om_Bytes (fl_Object f)) (sn_Files s) /\ NoDup (map fl_Path (sn_Files s)) /\ SHA256Digest_Valid (CollSnapshot_Digest s) = true.
Proof.
  unfold ValidateSnapshot. cbv zeta. destruct (_ || negb (SHA256Digest_Valid _)) eqn:E1; [done|]. destruct (existsb _ _) eqn:E2; [done|].
  destruct (BuildSnapshot _ _ _ _ _) as [s'|] eqn:E3; [|done]. intros _. apply orb_false_iff in E1 as [_ E1%negb_false_iff]. split_and!; [| |done].
  - apply Forall_forall. intros f Hf. apply not_true_iff_false in E2. destruct (0 <=? om_Bytes (fl_Object f)) eqn:E; [by apply Z.leb_le|].
    exfalso. apply E2. apply existsb_exists. exists f. split; [by apply list_elem_of_In|]. unfold ObjectMetadata_Valid. rewrite E. by rewrite !andb_false_r || by rewrite !andb_false_r, !andb_false_l.
  - apply BuildSnapshot_ok in E3 as (m & spec & control & files & B). pose proof (bt_portable _ _ _ _ _ _ _ _ _ _ B) as H.
    apply collisionFree_NoDup in H. by rewrite map_map in H.
Qed.
Lemma exceeds_ok limit total l :
  exceeds limit total l = false -> Forall (fun f => 0 <= om_Bytes (fl_Object f)) l -> total <= limit -> total + output_bytes l <= limit.
Proof.
  revert total. induction l as [|f l IH]; intros total He Hp Ht; cbn [exceeds] in He; [change (output_bytes []) with 0; lia|].
  apply orb_false_iff in He as [H1%Z.ltb_ge H2]. apply Forall_cons in Hp as [Hf Hp]. specialize (IH _ H2 Hp ltac:(lia)).
  rewrite output_bytes_cons. unfold outsize. case_match; lia.
Qed.
Context (cfg : CollectionConfig) (configured : CollectionConfig_Valid cfg = true).
(** The work the engine holds once a snapshot is pinned. *)
Definition pinned_work (w : CollectionWork) (s : CollSnapshot) (w' : CollectionWork) : Prop :=
  wk_Snapshot w' = Some s /\ (w' = w \/ w' = with_snapshot w s).
Lemma pinned_lease w s w' : pinned_work w s w' -> wk_Lease w' = wk_Lease w.
Proof. by intros [_ [->| ->]]. Qed.
Lemma pinned_valid w s w' : pinned_work w s w' -> ValidateSnapshot schema w' s = ValidateSnapshot schema w s.
Proof. intros [_ [->| ->]]; [done|apply ValidateSnapshot_snapshot]. Qed.
Lemma pinned_parse w s w' raw : pinned_work w s w' -> parseManifest schema w' raw = parseManifest schema w raw.
Proof. by intros [_ [->| ->]]. Qed.
Lemma pinned_work_valid w s w' : pinned_work w s w' -> CollectionWork_Valid w' = CollectionWork_Valid w.
Proof. by intros [_ [->| ->]]. Qed.
Definition still_busy (w : CollectionWork) (s : CollSnapshot) (c : collect_state) : Prop := exists seen last, c = busy w s seen last.
Lemma verifyFiles_ok batch w s w' seen :
  pinned_work w s w' -> CollectionWork_Valid w = true ->
  collects (verifyFiles schema cfg batch w') (busy w s seen 0) (fun r c =>
    match r with Err _ => still_busy w s c | Ok v => exists seen' last', c = busy w s seen' last' /\ publishable w s seen' w' v = true end).
Proof.
  intros Hw Hv. unfold verifyFiles, recovering. rewrite (proj1 Hw). apply collects_bind.
  destruct (_ || exceeds _ _ _) eqn:E; [apply collects_done, collects_done; by exists seen, 0|].
  rewrite !orb_false_iff in E. destruct E as [[E1 _] E2]. rewrite (pinned_valid w s w' Hw) in E1.
  destruct (ValidateSnapshot schema w s) eqn:Hvs; [done|]. destruct (validated_files w s Hvs) as (Hpos & Hnd & Hdig).
  assert (output_bytes (sn_Files s) <= 4 * 2 ^ 30) as Hsmall.
  { unfold CollectionConfig_Valid in configured. rewrite !andb_true_iff in configured.
    destruct configured as [[[[[[[[[C1%Z.ltb_lt C2%Z.leb_le] _] _] _] _] _] _] _] _]. pose proof (exceeds_ok _ _ _ E2 Hpos). lia. }
  pose proof (pinned_lease w s w' Hw) as Hl. apply collects_bind. eapply collects_mono; [by apply (verify_snapshot_ok w s Hsmall w' Hl Hpos Hnd batch seen)|].
  intros [o p] c (seen' & last' & -> & _ & H). destruct o as [v|e|]; cbn [fst snd] in H.
  - apply collects_done, collects_done. exists seen', last'. split; [done|]. destruct H as (Hall & m & spec & Hm & ->).
    unfold publishable, Verified_Matches. cbn [vf_lease vf_snapshot vf_phase]. rewrite (pinned_work_valid w s w' Hw), Hv, (proj1 Hw), Hl, Hdig, Hvs.
    rewrite (pinned_parse w s w' _ Hw) in Hm. rewrite Hm, !bool_decide_eq_true_2 by done. cbn [andb is_nil]. rewrite andb_true_r.
    apply forallb_forall. intros x Hx%list_elem_of_In. apply bool_decide_eq_true_2. unfold snapshot_objects in Hx. apply list_elem_of_fmap in Hx as (f & -> & Hf).
    rewrite Forall_forall in Hall. by apply Hall.
  - unfold sample_failure, mbind, oc_bind, plain. cbn [prog_bind]. apply collects_silent; [done..|]. intros ctx.
    destruct (_ && _); [|apply collects_done, collects_done; by exists seen', last']. apply collects_bind.
    eapply collects_mono; [by apply (sampled_ok w s Hsmall w' Hl)|]. intros [o p'] c (last2 & -> & _). apply collects_done, collects_done.
    destruct o; by exists seen', last2.
  - apply collects_done, collects_done. by exists seen', last'.
Qed.
Lemma reason_valid err : ValidCollectionReason (cf_Reason (collectionFailure err)) = true.
Proof.
  unfold collectionFailure, collectionFailureAt. destruct (match errors_As _ _ with Some _ => _ | None => _ end) as [[[code invalid] r] c].
  cbv zeta. cbn [cf_Reason]. by destruct (ValidCollectionReason r) eqn:E.
Qed.
Lemma HeartbeatError_some p e : HeartbeatError p (Some e) <> None.
Proof. cbn. by destruct (withoutCancellation p). Qed.
(** Whatever went wrong, what is returned is an error. *)
Definition collecting (w : CollectionWork) (c : collect_state) : Prop := cs_work c = Some w /\ cs_phase c = Collecting.
Lemma recordFailure_ok w w' err c :
  collecting w c -> wk_Lease w' = wk_Lease w -> collects (recordFailure w' err) c (fun e _ => e <> None).
Proof.
  intros [Hc Hp] Hl. unfold recordFailure. apply collects_bind.
  eapply (collects_mono _ _ (fun _ c' => c' = c)).
  { destruct (IsLocalStateError _); [by apply collects_done|]. destruct (is_progress _); [|by apply collects_done].
    unfold mbind, prog_mbind, perform. cbn [prog_bind]. apply collects_silent; [done..|]. intros x. by apply collects_done. }
  intros kept ? ->. destruct kept; [by apply collects_done|]. unfold perform. cbn [mbind prog_mbind prog_bind]. apply collects_silent; [done..|].
  intros [renewal|]; [apply collects_done; destruct (_ || _); apply HeartbeatError_some|]. apply collects_silent; [done..|]. intros [e|]; [by apply collects_done|].
  apply collects_silent; [done..|]. intros ctx. unfold commit_failure. generalize (if errors_Is ctx DeadlineExceeded then failureAt CodeArtifactCollectionFailed false "artifact_call_timeout" else err).
  intros err'. unfold perform. cbn [mbind prog_mbind prog_bind]. apply collects_silent; [done..|]. intros [e|]; [by apply collects_done|].
  cbv zeta. eapply collects_call.
  { cbn [called ccall_events feed collect_step]. rewrite Hc, Hp, Hl, bool_decide_eq_true_2, reason_valid by done. done. }
  intros x. eexists. split; [done|]. apply collects_done. by destruct x.
Qed.
(** Nothing is written while the binding is resolved and the files found. *)
Lemma resolve_ok w c : collects (resolve w) c (fun _ c' => c' = c).
Proof.
  unfold resolve, recovering. apply collects_bind. unfold mbind, oc_bind, guarded_call. cbn [prog_bind]. apply collects_silent; [done..|].
  intros [[[batch|]|e]|]; try (by apply collects_done, collects_done).
  - cbn [prog_bind]. apply collects_silent; [done..|]. intros [[e|]|]; try (by apply collects_done, collects_done).
    destruct (IsLocalStateError _); [by apply collects_done, collects_done|]. unfold ctx_alive, mbind, oc_bind, plain. cbn [prog_bind]. apply collects_silent; [done..|].
    intros [x|]; by apply collects_done, collects_done.
  - destruct (IsLocalStateError _); [by apply collects_done, collects_done|]. unfold ctx_alive, mbind, oc_bind, plain. cbn [prog_bind]. apply collects_silent; [done..|].
    intros [x|]; by apply collects_done, collects_done.
Qed.
Lemma discover_ok w c : collects (discover schema cfg w) c (fun r c' => c' = c /\ match r with Ok s => ValidateSnapshot schema w s = None | Err _ => True end).
Proof.
  unfold discover, recovering. apply collects_bind. unfold ctx_alive, mbind, oc_bind, guarded_call, plain. cbn [prog_bind]. apply collects_silent; [done..|].
  assert (forall e, collects (raise (A := CollSnapshot) e) c (fun a c' => collects (Done match a with Gives a => Ok a | Errs e => Err e
    | Panics => Err (fail_at (Some collection_ErrUnavailable) "artifact_discovery_panic") end) c' (fun r c' => c' = c /\ match r with Ok s => ValidateSnapshot schema w s = None | Err _ => True end))) as Hr
    by (intros; by apply collects_done, collects_done).
  intros [e|]; [apply Hr|]. cbn [prog_bind mret oc_ret]. apply collects_silent; [done..|].
  intros [[catalog|e]|]; [|apply Hr|by apply collects_done, collects_done].
  destruct (_ <? _); [apply Hr|]. destruct (catalog_exceeds _ _); [apply Hr|]. destruct (existsb _ _); [apply Hr|]. destruct (negb _); [apply Hr|].
  destruct (last_manifest catalog) as [a|]; [|apply Hr]. destruct (_ <? _); [apply Hr|]. cbn [prog_bind]. apply collects_silent; [done..|].
  intros [[writes [result|e]]|]; [|apply Hr|by apply collects_done, collects_done]. cbv zeta. destruct (negb _); [apply Hr|].
  destruct (BuildSnapshot _ _ _ _ _) as [s|] eqn:E; [|apply Hr]. apply collects_done, collects_done. split; [done|]. by apply built_validates in E as [E _].
Qed.
Lemma publish_ok batch w s w' seen :
  pinned_work w s w' -> CollectionWork_Valid w = true ->
  collects (publish schema cfg batch w') (busy w s seen 0) (fun e c => e = None -> cs_phase c = Published).
Proof.
  intros Hw Hv. unfold publish. apply collects_bind. eapply collects_mono; [by apply verifyFiles_ok|]. intros [v|e] c H.
  - destruct H as (seen' & last' & -> & Hpub). unfold perform. cbn [mbind prog_mbind prog_bind]. apply collects_silent; [done..|].
    intros [e|]; [by apply collects_done|]. eapply collects_call.
    { cbn [called ccall_events feed collect_step busy cs_work cs_phase cs_pinned cs_seen]. by rewrite Hpub. }
    intros [e|]; eexists; (split; [done|]); by apply collects_done.
  - destruct H as (seen' & last' & ->). eapply collects_mono; [eapply (recordFailure_ok w w' e); [done|by eapply pinned_lease]|]. done.
Qed.
Lemma collect_ok w :
  CollectionWork_Valid w = true ->
  collects (collect schema cfg w) (mkCollectState (Some w) (wk_Snapshot w) [] 0 Collecting) (fun e c => e = None -> cs_phase c = Published).
Proof.
  intros Hv. unfold collect. apply collects_bind. eapply collects_mono; [apply resolve_ok|]. intros [batch|e] ? ->.
  2: { eapply collects_mono; [by apply (recordFailure_ok w w)|]. done. }
  destruct (wk_Snapshot w) as [s|] eqn:Es; [apply publish_ok; [by split; [|left]|done]|].
  apply collects_bind. eapply collects_mono; [apply discover_ok|]. intros [s|e] ? [-> H].
  2: { eapply collects_mono; [by apply (recordFailure_ok w w)|]. done. }
  unfold perform. cbn [mbind prog_mbind prog_bind]. eapply collects_call.
  { cbn [called ccall_events feed collect_step cs_work cs_phase cs_pinned cs_seen cs_last is_nil]. rewrite Hv, H, bool_decide_eq_true_2 by done. done. }
  intros [e|]; eexists; (split; [done|]); [by apply collects_done|]. apply publish_ok; [|done]. split; [done|by right].
Qed.
Lemma run_ok : collects (RunCollection schema cfg) no_collection (fun r c => r = (true, None) -> cs_phase c = Published).
Proof.
  unfold RunCollection, perform. cbn [mbind prog_mbind prog_bind]. apply collects_silent; [done..|]. intros [e|]; [by apply collects_done|].
  cbn [prog_bind]. apply (collects_call _ _ _ no_collection); [done|]. intros [[w|]|e].
  2,3: eexists; split; [done|]; by apply collects_done.
  eexists. split; [done|]. destruct (CollectionWork_Valid w) eqn:Hv; cbn [negb]; [|by apply collects_done]. cbn [prog_bind]. apply collects_silent; [done..|].
  intros _. apply collects_bind. eapply collects_mono; [by apply collect_ok|]. intros e c H. cbn [prog_bind]. apply collects_silent; [done..|].
  intros renewal. apply collects_done. intros [= He]. apply H. destruct renewal; [by apply HeartbeatError_some in He|done].
Qed.

(** C10: One run of the collection engine, cut short anywhere and
    whatever the repository, the provider, the stores and the contexts answer:
    it pins one snapshot at most, for the work it claimed and only one that
    passes the check of pinned snapshots; it stores only objects of the pinned
    snapshot; every progress sample is within the declared bytes and never
    falls; it publishes only the pinned snapshot under the claimed lease, with
    the phase its manifest declares, after every file's stored bytes were read
    back in this run with the declared length and digest; a failure it records
    has one of the known reasons; and after a pin whose acknowledgement failed,
    a publication or a recorded failure it writes nothing more. A run that
    ends without an error for the work it claimed has published it. *)
Theorem collect_safe l r :
  runs (RunCollection schema cfg) l r ->
  exists c, feed collect_step no_collection l = Some c /\ (r = Some (true, None) -> cs_phase c = Published).
Proof.
  intros Hr. destruct (obeys_runs collect_step (fun _ _ (_ : ccall _) _ => True) (RunCollection schema cfg) no_collection _ l r run_ok) as (c & Hc & HQ).
  - eapply runs_fair; [done|exact run_ok|done].
  - exists c. split; [done|]. intros ->. by apply (HQ (true, None)).
Qed.
End Monitor.

(** ** A collection, played

    A small manifest, its listing and the work they belong to: the collection
    engine runs on them, and the theorems are applied to what it does. *)
Definition coll_spec : string := Eval vm_compute in
  Marshal (JObj [("outputs", JArr [JObj [("path", JStr "answer.json"); ("required", JBool true)]]); ("resources", JObj [("accelerator", JStr "cpu")])]).
Definition coll_identity : Identity := Eval vm_compute in
  mkIdentity "runtime" "workspace" "job" "attempt" "fake" "intent" "resource" "nnnnnnnnnnnnnnnnnnnnnnnnnnnnnnnn" (Digest "code") (Digest "inputs").
Definition coll_binding : BindingSnapshot := mkBindingSnapshot (mkProviderBinding "fixture" "fake" "one") "account" "".
Definition coll_remote : RemoteReference := mkRemoteReference coll_identity "resource" "one".
Definition coll_plan : Plan := Eval vm_compute in
  mkPlan (mkResolvedJob coll_identity (bs_Binding coll_binding) coll_spec (Digest coll_spec) (Some [CapabilityBatchExecution]) 10 None) None.
Definition coll_lease : CollectionLease :=
  mkCollectionLease "workspace" "job" "attempt" "operation" 1 "ffffffffffffffffffffffffffffffffffffffffffffffff" (1700003600 * Second) 1.
Definition coll_work : CollectionWork :=
  mkCollectionWork coll_lease coll_plan coll_binding
    (mkObservation coll_remote ExecutionSucceeded "completed" RemoteActivityInactive ReleaseEvidenceNotObservable (1700000000 * Second)) None.
Definition coll_answer : string := "42".
Definition coll_manifest : string := Eval vm_compute in
  Marshal (JObj [("manifest_version", JStr "1"); ("job_id", JStr "job"); ("attempt_id", JStr "attempt");
                 ("attempt_nonce", JStr (id_Nonce coll_identity)); ("runner_version", JStr "fixture");
                 ("bundle_sha256", JStr (id_BundleSHA256 coll_identity)); ("input_manifest_sha256", JStr (id_InputManifestSHA256 coll_identity));
                 ("started_at", JStr "2026-09-15T09:59:59Z"); ("finished_at", JStr "2026-09-15T10:00:00Z"); ("phase", JStr "completed");
                 ("exit_code", JInt 0); ("timed_out", JBool false);
                 ("resource_check", JObj [("gpu_required", JBool false); ("gpu_verified", JBool false)]);
                 ("artifacts", JArr [JObj [("path", JStr "answer.json"); ("bytes", JInt (len coll_answer)); ("sha256", JStr (Digest coll_answer))]]);
                 ("error", JNull)]).
Definition coll_listed (path data : string) : Artifact := mkArtifact coll_remote path (len data) (Digest data).
Definition coll_catalog : list Artifact := Eval vm_compute in
  [coll_listed ManifestPath coll_manifest; coll_listed "outputs/answer.json" coll_answer; coll_listed "outputs/other.txt" "unused"].
Definition any_manifest (v : jvalue) : bool := true.
Definition coll_snapshot : CollSnapshot := Eval vm_compute in
  match BuildSnapshot any_manifest coll_work coll_manifest coll_catalog collection_DefaultConfig with Ok s => s | Err _ => mkCollSnapshot "" [] end.
Lemma coll_built : BuildSnapshot any_manifest coll_work coll_manifest coll_catalog collection_DefaultConfig = Ok coll_snapshot.
Proof. vm_cast_no_check (eq_refl (Ok (E := error) coll_snapshot)). Qed.
(** Every file is stored already; the provider transfers one at a time. *)
Definition coll_contents : list string := [coll_manifest; coll_answer].
Definition coll_environment (c : collect_state) (X : Type) (e : ccall X) : option X :=
  match e in ccall X return option X with
  | CClaim _ _ => Some (Ok (Some coll_work))
  | CHeartbeat _ _ => Some tt
  | CAcquire | CStop | CCtx _ | CPin _ _ | CComplete _ _ | CFail _ _ | CFetchBatchEnds => Some None
  | CNow => Some (1700000000 * Second)
  | CResolve _ => Some (Some (Ok (Some false)))
  | CVerify _ => Some (Some None)
  | CList _ => Some (Some (Ok coll_catalog))
  | CFetchManifest _ a => Some (Some ([(None, bytes_of coll_manifest)], Ok (mkTransferResult (af_Bytes a) (af_SHA256 a))))
  | COpen m =>
      match find (fun text => Digest text ==? om_SHA256 m) coll_contents with
      | Some text => Some (Some (Ok (Some (mkBlobAnswer (bytes_of text) None None))))
      | None => Some (Some (Err (ENew "absent")))
      end
  | CProgress _ _ _ => Some (Some None)
  | _ => None
  end.
Definition coll_played := play (collect_step any_manifest) coll_environment (RunCollection any_manifest collection_DefaultConfig) no_collection.
Lemma coll_played_runs : runs (RunCollection any_manifest collection_DefaultConfig) coll_played.1 coll_played.2.
Proof.
  unfold coll_played. generalize (RunCollection any_manifest collection_DefaultConfig). intros t.
  apply (fair_runs_runs (collect_step any_manifest) (fun _ _ (_ : ccall _) _ => True) t no_collection), play_fair. done.
Qed.
Lemma coll_played_ok : coll_played.2 = Some (true, None).
Proof. vm_cast_no_check (eq_refl (Some (true, @None error))). Qed.
Lemma collect_safe_witness : exists c, feed (collect_step any_manifest) no_collection coll_played.1 = Some c /\ cs_phase c = Published.
Proof.
  destruct (collect_safe any_manifest collection_DefaultConfig eq_refl _ _ coll_played_runs) as (c & Hc & HQ).
  exists c. split; [exact Hc|]. exact (HQ coll_played_ok).
Defined.
Lemma snapshot_revalidates_witness : ValidateSnapshot any_manifest coll_work coll_snapshot = None.
Proof. exact (proj1 (snapshot_revalidates any_manifest _ _ _ _ _ coll_built)). Defined.
Lemma snapshot_sound_witness : exists m spec, parseManifest any_manifest coll_work coll_manifest = Ok (m, spec).
Proof. destruct (snapshot_sound any_manifest _ _ _ _ _ coll_built) as (m & spec & H & _). exists m, spec. exact H. Defined.
Definition collected_state : AttemptState :=
  mkAttemptState OrchestrationCollecting ExecutionSucceeded ResultCollecting CancellationNotRequested RemoteActivityInactive ReleaseEvidenceUnknown false.
Lemma final_state_witness : as_Orchestration (FinalState collected_state "completed").1 = OrchestrationSucceeded.
Proof.
  assert (awaiting_result collected_state) as H by (split_and!; vm_compute; reflexivity).
  destruct (final_state collected_state "completed" H) as (_ & _ & _ & _ & _ & _ & Hs & _). apply Hs.
  split_and!; [reflexivity|reflexivity|left; reflexivity].
Defined.
