(* ===== verification/HostStorage.v ===== *)
(** * Storage and cache of hosts

    [internal/hoststorage] (budgets, observed objects, exact targets of
    cleanups, previews), [internal/hostcache] (generations of cached content,
    what an observation proves of them, mounts) and
    [internal/hostimages/ledger.go] (generations of loaded images). *)

From S2P Require Import Prelude Effects GoStrings GoTime Identifiers Problems Provider ProviderResources.
#[local] Open Scope string_scope.
#[local] Open Scope list_scope.
#[local] Open Scope Z_scope.
#[local] Open Scope bool_scope.

(** ** Budgets *)
Definition DefaultSoftBytes : Z := 64 * 2 ^ 30.
Definition DefaultHardBytes : Z := 80 * 2 ^ 30.
Definition MaximumHardBytes : Z := 2 ^ 50.
Definition AttemptAllowanceBytes : Z := 4 * 2 ^ 30.
Definition ScanMaxObjects : Z := 1024.
Definition storage_ErrInvalid : error := ENew "invalid host storage identity or policy".
Definition storage_ErrUnverified : error := ENew "host storage target is unverified".
Definition storage_ErrIneligible_text : string := "host storage target remains referenced".
Record Budget := mkBudget { bg_SoftBytes : Z; bg_HardBytes : Z }.
Definition DefaultBudget : Budget := mkBudget DefaultSoftBytes DefaultHardBytes.
Definition Budget_Valid (b : Budget) : bool :=
  (0 <? bg_SoftBytes b) && (bg_SoftBytes b <? bg_HardBytes b) && (bg_HardBytes b <=? MaximumHardBytes).
Definition MinBudget (a b : Budget) : Budget := mkBudget (Z.min (bg_SoftBytes a) (bg_SoftBytes b)) (Z.min (bg_HardBytes a) (bg_HardBytes b)).
Definition Charge (observed reserved : Z) : result error Z :=
  throw (observed <? 0) || (reserved <? 0) with storage_ErrInvalid ;; Ok (Z.max observed reserved).
Definition AddChecked (a b : Z) : result error Z :=
  throw (a <? 0) || (b <? 0) || (2 ^ 63 - 1 - b <? a) with storage_ErrInvalid ;; Ok (a + b).

(** ** Objects *)
Record StorageScope := mkStorageScope { sp_InstallationID : string; sp_MachineID : string; sp_EngineID : string }.
#[export] Instance StorageScope_eq_dec : EqDecision StorageScope.
Proof. solve_decision. Defined.
Definition StorageScope_Valid (s : StorageScope) : bool :=
  ID_Valid (sp_InstallationID s) && SHA256Digest_Valid (sp_MachineID s) && SHA256Digest_Valid (sp_EngineID s).
Inductive StorageKind := KindContainer | KindVolume | KindImage | KindOther (raw : string).
#[export] Instance StorageKind_eq_dec : EqDecision StorageKind.
Proof. solve_decision. Defined.
Definition StorageKind_Valid (k : StorageKind) : bool := match k with KindOther _ => false | _ => true end.
Record StorageObject := mkStorageObject {
  so_Kind : StorageKind; so_ID : string; so_SizeBytes : Z; so_SizeKnown : bool; so_Labels : gmap string string; so_Running : bool;
  so_References : Z }.
Definition hex_char (c : Z) : bool := is_digit c || (97 <=? c) && (c <=? 102).
(** [^[0-9a-f]{64}$], [^sha256:[0-9a-f]{64}$] and
    [^[a-zA-Z0-9][a-zA-Z0-9_.-]{0,254}$]. *)
Definition fullContainerID (s : string) : bool := (len s =? 64) && all_bytes hex_char s.
Definition fullImageID (s : string) : bool :=
  match strip_prefix (bytes_of "sha256:") (bytes_of s) with Some l => fullContainerID (string_of l) | None => false end.
Definition volumeID (s : string) : bool :=
  match bytes_of s with
  | [] => false
  | c :: l => alnum (byte_val c) && (Z.of_nat (length l) <=? 254)
              && forallb (fun c => let b := byte_val c in alnum b || (b =? 95) || (b =? 46) || (b =? 45)) l
  end.
Definition StorageObject_Valid (o : StorageObject) : bool :=
  if negb (StorageKind_Valid (so_Kind o)) || (so_SizeBytes o <? 0) || (so_References o <? 0) || (32 <? Z.of_nat (size (so_Labels o))) then false
  else match so_Kind o with
  | KindContainer => fullContainerID (so_ID o)
  | KindImage => fullImageID (so_ID o)
  | KindVolume => volumeID (so_ID o)
  | KindOther _ => false
  end.
Definition label_of (labels : gmap string string) (key : string) : string := default "" (labels !! key).
Definition installation_label : string := "io.compute-relay.installation".
Record ForeignCounts := mkForeignCounts { fg_Containers : Z; fg_Volumes : Z; fg_Images : Z }.
Definition ForeignCounts_Valid (f : ForeignCounts) : bool := (0 <=? fg_Containers f) && (0 <=? fg_Volumes f) && (0 <=? fg_Images f).
Record StorageScan := mkStorageScan { sx_Scope : StorageScope; sx_ObservedAt : Time; sx_Objects : list StorageObject; sx_Foreign : ForeignCounts }.
(** The loop: every object is valid, of this installation, and new. *)
Fixpoint objects_distinct (installation : string) (seen : list (StorageKind * string)) (l : list StorageObject) : bool :=
  match l with
  | [] => true
  | o :: l =>
      if negb (StorageObject_Valid o) || (label_of (so_Labels o) installation_label <>? installation) then false
      else if bool_decide ((so_Kind o, so_ID o) ∈ seen) then false
      else objects_distinct installation ((so_Kind o, so_ID o) :: seen) l
  end.
Definition StorageScan_Valid (s : StorageScan) : bool :=
  if negb (StorageScope_Valid (sx_Scope s)) || IsZero (sx_ObservedAt s) || negb (ForeignCounts_Valid (sx_Foreign s))
     || (ScanMaxObjects * 3 <? Z.of_nat (length (sx_Objects s))) then false
  else objects_distinct (sp_InstallationID (sx_Scope s)) [] (sx_Objects s).

(** ** Targets *)
Inductive StorageAction := OrphanContainer | OrphanVolume | OrphanImage | EvictCache | EvictImage | StorageActionOther (raw : string).
#[export] Instance StorageAction_eq_dec : EqDecision StorageAction.
Proof. solve_decision. Defined.
Record StorageTarget := mkStorageTarget {
  tg_Scope : StorageScope; tg_Class : StorageKind; tg_ID : string; tg_Labels : gmap string string; tg_Action : StorageAction }.
#[export] Instance StorageTarget_eq_dec : EqDecision StorageTarget.
Proof. solve_decision. Defined.
Definition StorageTarget_Valid (t : StorageTarget) : bool :=
  if negb (StorageScope_Valid (tg_Scope t))
     || negb (StorageObject_Valid (mkStorageObject (tg_Class t) (tg_ID t) 0 false (tg_Labels t) false 0))
     || (label_of (tg_Labels t) installation_label <>? sp_InstallationID (tg_Scope t)) then false
  else match tg_Action t with
  | OrphanContainer => tg_Class t ==? KindContainer
  | OrphanVolume | EvictCache => tg_Class t ==? KindVolume
  | OrphanImage | EvictImage => tg_Class t ==? KindImage
  | StorageActionOther _ => false
  end.
Record TargetObservation := mkTargetObservation {
  to_Present : bool; to_Eligible : bool; to_SizeBytes : Z; to_SizeKnown : bool; to_Reason : string; to_ObservedAt : Time }.
Inductive DeleteOutcome := DeleteConfirmed | AbsentConfirmed | DeleteRetained | DeleteUnknown | DeleteOutcomeOther (raw : string).
#[export] Instance DeleteOutcome_eq_dec : EqDecision DeleteOutcome.
Proof. solve_decision. Defined.

(** ** Previews and operations *)
Record StorageCandidate := mkStorageCandidate {
  scd_WorkspaceID : string; scd_ConnectionID : string; scd_OrphanID : string; scd_ScanSeq : Z; scd_Target : StorageTarget;
  scd_Binding : BindingSnapshot }.
Record StoragePreview := mkStoragePreview {
  spv_OrphanID : string; spv_Class : StorageKind; spv_ChargedBytes : Z; spv_Eligible : bool; spv_Reason : string; spv_Fingerprint : string;
  spv_ExpiresAt : Time }.
Record StorageOperation := mkStorageOperation {
  sto_OperationID : string; sto_Status : string; sto_Result : string; sto_Reason : string; sto_CreatedAt : Time; sto_UpdatedAt : Time }.
(** A call answers [None] when it panics; [OfObserver]: the provider can
    observe storage targets. *)
Inductive stcall : Type -> Type :=
  | FindStorageOrphan (w token connection orphan : string) : stcall (option (result error StorageCandidate))
  | StorageResolve (b : BindingSnapshot) : stcall (option (option error))
  | StorageVerify (b : BindingSnapshot) : stcall (option (option error))
  | OfObserver : stcall bool
  | ObserveTarget (t : StorageTarget) : stcall (option (result error TargetObservation))
  | RecordStoragePreview (w token : string) (c : StorageCandidate) (o : TargetObservation) : stcall (option (result error StoragePreview))
  | AdmitStorageCleanup (w token connection orphan fingerprint key : string) : stcall (result error StorageOperation)
  | ReadStorageCleanup (w token id : string) : stcall (result error StorageOperation).
(** One step of [Preview] with the reason a failure of it has. *)
Definition preview_step {A B} (step : string) (e : stcall (option (result error A))) (k : A -> prog stcall (result error B)) :
    prog stcall (result error B) :=
  r ← perform e;
  match r with
  | Some (Ok a) => k a
  | Some (Err e) => mret (Err (default e (WithReason (Some e) step)))
  | None => mret (Err (default storage_ErrUnverified (WithReason (WithReason (Some storage_ErrUnverified) step) step)))
  end.
Definition preview_check {B} (step : string) (e : stcall (option (option error))) (k : prog stcall (result error B)) :
    prog stcall (result error B) :=
  r ← perform e;
  match r with
  | Some None => k
  | Some (Some e) => mret (Err (default e (WithReason (Some e) step)))
  | None => mret (Err (default storage_ErrUnverified (WithReason (WithReason (Some storage_ErrUnverified) step) step)))
  end.
Definition storage_Preview (w token connection orphan : string) : prog stcall (result error StoragePreview) :=
  preview_step "storage_preview_target_failed" (FindStorageOrphan w token connection orphan) (fun candidate =>
  preview_check "storage_preview_binding_unavailable" (StorageResolve (scd_Binding candidate)) (
  preview_check "storage_preview_binding_unverified" (StorageVerify (scd_Binding candidate)) (
  observer ← perform OfObserver;
  if negb observer
  then mret (Err (default storage_ErrUnverified (WithReason (Some storage_ErrUnverified) "storage_preview_binding_unverified")))
  else
    preview_step "storage_preview_observation_failed" (ObserveTarget (scd_Target candidate)) (fun observation =>
    preview_step "storage_preview_record_failed" (RecordStoragePreview w token candidate observation) (fun preview =>
    mret (Ok preview)))))).
Definition storage_Apply (w token connection orphan fingerprint key : string) : prog stcall (result error StorageOperation) :=
  perform (AdmitStorageCleanup w token connection orphan fingerprint key).
Definition storage_Operation (w token id : string) : prog stcall (result error StorageOperation) :=
  if negb (ID_Valid id) then mret (Err storage_ErrInvalid) else perform (ReadStorageCleanup w token id).

(** ** Cached content *)
Record CacheKey := mkCacheKey { hk_InstallationID : string; hk_MachineID : string; hk_EngineID : string; hk_SHA256 : string; hk_Bytes : Z }.
#[export] Instance CacheKey_eq_dec : EqDecision CacheKey.
Proof. solve_decision. Defined.
Definition CacheKey_Valid (k : CacheKey) : bool :=
  ID_Valid (hk_InstallationID k) && SHA256Digest_Valid (hk_MachineID k) && SHA256Digest_Valid (hk_EngineID k)
  && SHA256Digest_Valid (hk_SHA256 k) && (0 <=? hk_Bytes k).
Record CacheAttempt := mkCacheAttempt { ca_WorkspaceID : string; ca_JobID : string; ca_AttemptID : string }.
#[export] Instance CacheAttempt_eq_dec : EqDecision CacheAttempt.
Proof. solve_decision. Defined.
Definition CacheAttempt_Valid (a : CacheAttempt) : bool :=
  ID_Valid (ca_WorkspaceID a) && ID_Valid (ca_JobID a) && ID_Valid (ca_AttemptID a).
Inductive CacheState := CacheClaimed | CacheVerified | CacheRetired | CacheStateOther (raw : string).
#[export] Instance CacheState_eq_dec : EqDecision CacheState.
Proof. solve_decision. Defined.
Inductive WriterPhase := WriterIntent | WriterBegun | WriterFinished | WriterPhaseOther (raw : string).
#[export] Instance WriterPhase_eq_dec : EqDecision WriterPhase.
Proof. solve_decision. Defined.
Record Generation := mkGeneration {
  gn_Key : CacheKey; gn_ID : string; gn_VolumeName : string; gn_OperationID : string; gn_Owner : CacheAttempt; gn_State : CacheState;
  gn_WriterPhase : WriterPhase; gn_CreatedAt : Time; gn_VerifiedAt : Time; gn_LastUsedAt : Time; gn_Pins : Z; gn_Mounts : Z }.
Definition lowerHex (s : string) : bool := all_bytes (fun c => negb ((c <? 48) || (57 <? c) && (c <? 97) || (102 <? c))) s.
Definition hex_named (prefix s : string) : bool :=
  match strip_prefix (bytes_of prefix) (bytes_of s) with
  | Some l => (Z.of_nat (length l) =? 32) && lowerHex (string_of l)
  | None => false
  end.
Definition validGenerationID (id : string) : bool := hex_named "hcgen_" id.
Definition validVolumeName (name : string) : bool := hex_named "relay-cache-" name.
Definition Generation_Valid (g : Generation) : bool :=
  CacheKey_Valid (gn_Key g) && validGenerationID (gn_ID g) && validVolumeName (gn_VolumeName g) && ID_Valid (gn_OperationID g)
  && CacheAttempt_Valid (gn_Owner g)
  && ((gn_State g ==? CacheClaimed) || (gn_State g ==? CacheVerified) || (gn_State g ==? CacheRetired))
  && ((gn_WriterPhase g ==? WriterIntent) || (gn_WriterPhase g ==? WriterBegun) || (gn_WriterPhase g ==? WriterFinished))
  && ((gn_State g ==? CacheClaimed) || (gn_WriterPhase g ==? WriterFinished)) && negb (IsZero (gn_CreatedAt g))
  && ((gn_State g <>? CacheVerified) || negb (IsZero (gn_VerifiedAt g))).
Definition LabelPrefix : string := "io.compute-relay.".
Definition Generation_Labels (g : Generation) : list (string * string) :=
  [(LabelPrefix +:+ "installation", hk_InstallationID (gn_Key g)); (LabelPrefix +:+ "machine", hk_MachineID (gn_Key g));
   (LabelPrefix +:+ "engine", hk_EngineID (gn_Key g)); (LabelPrefix +:+ "kind", "cache"); (LabelPrefix +:+ "sha256", hk_SHA256 (gn_Key g));
   (LabelPrefix +:+ "bytes", FormatInt (hk_Bytes (gn_Key g))); (LabelPrefix +:+ "generation", gn_ID g); (LabelPrefix +:+ "operation", gn_OperationID g)].
Definition has_labels (labels : gmap string string) (l : list (string * string)) : bool := forallb (fun kv => label_of labels kv.1 ==? kv.2) l.
Inductive ObservationKind := ObservedComplete | ObservedMissing | ObservedCorrupt | ObservationKindOther (raw : string).
#[export] Instance ObservationKind_eq_dec : EqDecision ObservationKind.
Proof. solve_decision. Defined.
Record CacheObservation := mkCacheObservation {
  cn_GenerationID : string; cn_VolumeName : string; cn_OperationID : string; cn_Key : CacheKey; cn_Kind : ObservationKind;
  cn_Labels : gmap string string; cn_ContentSHA256 : string; cn_ContentBytes : Z; cn_WriterInactive : bool }.
Definition Observation_Matches (o : CacheObservation) (g : Generation) : bool :=
  if (cn_GenerationID o <>? gn_ID g) || (cn_VolumeName o <>? gn_VolumeName g) || (cn_OperationID o <>? gn_OperationID g)
     || (cn_Key o <>? gn_Key g) || negb (cn_WriterInactive o) then false
  else match cn_Kind o with
  | ObservedMissing => true
  | ObservedComplete =>
      has_labels (cn_Labels o) (Generation_Labels g) && (cn_ContentSHA256 o ==? hk_SHA256 (gn_Key g)) && (cn_ContentBytes o =? hk_Bytes (gn_Key g))
  | ObservedCorrupt => true
  | ObservationKindOther _ => false
  end.
Record MountReceipt := mkMountReceipt {
  mr_Attempt : CacheAttempt; mr_Generation : Generation; mr_ContainerID : string; mr_ReadOnly : bool; mr_Labels : gmap string string }.
Definition MountReceipt_Valid (m : MountReceipt) : bool :=
  if negb (CacheAttempt_Valid (mr_Attempt m)) || negb (Generation_Valid (mr_Generation m)) || negb (mr_ReadOnly m)
     || negb (len (mr_ContainerID m) =? 64) || negb (lowerHex (mr_ContainerID m)) then false
  else has_labels (mr_Labels m) (Generation_Labels (mr_Generation m)).

(** ** Container images *)
Definition ErrImageState : error := ENew "application image load state is not authorizable".
Definition ErrCountLimit : error := ENew "application image count limit reached".
Definition ImageCountLimit : Z := 16.
Definition ImageRetentionTarget : Z := ImageCountLimit - 1.
Definition image_MaxInputBytes : Z := 2 * 2 ^ 30.
Record ImageKey := mkImageKey { ik_InstallationID : string; ik_MachineID : string; ik_EngineID : string; ik_ArchiveSHA256 : string; ik_ArchiveBytes : Z }.
#[export] Instance ImageKey_eq_dec : EqDecision ImageKey.
Proof. solve_decision. Defined.
Definition ImageKey_Valid (k : ImageKey) : bool :=
  ID_Valid (ik_InstallationID k) && SHA256Digest_Valid (ik_MachineID k) && SHA256Digest_Valid (ik_EngineID k)
  && SHA256Digest_Valid (ik_ArchiveSHA256 k) && (0 <? ik_ArchiveBytes k) && (ik_ArchiveBytes k <=? image_MaxInputBytes).
(** The attempt and the object that supplied the archive. *)
Record ImageOwner := mkImageOwner { io_Attempt : CacheAttempt; io_ObjectID : string }.
#[export] Instance ImageOwner_eq_dec : EqDecision ImageOwner.
Proof. solve_decision. Defined.
Definition ImageOwner_Valid (o : ImageOwner) : bool := CacheAttempt_Valid (io_Attempt o) && ID_Valid (io_ObjectID o).
Record ImagePin := mkImagePin { ip_Key : ImageKey; ip_ObjectID : string; ip_Released : bool }.
Definition ImagePin_Valid (p : ImagePin) : bool := ImageKey_Valid (ip_Key p) && ID_Valid (ip_ObjectID p).
Inductive ImageState := StatePreparing | StateLoading | StateReady | StateUnknown | StateRetired | ImageStateOther (raw : string).
#[export] Instance ImageState_eq_dec : EqDecision ImageState.
Proof. solve_decision. Defined.
Record ImageGeneration := mkImageGeneration {
  ig_ID : string; ig_Key : ImageKey; ig_Owner : ImageOwner; ig_OperationID : string; ig_ExpectedImageID : string; ig_RootFSDiffIDs : list string;
  ig_State : ImageState; ig_CreatedAt : Time; ig_LeaseUntil : Time; ig_LoadingAt : Time; ig_LastUsedAt : Time }.
Definition image_digest (id : string) : bool :=
  match strip_prefix (bytes_of "sha256:") (bytes_of id) with Some l => SHA256Digest_Valid (string_of l) | None => false end.
Definition validImageIdentity (id : string) (diffs : list string) : bool :=
  image_digest id && (1 <=? Z.of_nat (length diffs)) && (Z.of_nat (length diffs) <=? 128) && forallb image_digest diffs.
Definition ImageGeneration_Valid (g : ImageGeneration) : bool :=
  if (ig_ID g ==? "") || (128 <? len (ig_ID g)) || negb (ImageKey_Valid (ig_Key g)) || negb (ImageOwner_Valid (ig_Owner g))
     || negb (ID_Valid (ig_OperationID g)) || IsZero (ig_CreatedAt g) || IsZero (ig_LeaseUntil g) then false
  else
    let empty := (ig_ExpectedImageID g ==? "") && (Z.of_nat (length (ig_RootFSDiffIDs g)) =? 0) in
    match ig_State g with
    | StatePreparing => empty
    | StateRetired => empty || validImageIdentity (ig_ExpectedImageID g) (ig_RootFSDiffIDs g)
    | StateLoading | StateReady | StateUnknown => validImageIdentity (ig_ExpectedImageID g) (ig_RootFSDiffIDs g)
    | ImageStateOther _ => false
    end.
