(* ===== verification/Cleanup.v ===== *)
(** * Cleanup of remote resources

    [internal/cleanup]: one run of the cleanup engine over the resources of an
    attempt or over one storage target, and the read-only preview of a
    cleanup. The repositories, the provider, contexts and the clock are calls;
    a call made under a [recover] answers [None] when it panics. *)

From S2P Require Import Prelude Effects GoStrings GoTime GoSha256 GoJson JsonRead Identifiers Problems Workers AttemptStates Attempts Operations DomainRecords Provider ProviderResources Admission Auth ControlOps Journal HostStorage.
#[local] Open Scope string_scope.
#[local] Open Scope list_scope.
#[local] Open Scope Z_scope.
#[local] Open Scope bool_scope.

Definition cleanup_ErrInvalid : error := ENew "invalid cleanup record".
Definition cleanup_ErrLeaseLost_text : string := "cleanup ownership expired or changed".
Definition cleanup_ErrDeferred_text : string := "cleanup recovery deferred until the provider is reachable".
Definition ErrCleanupUnsupported_text : string := "remote cleanup apply is unsupported by this adapter".

(** ** Work *)
Record CleanupLease := mkCleanupLease {
  ce_WorkspaceID : string; ce_OperationID : string; ce_Generation : Z; ce_Fence : string; ce_Until : Time }.
Definition CleanupLease_Valid (l : CleanupLease) : bool :=
  ID_Valid (ce_WorkspaceID l) && ID_Valid (ce_OperationID l) && (0 <? ce_Generation l) && (len (ce_Fence l) =? 64)
  && SHA256Digest_Valid (ce_Fence l) && negb (IsZero (ce_Until l)).
Record CleanupRequest := mkCleanupRequest {
  cu_Remote : RemoteReference; cu_LedgerID : string; cu_CreationOperationID : string; cu_ResultsCollected : bool; cu_Mode : CleanupMode }.
#[export] Instance CleanupResourceRequest_eq_dec : EqDecision CleanupResourceRequest.
Proof. solve_decision. Defined.
Record CleanResource := mkCleanResource { rs_Request : CleanupResourceRequest; rs_Reason : string }.
#[export] Instance CleanResource_eq_dec : EqDecision CleanResource.
Proof. solve_decision. Defined.
Definition CleanupMode_string (m : CleanupMode) : string :=
  match m with CleanupDryRun => "dry_run" | CleanupApply => "apply" | CleanupOther raw => raw end.
Definition json_resource_request (r : CleanupResourceRequest) : json :=
  JObj ([("Remote", json_remote (cq_Remote r)); ("LedgerID", JStr (cq_LedgerID r)); ("CreationOperationID", JStr (cq_CreationOperationID r));
         ("ResultsCollected", JBool (cq_ResultsCollected r)); ("Mode", JStr (CleanupMode_string (cq_Mode r))); ("Purpose", JStr (cq_Purpose r));
         ("OwnershipOperationID", JStr (cq_OwnershipOperationID r)); ("PlanSHA256", JStr (cq_PlanSHA256 r))]
        ++ bool_field "RecoverOnly" (cq_RecoverOnly r)).
Definition Resource_Fingerprint (r : CleanResource) : string := Digest (Marshal (json_resource_request (rs_Request r))).
#[export] Instance ResourceResult_eq_dec : EqDecision ResourceResult.
Proof. solve_decision. Defined.
Record ResourceWork := mkResourceWork { rk_Resource : CleanResource; rk_Result : ResourceResult }.
#[export] Instance ResourceWork_eq_dec : EqDecision ResourceWork.
Proof. solve_decision. Defined.
Record CleanupWork := mkCleanupWork {
  cw_Lease : CleanupLease; cw_Record : OperationRecord; cw_Binding : BindingSnapshot; cw_Request : CleanupRequest; cw_Resources : list ResourceWork }.
(** The loop over the resources of a work: [seen] are the ledger ids so far. *)
Fixpoint resources_ok (id : Identity) (seen : list string) (l : list ResourceWork) : bool :=
  match l with
  | [] => true
  | x :: l =>
      let q := rs_Request (rk_Resource x) in let r := rk_Result x in
      if negb (CleanupResourceRequest_Valid q) || cq_RecoverOnly q || negb (ResourceResult_Valid r) || (rs_Reason (rk_Resource x) <>? "")
         || (Resource_Fingerprint (rk_Resource x) <>? rr_Fingerprint r) || (cq_LedgerID q <>? rr_ResourceID r)
         || (rr_Identity (cq_Remote q) <>? id) || (cq_Purpose q <>? rr_Purpose r) || bool_decide (rr_ResourceID r ∈ seen) then false
      else resources_ok id (rr_ResourceID r :: seen) l
  end.
Definition CleanupWork_Valid (w : CleanupWork) : bool :=
  let op := or_Operation (cw_Record w) in let id := rr_Identity (cu_Remote (cw_Request w)) in
  if MaxCleanupResources <? Z.of_nat (length (cw_Resources w)) then false
  else if negb (resources_ok id [] (cw_Resources w)) then false
  else CleanupLease_Valid (cw_Lease w) && is_nil (OperationRecord_Validate (cw_Record w)) && (op_Kind op ==? OperationCleanup)
       && negb (or_Replay (cw_Record w)) && (op_Status op ==? OperationRunning) && (op_ID op ==? ce_OperationID (cw_Lease w))
       && (op_WorkspaceID op ==? ce_WorkspaceID (cw_Lease w)) && BindingSnapshot_Valid (cw_Binding w)
       && is_nil (RemoteReference_Validate (cu_Remote (cw_Request w))) && (id_WorkspaceID id ==? op_WorkspaceID op)
       && (id_JobID id ==? op_JobID op) && (id_AttemptID id ==? op_AttemptID op)
       && (id_InstanceID id ==? bd_ProviderInstanceID (bs_Binding (cw_Binding w))) && ID_Valid (cu_LedgerID (cw_Request w))
       && ID_Valid (cu_CreationOperationID (cw_Request w)) && (cu_Mode (cw_Request w) ==? CleanupApply).

(** ** Outcomes *)
Record CleanOutcome := mkCleanOutcome { oc_Effect : Effect; oc_Problem : option Problem }.
(** [Outcome{}] *)
Definition no_outcome : CleanOutcome := mkCleanOutcome (EffectOther "") None.
Definition CleanOutcome_Valid (o : CleanOutcome) : bool :=
  match oc_Effect o with
  | RemoteDeleted | AlreadyAbsent => is_nil (oc_Problem o)
  | EffectFailed => match oc_Problem o with Some p => is_nil (Problem_Validate p) | None => false end
  | _ => false
  end.
Definition failure_stage (code : ErrorCode) : FailureStage :=
  match ErrorCode_Category code with
  | Some ErrorCategoryValidation => FailureStageValidation
  | Some ErrorCategoryObservation => FailureStageObservation
  | Some ErrorCategoryLocalRuntime => FailureStageLocalRuntime
  | Some ErrorCategoryAuthenticationAuthorization => FailureStageAuthentication
  | _ => FailureStageOperation
  end.
Definition zero_problem : Problem := mkProblem (CodeOther "") "" (FailureStageOther "") false false (RecommendedActionOther "") None None.
Definition clean_failure (code : ErrorCode) (message : string) (action : RecommendedAction) : CleanOutcome :=
  let p := match NewProblem code message (failure_stage code) with
           | Ok p => p
           | Err _ => match NewProblem CodeProviderStateUnknown message FailureStageObservation with Ok p => p | Err _ => zero_problem end
           end in
  mkCleanOutcome EffectFailed (Some (WithRecommendedAction action (WithRetrySemantics false false p))).
Definition cleanupProblem (err : option error) : option Problem :=
  match errors_As (as_problem false) err with
  | Some p => if is_nil (Problem_Validate p) then Some p else
      match errors_As (as_problem true) err with Some p => if is_nil (Problem_Validate p) then Some p else None | None => None end
  | None =>
      match errors_As (as_problem true) err with Some p => if is_nil (Problem_Validate p) then Some p else None | None => None end
  end.
Definition copy_detail (known : Problem) (problem : Problem) (key : string) : Problem :=
  let value := map_get (PublicDetails known) key in if value <>? "" then WithDetail key value problem else problem.
Definition withFailureReason (o : CleanOutcome) (reason : string) (cause : option error) : CleanOutcome :=
  match oc_Problem o with
  | None => o
  | Some p =>
      let problem := WithDetail ReasonDetail reason p in
      let problem :=
        match cause with
        | None => problem
        | Some _ =>
            let problem :=
              match cleanupProblem cause with
              | Some known =>
                  if pb_Code known ==? pb_Code problem then
                    let problem := WithRetrySemantics (pb_SafeOperationRetry known) (pb_ComputeMayHaveStarted known) problem in
                    copy_detail known (copy_detail known problem CauseDetail) FirstCauseDetail
                  else problem
              | None => problem
              end in
            WithCause cause problem
        end in
      mkCleanOutcome (oc_Effect o) (Some problem)
  end.

(** ** Calls *)
Record CleanupOutcome := mkCleanupOutcome { ot_WouldDelete : bool; ot_Deleted : bool; ot_AlreadyAbsent : bool }.
Record StorageWork := mkStorageWork { sk_Lease : CleanupLease; sk_Binding : BindingSnapshot; sk_Target : StorageTarget; sk_State : string }.
Definition StorageWork_Valid (w : StorageWork) : bool :=
  CleanupLease_Valid (sk_Lease w) && BindingSnapshot_Valid (sk_Binding w) && StorageTarget_Valid (sk_Target w)
  && ((sk_State w ==? "pending") || (sk_State w ==? "running")).
Inductive CleanCtx := OwnedCtx | DeadlineCtx.
Inductive dcall : Type -> Type :=
  | DAcquire : dcall (option error)
  | DSchedule (n : Z) : dcall (option error)
  | DClaim (lease : Duration) : dcall (result error (option CleanupWork))
  | DHeartbeat (until : Time) : dcall unit
  | DStop : dcall (option error)
  | DCtx (c : CleanCtx) : dcall (option error)
  | DResolve (b : BindingSnapshot) : dcall (option (result error bool))
  | DDescribe (r : CleanupResourceRequest) : dcall (option (result error CleanupDescription))
  | DVerify (b : BindingSnapshot) : dcall (option (option error))
  | DBegin (w : CleanupWork) (x : ResourceWork) : dcall (option error)
  | DDelete (r : CleanupResourceRequest) : dcall (option (CleanupOutcome * option error))
  | DRecord (w : CleanupWork) (r : ResourceResult) : dcall (option error)
  | DComplete (w : CleanupWork) (o : CleanOutcome) : dcall (option error)
  | DClaimStorage (lease : Duration) : dcall (result error (option StorageWork))
  | DOfStorage : dcall bool
  | DObserve (t : StorageTarget) : dcall (option (result error TargetObservation))
  | DBeginStorage (w : StorageWork) : dcall (option error)
  | DDeleteStorage (t : StorageTarget) (recoverOnly : bool) : dcall (option (result error DeleteOutcome))
  | DCompleteStorage (w : StorageWork) (o : DeleteOutcome) (reason : string) : dcall (option error)
  | DRecordReason (w : StorageWork) (reason : string) : dcall (option error).

(** ** One resource *)
Definition with_result (r : ResourceResult) (s : ResourceState) (reason : string) : ResourceResult :=
  mkResourceResult (rr_ResourceID r) (rr_Purpose r) (rr_Fingerprint r) s reason.
(** What the inspection and the call of a resource return: the result and the
    outcome, or an error of the local state. *)
Definition inspected : Type := result error (ResourceResult * CleanOutcome).
Definition settled (r : ResourceResult) (o : CleanOutcome) : inspected := Ok (r, withFailureReason o (rr_Reason r) None).
Definition binding_unverified (err : option error) (reason : string) : CleanOutcome :=
  let outcome := clean_failure CodeProviderStateUnknown "the frozen provider binding could not be verified; this resource was retained"
                   RecommendedActionInspectProvider in
  let outcome := match cleanupProblem err with
                 | Some known =>
                     mkCleanOutcome (oc_Effect outcome)
                       (Some (mkProblem (pb_Code known) (match oc_Problem outcome with Some p => pb_Message p | None => "" end) (pb_Stage known)
                                (pb_SafeOperationRetry known) (pb_ComputeMayHaveStarted known) (pb_RecommendedAction known)
                                (PublicDetails known) (pb_cause known)))
                 | None => outcome
                 end in
  withFailureReason outcome reason err.
Definition inspectCleanupResource (w : CleanupWork) (x : ResourceWork) : prog dcall inspected :=
  let result := rk_Result x in
  let panicked := settled (with_result result ResourceRetained "cleanup_inspection_panic")
    (clean_failure CodeProviderStateUnknown "the provider could not verify this resource; no new deletion was attempted" RecommendedActionInspectProvider) in
  described ← perform (DDescribe (rs_Request (rk_Resource x)));
  match described with
  | None => mret panicked
  | Some described =>
      let err := match described with Err e => Some e | Ok _ => None end in
      if IsLocalStateError err then mret (Err (default cleanup_ErrInvalid err)) else
      match described with
      | Err e =>
          let r := with_result result ResourceRetained (Reason (Some e) "cleanup_description_failed") in
          mret (settled r (withFailureReason (clean_failure CodeRemoteIdentityMismatch
            "the recorded cleanup target could not be verified; this resource was retained" RecommendedActionInspectProvider) (rr_Reason r) (Some e)))
      | Ok d =>
          if negb (CleanupDescription_Valid d) then
            let r := with_result result ResourceRetained (Reason None "cleanup_description_failed") in
            mret (settled r (withFailureReason (clean_failure CodeRemoteIdentityMismatch
              "the recorded cleanup target could not be verified; this resource was retained" RecommendedActionInspectProvider) (rr_Reason r) None))
          else if cd_Support d <>? CapabilitySupportSupported then
            let r := with_result result ResourceRetained (cd_Reason d) in
            mret (settled r (clean_failure CodeUnsupportedCapability
              "exact-target cleanup is unavailable for this resource; inspect its retained reason" RecommendedActionInspectProvider))
          else
            verified ← perform (DVerify (cw_Binding w));
            mret match verified with
            | None => panicked
            | Some (Some e) =>
                if IsLocalStateError (Some e) then Err e
                else
                  let r := with_result result ResourceRetained (Reason (Some e) "cleanup_binding_unverified") in
                  settled r (binding_unverified (Some e) (rr_Reason r))
            | Some None => settled (with_result result ResourceRunning "delete_intent_recorded") no_outcome
            end
      end
  end.
(** The request of the call: recovery observes only. *)
Definition apply_request (x : ResourceWork) : CleanupResourceRequest :=
  let q := rs_Request (rk_Resource x) in
  mkCleanupResourceRequest (cq_Remote q) (cq_LedgerID q) (cq_CreationOperationID q) (cq_ResultsCollected q) CleanupApply (cq_Purpose q)
    (cq_OwnershipOperationID q) (cq_PlanSHA256 q) (rr_State (rk_Result x) ==? ResourceRunning).
Definition problem_code (err : option error) : ErrorCode :=
  match errors_As (as_problem false) err with
  | Some p => pb_Code p
  | None => match errors_As (as_problem true) err with Some p => pb_Code p | None => CodeOther "" end
  end.
Definition unconfirmed : CleanOutcome :=
  clean_failure CodeProviderStateUnknown "remote cleanup returned no confirmed outcome; preserve the original targets for recovery"
    RecommendedActionInspectProvider.
(** What an answered call proves of the resource. *)
Definition judge_call (result : ResourceResult) (o : CleanupOutcome) (err : option error) : inspected :=
  if IsLocalStateError err then Err (default cleanup_ErrInvalid err)
  else if is_nil err && ot_Deleted o && negb (ot_AlreadyAbsent o) && negb (ot_WouldDelete o)
  then settled (with_result result ResourceDeleted "deletion_confirmed") no_outcome
  else if is_nil err && ot_AlreadyAbsent o && negb (ot_Deleted o) && negb (ot_WouldDelete o)
  then settled (with_result result ResourceAbsent "absence_confirmed") no_outcome
  else
    let reason := if not_nil err then Reason err "cleanup_delete_failed" else "cleanup_delete_unconfirmed" in
    let r := with_result result ResourceUnknown reason in
    let failed := if not_nil err then withFailureReason unconfirmed reason err else unconfirmed in
    if not_nil err && (ot_Deleted o || ot_AlreadyAbsent o || ot_WouldDelete o) then settled r failed
    else if errors_Is err ErrCleanupUnsupported_text then
      settled (with_result result ResourceRetained "resource_cleanup_unsupported")
        (clean_failure CodeUnsupportedCapability "the adapter retained an unsupported cleanup target" RecommendedActionInspectProvider)
    else
      let '(r, failed) :=
        match problem_code err with
        | CodeRemoteIdentityMismatch =>
            (with_result result ResourceRetained (Reason err "identity_mismatch"),
             clean_failure CodeRemoteIdentityMismatch "the remote resource did not match the original target; this resource was retained" RecommendedActionInspectProvider)
        | CodeRemoteExecutionUnresolved =>
            (with_result result ResourceRetained (Reason err "execution_unresolved"),
             clean_failure CodeRemoteExecutionUnresolved "the resource is active or unresolved; this resource was retained" RecommendedActionReconcile)
        | (CodeProviderAuthFailed | CodeProviderAccessDenied) as code =>
            (with_result result ResourceFailed (Reason err "provider_access_denied"),
             clean_failure code "the provider refused cleanup; no deletion was confirmed" RecommendedActionConfigure)
        | _ => (r, failed)
        end in
      settled r (withFailureReason failed (rr_Reason r) err).
Definition callCleanupResource (x : ResourceWork) : prog dcall inspected :=
  answer ← perform (DDelete (apply_request x));
  mret match answer with
  | None => settled (with_result (rk_Result x) ResourceUnknown "cleanup_delete_panic") unconfirmed
  | Some (o, err) => judge_call (rk_Result x) o err
  end.

(** ** The resources of an attempt *)
Definition is_one_of (err : error) (texts : list string) : bool := match err with ENew t => bool_decide (t ∈ texts) | _ => false end.
Definition eligibility_errors : list string :=
  ["the target attempt changed"; "a control of this kind is already pending"; "control is not appropriate for the current state";
   "remote execution is unresolved"; "results were not collected; confirm discard_uncollected"].
Definition open_state (s : ResourceState) : bool := (s ==? ResourcePending) || (s ==? ResourceRunning).
(** A pending or running resource up to the write of its result. [adapter]:
    the error of resolving the provider, or whether there is one. *)
Definition attempt_resource (w : CleanupWork) (adapter : result error bool) (priorUnresolved : bool) (x : ResourceWork) : prog dcall inspected :=
  let result := rk_Result x in
  if priorUnresolved then
    mret (Ok (with_result result ResourceRetained "execution_cleanup_unresolved",
      clean_failure CodeProviderStateUnknown "execution cleanup is unresolved; staging resources were retained for recovery" RecommendedActionInspectProvider))
  else
    deadline ← perform (DCtx DeadlineCtx);
    if not_nil deadline then
      mret (Ok (with_result result ResourceRetained "cleanup_deadline_reached",
        clean_failure CodeProviderStateUnknown "the cleanup deadline was reached before this resource could be checked" RecommendedActionInspectProvider))
    else match adapter with
    | Err _ | Ok false =>
        let err := match adapter with Err e => Some e | Ok _ => None end in
        mret (Ok (with_result result ResourceRetained (Reason err "provider_not_configured"),
          clean_failure CodeConfigurationInvalid "the attempt's frozen provider binding is not configured; resources were retained" RecommendedActionConfigure))
    | Ok true =>
        seen ← inspectCleanupResource w x;
        match seen with
        | Err e => mret (Err e)
        | Ok (r, failed) =>
            if rr_State r <>? ResourceRunning then mret (Ok (r, failed))
            else
              begun ← perform (DBegin w x);
              match begun with
              | None => callCleanupResource x
              | Some e =>
                  owned ← perform (DCtx OwnedCtx);
                  if not_nil owned then mret (Err e)
                  else if is_one_of e eligibility_errors then
                    mret (Ok (with_result r ResourceRetained "eligibility_changed",
                      clean_failure CodeIllegalStateTransition "cleanup eligibility changed before deletion; the resource was retained" RecommendedActionRetryRead))
                  else mret (Err e)
              end
        end
    end.
(** A recovered running intent keeps its unknown outcome. *)
Definition recovered_result (x : ResourceWork) (r : ResourceResult) (failed : CleanOutcome) : ResourceResult * CleanOutcome :=
  if (rr_State (rk_Result x) ==? ResourceRunning) && negb (ResourceState_Confirmed (rr_State r)) then
    (with_result r ResourceUnknown "prior_delete_outcome_unknown",
     clean_failure CodeProviderStateUnknown "the earlier deletion outcome remains unknown; preserve the original target for recovery" RecommendedActionInspectProvider)
  else (r, failed).
Record loop_state := mkLoop { lp_allAbsent : bool; lp_unresolved : bool; lp_failure : option CleanOutcome }.
Definition after_resource (st : loop_state) (r : ResourceResult) (failed : option CleanOutcome) : loop_state :=
  let confirmed := ResourceState_Confirmed (rr_State r) in
  let first := if negb confirmed && is_nil (lp_failure st) then failed else lp_failure st in
  let first := if negb confirmed && is_nil first
               then Some (withFailureReason (clean_failure CodeProviderStateUnknown
                      "one or more original cleanup targets remain unresolved; inspect their resource outcomes" RecommendedActionInspectProvider) (rr_Reason r) None)
               else first in
  mkLoop (lp_allAbsent st && (rr_State r ==? ResourceAbsent)) (lp_unresolved st || negb confirmed) first.
Fixpoint apply_each (w : CleanupWork) (adapter : result error bool) (st : loop_state) (l : list ResourceWork) : prog dcall (result error loop_state) :=
  match l with
  | [] => mret (Ok st)
  | x :: l =>
      let result := rk_Result x in
      if negb (ResourceResult_Valid result) || negb (CleanupResourceRequest_Valid (rs_Request (rk_Resource x)))
         || (Resource_Fingerprint (rk_Resource x) <>? rr_Fingerprint result) then mret (Err cleanup_ErrInvalid)
      else if open_state (rr_State result) then
        tried ← attempt_resource w adapter (lp_unresolved st) x;
        match tried with
        | Err e => mret (Err e)
        | Ok (r, failed) =>
            owned ← perform (DCtx OwnedCtx);
            match owned with
            | Some e => mret (Err e)
            | None =>
                let '(r, failed) := recovered_result x r failed in
                let failed := withFailureReason failed (rr_Reason r) None in
                recorded ← perform (DRecord w r);
                match recorded with
                | Some e => mret (Err e)
                | None => apply_each w adapter (after_resource st r (Some failed)) l
                end
            end
        end
      else apply_each w adapter (after_resource st result None) l
  end.
Definition resolve_adapter (reason : string) (b : BindingSnapshot) : prog dcall (result error bool) :=
  r ← perform (DResolve b);
  mret match r with Some r => r | None => Err (default cleanup_ErrInvalid (WithReason (Some cleanup_ErrInvalid) reason)) end.
Definition result_error {A} (r : result error A) : option error := match r with Err e => Some e | Ok _ => None end.
Definition applyResources (w : CleanupWork) : prog dcall (result error CleanOutcome) :=
  let n := Z.of_nat (length (cw_Resources w)) in
  if (n =? 0) || (MaxCleanupResources <? n) then mret (Err cleanup_ErrInvalid)
  else
    adapter ← (if existsb (fun x => open_state (rr_State (rk_Result x))) (cw_Resources w)
               then resolve_adapter "cleanup_resolver_panic" (cw_Binding w) else mret (Ok false));
    if IsLocalStateError (result_error adapter) then mret (Err (default cleanup_ErrInvalid (result_error adapter)))
    else
      st ← apply_each w adapter (mkLoop true false None) (cw_Resources w);
      mret match st with
      | Err e => Err e
      | Ok st =>
          Ok match lp_failure st with
             | Some o => o
             | None => mkCleanOutcome (if lp_allAbsent st then AlreadyAbsent else RemoteDeleted) None
             end
      end.

(** ** One storage target *)
Definition verify_adapter (reason : string) (b : BindingSnapshot) : prog dcall (option error) :=
  r ← perform (DVerify b);
  mret match r with Some e => e | None => WithReason (Some cleanup_ErrInvalid) reason end.
Definition observe_target (t : StorageTarget) : prog dcall (result error TargetObservation) :=
  r ← perform (DObserve t);
  mret match r with Some r => r | None => Err (default cleanup_ErrInvalid (WithReason (Some cleanup_ErrInvalid) "storage_cleanup_observation_panic")) end.
Definition callStorageDeletion (t : StorageTarget) (recoverOnly : bool) : prog dcall (result error DeleteOutcome) :=
  r ← perform (DDeleteStorage t recoverOnly);
  mret match r with Some r => r | None => Err (default cleanup_ErrInvalid (WithReason (Some cleanup_ErrInvalid) "storage_cleanup_delete_panic")) end.
Definition storageCompletionReason (o : DeleteOutcome) (reason : string) : string :=
  match o with DeleteConfirmed => "deletion_confirmed" | AbsentConfirmed => "absence_confirmed" | _ => reason end.
(** A provider that cannot be used: a pending target is retained, a running
    one waits for a later observation. *)
Definition binding_unusable (w : StorageWork) (err : option error) (reason : string) : prog dcall (option error) :=
  if IsLocalStateError err then mret err
  else if sk_State w ==? "running" then
    e ← perform (DRecordReason w (Reason err reason));
    mret match e with Some e => Some e | None => Some (ENew cleanup_ErrDeferred_text) end
  else
    e ← perform DStop;
    match e with Some e => mret (Some e) | None => perform (DCompleteStorage w DeleteRetained (Reason err reason)) end.
(** The decision on a pending target: an error to return, or an outcome with
    its reason or the error of the deletion. *)
Definition delete_pending (w : StorageWork) : prog dcall (result error (result error DeleteOutcome * string)) :=
  let unconfirmed := "storage_cleanup_delete_unconfirmed" in
  observed ← observe_target (sk_Target w);
  match observed with
  | Err e =>
      if IsLocalStateError (Some e) then mret (Err e)
      else mret (Ok (Ok DeleteRetained, Reason (Some e) "storage_cleanup_observation_failed"))
  | Ok o =>
      if negb (to_Present o) then mret (Ok (Ok AbsentConfirmed, "absence_confirmed"))
      else if negb (to_Eligible o) then
        mret (Ok (Ok DeleteRetained, if ValidReason (to_Reason o) then to_Reason o else "storage_cleanup_ineligible"))
      else
        begun ← perform (DBeginStorage w);
        match begun with
        | Some e =>
            if errors_Is (Some e) storage_ErrIneligible_text then mret (Ok (Ok DeleteRetained, "storage_cleanup_eligibility_changed"))
            else mret (Err e)
        | None => r ← callStorageDeletion (sk_Target w) false; mret (Ok (r, unconfirmed))
        end
  end.
Definition finish_storage (w : StorageWork) (r : result error DeleteOutcome) (reason : string) : prog dcall (option error) :=
  let complete o reason :=
    owned ← perform (DCtx OwnedCtx);
    match owned with
    | Some e => mret (Some e)
    | None =>
        e ← perform DStop;
        match e with Some e => mret (Some e) | None => perform (DCompleteStorage w o (storageCompletionReason o reason)) end
    end in
  match r with
  | Ok o => complete o reason
  | Err err =>
      owned ← perform (DCtx OwnedCtx);
      match owned with
      | Some e => mret (Some e)
      | None =>
          if IsLocalStateError (Some err) || errors_Is (Some err) storage_ErrIneligible_text then mret (Some err)
          else complete DeleteUnknown (Reason (Some err) "storage_cleanup_delete_failed")
      end
  end.
Definition storage_pass (w : StorageWork) : prog dcall (option error) :=
  adapter ← resolve_adapter "storage_cleanup_resolver_panic" (sk_Binding w);
  match adapter with
  | Err _ | Ok false => binding_unusable w (result_error adapter) "storage_cleanup_binding_unavailable"
  | Ok true =>
      verified ← verify_adapter "storage_cleanup_verification_panic" (sk_Binding w);
      match verified with
      | Some e => binding_unusable w (Some e) "storage_cleanup_binding_unverified"
      | None =>
          able ← perform DOfStorage;
          if negb able then mret (Some cleanup_ErrInvalid)
          else if sk_State w ==? "running" then
            r ← callStorageDeletion (sk_Target w) true; finish_storage w r "storage_cleanup_delete_unconfirmed"
          else
            r ← delete_pending w;
            match r with Err e => mret (Some e) | Ok (r, reason) => finish_storage w r reason end
      end
  end.
Definition runStorageOnce : prog dcall (bool * option error) :=
  claimed ← perform (DClaimStorage LeaseDuration);
  match claimed with
  | Err e => mret (false, Some e)
  | Ok None => mret (false, None)
  | Ok (Some w) =>
      if negb (StorageWork_Valid w) then mret (true, Some cleanup_ErrInvalid)
      else
        _ ← perform (DHeartbeat (ce_Until (sk_Lease w)));
        e ← storage_pass w;
        renewal ← perform DStop;
        mret (true, HeartbeatError e renewal)
  end.

(** ** One run *)
Record CleanupConfig := mkCleanupConfig { cc_Workers : Z; cc_Timeout : Duration; cc_PollDelay : Duration }.
Definition cleanup_DefaultConfig : CleanupConfig := mkCleanupConfig 1 (5 * Minute) Second.
Definition CleanupConfig_Valid (c : CleanupConfig) : bool :=
  (1 <=? cc_Workers c) && (cc_Workers c <=? 4) && (Second <=? cc_Timeout c) && (cc_Timeout c <=? 30 * Minute)
  && (Millisecond <=? cc_PollDelay c) && (cc_PollDelay c <=? Minute).
Definition cleanup_pass (w : CleanupWork) : prog dcall (option error) :=
  outcome ← (match cw_Resources w with
             | [] => mret (Ok (mkCleanOutcome AlreadyAbsent None))
             | _ => applyResources w
             end);
  match outcome with
  | Err e => mret (Some e)
  | Ok outcome =>
      owned ← perform (DCtx OwnedCtx);
      match owned with
      | Some e => mret (Some e)
      | None =>
          e ← perform DStop;
          match e with Some e => mret (Some e) | None => perform (DComplete w outcome) end
      end
  end.
(** [schedules]: the repository also schedules retention; [storage]: the
    engine also works on storage targets. *)
Definition RunCleanup (schedules storage : bool) : prog dcall (bool * option error) :=
  full ← perform DAcquire;
  match full with
  | Some e => mret (false, Some e)
  | None =>
      scheduled ← (if schedules then perform (DSchedule 32) else mret None);
      match scheduled with
      | Some e => mret (false, Some e)
      | None =>
          claimed ← perform (DClaim LeaseDuration);
          match claimed with
          | Err e => mret (false, Some e)
          | Ok None => if storage then runStorageOnce else mret (false, None)
          | Ok (Some w) =>
              if negb (CleanupWork_Valid w) then mret (true, Some cleanup_ErrInvalid)
              else
                _ ← perform (DHeartbeat (ce_Until (cw_Lease w)));
                e ← cleanup_pass w;
                renewal ← perform DStop;
                mret (true, HeartbeatError e renewal)
          end
      end
  end.
Definition cleanup_classify (err : option error) : Decision :=
  if errors_Is err cleanup_ErrLeaseLost_text || errors_Is err cleanup_ErrDeferred_text then Continue else Classify err.

(** ** Previews *)
Record PreviewPlan := mkPreviewPlan {
  pn_WorkspaceID : string; pn_JobID : string; pn_AttemptID : string; pn_Revision : Z; pn_Binding : BindingSnapshot;
  pn_Resources : list CleanResource; pn_Eligible : bool; pn_Reason : string; pn_UnconfirmedPlan : option Plan; pn_PreparationID : string }.
Definition json_clean_resource (r : CleanResource) : json :=
  JObj [("Request", json_resource_request (rs_Request r)); ("Reason", JStr (rs_Reason r))].
Definition json_binding_snapshot (b : BindingSnapshot) : json :=
  JObj [("Binding", json_binding (bs_Binding b)); ("AccountScope", JStr (bs_AccountScope b)); ("CredentialRef", JStr (bs_CredentialRef b))].
Definition json_preview_plan (p : PreviewPlan) : json :=
  JObj [("WorkspaceID", JStr (pn_WorkspaceID p)); ("JobID", JStr (pn_JobID p)); ("AttemptID", JStr (pn_AttemptID p));
        ("Revision", JInt (pn_Revision p)); ("Binding", json_binding_snapshot (pn_Binding p));
        ("Resources", match pn_Resources p with [] => JNull | l => JArr (map json_clean_resource l) end);
        ("Eligible", JBool (pn_Eligible p)); ("Reason", JStr (pn_Reason p));
        ("UnconfirmedPlan", match pn_UnconfirmedPlan p with Some plan => json_plan plan | None => JNull end);
        ("PreparationID", JStr (pn_PreparationID p))].
(** A plan whose specification is not JSON cannot be written: the digest is
    that of nothing. *)
Definition Preview_Fingerprint (p : PreviewPlan) : string :=
  match pn_UnconfirmedPlan p with
  | Some plan => if GoJson.Valid (rj_Specification (pl_Job plan)) then Digest (Marshal (json_preview_plan p)) else Digest ""
  | None => Digest (Marshal (json_preview_plan p))
  end.
Record ResourcePreview := mkResourcePreview {
  rp_ResourceID : string; rp_Purpose : string; rp_Fingerprint : string; rp_Target : option CleanupDescription; rp_Eligible : bool;
  rp_Observation : string; rp_Reason : string }.
Record CleanupPreview := mkCleanupPreview {
  cv_WorkspaceID : string; cv_JobID : string; cv_AttemptID : string; cv_ObservedAt : Time; cv_Eligible : bool; cv_Reason : string;
  cv_Resources : list ResourcePreview }.
Inductive pcall : Type -> Type :=
  | PCtxErr : pcall (option error)
  | PToken (digest : string) : pcall (result error TokenRecord)
  | PWorkspace (id : string) : pcall (result error Workspace)
  | PPlan (w token job attempt : string) (discard : bool) : pcall (result error PreviewPlan)
  | PResolve (b : BindingSnapshot) : pcall (option (result error bool))
  | PVerify (b : BindingSnapshot) : pcall (option (option error))
  | POfStaging : pcall bool
  | PObserveStaging (plan : Plan) (id : string) : pcall (result error PreparationObservation)
  | PRecordPreparation (w token job attempt : string) (plan : PreviewPlan) (p : Prepared) : pcall (option error)
  | PNow : pcall Time
  | PDescribe (r : CleanupResourceRequest) : pcall (option (result error CleanupDescription))
  | PDryRun (r : CleanupResourceRequest) : pcall (option (CleanupOutcome * option error)).
#[export] Instance pcall_auth : AuthCalls pcall :=
  {| AccessCtxErr := PCtxErr; LookupToken := PToken; LookupWorkspace := PWorkspace |}.
(** The closure [verified]: the binding is checked once; [None] is not yet. *)
Definition binding_state : Type := option (option error).
Definition verified_once (b : BindingSnapshot) (adapter : bool) (resolveErr : option error) (st : binding_state) : prog pcall (option error * binding_state) :=
  match st with
  | Some e => mret (e, Some e)
  | None =>
      if adapter then
        r ← perform (PVerify b);
        let e := match r with Some e => e | None => WithReason (Some cleanup_ErrInvalid) "storage_cleanup_verification_panic" end in
        mret (e, Some e)
      else mret (resolveErr, None)
  end.
Definition dry_request (q : CleanupResourceRequest) : CleanupResourceRequest :=
  mkCleanupResourceRequest (cq_Remote q) (cq_LedgerID q) (cq_CreationOperationID q) (cq_ResultsCollected q) CleanupDryRun (cq_Purpose q)
    (cq_OwnershipOperationID q) (cq_PlanSHA256 q) (cq_RecoverOnly q).
Definition with_view (v : ResourcePreview) (target : option CleanupDescription) (eligible : bool) (observation reason : string) : ResourcePreview :=
  mkResourcePreview (rp_ResourceID v) (rp_Purpose v) (rp_Fingerprint v) target eligible observation reason.
Definition judge_dry_run (view : ResourcePreview) (target : CleanupDescription) (o : CleanupOutcome) (err : option error) : ResourcePreview :=
  let unknown := with_view view (Some target) false "unknown" (Reason err "cleanup_preview_unconfirmed") in
  if not_nil err || ot_Deleted o || ot_WouldDelete o && ot_AlreadyAbsent o then unknown
  else if ot_AlreadyAbsent o then with_view view (Some target) true "absent" "absence_observed"
  else if ot_WouldDelete o then with_view view (Some target) true "present" "eligible"
  else unknown.
Definition previewResource (plan : PreviewPlan) (resource : CleanResource) (adapter : bool) (resolveErr : option error) (st : binding_state) :
    prog pcall (ResourcePreview * binding_state) :=
  let request := rs_Request resource in
  let reason := if rs_Reason resource <>? "" then rs_Reason resource else pn_Reason plan in
  let view := mkResourcePreview (cq_LedgerID request) (cq_Purpose request) (Resource_Fingerprint resource) None false "not_checked" reason in
  let own := rs_Reason resource ==? "" in
  let panicked target := with_view view target false "unknown" "provider_inspection_failed" in
  if negb adapter then
    if own then '(e, st) ← verified_once (pn_Binding plan) adapter resolveErr st; mret (with_view view None false "not_checked" (Reason e "provider_not_configured"), st)
    else mret (view, st)
  else
    described ← perform (PDescribe request);
    match described with
    | None => mret (panicked None, st)
    | Some described =>
        let err := result_error described in
        match described with
        | Err _ => mret (if own then with_view view None false "not_checked" (Reason err "cleanup_description_failed") else view, st)
        | Ok d =>
            if negb (CleanupDescription_Valid d)
            then mret (if own then with_view view None false "not_checked" (Reason None "cleanup_description_failed") else view, st)
            else
              let view := with_view view (Some d) false "not_checked" reason in
              if negb (pn_Eligible plan) || negb own then mret (view, st)
              else if cd_Support d <>? CapabilitySupportSupported then mret (with_view view (Some d) false "not_checked" (cd_Reason d), st)
              else
                '(e, st) ← verified_once (pn_Binding plan) adapter resolveErr st;
                match e with
                | Some _ => mret (with_view view (Some d) false "unknown" (Reason e "cleanup_binding_unverified"), st)
                | None =>
                    answer ← perform (PDryRun (dry_request request));
                    mret (match answer with
                          | None => panicked (Some d)
                          | Some (o, err) => judge_dry_run view d o err
                          end, st)
                end
        end
    end.
(** The resources one after another: whether the cleanup is eligible and why
    not, and the views. *)
Fixpoint preview_each (plan : PreviewPlan) (absent adapter : bool) (resolveErr : option error) (st : binding_state) (eligible : bool) (reason : string)
    (views : list ResourcePreview) (l : list CleanResource) : prog pcall (bool * string * list ResourcePreview) :=
  match l with
  | [] => mret (eligible, reason, views)
  | resource :: l =>
      '(view, st) ← previewResource plan resource adapter resolveErr st;
      let gone := absent && (cq_Purpose (rs_Request resource) ==? "staging") && (rs_Reason resource ==? "creation_unresolved") in
      let view := if gone then with_view view (rp_Target view) (rp_Eligible view) "absent" "absence_observed" else view in
      let reason := if gone then "absence_observed" else reason in
      if rp_Eligible view then preview_each plan absent adapter resolveErr st eligible reason (views ++ [view]) l
      else preview_each plan absent adapter resolveErr st false (if eligible then rp_Reason view else reason) (views ++ [view]) l
  end.
(** Late discovery of a staging intent: the plan after it, and whether the
    staged copy is known to be absent. *)
Definition settle_staging (recorder : bool) (w token job attempt : string) (discard : bool) (adapter : bool) (resolveErr : option error) (plan : PreviewPlan)
    (st : binding_state) : service pcall (PreviewPlan * bool * binding_state) :=
  observer ← (if adapter then perform POfStaging else mret false);
  match pn_UnconfirmedPlan plan with
  | Some unconfirmed =>
      if negb observer then Done (Ok (plan, false, st)) else
      '(e, st) ← verified_once (pn_Binding plan) adapter resolveErr st;
      match e with
      | Some _ => Done (Ok (plan, false, st))
      | None =>
          seen ← perform (PObserveStaging (Plan_Clone unconfirmed) (pn_PreparationID plan));
          match seen with
          | Err _ => Done (Ok (plan, false, st))
          | Ok seen =>
              if not_nil (PreparationObservation_Validate seen unconfirmed (pn_PreparationID plan)) then Done (Ok (plan, false, st))
              else if po_Status seen ==? ReconciliationFound then
                match po_Prepared seen with
                | Some p =>
                    if recorder && pr_Private p then
                      try _ <- check_error (perform (PRecordPreparation w token job attempt plan p)) ;;
                      try plan <- perform (PPlan w token job attempt discard) ;;
                      Done (Ok (plan, false, st))
                    else Done (Ok (plan, false, st))
                | None => Done (Ok (plan, false, st))
                end
              else Done (Ok (plan, po_Status seen ==? ReconciliationNotFound, st))
          end
      end
  | None => Done (Ok (plan, false, st))
  end.
(** [resolver]: a resolver was configured; [recorder]: the repository also
    records late preparations. *)
Definition cleanup_Preview (resolver recorder : bool) (p : Principal) (w job attempt : string) (discard : bool) : service pcall CleanupPreview :=
  try p <- authorize p w ScopeOperate ;;
  try plan <- perform (PPlan w (pr_tokenID p) job attempt discard) ;;
  refuse (MaxCleanupResources <? Z.of_nat (length (pn_Resources plan))) || (pn_WorkspaceID plan <>? w) || (pn_JobID plan <>? job)
         || (pn_AttemptID plan <>? attempt) with cleanup_ErrInvalid ;;
  resolved ← (if resolver
              then r ← perform (PResolve (pn_Binding plan));
                   mret match r with
                        | Some r => r
                        | None => Err (default cleanup_ErrInvalid (WithReason (Some cleanup_ErrInvalid) "storage_cleanup_resolver_panic"))
                        end
              else mret (Ok false));
  let adapter := match resolved with Ok b => b | Err _ => false end in
  let resolveErr := result_error resolved in
  try '(plan, absent, st) <- settle_staging recorder w (pr_tokenID p) job attempt discard adapter resolveErr plan None ;;
  now ← perform PNow;
  '(eligible, reason, views) ← preview_each plan absent adapter resolveErr st (pn_Eligible plan) (pn_Reason plan) [] (pn_Resources plan);
  try again <- perform (PPlan w (pr_tokenID p) job attempt discard) ;;
  refuse Preview_Fingerprint again <>? Preview_Fingerprint plan with ENew "the target attempt changed" ;;
  Done (Ok (mkCleanupPreview w job attempt now eligible reason views)).
