(* ===== verification/CleanupProps.v ===== *)
(** * A cleanup deletes only what it announced

    A monitor over the calls of one run of the cleanup engine: which resources
    and targets it may delete, in which order, and what it may record. *)

From S2P Require Import Prelude Effects GoStrings GoTime GoSha256 GoJson JsonRead Identifiers Problems Workers AttemptStates Attempts Operations DomainRecords Provider ProviderResources Admission Auth ControlOps Journal HostStorage Cleanup.
#[local] Open Scope string_scope.
#[local] Open Scope list_scope.
#[local] Open Scope Z_scope.
#[local] Open Scope bool_scope.

(** ** Outcomes that are recorded are valid *)
Definition failed_outcome (o : CleanOutcome) : Prop := oc_Effect o = EffectFailed /\ CleanOutcome_Valid o = true.
Lemma failed_problem o : failed_outcome o <-> exists p, o = mkCleanOutcome EffectFailed (Some p) /\ Problem_Validate p = None.
Proof.
  unfold failed_outcome, CleanOutcome_Valid. destruct o as [e p]; cbn. split.
  - intros [-> H]. destruct p as [p|]; [|done]. exists p. split; [done|]. by destruct (Problem_Validate p).
  - intros (p' & [= -> ->] & H). by rewrite H.
Qed.
Lemma detail_valid key value (p : Problem) : TrimSpace key <> "" -> Problem_Validate p = None -> Problem_Validate (WithDetail key value p) = None.
Proof.
  intros Hk. unfold Problem_Validate, WithDetail, with_Details. cbn [pb_Code pb_Message pb_Stage pb_RecommendedAction pb_ComputeMayHaveStarted pb_SafeOperationRetry pb_Details].
  repeat (match goal with |- context [if ?b then Some _ else _] => destruct b eqn:?; [done|] end). intros _.
  match goal with |- context [if ?b then Some _ else None] => destruct b eqn:E; [exfalso|done] end.
  apply existsb_exists in E as ([k v] & Hin%list_elem_of_In & Hb). apply elem_of_map_to_list in Hin. cbn [fst default from_option] in *. unfold id in Hin.
  apply bool_decide_eq_true in Hb. apply lookup_insert_Some in Hin as [[<- _]|[_ Hin]]; [done|].
  match goal with H : existsb _ _ = false |- _ => apply not_true_iff_false in H; apply H end. apply existsb_exists. exists (k, v).
  split; [by apply list_elem_of_In, elem_of_map_to_list|]. by apply bool_decide_eq_true.
Qed.
Lemma cause_valid cause (p : Problem) : Problem_Validate (WithCause cause p) = Problem_Validate p.
Proof. done. Qed.
Lemma plain_reason_valid o reason : failed_outcome o -> failed_outcome (withFailureReason o reason None).
Proof.
  rewrite !failed_problem. intros (p & -> & H). eexists. split; [done|]. by apply detail_valid.
Qed.
Lemma semantics_valid safe may (p : Problem) :
  pb_RecommendedAction p <> RecommendedActionRetryComputeExplicitly \/ (safe = pb_SafeOperationRetry p /\ may = pb_ComputeMayHaveStarted p) ->
  Problem_Validate p = None -> Problem_Validate (WithRetrySemantics safe may p) = None.
Proof.
  intros [Ha|[-> ->]]; [|by destruct p]. unfold Problem_Validate, WithRetrySemantics.
  cbn [pb_Code pb_Message pb_Stage pb_RecommendedAction pb_ComputeMayHaveStarted pb_SafeOperationRetry pb_Details].
  rewrite (bool_decide_eq_false_2 (pb_RecommendedAction p = RecommendedActionRetryComputeExplicitly)), !andb_false_r by done. done.
Qed.
Lemma copy_detail_valid known p key : TrimSpace key <> "" -> Problem_Validate p = None -> Problem_Validate (copy_detail known p key) = None.
Proof. intros Hk Hp. unfold copy_detail. cbv zeta. destruct (_ <>? _); [by apply detail_valid|done]. Qed.
(** Outcomes of the engine's own making, which never ask for a new compute. *)
Definition own_failure (o : CleanOutcome) : Prop :=
  failed_outcome o /\ forall p, oc_Problem o = Some p -> pb_RecommendedAction p <> RecommendedActionRetryComputeExplicitly.
Lemma caused_valid o reason cause : own_failure o -> failed_outcome (withFailureReason o reason cause).
Proof.
  rewrite failed_problem. intros [(p & -> & H)%failed_problem Ha]. specialize (Ha p eq_refl). eexists. split; [done|]. cbn [oc_Problem].
  pose proof (detail_valid ReasonDetail reason p ltac:(done) H) as Hd. destruct cause as [e|]; [|done]. rewrite cause_valid. destruct (cleanupProblem _) as [known|]; [|done].
  destruct (_ ==? _); [|done]. do 2 (apply copy_detail_valid; [done|]). apply semantics_valid; [by left|done].
Qed.
Lemma copied_action known p key : pb_RecommendedAction (copy_detail known p key) = pb_RecommendedAction p.
Proof. unfold copy_detail. cbv zeta. by destruct (_ <>? _). Qed.
Lemma caused_own o reason cause : own_failure o -> own_failure (withFailureReason o reason cause).
Proof.
  intros Ho. split; [by apply caused_valid|]. destruct Ho as [(p & -> & H)%failed_problem Ha]. specialize (Ha p eq_refl). intros q [= <-].
  destruct cause as [e|]; [|done]. cbn [WithCause pb_RecommendedAction]. destruct (cleanupProblem _); [|done]. destruct (_ ==? _); [|done]. by rewrite !copied_action.
Qed.
Lemma known_valid err p : cleanupProblem err = Some p -> Problem_Validate p = None.
Proof.
  unfold cleanupProblem. destruct (errors_As (as_problem false) err) as [p1|], (errors_As (as_problem true) err) as [p2|];
    try destruct (Problem_Validate p1) eqn:E1; try destruct (Problem_Validate p2) eqn:E2; intros H; cbn in H; simplify_eq; done.
Qed.
Definition own_check (code : ErrorCode) (message : string) (action : RecommendedAction) : bool :=
  match NewProblem (E := error) code message (failure_stage code) with Ok _ => RecommendedAction_Valid action && (action <>? RecommendedActionRetryComputeExplicitly) | Err _ => false end.
Lemma own_checked code message action : own_check code message action = true -> own_failure (clean_failure code message action).
Proof.
  unfold own_check, clean_failure. destruct (NewProblem _ _ _) as [p|] eqn:E; [|done]. intros [H1 H2%negb_true_iff%bool_decide_eq_false]%andb_true_iff.
  split; [|by intros ? [= <-]]. apply failed_problem. eexists. split; [done|]. unfold NewProblem in E. cbv zeta in E.
  destruct (Problem_Validate _) eqn:Hv in E; [done|]. injection E as <-. revert Hv. unfold Problem_Validate, WithRecommendedAction, WithRetrySemantics.
  cbn [pb_Code pb_Message pb_Stage pb_RecommendedAction pb_ComputeMayHaveStarted pb_SafeOperationRetry pb_Details]. rewrite H1. cbn [negb andb].
  repeat (match goal with |- context [if ?b then Some _ else _] => destruct b eqn:?; try done end).
Qed.
Ltac own_outcome := apply own_checked; vm_compute; reflexivity.
Lemma public_keys (p : Problem) : existsb (fun kv => TrimSpace kv.1 ==? "") (map_to_list (default ∅ (PublicDetails p))) = true -> False.
Proof.
  intros ([k v] & Hin%list_elem_of_In%elem_of_map_to_list & Hb%bool_decide_eq_true)%existsb_exists. cbn [fst] in Hb.
  destruct (PublicDetails p) as [m|] eqn:E; [|done]. cbn [default from_option] in Hin. unfold id in Hin.
  pose proof (public_details_closed _ _ _ _ E Hin) as H. unfold detail_ok in H.
  assert (k ∈ [ReasonDetail; CauseDetail; FirstCauseDetail; "resource_name"; "submission_http_status"; "submission_error_type"; "submission_operation"]) as Hk.
  { repeat case_bool_decide; subst; try done; set_solver. }
  repeat (apply elem_of_cons in Hk as [->|Hk]; [vm_compute in Hb; discriminate|]). by apply not_elem_of_nil in Hk.
Qed.
(** The problem of an unverified binding keeps what the provider said. *)
Lemma binding_unverified_ok err reason : failed_outcome (binding_unverified err reason).
Proof.
  unfold binding_unverified. cbv zeta. set (o := clean_failure _ _ _). assert (own_failure o) as Ho by own_outcome.
  destruct (cleanupProblem err) as [known|] eqn:E; [|by apply caused_valid]. pose proof (known_valid _ _ E) as Hk.
  destruct Ho as [(p0 & -> & Hp)%failed_problem _]. cbn [oc_Effect oc_Problem].
  apply failed_problem. eexists. split; [done|]. cbn [oc_Problem].
  assert (Problem_Validate (mkProblem (pb_Code known) (pb_Message p0) (pb_Stage known) (pb_SafeOperationRetry known) (pb_ComputeMayHaveStarted known)
            (pb_RecommendedAction known) (PublicDetails known) (pb_cause known)) = None) as Hq.
  { revert Hp Hk. unfold Problem_Validate. cbn [pb_Code pb_Message pb_Stage pb_RecommendedAction pb_ComputeMayHaveStarted pb_SafeOperationRetry pb_Details].
    repeat (match goal with |- context [if ?b then Some _ else _] => destruct b eqn:?; try done end). exfalso. by eapply public_keys. }
  destruct err as [e|]; [|by apply detail_valid]. rewrite cause_valid, E. cbn [pb_Code WithDetail with_Details].
  rewrite bool_decide_eq_true_2 by done. do 2 (apply copy_detail_valid; [done|]). apply semantics_valid; [by right|by apply detail_valid].
Qed.

(** ** Events *)
Inductive clean_event :=
  | ClaimsCleanup (w : CleanupWork) | BeginsResource (x : ResourceWork) | BegunResource (e : option error)
  | DeletesResource (r : CleanupResourceRequest) | RecordsResource (r : ResourceResult) | CompletesCleanup (o : CleanOutcome)
  | ClaimsStorage (w : StorageWork) | SeesTarget (o : TargetObservation) | BeginsTarget | BegunTarget (e : option error)
  | DeletesTarget (t : StorageTarget) (recoverOnly : bool) | TargetAnswers (r : option (result error DeleteOutcome))
  | CompletesTarget (o : DeleteOutcome).
#[export] Instance dcall_events : Observed dcall clean_event := {|
  called X e :=
    match e with
    | DBegin _ x => [BeginsResource x]
    | DDelete r => [DeletesResource r]
    | DRecord _ r => [RecordsResource r]
    | DComplete _ o => [CompletesCleanup o]
    | DBeginStorage _ => [BeginsTarget]
    | DDeleteStorage t b => [DeletesTarget t b]
    | DCompleteStorage _ o _ => [CompletesTarget o]
    | _ => []
    end;
  answered X e :=
    match e in dcall X return X -> list clean_event with
    | DClaim _ => fun r => match r with Ok (Some w) => [ClaimsCleanup w] | _ => [] end
    | DBegin _ _ => fun e => [BegunResource e]
    | DClaimStorage _ => fun r => match r with Ok (Some w) => [ClaimsStorage w] | _ => [] end
    | DObserve _ => fun r => match r with Some (Ok o) => [SeesTarget o] | _ => [] end
    | DBeginStorage _ => fun e => [BegunTarget e]
    | DDeleteStorage _ _ => fun r => [TargetAnswers r]
    | _ => fun _ => []
    end |}.

(** ** The monitor *)
Definition resource_id (x : ResourceWork) : string := rr_ResourceID (rk_Result x).
(** The state of a resource: recorded in this run, or as claimed. *)
Definition final (recorded : list ResourceResult) (x : ResourceWork) : ResourceState :=
  match find (fun r => rr_ResourceID r ==? resource_id x) recorded with Some r => rr_State r | None => rr_State (rk_Result x) end.
Definition confirmed (recorded : list ResourceResult) (x : ResourceWork) : bool := ResourceState_Confirmed (final recorded x).
Fixpoint earlier_confirmed (recorded : list ResourceResult) (id : string) (l : list ResourceWork) : bool :=
  match l with
  | [] => false
  | y :: l => (resource_id y ==? id) || confirmed recorded y && earlier_confirmed recorded id l
  end.
Definition result_fits (called : list string) (x : ResourceWork) (r : ResourceResult) : bool :=
  (rr_Purpose r ==? rr_Purpose (rk_Result x)) && (rr_Fingerprint r ==? rr_Fingerprint (rk_Result x))
  && open_state (rr_State (rk_Result x)) && negb (open_state (rr_State r))
  && (negb (ResourceState_Confirmed (rr_State r)) || bool_decide (rr_ResourceID r ∈ called))
  && ((rr_State (rk_Result x) <>? ResourceRunning) || ResourceState_Confirmed (rr_State r) || (rr_State r ==? ResourceUnknown)).
Definition outcome_fits (w : CleanupWork) (recorded : list ResourceResult) (o : CleanOutcome) : bool :=
  CleanOutcome_Valid o && forallb (fun x => negb (open_state (final recorded x))) (cw_Resources w)
  && Bool.eqb (oc_Effect o <>? EffectFailed) (forallb (confirmed recorded) (cw_Resources w))
  && ((oc_Effect o ==? EffectFailed) || Bool.eqb (oc_Effect o ==? AlreadyAbsent) (forallb (fun x => final recorded x ==? ResourceAbsent) (cw_Resources w))).
(** For a cleanup: the results recorded, the resource whose deletion is
    announced (and acknowledged), the resources called and the end. For a
    storage target: what was observed, whether the deletion was announced,
    what it answered, and the end. *)
Inductive clean_state :=
  | CleanIdle
  | CleanJob (w : CleanupWork) (recorded : list ResourceResult) (begun : option (ResourceWork * bool)) (called : list string) (ended : bool)
  | CleanTarget (w : StorageWork) (seen : option TargetObservation) (begun : option bool) (answer : option (option (result error DeleteOutcome))) (ended : bool).
Definition target_fits (w : StorageWork) (seen : option TargetObservation) (answer : option (option (result error DeleteOutcome))) (o : DeleteOutcome) : bool :=
  match answer with
  | Some (Some (Ok o')) => o ==? o'
  | Some _ => o ==? DeleteUnknown
  | None => (sk_State w ==? "pending") && ((o ==? DeleteRetained) || (o ==? AbsentConfirmed) && match seen with Some s => negb (to_Present s) | None => false end)
  end.
Definition clean_step (c : clean_state) (e : clean_event) : option clean_state :=
  match e, c with
  | ClaimsCleanup w, CleanIdle => Some (CleanJob w [] None [] false)
  | BeginsResource x, CleanJob w recorded None called false =>
      if bool_decide (x ∈ cw_Resources w) && open_state (rr_State (rk_Result x)) && negb (bool_decide (resource_id x ∈ map rr_ResourceID recorded ++ called))
         && earlier_confirmed recorded (resource_id x) (cw_Resources w)
      then Some (CleanJob w recorded (Some (x, false)) called false) else None
  | BegunResource None, CleanJob w recorded (Some (x, false)) called ended => Some (CleanJob w recorded (Some (x, true)) called ended)
  | BegunResource (Some _), CleanJob w recorded (Some (x, false)) called ended => Some (CleanJob w recorded None called ended)
  | DeletesResource r, CleanJob w recorded (Some (x, true)) called false =>
      if r ==? apply_request x then Some (CleanJob w recorded None (resource_id x :: called) false) else None
  | RecordsResource r, CleanJob w recorded None called false =>
      if negb (bool_decide (rr_ResourceID r ∈ map rr_ResourceID recorded))
         && existsb (fun x => (resource_id x ==? rr_ResourceID r) && result_fits called x r) (cw_Resources w)
      then Some (CleanJob w (r :: recorded) None called false) else None
  | CompletesCleanup o, CleanJob w recorded None called false =>
      if outcome_fits w recorded o then Some (CleanJob w recorded None called true) else None
  | ClaimsStorage w, CleanIdle => Some (CleanTarget w None None None false)
  | SeesTarget o, CleanTarget w _ None None false => Some (CleanTarget w (Some o) None None false)
  | BeginsTarget, CleanTarget w (Some o) None None false =>
      if (sk_State w ==? "pending") && to_Present o && to_Eligible o then Some (CleanTarget w (Some o) (Some false) None false) else None
  | BegunTarget None, CleanTarget w o (Some false) None false => Some (CleanTarget w o (Some true) None false)
  | BegunTarget (Some _), CleanTarget w o (Some false) None false => Some (CleanTarget w o (Some false) None false)
  | DeletesTarget t recoverOnly, CleanTarget w o begun None false =>
      if (t ==? sk_Target w) && (if recoverOnly then (sk_State w ==? "running") && is_nil begun else begun ==? Some true)
      then Some (CleanTarget w o begun (Some None) false) else None
  | TargetAnswers r, CleanTarget w o begun (Some None) false => Some (CleanTarget w o begun (Some r) false)
  | CompletesTarget o, CleanTarget w seen begun answer false =>
      if target_fits w seen answer o then Some (CleanTarget w seen begun answer true) else None
  | _, _ => None
  end.
Definition cleans {R} (t : prog dcall R) c Q := obeys clean_step (fun _ _ (_ : dcall _) _ => True) t c Q.
Lemma cleans_call {X R} (e : dcall X) (k : X -> prog dcall R) c c1 Q :
  feed clean_step c (called e) = Some c1 ->
  (forall x, exists c2, feed clean_step c1 (answered e x) = Some c2 /\ cleans (k x) c2 Q) -> cleans (Call e k) c Q.
Proof. intros H1 H2. exists c1. split; [done|]. intros x _. apply H2. Qed.
Lemma cleans_silent {X R} (e : dcall X) (k : X -> prog dcall R) c Q :
  called (L := clean_event) e = [] -> (forall x, answered (L := clean_event) e x = []) -> (forall x, cleans (k x) c Q) -> cleans (Call e k) c Q.
Proof. intros H1 H2 H. apply (cleans_call _ _ _ c); [by rewrite H1|]. intros x. exists c. by rewrite H2. Qed.
Lemma cleans_bind {A B} (t : prog dcall A) (k : A -> prog dcall B) c Q : cleans t c (fun a c' => cleans (k a) c' Q) -> cleans (prog_bind k t) c Q.
Proof. apply obeys_bind. Qed.
Lemma cleans_mono {R} (t : prog dcall R) c (Q Q' : R -> clean_state -> Prop) : cleans t c Q -> (forall r c', Q r c' -> Q' r c') -> cleans t c Q'.
Proof. apply obeys_mono. Qed.
Lemma cleans_done {R} (r : R) c (Q : R -> clean_state -> Prop) : Q r c -> cleans (Done r) c Q.
Proof. done. Qed.
#[local] Opaque cleans.

(** ** One resource *)
(** What is learnt of a resource: the same resource, no longer open, and a
    valid failure unless its absence is confirmed. *)
Definition learnt (x : ResourceWork) (r : ResourceResult) (failed : CleanOutcome) : Prop :=
  rr_ResourceID r = resource_id x /\ rr_Purpose r = rr_Purpose (rk_Result x) /\ rr_Fingerprint r = rr_Fingerprint (rk_Result x) /\
  open_state (rr_State r) = false /\ (ResourceState_Confirmed (rr_State r) = false -> failed_outcome failed).
Lemma learnt_with x s reason failed :
  open_state s = false -> (ResourceState_Confirmed s = false -> failed_outcome failed) -> learnt x (with_result (rk_Result x) s reason) failed.
Proof. intros H1 H2. by split_and!. Qed.
Lemma own_failed o : own_failure o -> failed_outcome o.
Proof. by intros [H _]. Qed.
#[local] Hint Resolve plain_reason_valid caused_valid own_failed : cleanup.
Ltac learns := apply learnt_with; [done|intros _]; eauto 6 with cleanup.
Lemma settled_learnt x s reason o :
  open_state s = false -> (ResourceState_Confirmed s = false -> failed_outcome o) ->
  exists r failed, settled (with_result (rk_Result x) s reason) o = Ok (r, failed) /\ learnt x r failed.
Proof. intros H1 H2. eexists _, _. split; [done|]. apply learnt_with; [done|]. intros H. by apply plain_reason_valid, H2. Qed.
Definition inspected_ok (x : ResourceWork) (r : inspected) : Prop := match r with Err _ => True | Ok (r, failed) => learnt x r failed end.
Lemma settled_ok x s reason o :
  open_state s = false -> (ResourceState_Confirmed s = false -> failed_outcome o) -> inspected_ok x (settled (with_result (rk_Result x) s reason) o).
Proof. intros H1 H2. destruct (settled_learnt x s reason o H1 H2) as (r & failed & -> & H). done. Qed.
Lemma judge_ok x o err : inspected_ok x (judge_call (rk_Result x) o err).
Proof.
  unfold judge_call. destruct (IsLocalStateError err); [done|]. destruct (_ && _); [by apply settled_ok|]. destruct (_ && _); [by apply settled_ok|].
  assert (own_failure unconfirmed) as Hu by (unfold unconfirmed; own_outcome). cbv zeta.
  set (reason := if not_nil err then _ else _). set (failed := if not_nil err then withFailureReason _ _ _ else _).
  assert (own_failure failed) as Hf by (unfold failed; destruct (not_nil err); auto using caused_own).
  destruct (_ && _); [apply settled_ok; [done|intros _; by apply own_failed]|].
  destruct (errors_Is _ _); [apply settled_ok; [done|intros _; apply own_failed; own_outcome]|].
  assert (forall s reason o, open_state s = false -> own_failure o -> inspected_ok x
    (settled (with_result (rk_Result x) s reason) (withFailureReason o (rr_Reason (with_result (rk_Result x) s reason)) err))) as Hs.
  { intros s reason' o' Hs Ho. apply settled_ok; [done|]. intros _. by apply caused_valid. }
  destruct (problem_code err); apply Hs; try done; own_outcome.
Qed.
(** The inspection writes nothing: it ends with an intent to delete or with
    what it learnt. *)
Lemma inspect_ok w x c :
  cleans (inspectCleanupResource w x) c (fun r c' => c' = c /\
    match r with
    | Err _ => True
    | Ok (r, failed) => learnt x r failed /\ ResourceState_Confirmed (rr_State r) = false \/ r = with_result (rk_Result x) ResourceRunning "delete_intent_recorded"
    end).
Proof.
  assert (forall reason o, failed_outcome o -> match settled (with_result (rk_Result x) ResourceRetained reason) o with Err _ => True | Ok (r, failed) =>
    learnt x r failed /\ ResourceState_Confirmed (rr_State r) = false \/ r = with_result (rk_Result x) ResourceRunning "delete_intent_recorded" end) as Hs.
  { intros reason o Ho. left. split; [apply learnt_with; [done|intros _; by apply plain_reason_valid]|done]. }
  unfold inspectCleanupResource. cbv zeta. unfold perform. cbn [mbind prog_mbind prog_bind]. apply cleans_silent; [done..|].
  intros [described|]; [|apply cleans_done; split; [done|]; apply Hs, own_failed; own_outcome].
  destruct (IsLocalStateError _); [by apply cleans_done|]. destruct described as [d|e].
  2: { apply cleans_done. split; [done|]. apply Hs, caused_valid. own_outcome. }
  destruct (negb _); [apply cleans_done; split; [done|]; apply Hs, caused_valid; own_outcome|].
  destruct (_ <>? _); [apply cleans_done; split; [done|]; apply Hs, own_failed; own_outcome|].
  cbn [prog_bind]. apply cleans_silent; [done..|]. intros [[e|]|]; apply cleans_done; (split; [done|]).
  - destruct (IsLocalStateError _); [done|]. apply Hs, binding_unverified_ok.
  - by right.
  - apply Hs, own_failed. own_outcome.
Qed.
Lemma attempt_ok w adapter prior x recorded sent :
  x ∈ cw_Resources w -> open_state (rr_State (rk_Result x)) = true -> resource_id x ∉ map rr_ResourceID recorded -> resource_id x ∉ sent ->
  (prior = false -> earlier_confirmed recorded (resource_id x) (cw_Resources w) = true) ->
  cleans (attempt_resource w adapter prior x) (CleanJob w recorded None sent false) (fun tried c =>
    match tried with
    | Err _ => True
    | Ok (r, failed) => learnt x r failed /\ exists sent', c = CleanJob w recorded None sent' false /\ sent ⊆ sent' /\ sent' ⊆ resource_id x :: sent /\
        (ResourceState_Confirmed (rr_State r) = true -> resource_id x ∈ sent')
    end).
Proof.
  intros Hx Ho Hr Hc Hprior. set (c0 := CleanJob w recorded None sent false).
  assert (forall r failed, learnt x r failed -> ResourceState_Confirmed (rr_State r) = false -> learnt x r failed /\ exists sent', c0 = CleanJob w recorded None sent' false /\
    sent ⊆ sent' /\ sent' ⊆ resource_id x :: sent /\ (ResourceState_Confirmed (rr_State r) = true -> resource_id x ∈ sent')) as Hstay.
  { intros r failed Hl Hf. split; [done|]. exists sent. split_and!; [done..|set_solver|]. by rewrite Hf. }
  unfold attempt_resource. cbv zeta. destruct prior.
  { apply cleans_done, Hstay; [|done]. apply learnt_with; [done|]. intros _. apply own_failed. own_outcome. }
  specialize (Hprior eq_refl). unfold perform. cbn [mbind prog_mbind prog_bind]. apply cleans_silent; [done..|]. intros deadline.
  destruct (not_nil deadline).
  { apply cleans_done, Hstay; [|done]. apply learnt_with; [done|]. intros _. apply own_failed. own_outcome. }
  destruct adapter as [[]|e]; [|apply cleans_done, Hstay; [|done]; apply learnt_with; [done|]; intros _; apply own_failed; own_outcome..].
  apply cleans_bind. eapply cleans_mono; [apply inspect_ok|]. intros [[r failed]|e] ? [-> H]; [|by apply cleans_done].
  destruct H as [[Hl Hf]| ->].
  { destruct (_ <>? _) eqn:E; [by apply cleans_done, Hstay|]. apply negb_false_iff, bool_decide_eq_true in E. destruct Hl as (_ & _ & _ & Hop & _). by rewrite E in Hop. }
  cbn [rr_State with_result]. rewrite bool_decide_eq_true_2 by done. cbn [negb].
  eapply cleans_call.
  { cbn [called dcall_events feed clean_step c0]. rewrite bool_decide_eq_true_2, Ho, bool_decide_eq_false_2, Hprior; [done| |done].
    rewrite elem_of_app. tauto. }
  intros [e|]; (eexists; split; [done|]).
  - apply cleans_silent; [done..|]. intros owned. destruct (not_nil owned); [by apply cleans_done|]. destruct (is_one_of _ _); [|by apply cleans_done].
    apply cleans_done, Hstay; [|done]. apply learnt_with; [done|]. intros _. apply own_failed. own_outcome.
  - unfold callCleanupResource, perform. cbn [mbind prog_mbind prog_bind]. eapply cleans_call.
    { cbn [called dcall_events feed clean_step]. by rewrite bool_decide_eq_true_2. }
    intros answer. eexists. split; [done|]. apply cleans_done.
    assert (inspected_ok x match answer with None => settled (with_result (rk_Result x) ResourceUnknown "cleanup_delete_panic") unconfirmed | Some (o, err) => judge_call (rk_Result x) o err end) as Hj.
    { destruct answer as [[o err]|]; [apply judge_ok|]. apply settled_ok; [done|]. intros _. apply own_failed. unfold unconfirmed. own_outcome. }
    revert Hj. destruct (match answer with Some _ => _ | None => _ end) as [[r failed']|e]; [|done]. intros Hj. split; [exact Hj|].
    exists (resource_id x :: sent). split_and!; [done|set_solver|set_solver|]. intros _. by left.
Qed.
(** A running intent that was recovered keeps what is confirmed and is
    unknown otherwise. *)
Lemma recovered_ok x r failed :
  learnt x r failed ->
  let '(r', failed') := recovered_result x r failed in
  learnt x r' failed' /\ ResourceState_Confirmed (rr_State r') = ResourceState_Confirmed (rr_State r) /\
  (rr_State (rk_Result x) = ResourceRunning -> ResourceState_Confirmed (rr_State r') = true \/ rr_State r' = ResourceUnknown).
Proof.
  intros Hl. unfold recovered_result. destruct (_ && _) eqn:E.
  - apply andb_true_iff in E as [_ E%negb_true_iff]. split_and!; [|by rewrite E|by right]. destruct Hl as (H1 & H2 & H3 & _).
    split_and!; [done..|]. intros _. apply own_failed. own_outcome.
  - split_and!; [done..|]. intros Hr. rewrite bool_decide_eq_true_2 in E by done. cbn in E. apply negb_false_iff in E. by left.
Qed.

(** ** All resources *)
Lemma resources_distinct_ok id seen l : resources_ok id seen l = true -> NoDup (map resource_id l) /\ Forall (fun x => resource_id x ∉ seen) l.
Proof.
  revert seen. induction l as [|x l IH]; intros seen; cbn [resources_ok]; [by split; constructor|]. cbv zeta. destruct (_ || _) eqn:E; [done|].
  rewrite !orb_false_iff in E. destruct E as [_ E%bool_decide_eq_false]. intros H. apply IH in H as [H1 H2]. fold (resource_id x) in *. split.
  - cbn [map]. constructor; [|done]. intros (y & Hy & Hin)%list_elem_of_fmap. rewrite Forall_forall in H2. specialize (H2 y Hin). set_solver.
  - constructor; [done|]. eapply Forall_impl; [exact H2|]. cbn. set_solver.
Qed.
Lemma final_other recorded r x : rr_ResourceID r <> resource_id x -> final (r :: recorded) x = final recorded x.
Proof. intros H. unfold final. cbn [find]. by rewrite bool_decide_eq_false_2. Qed.
Lemma final_self recorded r x : rr_ResourceID r = resource_id x -> final (r :: recorded) x = rr_State r.
Proof. intros H. unfold final. cbn [find]. by rewrite bool_decide_eq_true_2. Qed.
Lemma final_claimed recorded x : resource_id x ∉ map rr_ResourceID recorded -> final recorded x = rr_State (rk_Result x).
Proof.
  intros H. unfold final. destruct (find _ _) as [r|] eqn:E; [|done]. apply find_some in E as [Hin Hb%bool_decide_eq_true]. exfalso. apply H.
  rewrite <- Hb. apply list_elem_of_fmap_2. by apply list_elem_of_In.
Qed.
Lemma final_extend recorded r l : rr_ResourceID r ∉ map resource_id l -> Forall (fun x => final (r :: recorded) x = final recorded x) l.
Proof. intros H. apply Forall_forall. intros x Hx. apply final_other. intros E. apply H. rewrite E. by apply list_elem_of_fmap_2. Qed.
Lemma earlier_spec recorded pre x post :
  resource_id x ∉ map resource_id pre -> earlier_confirmed recorded (resource_id x) (pre ++ x :: post) = forallb (confirmed recorded) pre.
Proof.
  induction pre as [|y pre IH]; intros Hn; cbn [app earlier_confirmed forallb]; [by rewrite bool_decide_eq_true_2|].
  cbn [map] in Hn. apply not_elem_of_cons in Hn as [Hy Hn]. rewrite bool_decide_eq_false_2 by done. cbn [orb]. by rewrite IH.
Qed.
(** The loop after the resources [pre]. *)
Record looped (recorded : list ResourceResult) (sent : list string) (st : loop_state) (pre : list ResourceWork) : Prop := mkLooped {
  lo_closed : forallb (fun x => negb (open_state (final recorded x))) pre = true;
  lo_unresolved : lp_unresolved st = negb (forallb (confirmed recorded) pre);
  lo_absent : lp_allAbsent st = forallb (fun x => final recorded x ==? ResourceAbsent) pre;
  lo_failure : match lp_failure st with Some o => failed_outcome o /\ lp_unresolved st = true | None => lp_unresolved st = false end;
  lo_recorded : map rr_ResourceID recorded ⊆ map resource_id pre;
  lo_called : sent ⊆ map resource_id pre }.
Lemma after_failure st r failed :
  (ResourceState_Confirmed (rr_State r) = false -> match failed with Some o => failed_outcome o | None => True end) ->
  match lp_failure st with Some o => failed_outcome o /\ lp_unresolved st = true | None => lp_unresolved st = false end ->
  match lp_failure (after_resource st r failed) with
  | Some o => failed_outcome o /\ lp_unresolved (after_resource st r failed) = true
  | None => lp_unresolved (after_resource st r failed) = false
  end.
Proof.
  intros Hf Hst. unfold after_resource. cbv zeta. cbn [lp_failure lp_unresolved]. destruct (ResourceState_Confirmed (rr_State r)); cbn [negb andb].
  - destruct (lp_failure st); rewrite ?orb_false_r; done.
  - rewrite orb_true_r. specialize (Hf eq_refl). destruct (lp_failure st) as [o|]; cbn [is_nil andb]; [by destruct Hst|].
    destruct failed as [o|]; cbn [is_nil]; [done|]. split; [|done]. apply plain_reason_valid, own_failed. own_outcome.
Qed.
Lemma forallb_same {A} (f g : A -> bool) l : Forall (fun x => f x = g x) l -> forallb f l = forallb g l.
Proof. induction 1 as [|x l Hx _ IH]; cbn [forallb]; [done|]. by rewrite Hx, IH. Qed.
Lemma looped_snoc recorded sent st pre x r failed recorded' sent' :
  looped recorded sent st pre -> Forall (fun y => final recorded' y = final recorded y) pre -> final recorded' x = rr_State r ->
  open_state (rr_State r) = false -> (ResourceState_Confirmed (rr_State r) = false -> match failed with Some o => failed_outcome o | None => True end) ->
  map rr_ResourceID recorded' ⊆ resource_id x :: map rr_ResourceID recorded -> sent' ⊆ resource_id x :: sent ->
  looped recorded' sent' (after_resource st r failed) (pre ++ [x]).
Proof.
  intros [H1 H2 H3 H4 H5 H6] Hsame Hx Ho Hf Hr Hs. split.
  - rewrite forallb_app. cbn [forallb]. rewrite Hx, Ho, (forallb_same _ (fun x => negb (open_state (final recorded x)))); [by rewrite H1|].
    eapply Forall_impl; [exact Hsame|]. by intros y ->.
  - rewrite forallb_app. cbn [forallb]. rewrite (forallb_same _ (confirmed recorded)); [|eapply Forall_impl; [exact Hsame|]; unfold confirmed; by intros y ->].
    unfold confirmed at 2. rewrite Hx, andb_true_r. unfold after_resource. cbv zeta. cbn [lp_unresolved]. rewrite H2. by rewrite negb_andb.
  - rewrite forallb_app. cbn [forallb]. rewrite (forallb_same _ (fun x => final recorded x ==? ResourceAbsent)); [|eapply Forall_impl; [exact Hsame|]; by intros y ->].
    rewrite Hx, andb_true_r. unfold after_resource. cbv zeta. cbn [lp_allAbsent]. by rewrite H3.
  - by apply after_failure.
  - rewrite map_app. cbn [map]. set_solver.
  - rewrite map_app. cbn [map]. set_solver.
Qed.
Lemma apply_each_ok w adapter : NoDup (map resource_id (cw_Resources w)) ->
  forall post pre st recorded sent, cw_Resources w = pre ++ post -> looped recorded sent st pre ->
  cleans (apply_each w adapter st post) (CleanJob w recorded None sent false) (fun r c =>
    match r with
    | Err _ => True
    | Ok st' => exists recorded' sent', c = CleanJob w recorded' None sent' false /\ looped recorded' sent' st' (cw_Resources w)
    end).
Proof.
  intros Hnd. induction post as [|x post IH]; intros pre st recorded sent Hw Hl; cbn [apply_each].
  { apply cleans_done. exists recorded, sent. rewrite app_nil_r in Hw. by rewrite Hw. }
  cbv zeta. destruct (_ || _); [by apply cleans_done|].
  assert (resource_id x ∉ map resource_id pre) as Hx.
  { rewrite Hw, map_app in Hnd. cbn [map] in Hnd. apply NoDup_app in Hnd as (_ & Hd & _). intros H. apply (Hd _ H). by left. }
  assert (resource_id x ∉ map rr_ResourceID recorded) as Hxr by (pose proof (lo_recorded _ _ _ _ Hl); set_solver).
  assert (resource_id x ∉ sent) as Hxs by (pose proof (lo_called _ _ _ _ Hl); set_solver).
  assert (x ∈ cw_Resources w) as Hin by (rewrite Hw; apply elem_of_app; right; by left).
  assert (cw_Resources w = (pre ++ [x]) ++ post) as Hw' by (by rewrite <- app_assoc).
  destruct (open_state (rr_State (rk_Result x))) eqn:Ho.
  - apply cleans_bind. eapply cleans_mono; [apply attempt_ok; try done|].
    { intros Hu. rewrite Hw, earlier_spec by done. pose proof (lo_unresolved _ _ _ _ Hl) as H. rewrite Hu in H. by apply (f_equal negb) in H; rewrite negb_involutive in H. }
    intros [[r0 failed0]|e] c H; [|by apply cleans_done]. destruct H as (Hlr & sent' & -> & Hs1 & Hs2 & Hconf).
    unfold perform. cbn [mbind prog_mbind prog_bind]. apply cleans_silent; [done..|]. intros [e|]; [by apply cleans_done|].
    pose proof (recovered_ok x r0 failed0 Hlr) as Hrec. destruct (recovered_result x r0 failed0) as [r failed]. destruct Hrec as (Hr & Hcc & Hrun).
    destruct Hr as (R1 & R2 & R3 & R4 & R5).
    cbn [prog_bind]. eapply cleans_call.
    { cbn [called dcall_events feed clean_step]. rewrite R1, bool_decide_eq_false_2 by done. cbn [negb andb].
      replace (existsb _ _) with true; [done|]. symmetry. apply existsb_exists. exists x. split; [by apply list_elem_of_In|].
      unfold result_fits. rewrite R1, R2, R3, Ho, R4, !bool_decide_eq_true_2 by done. cbn [negb andb]. apply andb_true_iff. split.
      - destruct (ResourceState_Confirmed (rr_State r)) eqn:E; [|done]. cbn. apply bool_decide_eq_true_2, Hconf. by rewrite <- Hcc.
      - case_bool_decide as Er; [|done]. cbn [negb orb]. destruct (Hrun Er) as [->| ->]; [done|]. by rewrite bool_decide_eq_true_2, orb_true_r. }
    intros [e|]; (eexists; split; [done|]); [by apply cleans_done|]. apply (IH (pre ++ [x])); [done|]. eapply looped_snoc; [done| |by apply final_self|done| | |].
    + apply final_extend. by rewrite R1.
    + intros Hf. by apply plain_reason_valid, R5.
    + cbn [map]. rewrite R1. set_solver.
    + done.
  - apply (IH (pre ++ [x])); [done|]. eapply looped_snoc; [done| |by apply final_claimed|done|done|set_solver|set_solver]. by apply Forall_forall.
Qed.
Lemma apply_resources_ok w :
  NoDup (map resource_id (cw_Resources w)) ->
  cleans (applyResources w) (CleanJob w [] None [] false) (fun r c =>
    match r with Err _ => True | Ok o => exists recorded sent, c = CleanJob w recorded None sent false /\ outcome_fits w recorded o = true end).
Proof.
  intros Hnd. unfold applyResources. cbv zeta. destruct (_ || _); [by apply cleans_done|]. apply cleans_bind.
  eapply (cleans_mono _ _ (fun _ c => c = CleanJob w [] None [] false)).
  { destruct (existsb _ _); [|by apply cleans_done]. unfold resolve_adapter, perform. cbn [mbind prog_mbind prog_bind]. apply cleans_silent; [done..|]. intros x. by apply cleans_done. }
  intros adapter ? ->. destruct (IsLocalStateError _); [by apply cleans_done|]. apply cleans_bind.
  eapply cleans_mono; [apply (apply_each_ok w adapter Hnd (cw_Resources w) []); [done|]|].
  { split; try done; set_solver. }
  intros [st|e] c H; [|by apply cleans_done]. destruct H as (recorded & sent & -> & [H1 H2 H3 H4 _ _]). apply cleans_done. exists recorded, sent. split; [done|].
  unfold outcome_fits. rewrite H1. destruct (lp_failure st) as [o|].
  - destruct H4 as [[He Hv] Hu]. rewrite He, Hv. cbn [andb]. rewrite bool_decide_eq_true_2 by done. cbn [negb andb orb].
    rewrite Hu in H2. apply (f_equal negb) in H2. rewrite negb_involutive in H2. cbn in H2. by rewrite <- H2.
  - rewrite H4 in H2. apply (f_equal negb) in H2. rewrite negb_involutive in H2. cbn in H2. rewrite <- H2, <- H3. by destruct (lp_allAbsent st).
Qed.
Definition clean_ended (c : clean_state) : Prop :=
  match c with CleanIdle => False | CleanJob _ _ _ _ ended => ended = true | CleanTarget _ _ _ _ ended => ended = true end.
(** The end of a run: nothing is reported as done that was not recorded. *)
Definition done_or_error (e : option error) (c : clean_state) : Prop := e = None -> clean_ended c.
Lemma pass_ok w : CleanupWork_Valid w = true -> cleans (cleanup_pass w) (CleanJob w [] None [] false) done_or_error.
Proof.
  intros Hv. unfold cleanup_pass. apply cleans_bind.
  eapply (cleans_mono _ _ (fun r c => match r with Err _ => True | Ok o => exists recorded sent, c = CleanJob w recorded None sent false /\ outcome_fits w recorded o = true end)).
  { destruct (cw_Resources w) as [|x l] eqn:E.
    - apply cleans_done. exists [], []. split; [done|]. unfold outcome_fits. by rewrite E.
    - apply apply_resources_ok. unfold CleanupWork_Valid in Hv. cbv zeta in Hv. destruct (_ <? _); [done|]. destruct (resources_ok _ _ _) eqn:Hr; [|done].
      by apply resources_distinct_ok in Hr as [Hr _]. }
  intros [o|e] c H; [|by apply cleans_done]. destruct H as (recorded & sent & -> & Ho). unfold perform. cbn [mbind prog_mbind prog_bind].
  apply cleans_silent; [done..|]. intros [e|]; [by apply cleans_done|]. cbn [prog_bind]. apply cleans_silent; [done..|]. intros [e|]; [by apply cleans_done|].
  eapply cleans_call; [cbn [called dcall_events feed clean_step]; by rewrite Ho|]. intros e. eexists. split; [done|]. by apply cleans_done.
Qed.

(** ** One storage target *)
Lemma complete_ok w seen begun answer o reason :
  target_fits w seen answer o = true -> cleans (perform (DCompleteStorage w o reason)) (CleanTarget w seen begun answer false) done_or_error.
Proof.
  intros H. eapply cleans_call; [cbn [called dcall_events feed clean_step]; by rewrite H|]. intros e. eexists. split; [done|]. by apply cleans_done.
Qed.
Lemma unusable_ok w err reason : StorageWork_Valid w = true -> cleans (binding_unusable w err reason) (CleanTarget w None None None false) done_or_error.
Proof.
  intros Hv. unfold binding_unusable. destruct (IsLocalStateError err) eqn:E; [apply cleans_done; intros ->; done|]. case_bool_decide as Hs.
  - unfold perform. cbn [mbind prog_mbind prog_bind]. apply cleans_silent; [done..|]. intros [e|]; by apply cleans_done.
  - unfold perform at 1. cbn [mbind prog_mbind prog_bind]. apply cleans_silent; [done..|]. intros [e|]; [by apply cleans_done|]. apply complete_ok.
    cbn. unfold StorageWork_Valid in Hv. rewrite !andb_true_iff in Hv. destruct Hv as [_ Hv]. rewrite (bool_decide_eq_false_2 (sk_State w = "running")), orb_false_r in Hv by done.
    by rewrite Hv.
Qed.
Lemma finish_ok w seen begun answer r reason :
  (forall o, r = Ok o -> target_fits w seen answer o = true) -> (forall e, r = Err e -> target_fits w seen answer DeleteUnknown = true) ->
  cleans (finish_storage w r reason) (CleanTarget w seen begun answer false) done_or_error.
Proof.
  intros HO HE. unfold finish_storage. cbv zeta.
  assert (forall o reason, target_fits w seen answer o = true -> cleans (prog_bind (fun owned => match owned with Some e => mret (Some e) | None =>
    prog_bind (fun e => match e with Some e => mret (Some e) | None => perform (DCompleteStorage w o (storageCompletionReason o reason)) end) (perform DStop) end) (perform (DCtx OwnedCtx)))
    (CleanTarget w seen begun answer false) done_or_error) as Hc.
  { intros o reason' Ho. unfold perform at 1 2. cbn [prog_bind]. apply cleans_silent; [done..|]. intros [e|]; [by apply cleans_done|]. cbn [prog_bind].
    apply cleans_silent; [done..|]. intros [e|]; [by apply cleans_done|]. by apply complete_ok. }
  destruct r as [o|e]; [by apply Hc, HO|]. unfold perform at 1. cbn [mbind prog_mbind prog_bind]. apply cleans_silent; [done..|]. intros [x|]; [by apply cleans_done|].
  destruct (_ || _); [by apply cleans_done|]. by apply Hc, (HE e).
Qed.
Lemma call_storage_ok w seen begun (recoverOnly : bool) (k : result error DeleteOutcome -> prog dcall (option error)) :
  (if recoverOnly then (sk_State w ==? "running") && is_nil begun else begun ==? Some true) = true ->
  (forall answer r, (forall o, r = Ok o -> target_fits w seen (Some answer) o = true) -> (forall e, r = Err e -> target_fits w seen (Some answer) DeleteUnknown = true) ->
    cleans (k r) (CleanTarget w seen begun (Some answer) false) done_or_error) ->
  cleans (prog_bind k (callStorageDeletion (sk_Target w) recoverOnly)) (CleanTarget w seen begun None false) done_or_error.
Proof.
  intros H Hk. unfold callStorageDeletion, perform. cbn [mbind prog_mbind prog_bind]. eapply cleans_call.
  { cbn [called dcall_events feed clean_step]. rewrite H, bool_decide_eq_true_2 by done. done. }
  intros answer. eexists. split; [done|]. apply Hk.
  - destruct answer as [[o'|e]|]; try done. intros o [= ->]. cbn. by apply bool_decide_eq_true_2.
  - destruct answer as [[o'|e]|]; done.
Qed.
Lemma storage_ok w : StorageWork_Valid w = true -> cleans (storage_pass w) (CleanTarget w None None None false) done_or_error.
Proof.
  intros Hv. unfold storage_pass. apply cleans_bind. unfold resolve_adapter, perform. cbn [mbind prog_mbind prog_bind]. apply cleans_silent; [done..|].
  intros [[[]|e]|]; apply cleans_done; [|by apply unusable_ok..]. unfold verify_adapter, perform. cbn [mbind prog_mbind prog_bind]. apply cleans_silent; [done..|].
  intros [[e|]|]; [by apply unusable_ok| |by apply unusable_ok].
  cbn [prog_bind]. apply cleans_silent; [done..|]. intros able. destruct (negb able); [by apply cleans_done|]. case_bool_decide as Hs.
  - apply call_storage_ok; [by rewrite bool_decide_eq_true_2|]. intros answer r' HO HE. by apply finish_ok.
  - assert (sk_State w = "pending") as Hp.
    { unfold StorageWork_Valid in Hv. rewrite !andb_true_iff in Hv. destruct Hv as [_ Hv]. rewrite orb_true_iff in Hv. by destruct Hv as [Hv|Hv]; apply bool_decide_eq_true in Hv. }
    assert (forall seen begun, target_fits w seen None DeleteRetained = true /\ begun = begun :> option bool) as Hret by (intros; cbn; by rewrite bool_decide_eq_true_2).
    apply cleans_bind. unfold delete_pending, observe_target, perform. cbv zeta. cbn [mbind prog_mbind prog_bind].
    apply (cleans_call _ _ _ (CleanTarget w None None None false)); [done|]. intros [[o|e]|].
    + eexists. split; [done|]. cbn [mbind prog_mbind prog_bind mret prog_ret]. destruct (to_Present o) eqn:Ep; cbn [negb].
      2: { apply cleans_done, finish_ok; [|done]. intros ? [= <-]. cbn. by rewrite bool_decide_eq_true_2, Ep. }
      destruct (to_Eligible o) eqn:Ee; cbn [negb].
      2: { apply cleans_done, finish_ok; [|done]. intros ? [= <-]. apply (Hret (Some o) None). }
      cbn [prog_bind]. eapply cleans_call; [cbn [called dcall_events feed clean_step]; rewrite Ep, Ee, bool_decide_eq_true_2 by done; done|].
      intros [e|]; (eexists; split; [done|]).
      * destruct (errors_Is _ _); [|by apply cleans_done, cleans_done]. apply cleans_done, finish_ok; [|done]. intros ? [= <-]. apply (Hret (Some o) None).
      * unfold callStorageDeletion, perform. cbn [mbind prog_mbind prog_bind]. eapply cleans_call; [cbn [called dcall_events feed clean_step]; rewrite !bool_decide_eq_true_2 by done; done|]. intros answer. eexists. split; [done|].
        apply cleans_done, finish_ok; destruct answer as [[o'|e]|]; try done. intros ? [= <-]. cbn. by apply bool_decide_eq_true_2.
    + eexists. split; [done|]. cbn [mbind prog_mbind prog_bind mret prog_ret]. destruct (IsLocalStateError _); [by apply cleans_done, cleans_done|]. apply cleans_done, finish_ok; [|done]. intros ? [= <-]. apply (Hret None None).
    + eexists. split; [done|]. cbn [mbind prog_mbind prog_bind mret prog_ret]. destruct (IsLocalStateError _); [by apply cleans_done, cleans_done|]. apply cleans_done, finish_ok; [|done]. intros ? [= <-]. apply (Hret None None).
Qed.

(** ** One run *)
Lemma ended_ok {c : clean_state} (m : prog dcall (option error)) :
  cleans m c done_or_error ->
  cleans (prog_bind (fun e => prog_bind (fun renewal => Done (true, HeartbeatError e renewal)) (perform DStop)) m) c
    (fun r c' => r = (true, None) -> clean_ended c').
Proof.
  intros H. apply cleans_bind. eapply cleans_mono; [exact H|]. intros e c' He. unfold perform. cbn [prog_bind]. apply cleans_silent; [done..|].
  intros [renewal|]; apply cleans_done; intros [= Hr]; [|by apply He]. cbn in Hr. by destruct (withoutCancellation e).
Qed.
Lemma cleanup_run_ok schedules storage : cleans (RunCleanup schedules storage) CleanIdle (fun r c => r = (true, None) -> clean_ended c).
Proof.
  unfold RunCleanup, perform. cbn [mbind prog_mbind prog_bind]. apply cleans_silent; [done..|]. intros [e|]; [by apply cleans_done|].
  apply cleans_bind. eapply (cleans_mono _ _ (fun _ c => c = CleanIdle)).
  { destruct schedules; [apply cleans_silent; [done..|]; intros x|]; by apply cleans_done. }
  intros [e|] ? ->; [by apply cleans_done|]. apply (cleans_call _ _ _ CleanIdle); [done|]. intros [[w|]|e].
  - eexists. split; [done|]. destruct (CleanupWork_Valid w) eqn:Hv; cbn [negb]; [|by apply cleans_done]. apply cleans_silent; [done..|]. intros _.
    by apply ended_ok, pass_ok.
  - eexists. split; [done|]. destruct storage; [|by apply cleans_done]. unfold runStorageOnce, perform. cbn [mbind prog_mbind prog_bind].
    apply (cleans_call _ _ _ CleanIdle); [done|]. intros [[w|]|e]; eexists; (split; [done|]); try by apply cleans_done.
    destruct (StorageWork_Valid w) eqn:Hv; cbn [negb]; [|by apply cleans_done]. apply cleans_silent; [done..|]. intros _. by apply ended_ok, storage_ok.
  - eexists. split; [done|]. by apply cleans_done.
Qed.

(** C11: One run of the cleanup engine, cut short anywhere and
    whatever the repositories, providers and contexts answer. A provider is
    asked to delete a resource only after the repository acknowledged the
    intent for that very resource, once, with the recorded request, for
    observation only when an earlier intent was interrupted, and only when
    every earlier resource of the attempt is confirmed gone. A result says
    deleted or absent only after such a call; an interrupted intent is never
    recorded as kept; the operation succeeds exactly when every resource is
    confirmed gone, and every outcome it records is valid. A storage target is
    deleted only after it was seen present and eligible and the intent was
    acknowledged, an interrupted one is only observed, and what is recorded is
    what the provider answered, or unknown. A run without an error has
    recorded the outcome of what it claimed. *)
Theorem cleanup_safe schedules storage l r :
  runs (RunCleanup schedules storage) l r ->
  exists c, feed clean_step CleanIdle l = Some c /\ (r = Some (true, None) -> clean_ended c).
Proof.
  intros Hr. destruct (obeys_runs clean_step (fun _ _ (_ : dcall _) _ => True) (RunCleanup schedules storage) CleanIdle _ l r (cleanup_run_ok schedules storage)) as (c & Hc & HQ).
  - eapply runs_fair; [done|exact (cleanup_run_ok schedules storage)|done].
  - exists c. split; [done|]. intros ->. by apply (HQ (true, None)).
Qed.

(** ** Played *)
Definition clean_remote : RemoteReference := mkRemoteReference
  (mkIdentity "runtime" "workspace" "job" "attempt" "fake" "intent" "resource" "nnnnnnnnnnnnnnnnnnnnnnnnnnnnnnnn" (Digest "code") (Digest "inputs")) "resource" "one".
Definition clean_request : CleanupResourceRequest :=
  mkCleanupResourceRequest clean_remote "ledger" "creation" true CleanupApply "execution" "intent" (Digest "plan") false.
Definition clean_item : ResourceWork :=
  let x := mkCleanResource clean_request "" in mkResourceWork x (mkResourceResult "ledger" "execution" (Resource_Fingerprint x) ResourcePending "pending").
Definition clean_operation : Operation :=
  mkOperation "operation" "workspace" "job" "attempt" OperationCleanup OperationRunning 1 None (1700000000 * Second) (1700000000 * Second).
Definition clean_work : CleanupWork :=
  mkCleanupWork (mkCleanupLease "workspace" "operation" 1 (Digest "fence") (1700003600 * Second))
    (mkOperationRecord clean_operation EffectPending "" false false [])
    (mkBindingSnapshot (mkProviderBinding "fixture" "fake" "one") "account" "") (mkCleanupRequest clean_remote "ledger" "creation" true CleanupApply) [clean_item].
Definition clean_environment (c : clean_state) (X : Type) (e : dcall X) : option X :=
  match e in dcall X return option X with
  | DAcquire | DSchedule _ | DStop | DCtx _ | DBegin _ _ | DRecord _ _ | DComplete _ _ => Some None
  | DClaim _ => Some (Ok (Some clean_work))
  | DHeartbeat _ => Some tt
  | DResolve _ => Some (Some (Ok true))
  | DDescribe _ => Some (Some (Ok (mkCleanupDescription "container" "id" "name" "v1" "attempt" CapabilitySupportSupported "exact_target" None)))
  | DVerify _ => Some (Some None)
  | DDelete _ => Some (Some (mkCleanupOutcome false true false, None))
  | _ => None
  end.
Definition clean_played := play clean_step clean_environment (RunCleanup true false) CleanIdle.
Lemma clean_played_runs : runs (RunCleanup true false) clean_played.1 clean_played.2.
Proof.
  unfold clean_played. generalize (RunCleanup true false). intros t.
  apply (fair_runs_runs clean_step (fun _ _ (_ : dcall _) _ => True) t CleanIdle), play_fair. done.
Qed.
Lemma clean_played_ok : clean_played.2 = Some (true, None).
Proof. vm_cast_no_check (eq_refl (Some (true, @None error))). Qed.
Lemma cleanup_safe_witness : exists c, feed clean_step CleanIdle clean_played.1 = Some c /\ clean_ended c.
Proof.
  destruct (cleanup_safe true false _ _ clean_played_runs) as (c & Hc & HQ). exists c. split; [exact Hc|]. exact (HQ clean_played_ok).
Defined.
