(* ===== verification/ServiceProps.v ===== *)
(** * Every service acts only for an authorized caller

    The requests of the application services as one interface, and the proof
    that each of them touches a repository, stored bytes or a provider only in
    the workspace it names and only while the repositories' latest answers
    grant the caller the one scope the request needs. *)

From S2P Require Import Prelude Effects GoStrings GoTime GoSha256 GoJson JsonRead Canonical JsonWire Identifiers Problems AttemptStates Attempts Operations DomainRecords Provider ProviderResources Admission Auth AuthProps ControlOps Transfer Workers Journal RunnerPlan Collection CollectionEngine Retention HostHealth HostStorage Cleanup ExecutionAuth SecretPool Services.
#[local] Open Scope string_scope.
#[local] Open Scope list_scope.
#[local] Open Scope Z_scope.
#[local] Open Scope bool_scope.

(** ** What the calls of a service show *)
Definition reads (w : string) (token : option string) (sc : Scope) : option reach := Some (mkReach false (Some w) token (Some sc)).
Definition changes (w : string) (token : option string) (sc : Scope) : option reach := Some (mkReach true (Some w) token (Some sc)).
(** A call that names nothing of the caller: an open object, an adapter. *)
Definition inspects : option reach := Some (mkReach false None None None).
Definition svc_reach {X} (e : svc X) : option reach :=
  match e with
  | OpenObject w _ => reads w None ScopeOperate
  | ReadObject _ | CloseObject | ResolveAdapter _ | AdapterInstance | VerifyAdapter _ => inspects
  | PutBlob d => changes (om_WorkspaceID d) None ScopeWrite
  | CommitObject m => changes (om_WorkspaceID m) None ScopeWrite
  | GetObject w _ => reads w None ScopeRead
  | ReplayOperation w token _ _ _ => reads w (Some token) ScopeOperate
  | ReadRetryInputs w token _ _ => reads w (Some token) ScopeOperate
  | AdmitOperation c => changes (cc_WorkspaceID c) (Some (cc_TokenID c)) ScopeOperate
  | ReadOperation w token _ => reads w (Some token) ScopeRead
  | PreflightAdmission w token _ _ => reads w (Some token) ScopeWrite
  | AdmitJob w token _ _ _ => changes w (Some token) ScopeWrite
  | ValidateAdmission w token _ => reads w (Some token) ScopeRead
  | ReadJob w token _ => reads w (Some token) ScopeRead
  | AuthorizeExecution c => changes (ad_WorkspaceID c) (Some (ad_TokenID c)) ScopeExecute
  | ReadExecutionAuthorization w token _ _ => reads w (Some token) ScopeExecute
  | PrepareExecution c _ => changes (gc_WorkspaceID c) (Some (gc_TokenID c)) ScopeExecute
  | StartExecution c _ => changes (gc_WorkspaceID c) (Some (gc_TokenID c)) ScopeExecute
  | ReadGateAuthorization w token _ _ => reads w (Some token) ScopeExecute
  | ReadReadiness w token _ => reads w (Some token) ScopeRead
  | MaterialAvailable k _ _ => Some (mkReach false (Some (ky_WorkspaceID k)) None None)
  | SupplyWorkloadSecrets c _ _ => changes (sd_WorkspaceID c) (Some (sd_TokenID c)) ScopeExecute
  | RevokeWorkloadSecrets c _ _ => changes (sd_WorkspaceID c) (Some (sd_TokenID c)) ScopeExecute
  | ReadWorkloadSecrets w token _ _ => reads w (Some token) ScopeExecute
  | ReadLogAttempt w token _ _ => reads w (Some token) ScopeRead
  | ReadLogs r _ => reads (id_WorkspaceID (rr_Identity r)) None ScopeRead
  | SvcCtxErr | SvcNow | SvcToken _ | SvcWorkspace _ | SvcRandom _ => None
  end.
Definition svc_long {X} (e : svc X) : bool :=
  match e with PutBlob _ | ReadObject _ | VerifyAdapter _ | ReadLogs _ _ => true | _ => false end.
#[export] Instance svc_reaches : Reaches svc := {|
  reach_of X e := svc_reach e;
  long_call X e := svc_long e;
  lookup_seen X e := match e in svc X return X -> list access_event with
    | SvcToken d => fun r => [TokenSeen d r]
    | SvcWorkspace id => fun r => [WorkspaceSeen id r]
    | _ => fun _ => []
    end |}.
#[export] Instance svc_access_observed : AccessObserved svc.
Proof. by split. Qed.

(** Reading collected results. *)
#[export] Instance readcall_reaches : Reaches readcall := {|
  reach_of X e := match e with
    | ReadCollection w token _ _ => reads w (Some token) ScopeRead
    | OpenResult w _ => reads w None ScopeRead
    | _ => None
    end;
  long_call X e := false;
  lookup_seen X e := match e in readcall X return X -> list access_event with
    | RdToken d => fun r => [TokenSeen d r]
    | RdWorkspace id => fun r => [WorkspaceSeen id r]
    | _ => fun _ => []
    end |}.
#[export] Instance readcall_access_observed : AccessObserved readcall.
Proof. by split. Qed.

(** Releasing inputs and results. The sweep, which belongs to no caller, also
    lists and expires. *)
#[export] Instance rcall_reaches : Reaches rcall := {|
  reach_of X e := match e with
    | StoreIdentity _ => inspects
    | BindRetentionStores _ _ => Some (mkReach true None None None)
    | DeleteBlob _ m => changes (om_WorkspaceID m) None ScopeOperate
    | CompleteRetention d => changes (om_WorkspaceID (dl_Object d)) None ScopeOperate
    | AdmitResultRelease w token _ _ _ => changes w (Some token) ScopeOperate
    | ReadResultRelease w token _ _ _ => reads w (Some token) ScopeOperate
    | PreviewInputRelease w token _ => reads w (Some token) ScopeRead
    | AdmitInputRelease w token _ _ => changes w (Some token) ScopeOperate
    | ReadInputRelease w token _ _ => reads w (Some token) ScopeOperate
    | _ => None
    end;
  long_call X e := false;
  lookup_seen X e := match e in rcall X return X -> list access_event with
    | RetToken d => fun r => [TokenSeen d r]
    | RetWorkspace id => fun r => [WorkspaceSeen id r]
    | _ => fun _ => []
    end |}.
#[export] Instance rcall_access_observed : AccessObserved rcall.
Proof. by split. Qed.

(** Previewing a cleanup asks the provider; a dry run changes nothing. *)
#[export] Instance pcall_reaches : Reaches pcall := {|
  reach_of X e := match e with
    | PPlan w token _ _ _ => reads w (Some token) ScopeOperate
    | PRecordPreparation w token _ _ _ _ => changes w (Some token) ScopeOperate
    | PResolve _ | PVerify _ | POfStaging | PObserveStaging _ _ | PDescribe _ | PDryRun _ => inspects
    | _ => None
    end;
  long_call X e := match e with PVerify _ | PObserveStaging _ _ | PDescribe _ | PDryRun _ => true | _ => false end;
  lookup_seen X e := match e in pcall X return X -> list access_event with
    | PToken d => fun r => [TokenSeen d r]
    | PWorkspace id => fun r => [WorkspaceSeen id r]
    | _ => fun _ => []
    end |}.
#[export] Instance pcall_access_observed : AccessObserved pcall.
Proof. by split. Qed.

(** Reading the health of a host: the machine is sampled, or another caller's
    sample is waited for. What is recorded is evidence about the machine,
    which belongs to no workspace: it is not a change of the caller's. *)
#[export] Instance hcall_reaches : Reaches hcall := {|
  reach_of X e := match e with
    | HResolve w token _ => reads w (Some token) ScopeRead
    | HSample _ | HRecord _ | HRead _ => inspects
    | _ => None
    end;
  long_call X e := match e with HWait _ | HSample _ => true | _ => false end;
  lookup_seen X e := match e in hcall X return X -> list access_event with
    | HToken d => fun r => [TokenSeen d r]
    | HWorkspace id => fun r => [WorkspaceSeen id r]
    | _ => fun _ => []
    end |}.
#[export] Instance hcall_access_observed : AccessObserved hcall.
Proof. by split. Qed.

(** ** The interface *)
Inductive api :=
  | ApiSubmitControl (w job : string) (kind : OperationKind) (key raw : string)
  | ApiGetOperation (w id : string)
  | ApiSubmitJob (w key raw : string)
  | ApiValidateJob (w raw : string)
  | ApiGetJob (w id : string)
  | ApiAuthorize (w job key raw : string)
  | ApiGetAuthorization (w job id : string)
  | ApiPrepare (w job key raw : string)
  | ApiStart (w job key raw : string)
  | ApiGateAuthorization (w job id : string)
  | ApiReadiness (w job : string)
  | ApiUpload (w : string) (length : Z) (digest : string) (body : bool)
  | ApiGetObject (w id : string)
  | ApiReadLogs (w job attempt : string) (request : PageRequest)
  | ApiSupply (w job key raw : string)
  | ApiRevoke (w job id key raw : string)
  | ApiGetSecrets (w job id : string).
Inductive api_answer :=
  | AnsOperation (r : OperationRecord) | AnsReceipt (r : JobReceipt) | AnsValidation (v : Validation)
  | AnsJob (r : JobRecord) | AnsAuthorization (r : AuthReceipt) | AnsGate (r : GateReceipt)
  | AnsReadiness (r : Readiness) | AnsObject (m : ObjectMetadata) | AnsLogs (p : LogPage) | AnsSecrets (r : Receipt).
(** The workspace a request names and the scope it needs. *)
Definition api_target (a : api) : string * Scope :=
  match a with
  | ApiSubmitControl w _ _ _ _ => (w, ScopeOperate)
  | ApiSubmitJob w _ _ | ApiUpload w _ _ _ => (w, ScopeWrite)
  | ApiGetOperation w _ | ApiValidateJob w _ | ApiGetJob w _ | ApiReadiness w _ | ApiGetObject w _ | ApiReadLogs w _ _ _ => (w, ScopeRead)
  | ApiAuthorize w _ _ _ | ApiGetAuthorization w _ _ | ApiPrepare w _ _ _ | ApiStart w _ _ _ | ApiGateAuthorization w _ _
  | ApiSupply w _ _ _ | ApiRevoke w _ _ _ _ | ApiGetSecrets w _ _ => (w, ScopeExecute)
  end.
(** How the services are configured. *)
Record services := mkServices {
  sv_schema : json -> bool; sv_limits : Limits; sv_blobs : bool; sv_preflight : bool; sv_resolver : bool }.
Definition answer_as {A} (f : A -> api_answer) (m : service svc A) : service svc api_answer :=
  try a <- m ;; Done (Ok (f a)).
Definition without_pool (pool : Pool) (m : service svc api_answer) : prog svc (result error api_answer * Pool) :=
  prog_bind (fun r => Done (r, pool)) m.
Definition pool_answer (m : prog svc (result error Receipt * Pool)) : prog svc (result error api_answer * Pool) :=
  prog_bind (fun '(r, pool) => Done (match r with Ok r => Ok (AnsSecrets r) | Err e => Err e end, pool)) m.
Definition handle (v : services) (pool : Pool) (p : Principal) (a : api) : prog svc (result error api_answer * Pool) :=
  match a with
  | ApiSubmitControl w job kind key raw => without_pool pool (answer_as AnsOperation (SubmitControl (sv_blobs v) (sv_limits v) p w job kind key raw))
  | ApiGetOperation w id => without_pool pool (answer_as AnsOperation (GetOperation p w id))
  | ApiSubmitJob w key raw => without_pool pool (answer_as AnsReceipt (SubmitJob (sv_schema v) (sv_preflight v) (sv_limits v) p w key raw))
  | ApiValidateJob w raw => without_pool pool (answer_as AnsValidation (ValidateJobRequest (sv_schema v) p w raw))
  | ApiGetJob w id => without_pool pool (answer_as AnsJob (GetJob p w id))
  | ApiAuthorize w job key raw => without_pool pool (answer_as AnsAuthorization (AuthorizeJob p w job key raw))
  | ApiGetAuthorization w job id => without_pool pool (answer_as AnsAuthorization (GetAuthorization p w job id))
  | ApiPrepare w job key raw => without_pool pool (answer_as AnsGate (PrepareGate p w job key raw))
  | ApiStart w job key raw => without_pool pool (answer_as AnsGate (StartGate p w job key raw))
  | ApiGateAuthorization w job id => without_pool pool (answer_as AnsGate (GateAuthorization p w job id))
  | ApiReadiness w job => without_pool pool (answer_as AnsReadiness (GetReadiness p w job))
  | ApiUpload w length digest body => without_pool pool (answer_as AnsObject (Upload p w length digest body))
  | ApiGetObject w id => without_pool pool (answer_as AnsObject (GetObjectMetadata p w id))
  | ApiReadLogs w job attempt request => without_pool pool (answer_as AnsLogs (ReadJobLogs (sv_resolver v) p w job attempt request))
  | ApiSupply w job key raw => pool_answer (SupplySecrets pool p w job key raw)
  | ApiRevoke w job id key raw => pool_answer (RevokeSecrets pool p w job id key raw)
  | ApiGetSecrets w job id => without_pool pool (answer_as AnsSecrets (GetSecrets p w job id))
  end.

(** ** Steps of a service *)
Section Steps.
Context (digest w : string) (sc : Scope).
(** The last call of a service, whose answer is passed on. *)
Lemma ok_last {E} `{!Reaches E} {A} (e : E (result error A)) s token fresh checked a :
  holding w sc token fresh checked s -> reach_of e = Some a -> names_fit (w, sc) token a = true ->
  negb (rc_change a) || fresh || not_nil (rc_token a) = true -> (forall x, lookup_seen e x = []) ->
  (fresh || not_nil (rc_token a)) && negb (long_call e) = true -> access_ok digest (w, sc) (perform e) s (when_ok (with_grant w sc)).
Proof.
  intros Hg H1 H2 H3 H4 H5. eapply ok_reach; eauto. intros [x|] s' Hs; [|done]. cbn. exists token. do 2 eexists. split; [exact Hs|].
  destruct (long_call e); [by rewrite andb_false_r in H5|]. rewrite !andb_true_r in *. destruct fresh, checked; done.
Qed.
End Steps.

Ltac fits := unfold names_fit; cbn [rc_workspace rc_scope rc_token fst snd]; rewrite ?bool_decide_eq_true_2 by (reflexivity || assumption || congruence); reflexivity.
Ltac grant_last := match goal with
  | Hg : holding _ _ _ _ _ ?s |- access_ok _ _ _ ?s _ =>
      eapply ok_last; [exact Hg|reflexivity|fits|reflexivity|reflexivity|reflexivity]
  end.
Ltac serve_call :=
  lazymatch goal with
  | |- access_ok _ _ (Call ?e _) ?s _ =>
      let a := eval cbn in (reach_of e) in
      lazymatch a with
      | None =>
          let l := eval cbn in (long_call e) in
          lazymatch l with
          | false => apply ok_quiet; [reflexivity|reflexivity|reflexivity|intros ?x]
          | true => match goal with Hg : holding _ _ _ _ _ s |- _ =>
              eapply ok_wait; [exact Hg|reflexivity|reflexivity|reflexivity|intros ?x ?s ?Hg] end
          end
      | _ => match goal with Hg : holding _ _ _ _ _ s |- _ =>
          eapply ok_reach; [exact Hg|reflexivity|fits|reflexivity|reflexivity
            |intros ?x ?s; let H := fresh "Hg" in intros H;
             cbn [andb orb negb not_nil rc_token long_call svc_reaches svc_long readcall_reaches rcall_reaches pcall_reaches hcall_reaches] in H] end
      end
  end.
Ltac release := match goal with
  | Hg : holding _ _ _ _ _ ?s |- context [?s] => do 3 eexists; split; [exact Hg|reflexivity] end.
Ltac serve_step :=
  match goal with
  | |- access_ok _ _ (serve_bind _ (authorize _ _ _)) _ _ => apply ok_authorized; [reflexivity || assumption|intros ?fresh ?s ?Hg ?Ht ?Hd]
  | |- access_ok _ _ (serve_bind _ (svc_error ?r)) _ _ =>
      let E := fresh "E" in destruct r eqn:E; cbn [serve_bind svc_error prog_bind]; [|exact I]
  | |- access_ok _ _ (serve_bind _ (check_error (perform SvcCtxErr))) _ _ => refine (ok_ctx _ _ _ _ _ _)
  | |- access_ok _ _ (serve_bind _ (check_error (mret ?e))) _ _ => destruct e; cbn [serve_bind check_error mret prog_ret prog_bind]; [exact I|]
  | |- access_ok _ _ (serve_bind _ (from ?e)) _ _ => apply ok_try; change (from e) with (Call e Done); serve_call; cbn [when_ok]
  | |- access_ok _ _ (serve_bind _ (perform ?e)) _ _ => apply ok_try; change (perform e) with (Call e Done); serve_call; cbn [when_ok]
  | |- access_ok _ _ (serve_bind _ (Call _ _)) _ _ => apply ok_try; serve_call; cbn [when_ok]
  | |- access_ok _ _ (from _) _ _ => unfold from; grant_last
  | |- access_ok _ _ (perform _) _ (when_ok _) => grant_last
  | |- access_ok _ _ (fail_with _) _ _ => exact I
  | |- access_ok _ _ (Done (Ok _)) _ _ => cbn; release
  | |- access_ok _ _ (if ?b then _ else _) _ _ => let E := fresh "E" in destruct b eqn:E
  | |- access_ok _ _ (mbind _ (perform _)) _ _ => cbn [mbind prog_mbind prog_bind perform]; serve_call; cbn [prog_bind]
  | |- access_ok _ _ (Call _ _) _ _ => serve_call; cbv beta; cbn [prog_bind]
  | |- with_grant _ _ _ _ => release
  | |- when_ok _ (Err _) _ => exact I
  | |- when_ok _ (Ok _) _ => cbn [when_ok]
  | |- access_ok _ _ (Done (Err _)) _ _ => exact I
  | |- access_ok _ _ (Done ?x) _ (when_ok _) => is_var x; destruct x; [cbn [when_ok access_ok obeys]|exact I]
  | |- when_ok _ ?x _ => is_var x; destruct x; cbn [when_ok]
  | |- access_ok _ _ (match ?x with _ => _ end) _ _ => let E := fresh "E" in destruct x eqn:E
  | |- context [let _ := _ in _] => cbv zeta
  end.
Ltac serve_walk := repeat serve_step.

Lemma GetOperation_ok p w id s : access_ok (pr_digest p) (w, ScopeRead) (GetOperation p w id) s (when_ok (with_grant w ScopeRead)).
Proof. unfold GetOperation. serve_walk. Qed.
Lemma GetJob_ok p w id s : access_ok (pr_digest p) (w, ScopeRead) (GetJob p w id) s (when_ok (with_grant w ScopeRead)).
Proof. unfold GetJob. serve_walk. Qed.
Lemma SubmitJob_ok schema preflight limits p w key raw s :
  access_ok (pr_digest p) (w, ScopeWrite) (SubmitJob schema preflight limits p w key raw) s (when_ok (with_grant w ScopeWrite)).
Proof. unfold SubmitJob. serve_walk. Qed.
Lemma ValidateJobRequest_ok schema p w raw s :
  access_ok (pr_digest p) (w, ScopeRead) (ValidateJobRequest schema p w raw) s (when_ok (with_grant w ScopeRead)).
Proof. unfold ValidateJobRequest. serve_walk. Qed.
Lemma AuthorizeJob_ok p w job key raw s :
  access_ok (pr_digest p) (w, ScopeExecute) (AuthorizeJob p w job key raw) s (when_ok (with_grant w ScopeExecute)).
Proof. unfold AuthorizeJob. serve_walk. Qed.
Lemma GetAuthorization_ok p w job id s :
  access_ok (pr_digest p) (w, ScopeExecute) (GetAuthorization p w job id) s (when_ok (with_grant w ScopeExecute)).
Proof. unfold GetAuthorization. serve_walk. Qed.
Lemma GateAuthorization_ok p w job id s :
  access_ok (pr_digest p) (w, ScopeExecute) (GateAuthorization p w job id) s (when_ok (with_grant w ScopeExecute)).
Proof. unfold GateAuthorization. serve_walk. Qed.
Lemma GetSecrets_ok p w job id s :
  access_ok (pr_digest p) (w, ScopeExecute) (GetSecrets p w job id) s (when_ok (with_grant w ScopeExecute)).
Proof. unfold GetSecrets. serve_walk. Qed.
Lemma GetReadiness_ok p w job s :
  access_ok (pr_digest p) (w, ScopeRead) (GetReadiness p w job) s (when_ok (with_grant w ScopeRead)).
Proof. unfold GetReadiness. serve_walk. Qed.
Lemma GetObjectMetadata_ok p w id s :
  access_ok (pr_digest p) (w, ScopeRead) (GetObjectMetadata p w id) s (when_ok (with_grant w ScopeRead)).
Proof. unfold GetObjectMetadata. serve_walk. Qed.

Lemma Upload_ok p w length digest body s :
  access_ok (pr_digest p) (w, ScopeWrite) (Upload p w length digest body) s (when_ok (with_grant w ScopeWrite)).
Proof. unfold Upload. serve_walk. bool_to_prop. serve_walk. Qed.

(** *** Programs that keep a grant

    Whatever they call is allowed under a grant that need not be fresh, and
    they end with one. *)
Section Keeping.
Context {E : Type -> Type} `{!Reaches E} (digest w : string) (sc : Scope) (token : string).
#[local] Notation ok := (access_ok (E := E) digest (w, sc)).
Definition keeps {R} (t : prog E R) : Prop :=
  forall s fresh checked, holding w sc token fresh checked s -> ok t s (fun _ s' => holding w sc token false false s').
Lemma holding_stale fresh checked s : holding w sc token fresh checked s -> holding w sc token false false s.
Proof. intros [H _]. by split. Qed.
Lemma keeps_done {R} (r : R) : keeps (Done r).
Proof. intros s f c H. by eapply holding_stale. Qed.
Lemma keeps_bind {A B} (t : prog E A) (k : A -> prog E B) : keeps t -> (forall a, keeps (k a)) -> keeps (prog_bind k t).
Proof. intros Ht Hk s f c H. apply obeys_bind. eapply obeys_mono; [exact (Ht s f c H)|]. intros a s' Hs. exact (Hk a s' false false Hs). Qed.
Lemma keeps_call {X R} (e : E X) (k : X -> prog E R) :
  match reach_of e with
  | Some a => names_fit (w, sc) token a = true /\ negb (rc_change a) || not_nil (rc_token a) = true
  | None => True
  end ->
  (forall x, lookup_seen e x = []) -> (forall x, keeps (k x)) -> keeps (Call e k).
Proof.
  intros He Hl Hk s f c H. destruct (reach_of e) as [a|] eqn:Ea.
  - destruct He as [Hn Hc]. eapply (ok_reach _ _ _ e); [exact H|exact Ea|exact Hn| |exact Hl|intros x s' Hs; exact (Hk x s' _ _ Hs)].
    destruct f; [by rewrite orb_true_r|by rewrite orb_false_r].
  - destruct (long_call e) eqn:El.
    + eapply ok_wait; [exact H|done|done|exact Hl|]. intros x s' Hs. exact (Hk x s' _ _ Hs).
    + apply ok_quiet; [done|done|exact Hl|]. intros x. exact (Hk x s _ _ H).
Qed.
(** A program that keeps a grant, and what follows it. *)
Lemma ok_kept {A B} (t : prog E A) (k : A -> prog E B) s fresh checked Q :
  holding w sc token fresh checked s -> keeps t -> (forall a s', holding w sc token false false s' -> ok (k a) s' Q) -> ok (prog_bind k t) s Q.
Proof. intros H Ht Hk. apply obeys_bind. eapply obeys_mono; [exact (Ht s _ _ H)|]. intros a s' Hs. by apply Hk. Qed.
End Keeping.
Lemma ok_then {E} `{!Observed E access_event} {A B} digest target (t : prog E A) (k : A -> prog E B) s P Q :
  access_ok digest target t s P -> (forall a s', P a s' -> access_ok digest target (k a) s' Q) -> access_ok digest target (prog_bind k t) s Q.
Proof. intros Ht Hk. apply obeys_bind. eapply obeys_mono; [exact Ht|exact Hk]. Qed.
Ltac keeps_side := cbn [reach_of svc_reaches svc_reach readcall_reaches rcall_reaches pcall_reaches hcall_reaches]; first [exact I | split; [fits|reflexivity]].
Ltac keeps_step :=
  match goal with
  | |- keeps _ _ _ _ (Done _) => apply keeps_done
  | |- keeps _ _ _ _ (mret _) => apply keeps_done
  | |- keeps _ _ _ _ (fail_with _) => apply keeps_done
  | |- keeps _ _ _ _ (Call _ _) => apply keeps_call; [keeps_side|reflexivity|intros ?x]
  | |- keeps _ _ _ _ (perform _) => apply keeps_call; [keeps_side|reflexivity|intros ?x]
  | |- keeps _ _ _ _ (if ?b then _ else _) => let E := fresh "E" in destruct b eqn:E
  | |- keeps _ _ _ _ (match ?x with _ => _ end) => let E := fresh "E" in destruct x eqn:E
  | |- keeps _ _ _ _ (mbind _ _) => apply keeps_bind; [|intros ?x]
  | |- keeps _ _ _ _ (prog_bind _ _) => apply keeps_bind; [|intros ?x]
  | |- keeps _ _ _ _ (serve_bind _ _) => apply keeps_bind; [|intros [?x|?e]]
  | |- keeps _ _ _ _ (check_error _) => unfold check_error
  | |- keeps _ _ _ _ (let _ := _ in _) => cbv zeta
  | |- keeps _ _ _ _ _ => progress cbv beta
  end.
Ltac keeps_walk := repeat keeps_step.

(** *** Logs *)
Lemma provider_logs_keeps digest w token job attempt request b remote :
  keeps digest w ScopeRead token (provider_logs w job attempt request b remote).
Proof.
  unfold provider_logs, ctx_or, log_error. cbv zeta. destruct (_ || _) eqn:E; [apply keeps_done|]. bool_to_prop. keeps_walk.
Qed.
Lemma ReadJobLogs_ok resolver p w job attempt request s :
  access_ok (pr_digest p) (w, ScopeRead) (ReadJobLogs resolver p w job attempt request) s (when_ok (with_grant w ScopeRead)).
Proof.
  unfold ReadJobLogs. serve_walk. eapply ok_kept; [exact Hg0| |].
  - keeps_walk. apply provider_logs_keeps.
  - intros [page|e] s' Hs; [|exact I]. serve_walk.
Qed.

(** *** Gates and secrets *)
Lemma gateCommand_ok p w job key s :
  access_ok (pr_digest p) (w, ScopeExecute) (gateCommand p w job key) s
    (when_ok (fun c s' => holding w ScopeExecute (gc_TokenID c) true false s' /\ gc_WorkspaceID c = w)).
Proof. unfold gateCommand. serve_walk; by split. Qed.
Lemma PrepareGate_ok p w job key raw s :
  access_ok (pr_digest p) (w, ScopeExecute) (PrepareGate p w job key raw) s (when_ok (with_grant w ScopeExecute)).
Proof.
  unfold PrepareGate. apply ok_try. eapply obeys_mono; [apply gateCommand_ok|]. intros [c|e] s'; [|done]. intros [Hg Hw]. cbn [when_ok]. serve_walk.
Qed.
Lemma StartGate_ok p w job key raw s :
  access_ok (pr_digest p) (w, ScopeExecute) (StartGate p w job key raw) s (when_ok (with_grant w ScopeExecute)).
Proof.
  unfold StartGate. apply ok_try. eapply obeys_mono; [apply gateCommand_ok|]. intros [c|e] s'; [|done]. intros [Hg Hw]. cbn [when_ok]. serve_walk.
Qed.

Lemma secret_command_ok p w job key s :
  access_ok (pr_digest p) (w, ScopeExecute) (secret_command p w job key) s
    (when_ok (fun c s' => holding w ScopeExecute (sd_TokenID c) true false s' /\ sd_WorkspaceID c = w)).
Proof. unfold secret_command. serve_walk; by split. Qed.
(** A postcondition on the answer beside the pool. *)
Definition when_answered {A} (Q : A -> access -> Prop) (r : result error A * Pool) (s : access) : Prop := when_ok Q r.1 s.
Lemma SupplySecrets_ok pool p w job key raw s :
  access_ok (pr_digest p) (w, ScopeExecute) (SupplySecrets pool p w job key raw) s (when_answered (with_grant w ScopeExecute)).
Proof.
  unfold SupplySecrets. eapply ok_then; [apply secret_command_ok|]. intros [c|e] s'; [|done]. intros [Hg Hw].
  destruct (ParseSupply raw) as [req|e]; [|exact I]. cbn [mbind prog_mbind prog_bind perform]. serve_call. cbv zeta. cbn [prog_bind].
  assert (forall s' fresh checked, holding w ScopeExecute (sd_TokenID c) fresh checked s' -> fresh || checked = true ->
    forall (r : result error Receipt * Pool), when_answered (with_grant w ScopeExecute) r s') as Hd.
  { intros s2 f k H Hor [[a|e] q]; [|done]. by exists (sd_TokenID c), f, k. }
  destruct (pool_accepts _ _ _); [|by eapply Hd]. serve_call. by eapply Hd.
Qed.
Lemma RevokeSecrets_ok pool p w job id key raw s :
  access_ok (pr_digest p) (w, ScopeExecute) (RevokeSecrets pool p w job id key raw) s (when_answered (with_grant w ScopeExecute)).
Proof.
  unfold RevokeSecrets. eapply ok_then; [apply secret_command_ok|]. intros [c|e] s'; [|done]. intros [Hg Hw].
  destruct (dec_revoke raw) as [attempt|]; [|exact I]. destruct (_ || _); [exact I|]. cbn [mbind prog_mbind prog_bind perform]. serve_call.
  destruct x; [|exact I]. cbn. release.
Qed.

(** *** Retries *)
Section Retry.
Context (digest w token : string).
#[local] Notation kept := (keeps digest w ScopeOperate token).
Lemma verifyBlob_keeps m : om_WorkspaceID m = w -> kept (verifyBlob m).
Proof. intros Hw. unfold verifyBlob. keeps_walk. Qed.
Lemma verify_objects_keeps l : forall image total seen, kept (verify_objects w image total seen l).
Proof.
  induction l as [|ref l IH]; intros image total seen; cbn [verify_objects]; [apply keeps_done|]. cbv zeta.
  destruct (_ || _) eqn:E; [apply keeps_done|]. bool_to_prop. keeps_walk; try apply IH; by apply verifyBlob_keeps.
Qed.
Lemma verify_retry_keeps inputs : kept (verify_retry w inputs).
Proof. unfold verify_retry. keeps_walk. apply verify_objects_keeps. Qed.
End Retry.
Lemma SubmitControl_ok blobs limits p w job kind key raw s :
  access_ok (pr_digest p) (w, ScopeOperate) (SubmitControl blobs limits p w job kind key raw) s (when_ok (with_grant w ScopeOperate)).
Proof.
  unfold SubmitControl, replayAfterRead. serve_walk. eapply ok_kept; [eassumption|apply verify_retry_keeps|]. intros [[]|e] s' Hs; serve_walk.
Qed.

(** *** Results *)
Lemma Reader_Read_holds p w job attempt s :
  access_ok (pr_digest p) (w, ScopeRead) (Reader_Read p w job attempt) s (when_ok (fun _ s' => exists token, holding w ScopeRead token true true s')).
Proof. unfold Reader_Read. serve_walk. unfold perform. serve_call. destruct x; [|exact I]. by exists (pr_tokenID fresh). Qed.
Lemma Reader_Read_ok p w job attempt s :
  access_ok (pr_digest p) (w, ScopeRead) (Reader_Read p w job attempt) s (when_ok (with_grant w ScopeRead)).
Proof. eapply obeys_mono; [apply Reader_Read_holds|]. intros [x|e] s'; [|done]. cbn. intros [token Hg]. release. Qed.
Lemma Reader_Open_ok p w job attempt id s :
  access_ok (pr_digest p) (w, ScopeRead) (Reader_Open p w job attempt id) s (when_ok (with_grant w ScopeRead)).
Proof.
  unfold Reader_Open. apply ok_try. eapply obeys_mono; [apply Reader_Read_holds|]. intros [r|e] s'; [|done]. intros [token Hg]. cbn [when_ok].
  serve_walk. destruct x as [[]|]; [|exact I|exact I]. cbn. release.
Qed.

(** The next answer: an error ends the service. *)
Tactic Notation "answer" simple_intropattern(a) := lazymatch goal with
  | |- access_ok _ _ (Done ?x) ?s ?Q => change (Q x s); destruct x as [a|?]; [cbv beta; cbn [when_ok]|exact I] end.

(** *** Releases *)
Section Releases.
Context (digest w token : string).
#[local] Notation ok := (access_ok (E := rcall) digest (w, ScopeOperate)).
Lemma release_items_ok kind pending : forall s checked, holding w ScopeOperate token true checked s ->
  ok (release_items kind w pending) s (fun _ s' => exists checked, holding w ScopeOperate token true checked s').
Proof.
  induction pending as [|d pending IH]; intros s checked Hg; cbn [release_items]; [by exists checked|].
  destruct (_ || _) eqn:E; [by exists checked|]. bool_to_prop. cbn [mbind prog_mbind prog_bind perform]. serve_call. destruct x as [b|e].
  - cbn [mbind prog_mbind prog_bind perform]. serve_call. destruct x; [by eexists|by eapply IH].
  - cbn [mbind prog_mbind prog_bind perform]. serve_call. destruct x; [by eexists|by eapply IH].
Qed.
Lemma finish_release_ok {A} kind pending (read : rcall (result error A)) s checked :
  holding w ScopeOperate token true checked s -> reach_of read = reads w (Some token) ScopeOperate -> long_call read = false ->
  (forall x, lookup_seen read x = []) -> ok (finish_release kind w pending read) s (when_ok (with_grant w ScopeOperate)).
Proof.
  intros Hg H1 H2 H3. unfold finish_release. destruct (_ <? _); [exact I|].
  eapply ok_then; [by eapply release_items_ok|]. intros [] s' [c Hs]; cbn [negb]; [|exact I].
  apply ok_try. unfold check_error. cbn [mbind prog_mbind prog_bind perform]. serve_call. destruct x; [exact I|].
  eapply ok_last; [exact Hs|exact H1|fits|reflexivity|exact H3|by rewrite H2].
Qed.
Lemma bind_stores_ok s checked :
  holding w ScopeOperate token true checked s -> ok bind_stores s (when_ok (fun _ s' => exists checked, holding w ScopeOperate token true checked s')).
Proof.
  intros Hg. unfold bind_stores. apply ok_try. unfold perform. serve_call. answer ?.
  apply ok_try. unfold perform. serve_call. answer ?. case (_ || _); [exact I|]. unfold check_error. cbn [mbind prog_mbind prog_bind perform]. serve_call. destruct x; [exact I|]. by eexists.
Qed.
End Releases.
Lemma Releaser_Release_ok p w job key request s :
  access_ok (pr_digest p) (w, ScopeOperate) (Releaser_Release p w job key request) s (when_ok (with_grant w ScopeOperate)).
Proof.
  unfold Releaser_Release. serve_walk. apply ok_try. eapply obeys_mono; [by eapply bind_stores_ok|]. intros [[]|e] s1; [|done]. intros [c Hs]. cbn [when_ok].
  apply ok_try. unfold perform. serve_call. answer [r pending]. by eapply finish_release_ok.
Qed.
Lemma InputReleaser_Preview_ok p w request s :
  access_ok (pr_digest p) (w, ScopeRead) (InputReleaser_Preview p w request) s (when_ok (with_grant w ScopeRead)).
Proof. unfold InputReleaser_Preview. serve_walk. Qed.
Lemma InputReleaser_Release_ok p w key request s :
  access_ok (pr_digest p) (w, ScopeOperate) (InputReleaser_Release p w key request) s (when_ok (with_grant w ScopeOperate)).
Proof.
  unfold InputReleaser_Release. serve_walk. apply ok_try. eapply obeys_mono; [by eapply bind_stores_ok|]. intros [[]|e] s1; [|done]. intros [c Hs]. cbn [when_ok].
  apply ok_try. unfold perform. serve_call. answer [r pending]. by eapply finish_release_ok.
Qed.

(** *** Previews of a cleanup *)
Section Previews.
Context (digest w token : string).
#[local] Notation kept := (keeps digest w ScopeOperate token).
Lemma verified_once_keeps b adapter err st : kept (verified_once b adapter err st).
Proof. unfold verified_once. keeps_walk. Qed.
Lemma previewResource_keeps plan resource adapter err st : kept (previewResource plan resource adapter err st).
Proof. unfold previewResource. keeps_walk; apply verified_once_keeps. Qed.
Lemma preview_each_keeps plan absent adapter err l : forall st eligible reason views, kept (preview_each plan absent adapter err st eligible reason views l).
Proof.
  induction l as [|resource l IH]; intros st eligible reason views; cbn [preview_each]; [apply keeps_done|].
  apply keeps_bind; [apply previewResource_keeps|]. intros [view st']. cbv zeta. destruct (rp_Eligible _); apply IH.
Qed.
Lemma settle_staging_keeps recorder job attempt discard adapter err plan st :
  kept (settle_staging recorder w token job attempt discard adapter err plan st).
Proof. unfold settle_staging. keeps_walk; apply verified_once_keeps. Qed.
End Previews.
Lemma cleanup_Preview_ok resolver recorder p w job attempt discard s :
  access_ok (pr_digest p) (w, ScopeOperate) (cleanup_Preview resolver recorder p w job attempt discard) s (when_ok (with_grant w ScopeOperate)).
Proof.
  unfold cleanup_Preview. serve_step. apply ok_try. unfold perform. serve_call. answer ?. case (_ || _); [exact I|].
  eapply ok_kept; [exact Hg0|keeps_walk|]. intros resolved sa H1. cbv zeta. eapply ok_kept; [exact H1|apply settle_staging_keeps|].
  intros [[[plan' absent] st]|e] sb H2; [|exact I]. cbn [mbind prog_mbind prog_bind perform]. serve_call.
  eapply ok_kept; [exact H2|apply preview_each_keeps|]. intros [[eligible reason] views] sc H3. serve_walk.
Qed.

(** *** Health of a host *)
Section Health.
Context (digest w token : string).
#[local] Notation kept := (keeps digest w ScopeRead token).
Lemma cached_for_keeps t : kept (cached_for t).
Proof. unfold cached_for, health_Cached. keeps_walk. Qed.
Lemma probe_machine_keeps t now : kept (probe_machine t now).
Proof. unfold probe_machine, sampleHealth. keeps_walk. apply cached_for_keeps. Qed.
Lemma Refresh_keeps fuel t : kept (Refresh fuel t).
Proof.
  unfold Refresh. destruct (negb _); [apply keeps_done|]. induction fuel as [|fuel IH]; cbn [refresh_loop]; [apply keeps_done|].
  keeps_walk; [exact IH|apply cached_for_keeps|apply probe_machine_keeps].
Qed.
End Health.
Lemma GetHealth_ok fuel p w id s :
  access_ok (pr_digest p) (w, ScopeRead) (GetHealth fuel p w id) s (fun r s' => match r with Some (Ok _) => releasing w ScopeRead s' | _ => True end).
Proof.
  unfold GetHealth. eapply ok_then; [by apply ok_authorize|]. intros [q|e] s1; [|done]. intros (Hg & _ & Hq).
  cbn [mbind prog_mbind prog_bind perform]. serve_call. destruct x as [target|e]; [|exact I].
  eapply ok_kept; [exact Hg0|apply Refresh_keeps|]. intros [[view|e]|] sb H2; [|exact I|exact I].
  eapply ok_then; [by apply ok_authorize|]. intros [q'|e] sc; [|done]. intros (Hg1 & _). cbn. release.
Qed.

(** ** All services *)
Lemma without_pool_ok {A} digest target pool (f : A -> api_answer) (m : service svc A) s Q :
  access_ok digest target m s (when_ok (fun _ => Q)) ->
  access_ok digest target (without_pool pool (answer_as f m)) s (when_answered (fun _ => Q)).
Proof.
  intros H. apply obeys_bind. apply obeys_bind. eapply obeys_mono; [exact H|]. intros [a|e] s' Hq; exact Hq.
Qed.
Lemma pool_answer_ok digest target m s Q :
  access_ok digest target m s (when_answered (fun _ => Q)) -> access_ok digest target (pool_answer m) s (when_answered (fun _ => Q)).
Proof. intros H. apply obeys_bind. eapply obeys_mono; [exact H|]. intros [[a|e] q] s' Hq; exact Hq. Qed.
Lemma handle_ok v pool p a s :
  access_ok (pr_digest p) (api_target a) (handle v pool p a) s
    (when_answered (fun _ s' => releasing (api_target a).1 (api_target a).2 s')).
Proof.
  destruct a; cbn [handle api_target fst snd]; (apply without_pool_ok || apply pool_answer_ok);
    first [apply SubmitControl_ok|apply GetOperation_ok|apply SubmitJob_ok|apply ValidateJobRequest_ok|apply GetJob_ok|apply AuthorizeJob_ok
      |apply GetAuthorization_ok|apply PrepareGate_ok|apply StartGate_ok|apply GateAuthorization_ok|apply GetReadiness_ok|apply Upload_ok
      |apply GetObjectMetadata_ok|apply ReadJobLogs_ok|apply SupplySecrets_ok|apply RevokeSecrets_ok|apply GetSecrets_ok].
Qed.

(** The request was answered with success. *)
Definition succeeded {A} (r : option (result error A)) : bool := match r with Some (Ok _) => true | _ => false end.
(** A run of a request of the principal, complete or cut: the workspace it
    names and the scope it needs, what was observed, and whether it was
    answered with success. *)
Inductive served (p : Principal) : string * Scope -> list access_event -> bool -> Prop :=
  | served_api v pool a l r : runs (handle v pool p a) l r -> served p (api_target a) l (succeeded (fst <$> r))
  | served_results w job attempt l r : runs (Reader_Read p w job attempt) l r -> served p (w, ScopeRead) l (succeeded r)
  | served_open w job attempt id l r : runs (Reader_Open p w job attempt id) l r -> served p (w, ScopeRead) l (succeeded r)
  | served_release w job key request l r : runs (Releaser_Release p w job key request) l r -> served p (w, ScopeOperate) l (succeeded r)
  | served_input_preview w request l r : runs (InputReleaser_Preview p w request) l r -> served p (w, ScopeRead) l (succeeded r)
  | served_input_release w key request l r : runs (InputReleaser_Release p w key request) l r -> served p (w, ScopeOperate) l (succeeded r)
  | served_cleanup resolver recorder w job attempt discard l r :
      runs (cleanup_Preview resolver recorder p w job attempt discard) l r -> served p (w, ScopeOperate) l (succeeded r)
  | served_health fuel w id l r : runs (GetHealth fuel p w id) l r -> served p (w, ScopeRead) l (succeeded (mjoin r)).

(** A request whose success can be read off its result. *)
Lemma served_case {E} `{!Observed E access_event} {R} digest target (t : prog E R) (good : R -> bool) (Q : R -> access -> Prop) l r :
  access_ok digest target t no_access Q -> (forall x s, Q x s -> good x = true -> releasing target.1 target.2 s) -> runs t l r ->
  (forall l1 a l2, l = l1 ++ Acts a :: l2 -> authorized digest target l1 a) /\
  (match r with Some x => good x | None => false end = true -> released digest target l).
Proof.
  destruct target as [w sc]. intros Ho HQ Hr. destruct (access_runs t digest w sc (fun x => good x = true) l r) as [H1 H2]; [|exact Hr|].
  - eapply obeys_mono; [exact Ho|]. exact HQ.
  - split; [exact H1|]. destruct r as [x|]; [|done]. exact (H2 x eq_refl).
Qed.
Lemma served_service {E} `{!Observed E access_event} {A} digest w sc (t : service E A) l r :
  access_ok digest (w, sc) t no_access (when_ok (with_grant w sc)) -> runs t l r ->
  (forall l1 a l2, l = l1 ++ Acts a :: l2 -> authorized digest (w, sc) l1 a) /\ (succeeded r = true -> released digest (w, sc) l).
Proof.
  intros Ho Hr. destruct (served_case digest (w, sc) t is_ok (when_ok (with_grant w sc)) l r Ho) as [H1 H2]; [by intros [x|e] s|exact Hr|].
  split; [exact H1|]. intros H. apply H2. by destruct r as [[x|e]|].
Qed.


(** *** A request served

    An upload: the token is looked up again after the bytes are stored. *)
Definition sample_token : TokenRecord :=
  mkTokenRecord "tok-1" "ws-1" (sha256_hex "secret") [ScopeWrite; ScopeOperate] 1 zero_time false.
Definition sample_principal : Principal := mkPrincipal "tok-1" "ws-1" (sha256_hex "secret") [ScopeRead].
Definition sample_services : services := mkServices (fun _ => true) DefaultLimits true false true.
Definition sample_pool : Pool := mkPool "" ∅ false [].
Definition sample_env (s : access) (X : Type) (e : svc X) : option X :=
  match e in svc X return option X with
  | SvcCtxErr => Some None
  | SvcToken _ => Some (Ok sample_token)
  | SvcWorkspace id => Some (Ok (mkWorkspace id true []))
  | SvcRandom n => Some (Some (replicate (Z.to_nat n) 7))
  | PutBlob d => Some (Ok (mkObjectMetadata (om_ID d) (om_WorkspaceID d) 5 (sha256_hex "bytes")))
  | CommitObject _ => Some None
  | _ => None
  end.
Definition sample_api : api := ApiUpload "ws-1" 5 (sha256_hex "bytes") true.
Definition sample_run : list access_event * option (result error api_answer * Pool) :=
  play (access_step (pr_digest sample_principal) (api_target sample_api)) sample_env (handle sample_services sample_pool sample_principal sample_api) no_access.
(** What is stored, the bytes first and then the name of the object. *)
Definition sample_change : reach := mkReach true (Some "ws-1") None (Some ScopeWrite).
