(* ===== verification/Inputs.v ===== *)
(** * Resolving a job

    [internal/dispatch/inputs.go] without its reads of stored bytes: the
    snapshot of an accepted job, the resolved job handed to a provider, the
    check of the plan it returns, and the constraints of the runner; with
    [safefs.ValidPath] and the [Handle] and [Work] of [model.go]. *)

From S2P Require Import Prelude GoStrings GoTime GoSha256 GoJson JsonRead Canonical Identifiers Problems AttemptStates Attempts Operations DomainRecords Provider ProviderResources Admission ExecutionAuth Scheduler Journal.
#[local] Open Scope string_scope.
#[local] Open Scope list_scope.
#[local] Open Scope Z_scope.
#[local] Open Scope bool_scope.

(** ** Work *)
Definition dispatch_ErrInvalid : error := ENew "invalid orchestration record".
Definition dispatch_ErrConflict : string := "orchestration step changed or is not permitted".
Definition dispatch_ErrStale : string := "stale or regressive observation ignored".
Definition dispatch_ErrPolicy : string := "new provider mutation blocked by current policy".
Record Handle := mkHandle { hd_Claim : Claim; hd_Version : Z }.
Record CancellationControl := mkCancellationControl { cc_Operation : Operation; cc_Started : bool }.
Record Work := mkWork {
  wk_InstallationID : string; wk_Handle : Handle; wk_Job : JobRecord; wk_Journal : Journal;
  wk_Cancellation : option CancellationControl; wk_Gate : option Gate }.

(** [problem(code, may)] as an error value. *)
Definition problem_error (code : ErrorCode) (may : bool) : error :=
  match problem code may with Ok (Some p) => EProblem true p | _ => ENilProblem end.

(** ** Snapshot *)
Definition input_role (i : nat) : string := "input:" +:+ FormatInt (Z.of_nat i).
Definition roles (objects : list FrozenObject) : gmap string ObjectMetadata :=
  foldl (fun refs o => <[fo_Role o := fo_Object o]> refs) ∅ objects.
Definition zero_object : ObjectMetadata := mkObjectMetadata "" "" 0 "".

Fixpoint snapshot_inputs (refs : gmap string ObjectMetadata) (limit total : Z) (i : nat) (l : list Input)
    : option (list FrozenInput) :=
  match l with
  | [] => Some []
  | inp :: l' =>
      m ← refs !! input_role i;
      if limit - total <? om_Bytes m then None
      else if (so_Kind (in_Source inp) ==? "object") && (om_ID m <>? so_ObjectID (in_Source inp))
           || (so_Kind (in_Source inp) ==? "https") && (so_ExpectedSHA256 (in_Source inp) <>? "")
              && (om_SHA256 m <>? so_ExpectedSHA256 (in_Source inp)) then None
      else rest ← snapshot_inputs refs limit (total + om_Bytes m) (S i) l';
           Some (mkFrozenInput (in_Name inp) (in_Target inp) m :: rest)
  end.
Definition Snapshot (record : JobRecord) (refs : gmap string ObjectMetadata) : result error InputSnapshot :=
  let spec := Request_Spec (jr_Request record) in
  let w := job_WorkspaceID (jr_Job record) in
  let bundle := default zero_object (refs !! "bundle") in
  throw (om_ID bundle <>? br_ObjectID (sc_Bundle spec)) || (pf_MaxBundleBytes (jr_Profile record) <? om_Bytes bundle)
    with dispatch_ErrInvalid ;;
  let imageCount := if is_nil (sc_ApplicationImage spec) then 0%nat else 1%nat in
  throw negb (size refs =? 1 + length (sc_Inputs spec) + imageCount)%nat with dispatch_ErrInvalid ;;
  do image <- match sc_ApplicationImage spec with
              | None => Ok None
              | Some image =>
                  match refs !! "application_image" with
                  | Some m => throw (om_ID m <>? ai_ObjectID image) || (om_SHA256 m <>? ai_SHA256 image)
                                    || negb (om_Bytes m =? ai_Bytes image) with dispatch_ErrInvalid ;;
                              Ok (Some m)
                  | None => Err dispatch_ErrInvalid
                  end
              end ;;
  match snapshot_inputs refs (pf_MaxInputBytes (jr_Profile record)) 0 0 (sc_Inputs spec) with
  | None => Err dispatch_ErrInvalid
  | Some inputs =>
      let snapshot := mkInputSnapshot bundle (Some inputs) image in
      throw not_nil (InputSnapshot_Validate snapshot w) with dispatch_ErrInvalid ;;
      Ok snapshot
  end.

(** ** The resolved job

    A value as [json.RawMessage]s are put back: numbers keep their text. *)
Fixpoint raw_json (v : jvalue) : json :=
  match v with
  | VNull => JNull
  | VBool b => JBool b
  | VNum t => JRaw t
  | VStr s => JStr s
  | VArr l => JArr (map raw_json l)
  | VObj fields => JObj (map (fun kv => (kv.1, raw_json kv.2)) fields)
  end.
(** [m[name] = v], then encoded with its names in order. *)
Definition set_member (name : string) (v : json) (fields : list (string * jvalue)) : json :=
  JObj (merge_sort field_le
          ((name, v) :: map (fun kv => (kv.1, raw_json kv.2)) (filter (fun kv => kv.1 <> name) fields))).
Definition object_source (id : string) : json := JObj [("kind", JStr "object"); ("object_id", JStr id)].
(** The document with every source replaced by its frozen object. The members
    of a canonical document are distinct; its inputs are objects. *)
Definition resolved_document (canonical : string) (inputs : list FrozenInput) : option string :=
  doc ← ReadDocument canonical;
  fields ← match doc with VObj f => Some f | _ => None end;
  l ← match member "inputs" fields with Some (VArr l) => Some l | Some VNull => Some [] | _ => None end;
  l ← mapM (fun v => match v with VObj f => Some f | _ => None end) l;
  if negb (length l =? length inputs)%nat then None else
  let replaced := zip_with (fun f inp => set_member "source" (object_source (om_ID (fi_Object inp))) f) l inputs in
  Some (Marshal (set_member "inputs" (JArr replaced) fields)).

Definition capability_le (a b : CapabilityName) : Prop := str_leb (CapabilityName_string a) (CapabilityName_string b) = true.
#[export] Instance capability_le_dec a b : Decision (capability_le a b).
Proof. unfold capability_le. apply _. Defined.
Definition required_capabilities (spec : Spec) : list CapabilityName :=
  merge_sort capability_le
    ([CapabilityBatchExecution; CapabilityPrivateInputStaging; CapabilityExecutionTimeout; CapabilityStrongIdentity;
      CapabilityRemoteNetworkControl]
     ++ (if 0 <? Z.of_nat (length (sc_WorkloadSecrets spec)) then [CapabilityEphemeralSecrets] else [])
     ++ (if SeparateStart spec then [CapabilitySeparateStart] else [])
     ++ (if tm_ExecutionDeadline (sc_Timeouts spec) <>? "" then [CapabilityAbsoluteDeadline] else [])
     ++ [if ex_Kind (sc_Execution spec) ==? "python" then CapabilityPython else CapabilityShell]
     ++ (if rs_Accelerator (sc_Resources spec) ==? "gpu" then [CapabilityGPU] else [])).

Section ResolveJob.
Context (schema : json -> bool).
Definition intent_key (work : Work) : string :=
  Digest (Marshal (JArr (map JStr [wk_InstallationID work; job_WorkspaceID (jr_Job (wk_Job work));
                                   job_ID (jr_Job (wk_Job work)); at_ID (jr_Attempt (wk_Job work))]))).
Definition ResolveJob (work : Work) (snapshot : InputSnapshot) : result error (ResolvedJob * string) :=
  let record := wk_Job work in
  throw not_nil (InputSnapshot_Validate snapshot (job_WorkspaceID (jr_Job record)))
        || negb (ID_Valid (wk_InstallationID work)) with dispatch_ErrInvalid ;;
  let spec := Request_Spec (jr_Request record) in
  match resolved_document (rq_canonical (jr_Request record)) (elems (is_Inputs snapshot)) with
  | None => Err dispatch_ErrInvalid
  | Some encoded =>
      do resolved <- Parse schema encoded ;;
      let key := intent_key work in
      let id := mkIdentity (wk_InstallationID work) (job_WorkspaceID (jr_Job record)) (job_ID (jr_Job record))
                  (at_ID (jr_Attempt record)) (bd_ProviderInstanceID (pf_Binding (jr_Profile record)))
                  ("si_" +:+ key) ("cr-" +:+ string_of (take 40 (bytes_of key))) (jr_AttemptNonce record)
                  (om_SHA256 (is_Bundle snapshot)) (InputDigest snapshot) in
      let job := mkResolvedJob id (pf_Binding (jr_Profile record)) (rq_canonical resolved)
                   (Digest (rq_canonical resolved)) (Some (required_capabilities spec))
                   (tm_RemoteWallSeconds (sc_Timeouts spec)) (Some (InputSnapshot_Clone snapshot)) in
      match ResolvedJob_Validate job with
      | Some e => Err e
      | None => Ok (job, "prep_" +:+ key)
      end
  end.
End ResolveJob.

(** ** The plan of a provider *)
Fixpoint unverified (seen : list CapabilityName) (l : list CapabilityName) : option (list CapabilityName) :=
  match l with
  | [] => Some seen
  | c :: l' => if (c <>? CapabilityGPU) || bool_decide (c ∈ seen) then None else unverified (c :: seen) l'
  end.
Definition supported (d : Descriptor) (seen : list CapabilityName) (c : CapabilityName) : bool :=
  let support := Descriptor_Support d c in
  negb (negb (CapabilitySupport_Valid support) || (support ==? CapabilitySupportUnsupported)
        || (support <>? CapabilitySupportSupported)
           && negb ((c ==? CapabilityGPU) && bool_decide (c ∈ seen))).
Definition ValidatedPlan (expected : ResolvedJob) (p : Plan) (d : Descriptor) : option error :=
  reject (Marshal (json_job expected) <>? Marshal (json_job (pl_Job p)))
         || not_nil (ResolvedJob_Validate (pl_Job p)) || (ds_InstanceID d <>? id_InstanceID (rj_Identity expected))
    with dispatch_ErrInvalid ;;
  match unverified [] (elems (pl_VerifyAfterStart p)) with
  | None => Some dispatch_ErrInvalid
  | Some seen =>
      reject negb (forallb (supported d seen) (elems (rj_Required expected)))
        with problem_error CodeUnsupportedCapability false ;;
      reject bool_decide (CapabilityGPU ∈ seen) && negb (bool_decide (CapabilityGPU ∈ elems (rj_Required expected)))
        with dispatch_ErrInvalid ;;
      None
  end.

(** ** The runner's constraints *)

(** [safefs.ValidPath]: a portable ASCII path. *)
Definition portable_byte (c : Z) : bool :=
  negb ((c <? 32) || (127 <=? c) || bool_decide (c ∈ [92; 58; 42; 63; 34; 60; 62; 124])).
(** [strings.TrimRight(part, " .") != part]. *)
Definition trailing_mark (part : string) : bool :=
  match last (bytes_of part) with Some c => (byte_val c =? 32) || (byte_val c =? 46) | None => false end.
Definition device_name (part : string) : bool :=
  let base := ToUpper (default "" (head (Split part (byte_of 46)))) in
  bool_decide (base ∈ ["CON"; "PRN"; "AUX"; "NUL"; "CONIN$"; "CONOUT$"])
  || (len base =? 4) && (HasPrefix base "COM" || HasPrefix base "LPT")
     && match last (bytes_of base) with Some c => is_digit (byte_val c) | None => false end.
Definition ValidPath (name : string) : bool :=
  if name ==? "." then true
  else if (len name =? 0) || (1024 <? len name) then false
  else if negb (all_bytes portable_byte name) then false
  else forallb (fun part => negb ((part ==? "") || (part ==? ".") || (part ==? "..") || (100 <? len part)
                                  || trailing_mark part || device_name part)) (Split name slash).

(** [strings.Contains]. *)
Fixpoint contains_bytes (p l : list ascii) : bool :=
  not_nil (strip_prefix p l) || match l with [] => false | _ :: l' => contains_bytes p l' end.
Definition Contains (s part : string) : bool := contains_bytes (bytes_of part) (bytes_of s).

Definition runner_path (p : string) : bool :=
  if (p ==? ".") || (240 <? len p) || (32 <? Z.of_nat (length (Split p slash))) || negb (ValidPath p) then false
  else forallb (fun part => negb (bool_decide (ToLower part ∈ [".compute-relay"; ".git"; ".ssh"; ".env"]))) (Split p slash).

(** One prefix of a path: the spellings and the complete paths seen so far. *)
Definition runner_step (last : bool) (prefix : string) (st : gmap string string * list string)
    : option (gmap string string * list string) :=
  let '(names, leaves) := st in
  let key := ToLower prefix in
  if bool_decide (key ∈ leaves) || match names !! key with Some prior => prior <>? prefix | None => false end then None
  else if last && not_nil (names !! key) then None
  else Some (<[key := prefix]> names, if last then key :: leaves else leaves).
Definition join_path (parts : list string) : string := String.concat "/" parts.
(** The loop over [n], the number of parts of the prefix. *)
Fixpoint runner_prefixes (before after : list string) (st : gmap string string * list string)
    : option (gmap string string * list string) :=
  match after with
  | [] => Some st
  | part :: after' =>
      let before := before ++ [part] in
      st ← runner_step (bool_decide (after' = [])) (join_path before) st;
      runner_prefixes before after' st
  end.
Fixpoint runner_paths (paths : list string) (st : gmap string string * list string) : bool :=
  match paths with
  | [] => true
  | path :: paths' =>
      match runner_prefixes [] (Split path slash) st with Some st => runner_paths paths' st | None => false end
  end.
Definition disjointRunnerPaths (paths : list string) : bool := runner_paths paths (∅, []).

Definition runner_environment (k v : string) : bool :=
  let u := ToUpper k in
  negb (existsb (HasPrefix u) ["CC_"; "PYTHON"; "PIP_"; "LD_"; "DYLD_"; "CUDA_"; "NVIDIA_"; "AWS_"; "KAGGLE_"]
        || existsb (Contains u) ["TOKEN"; "SECRET"; "PASSWORD"; "CREDENTIAL"; "API_KEY"; "PROXY"]
        || bool_decide (u ∈ ["PATH"; "HOME"; "TMPDIR"; "VIRTUAL_ENV"; "BASH_ENV"; "ENV"; "SHELLOPTS"; "BASHOPTS"])
        || has_nul v).
(** [files]: the paths of the bundle's manifest. *)
Definition runnerCompatible (spec : Spec) (files : list string) : option error :=
  let fail := problem_error CodeResourceRequirementUnsatisfied false in
  let x := sc_Execution spec in
  match ex_Command x with
  | [] => Some fail
  | cmd :: _ =>
      reject existsb has_nul (ex_Command x) with fail ;;
      reject (ex_Kind x ==? "python") && (cmd <>? "python") && (cmd <>? "python3")
             || (ex_Kind x ==? "shell") && (cmd <>? "bash") && (cmd <>? "sh") with fail ;;
      let wd := if ex_WorkingDirectory x ==? "" then "." else ex_WorkingDirectory x in
      reject (wd <>? ".") && negb (runner_path wd) with fail ;;
      reject negb ((wd ==? ".") || existsb (fun f => HasPrefix f (wd +:+ "/")) files)
             || negb ((ex_PythonRequirements x ==? "") || bool_decide (ex_PythonRequirements x ∈ files)) with fail ;;
      reject existsb (fun i => negb (runner_path (in_Target i))) (sc_Inputs spec) with fail ;;
      reject existsb (fun o => negb (runner_path (ou_Path o))) (sc_Outputs spec) with fail ;;
      reject negb (disjointRunnerPaths (map in_Target (sc_Inputs spec)))
             || negb (disjointRunnerPaths (map ou_Path (sc_Outputs spec))) with fail ;;
      reject existsb (fun kv => negb (runner_environment kv.1 kv.2)) (map_to_list (ex_Environment x)) with fail ;;
      None
  end.
