(* ===== verification/Session.v ===== *)
(** * A dispatch session: its environment and its helpers

    [internal/dispatch/engine.go] and [cancellation.go]: the calls one pass
    over an attempt makes to the repository, the provider, the stored bytes,
    the secret pool and the clock, and the helpers of [session]. The pass
    itself is in [Engine]. Contexts, deadlines and the lease heartbeat run
    beside the pass: what they do to it is what the calls [CtxErr],
    [ParentErr], [Deadline], [Renewed] and [StopHeartbeat] answer. *)

From S2P Require Import Prelude Effects GoStrings GoTime GoSha256 GoJson JsonRead Canonical Identifiers Problems Workers AttemptStates Attempts Operations DomainRecords Provider ProviderResources Admission ExecutionAuth SecretPool Scheduler Journal Inputs.
#[local] Open Scope string_scope.
#[local] Open Scope list_scope.
#[local] Open Scope Z_scope.
#[local] Open Scope bool_scope.

(** ** Configuration *)
Record EngineConfig := mkEngineConfig {
  ec_Workers : Z; ec_ControlTimeout : Duration; ec_PreparationTimeout : Duration; ec_PollDelay : Duration }.
Definition DefaultConfig : EngineConfig := mkEngineConfig 4 Minute Hour (15 * Second).
Definition EngineConfig_Valid (c : EngineConfig) : bool :=
  (0 <? ec_Workers c) && (ec_Workers c <=? 64) && (0 <? ec_ControlTimeout c) && (ec_ControlTimeout c <=? 5 * Minute)
  && (ec_ControlTimeout c <=? ec_PreparationTimeout c) && (ec_PreparationTimeout c <=? Hour)
  && (Millisecond <=? ec_PollDelay c) && (ec_PollDelay c <=? 5 * Minute).

(** ** Calls

    What a provider call leaves: a value, an error, or a recovered panic. *)
Inductive reply (X : Type) := Returned (r : result error X) | Panicked.
Arguments Returned {X} r.
Arguments Panicked {X}.

Record CancellationAction := mkCancellationAction {
  ca_Begin : bool; ca_Outcome : option CancellationOutcome; ca_Code : ErrorCode }.
(** The part of [packaging.Inspect]'s report that is read. *)
Record BundleReport := mkBundleReport { rp_Bytes : Z; rp_SHA256 : string; rp_Files : list string }.

Inductive call : Type -> Type :=
  (* clock, contexts and the heartbeat *)
  | Now : call Time
  | ParentErr : call (option error)
  | CtxErr : call (option error)
  | CallDeadline (step : string) : call (option error)
  | Renewed (h : Handle) : call (option Handle)
  | StopHeartbeat : call (option error)
  | NilPanic : call Empty_set
  (* the repository *)
  | ClaimRecovery (owner : string) : call (result error (option Claim))
  | ClaimNext (owner : string) : call (result error (option Claim))
  | LoadDispatch (c : Claim) : call (result error Work)
  | ConsumeAuthorization (h : Handle) : call (result error Work)
  | CommitDispatch (h : Handle) (a : Action) : call (result error Work)
  | CommitCancellation (h : Handle) (id : string) (a : CancellationAction) : call (result error Work)
  | RecordPreparationProgress (h : Handle) (p : PreparationProgress) : call (option error)
  | YieldDispatch (h : Handle) (delay : Duration) : call (option error)
  (* the guard of new work, the secret pool, the stored bytes *)
  | BeforeNewWork (job : JobRecord) : call (option error)
  | SecretsAvailable (key : Key) (id : string) (now : Time) : call bool
  | LockSecrets (key : Key) (id : string) (now : Time) : call bool
  | TakeSecrets (key : Key) : call PoolMaterial
  | ClearSecrets (m : PoolMaterial) : call unit
  | OpenBlob (workspace id : string) : call bool
  | InspectBundle (maxCompressedBytes : Z) : call (option BundleReport)
  | ReadBlob : call (list ascii * option error)
  | CloseBlob : call (option error)
  (* the provider of the frozen binding *)
  | ResolveProvider (b : BindingSnapshot) : call (option error)
  | Describe : call Descriptor
  | VerifyBinding (b : BindingSnapshot) : call (reply unit)
  | ValidateJob (job : ResolvedJob) : call (reply Plan)
  | Prepare (plan : Plan) (id : string) : call (list (Z * Z))
  | PrepareEnds : call (reply Prepared)
  | ReconcilePrepare (plan : Plan) (id : string) : call (reply PreparationObservation)
  | Start (p : Prepared) (a : option StartAuthorization) (secrets : option PoolMaterial) : call (reply SubmissionOutcome)
  | Reconcile (id : Identity) : call (reply Reconciliation)
  | Observe (r : RemoteReference) : call (reply Observation)
  | CancelRemote (r : RemoteReference) (id : string) : call (reply CancellationOutcome).

(** ** Sessions *)
Record session := mkSession {
  ss_current : Work; ss_sampled : Time; ss_progressErr : option error; ss_drainingPreparation : bool;
  ss_observationLimit : Duration }.
#[export] Instance set_ss_current : Setter ss_current := fun f s =>
  mkSession (f (ss_current s)) (ss_sampled s) (ss_progressErr s) (ss_drainingPreparation s) (ss_observationLimit s).
#[export] Instance set_ss_sampled : Setter ss_sampled := fun f s =>
  mkSession (ss_current s) (f (ss_sampled s)) (ss_progressErr s) (ss_drainingPreparation s) (ss_observationLimit s).
#[export] Instance set_ss_progressErr : Setter ss_progressErr := fun f s =>
  mkSession (ss_current s) (ss_sampled s) (f (ss_progressErr s)) (ss_drainingPreparation s) (ss_observationLimit s).
#[export] Instance set_ss_drainingPreparation : Setter ss_drainingPreparation := fun f s =>
  mkSession (ss_current s) (ss_sampled s) (ss_progressErr s) (f (ss_drainingPreparation s)) (ss_observationLimit s).
#[export] Instance set_ss_observationLimit : Setter ss_observationLimit := fun f s =>
  mkSession (ss_current s) (ss_sampled s) (ss_progressErr s) (ss_drainingPreparation s) (f (ss_observationLimit s)).
Definition with_handle (h : Handle) (w : Work) : Work :=
  mkWork (wk_InstallationID w) h (wk_Job w) (wk_Journal w) (wk_Cancellation w) (wk_Gate w).

(** A computation of the session: calls, and the session's own fields. *)
Definition M (A : Type) : Type := session -> prog call (A * session).
#[export] Instance M_ret : MRet M := fun A a s => Done (a, s).
#[export] Instance M_bind : MBind M := fun A B k m s => prog_bind (fun '(a, s) => k a s) (m s).
Definition ask {X} (e : call X) : M X := fun s => Call e (fun x => Done (x, s)).
Definition gets {A} (f : session -> A) : M A := fun s => Done (f s, s).
Definition modify (f : session -> session) : M unit := fun s => Done (tt, f s).
(** [*p] of a pointer. *)
Definition deref_ptr {A} (p : option A) : M A :=
  match p with Some a => mret a | None => x ← ask NilPanic; match x : Empty_set with end end.

(** Taking the lock: the heartbeat may have stored a renewed handle since. *)
Definition lock : M unit :=
  h ← gets (fun s => wk_Handle (ss_current s));
  r ← ask (Renewed h);
  match r with
  | Some h => modify (fun s => s <| ss_current := with_handle h (ss_current s) |>)
  | None => mret tt
  end.
Definition work : M Work := _ ← lock; gets ss_current.

(** ** Actions *)
Definition act (k : Kind) : Action :=
  mkAction "" false k None "" None None None None (CodeOther "") "" "" None "" false None false.
Definition act_refuse (reason cause : string) : Action :=
  mkAction reason false RefuseNewWork None "" None None None None (CodeOther "") "" cause None "" false None false.
Definition act_begin (plan : Plan) (id : string) : Action :=
  mkAction "" false BeginPreparation (Some plan) id None None None None (CodeOther "") "" "" None "" false None false.
Definition act_prepared (p : Prepared) : Action :=
  mkAction "" false PreparationSeen None "" (Some p) None None None (CodeOther "") "" "" None "" false None false.
Definition act_start (secrets : bool) : Action :=
  mkAction "" secrets BeginSubmission None "" None None None None (CodeOther "") "" "" None "" false None false.
Definition act_outcome (o : SubmissionOutcome) : Action :=
  mkAction "" false SubmissionSeen None "" None (Some o) None None (CodeOther "") "" "" None "" false None false.
Definition act_absence (a : RemoteAbsence) : Action :=
  mkAction "" false RemoteAbsenceSeen None "" None None (Some a) None (CodeOther "") "" "" None "" false None false.
Definition act_observation (o : Observation) : Action :=
  mkAction "" false ObservationSeen None "" None None None (Some o) (CodeOther "") "" "" None "" false None false.
Definition act_absent (name : string) : Action :=
  mkAction "" false SubmissionAbsenceSeen None "" None None None None (CodeOther "") "" "" None name false None false.
Definition act_fault (code : ErrorCode) (reason cause : string) (details : option (gmap string string)) : Action :=
  mkAction "" false Fault None "" None None None None code reason cause details "" false None false.
Definition act_end (cause : string) : Action :=
  mkAction "" false EndUnconfirmedPreparation None "" None None None None (CodeOther "") "" cause None "" false None false.

(** ** Classification of errors *)
Definition newWorkRefusalReason (err : option error) : string :=
  if errors_Is err "remote resource count limit reached" then Reason err "remote_resource_count_limit"
  else if errors_Is err "application image count limit reached" then "host_image_count_limit"
  else if errors_Is err ErrHostUnhealthy then "host_unhealthy"
  else if errors_Is err "host storage hard limit reached" then "host_storage_limit"
  else if errors_Is err "host storage observation is unknown" then "host_storage_unknown"
  else "".
Definition problemReason (err : option error) : string := Reason err "".
(** [problem(code, false) != nil]. *)
Definition known_code (code : ErrorCode) : bool :=
  match problem code false with Ok (Some _) => true | _ => false end.
Definition errorCode (err : option error) (fallback : ErrorCode) : ErrorCode :=
  let by_value := match errors_As (as_problem false) err with
                  | Some p => if known_code (pb_Code p) then pb_Code p else fallback
                  | None => fallback
                  end in
  match errors_As (as_problem true) err with
  | Some p => if known_code (pb_Code p) then pb_Code p else by_value
  | None => by_value
  end.
Definition unansweredRead (err : option error) : bool :=
  if errors_Is err DeadlineExceeded then true
  else match errorCode err CodeProviderStateUnknown with
       | CodeProviderStateUnknown | CodeProviderUnreachable | CodeProviderRateLimited => true
       | _ => false
       end.
Definition controlContention (err : option error) : bool :=
  errors_Is err dispatch_ErrConflict || errors_Is err dispatch_ErrStale.
Definition scheduler_ErrLeaseLost : string := "scheduler claim is expired or no longer owned".
(** The classifier that [Engine.Run] gives its workers. *)
Definition engine_classify (err : option error) : Decision :=
  if IsLocalStateError err then Classify err
  else if not_nil (errors_As (as_problem true) err) || not_nil (errors_As (as_problem false) err)
          || (newWorkRefusalReason err <>? "") || errors_Is err dispatch_ErrPolicy
          || errors_Is err scheduler_ErrLeaseLost || controlContention err
  then Continue
  else Classify err.

(** [control]: a bounded provider call, its error with a closed reason. *)
Definition reasoned (e : error) (fallback : string) : error := default e (WithReason (Some e) fallback).
Definition control {X} (step : string) (fn : M (reply X)) : M (result error X) :=
  expired ← ask (CallDeadline step);
  match expired with
  | Some e => mret (Err (reasoned e (step +:+ "_interrupted")))
  | None =>
      r ← fn;
      mret match r with
           | Returned (Ok x) => Ok x
           | Returned (Err e) => Err (reasoned e (step +:+ "_failed"))
           | Panicked => Err (reasoned (ENew "provider call failed without a usable result") (step +:+ "_panic"))
           end
  end.

(** ** Commits *)
Definition commit (a : Action) : M (option error) :=
  _ ← lock;
  stopped ← if (ac_Kind a ==? BeginPreparation) || (ac_Kind a ==? BeginSubmission) then ask ParentErr else mret None;
  match stopped with
  | Some e => mret (Some e)
  | None =>
      h ← gets (fun s => wk_Handle (ss_current s));
      r ← ask (CommitDispatch h a);
      match r with
      | Err e => mret (Some e)
      | Ok w =>
          _ ← modify (fun s => s <| ss_current := w |>);
          _ ← if ac_Kind a ==? BeginPreparation then modify (fun s => s <| ss_drainingPreparation := true |>) else mret tt;
          mret None
      end
  end.
Definition consumeAuthorization : M (option error) :=
  _ ← lock;
  stopped ← ask ParentErr;
  match stopped with
  | Some e => mret (Some e)
  | None =>
      h ← gets (fun s => wk_Handle (ss_current s));
      r ← ask (ConsumeAuthorization h);
      match r with
      | Err e => mret (Some e)
      | Ok w => _ ← modify (fun s => s <| ss_current := w |>); mret None
      end
  end.
(** The problem of the journal, as the error [s.work().Journal.Problem]. *)
Definition journal_error : M (option error) :=
  w ← work;
  mret (Some match jn_Problem (wk_Journal w) with Some p => EProblem true p | None => ENilProblem end).
Definition commit_fault (a : Action) : M (option error) :=
  e ← commit a; match e with Some e => mret (Some e) | None => journal_error end.
Definition failWith (code : ErrorCode) (reason : string) : M (option error) :=
  e ← ask CtxErr;
  match e with Some e => mret (Some e) | None => commit_fault (act_fault code reason "" None) end.
Definition fail (code : ErrorCode) : M (option error) := failWith code "".
Definition providerFailure (err : error) (code : ErrorCode) : M (option error) :=
  if IsLocalStateError (Some err) then mret (Some err) else
  let details := match errors_As (as_problem false) (Some err) with
                 | Some p => PublicDetails p
                 | None => match errors_As (as_problem true) (Some err) with Some p => PublicDetails p | None => None end
                 end in
  commit_fault (act_fault (errorCode (Some err) code) (problemReason (Some err)) "" details).
Definition prepared (p : Prepared) : M (option error) :=
  w ← work;
  match jn_Plan (wk_Journal w) with
  | Some plan => if not_nil (Prepared_Validate p plan (jn_PreparationID (wk_Journal w)))
                 then fail CodeRemoteIdentityMismatch else commit (act_prepared p)
  | None => fail CodeRemoteIdentityMismatch
  end.
Definition refuseNewWork (cause : option error) : M (option error) :=
  let reason := newWorkRefusalReason cause in
  if reason ==? "" then mret cause else
  w ← work;
  let recorded := match jn_Problem (wk_Journal w) with
                  | Some p => (detail p ReasonDetail ==? reason) && (detail p CauseDetail ==? Reason cause "")
                  | None => false
                  end in
  if recorded then mret cause else
  e ← commit (act_refuse reason (Reason cause ""));
  match e with
  | Some e => mret (if errors_Is (Some e) dispatch_ErrPolicy then cause else Some e)
  | None => mret cause
  end.
(** [guarded]: a guard of new work is configured. *)
Definition guardNewWork (guarded : bool) : M (option error) :=
  if negb guarded then mret None else
  w ← work;
  e ← ask (BeforeNewWork (wk_Job w));
  if newWorkRefusalReason e <>? "" then refuseNewWork e else mret e.

(** One progress report of a running preparation. *)
Definition progress (completed total : Z) : M unit :=
  now ← ask Now;
  _ ← lock;
  sampled ← gets ss_sampled;
  if (completed <? total) && negb (IsZero sampled) && (time_Sub now sampled <? Second) then mret tt else
  _ ← modify (fun s => s <| ss_sampled := now |>);
  h ← gets (fun s => wk_Handle (ss_current s));
  e ← ask (RecordPreparationProgress h
             (mkPreparationProgress "staged_input_bytes" (cl_Generation (hd_Claim h)) completed total now));
  let expected := match e with
                  | None => true
                  | Some (ENew text) => bool_decide (text ∈ [Canceled; scheduler_ErrLeaseLost;
                      "invalid orchestration record"; dispatch_ErrConflict; dispatch_ErrStale])
                  | Some _ => false
                  end in
  if expected then mret tt
  else if Classify e ==? Stop
       then modify (fun s => s <| ss_progressErr := Join [ss_progressErr s; e] |>) else mret tt.

Definition endUnconfirmedPreparation (err : option error) (unanswered : bool) (cause : string) : M (option error) :=
  if IsLocalStateError err then mret err else
  e ← ask CtxErr;
  match e with
  | Some e => mret (Some e)
  | None =>
      let cause := if cause ==? "" then problemReason err else cause in
      w ← work;
      now ← ask Now;
      limit ← gets ss_observationLimit;
      let again := match jn_PreparationObservationStarted (wk_Journal w) with
                   | None => true
                   | Some started => Before now (started + PreparationObservationGrace)
                                     || unanswered && Before now (started + limit)
                   end in
      commit_fault (if again then act_fault CodeStagingNotReady "" cause None else act_end cause)
  end.

(** ** Cancellation *)
Definition commitCancellation (a : CancellationAction) : M (option error) :=
  _ ← lock;
  w ← gets ss_current;
  match wk_Cancellation w with
  | None => mret (Some (ENew dispatch_ErrConflict))
  | Some c =>
      r ← ask (CommitCancellation (wk_Handle w) (op_ID (cc_Operation c)) a);
      match r with
      | Err e => mret (Some e)
      | Ok w => _ ← modify (fun s => s <| ss_current := w |>); mret None
      end
  end.
(** [Some err]: the cancellation was handled, with this result. *)
Definition cancelOnce : M (option (option error)) :=
  w ← work;
  match wk_Cancellation w, jn_Remote (wk_Journal w) with
  | Some c, Some remote =>
      if cc_Started c || (jn_Phase (wk_Journal w) <>? Submitted) then mret None else
      d ← ask Describe;
      if negb (cp_RemoteCancellation (ds_Capabilities d))
      then e ← commitCancellation (mkCancellationAction false None CodeRemoteCancelUnsupported); mret (Some e) else
      e ← commitCancellation (mkCancellationAction true None (CodeOther ""));
      match e with
      | Some e => mret (Some (Some e))
      | None =>
          r ← control "cancel" (ask (CancelRemote remote (op_ID (cc_Operation c))));
          let unresolved := mkCancellationAction false None CodeRemoteExecutionUnresolved in
          match r with
          | Err e =>
              if IsLocalStateError (Some e) then mret (Some (Some e))
              else e ← commitCancellation unresolved; mret (Some e)
          | Ok outcome =>
              e ← commitCancellation (if not_nil (CancellationOutcome_Validate outcome) then unresolved
                                      else mkCancellationAction false (Some outcome) (CodeOther ""));
              mret (Some e)
          end
      end
  | _, _ => mret None
  end.
