(* ===== verification/Engine.v ===== *)
(** * A dispatch pass

    [internal/dispatch/engine.go]: [process] and [RunOnce], and [freeze] of
    [inputs.go]. One pass loads an attempt, verifies its frozen binding,
    advances the journal by the calls its phase permits, and gives the lease
    back with the delay of the next pass. *)

From S2P Require Import Prelude Effects GoStrings GoTime GoSha256 GoJson JsonRead Canonical Identifiers Problems Workers AttemptStates Attempts Operations DomainRecords Provider ProviderResources Admission ExecutionAuth SecretPool Scheduler Journal Inputs Session.
#[local] Open Scope string_scope.
#[local] Open Scope list_scope.
#[local] Open Scope Z_scope.
#[local] Open Scope bool_scope.

Section Engine.
Context (schema : json -> bool) (cfg : EngineConfig) (guarded : bool).

(** ** Freezing inputs *)

(** The first loop: every input has an object, within the byte limit. *)
Fixpoint frozen_total (refs : gmap string ObjectMetadata) (limit total : Z) (i : nat) (l : list Input) : option error :=
  match l with
  | [] => None
  | _ :: l' =>
      match refs !! input_role i with
      | Some m => if limit - total <? om_Bytes m then Some (problem_error CodeInputTooLarge false)
                  else frozen_total refs limit (total + om_Bytes m) (S i) l'
      | None => Some (problem_error CodeInputNotFound false)
      end
  end.
(** The last loop: the stored bytes are read again and compared. *)
Fixpoint verify_inputs (workspace : string) (l : list FrozenInput) : M (option error) :=
  match l with
  | [] => mret None
  | inp :: l' =>
      let o := fi_Object inp in
      opened ← ask (OpenBlob workspace (om_ID o));
      if negb opened then mret (Some (problem_error CodeInputNotFound false)) else
      '(bytes, copyErr) ← ask ReadBlob;
      closeErr ← ask CloseBlob;
      let copied := take (Z.to_nat (om_Bytes o + 1)) bytes in
      if not_nil copyErr || not_nil closeErr then mret (Some (problem_error CodeInputFetchFailed false)) else
      if negb (Z.of_nat (length copied) =? om_Bytes o) || (sha256_hex (string_of copied) <>? om_SHA256 o)
      then mret (Some (problem_error CodeInputDigestMismatch false))
      else verify_inputs workspace l'
  end.
Definition freeze : M (result error InputSnapshot) :=
  w ← work;
  let spec := Request_Spec (jr_Request (wk_Job w)) in
  let profile := jr_Profile (wk_Job w) in
  let workspace := si_WorkspaceID (cl_Identity (hd_Claim (wk_Handle w))) in
  let refs := roles (jr_Objects (wk_Job w)) in
  match frozen_total refs (pf_MaxInputBytes profile) 0 0 (sc_Inputs spec) with
  | Some e => mret (Err e)
  | None =>
  match Snapshot (wk_Job w) refs with
  | Err e => mret (Err e)
  | Ok snapshot =>
      opened ← ask (OpenBlob workspace (om_ID (is_Bundle snapshot)));
      if negb opened then mret (Err (problem_error CodeInputNotFound false)) else
      report ← ask (InspectBundle (pf_MaxBundleBytes profile));
      closeErr ← ask CloseBlob;
      match report, closeErr with
      | Some r, None =>
          if negb (rp_Bytes r =? om_Bytes (is_Bundle snapshot)) || (rp_SHA256 r <>? om_SHA256 (is_Bundle snapshot))
          then mret (Err (problem_error CodeInputDigestMismatch false)) else
          match runnerCompatible spec (rp_Files r) with
          | Some e => mret (Err e)
          | None =>
              e ← verify_inputs workspace (elems (is_Inputs snapshot));
              mret match e with Some e => Err e | None => Ok snapshot end
          end
      | _, _ => mret (Err (problem_error CodeInputDigestMismatch false))
      end
  end end.

(** ** The phases *)

(** What follows a refused intent: the refusal is recorded, an expired one
    ends the dispatch, anything else is returned. *)
Definition refused_intent (e : error) : M (option error) :=
  if newWorkRefusalReason (Some e) <>? "" then refuseNewWork (Some e)
  else if errors_Is (Some e) ErrExpired then commit (act ExpireDispatch)
  else mret (Some e).

Fixpoint reports (l : list (Z * Z)) : M unit :=
  match l with [] => mret tt | (completed, total) :: l' => _ ← progress completed total; reports l' end.

Definition process_Local : M (option error) :=
  e ← guardNewWork guarded;
  match e with Some e => mret (Some e) | None =>
  snapshot ← freeze;
  match snapshot with
  | Err e => fail (errorCode (Some e) CodeInputFetchFailed)
  | Ok snapshot =>
  w ← work;
  match ResolveJob schema w snapshot with
  | Err _ => fail CodeResourceRequirementUnsatisfied
  | Ok (job, prepID) =>
  plan ← control "validate" (ask (ValidateJob (ResolvedJob_Clone job)));
  match plan with
  | Err e => providerFailure e (errorCode (Some e) CodeUnsupportedCapability)
  | Ok plan =>
  d ← ask Describe;
  if not_nil (ValidatedPlan job plan d) then fail CodeUnsupportedCapability else
  e ← consumeAuthorization;
  match e with Some e => refused_intent e | None =>
  e ← commit (act_begin plan prepID);
  match e with Some e => refused_intent e | None =>
  _ ← if not_nil (wk_Gate w) then ask Now else mret zero_time;
  prep ← control "prepare"
           (l ← ask (Prepare (Plan_Clone plan) prepID); _ ← reports l; ask PrepareEnds);
  match prep with
  | Err e =>
      if IsLocalStateError (Some e) then mret (Some e)
      else if errors_Is (Some e) ErrExpired then commit (act ExpireDispatch)
      else failWith CodeStagingFailed (problemReason (Some e))
  | Ok p => prepared p
  end end end end end end end.

(** A nil plan panics inside the call, where it is recovered. *)
Definition reconcile_prepare (j : Journal) : M (reply PreparationObservation) :=
  match jn_Plan j with
  | Some plan => ask (ReconcilePrepare (Plan_Clone plan) (jn_PreparationID j))
  | None => mret Panicked
  end.
Definition process_Staging (w : Work) (expired : bool) : M (option error) :=
  let j := wk_Journal w in
  let unconfirmed := unconfirmedPreparation j in
  let expire := expired && not_nil (wk_Gate w) in
  seen ← control "reconcile_preparation"
           (reconcile_prepare j);
  match seen with
  | Err e =>
      if unconfirmed then endUnconfirmedPreparation (Some e) (unansweredRead (Some e)) ""
      else if IsLocalStateError (Some e) then mret (Some e)
      else if expire then commit (act ExpireDispatch)
      else failWith CodeStagingFailed (problemReason (Some e))
  | Ok seen =>
      plan ← deref_ptr (jn_Plan j);
      if not_nil (PreparationObservation_Validate seen plan (jn_PreparationID j)) then
        if unconfirmed then endUnconfirmedPreparation None false "" else fail CodeRemoteIdentityMismatch
      else if po_Status seen <>? ReconciliationFound then
        if unconfirmed
        then endUnconfirmedPreparation None (po_Status seen ==? ReconciliationUnknown) (po_Cause seen)
        else if expire then commit (act ExpireDispatch)
        else fail CodeStagingNotReady
      else p ← deref_ptr (po_Prepared seen); prepared p
  end.

Definition secret_key (w : Work) : Key :=
  mkKey (job_WorkspaceID (jr_Job (wk_Job w))) (job_ID (jr_Job (wk_Job w))) (at_ID (jr_Attempt (wk_Job w))).
(** The start intent; with secrets it is committed under the pool's lock. *)
Definition begin_start (w : Work) (secret : option SecretAuthorization) : M (result error (option PoolMaterial)) :=
  match secret with
  | Some x =>
      now ← ask Now;
      ok ← ask (LockSecrets (secret_key w) (sx_AuthorizationID x) now);
      if negb ok then mret (Err (ENew secret_ErrUnavailable)) else
      e ← commit (act_start true);
      match e with
      | Some e => mret (Err e)
      | None => m ← ask (TakeSecrets (secret_key w)); mret (Ok (Some m))
      end
  | None =>
      e ← commit (act_start false);
      mret match e with Some e => Err e | None => Ok None end
  end.
Definition unknown_outcome : SubmissionOutcome :=
  mkSubmissionOutcome SubmissionUnknown None
    match problem CodeProviderSubmissionUnknown true with Ok p => p | Err _ => None end.
(** The one start, and the record of its outcome. *)
Definition start_once (material : option PoolMaterial) : M (option error) :=
  w ← work;
  p ← deref_ptr (jn_Prepared (wk_Journal w));
  outcome ← control "submit"
              (w ← work;
               let start := jn_StartAuthorization (wk_Journal w) in
               ask (Start p (StartAuthorization_Clone <$> start)
                      (if not_nil (start ≫= sz_Secrets) then material else None)));
  let outcome := match outcome with
                 | Ok o => if not_nil (SubmissionOutcome_Validate o (pr_Identity p)) then unknown_outcome else o
                 | Err _ => unknown_outcome
                 end in
  commit (act_outcome outcome).
(** Before a start with a gate: it was granted, its secrets are there, and the
    preparation is still the one it was granted for. [None]: go on. *)
Definition revalidate (w : Work) (g : Gate) : M (option (option error)) :=
  match gt_Start g with
  | None => mret (Some None)
  | Some start =>
      available ← match sz_Secrets start with
                  | Some x => now ← ask Now; ask (SecretsAvailable (secret_key w) (sx_AuthorizationID x) now)
                  | None => mret true
                  end;
      if negb available then mret (Some None) else
      let j := wk_Journal w in
      seen ← control "revalidate_preparation"
               (reconcile_prepare j);
      match seen with
      | Err e => r ← providerFailure e (errorCode (Some e) CodeStagingNotReady); mret (Some r)
      | Ok seen =>
          plan ← deref_ptr (jn_Plan j);
          let same := is_nil (PreparationObservation_Validate seen plan (jn_PreparationID j))
                      && (po_Status seen ==? ReconciliationFound)
                      && match po_Prepared seen with
                         | Some p => ReadinessRevision p ==? gt_ReadyRevision g | None => false end in
          if same then mret None else r ← fail CodeRemoteIdentityMismatch; mret (Some r)
      end
  end.
Definition process_Ready (w : Work) : M (option error) :=
  stopped ← match wk_Gate w with Some g => revalidate w g | None => mret None end;
  match stopped with Some r => mret r | None =>
  e ← guardNewWork guarded;
  match e with Some e => mret (Some e) | None =>
  let secret := g ← wk_Gate w; start ← gt_Start g; sz_Secrets start in
  begun ← begin_start w secret;
  match begun with
  | Err e =>
      if newWorkRefusalReason (Some e) <>? "" then refuseNewWork (Some e)
      else if errors_Is (Some e) secret_ErrUnavailable then mret None
      else if errors_Is (Some e) ErrExpired then commit (act ExpireDispatch)
      else mret (Some e)
  | Ok material =>
      r ← start_once material;
      _ ← match material with Some m => ask (ClearSecrets m) | None => mret tt end;
      mret r
  end end end.

Definition process_Submitting (w : Work) : M (option error) :=
  plan ← deref_ptr (jn_Plan (wk_Journal w));
  let identity := rj_Identity (pl_Job plan) in
  seen ← control "reconcile_submission" (ask (Reconcile identity));
  match seen with
  | Err e => providerFailure e CodeProviderSubmissionUnknown
  | Ok seen =>
      if not_nil (Reconciliation_Validate seen identity) then fail CodeRemoteIdentityMismatch else
      match rc_Status seen with
      | ReconciliationAbsent =>
          if jn_OwnerSubmissionPresent (wk_Journal w)
          then failWith CodeProviderSubmissionUnknown "owner_present_lookup_unavailable"
          else commit (act_absent (rc_ResourceName seen))
      | ReconciliationFound => commit (act_outcome (mkSubmissionOutcome SubmissionAccepted (rc_Remote seen) None))
      | _ => fail CodeProviderSubmissionUnknown
      end
  end.

Definition as_absence (e : error) : option RemoteAbsence :=
  match e with ERemoteAbsence r at_ => Some (mkRemoteAbsence r at_) | _ => None end.
Definition process_Submitted (w : Work) : M (option error) :=
  remote ← deref_ptr (jn_Remote (wk_Journal w));
  obs ← control "observe" (ask (Observe remote));
  match obs with
  | Err e =>
      match errors_As as_absence (Some e) with
      | Some absence => commit (act_absence absence)
      | None => providerFailure e (errorCode (Some e) CodeProviderUnreachable)
      end
  | Ok obs =>
      if not_nil (Observation_Validate obs remote) then fail CodeRemoteIdentityMismatch else
      e ← commit (act_observation obs);
      mret (if errors_Is e dispatch_ErrStale then None else e)
  end.

(** ** The pass *)

(** [work.Job.Request.Spec().Expired(now) || work.Gate.Expired(now)]. *)
Definition pass_expired (w : Work) : M bool :=
  now ← ask Now;
  if Spec_Expired (Request_Spec (jr_Request (wk_Job w))) now then mret true
  else match wk_Gate w with Some g => now ← ask Now; mret (Gate_Expired g now) | None => mret false end.
Definition preparation_limit (w : Work) : Duration :=
  match wk_Gate w with
  | Some g => Z.min (ec_PreparationTimeout cfg) (pq_MaxPreparationSeconds (gt_Request g) * Second)
  | None => ec_PreparationTimeout cfg
  end.
Definition frozen_binding (w : Work) : BindingSnapshot :=
  let p := jr_Profile (wk_Job w) in mkBindingSnapshot (pf_Binding p) (pf_AccountScope p) (pf_CredentialRef p).

Definition pass_body (w : Work) : M (option error) :=
  let j := wk_Journal w in
  let unconfirmed := unconfirmedPreparation j in
  expired ← pass_expired w;
  if negb (jn_SubmitStarted j) && expired
     && (as_Cancellation (at_State (jr_Attempt (wk_Job w))) ==? CancellationNotRequested)
     && negb (not_nil (wk_Gate w) && (jn_Phase j ==? Staging) && is_nil (jn_Prepared j))
  then commit (act ExpireDispatch) else
  let limit := preparation_limit w in
  _ ← modify (fun s => s <| ss_observationLimit := Z.max PreparationObservationGrace limit |>);
  let binding := frozen_binding w in
  e ← ask (ResolveProvider binding);
  match e with
  | Some e => if unconfirmed then endUnconfirmedPreparation (Some e) false "" else providerFailure e CodeConfigurationInvalid
  | None =>
  v ← control "verify" (ask (VerifyBinding binding));
  match v with
  | Err e =>
      if unconfirmed then endUnconfirmedPreparation (Some e) (unansweredRead (Some e)) "" else
      providerFailure e (if errors_Is (Some e) DeadlineExceeded then CodeProviderUnreachable
                         else errorCode (Some e) CodeProviderStateUnknown)
  | Ok _ =>
  d ← ask Describe;
  if ds_InstanceID d <>? bd_ProviderInstanceID (bs_Binding binding) then
    if unconfirmed then endUnconfirmedPreparation None false "" else fail CodeRemoteIdentityMismatch
  else
  handled ← cancelOnce;
  match handled with Some r => mret r | None =>
  match jn_Phase j with
  | Local => process_Local
  | Staging => process_Staging w expired
  | Ready => process_Ready w
  | Submitting => process_Submitting w
  | Submitted => process_Submitted w
  | _ => mret (Some (ENew dispatch_ErrConflict))
  end end end end.

(** ** The end of a pass *)

(** A quarter of the attempts waits longer by each of 0, 10, 20, 30 percent. *)
Definition jitter (fence : string) (delay : Duration) : Duration :=
  match bytes_of fence with c :: _ => delay + Z.quot (byte_val c `mod` 4 * delay) 10 | [] => delay end.
Definition pass_delay (w : Work) (err : option error) : Duration :=
  let delay := nextPassDelay (ec_PollDelay cfg) (wk_Journal w) in
  let delay := if errors_Is err dispatch_ErrPolicy then 5 * Minute else delay in
  let delay := if newWorkRefusalReason err <>? "" then 30 * Second else delay in
  jitter (cl_Fence (hd_Claim (wk_Handle w))) delay.
Definition pass_end (err : option error) : M (option error) :=
  renewal ← ask StopHeartbeat;
  let err := HeartbeatError err renewal in
  w ← work;
  progressErr ← gets ss_progressErr;
  let err := Join [err; progressErr] in
  let delay := pass_delay w err in
  delay ← match jn_PreparationObservationStarted (wk_Journal w) with
          | Some started =>
              if unconfirmedPreparation (wk_Journal w) then
                now ← ask Now;
                let until := time_Sub (started + PreparationObservationGrace) now in
                mret (if 0 <? until then Z.min delay until else delay)
              else mret delay
          | None => mret delay
          end;
  e ← ask (YieldDispatch (wk_Handle w) delay);
  mret (Join [err; e]).

Definition process (c : Claim) : prog call (option error) :=
  r ← perform (LoadDispatch c);
  match r with
  | Err e => mret (Some e)
  | Ok w =>
      '(e, _) ← (e ← pass_body w; pass_end e) (mkSession w zero_time None false 0);
      mret e
  end.
Definition RunOnce (owner : string) : prog call (bool * option error) :=
  r ← perform (ClaimRecovery owner);
  match r with
  | Err e => mret (false, Some e)
  | Ok (Some c) => e ← process c; mret (true, e)
  | Ok None =>
      r ← perform (ClaimNext owner);
      match r with
      | Err e => mret (false, Some e)
      | Ok None => mret (false, None)
      | Ok (Some c) => e ← process c; mret (true, e)
      end
  end.
End Engine.
