(* ===== verification/Apply.v ===== *)
(** * The journal state machine

    [Apply] of [internal/dispatch/transition.go], one definition per case of
    its [switch]: it returns the next journal, the next attempt state and the
    event to record, or the reason nothing may be committed. Only a preparation
    found late by the preview of a cleanup is written to a journal without it
    ([late_preparation] of [DispatchRuns]). [Panic] stands for a Go panic. *)

From S2P Require Import Prelude GoStrings GoTime GoJson Identifiers Problems DomainRecords AttemptStates Attempts Operations Provider ProviderResources Scheduler Journal.
#[local] Open Scope string_scope.
#[local] Open Scope list_scope.
#[local] Open Scope Z_scope.
#[local] Open Scope bool_scope.

Inductive apply_error := ErrInvalid | ErrConflict | ErrStaleObservation | Panic.
#[export] Instance apply_error_eq_dec : EqDecision apply_error.
Proof. solve_decision. Defined.

Abbreviation outcome := (result apply_error (Journal * AttemptState * EventType)).

(** A call that panics on an invalid definition, and a pointer dereference. *)
Definition panics {A} (r : result error A) : result apply_error A :=
  match r with Ok a => Ok a | Err _ => Err Panic end.
Definition deref {A} (p : option A) : result apply_error A :=
  match p with Some a => Ok a | None => Err Panic end.
Definition must_Problem (code : ErrorCode) (stage : FailureStage) (message : string) : result apply_error Problem :=
  panics (provider_Problem code stage message).
Definition journal_problem (code : ErrorCode) (may : bool) : result apply_error (option Problem) :=
  panics (problem code may).

Section Cases.
Context (old j : Journal) (state : AttemptState) (a : Action) (now : Time).

(** ** Refusing new work *)
(** The recorded reason and the message for it. *)
Definition refusal (reason : string) : option (string * string) :=
  if (reason ==? "") || (reason ==? "host_unhealthy") then
    Some ("host_unhealthy", "Host health refuses new preparation or execution.")
  else if bool_decide (reason ∈ ["remote_staging_dataset_limit"; "remote_kernel_limit";
            "remote_attempt_container_limit"; "remote_resource_scope_unknown"; "remote_shared_dataset_limit"]) then
    Some (reason, "Retained or unconfirmed remote resources fill the operator count budget.")
  else if reason ==? "host_image_count_limit" then
    Some (reason, "Retained application images fill the operator count budget.")
  else if reason ==? "host_storage_limit" then
    Some (reason, "Host storage budget refuses new preparation or execution.")
  else if reason ==? "host_storage_unknown" then
    Some (reason, "Host storage observation is incomplete or stale.")
  else None.

Definition apply_RefuseNewWork : outcome :=
  throw jn_SubmitStarted old || (jn_Phase old <>? Local) && (jn_Phase old <>? Ready)
        || (as_Cancellation state <>? CancellationNotRequested) || (as_Execution state <>? ExecutionNotSubmitted)
        || (as_RemoteActivity state <>? RemoteActivityNotStarted)
    with ErrConflict ;;
  match refusal (ac_RefusalReason a) with
  | None => Err ErrInvalid
  | Some (reason, message) =>
      do p <- must_Problem CodeResourceRequirementUnsatisfied FailureStageValidation message ;;
      let p := WithRecommendedAction RecommendedActionWait (WithDetail ReasonDetail reason p) in
      throw (ac_Cause a <>? "") && negb (ValidReason (ac_Cause a)) with ErrInvalid ;;
      let p := if ac_Cause a <>? "" then WithDetail CauseDetail (ac_Cause a) p else p in
      let j := j <| jn_Problem := Some p |> in
      let next := if is_nil (jn_Plan old) then state <| as_Orchestration := OrchestrationQueued |> else state in
      Ok (j, next, EventReconciliationDeferred)
  end.

(** ** Preventing or expiring a dispatch *)
Definition apply_PreventDispatch : outcome :=
  throw jn_SubmitStarted old || OrchestrationState_Terminal (as_Orchestration state)
        || (as_Execution state <>? ExecutionNotSubmitted)
        || (as_RemoteActivity state <>? RemoteActivityNotStarted) && (as_RemoteActivity state <>? RemoteActivityInactive)
    with ErrConflict ;;
  let j := j <| jn_Phase := Prevented |> in
  let next := state <| as_Orchestration := OrchestrationCancelled |> <| as_Cancellation := CancellationPrevented |>
                    <| as_ReleaseEvidence := ReleaseEvidenceNotApplicable |> in
  if ac_Kind a ==? ExpireDispatch then
    throw as_Cancellation state <>? CancellationNotRequested with ErrConflict ;;
    let next := next <| as_Orchestration := OrchestrationTimedOut |> <| as_Cancellation := CancellationNotRequested |>
                     <| as_DeadlineExceeded := true |> in
    do p <- journal_problem CodeRemoteTimeout false ;;
    do p <- (if ac_PreparationExpired a then
               do p <- must_Problem CodeRemoteTimeout FailureStageExecution
                         "Preparation hold has expired; no new execution was requested." ;;
               Ok (Some (WithDetail ReasonDetail "preparation_expired" p))
             else Ok p) ;;
    Ok (j <| jn_Problem := p |>, next, EventReconciliationDeferred)
  else Ok (j, next, EventCancellationRequested).

(** ** Explicit reconciliation *)
Definition apply_RequestReconciliation : outcome :=
  throw ac_OwnerPresent a
        && ((jn_Phase old <>? Attention) || negb (jn_SubmitStarted old) || not_nil (jn_Remote old)
            || (as_Execution state <>? ExecutionUnknown) || (ac_ResourceName a ==? "")
            || (ac_ResourceName a <>? jn_SubmissionResourceName old))
    with ErrConflict ;;
  let j := if ac_OwnerPresent a
           then j <| jn_OwnerSubmissionPresent := true |> <| jn_SubmissionAbsenceObservedAt := None |> else j in
  throw not_nil (Journal_RemoteAbsence old) || ExecutionState_Terminal (as_Execution state)
        || OrchestrationState_Terminal (as_Orchestration state)
        || some_and (jn_Problem old) (fun p => (pb_Code p ==? CodeRemoteIdentityMismatch)
                                                || (pb_Code p ==? CodePrivateStagingUnavailable))
    with ErrConflict ;;
  do j <- (if negb (jn_SubmitStarted old) then
             throw (jn_Phase old <>? Attention) && (jn_Phase old <>? Staging) && (jn_Phase old <>? Ready)
                   || (as_Execution state <>? ExecutionNotSubmitted)
                   || (as_RemoteActivity state <>? RemoteActivityNotStarted)
                   || (as_Cancellation state <>? CancellationNotRequested) || as_DeadlineExceeded state
                   || (as_Orchestration state <>? OrchestrationNeedsAttention)
                      && (as_Orchestration state <>? OrchestrationPreparing)
                      && (as_Orchestration state <>? OrchestrationReconciling)
               with ErrConflict ;;
             Ok (j <| jn_Phase := Staging |>)
           else
             throw (jn_Phase old <>? Attention) && (jn_Phase old <>? Submitting) && (jn_Phase old <>? Submitted)
               with ErrConflict ;;
             Ok (j <| jn_Phase := if not_nil (jn_Remote j) then Submitted else Submitting |>)) ;;
  let j := j <| jn_Failures := 0 |> <| jn_Problem := None |> in
  let next := state <| as_Orchestration :=
                if cancellationPending state then OrchestrationCancelling else OrchestrationReconciling |> in
  Ok (j, next, EventReconciliationRequested).

(** ** Preparation *)
Definition apply_BeginPreparation : outcome :=
  match ac_Plan a with
  | None => Err ErrConflict
  | Some plan =>
      throw (jn_Phase old <>? Local) || not_nil (jn_Plan old) || negb (LocalOnly state)
            || is_nil (rj_Inputs (pl_Job plan)) || not_nil (ResolvedJob_Validate (pl_Job plan))
            || negb (ID_Valid (ac_PreparationID a))
        with ErrConflict ;;
      let j := j <| jn_Plan := Some (Plan_Clone plan) |> <| jn_PreparationID := ac_PreparationID a |>
                 <| jn_Phase := Staging |> <| jn_Problem := None |> <| jn_Failures := 0 |> in
      Ok (j, state <| as_Orchestration := OrchestrationPreparing |>, EventPreparationIntended)
  end.

Definition apply_PreparationSeen : outcome :=
  throw (jn_Phase old <>? Staging) || jn_SubmitStarted old || is_nil (ac_Prepared a) with ErrConflict ;;
  do prepared <- deref (ac_Prepared a) ;;
  do plan <- deref (jn_Plan old) ;;
  throw not_nil (Prepared_Validate prepared plan (jn_PreparationID old)) with ErrConflict ;;
  throw some_and (jn_Prepared old) (fun p => pr_Resource p <>? pr_Resource prepared) with ErrConflict ;;
  let j := j <| jn_Prepared := Some prepared |> <| jn_Problem := None |> <| jn_Failures := 0 |> in
  let '(j, event) := if pr_Ready prepared then (j <| jn_Phase := Ready |>, EventProviderStagingReady)
                     else (j, EventPreparationObserved) in
  let next := state <| as_Orchestration := OrchestrationPreparing |> in
  if negb (pr_Private prepared) then
    do p <- journal_problem CodePrivateStagingUnavailable false ;;
    Ok (j <| jn_Phase := Attention |> <| jn_Problem := p |>,
        next <| as_Orchestration := OrchestrationNeedsAttention |>, EventPreparationObserved)
  else Ok (j, next, event).

Definition apply_EndUnconfirmedPreparation : outcome :=
  throw (jn_Phase old <>? Staging) || is_nil (jn_Plan old) || not_nil (jn_Prepared old) || jn_SubmitStarted old
        || OrchestrationState_Terminal (as_Orchestration state) || (as_Execution state <>? ExecutionNotSubmitted)
        || (as_RemoteActivity state <>? RemoteActivityNotStarted)
        || (as_Cancellation state <>? CancellationNotRequested)
    with ErrConflict ;;
  let j := j <| jn_Phase := Prevented |> in
  do p <- must_Problem CodeStagingNotReady FailureStageProviderPreparation
            "Private staging could not be confirmed within the observation budget; no execution was submitted." ;;
  let p := WithRecommendedAction RecommendedActionFixRequest (WithDetail ReasonDetail "staging_unconfirmed" p) in
  let details := match jn_Problem old with Some o => PublicDetails o | None => None end in
  let first := map_get details ReasonDetail in
  let p := if first <>? "" then WithDetail FirstCauseDetail first p else p in
  let cause := if ac_Cause a ==? "" then map_get details CauseDetail else ac_Cause a in
  let p := if cause <>? "" then WithDetail CauseDetail cause p else p in
  throw (cause <>? "") && (map_get (PublicDetails p) CauseDetail <>? cause) with ErrInvalid ;;
  Ok (j <| jn_Problem := Some p |>,
      state <| as_Orchestration := OrchestrationFailed |> <| as_ReleaseEvidence := ReleaseEvidenceNotApplicable |>,
      EventReconciliationDeferred).

(** ** Submission *)
Definition apply_BeginSubmission : outcome :=
  throw (jn_Phase old <>? Ready) || jn_SubmitStarted old
        || match jn_Prepared old with Some p => negb (pr_Ready p) || negb (pr_Private p) | None => true end
        || negb (LocalOnly state) || (as_Cancellation state <>? CancellationNotRequested)
    with ErrConflict ;;
  let j := j <| jn_SubmitStarted := true |> in
  let j := match ac_StartAuthorization a with
           | Some auth => j <| jn_StartAuthorization := Some (StartAuthorization_Clone auth) |>
           | None => j
           end in
  let j := j <| jn_Phase := Submitting |> <| jn_Problem := None |> <| jn_Failures := 0 |> in
  Ok (j, state <| as_Orchestration := OrchestrationDispatching |> <| as_Execution := ExecutionUnknown |>
               <| as_RemoteActivity := RemoteActivityPossible |>, EventSubmissionIntentRecorded).

(** The codes a rejection keeps; any other becomes [CodeProviderRejected]. *)
Definition rejection_code (code : ErrorCode) : ErrorCode :=
  match code with
  | CodeProviderRateLimited | CodeQuotaExhausted | CodeProviderAuthFailed | CodeProviderAccessDenied
  | CodeRemoteTimeout => code
  | _ => CodeProviderRejected
  end.

(** [j.Problem.Details = d] through the pointer. *)
Definition set_details (d : option (gmap string string)) (p : option Problem) : option Problem := with_Details d <$> p.

(** The last part of the case, after the absence rules; [j] may already carry
    the resource name. *)
Definition apply_submission (j : Journal) (submission : option SubmissionOutcome) : outcome :=
  throw (jn_Phase old <>? Submitting) && (ac_Kind a <>? OwnerSubmissionAbsent) || negb (jn_SubmitStarted old)
        || not_nil (jn_Remote old) || is_nil submission
    with ErrConflict ;;
  do submission <- deref submission ;;
  do plan <- deref (jn_Plan old) ;;
  throw not_nil (SubmissionOutcome_Validate submission (rj_Identity (pl_Job plan))) with ErrConflict ;;
  match so_Status submission with
  | SubmissionAccepted =>
      do remote <- deref (so_Remote submission) ;;
      Ok (j <| jn_Remote := Some remote |> <| jn_Phase := Submitted |> <| jn_Problem := None |> <| jn_Failures := 0 |>,
          state <| as_Orchestration :=
            if cancellationPending state then OrchestrationCancelling else OrchestrationSubmitted |>,
          EventSubmissionAccepted)
  | SubmissionRejected =>
      let code := match so_Problem submission with
                  | Some p => rejection_code (pb_Code p) | None => CodeProviderRejected end in
      do p <- journal_problem code false ;;
      let p := match so_Problem submission with Some sp => set_details (PublicDetails sp) p | None => p end in
      let next := state <| as_Orchestration := OrchestrationFailed |> <| as_Execution := ExecutionNotSubmitted |>
                        <| as_RemoteActivity := RemoteActivityInactive |>
                        <| as_ReleaseEvidence := ReleaseEvidenceNotApplicable |> in
      let next := if code ==? CodeRemoteTimeout
                  then next <| as_Orchestration := OrchestrationTimedOut |> <| as_DeadlineExceeded := true |>
                  else next in
      let next := if as_Cancellation state <>? CancellationNotRequested
                  then next <| as_Orchestration := OrchestrationCancelled |> <| as_Cancellation := CancellationPrevented |>
                  else next in
      Ok (j <| jn_Phase := Rejected |> <| jn_Problem := p |>, next, EventSubmissionRejected)
  | SubmissionUnknown =>
      do p <- journal_problem CodeProviderSubmissionUnknown true ;;
      do j <- match so_Problem submission with
              | Some sp =>
                  do p <- deref p ;;
                  let p := with_Details (PublicDetails sp) p in
                  let j := j <| jn_Problem := Some p |> in
                  let j := match jn_SubmissionProblem j with
                           | None => j <| jn_SubmissionProblem := Some p |> | Some _ => j end in
                  Ok (j <| jn_SubmissionResourceName := detail p "resource_name" |>)
              | None => Ok (j <| jn_Problem := p |>)
              end ;;
      Ok (j, state <| as_Orchestration := OrchestrationReconciling |>, EventSubmissionUnknown)
  | SubmissionOther _ => Ok (j, state, EventTypeOther "")
  end.

Definition apply_SubmissionAbsence : outcome :=
  throw (jn_Phase old <>? Submitting) && (jn_Phase old <>? Attention) || negb (jn_SubmitStarted old)
        || not_nil (jn_Remote old) || (ac_Kind a ==? SubmissionAbsenceSeen) && jn_OwnerSubmissionPresent old
        || (as_Execution state <>? ExecutionUnknown) || OrchestrationState_Terminal (as_Orchestration state)
        || negb (ValidResourceName (ac_ResourceName a))
        || (jn_SubmissionResourceName old <>? "") && (jn_SubmissionResourceName old <>? ac_ResourceName a)
    with ErrConflict ;;
  let j := j <| jn_SubmissionResourceName := ac_ResourceName a |> in
  let too_early := match jn_SubmissionAbsenceObservedAt old with
                   | None => true | Some at_ => Before now (at_ + SubmissionAbsenceGrace) end in
  if (ac_Kind a <>? OwnerSubmissionAbsent) && too_early then
    let j := match jn_SubmissionAbsenceObservedAt old with
             | None => j <| jn_SubmissionAbsenceObservedAt := Some now |> | Some _ => j end in
    let j := j <| jn_Phase := Submitting |> in
    let j := j <| jn_Failures := Z.max 1 (jn_Failures j) |> in
    do p <- journal_problem CodeProviderSubmissionUnknown true ;;
    do p <- deref p ;;
    let p := WithDetail "resource_name" (ac_ResourceName a)
               (WithDetail ReasonDetail "submission_absence_confirming" p) in
    Ok (j <| jn_Problem := Some p |>, state <| as_Orchestration := OrchestrationReconciling |>,
        EventReconciliationDeferred)
  else
    let reason := if ac_Kind a ==? OwnerSubmissionAbsent then "submission_absent_owner_confirmed"
                  else "submission_absent_owned_list" in
    do p <- must_Problem CodeProviderRejected FailureStageSubmission
              "Submission resolved absent; a replacement requires a new attempt" ;;
    let p := WithDetail "resource_name" (ac_ResourceName a) (WithDetail ReasonDetail reason p) in
    apply_submission j (Some (mkSubmissionOutcome SubmissionRejected None (Some p))).

Definition apply_SubmissionSeen : outcome :=
  if ac_Kind a <>? SubmissionSeen then apply_SubmissionAbsence else apply_submission j (ac_Submission a).

(** ** Observation *)
Definition apply_RemoteAbsenceSeen : outcome :=
  match jn_Remote old, ac_Absence a with
  | Some remote, Some absence =>
      throw (jn_Phase old <>? Submitted) || (ra_Remote absence <>? remote) || negb (ValidTime (ra_ObservedAt absence))
            || After (ra_ObservedAt absence) now
            || some_and (jn_Observation old) (fun o => negb (After (ra_ObservedAt absence) (ob_ObservedAt o)))
        with ErrConflict ;;
      do p <- must_Problem CodeRemoteExecutionUnresolved FailureStageOperation
                "The exact remote resource is absent; final execution outcome and results remain unknown" ;;
      let p := WithRecommendedAction RecommendedActionInspectProvider
                 (WithRetrySemantics false true
                   (WithDetail remoteAbsenceDetail (FormatRFC3339Nano (ra_ObservedAt absence))
                     (WithDetail ReasonDetail "remote_not_found" p))) in
      let next := state <| as_Orchestration := OrchestrationNeedsAttention |> <| as_Execution := ExecutionUnknown |>
                        <| as_RemoteActivity := RemoteActivityInactive |>
                        <| as_ReleaseEvidence := ReleaseEvidenceProviderReported |> in
      let next := if cancellationPending state then next <| as_Cancellation := CancellationManual |> else next in
      Ok (j <| jn_Phase := Attention |> <| jn_Problem := Some p |>, next, EventReconciliationDeferred)
  | _, _ => Err ErrConflict
  end.

(** The attempt state an observation asks for. *)
Definition observed_state (obs : Observation) : AttemptState :=
  let next := state <| as_Execution := ob_Execution obs |> <| as_RemoteActivity := ob_RemoteActivity obs |>
                    <| as_ReleaseEvidence := ob_ReleaseEvidence obs |> in
  let terminal := ExecutionState_Terminal (ob_Execution obs) in
  let next :=
    if ob_Execution obs ==? ExecutionUnknown then
      next <| as_Execution := as_Execution state |> <| as_RemoteActivity := as_RemoteActivity state |>
           <| as_ReleaseEvidence := as_ReleaseEvidence state |> <| as_Orchestration := OrchestrationReconciling |>
    else if terminal then
      let next := next <| as_Orchestration := OrchestrationCollecting |> in
      let next := if ob_Execution obs ==? ExecutionTimedOut then next <| as_DeadlineExceeded := true |> else next in
      if as_Cancellation state <>? CancellationNotRequested then
        next <| as_Cancellation := if ob_Execution obs ==? ExecutionCancelled then CancellationConfirmed
                                   else CancellationTooLate |>
      else next
    else if (ob_Execution obs ==? ExecutionRunning) || (ob_Execution obs ==? ExecutionStarting) then
      next <| as_Orchestration := OrchestrationRunning |>
    else next <| as_Orchestration := OrchestrationSubmitted |> in
  let next := if negb terminal && cancellationPending state
              then next <| as_Orchestration := OrchestrationCancelling |> else next in
  if negb terminal && (as_Cancellation state ==? CancellationManual)
  then next <| as_Orchestration := OrchestrationNeedsAttention |> else next.

(** [obs.RawState = string(obs.Execution)]. *)
Definition summarized (obs : Observation) : Observation :=
  mkObservation (ob_Remote obs) (ob_Execution obs) (ExecutionState_string (ob_Execution obs)) (ob_RemoteActivity obs)
    (ob_ReleaseEvidence obs) (ob_ObservedAt obs).

Definition apply_ObservationSeen : outcome :=
  match jn_Remote old, ac_Observation a with
  | Some remote, Some obs =>
      throw (jn_Phase old <>? Submitted) || not_nil (Observation_Validate obs remote) with ErrConflict ;;
      throw After (ob_ObservedAt obs) now
            || some_and (jn_Observation old) (fun o => negb (After (ob_ObservedAt obs) (ob_ObservedAt o)))
        with ErrStaleObservation ;;
      let next := observed_state obs in
      let unknown := ob_Execution obs ==? ExecutionUnknown in
      let j := if negb unknown && ExecutionState_Terminal (ob_Execution obs) then j <| jn_Phase := Collectible |> else j in
      throw not_nil (ValidateAttemptStateTransition state next) with ErrStaleObservation ;;
      let j := j <| jn_Observation := Some (summarized obs) |> <| jn_Problem := None |> <| jn_Failures := 0 |> in
      if unknown then
        let failures := Z.min (jn_Failures old + 1) MaxFailures in
        do p <- journal_problem CodeProviderStateUnknown true ;;
        let j := j <| jn_Failures := failures |> <| jn_Problem := p |> in
        if failures =? MaxFailures then
          let next := next <| as_Orchestration := OrchestrationNeedsAttention |> in
          let next := if cancellationPending state then next <| as_Cancellation := CancellationManual |> else next in
          Ok (j <| jn_Phase := Attention |>, next, EventExecutionObserved)
        else Ok (j, next, EventExecutionObserved)
      else Ok (j, next, EventExecutionObserved)
  | _, _ => Err ErrConflict
  end.

(** ** Faults *)
(** Codes that end a purely local attempt at once. *)
Definition local_permanent (code : ErrorCode) : bool :=
  match code with
  | CodeInputNotFound | CodeInputDigestMismatch | CodeInputTooLarge | CodeInvalidInputPath
  | CodeUnsupportedCapability | CodeResourceRequirementUnsatisfied => true
  | _ => false
  end.
Definition permanent_code (code : ErrorCode) : bool :=
  (code ==? CodeRemoteIdentityMismatch) || (code ==? CodePrivateStagingUnavailable).

(** Add a detail that the public projection must keep. *)
Definition closed_detail (key value : string) (p : Problem) : result apply_error Problem :=
  let p := WithDetail key value p in
  throw map_get (PublicDetails p) key <>? value with ErrInvalid ;; Ok p.

(** The problem of a fault, before the local or remote policy. *)
Definition fault_problem : result apply_error Problem :=
  let may := jn_SubmitStarted old && (jn_Phase old <>? Rejected) in
  do p <- journal_problem (ac_Code a) may ;;
  match p with
  | None => Err ErrInvalid
  | Some p =>
      let p := match ac_Details a with Some d => with_Details (public_details (Some d)) p | None => p end in
      let reason :=
        if (ac_Reason a ==? "") && some_and (jn_Problem old) (fun o => pb_Stage o ==? pb_Stage p)
        then match jn_Problem old with Some o => map_get (PublicDetails o) ReasonDetail | None => "" end
        else ac_Reason a in
      do p <- (if reason <>? "" then closed_detail ReasonDetail reason p else Ok p) ;;
      if ac_Cause a <>? "" then closed_detail CauseDetail (ac_Cause a) p else Ok p
  end.

(** The resource name a fault of a possible submission carries. *)
Definition fault_resource : string :=
  match ac_Details a with
  | Some d => if jn_SubmitStarted old && is_nil (jn_Remote old) then map_get (public_details (Some d)) "resource_name" else ""
  | None => ""
  end.

(** A failure before any provider was asked for anything. *)
Definition fault_local (j : Journal) (p : Problem) : Journal * AttemptState :=
  let started := default now (journalTime (journalDetail old localFailureDetail)) in
  let p := WithDetail localFailureDetail (FormatRFC3339Nano started) p in
  let permanent := permanent_code (ac_Code a) || local_permanent (ac_Code a) in
  if permanent || negb (Before now (started + LocalFailureBudget)) then
    let p := if pb_RecommendedAction p ==? RecommendedActionReconcile
             then WithRecommendedAction RecommendedActionFixRequest p else p in
    (j <| jn_Phase := Failed |> <| jn_Problem := Some p |>,
     state <| as_Orchestration := OrchestrationFailed |> <| as_ReleaseEvidence := ReleaseEvidenceNotApplicable |>)
  else
    (j <| jn_Problem := Some (WithRetrySemantics true false (WithRecommendedAction RecommendedActionWait p)) |>,
     state <| as_Orchestration := OrchestrationQueued |>).

(** A failure after a provider was asked: observe, then ask for attention. *)
Definition fault_remote (j : Journal) (p : Problem) : Journal * AttemptState :=
  let may := jn_SubmitStarted old && (jn_Phase old <>? Rejected) in
  let j := j <| jn_Problem := Some p |> in
  let next := state <| as_Orchestration := if may then OrchestrationReconciling else OrchestrationPreparing |> in
  if permanent_code (ac_Code a) || (jn_Failures j =? MaxFailures) && negb (unconfirmedPreparation old) then
    let next := next <| as_Orchestration := OrchestrationNeedsAttention |> in
    (j <| jn_Phase := Attention |>,
     if cancellationPending state then next <| as_Cancellation := CancellationManual |> else next)
  else (j, next).

Definition apply_Fault : outcome :=
  throw (jn_Phase old ==? Rejected) || (jn_Phase old ==? Failed) || (jn_Phase old ==? Collectible)
        || (jn_Phase old ==? Attention) || (jn_Phase old ==? Prevented)
    with ErrConflict ;;
  let j := if unconfirmedPreparation old && is_nil (jn_PreparationObservationStarted j)
           then j <| jn_PreparationObservationStarted := Some now |> else j in
  let j := j <| jn_Failures := Z.min (jn_Failures j + 1) MaxFailures |> in
  do p <- fault_problem ;;
  let j := if fault_resource <>? "" then j <| jn_SubmissionResourceName := fault_resource |> else j in
  let '(j, next) := if is_nil (jn_Plan old) then fault_local j p else fault_remote j p in
  Ok (j, next, EventReconciliationDeferred).

Definition apply_case : outcome :=
  match ac_Kind a with
  | RefuseNewWork => apply_RefuseNewWork
  | PreventDispatch | ExpireDispatch => apply_PreventDispatch
  | RequestReconciliation => apply_RequestReconciliation
  | BeginPreparation => apply_BeginPreparation
  | PreparationSeen => apply_PreparationSeen
  | EndUnconfirmedPreparation => apply_EndUnconfirmedPreparation
  | BeginSubmission => apply_BeginSubmission
  | SubmissionSeen | SubmissionAbsenceSeen | OwnerSubmissionAbsent => apply_SubmissionSeen
  | RemoteAbsenceSeen => apply_RemoteAbsenceSeen
  | ObservationSeen => apply_ObservationSeen
  | Fault => apply_Fault
  | KindOther _ => Err ErrInvalid
  end.
End Cases.

(** ** After the switch *)
(** Details of the first submission problem stay visible, its reason apart. *)
Definition merge_submission (sp : Problem) (p : Problem) : Problem :=
  map_fold (fun key value p => if (key <>? ReasonDetail) && (detail p key ==? "") then WithDetail key value p else p)
    p (default ∅ (PublicDetails sp)).
Definition merge_details (j : Journal) : Journal :=
  let j := match jn_Problem j, jn_SubmissionProblem j with
           | Some p, Some sp => j <| jn_Problem := Some (merge_submission sp p) |>
           | _, _ => j
           end in
  match jn_Problem j with
  | Some p => if jn_SubmissionResourceName j <>? ""
              then j <| jn_Problem := Some (WithDetail "resource_name" (jn_SubmissionResourceName j) p) |> else j
  | None => j
  end.

Definition Apply (old : Journal) (state : AttemptState) (a : Action) (now : Time) : outcome :=
  throw negb (Journal_Valid old) || not_nil (AttemptState_Validate state) || negb (ValidTime now)
        || (jn_Version old =? MaxInt64)
    with ErrInvalid ;;
  match reload old with
  | None => Err ErrInvalid
  | Some j =>
      do '(j, next, event) <- apply_case old j state a now ;;
      let j := merge_details j in
      let j := j <| jn_Version := jn_Version j + 1 |> in
      throw negb (Journal_Valid j) || not_nil (ValidateAttemptStateTransition state next) with ErrInvalid ;;
      Ok (j, next, event)
  end.
