(* ===== verification/ApplyLemmas.v ===== *)
(** * The journal state machine: lemmas

    Facts shared by the properties of [Apply]: what a valid journal
    guarantees, what each case leaves unchanged, and how a successful step
    decomposes. *)

From S2P Require Import Prelude GoStrings GoTime GoJson Identifiers Problems DomainRecords AttemptStates AttemptRuns Attempts Operations Provider ProviderResources Scheduler Journal JournalLemmas Apply.
#[local] Open Scope string_scope.
#[local] Open Scope list_scope.
#[local] Open Scope Z_scope.
#[local] Open Scope bool_scope.

#[local] Opaque must_Problem journal_problem.

(** ** Valid journals *)
(** A constant that is not in a list of constants. *)
Ltac not_member H := exfalso; revert H; apply (bool_decide_eq_false_1 _); vm_compute; reflexivity.

Lemma guard_true (c k : bool) : (if c then false else k) = true <-> c = false /\ k = true.
Proof. destruct c, k; naive_solver. Qed.
Lemma some_and_false {A} (x : option A) p : some_and x p = false <-> forall a, x = Some a -> p a = false.
Proof. destruct x; cbn; naive_solver. Qed.

Lemma Journal_Valid_split j :
  Journal_Valid j = true <->
  valid_evidence j = true /\
  match jn_Plan j with None => valid_without_plan j = true | Some plan => valid_with_plan j plan = true end.
Proof. unfold Journal_Valid. rewrite guard_true, negb_false_iff. by destruct (jn_Plan j). Qed.

Lemma valid_no_plan j :
  Journal_Valid j = true -> jn_Plan j = None ->
  (jn_Phase j = Local \/ jn_Phase j = Failed \/ jn_Phase j = Prevented) /\ jn_SubmitStarted j = false /\
  jn_Prepared j = None /\ jn_Remote j = None /\ jn_Observation j = None.
Proof.
  rewrite Journal_Valid_split. intros [_ H] Hp. rewrite Hp in H. unfold valid_without_plan in H. bool_to_prop.
  rewrite !orb_true_iff, !bool_decide_eq_true in *.
  destruct (jn_Prepared j), (jn_Remote j), (jn_Observation j); naive_solver.
Qed.

(** The guards of [valid_with_plan], as propositions. *)
Record planned (j : Journal) (plan : Plan) : Prop := {
  pn_job : ResolvedJob_Validate (pl_Job plan) = None;
  pn_inputs : is_Some (rj_Inputs (pl_Job plan));
  pn_id : ID_Valid (jn_PreparationID j) = true;
  pn_prepared p : jn_Prepared j = Some p -> Prepared_Validate p plan (jn_PreparationID j) = None;
  pn_ready : jn_Phase j = Ready \/ jn_SubmitStarted j = true ->
             exists p, jn_Prepared j = Some p /\ pr_Ready p = true /\ pr_Private p = true;
  pn_phase : jn_Phase j <> Local /\ jn_Phase j <> Failed;
  pn_unsubmitted : jn_Phase j = Staging \/ jn_Phase j = Ready -> jn_SubmitStarted j = false;
  pn_submitting : jn_Phase j = Submitting \/ jn_Phase j = Rejected -> jn_Remote j = None /\ jn_Observation j = None;
  pn_collectible : jn_Phase j = Collectible ->
             exists o, jn_Observation j = Some o /\ terminal_exec (ob_Execution o);
  pn_started : jn_Phase j ∈ [Submitting; Submitted; Rejected; Collectible] -> jn_SubmitStarted j = true;
  pn_remote r : jn_Remote j = Some r -> jn_SubmitStarted j = true /\ RemoteReference_Validate r = None /\
             rr_Identity r = rj_Identity (pl_Job plan);
  pn_submitted : jn_Phase j = Submitted \/ jn_Phase j = Collectible -> is_Some (jn_Remote j);
  pn_observed o : jn_Observation j = Some o ->
             exists r, jn_Remote j = Some r /\ Observation_Validate o r = None }.

Lemma not_nil_false {A} (x : option A) : not_nil x = false <-> x = None.
Proof. destruct x; naive_solver. Qed.
Lemma is_nil_false {A} (x : option A) : is_nil x = false <-> is_Some x.
Proof. by destruct x; cbn; split; intros H. Qed.

Lemma valid_plan j plan : Journal_Valid j = true -> jn_Plan j = Some plan -> planned j plan.
Proof.
  rewrite Journal_Valid_split. intros [_ H] Hp. rewrite Hp in H. unfold valid_with_plan in H.
  rewrite !guard_true in H. destruct H as (H1 & H2 & H3 & H4 & H5 & H6 & _ & H8 & _ & H10 & H11 & H12 & H13 & _).
  rewrite ?some_and_false in *. bool_to_prop. rewrite ?andb_false_iff, ?orb_false_iff in *.
  constructor; try done.
  - by apply not_nil_false.
  - destruct (rj_Inputs (pl_Job plan)); [by eexists|done].
  - intros p Hpr. by apply not_nil_false, H2.
  - intros Hr. destruct H3 as [[H3 H3']|H3]; [destruct Hr; bool_to_prop; congruence|].
    destruct (jn_Prepared j) as [p|]; [|done]. bool_to_prop. by exists p.
  - intros Hr. destruct H5 as [[H5 H5']|H5]; [bool_to_prop; naive_solver|done].
  - intros Hr. destruct H6 as [[H6 H6']|[H6 H6']]; [bool_to_prop; naive_solver|by rewrite !not_nil_false in *].
  - intros Hr. destruct H8 as [H8|H8]; [bool_to_prop; done|].
    destruct (jn_Observation j) as [o|]; [|done]. bool_to_prop. by exists o.
  - intros Hr. destruct H10 as [H10|H10]; [|by bool_to_prop]. destruct_and?. bool_to_prop.
    rewrite !elem_of_cons, elem_of_nil in Hr. destruct Hr as [?|[?|[?|[?|[]]]]]; congruence.
  - intros r Hr. specialize (H11 r Hr). bool_to_prop. by rewrite not_nil_false in *.
  - intros Hr. destruct H12 as [[H12 H12']|H12]; [bool_to_prop; naive_solver|by apply is_nil_false].
  - intros o Ho. specialize (H13 o Ho). destruct (jn_Remote j) as [r|]; [|done]. exists r. by rewrite not_nil_false in H13.
Qed.

Lemma valid_phase_known j raw : Journal_Valid j = true -> jn_Phase j <> PhaseOther raw.
Proof.
  rewrite Journal_Valid_split. intros [H _] E. unfold valid_evidence in H. rewrite !guard_true in H.
  destruct_and?. by rewrite E in *.
Qed.
Lemma valid_bounds j :
  Journal_Valid j = true -> 0 <= jn_Version j /\ 0 <= jn_Failures j <= MaxFailures /\
  (jn_Phase j = Prevented -> jn_SubmitStarted j = false).
Proof.
  rewrite Journal_Valid_split. intros [H _]. unfold valid_evidence in H. rewrite !guard_true in H.
  destruct_and?. bool_to_prop. split_and!; try lia. intros E. rewrite E in *. cbn in *.
  rewrite ?andb_false_iff in *. naive_solver.
Qed.

(** A plan exists once the phase says so. *)
Lemma valid_has_plan j :
  Journal_Valid j = true ->
  jn_Phase j ∈ [Staging; Ready; Submitting; Submitted; Rejected; Collectible; Attention] \/ jn_SubmitStarted j = true ->
  exists plan, jn_Plan j = Some plan.
Proof.
  intros Hv H. destruct (jn_Plan j) as [plan|] eqn:E; [by exists plan|].
  destruct (valid_no_plan _ Hv E) as (Hp & Hs & _). destruct H as [H|H]; [|congruence].
  destruct Hp as [Hp|[Hp|Hp]]; rewrite Hp in H; not_member H.
Qed.

Lemma reload_phase old j : Journal_Valid old = true -> reload old = Some j -> jn_Phase j = jn_Phase old.
Proof.
  intros Hv ->%reload_Some. cbn. apply reload_Phase. intros raw. by apply valid_phase_known.
Qed.

(** ** Following one case

    [outcome_cases H] walks through the guards and branches of a case that
    returned [Ok], leaving one goal per path. *)
Ltac outcome_step H :=
  match type of H with
  | Err _ = Ok _ => discriminate H
  | (if ?c then Err _ else _) = _ => destruct c eqn:?; [discriminate H|]
  | (let _ := _ in _) = _ => cbv zeta in H
  | result_bind (if ?c then _ else _) _ = _ => destruct c eqn:?; cbn [result_bind] in H
  | result_bind (match ?x with _ => _ end) _ = _ => destruct x eqn:?; cbn [result_bind] in H
  | result_bind (result_bind ?r _) _ = _ => destruct r eqn:?; cbn [result_bind] in H; [|discriminate H]
  | result_bind (Ok _) _ = _ => cbn [result_bind] in H
  | result_bind ?r _ = _ => destruct r eqn:?; cbn [result_bind] in H; [|discriminate H]
  | (let '(_, _) := (if ?c then _ else _) in _) = _ => destruct c eqn:?
  | (if ?c then _ else _) = _ => destruct c eqn:?
  | (match ?x with _ => _ end) = _ => destruct x eqn:?; try discriminate H
  end.
Ltac outcome_cases H := cbv zeta in H; repeat (outcome_step H; cbv zeta in H); injection H as <- <- <-.
(** Case analysis on the conditionals left in the resulting records. *)
Ltac field_cases :=
  repeat (match goal with
          | |- context [if ?c then _ else _] => destruct c
          | |- context [match ?x with _ => _ end] => destruct x
          end; cbn).

(** What every case leaves alone, by kind of action. *)
Definition case_frame (a : Action) (now : Time) (j j1 : Journal) : Prop :=
  jn_Version j1 = jn_Version j /\
  (ac_Kind a = BeginPreparation \/ jn_Plan j1 = jn_Plan j /\ jn_PreparationID j1 = jn_PreparationID j) /\
  (ac_Kind a = PreparationSeen \/ jn_Prepared j1 = jn_Prepared j) /\
  (ac_Kind a = BeginSubmission \/
     jn_SubmitStarted j1 = jn_SubmitStarted j /\ jn_StartAuthorization j1 = jn_StartAuthorization j) /\
  (ac_Kind a = SubmissionSeen \/ jn_Remote j1 = jn_Remote j) /\
  (ac_Kind a = ObservationSeen \/ jn_Observation j1 = jn_Observation j) /\
  (jn_SubmissionAbsenceObservedAt j1 = jn_SubmissionAbsenceObservedAt j \/ jn_SubmissionAbsenceObservedAt j1 = None \/
   ac_Kind a = SubmissionAbsenceSeen /\ jn_SubmissionAbsenceObservedAt j1 = Some now).

Section Frames.
Context (old j : Journal) (s : AttemptState) (a : Action) (now : Time) (j1 : Journal) (s1 : AttemptState) (e : EventType).

Lemma frame_RefuseNewWork : apply_RefuseNewWork old j s a = Ok (j1, s1, e) -> case_frame a now j j1.
Proof. unfold apply_RefuseNewWork, case_frame. intros H. outcome_cases H; cbn; auto 10. Qed.
Lemma frame_PreventDispatch : apply_PreventDispatch old j s a = Ok (j1, s1, e) -> case_frame a now j j1.
Proof. unfold apply_PreventDispatch, case_frame. intros H. outcome_cases H; cbn; auto 10. Qed.
Lemma frame_RequestReconciliation : apply_RequestReconciliation old j s a = Ok (j1, s1, e) -> case_frame a now j j1.
Proof. unfold apply_RequestReconciliation, case_frame. intros H. outcome_cases H; cbn; auto 10; field_cases; auto 10. Qed.
Lemma frame_BeginPreparation : ac_Kind a = BeginPreparation -> apply_BeginPreparation old j s a = Ok (j1, s1, e) -> case_frame a now j j1.
Proof. unfold apply_BeginPreparation, case_frame. intros Hk H. outcome_cases H; cbn; auto 10. Qed.
Lemma frame_PreparationSeen : ac_Kind a = PreparationSeen -> apply_PreparationSeen old j s a = Ok (j1, s1, e) -> case_frame a now j j1.
Proof. unfold apply_PreparationSeen, case_frame. intros Hk H. outcome_cases H; cbn; auto 10. Qed.
Lemma frame_EndUnconfirmedPreparation : apply_EndUnconfirmedPreparation old j s a = Ok (j1, s1, e) -> case_frame a now j j1.
Proof. unfold apply_EndUnconfirmedPreparation, case_frame. intros H. outcome_cases H; cbn; auto 10. Qed.
Lemma frame_BeginSubmission : ac_Kind a = BeginSubmission -> apply_BeginSubmission old j s a = Ok (j1, s1, e) -> case_frame a now j j1.
Proof. unfold apply_BeginSubmission, case_frame. intros Hk H. outcome_cases H; cbn; field_cases; auto 10. Qed.

(** The common end of the submission cases: the remote reference is recorded
    only by an accepted outcome. *)
Lemma frame_submission j0 sub :
  apply_submission old s a j0 sub = Ok (j1, s1, e) ->
  ac_Kind a = SubmissionSeen \/ (exists o, sub = Some o /\ so_Status o = SubmissionRejected) ->
  case_frame a now j0 j1.
Proof.
  unfold apply_submission. intros H Hk.
  destruct (_ || _) in H; [done|]. destruct sub as [o|]; [cbn [deref result_bind] in H|done].
  assert (so_Status o = SubmissionAccepted -> ac_Kind a = SubmissionSeen) as Hacc.
  { intros Ho. destruct Hk as [Hk|(o' & [= <-] & Ho')]; [done|congruence]. } clear Hk.
  destruct (jn_Plan old); [cbn [deref result_bind] in H|done]. destruct (not_nil _) in H; [done|].
  destruct (so_Status o); unfold case_frame.
  - destruct (so_Remote o); [cbn [deref result_bind] in H|done]. injection H as <- <- <-. cbn. auto 10.
  - destruct (journal_problem _ _) in H; [cbn [result_bind] in H|done]. injection H as <- <- <-. cbn. auto 10.
  - destruct (journal_problem _ _) as [q|] in H; [cbn [result_bind] in H|done]. destruct (so_Problem o).
    + destruct q; [cbn in H|done]. injection H as <- <- <-. cbn.
      destruct (jn_SubmissionProblem j0); cbn; auto 10.
    + injection H as <- <- <-. cbn. auto 10.
  - injection H as <- <- <-. auto 10.
Qed.
Lemma frame_SubmissionSeen :
  ac_Kind a ∈ [SubmissionSeen; SubmissionAbsenceSeen; OwnerSubmissionAbsent] ->
  apply_SubmissionSeen old j s a now = Ok (j1, s1, e) -> case_frame a now j j1.
Proof.
  intros Hin. unfold apply_SubmissionSeen. case_bool_decide as Hk; cbn; [intros H; apply frame_submission in H; auto|].
  assert (ac_Kind a = SubmissionAbsenceSeen \/ ac_Kind a = OwnerSubmissionAbsent) as HK.
  { rewrite !elem_of_cons, elem_of_nil in Hin. naive_solver. }
  clear Hin Hk. unfold apply_SubmissionAbsence. intros H. cbv zeta in H. repeat (outcome_step H; cbv zeta in H).
  1:{ injection H as <- <- <-. unfold case_frame. cbn. bool_to_prop.
      destruct HK as [HK|HK]; [|exfalso; congruence].
      destruct (jn_SubmissionAbsenceObservedAt old); cbn; auto 10. }
  all: apply frame_submission in H; [exact H|right; eexists; split; reflexivity].
Qed.
Lemma frame_RemoteAbsenceSeen : apply_RemoteAbsenceSeen old j s a now = Ok (j1, s1, e) -> case_frame a now j j1.
Proof. unfold apply_RemoteAbsenceSeen, case_frame. intros H. outcome_cases H; cbn; auto 10. Qed.
Lemma frame_ObservationSeen : ac_Kind a = ObservationSeen -> apply_ObservationSeen old j s a now = Ok (j1, s1, e) -> case_frame a now j j1.
Proof. unfold apply_ObservationSeen, case_frame. intros Hk H. outcome_cases H; cbn; field_cases; auto 10. Qed.
Lemma frame_Fault : apply_Fault old j s a now = Ok (j1, s1, e) -> case_frame a now j j1.
Proof.
  unfold apply_Fault, case_frame, fault_local, fault_remote. intros H.
  destruct (_ || _) in H; [done|]. destruct (fault_problem old a) as [p|]; [|done]. cbn [result_bind] in H.
  cbv zeta in H. destruct (is_nil (jn_Plan old)); [destruct (_ || _) in H|destruct (_ || _) in H];
    injection H as <- <- <-; cbn; destruct (fault_resource old a <>? ""), (_ && _); cbn; auto 10.
Qed.

Lemma frame_case : apply_case old j s a now = Ok (j1, s1, e) -> case_frame a now j j1.
Proof.
  unfold apply_case. destruct (ac_Kind a) eqn:Hk; intros H;
    eauto using frame_RefuseNewWork, frame_PreventDispatch, frame_RequestReconciliation, frame_BeginPreparation,
      frame_PreparationSeen, frame_EndUnconfirmedPreparation, frame_BeginSubmission, frame_SubmissionSeen,
      frame_RemoteAbsenceSeen, frame_ObservationSeen, frame_Fault.
  all: try (eapply frame_SubmissionSeen; [rewrite Hk; by apply (bool_decide_unpack _)|done]).
Qed.
End Frames.

(** ** Decomposing a step *)
(** [merge_details] touches only the problem. *)
Lemma merge_details_problem j : exists q, merge_details j = j <| jn_Problem := q |> /\ (jn_Problem j = None <-> q = None).
Proof.
  unfold merge_details. destruct j as [? ? ? ? ? ? ? sp ? name ? ? ? ? p ?]. cbn.
  destruct p as [p|]; [|by exists None]. destruct sp as [sp|]; cbn; (destruct (name <>? ""); [|by eexists]).
  - by exists (Some (WithDetail "resource_name" name (merge_submission sp p))).
  - by exists (Some (WithDetail "resource_name" name p)).
Qed.

Record applied (old : Journal) (s : AttemptState) (a : Action) (now : Time) (j' : Journal) (s' : AttemptState)
    (e : EventType) (j1 : Journal) : Prop := {
  ap_valid : Journal_Valid old = true;
  ap_state : consistent s;
  ap_now : ValidTime now = true;
  ap_version : jn_Version old <> MaxInt64;
  ap_reload : reload old = Some (reload_journal old);
  ap_case : apply_case old (reload_journal old) s a now = Ok (j1, s', e);
  ap_next : j' = merge_details j1 <| jn_Version := jn_Version (merge_details j1) + 1 |>;
  ap_valid' : Journal_Valid j' = true;
  ap_step : attempt_step s s' }.

Lemma Apply_applied old s a now j' s' e :
  Apply old s a now = Ok (j', s', e) -> exists j1, applied old s a now j' s' e j1.
Proof.
  unfold Apply. destruct (_ || _) eqn:E1; [done|]. bool_to_prop. destruct (reload old) as [j|] eqn:E2; [|done].
  pose proof (reload_Some _ _ E2) as ->. destruct (apply_case _ _ _ _ _) as [[[j1 s1] e1]|] eqn:E3; [|done]. cbn [result_bind].
  cbv zeta. destruct (_ || _) eqn:E4; [done|]. bool_to_prop. intros [= <- <- <-]. exists j1.
  rewrite not_nil_false in *. constructor; first [done|by apply Validate_spec|by apply Z.eqb_neq].
Qed.

(** Every field but the problem and the version comes from the case. *)
Lemma applied_fields old s a now j' s' e j1 :
  applied old s a now j' s' e j1 ->
  jn_Phase j' = jn_Phase j1 /\ jn_Plan j' = jn_Plan j1 /\ jn_PreparationID j' = jn_PreparationID j1 /\
  jn_Prepared j' = jn_Prepared j1 /\ jn_SubmitStarted j' = jn_SubmitStarted j1 /\
  jn_SubmissionProblem j' = jn_SubmissionProblem j1 /\
  jn_SubmissionAbsenceObservedAt j' = jn_SubmissionAbsenceObservedAt j1 /\
  jn_SubmissionResourceName j' = jn_SubmissionResourceName j1 /\ jn_StartAuthorization j' = jn_StartAuthorization j1 /\
  jn_Remote j' = jn_Remote j1 /\ jn_Observation j' = jn_Observation j1 /\ jn_Failures j' = jn_Failures j1 /\
  jn_PreparationObservationStarted j' = jn_PreparationObservationStarted j1 /\
  jn_OwnerSubmissionPresent j' = jn_OwnerSubmissionPresent j1.
Proof. intros []. destruct (merge_details_problem j1) as (q & Hq & _). rewrite ap_next0, Hq. cbn. done. Qed.
