(* ===== verification/ApplyProps.v ===== *)
(** * The journal state machine: properties

    Properties of single steps of [Apply]: it never panics, its results are
    valid and legal, work that may cost compute is started once, rejection
    needs evidence, closed phases stay closed, and nothing but controlled text
    is recorded. *)

From S2P Require Import Prelude GoStrings GoTime GoJson Identifiers Problems DomainRecords AttemptStates AttemptRuns Attempts Operations Provider ProviderResources Scheduler Journal JournalLemmas Apply ApplyLemmas.
#[local] Open Scope string_scope.
#[local] Open Scope list_scope.
#[local] Open Scope Z_scope.
#[local] Open Scope bool_scope.

(** ** No panic *)
Lemma must_ok code stage message :
  is_ok (NewProblem (E := error) code message stage) = true -> exists p, must_Problem code stage message = Ok p.
Proof.
  unfold must_Problem, provider_Problem. destruct (NewProblem code message stage) as [p|]; [by exists p|done].
Qed.

Lemma journal_problem_ok code may : exists p, journal_problem code may = Ok p.
Proof.
  unfold journal_problem, problem. by destruct code; eexists.
Qed.
Lemma unknown_problem : exists p, journal_problem CodeProviderSubmissionUnknown true = Ok (Some p).
Proof. eexists. by vm_compute. Qed.
Lemma refusal_ok r reason message :
  refusal r = Some (reason, message) -> exists p, must_Problem CodeResourceRequirementUnsatisfied FailureStageValidation message = Ok p.
Proof.
  unfold refusal. intros H. apply must_ok. repeat (case_match; [injection H as <- <-; by vm_compute|]). done.
Qed.
#[local] Opaque must_Problem journal_problem.

Ltac safe_step :=
  match goal with
  | |- Ok _ <> Err Panic => discriminate
  | |- Err _ <> Err Panic => discriminate
  | |- result_bind (must_Problem ?c ?s ?m) _ <> _ =>
      destruct (must_ok c s m ltac:(by vm_compute)) as [? ->]; cbn [result_bind]
  | |- result_bind (journal_problem ?c ?m) _ <> _ =>
      destruct (journal_problem_ok c m) as [? ->]; cbn [result_bind]
  | |- result_bind (Ok _) _ <> _ => cbn [result_bind]
  | |- result_bind (result_bind (must_Problem ?c ?s ?m) _) _ <> _ =>
      destruct (must_ok c s m ltac:(by vm_compute)) as [? ->]; cbn [result_bind]
  | |- result_bind (if ?c then _ else _) _ <> _ => destruct c eqn:?; cbn [result_bind]
  | |- (let '(_, _) := (if ?c then _ else _) in _) <> _ => destruct c
  | |- (if ?c then _ else _) <> _ => destruct c eqn:?
  | |- (match ?x with _ => _ end) <> _ => destruct x eqn:?
  end.
Ltac safe := cbv zeta; repeat (safe_step; cbv zeta).

Section Safe.
Context (old j : Journal) (s : AttemptState) (a : Action) (now : Time).
Context (Hv : Journal_Valid old = true).

Lemma safe_PreparationSeen : apply_PreparationSeen old j s a <> Err Panic.
Proof.
  unfold apply_PreparationSeen. destruct (_ || _) eqn:E; [done|]. bool_to_prop. rewrite is_nil_false in *.
  destruct (ac_Prepared a) as [p|]; [|by destruct_and?; match goal with H : is_Some None |- _ => destruct H end].
  cbn [deref result_bind]. destruct (valid_has_plan _ Hv) as [plan ->].
  { left. replace (jn_Phase old) with Staging by done. by apply (bool_decide_unpack _). }
  cbn [deref result_bind]. safe.
Qed.

Lemma safe_submission j0 sub : apply_submission old s a j0 sub <> Err Panic.
Proof.
  unfold apply_submission. destruct (_ || _) eqn:E; [done|]. bool_to_prop. rewrite is_nil_false in *.
  destruct sub as [o|]; [|by destruct_and?; match goal with H : is_Some None |- _ => destruct H end].
  cbn [deref result_bind]. destruct (valid_has_plan _ Hv) as [plan ->]; [by right|]. cbn [deref result_bind].
  destruct (SubmissionOutcome_Validate o _) eqn:HO; [done|]. cbn [not_nil].
  unfold SubmissionOutcome_Validate in HO. destruct (Identity_Validate _); [done|].
  destruct (match so_Remote o with Some _ => _ | None => _ end); [done|].
  destruct (match so_Problem o with Some _ => _ | None => _ end); [done|].
  destruct (so_Status o); [destruct (so_Remote o); [done|by cbn in HO]|..].
  - destruct (journal_problem_ok (match so_Problem o with Some p => rejection_code (pb_Code p) | None => CodeProviderRejected end) false) as [p ->].
    done.
  - destruct unknown_problem as [p ->]. cbn [result_bind]. by destruct (so_Problem o).
  - done.
Qed.

Lemma safe_SubmissionSeen : apply_SubmissionSeen old j s a now <> Err Panic.
Proof.
  unfold apply_SubmissionSeen, apply_SubmissionAbsence. destruct unknown_problem as [p Hp].
  destruct (_ <>? _); [|apply safe_submission]. destruct (_ || _); [discriminate|]. cbv zeta.
  destruct (_ && _); [rewrite Hp; discriminate|].
  safe_step. apply safe_submission.
Qed.

Lemma safe_Fault : apply_Fault old j s a now <> Err Panic.
Proof.
  unfold apply_Fault. destruct (_ || _); [done|]. cbv zeta.
  assert (fault_problem old a <> Err Panic) as HF.
  { unfold fault_problem, closed_detail. cbv zeta.
    destruct (journal_problem_ok (ac_Code a) (jn_SubmitStarted old && (jn_Phase old <>? Rejected))) as [[p|] ->]; [|done].
    cbn [result_bind]. repeat (case_match; cbn [result_bind]; try done). }
  destruct (fault_problem old a) as [p|e]; cbn [result_bind]; [|congruence]. by case_match.
Qed.

Lemma safe_case : apply_case old j s a now <> Err Panic.
Proof.
  unfold apply_case. destruct (ac_Kind a); try done.
  - unfold apply_BeginPreparation. safe.
  - apply safe_PreparationSeen.
  - unfold apply_EndUnconfirmedPreparation. safe.
  - unfold apply_BeginSubmission. safe.
  - apply safe_SubmissionSeen.
  - unfold apply_ObservationSeen. safe.
  - unfold apply_RemoteAbsenceSeen. safe.
  - apply safe_Fault.
  - unfold apply_PreventDispatch. safe.
  - unfold apply_PreventDispatch. safe.
  - unfold apply_RefuseNewWork. destruct (_ || _); [done|]. destruct (refusal _) as [[reason message]|] eqn:HR; [|done].
    destruct (refusal_ok _ _ _ HR) as [p ->]. cbn [result_bind]. safe.
  - unfold apply_RequestReconciliation. safe.
  - apply safe_SubmissionSeen.
  - apply safe_SubmissionSeen.
Qed.
End Safe.

(** C25: [Apply] never panics: no nil dereference and no
    malformed problem definition is reachable, whatever the journal, the
    state and the action. *)
Theorem Apply_no_panic old s a now : Apply old s a now <> Err Panic.
Proof.
  unfold Apply. destruct (_ || _) eqn:E; [done|]. bool_to_prop. destruct (reload old) as [j|]; [|done].
  pose proof (safe_case old j s a now) as HS. destruct (apply_case old j s a now) as [[[j1 s1] e]|e]; cbn [result_bind].
  - cbv zeta. by destruct (_ || _).
  - intros [= ->]. by apply HS.
Qed.

(** ** What one step keeps *)
Section Step.
Context (old : Journal) (s : AttemptState) (a : Action) (now : Time) (j' : Journal) (s' : AttemptState)
  (e : EventType) (j1 : Journal).
Context (HA : applied old s a now j' s' e j1).

Lemma step_frame : case_frame a now (reload_journal old) j1.
Proof. destruct HA. by eapply frame_case. Qed.

Lemma step_plan plan :
  jn_Plan old = Some plan ->
  jn_Plan j' = Some (reload_plan plan) /\ jn_PreparationID j' = jn_PreparationID old.
Proof.
  intros Hp. pose proof (applied_fields _ _ _ _ _ _ _ _ HA) as (_ & -> & -> & _).
  pose proof (ap_valid _ _ _ _ _ _ _ _ HA) as Hv. destruct (valid_plan _ _ Hv Hp).
  destruct step_frame as (_ & [Hk|[-> ->]] & _).
  - pose proof (ap_case _ _ _ _ _ _ _ _ HA) as H. unfold apply_case in H. rewrite Hk in H. unfold apply_BeginPreparation in H.
    destruct (ac_Plan a); [|done]. rewrite Hp in H. cbn [not_nil] in H. by rewrite orb_true_r in H.
  - cbn. rewrite Hp. split; [done|]. by apply sanitize_ascii, ID_ascii.
Qed.

Lemma step_submit :
  jn_SubmitStarted j' = jn_SubmitStarted old /\ ac_Kind a <> BeginSubmission \/
  ac_Kind a = BeginSubmission /\ jn_SubmitStarted old = false /\ jn_SubmitStarted j' = true.
Proof.
  pose proof (applied_fields _ _ _ _ _ _ _ _ HA) as (_ & _ & _ & _ & -> & _).
  destruct step_frame as (_ & _ & _ & Hs & _). destruct (decide (ac_Kind a = BeginSubmission)) as [Hk|Hk].
  - right. split; [done|]. pose proof (ap_case _ _ _ _ _ _ _ _ HA) as H. unfold apply_case in H. rewrite Hk in H.
    unfold apply_BeginSubmission in H. destruct (_ || _) eqn:E in H; [done|]. bool_to_prop.
    injection H as <- _ _. split; [done|]. cbn. by destruct (ac_StartAuthorization a).
  - left. split; [|done]. by destruct Hs as [?|[-> _]].
Qed.

Lemma step_remote r : jn_Remote old = Some r -> jn_Remote j' = Some (reload_remote r).
Proof.
  intros Hr. pose proof (applied_fields _ _ _ _ _ _ _ _ HA) as (_ & _ & _ & _ & _ & _ & _ & _ & _ & -> & _).
  destruct step_frame as (_ & _ & _ & _ & [Hk| ->] & _); [|cbn; by rewrite Hr].
  pose proof (ap_case _ _ _ _ _ _ _ _ HA) as H. unfold apply_case in H. rewrite Hk in H.
  unfold apply_SubmissionSeen, apply_submission in H. rewrite Hk, Hr in H. cbn [not_nil] in H.
  rewrite bool_decide_eq_true_2 in H by done. cbn [negb] in H. by rewrite orb_true_r in H.
Qed.

Lemma step_version : jn_Version j' = jn_Version old + 1.
Proof.
  destruct step_frame as [Hver _]. destruct (merge_details_problem j1) as (q & Hq & _).
  rewrite (ap_next _ _ _ _ _ _ _ _ HA), Hq. cbn. by rewrite Hver.
Qed.

(** The phase the case starts from. *)
Lemma step_reload_phase : jn_Phase (reload_journal old) = jn_Phase old.
Proof. destruct HA. by apply reload_phase. Qed.
End Step.

(** C24: a committed step leaves a valid journal and a
    consistent attempt, follows the attempt state graph, keeps the failure
    counter in range, and increases the version by one without overflow. *)
Theorem Apply_invariant old s a now j' s' e :
  is_int64 (jn_Version old) -> Apply old s a now = Ok (j', s', e) ->
  Journal_Valid j' = true /\ consistent s' /\ attempt_step s s' /\ 0 <= jn_Failures j' <= MaxFailures /\
  jn_Version j' = jn_Version old + 1 /\ is_int64 (jn_Version j').
Proof.
  intros Hi [j1 HA]%Apply_applied. pose proof (step_version _ _ _ _ _ _ _ _ HA) as Hver. destruct HA as [_ Hc _ Hmax _ _ _ Hv' Hstep].
  destruct (valid_bounds _ Hv') as (Hb & Hf & _).
  pose proof (run_consistent _ _ (rtc_once _ _ Hstep) Hc) as Hc'.
  split_and!; try done; try lia; unfold is_int64, MinInt64, MaxInt64 in *; lia.
Qed.

(** What is recorded about a provider is never rewritten. The
    plan keeps its identity, the preparation identifier and the accepted
    remote reference stay, and a started submission stays started. *)
Theorem Apply_frozen old s a now j' s' e :
  Apply old s a now = Ok (j', s', e) ->
  (forall plan, jn_Plan old = Some plan -> exists plan', jn_Plan j' = Some plan' /\
     rj_Identity (pl_Job plan') = rj_Identity (pl_Job plan) /\ jn_PreparationID j' = jn_PreparationID old) /\
  (forall r, jn_Remote old = Some r -> exists r', jn_Remote j' = Some r' /\ rr_Identity r' = rr_Identity r /\
     rr_Resource r' = sanitize (rr_Resource r) /\ rr_Version r' = sanitize (rr_Version r)) /\
  (jn_SubmitStarted old = true -> jn_SubmitStarted j' = true).
Proof.
  intros [j1 HA]%Apply_applied. pose proof (ap_valid _ _ _ _ _ _ _ _ HA) as Hv. split_and!.
  - intros plan Hp. destruct (step_plan _ _ _ _ _ _ _ _ HA _ Hp) as [H1 H2]. exists (reload_plan plan).
    split_and!; [done| |done]. destruct (valid_plan _ _ Hv Hp) as [Hjob _ _ _ _ _ _ _ _ _ _ _]. cbn.
    apply reload_identity_valid. unfold ResolvedJob_Validate in Hjob. by destruct (Identity_Validate _).
  - intros r Hr. exists (reload_remote r). rewrite (step_remote _ _ _ _ _ _ _ _ HA _ Hr). split_and!; try done. cbn.
    destruct (jn_Plan old) as [plan|] eqn:Hp; [|destruct (valid_no_plan _ Hv Hp) as (_ & _ & _ & ? & _); congruence].
    destruct (valid_plan _ _ Hv Hp) as [_ _ _ _ _ _ _ _ _ _ HR _ _]. destruct (HR r Hr) as (_ & HRR & _).
    apply reload_identity_valid. unfold RemoteReference_Validate in HRR. by destruct (Identity_Validate _).
  - intros Hs. destruct (step_submit _ _ _ _ _ _ _ _ HA) as [[-> _]|(_ & _ & ?)]; done.
Qed.

(** ** The phase graph

    The abstract machine the journal implements: which phase may follow which.
    Rejected and collectible journals are never changed again. *)
Definition phase_next (p : Phase) : list Phase :=
  match p with
  | Local => [Local; Staging; Failed; Prevented]
  | Staging => [Staging; Ready; Attention; Prevented]
  | Ready => [Ready; Staging; Submitting; Attention; Prevented]
  | Submitting => [Submitting; Submitted; Rejected; Attention]
  | Submitted => [Submitted; Collectible; Attention]
  | Attention => [Staging; Submitting; Submitted; Rejected; Prevented]
  | Failed | Prevented => [Prevented]
  | Rejected | Collectible | PhaseOther _ => []
  end.

Ltac member := rewrite ?elem_of_cons, ?elem_of_nil; auto 10.

Section Phases.
Context (old j : Journal) (s : AttemptState) (a : Action) (now : Time) (j1 : Journal) (s1 : AttemptState) (e : EventType).
Context (Hv : Journal_Valid old = true) (Hj : jn_Phase j = jn_Phase old)
  (Hr : jn_Remote j = reload_remote <$> jn_Remote old).

Lemma phase_PreventDispatch :
  apply_PreventDispatch old j s a = Ok (j1, s1, e) -> jn_Phase j1 ∈ phase_next (jn_Phase old).
Proof.
  unfold apply_PreventDispatch. intros HO. destruct (_ || _) eqn:E in HO; [done|]. bool_to_prop.
  assert (jn_Phase j1 = Prevented) as -> by by outcome_cases HO.
  assert (jn_Phase old <> Submitting /\ jn_Phase old <> Submitted /\ jn_Phase old <> Rejected /\ jn_Phase old <> Collectible) as HN.
  { destruct (jn_Plan old) as [plan|] eqn:Hp.
    - destruct (valid_plan _ _ Hv Hp) as [_ _ _ _ _ _ _ _ _ HS _ _ _].
      rewrite !elem_of_cons in HS. split_and!; intros E; rewrite HS in *; auto 10; done.
    - destruct (valid_no_plan _ Hv Hp) as ([->|[->| ->]] & _); done. }
  destruct (jn_Phase old) eqn:Hp; cbn; member; try naive_solver. by destruct (valid_phase_known _ raw Hv).
Qed.

Lemma phase_RequestReconciliation :
  apply_RequestReconciliation old j s a = Ok (j1, s1, e) -> jn_Phase j1 ∈ phase_next (jn_Phase old).
Proof.
  unfold apply_RequestReconciliation. destruct (_ && _) in |- *; [done|]. cbv zeta. destruct (_ || _) in |- *; [done|].
  destruct (jn_SubmitStarted old) eqn:Hs; cbn [negb].
  - destruct (_ && _) eqn:E in |- *; [done|]. cbn [result_bind]. intros [= <- _ _]. cbn.
    assert (jn_Remote (if ac_OwnerPresent a then j <| jn_OwnerSubmissionPresent := true |> <| jn_SubmissionAbsenceObservedAt := None |> else j)
            = reload_remote <$> jn_Remote old) as -> by by destruct (ac_OwnerPresent a).
    destruct (valid_has_plan _ Hv) as [plan Hp]; [by right|].
    destruct (valid_plan _ _ Hv Hp) as [_ _ _ _ _ _ _ HSub _ _ _ HSd _].
    rewrite !andb_false_iff, !negb_false_iff, !bool_decide_eq_true in E. destruct E as [[E|E]|E]; rewrite E; cbn.
    + destruct (jn_Remote old); cbn; member.
    + destruct HSub as [-> _]; [by left|]. cbn. member.
    + destruct HSd as [r ->]; [by left|]. cbn. member.
  - destruct (_ || _) eqn:E in |- *; [done|]. cbn [result_bind]. intros [= <- _ _]. cbn. bool_to_prop.
    rewrite !andb_false_iff, !negb_false_iff, !bool_decide_eq_true in *.
    destruct_and?. repeat match goal with H : _ \/ _ |- _ => destruct H end;
      match goal with H : jn_Phase old = _ |- _ => rewrite H end; cbn; member.
Qed.

Lemma phase_submission j0 sub :
  jn_Phase j0 = jn_Phase old -> apply_submission old s a j0 sub = Ok (j1, s1, e) ->
  (jn_Phase old = Attention -> exists o, sub = Some o /\ so_Status o = SubmissionRejected) ->
  jn_Phase old = Submitting \/ jn_Phase old = Attention -> jn_Phase j1 ∈ phase_next (jn_Phase old).
Proof.
  intros Hj0 H Hatt Hp. unfold apply_submission in H. destruct (_ || _) in H; [done|].
  destruct sub as [o|]; [cbn [deref result_bind] in H|done]. destruct (jn_Plan old); [cbn [deref result_bind] in H|done].
  destruct (not_nil _) in H; [done|].
  assert (jn_Phase j1 = Rejected \/ so_Status o <> SubmissionRejected /\ (jn_Phase j1 = Submitted \/ jn_Phase j1 = jn_Phase old)) as HX.
  { destruct (so_Status o).
    - destruct (so_Remote o); [cbn [deref result_bind] in H|done]. injection H as <- _ _. cbn. auto.
    - destruct (journal_problem _ _) in H; [cbn [result_bind] in H|done]. injection H as <- _ _. cbn. auto.
    - destruct (journal_problem _ _) as [q|] in H; [cbn [result_bind] in H|done]. destruct (so_Problem o).
      + destruct q; [cbn in H|done]. injection H as <- _ _. cbn. destruct (jn_SubmissionProblem j0); cbn; auto.
      + injection H as <- _ _. cbn. auto.
    - injection H as <- _ _. auto. }
  destruct Hp as [Hp|Hp]; rewrite Hp in *; cbn; destruct HX as [->|[Ho [->| ->]]]; member.
  destruct (Hatt eq_refl) as (o' & [= <-] & ?). done.
Qed.

Lemma phase_SubmissionSeen :
  apply_SubmissionSeen old j s a now = Ok (j1, s1, e) -> jn_Phase j1 ∈ phase_next (jn_Phase old).
Proof.
  unfold apply_SubmissionSeen. case_bool_decide as Hk; cbn [negb]; intros H.
  - assert (jn_Phase old = Submitting) as Hp.
    { unfold apply_submission in H. destruct (_ || _) eqn:E in H; [done|]. bool_to_prop.
      rewrite Hk, andb_false_iff in *. destruct_or?; by bool_to_prop. }
    eapply phase_submission; [exact Hj|exact H|congruence|by left].
  - unfold apply_SubmissionAbsence in H. destruct (_ || _) eqn:E in H; [done|]. cbv zeta in H. bool_to_prop.
    assert (jn_Phase old = Submitting \/ jn_Phase old = Attention) as Hp.
    { repeat match goal with H : (_ && _) = false |- _ => rewrite andb_false_iff in H end. destruct_or?; bool_to_prop; auto. }
    destruct (_ && _) in H.
    + destruct (journal_problem _ _) as [[p|]|] in H; try done. cbn [deref result_bind] in H. injection H as <- _ _. cbn.
      destruct (jn_SubmissionAbsenceObservedAt old); cbn; destruct Hp as [-> | ->]; cbn; member.
    + destruct (must_Problem _ _ _) in H; [cbn [result_bind] in H|done].
      eapply phase_submission; [|exact H| |done]; [exact Hj|]. intros _. eexists. split; reflexivity.
Qed.

Lemma phase_Fault : apply_Fault old j s a now = Ok (j1, s1, e) -> jn_Phase j1 ∈ phase_next (jn_Phase old).
Proof.
  intros HO. unfold apply_Fault in HO. destruct (_ || _) eqn:E in HO; [done|]. bool_to_prop.
  destruct (fault_problem old a) as [p|]; [cbn [result_bind] in HO|done]. cbv zeta in HO.
  match type of HO with context [fault_local _ _ _ _ ?x _] => assert (jn_Phase x = jn_Phase old) as Hx;
    [destruct (fault_resource old a <>? ""), (_ && _); exact Hj|generalize dependent x; intros jx HO Hx] end.
  destruct (jn_Plan old) as [plan|] eqn:Hp; cbn [is_nil not_nil negb] in HO.
  - destruct (valid_plan _ _ Hv Hp) as [_ _ _ _ _ [? ?] _ _ _ _ _ _ _]. unfold fault_remote in HO. cbv zeta in HO.
    assert (jn_Phase j1 = jn_Phase old \/ jn_Phase j1 = Attention) as HX
      by (destruct (_ || _) in HO; injection HO as <- _ _; cbn; auto).
    destruct (jn_Phase old) eqn:HPh; try done; destruct HX as [-> | ->]; cbn; member.
    all: by destruct (valid_phase_known _ raw Hv).
  - destruct (valid_no_plan _ Hv Hp) as ([Hph|[Hph|Hph]] & _); [|congruence..]. rewrite Hph in *. unfold fault_local in HO.
    cbv zeta in HO. destruct (_ || _) in HO; injection HO as <- _ _; cbn; rewrite ?Hx; member.
Qed.

Lemma phase_case : apply_case old j s a now = Ok (j1, s1, e) -> jn_Phase j1 ∈ phase_next (jn_Phase old).
Proof.
  unfold apply_case. destruct (ac_Kind a) eqn:Hk; intros HO;
    eauto using phase_PreventDispatch, phase_RequestReconciliation, phase_SubmissionSeen, phase_Fault; try done.
  - unfold apply_BeginPreparation in HO. destruct (ac_Plan a); [|done]. destruct (_ || _) eqn:E in HO; [done|].
    bool_to_prop. injection HO as <- _ _. cbn. replace (jn_Phase old) with Local by done. cbn. member.
  - unfold apply_PreparationSeen in HO. destruct (_ || _) eqn:E in HO; [done|]. bool_to_prop.
    replace (jn_Phase old) with Staging in * by done.
    outcome_cases HO; cbn; rewrite ?Hj; member.
  - unfold apply_EndUnconfirmedPreparation in HO. destruct (_ || _) eqn:E in HO; [done|]. bool_to_prop.
    replace (jn_Phase old) with Staging in * by done. outcome_cases HO; cbn; member.
  - unfold apply_BeginSubmission in HO. destruct (_ || _) eqn:E in HO; [done|]. bool_to_prop.
    replace (jn_Phase old) with Ready in * by done. injection HO as <- _ _. cbn. member.
  - unfold apply_ObservationSeen in HO. destruct (jn_Remote old), (ac_Observation a); try done.
    destruct (_ || _) eqn:E in HO; [done|]. bool_to_prop. replace (jn_Phase old) with Submitted in * by done.
    destruct (_ || _) in HO; [done|]. cbv zeta in HO. destruct (not_nil _) in HO; [done|].
    repeat (outcome_step HO; cbv zeta in HO); injection HO as <- _ _; cbn; field_cases; rewrite ?Hj; member.
  - unfold apply_RemoteAbsenceSeen in HO. destruct (jn_Remote old), (ac_Absence a); try done.
    destruct (_ || _) eqn:E in HO; [done|]. bool_to_prop. replace (jn_Phase old) with Submitted in * by done.
    outcome_cases HO; cbn; member.
  - unfold apply_RefuseNewWork in HO. destruct (_ || _) eqn:E in HO; [done|]. bool_to_prop.
    rewrite andb_false_iff, !negb_false_iff, !bool_decide_eq_true in *.
    assert (jn_Phase j1 = jn_Phase old) as -> by (outcome_cases HO; exact Hj).
    destruct_and?. match goal with H : _ \/ _ |- _ => destruct H as [-> | ->] end; cbn; member.
Qed.
End Phases.

(** Every committed step follows the phase graph; a rejected
    or collectible journal accepts no further step. *)
Theorem Apply_phase old s a now j' s' e :
  Apply old s a now = Ok (j', s', e) -> jn_Phase j' ∈ phase_next (jn_Phase old).
Proof.
  intros [j1 HA]%Apply_applied. pose proof (applied_fields _ _ _ _ _ _ _ _ HA) as [-> _].
  pose proof (step_reload_phase _ _ _ _ _ _ _ _ HA) as Hph. destruct HA as [Hv _ _ _ _ HC _ _ _].
  by eapply phase_case; [exact Hv|exact Hph|reflexivity|exact HC].
Qed.

(** ** Closed journals *)
Lemma submission_closing old s a j0 sub j1 s1 e :
  apply_submission old s a j0 sub = Ok (j1, s1, e) ->
  jn_Phase j1 = Rejected /\ terminal_orch (as_Orchestration s1) \/ jn_Phase j1 = Submitted \/ jn_Phase j1 = jn_Phase j0.
Proof.
  intros H. unfold apply_submission in H. destruct (_ || _) in H; [done|].
  destruct sub as [o|]; [cbn [deref result_bind] in H|done]. destruct (jn_Plan old); [cbn [deref result_bind] in H|done].
  destruct (not_nil _) in H; [done|]. destruct (so_Status o).
  - destruct (so_Remote o); [cbn [deref result_bind] in H|done]. injection H as <- _ _. auto.
  - destruct (journal_problem _ _) in H; [cbn [result_bind] in H|done]. injection H as <- <- _. left.
    split; [done|]. unfold terminal_orch. by field_cases.
  - destruct (journal_problem _ _) as [q|] in H; [cbn [result_bind] in H|done]. do 2 right. destruct (so_Problem o).
    + destruct q; [cbn in H|done]. injection H as <- _ _. cbn. by destruct (jn_SubmissionProblem j0).
    + by injection H as <- _ _.
  - injection H as <- _ _. auto.
Qed.

(** Either the phase is not one of the closing ones, or the attempt ended. *)
Definition closing (j : Journal) (j1 : Journal) (s1 : AttemptState) : Prop :=
  terminal_orch (as_Orchestration s1) \/ jn_Phase j1 = jn_Phase j \/ jn_Phase j1 ∉ [Rejected; Failed; Prevented].
Ltac closes := unfold closing; cbn; first
  [ right; left; reflexivity
  | right; right; apply (bool_decide_eq_false_1 _); vm_compute; reflexivity
  | left; unfold terminal_orch; field_cases; reflexivity ].

Lemma closing_SubmissionSeen old j s a now j1 s1 e :
  apply_SubmissionSeen old j s a now = Ok (j1, s1, e) -> closing j j1 s1.
Proof.
  unfold apply_SubmissionSeen. destruct (_ <>? _); intros H.
  - unfold apply_SubmissionAbsence in H. destruct (_ || _) in H; [done|]. cbv zeta in H. destruct (_ && _) in H.
    + destruct (journal_problem _ _) as [[p|]|] in H; try done. cbn [deref result_bind] in H. injection H as <- <- _.
      unfold closing. right. right. cbn. destruct (jn_SubmissionAbsenceObservedAt old); cbn; intros HM; not_member HM.
    + destruct (must_Problem _ _ _) in H; [cbn [result_bind] in H|done].
      apply submission_closing in H as [[H1 H2]|[H|H]]; unfold closing; [by left| |by (right; left)].
      right. right. rewrite H. intros HM. not_member HM.
  - apply submission_closing in H as [[H1 H2]|[H|H]]; unfold closing; [by left| |by (right; left)].
    right. right. rewrite H. intros HM. not_member HM.
Qed.

Lemma closing_case old j s a now j1 s1 e : apply_case old j s a now = Ok (j1, s1, e) -> closing j j1 s1.
Proof.
  intros HO. unfold apply_case in HO. destruct (ac_Kind a).
  - unfold apply_BeginPreparation in HO. outcome_cases HO; closes.
  - unfold apply_PreparationSeen in HO. outcome_cases HO; closes.
  - unfold apply_EndUnconfirmedPreparation in HO. outcome_cases HO; closes.
  - unfold apply_BeginSubmission in HO. destruct (_ || _) in HO; [done|]. injection HO as <- <- _. closes.
  - eapply closing_SubmissionSeen. exact HO.
  - unfold apply_ObservationSeen in HO. destruct (jn_Remote old), (ac_Observation a) as [o|]; try done.
    destruct (_ || _) in HO; [done|]. destruct (_ || _) in HO; [done|]. cbv zeta in HO. destruct (not_nil _) in HO; [done|].
    destruct (negb _ && _) in HO; repeat (outcome_step HO; cbv zeta in HO); injection HO as <- _ _;
      closes.
  - unfold apply_RemoteAbsenceSeen in HO. destruct (jn_Remote old), (ac_Absence a); try done.
    destruct (_ || _) in HO; [done|]. destruct (must_Problem _ _ _) in HO; [cbn [result_bind] in HO|done].
    injection HO as <- _ _. closes.
  - unfold apply_Fault in HO. destruct (_ || _) in HO; [done|].
    destruct (fault_problem old a) as [p|]; [cbn [result_bind] in HO|done]. cbv zeta in HO.
    match type of HO with context [fault_local _ _ _ _ ?x _] => assert (jn_Phase x = jn_Phase j) as Hx;
      [by destruct (fault_resource old a <>? ""), (_ && _)|generalize dependent x; intros jx HO Hx] end.
    destruct (is_nil _); [unfold fault_local in HO|unfold fault_remote in HO]; cbv zeta in HO;
      destruct (_ || _) in HO; injection HO as <- <- _; unfold closing; cbn;
      first [left; reflexivity|right; left; exact Hx|right; right; intros HM; not_member HM].
  - unfold apply_PreventDispatch in HO. outcome_cases HO; closes.
  - unfold apply_PreventDispatch in HO. outcome_cases HO; closes.
  - unfold apply_RefuseNewWork in HO. outcome_cases HO; closes.
  - unfold apply_RequestReconciliation in HO.
    destruct (_ && _) in HO; [done|]. cbv zeta in HO. destruct (_ || _) in HO; [done|].
    destruct (negb _) in HO; [destruct (_ || _) in HO|destruct (_ && _) in HO]; try done; cbn [result_bind] in HO;
      injection HO as <- _ _; unfold closing; right; right; cbn; [|destruct (not_nil _)]; intros HM; not_member HM.
  - eapply closing_SubmissionSeen. exact HO.
  - eapply closing_SubmissionSeen. exact HO.
  - discriminate HO.
Qed.

(** A guard that asks for another phase. *)
Ltac phase_guard HO :=
  match goal with Hne : forall p, _ -> _ -> jn_Phase _ <> p |- _ =>
    destruct (_ || _) eqn:E in HO; [discriminate HO|]; clear HO; bool_to_prop;
    exfalso; match goal with H : jn_Phase _ = _ |- _ => apply (Hne _) in H; [exact H|discriminate|discriminate] end
  end.

Lemma closed_SubmissionSeen old j s a now r : jn_SubmitStarted old = false -> apply_SubmissionSeen old j s a now <> Ok r.
Proof.
  intros Hs. unfold apply_SubmissionSeen, apply_SubmissionAbsence, apply_submission. rewrite Hs. cbn [negb].
  rewrite !orb_true_r. cbn [orb]. by destruct (_ <>? _).
Qed.

Lemma prevented_terminal old j s a j1 s1 e :
  apply_PreventDispatch old j s a = Ok (j1, s1, e) ->
  ~ terminal_orch (as_Orchestration s) /\ terminal_orch (as_Orchestration s1).
Proof.
  unfold apply_PreventDispatch. intros HO. destruct (_ || _) eqn:E in HO; [discriminate HO|]. bool_to_prop. split.
  - unfold terminal_orch. congruence.
  - unfold terminal_orch. outcome_cases HO; reflexivity.
Qed.

(** In a failed or prevented phase only an attempt that has not ended can
    still be prevented. *)
Lemma closed_case old j s a now j1 s1 e :
  jn_Phase old = Failed \/ jn_Phase old = Prevented -> jn_SubmitStarted old = false ->
  apply_case old j s a now = Ok (j1, s1, e) ->
  ~ terminal_orch (as_Orchestration s) /\ terminal_orch (as_Orchestration s1).
Proof.
  intros Hp Hs HO. unfold apply_case in HO.
  assert (forall p, p <> Failed -> p <> Prevented -> jn_Phase old <> p) as Hne by (intros p ? ? ?; naive_solver).
  destruct (ac_Kind a).
  - unfold apply_BeginPreparation in HO. destruct (ac_Plan a); [|discriminate HO]. phase_guard HO.
  - unfold apply_PreparationSeen in HO. phase_guard HO.
  - unfold apply_EndUnconfirmedPreparation in HO. phase_guard HO.
  - unfold apply_BeginSubmission in HO. phase_guard HO.
  - exfalso. eapply closed_SubmissionSeen; [exact Hs|exact HO].
  - unfold apply_ObservationSeen in HO. destruct (jn_Remote old), (ac_Observation a); try discriminate HO. phase_guard HO.
  - unfold apply_RemoteAbsenceSeen in HO. destruct (jn_Remote old), (ac_Absence a); try discriminate HO. phase_guard HO.
  - unfold apply_Fault in HO. destruct Hp as [-> | ->] in HO; discriminate HO.
  - eapply prevented_terminal. exact HO.
  - eapply prevented_terminal. exact HO.
  - unfold apply_RefuseNewWork in HO. destruct (_ || _) eqn:E in HO; [discriminate HO|]. clear HO. bool_to_prop.
    rewrite andb_false_iff in *. destruct_or?; bool_to_prop; exfalso; (eapply Hne; [| |eassumption]; discriminate).
  - unfold apply_RequestReconciliation in HO. destruct (_ && _) in HO; [discriminate HO|]. cbv zeta in HO.
    destruct (_ || _) in HO; [discriminate HO|]. rewrite Hs in HO. cbn [negb] in HO.
    destruct (_ || _) eqn:E in HO; [discriminate HO|]. clear HO. bool_to_prop. rewrite !andb_false_iff in *.
    destruct_or?; bool_to_prop; exfalso; (eapply Hne; [| |eassumption]; discriminate).
  - exfalso. eapply closed_SubmissionSeen; [exact Hs|exact HO].
  - exfalso. eapply closed_SubmissionSeen; [exact Hs|exact HO].
  - discriminate HO.
Qed.

(** A journal that reaches a rejected, failed or prevented
    phase ends its attempt, and from then on no action is accepted; a
    collectible journal accepts none either. *)
Theorem Apply_closed old s a now j' s' e :
  Apply old s a now = Ok (j', s', e) ->
  (jn_Phase j' ∈ [Rejected; Failed; Prevented] -> terminal_orch (as_Orchestration s')) /\
  ~ (jn_Phase old ∈ [Rejected; Failed; Prevented; Collectible] /\
     (jn_Phase old = Collectible \/ terminal_orch (as_Orchestration s))).
Proof.
  intros [j1 HA]%Apply_applied. pose proof (applied_fields _ _ _ _ _ _ _ _ HA) as [Hph _].
  pose proof (step_reload_phase _ _ _ _ _ _ _ _ HA) as Hrp. destruct HA as [Hv _ _ _ _ HC _ _ Hstep].
  pose proof (phase_case _ _ _ _ _ _ _ _ Hv Hrp eq_refl HC) as Hnext.
  assert (jn_Phase old <> Rejected /\ jn_Phase old <> Collectible) as [Hn1 Hn2]
    by (split; intros E; rewrite E in Hnext; not_member Hnext).
  assert (jn_Phase old = Failed \/ jn_Phase old = Prevented ->
          ~ terminal_orch (as_Orchestration s) /\ terminal_orch (as_Orchestration s')) as Hclosed.
  { intros Hp. eapply closed_case; [exact Hp| |exact HC].
    destruct Hp as [Hp|Hp]; [|by apply valid_bounds in Hv as (_ & _ & Hv); apply Hv].
    destruct (jn_Plan old) as [plan|] eqn:HP; [by destruct (valid_plan _ _ Hv HP) as [_ _ _ _ _ [_ ?] _ _ _ _ _ _ _]|].
    by destruct (valid_no_plan _ Hv HP) as (_ & ? & _). }
  rewrite !elem_of_cons, !elem_of_nil. split; [|tauto]. rewrite Hph. intros Hin.
  destruct (closing_case _ _ _ _ _ _ _ _ HC) as [?|[Heq|Hout]]; [done| |].
  - rewrite Hrp in Heq. rewrite Heq in Hin. apply Hclosed. tauto.
  - destruct Hout. rewrite !elem_of_cons, elem_of_nil. tauto.
Qed.
