(* ===== verification/ApplyEvidence.v ===== *)
(** * The journal state machine: evidence

    What a step may conclude from what it is given: when a submission counts
    as rejected, which observations are believed, how long a local failure is
    retried, and when the one start is allowed. *)

From S2P Require Import Prelude GoStrings GoTime GoJson Identifiers Problems DomainRecords AttemptStates AttemptRuns Attempts Operations Provider ProviderResources Scheduler Journal JournalLemmas Apply ApplyLemmas ApplyProps.
#[local] Open Scope string_scope.
#[local] Open Scope list_scope.
#[local] Open Scope Z_scope.
#[local] Open Scope bool_scope.
#[local] Opaque must_Problem journal_problem.

(** ** Phases a kind of action can enter *)
Definition phase_targets (k : Kind) : list Phase :=
  match k with
  | BeginPreparation => [Staging]
  | PreparationSeen => [Ready; Attention]
  | EndUnconfirmedPreparation | PreventDispatch | ExpireDispatch => [Prevented]
  | BeginSubmission => [Submitting]
  | SubmissionSeen => [Submitted; Rejected]
  | SubmissionAbsenceSeen | OwnerSubmissionAbsent => [Submitting; Submitted; Rejected]
  | ObservationSeen => [Collectible; Attention]
  | RemoteAbsenceSeen => [Attention]
  | Fault => [Failed; Attention]
  | RequestReconciliation => [Staging; Submitting; Submitted]
  | RefuseNewWork | KindOther _ => []
  end.

Ltac is_target := cbn; first
  [ left; reflexivity | right; apply (bool_decide_unpack _); vm_compute; exact I ].

Lemma submission_target old s a j0 sub j1 s1 e :
  apply_submission old s a j0 sub = Ok (j1, s1, e) ->
  jn_Phase j1 = Rejected \/ jn_Phase j1 = Submitted \/ jn_Phase j1 = jn_Phase j0.
Proof. intros H. apply submission_closing in H. tauto. Qed.

Lemma absence_target old j s a now j1 s1 e :
  ac_Kind a <> SubmissionSeen -> apply_SubmissionSeen old j s a now = Ok (j1, s1, e) ->
  jn_Phase j1 = jn_Phase j \/ jn_Phase j1 ∈ [Submitting; Submitted; Rejected].
Proof.
  intros Hk H. unfold apply_SubmissionSeen in H. rewrite (bool_decide_eq_false_2 _ Hk) in H. cbn [negb] in H.
  unfold apply_SubmissionAbsence in H. destruct (_ || _) in H; [done|]. cbv zeta in H. destruct (_ && _) in H.
  - destruct (journal_problem _ _) as [[p|]|] in H; try done. cbn [deref result_bind] in H. injection H as <- <- _.
    cbn. destruct (jn_SubmissionAbsenceObservedAt old); is_target.
  - destruct (must_Problem _ _ _) in H; [cbn [result_bind] in H|done].
    apply submission_target in H as [-> |[-> | ->]]; is_target.
Qed.

Lemma target_case old j s a now j1 s1 e :
  apply_case old j s a now = Ok (j1, s1, e) ->
  jn_Phase j1 = jn_Phase j \/ jn_Phase j1 ∈ phase_targets (ac_Kind a).
Proof.
  intros HO. unfold apply_case in HO. destruct (ac_Kind a) eqn:Hk.
  - unfold apply_BeginPreparation in HO. outcome_cases HO; is_target.
  - unfold apply_PreparationSeen in HO. outcome_cases HO; is_target.
  - unfold apply_EndUnconfirmedPreparation in HO. outcome_cases HO; is_target.
  - unfold apply_BeginSubmission in HO. destruct (_ || _) in HO; [done|]. injection HO as <- _ _. is_target.
  - unfold apply_SubmissionSeen in HO. rewrite Hk in HO. cbn [bool_decide] in HO. rewrite bool_decide_eq_true_2 in HO by done.
    cbn [negb] in HO. apply submission_target in HO as [-> |[-> | ->]]; is_target.
  - unfold apply_ObservationSeen in HO. destruct (jn_Remote old), (ac_Observation a) as [o|]; try done.
    destruct (_ || _) in HO; [done|]. destruct (_ || _) in HO; [done|]. cbv zeta in HO. destruct (not_nil _) in HO; [done|].
    destruct (negb _ && _) in HO; repeat (outcome_step HO; cbv zeta in HO); injection HO as <- _ _; is_target.
  - unfold apply_RemoteAbsenceSeen in HO. destruct (jn_Remote old), (ac_Absence a); try done.
    destruct (_ || _) in HO; [done|]. destruct (must_Problem _ _ _) in HO; [cbn [result_bind] in HO|done].
    injection HO as <- _ _. is_target.
  - unfold apply_Fault in HO. destruct (_ || _) in HO; [done|].
    destruct (fault_problem old a) as [p|]; [cbn [result_bind] in HO|done]. cbv zeta in HO.
    match type of HO with context [fault_local _ _ _ _ ?x _] => assert (jn_Phase x = jn_Phase j) as Hx;
      [by destruct (fault_resource old a <>? ""), (_ && _)|generalize dependent x; intros jx HO Hx] end.
    destruct (is_nil _); [unfold fault_local in HO|unfold fault_remote in HO]; cbv zeta in HO;
      destruct (_ || _) in HO; injection HO as <- <- _; first [left; exact Hx|is_target].
  - unfold apply_PreventDispatch in HO. outcome_cases HO; is_target.
  - unfold apply_PreventDispatch in HO. outcome_cases HO; is_target.
  - unfold apply_RefuseNewWork in HO. outcome_cases HO; is_target.
  - unfold apply_RequestReconciliation in HO.
    destruct (_ && _) in HO; [done|]. cbv zeta in HO. destruct (_ || _) in HO; [done|].
    destruct (negb _) in HO; [destruct (_ || _) in HO|destruct (_ && _) in HO]; try done; cbn [result_bind] in HO;
      injection HO as <- _ _; cbn; [|destruct (not_nil _)]; is_target.
  - eapply absence_target; [|exact HO]. by rewrite Hk.
  - eapply absence_target; [|exact HO]. by rewrite Hk.
  - discriminate HO.
Qed.

(** ** Rejection *)
Lemma rejected_submission old s a j0 sub j1 s1 e :
  apply_submission old s a j0 sub = Ok (j1, s1, e) -> jn_Phase j0 <> Rejected -> jn_Phase j1 = Rejected ->
  exists o plan, sub = Some o /\ so_Status o = SubmissionRejected /\ jn_Plan old = Some plan /\
    SubmissionOutcome_Validate o (rj_Identity (pl_Job plan)) = None /\ jn_SubmitStarted old = true /\
    jn_Remote old = None /\ as_Execution s1 = ExecutionNotSubmitted /\ as_RemoteActivity s1 = RemoteActivityInactive.
Proof.
  intros H Hj0 Hp. unfold apply_submission in H. destruct (_ || _) eqn:E in H; [done|].
  destruct sub as [o|]; [cbn [deref result_bind] in H|done]. destruct (jn_Plan old) as [plan|]; [cbn [deref result_bind] in H|done].
  destruct (SubmissionOutcome_Validate _ _) eqn:HV in H; [done|]. cbn [not_nil] in H. bool_to_prop. rewrite not_nil_false in *.
  exists o, plan. destruct (so_Status o) eqn:Hst.
  - destruct (so_Remote o); [cbn [deref result_bind] in H|done]. injection H as <- _ _. discriminate Hp.
  - destruct (journal_problem _ _) in H; [cbn [result_bind] in H|done]. injection H as _ <- _.
    split_and!; try done; by field_cases.
  - destruct (journal_problem _ _) as [q|] in H; [cbn [result_bind] in H|done]. destruct (so_Problem o).
    + destruct q; [cbn in H|done]. injection H as <- _ _. cbn in Hp. by destruct (jn_SubmissionProblem j0).
    + by injection H as <- _ _.
  - by injection H as <- _ _.
Qed.

(** What entitles a step to call a submission rejected. *)
Definition rejection_evidence (old : Journal) (a : Action) (now : Time) : Prop :=
  (ac_Kind a = SubmissionSeen /\ exists o p plan, ac_Submission a = Some o /\ so_Status o = SubmissionRejected /\
     so_Problem o = Some p /\ pb_ComputeMayHaveStarted p = false /\ so_Remote o = None /\
     jn_Plan old = Some plan /\ SubmissionOutcome_Validate o (rj_Identity (pl_Job plan)) = None) \/
  (ac_Kind a = SubmissionAbsenceSeen /\ jn_OwnerSubmissionPresent old = false /\
     jn_SubmissionResourceName old = ac_ResourceName a /\
     exists first, jn_SubmissionAbsenceObservedAt old = Some first /\ first + SubmissionAbsenceGrace <= now) \/
  (ac_Kind a = OwnerSubmissionAbsent /\ ValidResourceName (ac_ResourceName a) = true /\
     (jn_SubmissionResourceName old = "" \/ jn_SubmissionResourceName old = ac_ResourceName a)).

Lemma valid_absence_name j t :
  Journal_Valid j = true -> jn_SubmissionAbsenceObservedAt j = Some t -> jn_SubmissionResourceName j <> "".
Proof.
  rewrite Journal_Valid_split. intros [H _] Ht. unfold valid_evidence in H. rewrite !guard_true in H.
  destruct H as (_ & _ & H & _). rewrite Ht in H. cbn in H. bool_to_prop. done.
Qed.

Lemma absence_evidence old j s a now j1 s1 e :
  Journal_Valid old = true -> jn_Phase j = jn_Phase old -> jn_Phase old <> Rejected ->
  (ac_Kind a = SubmissionAbsenceSeen \/ ac_Kind a = OwnerSubmissionAbsent) ->
  apply_SubmissionAbsence old j s a now = Ok (j1, s1, e) -> jn_Phase j1 = Rejected ->
  rejection_evidence old a now /\ jn_SubmitStarted old = true /\ jn_Remote old = None /\
  as_Execution s1 = ExecutionNotSubmitted /\ as_RemoteActivity s1 = RemoteActivityInactive.
Proof.
  intros Hv Hj Hne HK H Hp. unfold apply_SubmissionAbsence in H. destruct (_ || _) eqn:E in H; [done|]. cbv zeta in H.
  destruct ((ac_Kind a <>? OwnerSubmissionAbsent) && _) eqn:E2 in H.
  { destruct (journal_problem _ _) as [[p|]|] in H; try done. cbn [deref result_bind] in H. injection H as <- _ _.
    cbn in Hp. destruct (jn_SubmissionAbsenceObservedAt old); discriminate Hp. }
  destruct (must_Problem _ _ _) in H; [cbn [result_bind] in H|done].
  apply rejected_submission in H as (o & plan & _ & _ & _ & _ & Hs & Hr & He & Hra); [|by rewrite <- Hj in Hne|done].
  split_and!; try done. unfold rejection_evidence. bool_to_prop.
  assert (jn_SubmissionResourceName old = "" \/ jn_SubmissionResourceName old = ac_ResourceName a) as Hname.
  { repeat match goal with H : (_ && _) = false |- _ => rewrite andb_false_iff in H end. destruct_or?; bool_to_prop; auto. }
  destruct HK as [HK|HK]; [right; left|by do 2 right].
  rewrite HK in *. cbn in E2. rewrite bool_decide_eq_false_2 in E2 by done. cbn [negb andb] in E2.
  destruct (jn_SubmissionAbsenceObservedAt old) as [t|] eqn:Ht; [|done].
  pose proof (valid_absence_name _ _ Hv Ht) as Hn.
  split_and!; [done| |naive_solver|exists t; split; [done|unfold Before in E2; lia]].
  repeat match goal with H : (_ && _) = false |- _ => rewrite andb_false_iff in H end.
  rewrite bool_decide_eq_true_2 in * by done. destruct_or?; done.
Qed.

Lemma applied_rejected old s a now j' s' e j1 :
  applied old s a now j' s' e j1 -> jn_Phase j' = Rejected ->
  rejection_evidence old a now /\ jn_SubmitStarted old = true /\ jn_Remote old = None /\
  as_Execution s' = ExecutionNotSubmitted /\ as_RemoteActivity s' = RemoteActivityInactive.
Proof.
  intros HA Hp. pose proof (applied_fields _ _ _ _ _ _ _ _ HA) as [Hph _]. rewrite Hph in Hp. clear Hph.
  pose proof (step_reload_phase _ _ _ _ _ _ _ _ HA) as Hrp. destruct HA as [Hv _ _ _ _ HC _ _ _].
  pose proof (phase_case _ _ _ _ _ _ _ _ Hv Hrp eq_refl HC) as Hnext.
  assert (jn_Phase old <> Rejected) as Hne by (intros E; rewrite E in Hnext; not_member Hnext).
  destruct (target_case _ _ _ _ _ _ _ _ HC) as [Heq|Ht]; [congruence|]. rewrite Hp in Ht. unfold apply_case in HC.
  destruct (ac_Kind a) eqn:Hk; try not_member Ht; unfold apply_SubmissionSeen in HC; rewrite Hk in HC.
  - rewrite bool_decide_eq_true_2 in HC by done. cbn [negb] in HC.
    apply rejected_submission in HC as (o & plan & Ho & Hst & HP & HV & Hs & Hr & He & Hra); [|congruence|done].
    split_and!; try done. left. split; [done|].
    pose proof HV as HV'. unfold SubmissionOutcome_Validate in HV'. destruct (Identity_Validate _); [done|].
    destruct (match so_Remote o with Some _ => _ | None => _ end); [done|].
    destruct (match so_Problem o with Some _ => _ | None => _ end); [done|]. rewrite Hst in HV'.
    destruct (so_Problem o) as [p|] eqn:Hpr; [|done]. destruct (_ || _) eqn:E in HV'; [done|]. bool_to_prop.
    rewrite not_nil_false in *. exists o, p, plan. done.
  - rewrite bool_decide_eq_false_2 in HC by done. cbn [negb] in HC. eapply absence_evidence; eauto.
  - rewrite bool_decide_eq_false_2 in HC by done. cbn [negb] in HC. eapply absence_evidence; eauto.
Qed.

(** A submission becomes rejected only on evidence: a
    validated refusal by the provider, a second complete inventory without
    the resource at least two minutes after the first (unless its owner
    reported it present), or the owner's own statement. The attempt then
    counts as never submitted and inactive. *)
Theorem Apply_rejected old s a now j' s' e :
  Apply old s a now = Ok (j', s', e) -> jn_Phase j' = Rejected ->
  rejection_evidence old a now /\ jn_SubmitStarted old = true /\ jn_Remote old = None /\
  as_Execution s' = ExecutionNotSubmitted /\ as_RemoteActivity s' = RemoteActivityInactive.
Proof. intros [j1 HA]%Apply_applied. by eapply applied_rejected. Qed.

(** ** Observations *)

(** What a believed observation does to the journal and to the attempt. *)
Definition execution_ended (e : ExecutionState) : Prop :=
  e ∈ [ExecutionSucceeded; ExecutionFailed; ExecutionCancelled; ExecutionTimedOut].
Record observation_effect (old : Journal) (s : AttemptState) (obs : Observation) (j' : Journal) (s' : AttemptState) : Prop := {
  (* what is stored: the provider's evidence, with the state's name for the raw text *)
  oe_stored : exists o, jn_Observation j' = Some o /\ ob_Remote o = ob_Remote obs /\ ob_Execution o = ob_Execution obs /\
    ob_RemoteActivity o = ob_RemoteActivity obs /\ ob_ReleaseEvidence o = ob_ReleaseEvidence obs /\
    ob_ObservedAt o = ob_ObservedAt obs /\ ob_RawState o = ExecutionState_string (ob_Execution obs);
  (* an unknown execution leaves all earlier evidence, and is counted *)
  oe_unknown : ob_Execution obs = ExecutionUnknown ->
    as_Execution s' = as_Execution s /\ as_RemoteActivity s' = as_RemoteActivity s /\
    as_ReleaseEvidence s' = as_ReleaseEvidence s /\ jn_Failures j' = Z.min (jn_Failures old + 1) MaxFailures /\
    (jn_Failures j' = MaxFailures -> jn_Phase j' = Attention /\ as_Orchestration s' = OrchestrationNeedsAttention);
  (* a known one replaces it *)
  oe_known : ob_Execution obs <> ExecutionUnknown ->
    as_Execution s' = ob_Execution obs /\ as_RemoteActivity s' = ob_RemoteActivity obs /\
    as_ReleaseEvidence s' = ob_ReleaseEvidence obs /\ jn_Failures j' = 0;
  (* an execution that ended makes its results collectible and settles a cancellation *)
  oe_ended : execution_ended (ob_Execution obs) ->
    jn_Phase j' = Collectible /\ as_Orchestration s' = OrchestrationCollecting /\
    (as_DeadlineExceeded s' = true <-> as_DeadlineExceeded s = true \/ ob_Execution obs = ExecutionTimedOut) /\
    (as_Cancellation s = CancellationNotRequested -> as_Cancellation s' = CancellationNotRequested) /\
    (as_Cancellation s <> CancellationNotRequested ->
       as_Cancellation s' = CancellationConfirmed /\ ob_Execution obs = ExecutionCancelled \/
       as_Cancellation s' = CancellationTooLate /\ ob_Execution obs <> ExecutionCancelled);
  (* any other one does not *)
  oe_open : ~ execution_ended (ob_Execution obs) ->
    jn_Phase j' <> Collectible /\ as_DeadlineExceeded s' = as_DeadlineExceeded s;
  oe_result : as_Result s' = as_Result s }.

Lemma execution_ended_spec e : execution_ended e <-> ExecutionState_Terminal e = true.
Proof. unfold execution_ended. list_mem. destruct e; cbn; intuition congruence. Qed.

(** The state an observation asks for, by what it says of the execution. *)
Lemma observed_unknown s obs :
  ob_Execution obs = ExecutionUnknown -> let n := observed_state s obs in
  as_Execution n = as_Execution s /\ as_RemoteActivity n = as_RemoteActivity s /\ as_ReleaseEvidence n = as_ReleaseEvidence s /\
  as_Result n = as_Result s /\ as_DeadlineExceeded n = as_DeadlineExceeded s.
Proof.
  intros E. unfold observed_state. rewrite E. cbn [ExecutionState_Terminal negb andb].
  rewrite (bool_decide_eq_true_2 (ExecutionUnknown = ExecutionUnknown)) by done. cbv zeta.
  destruct (cancellationPending s), (as_Cancellation s ==? CancellationManual); cbn; done.
Qed.
Lemma observed_ended s obs :
  execution_ended (ob_Execution obs) -> let n := observed_state s obs in
  as_Execution n = ob_Execution obs /\ as_RemoteActivity n = ob_RemoteActivity obs /\
  as_ReleaseEvidence n = ob_ReleaseEvidence obs /\ as_Result n = as_Result s /\ as_Orchestration n = OrchestrationCollecting /\
  (as_DeadlineExceeded n = true <-> as_DeadlineExceeded s = true \/ ob_Execution obs = ExecutionTimedOut) /\
  (as_Cancellation s = CancellationNotRequested -> as_Cancellation n = CancellationNotRequested) /\
  (as_Cancellation s <> CancellationNotRequested ->
     as_Cancellation n = CancellationConfirmed /\ ob_Execution obs = ExecutionCancelled \/
     as_Cancellation n = CancellationTooLate /\ ob_Execution obs <> ExecutionCancelled).
Proof.
  intros Ht%execution_ended_spec. unfold observed_state. rewrite Ht. cbn [negb andb]. cbv zeta.
  rewrite (bool_decide_eq_false_2 (ob_Execution obs = ExecutionUnknown)) by (by intros E; rewrite E in Ht).
  repeat case_bool_decide; cbn; split_and!; try done; tauto || (split; tauto) || naive_solver.
Qed.
Lemma observed_open s obs :
  ob_Execution obs <> ExecutionUnknown -> ~ execution_ended (ob_Execution obs) -> let n := observed_state s obs in
  as_Execution n = ob_Execution obs /\ as_RemoteActivity n = ob_RemoteActivity obs /\
  as_ReleaseEvidence n = ob_ReleaseEvidence obs /\ as_Result n = as_Result s /\ as_DeadlineExceeded n = as_DeadlineExceeded s.
Proof.
  rewrite execution_ended_spec. intros Hu Ht%not_true_is_false. unfold observed_state. rewrite Ht. cbn [negb andb]. cbv zeta.
  rewrite (bool_decide_eq_false_2 (ob_Execution obs = ExecutionUnknown)) by done.
  destruct (_ || _), (cancellationPending s), (as_Cancellation s ==? CancellationManual); cbn; done.
Qed.

Lemma observed_remote obs r : Observation_Validate obs r = None -> ob_Remote obs = r.
Proof. unfold Observation_Validate. rewrite check_None, reject_None. intros (_ & H & _). by bool_to_prop. Qed.

(** The case of [Apply], once its guards have passed. *)
Lemma observation_case old j s obs a now r j1 s' e :
  jn_Phase j <> Collectible -> jn_Remote old = Some r -> ac_Observation a = Some obs ->
  apply_ObservationSeen old j s a now = Ok (j1, s', e) -> observation_effect old s obs j1 s'.
Proof.
  intros Hj Hr Ho HC. unfold apply_ObservationSeen in HC. rewrite Hr, Ho in HC.
  destruct (_ || _) in HC; [done|]. destruct (_ || _) in HC; [done|]. cbv zeta in HC. destruct (not_nil _) in HC; [done|].
  assert (forall j2, jn_Observation j2 = Some (summarized obs) -> exists o, jn_Observation j2 = Some o /\
    ob_Remote o = ob_Remote obs /\ ob_Execution o = ob_Execution obs /\
    ob_RemoteActivity o = ob_RemoteActivity obs /\ ob_ReleaseEvidence o = ob_ReleaseEvidence obs /\
    ob_ObservedAt o = ob_ObservedAt obs /\ ob_RawState o = ExecutionState_string (ob_Execution obs)) as Hst.
  { intros j2 ->. by exists (summarized obs). }
  destruct (decide (ob_Execution obs = ExecutionUnknown)) as [Hu|Hu].
  - destruct (observed_unknown s obs Hu) as (H1 & H2 & H3 & H4 & H5). rewrite bool_decide_eq_true_2 in HC by done. cbn [negb andb] in HC.
    destruct (journal_problem _ _) in HC; [cbn [result_bind] in HC|done].
    assert (~ execution_ended (ob_Execution obs)) as Hne by (rewrite Hu, execution_ended_spec; done).
    destruct (_ =? MaxFailures) eqn:Em in HC; injection HC as <- <- _;
      (constructor; [by apply Hst|intros _|intros Hn; by destruct (Hn Hu)|intros He; by destruct (Hne He)|intros _|]).
    1-3: destruct (cancellationPending s); cbn; try split_and!; done.
    all: cbn; try split_and!; try done. intros E. lia.
  - rewrite bool_decide_eq_false_2 in HC by done. cbn [negb andb] in HC. injection HC as <- <- _.
    destruct (decide (ExecutionState_Terminal (ob_Execution obs) = true)) as [Ht|Ht].
    + rewrite Ht. pose proof (proj2 (execution_ended_spec _) Ht) as He.
      destruct (observed_ended s obs He) as (H1 & H2 & H3 & H4 & H5 & H6 & H7 & H8).
      constructor; try done; [by apply Hst|..]; intros; cbn; try split_and!; done || tauto.
    + pose proof Ht as Hf%not_true_is_false. rewrite Hf. rewrite <- execution_ended_spec in Ht.
      destruct (observed_open s obs Hu Ht) as (H1 & H2 & H3 & H4 & H5). constructor; try done; by apply Hst.
Qed.

(** C26: an observation is believed only for the accepted resource of a
    submitted attempt, valid, not from the future and strictly newer than the
    last one. What is stored is the provider's evidence with its raw text
    replaced by the name of the enumerated state. If the execution is known,
    it, the remote activity and the release evidence become the attempt's and
    the failure count starts again; if it is unknown, all three stay as they
    were, the failure is counted, and at the limit the attempt needs
    attention. An execution that ended, and only such a one, makes the journal
    collectible and the attempt collecting; it marks the deadline exceeded
    exactly when it timed out or it was already exceeded, and settles a
    requested cancellation as confirmed if it was cancelled and as too late
    otherwise. The result state is not touched. *)
Theorem Apply_observation old s a now j' s' e :
  Apply old s a now = Ok (j', s', e) -> ac_Kind a = ObservationSeen ->
  exists obs r, ac_Observation a = Some obs /\ jn_Phase old = Submitted /\ jn_Remote old = Some r /\ ob_Remote obs = r /\
    Observation_Validate obs r = None /\ ob_ObservedAt obs <= now /\
    (forall o, jn_Observation old = Some o -> ob_ObservedAt o < ob_ObservedAt obs) /\
    observation_effect old s obs j' s'.
Proof.
  intros [j1 HA]%Apply_applied Hk. pose proof (applied_fields _ _ _ _ _ _ _ _ HA) as (Hp & _ & _ & _ & _ & _ & _ & _ & _ & _ & Hob & Hf & _).
  pose proof (step_reload_phase _ _ _ _ _ _ _ _ HA) as Hrp. destruct HA as [_ _ _ _ _ HC _ _ _]. unfold apply_case in HC. rewrite Hk in HC.
  pose proof HC as HE. unfold apply_ObservationSeen in HC.
  destruct (jn_Remote old) as [r|] eqn:Hr; [|done]. destruct (ac_Observation a) as [obs|] eqn:Ho; [|done].
  destruct (_ || _) eqn:E1 in HC; [done|]. destruct (_ || _) eqn:E2 in HC; [done|]. clear HC.
  bool_to_prop. rewrite not_nil_false, some_and_false in *. unfold After in *.
  exists obs, r. split_and!; try done; try lia.
  - by eapply observed_remote.
  - intros o Hoo. match goal with H : forall a, _ -> _ = false |- _ => specialize (H o Hoo) end. bool_to_prop. lia.
  - eapply observation_case in HE; [|congruence|done..]. destruct HE as [F1 F2 F3 F4 F5 F6]. constructor; rewrite ?Hp, ?Hob, ?Hf; assumption.
Qed.

(** ** The one start *)
(** A journal as it is read back from storage. *)
Definition stored (j : Journal) : Prop := reload j = Some j.

(** Before a submission starts nothing about one is recorded. *)
Lemma valid_unsubmitted j :
  Journal_Valid j = true -> jn_SubmitStarted j = false ->
  jn_SubmissionProblem j = None /\ jn_SubmissionResourceName j = "" /\ jn_SubmissionAbsenceObservedAt j = None /\
  jn_StartAuthorization j = None /\ jn_Remote j = None /\ jn_Observation j = None.
Proof.
  intros Hv Hs. assert (jn_Remote j = None /\ jn_Observation j = None) as [-> ->].
  { destruct (jn_Plan j) as [plan|] eqn:Hp; [|by destruct (valid_no_plan _ Hv Hp) as (_ & _ & _ & ? & ?)].
    destruct (valid_plan _ _ Hv Hp) as [_ _ _ _ _ _ _ _ _ _ HR _ HO].
    destruct (jn_Remote j) as [r|]; [destruct (HR r eq_refl); congruence|].
    destruct (jn_Observation j) as [o|]; [by destruct (HO o eq_refl) as (? & ? & _)|done]. }
  rewrite Journal_Valid_split in Hv. destruct Hv as [Hv _]. unfold valid_evidence in Hv. rewrite !guard_true, Hs in Hv.
  destruct Hv as (H1 & H2 & H3 & _ & _ & _ & H4 & _). cbn in *. rewrite andb_true_r in H2. bool_to_prop.
  destruct (jn_SubmissionProblem j), (jn_SubmissionAbsenceObservedAt j), (jn_StartAuthorization j); done.
Qed.

Definition submitting (old : Journal) (auth : option StartAuthorization) : Journal :=
  old <| jn_SubmitStarted := true |> <| jn_StartAuthorization := auth |> <| jn_Phase := Submitting |>
      <| jn_Problem := None |> <| jn_Failures := 0 |> <| jn_Version := jn_Version old + 1 |>.

Lemma submitting_valid old auth :
  Journal_Valid old = true -> jn_Phase old = Ready ->
  (forall x, auth = Some x -> exists p, jn_Prepared old = Some p /\ StartAuthorization_Validate x p = None) ->
  Journal_Valid (submitting old auth) = true.
Proof.
  intros Hv Hp Hauth. destruct (valid_has_plan _ Hv) as [plan HP]; [left; rewrite Hp; by apply (bool_decide_unpack _)|].
  destruct (valid_plan _ _ Hv HP) as [_ _ _ _ Hready _ Huns _ _ _ _ _ _].
  pose proof (Huns (or_intror Hp)) as Hs. destruct (Hready (or_introl Hp)) as (p & Hpr & Hr & Hpv).
  destruct (valid_unsubmitted _ Hv Hs) as (U1 & U2 & U3 & U4 & U5 & U6). destruct (valid_bounds _ Hv) as (Hver & _ & _).
  rewrite Journal_Valid_split in Hv |- *. destruct Hv as [He Hw]. rewrite HP in Hw. split.
  - unfold valid_evidence in *. rewrite !guard_true in *. destruct He as (_ & _ & _ & _ & _ & H6 & _).
    unfold submitting. cbn. rewrite U1, U2, U3. cbn. split_and!; try done.
    + destruct auth as [x|]; [|done]. destruct (Hauth x eq_refl) as (q & Hq & HV). rewrite Hq in *. cbn. by rewrite HV.
    + apply orb_false_iff. split; [|done]. apply orb_false_iff. split; [|done]. lia.
  - unfold submitting. cbn. rewrite HP. unfold valid_with_plan in *. rewrite !guard_true in *.
    destruct Hw as (W1 & W2 & _). cbn. rewrite Hpr in *. cbn in *. rewrite U5, U6, Hr, Hpv. cbn. split_and!; try done.
    apply (proj2 (Z.eqb_neq (jn_Version old + 1) 0)). lia.
Qed.

Lemma submitting_step s :
  LocalOnly s = true -> as_Orchestration s <> OrchestrationQueued ->
  ValidateAttemptStateTransition s
    (s <| as_Orchestration := OrchestrationDispatching |> <| as_Execution := ExecutionUnknown |>
       <| as_RemoteActivity := RemoteActivityPossible |>) = None.
Proof.
  unfold LocalOnly. destruct (_ || _) eqn:E; [done|]. bool_to_prop. rewrite not_nil_false in *.
  destruct s as [o ex re c ra rel d]. cbn in *. subst. destruct o; try done; intros _ _;
    (destruct rel; first [by vm_compute|exfalso; match goal with H : AttemptState_Validate _ = None |- _ => by vm_compute in H end]).
Qed.

(** The one start is granted exactly as asked: from a
    ready preparation of a local attempt, with a valid start authorization if
    one is given, the step records the intent before anything is submitted. *)
Theorem Apply_begin_submission old s a now :
  stored old -> Journal_Valid old = true -> ValidTime now = true -> jn_Version old <> MaxInt64 ->
  jn_Phase old = Ready -> LocalOnly s = true -> as_Orchestration s <> OrchestrationQueued ->
  ac_Kind a = BeginSubmission ->
  (forall auth, ac_StartAuthorization a = Some auth ->
     exists p, jn_Prepared old = Some p /\ StartAuthorization_Validate auth p = None) ->
  Apply old s a now =
    Ok (submitting old (ac_StartAuthorization a),
        s <| as_Orchestration := OrchestrationDispatching |> <| as_Execution := ExecutionUnknown |>
          <| as_RemoteActivity := RemoteActivityPossible |>,
        EventSubmissionIntentRecorded).
Proof.
  intros Hst Hv Hn Hver Hp Hl Ho Hk Hauth.
  destruct (valid_has_plan _ Hv) as [plan HP]; [left; rewrite Hp; by apply (bool_decide_unpack _)|].
  destruct (valid_plan _ _ Hv HP) as [_ _ _ _ Hready _ Huns _ _ _ _ _ _].
  pose proof (Huns (or_intror Hp)) as Hs. destruct (Hready (or_introl Hp)) as (p & Hpr & Hr & Hpv).
  destruct (valid_unsubmitted _ Hv Hs) as (_ & _ & _ & U4 & _ & _).
  assert (AttemptState_Validate s = None /\ as_Cancellation s = CancellationNotRequested) as [HV HC].
  { unfold LocalOnly in Hl. destruct (_ || _) eqn:E in Hl; [done|]. bool_to_prop. by rewrite not_nil_false in *. }
  assert (apply_case old old s a now = Ok (old <| jn_SubmitStarted := true |>
            <| jn_StartAuthorization := ac_StartAuthorization a |> <| jn_Phase := Submitting |>
            <| jn_Problem := None |> <| jn_Failures := 0 |>,
        s <| as_Orchestration := OrchestrationDispatching |> <| as_Execution := ExecutionUnknown |>
          <| as_RemoteActivity := RemoteActivityPossible |>, EventSubmissionIntentRecorded)) as Hcase.
  { unfold apply_case. rewrite Hk. unfold apply_BeginSubmission. rewrite Hp, Hs, Hpr, Hr, Hpv, Hl, HC. cbn.
    destruct (ac_StartAuthorization a); [reflexivity|]. destruct old; cbn in *; subst. reflexivity. }
  unfold Apply. rewrite Hv, HV, Hn, (proj2 (Z.eqb_neq _ _) Hver). cbn [negb not_nil orb].
  unfold stored in Hst. rewrite Hst, Hcase. cbn [result_bind]. cbv zeta.
  pose proof (submitting_valid _ _ Hv Hp Hauth) as Hsv. pose proof (submitting_step _ Hl Ho) as Hss.
  unfold submitting in Hsv. cbn in Hsv, Hss |- *. rewrite Hsv, Hss. reflexivity.
Qed.
