(* ===== verification/ApplyClosed.v ===== *)
(** * The journal state machine: recorded text and local failures

    The problems a journal records consist of controlled messages and closed
    details: no text of a provider, of the operating system or of a request
    reaches them. Local failures are retried for ten minutes counted from the
    first one, a time every further local failure keeps. *)

From S2P Require Import Prelude GoStrings GoTime GoJson Identifiers Problems DomainRecords AttemptStates AttemptRuns Attempts Operations Provider ProviderResources Scheduler Journal JournalLemmas Apply ApplyLemmas ApplyProps ApplyEvidence.
#[local] Open Scope string_scope.
#[local] Open Scope list_scope.
#[local] Open Scope Z_scope.
#[local] Open Scope bool_scope.

(** ** Times as details *)
Lemma digits_ascii l : Forall (fun c => is_digit (byte_val c) = true) l -> Forall (fun c => byte_val c < 128) l.
Proof. intros H. eapply Forall_impl; [exact H|]. intros c. cbn. unfold is_digit, between. lia. Qed.
Lemma pad_ascii n z : Forall (fun c => byte_val c < 128) (pad_digits n z []).
Proof. by apply digits_ascii, pad_digits_digits. Qed.
Lemma chr_ascii s : bool_decide (ascii_only s) = true -> Forall (fun c => byte_val c < 128) (chr s).
Proof. by intros H%bool_decide_eq_true_1. Qed.
Lemma FormatRFC3339Nano_ascii t : ascii_only (FormatRFC3339Nano t).
Proof.
  unfold ascii_only, FormatRFC3339Nano. rewrite bytes_of_string_of. unfold format_seconds.
  destruct (civil_from_days _) as [[y m] d]. repeat apply Forall_app_2; try apply pad_ascii; try (by apply chr_ascii).
  unfold format_frac. case_match; [done|]. apply Forall_app_2; [by apply chr_ascii|].
  destruct (trim_zeros_spec (pad_digits 9 (t `mod` Second) [])) as [k Hk].
  pose proof (pad_ascii 9 (t `mod` Second)) as HP. rewrite Hk in HP. by apply Forall_app in HP as [HP _].
Qed.

Lemma ValidTime_year t : ValidTime t = true -> 0 <= Year t <= 9999.
Proof. unfold ValidTime. intros H. bool_to_prop. lia. Qed.
Lemma journalTime_format t : ValidTime t = true -> journalTime (FormatRFC3339Nano t) = Some t.
Proof. intros H. unfold journalTime. by rewrite parse_format, H by by apply ValidTime_year. Qed.
Lemma journalTime_valid raw t : journalTime raw = Some t -> ValidTime t = true.
Proof. unfold journalTime. destruct (ParseRFC3339 raw) as [x|]; [|done]. destruct (ValidTime x) eqn:E; [|done]. by intros [= <-]. Qed.

(** ** Controlled text *)
Definition controlled_messages : list string :=
  ["Host health refuses new preparation or execution.";
   "Retained or unconfirmed remote resources fill the operator count budget.";
   "Retained application images fill the operator count budget.";
   "Host storage budget refuses new preparation or execution.";
   "Host storage observation is incomplete or stale.";
   "Preparation hold has expired; no new execution was requested.";
   "Private staging could not be confirmed within the observation budget; no execution was submitted.";
   "The exact remote resource is absent; final execution outcome and results remain unknown";
   "Provider observation is unresolved; no new execution was requested.";
   "Execution authorization deadline has expired; no new execution was requested.";
   "Input snapshot could not be prepared or verified.";
   "The frozen job cannot satisfy required capabilities or runner constraints.";
   "The frozen configuration or local store is unavailable; no fallback was selected.";
   "The frozen provider account binding could not be verified.";
   "Private staging identity or readiness is unresolved; creation was not repeated.";
   "Provider proved non-acceptance; another compute request requires explicit operator action.";
   "Submission may have been accepted; reconcile the recorded identity without resubmitting."].

(** A detail is closed vocabulary under a public key, or a time under one of
    the two internal keys. *)
Definition closed_entry (k v : string) : Prop :=
  detail_ok k v = true \/
  ((k = localFailureDetail \/ k = remoteAbsenceDetail) /\ exists t, ValidTime t = true /\ v = FormatRFC3339Nano t).
Definition closed_details (d : option (gmap string string)) : Prop :=
  forall k v, default ∅ d !! k = Some v -> closed_entry k v.
Definition closed_problem (p : Problem) : Prop :=
  pb_Message p ∈ controlled_messages /\ closed_details (pb_Details p).
Definition closed_opt (p : option Problem) : Prop := forall q, p = Some q -> closed_problem q.
Definition closed_journal (j : Journal) : Prop := closed_opt (jn_Problem j) /\ closed_opt (jn_SubmissionProblem j).

Lemma closed_None : closed_opt None.
Proof. by intros q [=]. Qed.
Lemma closed_Some p : closed_problem p -> closed_opt (Some p).
Proof. by intros H q [= <-]. Qed.
Lemma closed_public d : closed_details (public_details d).
Proof.
  intros k v H. destruct (public_details d) as [m|] eqn:E; [|cbn in H; by rewrite lookup_empty in H].
  left. by eapply public_details_closed.
Qed.
Lemma closed_with_Details p d : closed_problem p -> closed_details d -> closed_problem (with_Details d p).
Proof. intros [Hm _] Hd. by split. Qed.
Lemma closed_WithDetail p k v : closed_problem p -> closed_entry k v -> closed_problem (WithDetail k v p).
Proof.
  intros [Hm Hd] He. split; [done|]. intros k' v'.
  change (default ∅ (pb_Details (WithDetail k v p))) with (<[k := v]> (default ∅ (pb_Details p))).
  destruct (decide (k = k')) as [<-|Hne].
  - rewrite lookup_insert_eq. by intros [= <-].
  - rewrite lookup_insert_ne by done. apply Hd.
Qed.
Lemma closed_action p action : closed_problem p -> closed_problem (WithRecommendedAction action p).
Proof. done. Qed.
Lemma closed_retry p x y : closed_problem p -> closed_problem (WithRetrySemantics x y p).
Proof. done. Qed.
#[local] Hint Resolve closed_None closed_Some closed_public closed_with_Details closed_WithDetail closed_action
  closed_retry : relay.

(** A reason under one of the three reason keys. *)
Lemma closed_reason k v : k = ReasonDetail \/ k = CauseDetail \/ k = FirstCauseDetail -> ValidReason v = true -> closed_entry k v.
Proof. intros [->|[->| ->]] H; left; exact H. Qed.
Lemma closed_resource v : ValidResourceName v = true -> closed_entry "resource_name" v.
Proof. intros H. left. exact H. Qed.
Lemma closed_time k t : k = localFailureDetail \/ k = remoteAbsenceDetail -> ValidTime t = true -> closed_entry k (FormatRFC3339Nano t).
Proof. intros Hk Ht. right. split; [done|by exists t]. Qed.
(** What the public projection keeps is closed. *)
Lemma public_entry d k v : v <> "" -> map_get (public_details d) k = v -> detail_ok k v = true.
Proof. rewrite map_get_public. intros Hv. destruct (detail_ok k (map_get d k)) eqn:E; intros <-; [done|done]. Qed.

Lemma closed_optional k v p :
  closed_problem p -> (v <> "" -> closed_entry k v) -> closed_problem (if v <>? "" then WithDetail k v p else p).
Proof. intros Hp He. case_bool_decide; cbn [negb]; [done|]. by apply closed_WithDetail; [|apply He]. Qed.

(** ** Constructed problems *)
Lemma must_closed code stage message p :
  TrimSpace message ∈ controlled_messages -> must_Problem code stage message = Ok p -> closed_problem p.
Proof.
  unfold must_Problem, provider_Problem, NewProblem. intros Hm. destruct (Problem_Validate _); [done|].
  intros [= <-]. split; [exact Hm|]. intros k v. cbn. by rewrite lookup_empty.
Qed.
Lemma controlled_closed code may stage message action p :
  TrimSpace message ∈ controlled_messages -> controlled code may stage message action = Some p -> closed_problem p.
Proof.
  unfold controlled. intros Hm. destruct (NewProblem code message stage) as [q|] eqn:E; [|done].
  destruct (not_nil _); [done|]. intros [= <-]. apply closed_action, closed_retry.
  apply (must_closed code stage message); [done|]. unfold must_Problem, provider_Problem. by rewrite E.
Qed.
Lemma Ok_inj {E A} (x y : A) : Ok (E := E) x = Ok y -> x = y.
Proof. by intros [= ->]. Qed.

Lemma journal_problem_closed code may p : journal_problem code may = Ok p -> closed_opt p.
Proof.
  unfold journal_problem, problem. intros H q ->.
  destruct code; cbv zeta in H;
    lazymatch type of H with
    | panics (Ok (controlled _ _ _ _ _)) = _ =>
        apply Ok_inj in H; refine (controlled_closed _ _ _ _ _ _ _ H);
        apply (bool_decide_unpack _); vm_compute; exact I
    | panics (Ok None) = _ => apply Ok_inj in H; discriminate H
    | _ => idtac
    end.
  destruct (provider_Problem _ _ _) as [r|] eqn:E in H; [|apply Ok_inj in H || discriminate H].
  apply Ok_inj in H. injection H as <-. apply closed_WithDetail; [|by apply closed_reason; [left|]].
  eapply must_closed; [|unfold must_Problem; rewrite E; reflexivity]. apply (bool_decide_unpack _). vm_compute. exact I.
Qed.
#[local] Opaque must_Problem journal_problem.

(** ** Reading back *)
Lemma message_ascii m : m ∈ controlled_messages -> sanitize m = m.
Proof.
  intros H. apply sanitize_ascii. revert m H. apply Forall_forall. apply (bool_decide_unpack _). vm_compute. exact I.
Qed.
Lemma member_ascii l v : bool_decide (Forall ascii_only l) = true -> v ∈ l -> ascii_only v.
Proof. intros H%bool_decide_eq_true_1 Hv. rewrite Forall_forall in H. by apply H. Qed.
Lemma status_ascii v : valid_http_status v = true -> ascii_only v.
Proof.
  unfold valid_http_status, ascii_only. destruct (bytes_of v) as [|a [|b [|c [|]]]]; try done.
  unfold between. intros H. bool_to_prop. repeat constructor; lia.
Qed.
Lemma detail_ascii k v : detail_ok k v = true -> ascii_only k /\ ascii_only v.
Proof.
  unfold detail_ok. case_bool_decide as H1.
  { intros H. split; [by eapply member_ascii; [|exact H1]|by apply ValidReason_ascii]. }
  case_bool_decide as H2; [subst; intros H; split; [by apply (bool_decide_unpack _)|by apply ValidResourceName_ascii]|].
  case_bool_decide as H3; [subst; intros H; split; [by apply (bool_decide_unpack _)|by apply status_ascii]|].
  case_bool_decide as H4; [subst; intros H%bool_decide_eq_true_1; split; [by apply (bool_decide_unpack _)|by eapply member_ascii; [|exact H]]|].
  case_bool_decide as H5; [subst; intros H%bool_decide_eq_true_1; split; [by apply (bool_decide_unpack _)|by eapply member_ascii; [|exact H]]|done].
Qed.
Lemma entry_ascii k v : closed_entry k v -> ascii_only k /\ ascii_only v.
Proof.
  intros [H|[Hk (t & _ & ->)]]; [by apply detail_ascii|]. split; [|apply FormatRFC3339Nano_ascii].
  destruct Hk as [-> | ->]; by apply (bool_decide_unpack _).
Qed.

Lemma closed_reload p : closed_problem p -> closed_problem (reload_problem p).
Proof.
  intros [Hm Hd]. split; [cbn; by rewrite message_ascii|]. unfold reload_problem. cbn [pb_Details].
  destruct (pb_Details p) as [m|]; [|exact Hd]. cbn [fmap option_fmap option_map].
  rewrite reload_map_ascii; [exact Hd|]. intros k v H. by apply entry_ascii, (Hd k v).
Qed.
Lemma closed_reload_opt p : closed_opt p -> closed_opt (reload_problem <$> p).
Proof. intros H q. destruct p as [p|]; [|done]. intros [= <-]. by apply closed_reload, H. Qed.

(** ** The cases *)
Lemma refusal_reasons : Forall (fun r => ValidReason r = true)
  ["remote_staging_dataset_limit"; "remote_kernel_limit"; "remote_attempt_container_limit";
   "remote_resource_scope_unknown"; "remote_shared_dataset_limit"].
Proof. repeat (apply Forall_cons_2; [vm_compute; reflexivity|]). apply Forall_nil_2. Qed.
Lemma refusal_closed raw reason message :
  refusal raw = Some (reason, message) -> ValidReason reason = true /\ TrimSpace message ∈ controlled_messages.
Proof.
  unfold refusal. pose proof refusal_reasons as HF. rewrite Forall_forall in HF.
  destruct (_ || _); [intros [= <- <-]; split; [vm_compute; reflexivity|apply (bool_decide_unpack _); vm_compute; exact I]|].
  case_bool_decide as H1; [intros [= <- <-]; split; [by apply HF|apply (bool_decide_unpack _); vm_compute; exact I]|].
  do 3 (case_bool_decide; [intros [= <- <-]; subst; split; [vm_compute; reflexivity|apply (bool_decide_unpack _); vm_compute; exact I]|]).
  intros [=].
Qed.

Section ClosedCases.
Context (old j : Journal) (s : AttemptState) (a : Action) (now : Time) (j1 : Journal) (s1 : AttemptState) (e : EventType).
Context (Hp : closed_opt (jn_Problem j)) (Hsp : closed_opt (jn_SubmissionProblem j)).
Context (Hnow : ValidTime now = true).

Ltac closed_msg := apply (bool_decide_unpack _); vm_compute; exact I.

Lemma closed_RefuseNewWork : apply_RefuseNewWork old j s a = Ok (j1, s1, e) -> closed_journal j1.
Proof.
  unfold apply_RefuseNewWork. intros HO. destruct (_ || _) in HO; [done|].
  destruct (refusal _) as [[reason message]|] eqn:HR; [|done].
  destruct (must_Problem _ _ _) as [p|] eqn:HM in HO; [cbn [result_bind] in HO|discriminate HO]. cbv zeta in HO.
  destruct (_ && _) eqn:HC in HO; [done|]. injection HO as <- _ _. split; [|exact Hsp]. cbn [jn_Problem].
  apply refusal_closed in HR as [Hr Hmsg].
  apply closed_Some. apply must_closed in HM; [|done].
  rewrite andb_false_iff, !negb_false_iff, bool_decide_eq_true in HC.
  apply closed_optional; [apply closed_action, closed_WithDetail; [done|apply closed_reason; auto]|].
  intros Hc. destruct HC as [HC|HC]; [done|]. apply closed_reason; auto.
Qed.

Lemma closed_PreventDispatch : apply_PreventDispatch old j s a = Ok (j1, s1, e) -> closed_journal j1.
Proof.
  unfold apply_PreventDispatch. intros HO. destruct (_ || _) in HO; [done|]. cbv zeta in HO.
  destruct (_ ==? _) in HO; [|injection HO as <- _ _; by split].
  destruct (_ <>? _) in HO; [done|]. destruct (journal_problem _ _) as [p|] eqn:HJ in HO; [cbn [result_bind] in HO|discriminate HO].
  destruct (ac_PreparationExpired a).
  - destruct (must_Problem _ _ _) as [q|] eqn:HM in HO; [cbn [result_bind] in HO|discriminate HO]. injection HO as <- _ _.
    split; [|exact Hsp]. apply closed_Some. apply must_closed in HM; [|closed_msg].
    apply closed_WithDetail; [done|]. by apply closed_reason; [left|].
  - cbn [result_bind] in HO. injection HO as <- _ _. split; [|exact Hsp]. by eapply journal_problem_closed.
Qed.

Lemma closed_RequestReconciliation : apply_RequestReconciliation old j s a = Ok (j1, s1, e) -> closed_journal j1.
Proof.
  unfold apply_RequestReconciliation. intros HO. destruct (_ && _) in HO; [done|]. cbv zeta in HO. destruct (_ || _) in HO; [done|].
  destruct (negb (jn_SubmitStarted old)) in HO; [destruct (_ || _) in HO|destruct (_ && _) in HO];
    try discriminate HO; cbn [result_bind] in HO;
    injection HO as <- _ _; (split; [apply closed_None|]); destruct (ac_OwnerPresent a); exact Hsp.
Qed.

Lemma closed_PreparationSeen : apply_PreparationSeen old j s a = Ok (j1, s1, e) -> closed_journal j1.
Proof.
  unfold apply_PreparationSeen. intros HO. destruct (_ || _) in HO; [done|].
  destruct (ac_Prepared a) as [prepared|]; [cbn [deref result_bind] in HO|done].
  destruct (jn_Plan old) as [plan|]; [cbn [deref result_bind] in HO|done].
  destruct (not_nil _) in HO; [done|]. destruct (some_and _ _) in HO; [done|]. cbv zeta in HO.
  destruct (pr_Ready prepared), (negb _) in HO;
    try (destruct (journal_problem _ _) as [p|] eqn:HJ in HO; [cbn [result_bind] in HO|discriminate HO]);
    injection HO as <- _ _; (split; [|exact Hsp]); first [apply closed_None|by eapply journal_problem_closed].
Qed.

Lemma closed_EndUnconfirmed : apply_EndUnconfirmedPreparation old j s a = Ok (j1, s1, e) -> closed_journal j1.
Proof.
  unfold apply_EndUnconfirmedPreparation. intros HO. destruct (_ || _) in HO; [done|]. cbv zeta in HO.
  destruct (must_Problem _ _ _) as [p|] eqn:HM in HO; [cbn [result_bind] in HO|discriminate HO].
  set (details := match jn_Problem old with Some o => PublicDetails o | None => None end) in HO.
  set (first := map_get details ReasonDetail) in HO.
  set (cause := if ac_Cause a ==? "" then map_get details CauseDetail else ac_Cause a) in HO.
  apply must_closed in HM; [|closed_msg].
  destruct (_ && _) eqn:HC in HO; [discriminate HO|]. injection HO as <- _ _. split; [|exact Hsp].
  apply closed_Some, closed_optional.
  - apply closed_optional; [by apply closed_action, closed_WithDetail; [|apply closed_reason; [left|]]|].
    intros Hf. apply closed_reason; [auto|]. unfold first, details in *. destruct (jn_Problem old) as [o|]; [|by cbn in Hf].
    by apply (public_entry (pb_Details o) ReasonDetail).
  - intros Hc. rewrite (bool_decide_eq_false_2 _ Hc) in HC. cbn [negb andb] in HC. bool_to_prop.
    apply closed_reason; [auto|]. exact (public_entry _ CauseDetail cause Hc HC).
Qed.

Lemma closed_submission j0 sub :
  closed_opt (jn_Problem j0) -> closed_opt (jn_SubmissionProblem j0) ->
  apply_submission old s a j0 sub = Ok (j1, s1, e) -> closed_journal j1.
Proof.
  intros H1 H2 H. unfold apply_submission in H. destruct (_ || _) in H; [done|].
  destruct sub as [o|]; [cbn [deref result_bind] in H|done]. destruct (jn_Plan old) as [plan|]; [cbn [deref result_bind] in H|done].
  destruct (not_nil _) in H; [done|]. destruct (so_Status o).
  - destruct (so_Remote o); [cbn [deref result_bind] in H|done]. injection H as <- _ _. split; [apply closed_None|exact H2].
  - destruct (journal_problem _ _) as [p|] eqn:HJ in H; [cbn [result_bind] in H|discriminate H]. injection H as <- _ _.
    split; [|exact H2]. cbn [jn_Problem]. apply journal_problem_closed in HJ. destruct (so_Problem o) as [sp|]; [|exact HJ].
    destruct p as [p|]; [|apply closed_None]. apply closed_Some, closed_with_Details; [by apply HJ|apply closed_public].
  - destruct (journal_problem _ _) as [p|] eqn:HJ in H; [cbn [result_bind] in H|discriminate H]. apply journal_problem_closed in HJ.
    destruct (so_Problem o) as [sp|].
    + destruct p as [p|]; [cbn [deref result_bind] in H|done]. injection H as <- _ _.
      assert (closed_problem (with_Details (PublicDetails sp) p)) by (apply closed_with_Details; [by apply HJ|apply closed_public]).
      split; cbn; destruct (jn_SubmissionProblem j0) eqn:E; cbn; first [by apply closed_Some|by rewrite E].
    + injection H as <- _ _. by split.
  - injection H as <- _ _. by split.
Qed.

Lemma text_SubmissionSeen : apply_SubmissionSeen old j s a now = Ok (j1, s1, e) -> closed_journal j1.
Proof.
  unfold apply_SubmissionSeen. destruct (_ <>? _); intros H; [|by eapply closed_submission].
  unfold apply_SubmissionAbsence in H. destruct (_ || _) eqn:E in H; [done|]. cbv zeta in H. bool_to_prop.
  destruct (_ && _) in H.
  - destruct (journal_problem _ _) as [p|] eqn:HJ in H; [cbn [result_bind] in H|discriminate H].
    destruct p as [p|]; [cbn [deref result_bind] in H|discriminate H]. injection H as <- _ _.
    apply journal_problem_closed in HJ. split.
    + apply closed_Some. apply closed_WithDetail; [|by apply closed_resource].
      apply closed_WithDetail; [by apply HJ|by apply closed_reason; [left|]].
    + cbn. destruct (jn_SubmissionAbsenceObservedAt old); exact Hsp.
  - destruct (must_Problem _ _ _) in H; [cbn [result_bind] in H|discriminate H]. by eapply closed_submission; [| |exact H].
Qed.

Lemma closed_ObservationSeen : apply_ObservationSeen old j s a now = Ok (j1, s1, e) -> closed_journal j1.
Proof.
  unfold apply_ObservationSeen. intros HO. destruct (jn_Remote old), (ac_Observation a) as [o|]; try done.
  destruct (_ || _) in HO; [done|]. destruct (_ || _) in HO; [done|]. cbv zeta in HO. destruct (not_nil _) in HO; [done|].
  destruct (negb _ && _) in HO; (destruct (_ ==? _) in HO;
    [destruct (journal_problem _ _) as [p|] eqn:HJ in HO; [cbn [result_bind] in HO|discriminate HO]; destruct (_ =? _) in HO|]);
    injection HO as <- _ _; (split; [|exact Hsp]); first [apply closed_None|by eapply journal_problem_closed].
Qed.

Lemma closed_RemoteAbsenceSeen : apply_RemoteAbsenceSeen old j s a now = Ok (j1, s1, e) -> closed_journal j1.
Proof.
  unfold apply_RemoteAbsenceSeen. intros HO. destruct (jn_Remote old), (ac_Absence a) as [absence|]; try done.
  destruct (_ || _) eqn:E in HO; [done|]. bool_to_prop.
  destruct (must_Problem _ _ _) as [p|] eqn:HM in HO; [cbn [result_bind] in HO|discriminate HO].
  injection HO as <- _ _. split; [|exact Hsp]. apply closed_Some, closed_action, closed_retry.
  apply must_closed in HM; [|closed_msg]. apply closed_WithDetail; [|by apply closed_time; [right|]].
  apply closed_WithDetail; [done|by apply closed_reason; [left|]].
Qed.

Lemma closed_BeginPreparation : apply_BeginPreparation old j s a = Ok (j1, s1, e) -> closed_journal j1.
Proof.
  unfold apply_BeginPreparation. intros HO. destruct (ac_Plan a); [|discriminate HO].
  destruct (_ || _) in HO; [discriminate HO|]. cbv zeta in HO. injection HO as <- _ _. by split.
Qed.
Lemma closed_BeginSubmission : apply_BeginSubmission old j s a = Ok (j1, s1, e) -> closed_journal j1.
Proof.
  unfold apply_BeginSubmission. intros HO. destruct (_ || _) in HO; [discriminate HO|]. cbv zeta in HO.
  injection HO as <- _ _. split; [apply closed_None|]. destruct (ac_StartAuthorization a); exact Hsp.
Qed.

Lemma closed_detail_closed key value p q :
  value <> "" -> closed_problem p -> closed_detail key value p = Ok q -> closed_problem q.
Proof.
  unfold closed_detail. intros Hv Hq HO. cbv zeta in HO. destruct (_ <>? _) eqn:E in HO; [discriminate HO|].
  injection HO as <-. bool_to_prop. apply closed_WithDetail; [done|]. left. exact (public_entry _ key value Hv E).
Qed.
Lemma fault_problem_closed p : fault_problem old a = Ok p -> closed_problem p.
Proof.
  unfold fault_problem. intros HO. cbv zeta in HO.
  destruct (journal_problem _ _) as [q|] eqn:HJ in HO; [cbn [result_bind] in HO|discriminate HO].
  destruct q as [q|]; [|discriminate HO]. apply journal_problem_closed in HJ. specialize (HJ q eq_refl).
  set (base := match ac_Details a with Some d => _ | None => q end) in HO.
  assert (closed_problem base) as Hb by (unfold base; destruct (ac_Details a); [apply closed_with_Details; [done|apply closed_public]|done]).
  clearbody base. set (reason := if _ && _ then _ else ac_Reason a) in HO. clearbody reason.
  destruct (if reason <>? "" then _ else _) as [r|] eqn:HR in HO; [cbn [result_bind] in HO|discriminate HO].
  assert (closed_problem r) as Hr.
  { destruct (reason <>? "") eqn:E; bool_to_prop; [by eapply closed_detail_closed; [| |exact HR]|by injection HR as <-]. }
  destruct (ac_Cause a <>? "") eqn:E; bool_to_prop; [by eapply closed_detail_closed; [| |exact HO]|by injection HO as <-].
Qed.

Lemma closed_Fault : apply_Fault old j s a now = Ok (j1, s1, e) -> closed_journal j1.
Proof.
  unfold apply_Fault. intros HO. destruct (_ || _) in HO; [discriminate HO|]. cbv zeta in HO.
  destruct (fault_problem _ _) as [p|] eqn:HF in HO; [cbn [result_bind] in HO|discriminate HO].
  apply fault_problem_closed in HF.
  set (jx := if fault_resource old a <>? "" then _ else _) in HO.
  assert (jn_SubmissionProblem jx = jn_SubmissionProblem j) as Hx by (unfold jx; repeat case_match; reflexivity).
  clearbody jx. rewrite <- Hx in Hsp. destruct (is_nil _) in HO.
  - unfold fault_local in HO. cbv zeta in HO.
    assert (closed_problem (WithDetail localFailureDetail
              (FormatRFC3339Nano (default now (journalTime (journalDetail old localFailureDetail)))) p)) as Hl.
    { apply closed_WithDetail; [done|]. apply closed_time; [by left|].
      destruct (journalTime _) as [t|] eqn:E; [by eapply journalTime_valid|done]. }
    destruct (_ || _) in HO; injection HO as <- _ _; (split; [|exact Hsp]); apply closed_Some; [|by apply closed_retry, closed_action].
    destruct (_ ==? _); [by apply closed_action|done].
  - unfold fault_remote in HO. cbv zeta in HO. destruct (_ || _) in HO; injection HO as <- _ _; (split; [|exact Hsp]); by apply closed_Some.
Qed.

Lemma text_case : apply_case old j s a now = Ok (j1, s1, e) -> closed_journal j1.
Proof.
  unfold apply_case. destruct (ac_Kind a);
    [apply closed_BeginPreparation|apply closed_PreparationSeen|apply closed_EndUnconfirmed|apply closed_BeginSubmission
    |apply text_SubmissionSeen|apply closed_ObservationSeen|apply closed_RemoteAbsenceSeen|apply closed_Fault
    |apply closed_PreventDispatch|apply closed_PreventDispatch|apply closed_RefuseNewWork
    |apply closed_RequestReconciliation|apply text_SubmissionSeen|apply text_SubmissionSeen|intros [=]].
Qed.
End ClosedCases.

(** ** After the switch *)
Lemma merge_submission_closed sp p : closed_problem p -> closed_problem (merge_submission sp p).
Proof.
  intros Hp. unfold merge_submission.
  assert (forall k v, default ∅ (PublicDetails sp) !! k = Some v -> closed_entry k v) as Hd by apply closed_public.
  revert Hd. generalize (default ∅ (PublicDetails sp)). intros m.
  apply (map_fold_weak_ind (fun r m => (forall k v, m !! k = Some v -> closed_entry k v) -> closed_problem r)); [done|].
  intros k v m' r Hk IH Hm. assert (closed_problem r) as Hr.
  { apply IH. intros k' v' H. apply Hm. by rewrite lookup_insert_ne by congruence. }
  destruct (_ && _); [|done]. apply closed_WithDetail; [done|]. apply Hm, lookup_insert_eq.
Qed.
Lemma merge_details_closed j :
  closed_journal j -> (jn_SubmissionResourceName j <> "" -> ValidResourceName (jn_SubmissionResourceName j) = true) ->
  closed_journal (merge_details j).
Proof.
  destruct j as [? ? ? ? ? ? ? sp ? name ? ? ? ? p ?]. unfold closed_journal, merge_details. cbn.
  intros [Hp Hs] Hn. destruct p as [p|]; [|by split]. destruct sp as [sp|]; cbn.
  - destruct (name <>? "") eqn:E; bool_to_prop; (split; [apply closed_Some|exact Hs]).
    + apply closed_WithDetail; [by apply merge_submission_closed, Hp|by apply closed_resource, Hn].
    + by apply merge_submission_closed, Hp.
  - destruct (name <>? "") eqn:E; bool_to_prop; (split; [|exact Hs]); [apply closed_Some|done].
    apply closed_WithDetail; [by apply Hp|by apply closed_resource, Hn].
Qed.
Lemma valid_resource_name j :
  Journal_Valid j = true -> jn_SubmissionResourceName j <> "" -> ValidResourceName (jn_SubmissionResourceName j) = true.
Proof.
  rewrite Journal_Valid_split. intros [H _] Hn. unfold valid_evidence in H. rewrite !guard_true in H.
  destruct H as (_ & H & _). rewrite (bool_decide_eq_false_2 _ Hn) in H. cbn [negb andb] in H. by bool_to_prop.
Qed.

(** C27: no outside text reaches a recorded problem: starting from a
    journal whose problems consist of controlled messages and closed details,
    every accepted transition leaves only controlled messages, reasons,
    resource names, numbers and times the code formatted itself, whatever the
    action carried. *)
Theorem Apply_closed_text old s a now j' s' e :
  closed_journal old -> Apply old s a now = Ok (j', s', e) -> closed_journal j'.
Proof.
  intros [Hp Hs] [j1 HA]%Apply_applied. destruct (applied_fields _ _ _ _ _ _ _ _ HA) as (_ & _ & _ & _ & _ & _ & _ & Hn & _).
  pose proof (valid_resource_name _ (ap_valid' _ _ _ _ _ _ _ _ HA)) as Hv. rewrite Hn in Hv.
  assert (closed_journal (merge_details j1)) as [H1 H2].
  { apply merge_details_closed; [|exact Hv]. destruct HA as [? ? ? ? ? Hc].
    refine (text_case _ _ _ _ _ _ _ _ _ _ _ Hc); [exact (closed_reload_opt _ Hp)|exact (closed_reload_opt _ Hs)|done]. }
  rewrite (ap_next _ _ _ _ _ _ _ _ HA). by split.
Qed.

(** ** The local failure budget *)
(** When the first of the local failures the journal records happened. *)
Definition local_started (j : Journal) (now : Time) : Time := default now (journalTime (journalDetail j localFailureDetail)).
Definition local_over (a : Action) (started now : Time) : Prop :=
  permanent_code (ac_Code a) = true \/ local_permanent (ac_Code a) = true \/ started + LocalFailureBudget <= now.

Lemma detail_WithDetail k v (p : Problem) : detail (WithDetail k v p) k = v.
Proof. unfold detail, map_get. cbn. by rewrite lookup_insert_eq. Qed.
Lemma merge_details_id j : jn_SubmissionProblem j = None -> jn_SubmissionResourceName j = "" -> merge_details j = j.
Proof.
  intros H1 H2. unfold merge_details. rewrite H1. destruct (jn_Problem j) eqn:E; [rewrite E|rewrite E; reflexivity].
  by rewrite H2.
Qed.
Lemma unsubmitted_clean j : Journal_Valid j = true -> jn_SubmitStarted j = false ->
  jn_SubmissionProblem j = None /\ jn_SubmissionResourceName j = "".
Proof.
  rewrite Journal_Valid_split. intros [H _] Hs. unfold valid_evidence in H. rewrite !guard_true, Hs in H.
  destruct H as (H1 & H2 & _). split.
  - by destruct (jn_SubmissionProblem j).
  - by case_bool_decide as Hn; [|cbn in H2].
Qed.

Lemma fault_local_budget old s a now j p :
  ValidTime now = true ->
  let started := local_started old now in
  let r := fault_local old s a now j p in
  journalTime (journalDetail r.1 localFailureDetail) = Some started /\
  (local_over a started now -> jn_Phase r.1 = Failed /\ as_Orchestration r.2 = OrchestrationFailed) /\
  (~ local_over a started now -> jn_Phase r.1 = jn_Phase j /\ as_Orchestration r.2 = OrchestrationQueued /\
     exists q, jn_Problem r.1 = Some q /\ pb_RecommendedAction q = RecommendedActionWait).
Proof.
  intros Hn. cbv zeta. unfold fault_local. fold (local_started old now). set (t := local_started old now).
  assert (ValidTime t = true) as Ht.
  { unfold t, local_started. destruct (journalTime _) as [x|] eqn:E; [by eapply journalTime_valid|done]. }
  assert (local_over a t now <->
    permanent_code (ac_Code a) || local_permanent (ac_Code a) || negb (Before now (t + LocalFailureBudget)) = true) as ->.
  { unfold local_over, Before. rewrite !orb_true_iff, negb_true_iff, Z.ltb_ge. tauto. }
  destruct (_ || _); (split; [|split]); try done; cbn [fst]; unfold journalDetail; cbn [jn_Problem].
  - destruct (_ ==? _); (etransitivity; [|by apply journalTime_format]); f_equal; apply detail_WithDetail.
  - etransitivity; [|by apply journalTime_format]. f_equal. apply detail_WithDetail.
  - intros _. split; [reflexivity|]. split; [reflexivity|]. by eexists.
Qed.

(** A failure before anything was asked of a provider keeps
    the time of the first such failure; the attempt fails exactly when the
    failure is permanent or ten minutes have passed since that time, and is
    queued again otherwise, with the recommendation to wait. *)
Theorem Apply_local_budget old s a now j' s' e :
  ac_Kind a = Fault -> jn_Plan old = None -> Apply old s a now = Ok (j', s', e) ->
  journalTime (journalDetail j' localFailureDetail) = Some (local_started old now) /\
  (local_over a (local_started old now) now -> jn_Phase j' = Failed /\ as_Orchestration s' = OrchestrationFailed) /\
  (~ local_over a (local_started old now) now -> jn_Phase j' = Local /\ as_Orchestration s' = OrchestrationQueued /\
     exists q, jn_Problem j' = Some q /\ pb_RecommendedAction q = RecommendedActionWait).
Proof.
  intros Hk Hplan [j1 HA]%Apply_applied. pose proof (applied_fields _ _ _ _ _ _ _ _ HA) as Hf. destruct HA as [Hv _ Hn _ Hr Hc Hnext Hv' _].
  destruct (valid_no_plan _ Hv Hplan) as (Hph & Hsub & _). pose proof (unsubmitted_clean _ Hv Hsub) as [Hsp Hname].
  unfold apply_case in Hc. rewrite Hk in Hc. unfold apply_Fault in Hc.
  destruct (_ || _) eqn:HG in Hc; [discriminate Hc|]. cbv zeta in Hc.
  assert (jn_Phase old = Local) as HL by (destruct Hph as [H|[H|H]]; [done|rewrite H in HG; discriminate HG..]).
  destruct (fault_problem _ _) as [p|] in Hc; [cbn [result_bind] in Hc|discriminate Hc]. rewrite Hplan in Hc. cbn [is_nil] in Hc.
  set (jx := if fault_resource old a <>? "" then _ else _) in Hc.
  assert (jn_Phase jx = jn_Phase old /\ jn_SubmissionProblem jx = None /\ jn_SubmissionResourceName jx = "") as (Hx1 & Hx2 & Hx3).
  { assert (fault_resource old a = "") as Hfr by (unfold fault_resource; rewrite Hsub; by destruct (ac_Details a)).
    unfold jx. rewrite Hfr. cbn [negb]. rewrite bool_decide_eq_true_2 by done. cbn [negb].
    pose proof (reload_phase _ _ Hv Hr) as HRP.
    destruct (_ && _); cbn [jn_Phase jn_SubmissionProblem jn_SubmissionResourceName]; (split; [exact HRP|]);
      (split; cbn; [by rewrite Hsp|by rewrite Hname]). }
  clearbody jx. pose proof (fault_local_budget old s a now jx p Hn) as HB. cbv zeta in HB.
  destruct (fault_local old s a now jx p) as [jf sf] eqn:HF. injection Hc as <- <- _. cbn [fst snd] in HB.
  assert (merge_details jf = jf) as Hm.
  { unfold fault_local in HF. cbv zeta in HF. apply merge_details_id; destruct (_ || _) in HF; injection HF as <- _; done. }
  rewrite Hnext, Hm, <- HL, <- Hx1. exact HB.
Qed.
