(* ===== verification/DispatchRuns.v ===== *)
(** * Runs of dispatch

    The journal and the attempt state of one attempt as they are stored, and
    every way they change: the engine commits an action, an operation adjusts
    the attempt and commits an action, a preview of the cleanup records a
    preparation that was found late, or another component moves the attempt
    alone ([internal/store/sqlite/dispatch.go], [operations_actions.go],
    [operations_dispatch.go], [cleanup_preparation.go]). What [Apply] promises for one step becomes what
    an attempt promises for its whole life, crashes between steps included:
    every step starts from what was read back. *)

From S2P Require Import Prelude GoStrings GoTime GoJson Identifiers Problems DomainRecords AttemptStates AttemptRuns Attempts Operations Provider ProviderResources Scheduler Journal JournalLemmas Apply ApplyLemmas ApplyProps ApplyEvidence.
#[local] Open Scope string_scope.
#[local] Open Scope list_scope.
#[local] Open Scope Z_scope.
#[local] Open Scope bool_scope.
#[local] Opaque must_Problem journal_problem.

(** ** Storage *)
Definition new_journal : Journal := mkJournal 0 Local None "" None None false None None "" false None None None None 0.

(** [loadJournal]: no row is the new journal; a row is decoded and refused
    when it is not valid. The columns hold the version and the phase that
    were encoded. *)
Definition loadJournal (row : option Journal) : option Journal :=
  match row with
  | None => Some new_journal
  | Some next =>
      match reload next with
      | Some j => if (jn_Version j =? jn_Version next) && (Phase_string (jn_Phase j) ==? Phase_string (jn_Phase next))
                     && Journal_Valid j then Some j else None
      | None => None
      end
  end.

(** The actions operations commit after adjusting the attempt themselves. *)
Definition operation_kinds : list Kind := [PreventDispatch; RequestReconciliation; ObservationSeen; OwnerSubmissionAbsent].

(** [RecordCleanupPreparation]: the journal that is written, without an action,
    when the preview of a cleanup finds the private preparation of a finished
    attempt whose start was never recorded. That the plan of the preview is
    still current and that the attempt could be cleaned up is left open: more
    journals are written here than by the store. *)
Definition late_preparation (j : Journal) (s : AttemptState) (prepared : Prepared) : option Journal :=
  match jn_Plan j with
  | Some plan =>
      if not_nil (jn_Prepared j) || jn_SubmitStarted j || negb (OrchestrationState_Terminal (as_Orchestration s))
         || not_nil (Prepared_Validate prepared plan (jn_PreparationID j)) || negb (pr_Private prepared)
      then None else
      let next := j <| jn_Prepared := Some prepared |> <| jn_Version := int64 (jn_Version j + 1) |> in
      if Journal_Valid next then Some next else None
  | None => None
  end.

(** ** Runs

    [run trace j s]: the journal [j] and the state [s] are stored after the
    actions of [trace], the latest first. *)
Inductive run : list (Action * Time) -> Journal -> AttemptState -> Prop :=
  | run_new j s : loadJournal None = Some j -> AttemptState_Validate s = None -> run [] j s
  | run_commit tr j s a now next s' e j' :
      run tr j s -> Apply j s a now = Ok (next, s', e) -> loadJournal (Some next) = Some j' -> run ((a, now) :: tr) j' s'
  | run_operation tr j s a now adjusted next r j' s' :
      run tr j s -> ac_Kind a ∈ operation_kinds -> Apply j adjusted a now = Ok (next, r.1, r.2) ->
      loadJournal (Some next) = Some j' -> attempt_step s s' -> run ((a, now) :: tr) j' s'
  | run_late tr j s prepared next j' :
      run tr j s -> late_preparation j s prepared = Some next -> loadJournal (Some next) = Some j' -> run tr j' s
  | run_other tr j s s' : run tr j s -> attempt_step s s' -> run tr j s'.

Definition kind_of (x : Action * Time) : Kind := ac_Kind x.1.
Definition count_kind (k : Kind) (tr : list (Action * Time)) : nat := length (filter (fun x => kind_of x = k) tr).

Lemma load_fields next j' : loadJournal (Some next) = Some j' -> j' = reload_journal next /\ Journal_Valid j' = true.
Proof.
  unfold loadJournal. destruct (reload next) as [k|] eqn:E; [|done]. apply reload_Some in E.
  destruct (_ && _) eqn:G; [|done]. intros [= <-]. by bool_to_prop.
Qed.

(** A committed action: what one step of the journal looks like once stored. *)
Definition stored_step (a : Action) (now : Time) (j j' : Journal) : Prop :=
  exists s next s' e j1, applied j s a now next s' e j1 /\ j' = reload_journal next.
Lemma stored_step_intro a now j s next s' e j' :
  Apply j s a now = Ok (next, s', e) -> loadJournal (Some next) = Some j' -> stored_step a now j j'.
Proof. intros [j1 H]%Apply_applied [-> _]%load_fields. by exists s, next, s', e, j1. Qed.

(** A preparation recorded late changes nothing else. *)
Definition stored_late (j j' : Journal) : Prop :=
  jn_SubmitStarted j' = jn_SubmitStarted j /\ is_nil (jn_Plan j') = is_nil (jn_Plan j) /\ jn_Remote j' = reload_remote <$> jn_Remote j /\
  jn_SubmissionAbsenceObservedAt j' = jn_SubmissionAbsenceObservedAt j /\ jn_Phase j' = jn_Phase j.
Lemma stored_late_intro j s prepared next j' :
  late_preparation j s prepared = Some next -> loadJournal (Some next) = Some j' -> stored_late j j'.
Proof.
  unfold late_preparation. destruct (jn_Plan j) as [plan|] eqn:Hp; [|done]. destruct (_ || _); [done|]. cbv zeta.
  destruct (Journal_Valid _) eqn:Hv; [|done]. intros [= <-] [-> _]%load_fields. unfold stored_late.
  split_and!; [done|cbn; by rewrite Hp|done|done|]. change (reload_enum (jn_Phase j) = jn_Phase j).
  apply reload_Phase. intros raw. exact (valid_phase_known _ raw Hv).
Qed.

(** A property of journals and traces that storage steps keep holds along
    every run. *)
Lemma run_journal_ind (P : list (Action * Time) -> Journal -> Prop) :
  P [] new_journal ->
  (forall tr j a now j', P tr j -> stored_step a now j j' -> P ((a, now) :: tr) j') ->
  (forall tr j j', P tr j -> stored_late j j' -> P tr j') ->
  forall tr j s, run tr j s -> P tr j.
Proof.
  intros H0 HS HT tr j s.
  induction 1 as [j s [= <-] _|tr j s a now next s' e j' _ IH HA HL|tr j s a now x next [r e] j' s' _ IH Hk HA HL _|tr j s p next j' _ IH HA HL|]; [done| | | |done].
  - eapply HS; [exact IH|by eapply stored_step_intro].
  - eapply HS; [exact IH|by eapply stored_step_intro].
  - eapply HT; [exact IH|by eapply stored_late_intro].
Qed.

(** ** One start, one preparation *)
Lemma stored_submit a now j j' :
  stored_step a now j j' ->
  jn_SubmitStarted j' = jn_SubmitStarted j /\ ac_Kind a <> BeginSubmission \/
  ac_Kind a = BeginSubmission /\ jn_SubmitStarted j = false /\ jn_SubmitStarted j' = true.
Proof. intros (s & next & s' & e & j1 & HA & ->). exact (step_submit _ _ _ _ _ _ _ _ HA). Qed.

Lemma stored_plan a now j j' :
  stored_step a now j j' ->
  is_nil (jn_Plan j') = is_nil (jn_Plan j) /\ ac_Kind a <> BeginPreparation \/
  ac_Kind a = BeginPreparation /\ is_nil (jn_Plan j) = true /\ is_nil (jn_Plan j') = false.
Proof.
  intros (s & next & s' & e & j1 & HA & ->). pose proof (applied_fields _ _ _ _ _ _ _ _ HA) as (_ & Hp & _).
  destruct (step_frame _ _ _ _ _ _ _ _ HA) as (_ & Hf & _).
  destruct (decide (ac_Kind a = BeginPreparation)) as [Hk|Hk].
  - right. split; [done|]. pose proof (ap_case _ _ _ _ _ _ _ _ HA) as H. unfold apply_case in H. rewrite Hk in H.
    unfold apply_BeginPreparation in H. destruct (ac_Plan a) as [plan|]; [|discriminate H].
    destruct (_ || _) eqn:E in H; [discriminate H|]. bool_to_prop. cbv zeta in H. injection H as <- _ _.
    rewrite not_nil_false in *. cbn in Hp |- *. rewrite Hp. split; [|done]. by destruct (jn_Plan j).
  - left. split; [|done]. destruct Hf as [?|[Hf _]]; [done|]. cbn. rewrite Hp, Hf. cbn. by destruct (jn_Plan j).
Qed.

Definition one_of (b : bool) : nat := if b then 1%nat else 0%nat.
Lemma count_cons k x tr : count_kind k (x :: tr) = (one_of (bool_decide (kind_of x = k)) + count_kind k tr)%nat.
Proof. unfold count_kind. rewrite filter_cons. case_decide; [by rewrite bool_decide_eq_true_2|by rewrite bool_decide_eq_false_2]. Qed.

Lemma run_counts tr j s :
  run tr j s ->
  count_kind BeginSubmission tr = one_of (jn_SubmitStarted j) /\ count_kind BeginPreparation tr = one_of (negb (is_nil (jn_Plan j))).
Proof.
  apply (run_journal_ind (fun tr j => count_kind BeginSubmission tr = one_of (jn_SubmitStarted j) /\
    count_kind BeginPreparation tr = one_of (negb (is_nil (jn_Plan j))))); [done| |by intros ? ? ? ? (-> & -> & _)].
  clear tr j. intros tr j a now j' [IH1 IH2] Hs. rewrite !count_cons, IH1, IH2. unfold kind_of. cbn [fst].
  destruct (stored_submit _ _ _ _ Hs) as [[-> Hk]|(Hk & -> & ->)], (stored_plan _ _ _ _ Hs) as [[-> Hk']|(Hk' & -> & ->)];
    repeat case_bool_decide; solve [congruence|split; reflexivity].
Qed.

(** C16: over the whole life of an attempt, however often it is
    retried, reconciled or recovered, execution is started at most once and
    preparation at most once, and never started without a preparation. *)
Theorem run_one_start tr j s :
  run tr j s ->
  (count_kind BeginSubmission tr <= 1)%nat /\ (count_kind BeginPreparation tr <= 1)%nat /\
  (0 < count_kind BeginSubmission tr -> count_kind BeginPreparation tr = 1)%nat.
Proof.
  intros H. pose proof (run_counts _ _ _ H) as [-> ->].
  assert (jn_SubmitStarted j = true -> is_nil (jn_Plan j) = false) as Hplan.
  { revert tr j s H. apply (run_journal_ind (fun _ j => jn_SubmitStarted j = true -> is_nil (jn_Plan j) = false)); [done| |by intros ? ? ? ? (-> & -> & _)].
    intros _ j a now j' IH Hs Hsub. destruct (stored_plan _ _ _ _ Hs) as [[-> _]|(_ & _ & ->)]; [|done].
    destruct (stored_submit _ _ _ _ Hs) as [[E _]|(Hk & _)]; [apply IH; congruence|].
    destruct Hs as (s & next & s' & e & j1 & HA & ->). pose proof (ap_case _ _ _ _ _ _ _ _ HA) as HC.
    unfold apply_case in HC. rewrite Hk in HC. unfold apply_BeginSubmission in HC.
    destruct (_ || _) eqn:E in HC; [discriminate HC|]. bool_to_prop.
    destruct (valid_has_plan j) as [plan ->]; [by destruct HA| |done]. left. replace (jn_Phase j) with Ready by done.
    apply (bool_decide_unpack _). vm_compute. exact I. }
  destruct (jn_SubmitStarted j) eqn:E; cbn; [rewrite Hplan by done|destruct (is_nil _)]; cbn; lia.
Qed.

(** ** Capacity *)
Lemma step_activity c n : attempt_step c n -> as_RemoteActivity c <> RemoteActivityNotStarted -> as_RemoteActivity n <> RemoteActivityNotStarted.
Proof.
  intros H Hc Hn. pose proof (run_activity_rank _ _ (rtc_once _ _ H)) as Hr. rewrite Hn in Hr. cbn in Hr.
  destruct (as_RemoteActivity c); cbn in Hr; destruct Hr; (congruence || lia).
Qed.
Lemma step_consistent c n : attempt_step c n -> consistent n.
Proof. intros H. by apply transition_spec in H as []. Qed.
Lemma run_state_consistent tr j s : run tr j s -> consistent s.
Proof.
  induction 1 as [j s _ Hc%Validate_spec|tr j s a now next s' e j' _ _ [j1 HA]%Apply_applied _|tr j s a now x next r j' s' _ _ _ _ _ H|tr j s p next j' _ IH _ _|tr j s s' _ _ H];
    [done|by eapply step_consistent, (ap_step _ _ _ _ _ _ _ _ HA)|by eapply step_consistent|done|by eapply step_consistent].
Qed.
Lemma begin_activity j s a now next s' e j1 :
  applied j s a now next s' e j1 -> ac_Kind a = BeginSubmission -> as_RemoteActivity s' = RemoteActivityPossible.
Proof.
  intros HA Hk. pose proof (ap_case _ _ _ _ _ _ _ _ HA) as HC. unfold apply_case in HC. rewrite Hk in HC.
  unfold apply_BeginSubmission in HC. destruct (_ || _) in HC; [discriminate HC|]. by injection HC as _ <- _.
Qed.
Lemma run_started tr j s : run tr j s -> jn_SubmitStarted j = true -> as_RemoteActivity s <> RemoteActivityNotStarted.
Proof.
  induction 1 as [j s [= <-] _|tr j s a now next s' e j' _ IH HA HL|tr j s a now x next [r e] j' s' _ IH Hk HA HL Hs|tr j s p next j' _ IH HA HL|tr j s s' _ IH Hs]; [done| | | |].
  - pose proof (stored_step_intro _ _ _ _ _ _ _ _ HA HL) as Hst. apply Apply_applied in HA as [j1 HA].
    destruct (stored_submit _ _ _ _ Hst) as [[-> _]|(Hk & _)]; [|by rewrite (begin_activity _ _ _ _ _ _ _ _ HA Hk)].
    intros H. eapply step_activity; [exact (ap_step _ _ _ _ _ _ _ _ HA)|by apply IH].
  - pose proof (stored_step_intro _ _ _ _ _ _ _ _ HA HL) as Hst.
    destruct (stored_submit _ _ _ _ Hst) as [[-> _]|(Hk' & _)]; [|rewrite Hk' in Hk; not_member Hk].
    intros H. eapply step_activity; [exact Hs|by apply IH].
  - by destruct (stored_late_intro _ _ _ _ _ HA HL) as (-> & _).
  - intros H. eapply step_activity; [exact Hs|by apply IH].
Qed.

(** C22: once the start of an attempt is recorded, its account
    capacity is given back only when the remote side is known to be inactive,
    whatever else happens to the attempt in between. *)
Theorem run_capacity tr j s barrier :
  run tr j s -> (0 < count_kind BeginSubmission tr)%nat -> HoldsAccount s barrier = false ->
  as_RemoteActivity s = RemoteActivityInactive.
Proof.
  intros H Hc Hf. pose proof (run_counts _ _ _ H) as [Hn _].
  assert (jn_SubmitStarted j = true) as Hs by (destruct (jn_SubmitStarted j); [done|rewrite Hn in Hc; cbn in Hc; lia]).
  pose proof (run_started _ _ _ H Hs) as Ha. apply run_state_consistent, Validate_spec in H. unfold HoldsAccount in Hf.
  rewrite H in Hf. cbn in Hf. destruct (as_RemoteActivity s); try done; cbn in Hf; rewrite !andb_false_r in Hf; by destruct barrier.
Qed.

(** ** Provenance *)
(** An accepted submission among the committed actions, and no other answer
    to the submission after it. *)
Definition accepted_once (tr : list (Action * Time)) (r : RemoteReference) : Prop :=
  exists later a now earlier o r0, tr = later ++ (a, now) :: earlier /\ (forall x, x ∈ later -> kind_of x <> SubmissionSeen) /\
    ac_Kind a = SubmissionSeen /\ ac_Submission a = Some o /\ so_Status o = SubmissionAccepted /\ so_Remote o = Some r0 /\
    r = reload_remote r0.

Lemma accepted_case old j s a now j1 s1 e :
  ac_Kind a = SubmissionSeen -> jn_Remote j = None -> apply_case old j s a now = Ok (j1, s1, e) ->
  jn_Remote old = None /\
  forall r, jn_Remote j1 = Some r -> exists o, ac_Submission a = Some o /\ so_Status o = SubmissionAccepted /\ so_Remote o = Some r.
Proof.
  intros Hk Hn HC. unfold apply_case in HC. rewrite Hk in HC. unfold apply_SubmissionSeen in HC.
  rewrite bool_decide_eq_true_2 in HC by done. cbn [negb] in HC. unfold apply_submission in HC.
  destruct (_ || _) eqn:E in HC; [discriminate HC|]. bool_to_prop. rewrite not_nil_false in *. split; [done|].
  destruct (ac_Submission a) as [o|]; [cbn [deref result_bind] in HC|discriminate HC].
  destruct (jn_Plan old); [cbn [deref result_bind] in HC|discriminate HC]. destruct (not_nil _) in HC; [discriminate HC|].
  intros r Hr. exists o. split; [done|]. destruct (so_Status o).
  - destruct (so_Remote o) as [x|]; [cbn [deref result_bind] in HC|discriminate HC]. injection HC as <- _ _. by cbn in Hr.
  - destruct (journal_problem _ _) in HC; [cbn [result_bind] in HC|discriminate HC]. injection HC as <- _ _. cbn in Hr. congruence.
  - destruct (journal_problem _ _) as [q|] in HC; [cbn [result_bind] in HC|discriminate HC]. destruct (so_Problem o).
    + destruct q; [cbn [deref result_bind] in HC|discriminate HC]. injection HC as <- _ _. cbn in Hr.
      destruct (jn_SubmissionProblem j); cbn in Hr; congruence.
    + injection HC as <- _ _. cbn in Hr. congruence.
  - injection HC as <- _ _. congruence.
Qed.

Lemma stored_remote a now j j' :
  stored_step a now j j' ->
  (forall r, jn_Remote j = Some r -> jn_Remote j' = Some (reload_remote (reload_remote r)) /\ ac_Kind a <> SubmissionSeen) /\
  (jn_Remote j = None -> forall r, jn_Remote j' = Some r -> ac_Kind a = SubmissionSeen /\
     exists o r0, ac_Submission a = Some o /\ so_Status o = SubmissionAccepted /\ so_Remote o = Some r0 /\ r = reload_remote r0).
Proof.
  intros (s & next & s' & e & j1 & HA & ->). split.
  - intros r Hr. cbn. rewrite (step_remote _ _ _ _ _ _ _ _ HA _ Hr). split; [done|]. intros Hk.
    pose proof (ap_case _ _ _ _ _ _ _ _ HA) as HC. unfold apply_case in HC. rewrite Hk in HC.
    unfold apply_SubmissionSeen, apply_submission in HC. rewrite Hk, Hr in HC. cbn [not_nil] in HC.
    rewrite bool_decide_eq_true_2 in HC by done. cbn [negb] in HC. by rewrite orb_true_r in HC.
  - intros Hr r Hr'. cbn in Hr'. pose proof (applied_fields _ _ _ _ _ _ _ _ HA) as (_ & _ & _ & _ & _ & _ & _ & _ & _ & Hf & _).
    destruct (step_frame _ _ _ _ _ _ _ _ HA) as (_ & _ & _ & _ & [Hk|Hk] & _).
    + split; [done|]. destruct (accepted_case _ _ _ _ _ _ _ _ Hk (f_equal (fmap reload_remote) Hr) (ap_case _ _ _ _ _ _ _ _ HA)) as [_ HX].
      rewrite Hf in Hr'. destruct (jn_Remote j1) as [r0|]; [|discriminate Hr']. injection Hr' as <-.
      destruct (HX r0 eq_refl) as (o & ? & ? & ?). by exists o, r0.
    + rewrite Hf, Hk in Hr'. cbn in Hr'. by rewrite Hr in Hr'.
Qed.

Lemma run_valid tr j s : run tr j s -> Journal_Valid j = true.
Proof.
  induction 1 as [j s [= <-] _|tr j s a now next s' e j' _ _ _ HL|tr j s a now x next r j' s' _ _ _ _ HL _|tr j s p next j' _ _ _ HL|]; [by vm_compute| | | |done];
    by apply load_fields in HL as [_ ?].
Qed.
Lemma valid_remote_plan j r :
  Journal_Valid j = true -> jn_Remote j = Some r -> exists plan, jn_Plan j = Some plan /\ rr_Identity r = rj_Identity (pl_Job plan).
Proof.
  intros Hv Hr. destruct (jn_Plan j) as [plan|] eqn:Hp; [|by destruct (valid_no_plan _ Hv Hp) as (_ & _ & _ & ? & _); congruence].
  exists plan. split; [done|]. by destruct (pn_remote _ _ (valid_plan _ _ Hv Hp) r Hr) as (_ & _ & ?).
Qed.

(** C19: the recorded execution is the one the provider named
    when it accepted this submission: it comes from one accepted outcome in
    the attempt's history, no later answer replaces it, and it belongs to the
    planned identity. *)
Theorem run_remote_provenance tr j s r :
  run tr j s -> jn_Remote j = Some r ->
  accepted_once tr r /\ exists plan, jn_Plan j = Some plan /\ rr_Identity r = rj_Identity (pl_Job plan).
Proof.
  intros H Hr. split; [revert r Hr|by eapply valid_remote_plan; [by eapply run_valid|]]. revert tr j s H. apply (run_journal_ind (fun tr j => forall r, jn_Remote j = Some r -> accepted_once tr r)); [done| |].
  2: { intros tr j j' IH (_ & _ & -> & _) r (r1 & Hr1 & ->)%fmap_Some. destruct (IH r1 Hr1) as (later & b & t & earlier & o & r0 & Ht & Hl & Hb & Ho & Hst & Hro & ->).
       rewrite reload_remote_idem. by exists later, b, t, earlier, o, r0. }
  intros tr j a now j' IH Hs r Hr. destruct (stored_remote _ _ _ _ Hs) as [H1 H2]. destruct (jn_Remote j) as [r1|] eqn:E.
  - destruct (H1 r1 eq_refl) as [Hr1 Hk]. destruct (IH r1 eq_refl) as (later & b & t & earlier & o & r0 & -> & Hl & Hb & Ho & Hst & Hro & ->).
    rewrite !reload_remote_idem in Hr1. exists ((a, now) :: later), b, t, earlier, o, r0.
    split_and!; try done; [|congruence]. intros x [-> |Hx]%elem_of_cons; [done|by apply Hl].
  - destruct (H2 eq_refl r Hr) as (Hk & o & r0 & ? & ? & ? & ?). exists [], a, now, tr, o, r0. split_and!; try done.
    intros x Hx. by apply elem_of_nil in Hx.
Qed.

(** ** Rejection *)
Lemma stored_absence a now j j' t :
  stored_step a now j j' -> jn_SubmissionAbsenceObservedAt j' = Some t ->
  jn_SubmissionAbsenceObservedAt j = Some t \/ ac_Kind a = SubmissionAbsenceSeen /\ now = t.
Proof.
  intros (s & next & s' & e & j1 & HA & ->). pose proof (applied_fields _ _ _ _ _ _ _ _ HA) as (_ & _ & _ & _ & _ & _ & Hf & _).
  destruct (step_frame _ _ _ _ _ _ _ _ HA) as (_ & _ & _ & _ & _ & _ & Hk). cbn. rewrite Hf.
  destruct Hk as [-> |[-> |[Hk ->]]]; cbn; [auto|done|]. intros [= ->]. auto.
Qed.
Definition absence_at (tr : list (Action * Time)) (t : Time) : Prop := exists a, (a, t) ∈ tr /\ ac_Kind a = SubmissionAbsenceSeen.
Lemma run_absence tr j s t : run tr j s -> jn_SubmissionAbsenceObservedAt j = Some t -> absence_at tr t.
Proof.
  intros H. revert t. revert tr j s H. apply (run_journal_ind (fun tr j => forall t, jn_SubmissionAbsenceObservedAt j = Some t -> absence_at tr t)); [done| |by intros ? ? ? ? (_ & _ & _ & -> & _)].
  intros tr j a now j' IH Hs t Ht. destruct (stored_absence _ _ _ _ _ Hs Ht) as [Hj|[Hk ->]].
  - destruct (IH t Hj) as (b & Hb & ?). exists b. split; [by apply list_elem_of_further|done].
  - exists a. split; [by apply list_elem_of_here|done].
Qed.

(** What a history must contain before a started submission counts as
    rejected. *)
Definition refused (a : Action) : Prop :=
  ac_Kind a = SubmissionSeen /\ exists o p, ac_Submission a = Some o /\ so_Status o = SubmissionRejected /\
    so_Problem o = Some p /\ pb_ComputeMayHaveStarted p = false.
Definition rejection_history (tr : list (Action * Time)) : Prop :=
  exists later a now earlier, tr = later ++ (a, now) :: earlier /\
    (refused a \/ ac_Kind a = OwnerSubmissionAbsent \/
     ac_Kind a = SubmissionAbsenceSeen /\ exists first, absence_at earlier first /\ first + SubmissionAbsenceGrace <= now).

(** C20: an attempt whose start was recorded is written off as
    rejected only with such evidence in its history: the provider's refusal,
    its owner's statement, or two inventories without the resource taken at
    least two minutes apart. *)
Theorem run_rejected tr j s : run tr j s -> jn_Phase j = Rejected -> rejection_history tr.
Proof.
  enough (forall a now tr j j' s, run tr j s -> stored_step a now j j' -> jn_Phase j' = Rejected -> rejection_history ((a, now) :: tr)) as Hstep.
  { induction 1 as [j s [= <-] _|tr j s a now next s' e j' Hr _ HA HL|tr j s a now x next [r e] j' s' Hr _ _ HA HL _|tr j s p next j' _ IH HA HL|];
      [done| | |by destruct (stored_late_intro _ _ _ _ _ HA HL) as (_ & _ & _ & _ & ->)|done];
      intros Hp; (eapply Hstep; [exact Hr|by eapply stored_step_intro|exact Hp]). }
  clear tr j s. intros a now tr j j' s Hr (x & next & s' & e & j1 & HA & ->) Hp. change (reload_enum (jn_Phase next) = Rejected) in Hp.
  rewrite reload_Phase in Hp by (intros raw; apply valid_phase_known, HA).
  destruct (applied_rejected _ _ _ _ _ _ _ _ HA Hp) as [HE _]. exists [], a, now, tr. split; [done|].
  destruct HE as [[Hk (o & p & plan & Ho & Hst & Hpr & Hm & _)]|[(Hk & _ & _ & t & Ht & Hg)|[Hk _]]].
  - left. split; [done|]. by exists o, p.
  - do 2 right. split; [done|]. exists t. split; [by eapply run_absence|done].
  - by right; left.
Qed.

(** ** Pacing *)
Lemma double_delay_min n d : 0 < d -> Z.min (double_delay n d) (120 * Second) = Z.min (d * 2 ^ Z.of_nat n) (120 * Second).
Proof.
  revert d. induction n as [|n IH]; intros d Hd; [cbn; by rewrite Z.mul_1_r|]. cbn [double_delay].
  rewrite Nat2Z.inj_succ, Z.pow_succ_r by lia. destruct (Z.ltb_spec d (120 * Second)).
  - rewrite IH by lia. f_equal. lia.
  - assert (0 < 2 ^ Z.of_nat n) by (apply Z.pow_pos_nonneg; lia). rewrite !Z.min_r; [done|nia|done].
Qed.
Definition first_delay (poll : Duration) (j : Journal) : Duration :=
  let delay := if is_nil (jn_Plan j) && (0 <? jn_Failures j) then Z.max poll (15 * Second) else poll in
  let delay := if not_nil (jn_Remote j) then Z.max delay submittedPollFloor else delay in
  if jn_SubmitStarted j && (0 <? jn_Failures j) then Z.max delay submittedRetryFloor else delay.

Lemma first_delay_bounds poll j : poll <= first_delay poll j <= Z.max poll submittedRetryFloor.
Proof. unfold first_delay, submittedRetryFloor, submittedPollFloor, Second. repeat case_match; lia. Qed.
Lemma nextPassDelay_power poll j :
  0 < poll -> 0 <= jn_Failures j -> nextPassDelay poll j = Z.min (first_delay poll j * 2 ^ jn_Failures j) (120 * Second).
Proof.
  intros Hp Hf. pose proof (first_delay_bounds poll j). unfold nextPassDelay. cbv zeta. fold (first_delay poll j).
  rewrite double_delay_min by lia. by rewrite Z2Nat.id by lia.
Qed.
Lemma nextPassDelay_range poll j : 0 < poll -> 0 <= jn_Failures j -> 0 < nextPassDelay poll j <= 120 * Second.
Proof.
  intros Hp Hf. rewrite nextPassDelay_power by done. pose proof (first_delay_bounds poll j).
  assert (0 < 2 ^ jn_Failures j) by (apply Z.pow_pos_nonneg; lia). unfold Second. nia.
Qed.

(** The wait before the next pass is the poll delay, raised to
    fifteen seconds for a local failure or a known execution and to thirty
    after an unresolved submission, doubled per recorded failure and cut at
    two minutes; it is positive, and every intermediate value fits an int64. *)
Theorem nextPassDelay_spec poll j :
  1000000 <= poll <= 300 * Second -> 0 <= jn_Failures j ->
  nextPassDelay poll j = Z.min (first_delay poll j * 2 ^ jn_Failures j) (120 * Second) /\
  poll <= first_delay poll j <= Z.max poll submittedRetryFloor /\
  0 < nextPassDelay poll j <= 120 * Second /\
  forall n, is_int64 (double_delay n (first_delay poll j)).
Proof.
  intros Hp Hf. pose proof (first_delay_bounds poll j) as HB.
  split_and!; [apply nextPassDelay_power; lia|lia|lia|apply nextPassDelay_range; lia|apply nextPassDelay_range; lia|].
  intros n. assert (forall n d, 0 < d <= 300 * Second -> 0 < double_delay n d <= 300 * Second) as HD.
  { clear. intros n. induction n as [|n IH]; intros d Hd; cbn; [done|]. destruct (Z.ltb_spec d (120 * Second)); [|done].
    apply IH. unfold Second in *. lia. }
  specialize (HD n (first_delay poll j)). unfold submittedRetryFloor, is_int64, MinInt64, MaxInt64, Second in *. lia.
Qed.
