(* ===== verification/SessionProtocol.v ===== *)
(** * The protocol of a dispatch session

    An abstract machine says what a session may do: which calls need which
    committed intent, what must follow a start, how a session ends. Here are
    the machine, what the repository promises, and a calculus in which the
    helpers of [session] are shown to stay inside the machine, for every
    behaviour of the provider, the clock and the contexts. *)

From S2P Require Import Prelude Effects GoStrings GoTime GoSha256 GoJson JsonRead Canonical Identifiers Problems Workers AttemptStates AttemptRuns Attempts Operations DomainRecords Provider ProviderResources Admission ExecutionAuth SecretPool Scheduler Journal JournalLemmas Inputs Session Apply ApplyLemmas ApplyProps.
#[local] Open Scope string_scope.
#[local] Open Scope list_scope.
#[local] Open Scope Z_scope.
#[local] Open Scope bool_scope.
#[local] Opaque must_Problem journal_problem.

(** ** What is seen of a session *)
Inductive event :=
  | Loaded (w : Work)
  | Committing (a : Action)
  | CommittedWork (a : Action) (w : Work)
  | Consumed (w : Work)
  | CancelCommitted (id : string) (a : CancellationAction) (w : Work)
  | Preparing (plan : Plan) (id : string)
  | Starting (p : Prepared) (a : option StartAuthorization)
  | Cancelling (r : RemoteReference) (id : string)
  | Yielded (h : Handle) (delay : Duration)
  | Crashed.

Definition called_events {X} (e : call X) : list event :=
  match e with
  | CommitDispatch _ a => [Committing a]
  | Prepare plan id => [Preparing plan id]
  | Start p a _ => [Starting p a]
  | CancelRemote r id => [Cancelling r id]
  | YieldDispatch h d => [Yielded h d]
  | NilPanic => [Crashed]
  | _ => []
  end.
Definition answered_events {X} (e : call X) : X -> list event :=
  match e in call X return X -> list event with
  | LoadDispatch _ => fun r => match r with Ok w => [Loaded w] | Err _ => [] end
  | CommitDispatch _ a => fun r => match r with Ok w => [CommittedWork a w] | Err _ => [] end
  | ConsumeAuthorization _ => fun r => match r with Ok w => [Consumed w] | Err _ => [] end
  | CommitCancellation _ id a => fun r => match r with Ok w => [CancelCommitted id a w] | Err _ => [] end
  | _ => fun _ => []
  end.
#[export] Instance call_observed : Observed call event := {| called X := called_events; answered X := answered_events |}.

#[export] Instance FrozenInput_eq_dec : EqDecision FrozenInput.
Proof. solve_decision. Defined.
#[export] Instance InputSnapshot_eq_dec : EqDecision InputSnapshot.
Proof. solve_decision. Defined.
#[export] Instance ResolvedJob_eq_dec : EqDecision ResolvedJob.
Proof. solve_decision. Defined.
#[export] Instance Plan_eq_dec : EqDecision Plan.
Proof. solve_decision. Defined.

(** ** The protocol

    The phase that was loaded, the journal as it was last loaded or committed,
    the permits that committed intents gave, the identity whose start outcome
    is not recorded yet, and whether the lease was given back. *)
Record protocol := mkProtocol {
  pt_loaded : option Phase; pt_journal : option Journal; pt_prepare : option (Plan * string);
  pt_start : option (Prepared * option StartAuthorization); pt_cancel : option (RemoteReference * string);
  pt_owing : option Identity; pt_yielded : bool }.
Definition protocol_start : protocol := mkProtocol None None None None None None false.
(** A new journal, without permits. *)
Definition at_journal (p : protocol) (j : option Journal) : protocol :=
  mkProtocol (pt_loaded p) j None None None None false.

(** The outcome is one the provider gave for this identity, or unknown. *)
Definition recordable (id : Identity) (a : Action) : bool :=
  (ac_Kind a ==? SubmissionSeen)
  && match ac_Submission a with
     | Some o => is_nil (SubmissionOutcome_Validate o id)
                 || (so_Status o ==? SubmissionUnknown) && is_nil (so_Remote o)
     | None => false
     end.
(** A committed intent permits its one call. *)
Definition granted (p : protocol) (a : Action) (j : Journal) : protocol :=
  match ac_Kind a with
  | BeginPreparation =>
      mkProtocol (pt_loaded p) (Some j) ((fun plan => (plan, ac_PreparationID a)) <$> ac_Plan a) None None None false
  | BeginSubmission =>
      mkProtocol (pt_loaded p) (Some j) None ((fun q => (q, jn_StartAuthorization j)) <$> jn_Prepared j) None None false
  | _ => at_journal p (Some j)
  end.
Definition cancel_permit (j : Journal) (id : string) (a : CancellationAction) : option (RemoteReference * string) :=
  if ca_Begin a then (fun r => (r, id)) <$> jn_Remote j else None.
(** The longest wait a session asks for: five minutes and thirty percent. *)
Definition longest_delay : Duration := 390 * Second.

(** Nothing happens after the lease was given back, nothing but a load before
    a journal is known. *)
Definition protocol_step (p : protocol) (e : event) : option protocol :=
  if pt_yielded p then None else
  match pt_journal p with
  | None =>
      match e with
      | Loaded w => Some (mkProtocol (Some (jn_Phase (wk_Journal w))) (Some (wk_Journal w)) None None None None false)
      | _ => None
      end
  | Some j =>
      match e with
      | Committing a =>
          match pt_owing p with
          | Some id => if recordable id a then Some (at_journal p (Some j)) else None
          | None => Some (at_journal p (Some j))
          end
      | CommittedWork a w => if not_nil (pt_owing p) then None else Some (granted p a (wk_Journal w))
      | Consumed w => if not_nil (pt_owing p) then None else Some (at_journal p (Some (wk_Journal w)))
      | CancelCommitted id a w =>
          if not_nil (pt_owing p) then None
          else Some (mkProtocol (pt_loaded p) (Some (wk_Journal w)) None None (cancel_permit j id a) None false)
      | Preparing plan id =>
          match pt_prepare p with
          | Some (plan0, id0) =>
              if (pt_loaded p ==? Some Local) && (plan ==? Plan_Clone plan0) && (id ==? id0)
              then Some (mkProtocol (pt_loaded p) (Some j) None (pt_start p) (pt_cancel p) (pt_owing p) false) else None
          | None => None
          end
      | Starting q a =>
          match pt_start p with
          | Some (q0, a0) =>
              if (pt_loaded p ==? Some Ready) && (q ==? q0) && (a ==? StartAuthorization_Clone <$> a0)
              then Some (mkProtocol (pt_loaded p) (Some j) None None None (Some (pr_Identity q)) false)
              else None
          | None => None
          end
      | Cancelling r id =>
          match pt_cancel p with
          | Some (r0, id0) =>
              if (r ==? r0) && (id ==? id0)
              then Some (mkProtocol (pt_loaded p) (Some j) (pt_prepare p) (pt_start p) None (pt_owing p) false) else None
          | None => None
          end
      | Yielded h d =>
          if not_nil (pt_owing p) || (d <=? 0) || (longest_delay <? d) then None
          else Some (mkProtocol (pt_loaded p) (Some j) None None None None true)
      | Loaded _ | Crashed => None
      end
  end.

(** ** What the repository promises

    Loaded journals are valid, and a commit stores what [Apply] returns for
    an action of that kind. *)
Definition honest (_ : protocol) (X : Type) (e : call X) : X -> Prop :=
  match e in call X return X -> Prop with
  | LoadDispatch _ | ConsumeAuthorization _ | CommitCancellation _ _ _ =>
      fun r => match r with Ok w => Journal_Valid (wk_Journal w) = true | Err _ => True end
  | CommitDispatch _ a => fun r =>
      match r with
      | Ok w => exists old s a' now s' ev, ac_Kind a' = ac_Kind a /\ Apply old s a' now = Ok (wk_Journal w, s', ev)
      | Err _ => True
      end
  | _ => fun _ => True
  end.

(** ** A calculus of sessions *)
Definition wp {A} (m : M A) (s : session) (p : protocol) (Q : A -> session -> protocol -> Prop) : Prop :=
  obeys protocol_step honest (m s) p (fun r p' => Q r.1 r.2 p').

Lemma wp_mono {A} (m : M A) s p (Q Q' : A -> session -> protocol -> Prop) :
  wp m s p Q -> (forall a s' p', Q a s' p' -> Q' a s' p') -> wp m s p Q'.
Proof. intros H HQ. eapply obeys_mono; [exact H|]. intros [a s'] p'. apply HQ. Qed.
Lemma wp_ret {A} (a : A) s p (Q : A -> session -> protocol -> Prop) : Q a s p -> wp (mret a) s p Q.
Proof. done. Qed.
Lemma wp_bind {A B} (m : M A) (k : A -> M B) s p Q :
  wp m s p (fun a s' p' => wp (k a) s' p' Q) -> wp (m ≫= k) s p Q.
Proof. intros H. apply obeys_bind. eapply obeys_mono; [exact H|]. by intros [a s'] p'. Qed.
Lemma wp_gets {A} (f : session -> A) s p (Q : A -> session -> protocol -> Prop) : Q (f s) s p -> wp (gets f) s p Q.
Proof. done. Qed.
Lemma wp_modify f s p (Q : unit -> session -> protocol -> Prop) : Q tt (f s) p -> wp (modify f) s p Q.
Proof. done. Qed.
(** A call that the protocol does not see. *)
Definition silent {X} (e : call X) : Prop := called_events e = [] /\ forall x, answered_events e x = [].
Lemma wp_silent {X} (e : call X) s p Q : silent e -> (forall x, Q x s p) -> wp (ask e) s p Q.
Proof.
  intros [H1 H2] HQ. exists p. split; [cbn; by rewrite H1|]. intros x _. exists p. split; [cbn; by rewrite H2|]. apply HQ.
Qed.
(** A call that the protocol sees when it is made, and whose answer it does not see. *)
Lemma wp_seen {X} (e : call X) ev s p p1 Q :
  called_events e = [ev] -> (forall x, answered_events e x = []) -> protocol_step p ev = Some p1 ->
  (forall x, Q x s p1) -> wp (ask e) s p Q.
Proof.
  intros H1 H2 H3 HQ. exists p1. split; [cbn; rewrite H1; cbn; by rewrite H3|].
  intros x _. exists p1. split; [cbn; by rewrite H2|]. apply HQ.
Qed.

(** ** Steps that change nothing the protocol sees *)
Definition same (s s' : session) : Prop :=
  wk_Journal (ss_current s') = wk_Journal (ss_current s) /\ wk_Cancellation (ss_current s') = wk_Cancellation (ss_current s).
#[export] Instance same_preorder : PreOrder same.
Proof. split; [done|]. intros s1 s2 s3 [??] [??]. split; congruence. Qed.
Definition quiet {A} (m : M A) : Prop := forall s p, wp m s p (fun _ s' p' => p' = p /\ same s s').

(** The invariant of a session: its work is the one the protocol knows, and
    [o] is the start whose outcome it owes. *)
Record alive (ph : Phase) (o : option Identity) (s : session) (p : protocol) : Prop := {
  lv_loaded : pt_loaded p = Some ph;
  lv_journal : pt_journal p = Some (wk_Journal (ss_current s));
  lv_valid : Journal_Valid (wk_Journal (ss_current s)) = true;
  lv_owing : pt_owing p = o;
  lv_held : pt_yielded p = false }.
Definition stays {A} (ph : Phase) (m : M A) : Prop :=
  forall s p, alive ph None s p -> wp m s p (fun _ s' p' => alive ph None s' p').

Lemma alive_same ph o s s' p : alive ph o s p -> same s s' -> alive ph o s' p.
Proof. intros [] [E _]. constructor; congruence. Qed.
Lemma quiet_stays {A} ph (m : M A) : quiet m -> stays ph m.
Proof. intros H s p Hl. eapply wp_mono; [apply H|]. intros a s' p' [-> Hs]. by eapply alive_same. Qed.
Lemma quiet_ret {A} (a : A) : quiet (mret a).
Proof. intros s p. by apply wp_ret. Qed.
Lemma quiet_bind {A B} (m : M A) (k : A -> M B) : quiet m -> (forall a, quiet (k a)) -> quiet (m ≫= k).
Proof.
  intros Hm Hk s p. apply wp_bind. eapply wp_mono; [apply Hm|]. intros a s1 p1 [-> H1].
  eapply wp_mono; [apply Hk|]. intros b s2 p2 [-> H2]. split; [done|]. by etrans.
Qed.
Lemma quiet_ask {X} (e : call X) : silent e -> quiet (ask e).
Proof. intros H s p. by apply wp_silent. Qed.
Lemma quiet_gets {A} (f : session -> A) : quiet (gets f).
Proof. intros s p. by apply wp_gets. Qed.
Lemma quiet_modify f : (forall s, same s (f s)) -> quiet (modify f).
Proof. intros H s p. apply wp_modify. split; [done|]. apply H. Qed.
Lemma stays_bind {A B} ph (m : M A) (k : A -> M B) : stays ph m -> (forall a, stays ph (k a)) -> stays ph (m ≫= k).
Proof.
  intros Hm Hk s p Hl. apply wp_bind. eapply wp_mono; [by apply Hm|]. intros a s1 p1 H1. by apply Hk.
Qed.
(** After a quiet step, everything known of the session is still known. *)
Lemma wp_quiet_bind {A B} (m : M A) (k : A -> M B) s p Q :
  quiet m -> (forall a s', same s s' -> wp (k a) s' p Q) -> wp (m ≫= k) s p Q.
Proof. intros Hm Hk. apply wp_bind. eapply wp_mono; [apply Hm|]. intros a s' p' [-> Hs]. by apply Hk. Qed.
Lemma wp_stays_bind {A B} ph (m : M A) (k : A -> M B) s p Q :
  stays ph m -> alive ph None s p -> (forall a s' p', alive ph None s' p' -> wp (k a) s' p' Q) -> wp (m ≫= k) s p Q.
Proof. intros Hm Hl Hk. apply wp_bind. eapply wp_mono; [by apply Hm|]. intros a s' p'. apply Hk. Qed.

(** Walk through a computation: branches are split, known helpers are hints. *)
Create HintDb session discriminated.
#[export] Hint Resolve quiet_ret quiet_gets quiet_modify : session.
#[export] Hint Extern 1 (quiet (ask _)) => apply quiet_ask; split; [reflexivity|intros ?; reflexivity] : session.
#[export] Hint Extern 1 (same _ _) => split; reflexivity : session.
Ltac walk_step :=
  lazymatch goal with
  | |- forall _, _ => intros ?
  | |- quiet (_ ≫= _) => apply quiet_bind
  | |- quiet (if ?b then _ else _) => destruct b
  | |- quiet (match ?x with _ => _ end) => destruct x
  | |- quiet ((match ?x with _ => _ end) _) => destruct x; cbv beta
  | |- quiet _ => solve [eauto with session]
  | |- stays _ (_ ≫= _) => apply stays_bind
  | |- stays _ (if ?b then _ else _) => destruct b
  | |- stays _ (match ?x with _ => _ end) => destruct x
  | |- stays _ ((match ?x with _ => _ end) _) => destruct x; cbv beta
  | |- stays _ (mret _) => apply quiet_stays, quiet_ret
  | |- stays _ (ask _) => apply quiet_stays
  | |- stays _ (gets _) => apply quiet_stays
  | |- stays _ (modify _) => apply quiet_stays
  | |- stays _ _ => first [solve [eauto with session] | apply quiet_stays; solve [eauto with session]]
  end.
Ltac walk := cbv zeta; repeat (walk_step; cbv zeta).

(** ** The helpers of a session *)
Lemma quiet_lock : quiet lock.
Proof. unfold lock. walk. Qed.
#[export] Hint Resolve quiet_lock : session.
Lemma quiet_work : quiet work.
Proof. unfold work. walk. Qed.
#[export] Hint Resolve quiet_work : session.
(** The work that is read is the session's own. *)
Lemma wp_work {B} (k : Work -> M B) s p Q :
  (forall w s', same s s' -> wk_Journal w = wk_Journal (ss_current s) -> wk_Cancellation w = wk_Cancellation (ss_current s) ->
     wp (k w) s' p Q) -> wp (work ≫= k) s p Q.
Proof.
  intros Hk. unfold work. apply wp_bind, wp_quiet_bind; [apply quiet_lock|]. intros _ s' Hs. apply wp_gets.
  by apply Hk; [| apply Hs..].
Qed.
Lemma quiet_control {X} step (fn : M (reply X)) : quiet fn -> quiet (control step fn).
Proof. intros H. unfold control. walk. Qed.
Lemma stays_control {X} ph step (fn : M (reply X)) : stays ph fn -> stays ph (control step fn).
Proof. intros H. unfold control. walk. Qed.
#[export] Hint Resolve quiet_control stays_control : session.
Lemma quiet_progress completed total : quiet (progress completed total).
Proof. unfold progress. walk. Qed.
#[export] Hint Resolve quiet_progress : session.
Lemma quiet_journal_error : quiet journal_error.
Proof. unfold journal_error. walk. Qed.
#[export] Hint Resolve quiet_journal_error : session.

(** ** Commits *)
Lemma step_committing ph o s p a :
  alive ph o s p -> (forall id, o = Some id -> recordable id a = true) ->
  protocol_step p (Committing a) = Some (at_journal p (Some (wk_Journal (ss_current s)))).
Proof.
  intros [H1 H2 H3 H4 H5] Hr. unfold protocol_step. rewrite H5, H2, H4.
  destruct o as [id|]; [|done]. by rewrite (Hr id).
Qed.
Lemma begin_journal old s a now j' s' e :
  Apply old s a now = Ok (j', s', e) -> ac_Kind a = BeginSubmission -> is_Some (jn_Prepared j').
Proof.
  intros [j1 HA]%Apply_applied Hk. destruct (step_submit _ _ _ _ _ _ _ _ HA) as [[_ H]|(_ & _ & Hs)]; [done|].
  pose proof (ap_valid' _ _ _ _ _ _ _ _ HA) as Hv. destruct (valid_has_plan j') as [plan Hp]; [done|by right|].
  destruct (pn_ready _ _ (valid_plan _ _ Hv Hp)) as (q & -> & _); [by right|done].
Qed.
(** A commit leaves the session alive; one that succeeds leaves its permit. *)
Definition permitted (a : Action) (s : session) (p : protocol) : Prop :=
  let j := wk_Journal (ss_current s) in
  p = granted p a j /\ (ac_Kind a = BeginSubmission -> is_Some (jn_Prepared j)).
Lemma commit_call ph o a s p :
  alive ph o s p -> (forall id, o = Some id -> recordable id a = true) ->
  wp (h ← gets (fun s => wk_Handle (ss_current s));
      r ← ask (CommitDispatch h a);
      match r with
      | Err e => mret (Some e)
      | Ok w =>
          _ ← modify (fun s => s <| ss_current := w |>);
          _ ← if ac_Kind a ==? BeginPreparation then modify (fun s => s <| ss_drainingPreparation := true |>) else mret tt;
          mret None
      end) s p (fun r s' p' => alive ph None s' p' /\ (r = None -> permitted a s' p')).
Proof.
  intros Hl Hr. apply wp_bind, wp_gets, wp_bind. exists (at_journal p (Some (wk_Journal (ss_current s)))).
  cbn [called call_observed called_events feed]. rewrite (step_committing _ _ _ _ _ Hl Hr). split; [done|].
  destruct Hl as [H1 H2 H3 H4 H5]. intros [w|e] Hx; cbn [answered call_observed answered_events feed].
  - destruct Hx as (old & s0 & a' & now & s1 & ev & Hk & HA). exists (granted p a (wk_Journal w)).
    split; [unfold protocol_step, granted; cbn; destruct (ac_Kind a); reflexivity|].
    assert (Journal_Valid (wk_Journal w) = true) as Hv by (apply Apply_applied in HA as [j1 []]; done).
    assert (forall b : bool, alive ph None (mkSession w (ss_sampled s) (ss_progressErr s) b (ss_observationLimit s))
      (granted p a (wk_Journal w))) as HL.
    { intros b. unfold granted, at_journal. destruct (ac_Kind a); by constructor. }
    assert (forall s', ss_current s' = w -> permitted a s' (granted p a (wk_Journal w))) as HP.
    { intros s' <-. split; [by unfold granted; destruct (ac_Kind a)|]. intros Hb. eapply begin_journal; [exact HA|congruence]. }
    apply wp_bind, wp_modify, wp_bind. destruct (ac_Kind a ==? BeginPreparation); cbn;
      (split; [apply HL|intros _; by apply HP]).
  - exists (at_journal p (Some (wk_Journal (ss_current s)))). split; [done|]. apply wp_ret. split; [|done]. by constructor.
Qed.
Lemma commit_spec ph o a s p :
  alive ph o s p -> (forall id, o = Some id -> recordable id a = true) ->
  wp (commit a) s p (fun r s' p' => alive ph None s' p' /\ (r = None -> permitted a s' p')).
Proof.
  intros Hl Hr. unfold commit. apply wp_quiet_bind; [apply quiet_lock|]. intros _ s1 Hs.
  eapply alive_same in Hl; [|exact Hs]. apply wp_bind.
  destruct ((ac_Kind a ==? BeginPreparation) || (ac_Kind a ==? BeginSubmission)) eqn:Hb.
  - apply wp_silent; [done|]. intros [e|]; [|by eapply commit_call]. apply wp_ret. split; [|done].
    destruct o as [id|]; [|done]. specialize (Hr id eq_refl). unfold recordable in Hr.
    apply andb_true_iff in Hr as [Hk%bool_decide_eq_true_1 _]. rewrite Hk in Hb. by vm_compute in Hb.
  - apply wp_ret. by eapply commit_call.
Qed.
Lemma stays_commit ph a : stays ph (commit a).
Proof. intros s p Hl. eapply wp_mono; [by eapply commit_spec|]. by intros r s' p' [? _]. Qed.
#[export] Hint Resolve stays_commit : session.
Lemma stays_consume ph : stays ph consumeAuthorization.
Proof.
  unfold consumeAuthorization. do 2 (apply stays_bind; [walk|]; intros ?). destruct a0; [walk|].
  apply stays_bind; [walk|]. intros h s p [H1 H2 H3 H4 H5]. apply wp_bind. exists p. split; [done|].
  intros [w|e] Hx; cbn [answered call_observed answered_events feed].
  - cbn in Hx. exists (at_journal p (Some (wk_Journal w))). split; [unfold protocol_step; by rewrite H5, H2, H4|].
    apply wp_bind, wp_modify, wp_ret. by constructor.
  - exists p. split; [done|]. apply wp_ret. by constructor.
Qed.
#[export] Hint Resolve stays_consume : session.

(** ** Failures and refusals *)
Lemma stays_commit_fault ph a : stays ph (commit_fault a).
Proof. unfold commit_fault. walk. Qed.
#[export] Hint Resolve stays_commit_fault : session.
Lemma stays_failWith ph code reason : stays ph (failWith code reason).
Proof. unfold failWith. walk. Qed.
#[export] Hint Resolve stays_failWith : session.
Lemma stays_fail ph code : stays ph (fail code).
Proof. unfold fail. walk. Qed.
Lemma stays_providerFailure ph e code : stays ph (providerFailure e code).
Proof. unfold providerFailure. walk. Qed.
Lemma stays_refuse ph e : stays ph (refuseNewWork e).
Proof. unfold refuseNewWork. walk. Qed.
#[export] Hint Resolve stays_fail stays_providerFailure stays_refuse : session.
Lemma stays_prepared ph q : stays ph (prepared q).
Proof. unfold prepared. walk. Qed.
Lemma stays_guard ph b : stays ph (guardNewWork b).
Proof. unfold guardNewWork. walk. Qed.
Lemma stays_endUnconfirmed ph e b cause : stays ph (endUnconfirmedPreparation e b cause).
Proof. unfold endUnconfirmedPreparation. walk. Qed.
#[export] Hint Resolve stays_prepared stays_guard stays_endUnconfirmed : session.

(** ** Cancellation *)
Lemma commitCancellation_spec ph a s p :
  alive ph None s p ->
  wp (commitCancellation a) s p (fun r s' p' =>
    alive ph None s' p' /\
    (r = None -> exists c, wk_Cancellation (ss_current s) = Some c /\ pt_cancel p' = cancel_permit (wk_Journal (ss_current s)) (op_ID (cc_Operation c)) a)).
Proof.
  intros Hl. unfold commitCancellation. apply wp_quiet_bind; [apply quiet_lock|]. intros _ s1 Hs.
  eapply alive_same in Hl; [|exact Hs]. apply wp_bind, wp_gets. destruct Hs as [<- <-].
  destruct (wk_Cancellation (ss_current s1)) as [c|]; [|by apply wp_ret]. destruct Hl as [H1 H2 H3 H4 H5].
  apply wp_bind. exists p. split; [done|]. intros [w|e] Hx; cbn [answered call_observed answered_events feed].
  - cbn in Hx. eexists. split; [unfold protocol_step; rewrite H5, H2, H4; reflexivity|].
    apply wp_bind, wp_modify, wp_ret. split; [by constructor|]. intros _. by exists c.
  - exists p. split; [done|]. apply wp_ret. split; [by constructor|done].
Qed.
Lemma stays_commitCancellation ph a : stays ph (commitCancellation a).
Proof. intros s p Hl. eapply wp_mono; [by apply commitCancellation_spec|]. by intros r s' p' [? _]. Qed.
#[export] Hint Resolve stays_commitCancellation : session.

Lemma stays_cancelOnce ph : stays ph cancelOnce.
Proof.
  intros s p Hl. unfold cancelOnce. apply wp_work. intros w s1 Hs Hj Hc. eapply alive_same in Hl; [|exact Hs].
  destruct (wk_Cancellation w) as [c|]; [|by apply wp_ret].
  destruct (jn_Remote (wk_Journal w)) as [remote|] eqn:Hr; [|by apply wp_ret].
  destruct (_ || _); [by apply wp_ret|]. apply wp_bind, wp_silent; [done|]. intros d.
  destruct (negb _); [eapply wp_stays_bind; [apply stays_commitCancellation|done|by intros; apply wp_ret]|].
  destruct Hs as [Hs1 Hs2].
  apply wp_bind. eapply wp_mono; [by apply commitCancellation_spec|]. intros [e|] s2 p2 [H2 HP]; [by apply wp_ret|].
  destruct (HP eq_refl) as (c' & Hc' & HC). rewrite Hs2, <- Hc in Hc'. injection Hc' as <-.
  unfold cancel_permit in HC. rewrite Hs1, <- Hj, Hr in HC. cbn in HC.
  assert (wp (control "cancel" (ask (CancelRemote remote (op_ID (cc_Operation c))))) s2 p2 (fun _ s' p' => alive ph None s' p')) as HW.
  { unfold control. apply wp_bind, wp_silent; [done|]. intros [e|]; [by apply wp_ret|]. apply wp_bind.
    eapply wp_seen; [done|done| |].
    - unfold protocol_step. rewrite (lv_held _ _ _ _ H2), (lv_journal _ _ _ _ H2), HC, !bool_decide_eq_true_2 by done. reflexivity.
    - intros x. apply wp_ret. destruct H2. by constructor. }
  apply wp_bind. eapply wp_mono; [exact HW|]. clear HW. intros r s3 p3 H3.
  revert s3 p3 H3. change (stays ph match r with
    | Err e => if IsLocalStateError (Some e) then mret (Some (Some e))
               else e0 ← commitCancellation (mkCancellationAction false None CodeRemoteExecutionUnresolved); mret (Some e0)
    | Ok outcome =>
        e ← commitCancellation (if not_nil (CancellationOutcome_Validate outcome)
             then mkCancellationAction false None CodeRemoteExecutionUnresolved
             else mkCancellationAction false (Some outcome) (CodeOther "")); mret (Some e)
    end). walk.
Qed.
#[export] Hint Resolve stays_cancelOnce : session.
