(* ===== verification/EngineProps.v ===== *)
(** * Dispatch passes obey the protocol

    Every run of [process], cut anywhere, is accepted by the protocol of
    [SessionProtocol], whatever the provider, the clock and the contexts
    answer. Over all sessions of an attempt, that gives at most one
    preparation call and at most one start call in its whole life. *)

From S2P Require Import Prelude Effects GoStrings GoTime GoSha256 GoJson JsonRead Canonical Identifiers Problems Workers AttemptStates AttemptRuns Attempts Operations DomainRecords Provider ProviderResources Admission ExecutionAuth SecretPool Scheduler Journal JournalLemmas Inputs Session Engine Apply ApplyLemmas ApplyProps DispatchRuns SessionProtocol.
#[local] Open Scope string_scope.
#[local] Open Scope list_scope.
#[local] Open Scope Z_scope.
#[local] Open Scope bool_scope.
#[local] Opaque must_Problem journal_problem.

Section Passes.
Context (schema : json -> bool) (cfg : EngineConfig) (guarded : bool).
Context (Hcfg : EngineConfig_Valid cfg = true).

(** ** Steps inside a phase *)
Lemma quiet_verify_inputs workspace l : quiet (verify_inputs workspace l).
Proof. induction l as [|i l IH]; cbn [verify_inputs]; walk. Qed.
#[local] Hint Resolve quiet_verify_inputs : session.
Lemma quiet_freeze : quiet freeze.
Proof. unfold freeze. walk. Qed.
Lemma quiet_reports l : quiet (reports l).
Proof. induction l as [|[c t] l IH]; cbn [reports]; walk. Qed.
Lemma quiet_reconcile_prepare j : quiet (reconcile_prepare j).
Proof. unfold reconcile_prepare. walk. Qed.
#[local] Hint Resolve quiet_freeze quiet_reports quiet_reconcile_prepare : session.
Lemma stays_refused_intent ph e : stays ph (refused_intent e).
Proof. unfold refused_intent. walk. Qed.
#[local] Hint Resolve stays_refused_intent : session.
Lemma stays_deref {A} ph (x : option A) : is_Some x -> stays ph (deref_ptr x).
Proof. intros [a ->]. cbn [deref_ptr]. walk. Qed.

(** ** Local: the preparation *)

(** With the permit of its intent, a preparation may be made. *)
Lemma prepare_call s p plan id :
  alive Local None s p -> pt_prepare p = Some (plan, id) ->
  wp (control "prepare" (l ← ask (Prepare (Plan_Clone plan) id); _ ← reports l; ask PrepareEnds)) s p
     (fun _ s' p' => alive Local None s' p').
Proof.
  intros Hl Hp. unfold control. apply wp_bind, wp_silent; [done|]. intros [e|]; [by apply wp_ret|]. apply wp_bind, wp_bind.
  eapply wp_seen; [done|done| |].
  - unfold protocol_step. rewrite (lv_held _ _ _ _ Hl), (lv_journal _ _ _ _ Hl), Hp, (lv_loaded _ _ _ _ Hl), !bool_decide_eq_true_2 by done. reflexivity.
  - intros l. apply wp_quiet_bind; [apply quiet_reports|]. intros _ s1 Hs. apply wp_silent; [done|]. intros x. apply wp_ret.
    eapply alive_same; [|exact Hs]. destruct Hl. by constructor.
Qed.
(** After an intent: either it was refused, or its permit is held. *)
Lemma stays_intent {A} ph a (k : option error -> M A) :
  (forall e, stays ph (k (Some e))) ->
  (forall s p, alive ph None s p -> permitted a s p -> wp (k None) s p (fun _ s' p' => alive ph None s' p')) ->
  stays ph (commit a ≫= k).
Proof.
  intros He Hk s p Hl. apply wp_bind. eapply wp_mono; [by eapply commit_spec|]. intros [e|] s1 p1 [H1 HP]; [by apply He|].
  apply Hk; [done|]. by apply HP.
Qed.
Ltac walk_intent :=
  cbv zeta; repeat (lazymatch goal with |- stays _ (commit (act_begin _ _) ≫= _) => apply stays_intent | _ => walk_step end; cbv zeta).
(** Back from a weakest precondition. *)
Ltac as_stays :=
  match goal with |- forall s p, alive ?ph None s p -> wp ?m s p ?Q => change (stays ph m) end.
Lemma stays_process_Local : stays Local (process_Local schema guarded).
Proof.
  unfold process_Local. walk_intent. rename H into Hl, H0 into Hp.
  apply wp_quiet_bind; [walk|]. intros _ s1 Hs. eapply alive_same in Hl; [|exact Hs].
  apply wp_bind. eapply wp_mono; [apply prepare_call; [done|destruct Hp as [-> _]; reflexivity]|].
  cbv beta. intros x. as_stays. walk.
Qed.

(** ** Staging, Submitting, Submitted *)
Lemma valid_phase_plan j : Journal_Valid j = true -> jn_Phase j ∈ [Staging; Ready; Submitting] -> is_Some (jn_Plan j).
Proof.
  intros Hv Hp. destruct (valid_has_plan j Hv) as [plan ->]; [|done]. left.
  rewrite !elem_of_cons, elem_of_nil in *. naive_solver.
Qed.
Lemma observed_prepared o plan id :
  PreparationObservation_Validate o plan id = None -> po_Status o = ReconciliationFound -> is_Some (po_Prepared o).
Proof.
  unfold PreparationObservation_Validate. intros H Hs. rewrite Hs in H. cbn in H.
  destruct (po_Prepared o); [done|]. by repeat (case_match; try discriminate).
Qed.
Lemma stays_process_Staging w expired :
  Journal_Valid (wk_Journal w) = true -> jn_Phase (wk_Journal w) = Staging -> stays Staging (process_Staging w expired).
Proof.
  intros Hv Hp. destruct (valid_phase_plan _ Hv) as [plan Hplan]; [rewrite Hp; by apply (bool_decide_unpack _)|].
  unfold process_Staging. cbv zeta. apply stays_bind; [walk|]. intros [seen|e]; [|walk].
  rewrite Hplan. cbn [deref_ptr]. intros s p Hl. apply wp_bind, wp_ret. revert s p Hl.
  destruct (PreparationObservation_Validate _ _ _) eqn:Ho; cbn [not_nil]; [as_stays; walk|].
  destruct (po_Status seen <>? ReconciliationFound) eqn:Hs; [as_stays; walk|]. bool_to_prop.
  as_stays. apply stays_bind; [|walk]. apply stays_deref. by eapply observed_prepared.
Qed.
Lemma stays_process_Submitting w :
  Journal_Valid (wk_Journal w) = true -> jn_Phase (wk_Journal w) = Submitting -> stays Submitting (process_Submitting w).
Proof.
  intros Hv Hp. unfold process_Submitting. apply stays_bind; [|walk]. apply stays_deref, valid_phase_plan; [done|].
  rewrite Hp. by apply (bool_decide_unpack _).
Qed.
Lemma stays_process_Submitted w :
  Journal_Valid (wk_Journal w) = true -> jn_Phase (wk_Journal w) = Submitted -> stays Submitted (process_Submitted w).
Proof.
  intros Hv Hp. destruct (valid_has_plan _ Hv) as [plan Hplan]; [left; rewrite Hp; by apply (bool_decide_unpack _)|].
  unfold process_Submitted. apply stays_bind; [|walk]. apply stays_deref.
  apply (pn_submitted _ _ (valid_plan _ _ Hv Hplan)). by left.
Qed.

(** ** Ready: the start *)
Lemma stays_revalidate w g :
  Journal_Valid (wk_Journal w) = true -> jn_Phase (wk_Journal w) = Ready -> stays Ready (revalidate w g).
Proof.
  intros Hv Hp. destruct (valid_phase_plan _ Hv) as [plan Hplan]; [rewrite Hp; by apply (bool_decide_unpack _)|].
  unfold revalidate. destruct (gt_Start g); [|walk]. apply stays_bind; [walk|]. intros []; cbn [negb]; [|walk]. cbv zeta.
  apply stays_bind; [walk|]. intros [seen|e]; [|walk]. apply stays_bind; [by apply stays_deref; rewrite Hplan|walk].
Qed.
(** What a start intent leaves. *)
Definition startable (s : session) (p : protocol) : Prop :=
  exists q, jn_Prepared (wk_Journal (ss_current s)) = Some q /\
    pt_start p = Some (q, jn_StartAuthorization (wk_Journal (ss_current s))).
Lemma startable_same s s' p : startable s p -> same s s' -> startable s' p.
Proof. intros (q & H1 & H2) [E _]. exists q. by rewrite E. Qed.
Lemma permitted_startable b s p : permitted (act_start b) s p -> startable s p.
Proof. intros [-> H]. destruct (H eq_refl) as [q Hq]. exists q. split; [done|]. cbn. by rewrite Hq. Qed.
Lemma begin_start_spec w secret s p :
  alive Ready None s p ->
  wp (begin_start w secret) s p (fun r s' p' => alive Ready None s' p' /\ (is_ok r = true -> startable s' p')).
Proof.
  intros Hl. unfold begin_start.
  assert (forall b s p, alive Ready None s p -> wp (commit (act_start b)) s p
    (fun r s' p' => alive Ready None s' p' /\ (r = None -> startable s' p'))) as HC.
  { clear s p Hl. intros b s p Hl. eapply wp_mono; [by eapply commit_spec|]. intros r s' p' [? HP]. split; [done|].
    intros Hr. eapply permitted_startable. by apply HP. }
  destruct secret as [x|].
  - do 2 (apply wp_bind, wp_silent; [done|]; intros ?). destruct (negb _); [by apply wp_ret|].
    apply wp_bind. eapply wp_mono; [by apply HC|]. intros [e|] s1 p1 [H1 H2]; [by apply wp_ret|].
    apply wp_bind, wp_silent; [done|]. intros m. apply wp_ret. split; [done|]. intros _. by apply H2.
  - apply wp_bind. eapply wp_mono; [by apply HC|]. intros [e|] s1 p1 [H1 H2]; apply wp_ret; (split; [done|]); [done|].
    intros _. by apply H2.
Qed.
Lemma unknown_recordable id : recordable id (act_outcome unknown_outcome) = true.
Proof. unfold recordable. cbn. apply orb_true_iff. right. done. Qed.
Lemma start_once_spec material s p :
  alive Ready None s p -> startable s p -> wp (start_once material) s p (fun _ s' p' => alive Ready None s' p').
Proof.
  intros Hl Hst. unfold start_once. apply wp_work. intros w s1 Hs Hj _.
  eapply alive_same in Hl; [|exact Hs]. eapply startable_same in Hst; [|exact Hs]. destruct Hs as [Hs _].
  destruct Hst as (q & Hq & Hp). rewrite Hj, <- Hs, Hq. cbn [deref_ptr]. apply wp_bind, wp_ret.
  assert (wp (control "submit"
              (w ← work;
               let start := jn_StartAuthorization (wk_Journal w) in
               ask (Start q (StartAuthorization_Clone <$> start)
                      (if not_nil (start ≫= sz_Secrets) then material else None)))) s1 p
    (fun r s' p' => exists o, alive Ready o s' p' /\ (o = None \/ o = Some (pr_Identity q)))) as HW.
  { unfold control. apply wp_bind, wp_silent; [done|]. intros [e|]; [apply wp_ret; eauto|]. apply wp_bind.
    apply wp_work. intros w2 s2 Hs2 Hj2 _. cbv zeta. eapply wp_seen; [done|done| |].
    - unfold protocol_step. rewrite (lv_held _ _ _ _ Hl), (lv_journal _ _ _ _ Hl), Hp, (lv_loaded _ _ _ _ Hl), Hj2, !bool_decide_eq_true_2 by done.
      reflexivity.
    - intros x. apply wp_ret. exists (Some (pr_Identity q)). split; [|by right].
      destruct Hl, Hs2. constructor; cbn; congruence. }
  apply wp_bind. eapply wp_mono; [exact HW|]. clear HW. intros r s2 p2 (o & Ho & Hid). cbv zeta.
  eapply wp_mono; [eapply commit_spec; [exact Ho|]|by intros ? ? ? [? _]].
  intros id ->. destruct Hid as [?|[= ->]]; [done|]. destruct r as [out|e]; [|apply unknown_recordable].
  destruct (SubmissionOutcome_Validate out _) eqn:Hv; cbn [not_nil]; [apply unknown_recordable|].
  unfold recordable. cbn. by rewrite Hv.
Qed.
Lemma stays_process_Ready w :
  Journal_Valid (wk_Journal w) = true -> jn_Phase (wk_Journal w) = Ready -> stays Ready (process_Ready guarded w).
Proof.
  intros Hv Hp. pose proof (fun g => stays_revalidate w g Hv Hp). unfold process_Ready.
  apply stays_bind; [walk|]. intros [r|]; [walk|]. apply stays_bind; [walk|]. intros [e|]; [walk|]. cbv zeta.
  intros s p Hl. apply wp_bind. eapply wp_mono; [by apply begin_start_spec|]. intros [m|e] s1 p1 [H1 H2].
  - apply wp_bind. eapply wp_mono; [by apply start_once_spec; [|apply H2]|]. cbv beta. intros x. as_stays. walk.
  - revert s1 p1 H1 H2. cbn. intros s1 p1 H1 _. revert s1 p1 H1. as_stays. walk.
Qed.

(** ** The pass *)
Lemma stays_pass_body w :
  Journal_Valid (wk_Journal w) = true -> stays (jn_Phase (wk_Journal w)) (pass_body schema cfg guarded w).
Proof.
  intros Hv. unfold pass_body, pass_expired. cbv zeta. apply stays_bind; [walk|]. intros expired. destruct (_ && _); [walk|].
  do 2 (apply stays_bind; [walk|]; intros ?). destruct a0; [walk|].
  apply stays_bind; [walk|]. intros [_|e]; [|walk]. apply stays_bind; [walk|]. intros d. destruct (_ <>? _); [walk|].
  apply stays_bind; [walk|]. intros [r|]; [walk|].
  destruct (jn_Phase (wk_Journal w)) eqn:Hp; [apply stays_process_Local|by apply stays_process_Staging|by apply stays_process_Ready
    |by apply stays_process_Submitting|by apply stays_process_Submitted|walk..].
Qed.

Lemma jitter_bounds fence d : 0 < d -> d <= jitter fence d <= d + Z.quot (3 * d) 10.
Proof.
  intros Hd. unfold jitter. destruct (bytes_of fence) as [|c l].
  - pose proof (Z.quot_pos (3 * d) 10). lia.
  - assert (0 <= byte_val c `mod` 4 <= 3) by (pose proof (Z.mod_pos_bound (byte_val c) 4); lia).
    generalize dependent (byte_val c `mod` 4). intros k Hk. assert (0 <= k * d <= 3 * d) by nia.
    pose proof (Z.quot_pos (k * d) 10). pose proof (Z.quot_le_mono (k * d) (3 * d) 10). lia.
Qed.
Lemma pass_delay_bounds w err :
  Journal_Valid (wk_Journal w) = true -> 0 < pass_delay cfg w err <= longest_delay.
Proof.
  intros Hv. destruct (valid_bounds _ Hv) as (_ & Hf & _).
  assert (0 < ec_PollDelay cfg) as Hp by (unfold EngineConfig_Valid, Millisecond in Hcfg; bool_to_prop; lia).
  pose proof (nextPassDelay_range (ec_PollDelay cfg) (wk_Journal w) Hp ltac:(lia)) as Hn. unfold pass_delay. cbv zeta.
  set (d := if _ <>? "" then _ else _). assert (0 < d <= 300 * Second) as Hd.
  { subst d. unfold Minute, Second in *. repeat case_match; lia. }
  pose proof (jitter_bounds (cl_Fence (hd_Claim (wk_Handle w))) d) as Hj.
  pose proof (Z.quot_le_mono (3 * d) (3 * (300 * Second)) 10 ltac:(lia) ltac:(lia)). unfold longest_delay, Second in *.
  assert (Z.quot (3 * (300 * 1000000000)) 10 = 90000000000) by reflexivity. lia.
Qed.
Lemma pass_end_spec err s p ph :
  alive ph None s p -> wp (pass_end cfg err) s p (fun _ _ p' => pt_yielded p' = true).
Proof.
  intros Hl. unfold pass_end. apply wp_bind, wp_silent; [done|]. intros renewal. cbv zeta.
  apply wp_work. intros w s1 Hs Hj _. eapply alive_same in Hl; [|exact Hs]. destruct Hs as [Hs _].
  apply wp_bind, wp_gets. set (err' := Join _).
  assert (Journal_Valid (wk_Journal w) = true) as Hv by (rewrite Hj, <- Hs; apply Hl).
  pose proof (pass_delay_bounds w err' Hv) as Hd.
  assert (forall d, 0 < d <= longest_delay ->
    wp (e ← ask (YieldDispatch (wk_Handle w) d); mret (Join [err'; e])) s1 p (fun _ _ p' => pt_yielded p' = true)) as HY.
  { intros d Hb. apply wp_bind. eapply wp_seen; [done|done| |].
    - unfold protocol_step. rewrite (lv_held _ _ _ _ Hl), (lv_journal _ _ _ _ Hl), (lv_owing _ _ _ _ Hl).
      rewrite (proj2 (Z.leb_gt d 0)), (proj2 (Z.ltb_ge longest_delay d)) by lia. reflexivity.
    - intros x. by apply wp_ret. }
  apply wp_bind. destruct (jn_PreparationObservationStarted (wk_Journal w)) as [started|]; [|apply wp_ret, HY, Hd].
  destruct (unconfirmedPreparation _); [|apply wp_ret, HY, Hd].
  apply wp_bind, wp_silent; [done|]. intros now. apply wp_ret, HY. destruct (Z.ltb_spec 0 (time_Sub (started + PreparationObservationGrace) now)); lia.
Qed.

Lemma process_obeys c :
  obeys protocol_step honest (process schema cfg guarded c) protocol_start
    (fun _ p' => pt_yielded p' = true \/ pt_journal p' = None).
Proof.
  unfold process, perform. cbn [mbind prog_mbind prog_bind obeys]. exists protocol_start. split; [done|].
  intros [w|e] Hx; cbn [answered call_observed answered_events feed].
  - cbn in Hx. eexists. split; [reflexivity|].
    apply obeys_bind. apply (obeys_mono _ _ _ _ (fun _ p' => pt_yielded p' = true)); [|intros [e s'] p' H; by left].
    change (wp (e ← pass_body schema cfg guarded w; pass_end cfg e) (mkSession w zero_time None false 0)
      (mkProtocol (Some (jn_Phase (wk_Journal w))) (Some (wk_Journal w)) None None None None false)
      (fun _ _ p' => pt_yielded p' = true)).
    eapply wp_stays_bind; [by apply stays_pass_body|by constructor|]. intros a s' p' Hl. by eapply pass_end_spec.
  - exists protocol_start. split; [done|]. by right.
Qed.
End Passes.

(** ** What the protocol gives *)
Definition is_start (e : event) : bool := match e with Starting _ _ => true | _ => false end.
Definition is_prepare (e : event) : bool := match e with Preparing _ _ => true | _ => false end.
Definition is_commit (k : Kind) (e : event) : bool := match e with CommittedWork a _ => ac_Kind a ==? k | _ => false end.
Definition is_yield (e : event) : bool := match e with Yielded _ _ => true | _ => false end.
Definition count_if {A} (f : A -> bool) (l : list A) : nat := length (filter (fun x => f x = true) l).
Definition held {A} (x : option A) : nat := if is_nil x then 0%nat else 1%nat.

Lemma count_if_cons {A} (f : A -> bool) x l : count_if f (x :: l) = (one_of (f x) + count_if f l)%nat.
Proof. unfold count_if. rewrite filter_cons. by destruct (f x). Qed.

Lemma held_le {A} (x : option A) : (held x <= 1)%nat.
Proof. destruct x; cbn; lia. Qed.

(** A call uses up a permit, and only a committed intent gives one. *)
Lemma step_permits p e p' :
  protocol_step p e = Some p' ->
  (one_of (is_start e) + held (pt_start p') <= held (pt_start p) + one_of (is_commit BeginSubmission e))%nat /\
  (one_of (is_prepare e) + held (pt_prepare p') <= held (pt_prepare p) + one_of (is_commit BeginPreparation e))%nat.
Proof.
  unfold protocol_step, granted, at_journal. destruct (pt_yielded p); [done|].
  destruct (pt_journal p); destruct e; intros H; split_guards H; simplify_eq; cbn; repeat case_bool_decide; simplify_eq; cbn; try lia; try congruence.
  all: match goal with |- context [held (?f <$> ?x)] => pose proof (held_le (f <$> x)) end; lia.
Qed.
Lemma feed_counts l : forall p p',
  feed protocol_step p l = Some p' ->
  (count_if is_start l <= held (pt_start p) + count_if (is_commit BeginSubmission) l)%nat /\
  (count_if is_prepare l <= held (pt_prepare p) + count_if (is_commit BeginPreparation) l)%nat.
Proof.
  induction l as [|e l IH]; intros p p'; [intros _; cbn; lia|]. rewrite !count_if_cons. cbn [feed].
  destruct (protocol_step p e) as [p1|] eqn:E; [|done]. intros H. apply step_permits in E. apply IH in H. lia.
Qed.

(** ** Sessions that end *)
Lemma yielded_stuck p l p' : pt_yielded p = true -> feed protocol_step p l = Some p' -> l = [].
Proof. intros H. destruct l as [|e l]; [done|]. cbn. unfold protocol_step. by rewrite H. Qed.
Lemma step_yields p e p' :
  protocol_step p e = Some p' ->
  is_yield e = pt_yielded p' /\ pt_journal p' <> None /\ e <> Crashed /\ forall h d, e = Yielded h d -> 0 < d <= longest_delay.
Proof.
  unfold protocol_step, granted, at_journal. destruct (pt_yielded p); [done|].
  destruct (pt_journal p); destruct e; intros H; split_guards H; simplify_eq; split_and!; try done.
  intros ? ? [= -> ->]. bool_to_prop. lia.
Qed.
Lemma feed_journal l : forall p p', feed protocol_step p l = Some p' -> pt_journal p' = None -> l = [].
Proof.
  induction l as [|e l IH] using rev_ind; [done|]. intros p p'. rewrite feed_app.
  destruct (feed _ p l) as [p1|]; [|done]. cbn. destruct (protocol_step p1 e) as [p2|] eqn:E; [|done].
  intros [= <-] Hj. by apply step_yields in E as (_ & ? & _).
Qed.
Lemma feed_safe l : forall p p', feed protocol_step p l = Some p' -> Crashed ∉ l.
Proof.
  induction l as [|e l IH]; intros p p'; [by intros _ ?%elem_of_nil|]. cbn.
  destruct (protocol_step p e) as [p1|] eqn:E; [|done]. intros H [<-|Hc]%elem_of_cons; [by apply step_yields in E as (_ & _ & ? & _)|].
  by eapply IH.
Qed.
(** A session that gave its lease back did so last, once, for a bounded time. *)
Definition ends_with_yield (l : list event) : Prop :=
  exists l' h d, l = l' ++ [Yielded h d] /\ count_if is_yield l' = 0%nat /\ 0 < d <= longest_delay.
Lemma feed_yields l : forall p p',
  feed protocol_step p l = Some p' -> pt_yielded p = false -> pt_yielded p' = true -> ends_with_yield l.
Proof.
  induction l as [|e l IH]; intros p p'; cbn; [congruence|]. destruct (protocol_step p e) as [p1|] eqn:E; [|done].
  intros H Hp Hp'. pose proof (step_yields _ _ _ E) as (Hy & _ & _ & Hb). destruct (pt_yielded p1) eqn:Hp1.
  - apply yielded_stuck in H as ->; [|done]. destruct e; try done. exists [], h, delay. eauto.
  - destruct (IH _ _ H Hp1 Hp') as (l' & h & d & -> & Hc & Hd). exists (e :: l'), h, d. by rewrite count_if_cons, Hy, Hc.
Qed.
(** The event after a start is the record of its outcome. *)
Lemma feed_start q a l2 : forall l1 p p',
  feed protocol_step p (l1 ++ Starting q a :: l2) = Some p' ->
  l2 = [] \/ exists act l3, l2 = Committing act :: l3 /\ recordable (pr_Identity q) act = true.
Proof.
  intros l1 p p'. rewrite feed_app. destruct (feed _ p l1) as [p1|]; [|done]. cbn.
  destruct (protocol_step p1 (Starting q a)) as [p2|] eqn:E; [|done].
  assert (pt_owing p2 = Some (pr_Identity q) /\ pt_prepare p2 = None /\ pt_start p2 = None /\ pt_cancel p2 = None) as (H1 & H2 & H3 & H4).
  { unfold protocol_step in E. destruct (pt_yielded p1); [done|]. destruct (pt_journal p1); [|done]. cbn in E. split_guards E.
    by injection E as <-. }
  destruct l2 as [|e l3]; [by left|]. cbn. destruct (protocol_step p2 e) as [p3|] eqn:E2; [|done]. intros _. right.
  pose proof (step_yields _ _ _ E) as (_ & Hj & _). unfold protocol_step in E2.
  rewrite H1, H2, H3, H4 in E2. destruct (pt_yielded p2); [done|]. destruct (pt_journal p2); [|done]. cbn in E2.
  destruct e; try done. destruct (recordable _ _) eqn:Hr; [|done]. eauto.
Qed.
(** Preparations are made in phase [Local] and starts in phase [Ready]. *)
Definition in_phase (ph : Phase) (e : event) : Prop :=
  (is_prepare e = true -> ph = Local) /\ (is_start e = true -> ph = Ready).
Lemma feed_phase ph l : forall p p',
  feed protocol_step p l = Some p' -> pt_loaded p = Some ph -> pt_journal p <> None -> Forall (in_phase ph) l.
Proof.
  induction l as [|e l IH]; intros p p' H Hl Hj; [constructor|]. cbn in H.
  destruct (protocol_step p e) as [p1|] eqn:E; [|done].
  assert (in_phase ph e /\ pt_loaded p1 = Some ph) as [He Hl1].
  { clear H. unfold protocol_step, granted, at_journal in E. destruct (pt_yielded p); [done|]. destruct (pt_journal p); [|done].
    destruct e; split_guards E; simplify_eq; bool_to_prop; (split; [split; intros ?; try discriminate|]; cbn; congruence). }
  constructor; [done|]. eapply IH; [exact H|done|]. by apply step_yields in E as (_ & ? & _).
Qed.

(** ** Claims *)
Section Claims.
Context (schema : json -> bool) (cfg : EngineConfig) (guarded : bool).
Definition session_run (c : Claim) : list event -> option (option error) -> Prop :=
  fair_runs protocol_step honest (process schema cfg guarded c) protocol_start.

(** C2: every run of a dispatch session, cut at any
    point and whatever the provider, the clock, the contexts and the secret
    pool answer, stays inside the session protocol: a provider is asked to
    prepare, start or cancel only with the permit of the intent that was just
    committed, for exactly the committed plan, preparation or reference; no
    missing pointer is dereferenced; and a session that ends after loading
    gives its lease back once, as its last call, for a bounded positive time. *)
Theorem process_protocol c l r :
  EngineConfig_Valid cfg = true -> session_run c l r ->
  (exists p, feed protocol_step protocol_start l = Some p) /\ Crashed ∉ l /\
  (forall e, r = Some e -> l = [] \/ ends_with_yield l).
Proof.
  intros Hcfg Hr. destruct (obeys_runs _ _ _ _ _ _ _ (process_obeys schema cfg guarded Hcfg c) Hr) as (p & Hf & HQ).
  split_and!; [by exists p|by eapply feed_safe|]. intros e He. destruct (HQ e He) as [Hy|Hj].
  - right. by eapply feed_yields.
  - left. by eapply feed_journal.
Qed.

(** C15: a session calls the provider's start only when it
    loaded a ready attempt and its prepare only when it loaded a local one,
    so recovery never repeats either; and the call after a start, in every
    run that is not cut right there, records an outcome that was validated
    for the started identity, or that it is unknown. *)
Theorem session_effects c w l r :
  EngineConfig_Valid cfg = true -> session_run c (Loaded w :: l) r ->
  Forall (in_phase (jn_Phase (wk_Journal w))) l /\
  (count_if is_start l <= count_if (is_commit BeginSubmission) l)%nat /\
  (count_if is_prepare l <= count_if (is_commit BeginPreparation) l)%nat /\
  forall l1 q a l2, l = l1 ++ Starting q a :: l2 ->
    (l2 = [] /\ r = None) \/ exists act l3, l2 = Committing act :: l3 /\ recordable (pr_Identity q) act = true.
Proof.
  intros Hcfg Hr. destruct (obeys_runs _ _ _ _ _ _ _ (process_obeys schema cfg guarded Hcfg c) Hr) as (p & Hf & HQ).
  pose proof Hf as Hf'. cbn in Hf'. split_and!.
  - by eapply feed_phase.
  - by apply feed_counts in Hf' as [? _].
  - by apply feed_counts in Hf' as [_ ?].
  - intros l1 q a l2 ->. destruct (feed_start q a l2 l1 _ _ Hf') as [->|H]; [|by right]. left. split; [done|].
    destruct r as [e|]; [|done]. exfalso. destruct (HQ e eq_refl) as [Hy|Hj].
    + destruct (feed_yields _ _ _ Hf eq_refl Hy) as (l' & h & d & He & _).
      rewrite app_comm_cons in He. by apply app_inj_tail in He as [_ ?].
    + by apply feed_journal in Hf.
Qed.

End Claims.

(** ** All sessions of an attempt

    A history interleaves the events of sessions, each under its number. *)
#[local] Notation history := (list (nat * event)).
Definition session_of (i : nat) (h : history) : list event := (filter (fun x => x.1 = i) h).*2.
Definition commit_kinds (h : history) : list Kind :=
  omap (fun x => match x.2 with CommittedWork a _ => Some (ac_Kind a) | _ => None end) h.


(** A bound that holds per session holds over all sessions. *)
Lemma session_of_rest i k h : session_of k (filter (fun x => x.1 <> i) h) = if decide (k = i) then [] else session_of k h.
Proof.
  unfold session_of. rewrite list_filter_filter. destruct (decide (k = i)) as [->|Hk].
  - induction h as [|[m e] h IH]; [done|]. rewrite filter_cons_False; [done|naive_solver].
  - f_equal. apply list_filter_iff. intros [m e]. cbn. naive_solver.
Qed.
Lemma count_split f i h :
  count_if f h.*2 = (count_if f (session_of i h) + count_if f (filter (fun x => x.1 <> i) h).*2)%nat.
Proof.
  unfold session_of. induction h as [|[m e] h IH]; [done|]. rewrite !filter_cons. cbn [fst snd fmap list_fmap].
  repeat case_decide; try done; cbn [fst snd fmap list_fmap]; rewrite !count_if_cons; lia.
Qed.
Lemma per_session f g : forall n h, (length h <= n)%nat ->
  (forall i, count_if f (session_of i h) <= count_if g (session_of i h))%nat -> (count_if f h.*2 <= count_if g h.*2)%nat.
Proof.
  induction n as [|n IH]; intros h Hn H; [destruct h; cbn in Hn; [done|lia]|]. destruct h as [|[i e] h]; [done|].
  rewrite (count_split f i), (count_split g i). pose proof (H i). apply Nat.add_le_mono; [done|]. apply IH.
  - rewrite filter_cons. case_decide as Hd; [by cbn in Hd|]. etrans; [apply length_filter|]. cbn in Hn. lia.
  - intros k. rewrite !session_of_rest. by case_decide.
Qed.
Lemma commit_count k h : count_if (is_commit k) h.*2 = length (filter (fun x => x = k) (commit_kinds h)).
Proof.
  unfold commit_kinds. induction h as [|[i e] h IH]; [done|]. cbn [fmap list_fmap snd omap list_omap].
  rewrite count_if_cons, IH. destruct e; try done. cbn [is_commit]. rewrite filter_cons. by repeat case_decide.
Qed.
Lemma kind_count k (tr : list (Action * Time)) : length (filter (fun x => x = k) (kind_of <$> tr)) = count_kind k tr.
Proof.
  induction tr as [|x tr IH]; [done|]. cbn [fmap list_fmap]. rewrite filter_cons, count_cons, <- IH.
  by destruct (decide (kind_of x = k)); [rewrite bool_decide_eq_true_2|rewrite bool_decide_eq_false_2].
Qed.
Lemma among_count k h (tr : list (Action * Time)) :
  commit_kinds h ⊆+ kind_of <$> tr -> (count_if (is_commit k) h.*2 <= count_kind k tr)%nat.
Proof. intros H. rewrite commit_count, <- kind_count. apply submseteq_Permutation in H as [k' H].
  rewrite H, filter_app, length_app. lia. Qed.

(** C1: over all dispatch sessions of an attempt, interleaved
    and cut at any points, the provider's prepare is called at most once and
    its start at most once, as long as the commits the sessions were told of
    are commits of the attempt's stored run. *)
Theorem attempt_calls_once schema cfg guarded h tr j s :
  EngineConfig_Valid cfg = true ->
  (forall i, exists c r, session_run schema cfg guarded c (session_of i h) r) ->
  run tr j s -> commit_kinds h ⊆+ kind_of <$> tr ->
  (count_if is_start h.*2 <= 1)%nat /\ (count_if is_prepare h.*2 <= 1)%nat /\
  (0 < count_if is_start h.*2 -> jn_SubmitStarted j = true)%nat.
Proof.
  intros Hcfg Hs Hrun Hc.
  assert (forall i, exists p, feed protocol_step protocol_start (session_of i h) = Some p) as Hf.
  { intros i. destruct (Hs i) as (c & r & Hr).
    destruct (obeys_runs _ _ _ _ _ _ _ (process_obeys schema cfg guarded Hcfg c) Hr) as (p & Hp & _). by exists p. }
  pose proof (among_count BeginSubmission _ _ Hc). pose proof (among_count BeginPreparation _ _ Hc).
  assert (count_if is_start h.*2 <= count_if (is_commit BeginSubmission) h.*2)%nat.
  { eapply per_session; [done|]. intros i. destruct (Hf i) as [p Hp]. by apply feed_counts in Hp as [? _]. }
  assert (count_if is_prepare h.*2 <= count_if (is_commit BeginPreparation) h.*2)%nat.
  { eapply per_session; [done|]. intros i. destruct (Hf i) as [p Hp]. by apply feed_counts in Hp as [_ ?]. }
  destruct (run_counts _ _ _ Hrun) as [E1 E2]. rewrite E1 in *. rewrite E2 in *.
  assert (forall b, one_of b <= 1)%nat as Hone by (intros []; cbn; lia).
  pose proof (Hone (jn_SubmitStarted j)). pose proof (Hone (negb (is_nil (jn_Plan j)))).
  split_and!; [lia|lia|]. intros ?. destruct (jn_SubmitStarted j); [done|]. cbn in *. lia.
Qed.
