(* ===== verification/QueueScenario.v ===== *)
(** * A worked queue and a worked transfer

    Three waiting attempts of two workspaces, scheduled by the model, and a
    small artifact copied by it. They show that the hypotheses of the
    scheduler and transfer theorems can hold. *)

From S2P Require Import Prelude GoStrings GoTime GoSha256 Identifiers Problems DomainRecords AttemptStates AttemptRuns Provider ProviderResources Transfer Scheduler SchedulerProps.
#[local] Open Scope string_scope.
#[local] Open Scope list_scope.
#[local] Open Scope Z_scope.
#[local] Open Scope bool_scope.

(** ** The queue *)
Definition queue_now : Time := 1700000000 * Second.
Definition candidate (w : string) (sequence : Z) (granted : bool) : Candidate :=
  mkCandidate (mkSchedIdentity w "job-1" "attempt-1") sequence InitialAttemptState true true "account-1" "host-1"
    (mkAccountPolicy false 2 false) "cpu" 600 false zero_time zero_time (mkQuota None false) "" "" 0 granted.
Definition queue : list Candidate := [candidate "alpha" 3 true; candidate "beta" 2 true; candidate "alpha" 1 true].
Definition blocked_queue : list Candidate := [candidate "alpha" 1 false].
Definition queue_view : View :=
  Eval vm_compute in match Select queue "alpha" DefaultSettings queue_now with Ok (_, v) => v | Err _ => empty_view DefaultSettings end.
Definition blocked_view : View :=
  Eval vm_compute in match Select blocked_queue "" DefaultSettings queue_now with Ok (_, v) => v | Err _ => empty_view DefaultSettings end.
Lemma queue_select : Select queue "alpha" DefaultSettings queue_now = Ok (Some 1%nat, queue_view).
Proof. vm_compute. reflexivity. Qed.
Lemma blocked_select : Select blocked_queue "" DefaultSettings queue_now = Ok (None, blocked_view).
Proof. vm_compute. reflexivity. Qed.

Lemma Select_fifo_witness : exists r, queue !! 1%nat = Some r /\ waiting queue_now r = true.
Proof. destruct (Select_fifo _ _ _ _ _ _ queue_select) as (r & H1 & H2 & _). exists r. split; [exact H1|exact H2]. Defined.
Lemma Select_gates_witness : ca_AuthorizationGranted (candidate "beta" 2 true) = true /\ st_Paused DefaultSettings = false.
Proof.
  destruct (Select_gates _ _ _ _ _ _ (candidate "beta" 2 true) queue_select eq_refl) as (H1 & H2 & _). split; [exact H1|exact H2].
Defined.
Lemma Select_capacity_witness :
  count_rows (fun c => live c queue_now) (<[1%nat := claim_row DefaultSettings queue_now (candidate "beta" 2 true)]> queue)
  <= st_MaxWorkers DefaultSettings.
Proof. exact (proj1 (Select_capacity _ _ _ _ _ _ (candidate "beta" 2 true) queue_select eq_refl)). Defined.

Lemma alone_head : is_head queue_now blocked_queue "alpha" 0.
Proof.
  exists (candidate "alpha" 1 false). split_and!; [reflexivity..|]. intros j r' Hj _ _.
  destruct j as [|j]; [injection Hj as <-; lia|discriminate Hj].
Qed.
Lemma Select_idle_witness :
  head_status DefaultSettings queue_now (snapshot_view blocked_queue DefaultSettings queue_now) (candidate "alpha" 1 false)
    ∈ vw_Heads blocked_view.
Proof. exact (proj2 (Select_idle _ _ _ _ _ blocked_select "alpha" 0%nat (candidate "alpha" 1 false) alone_head eq_refl)). Defined.

Lemma beta_head : is_head queue_now queue "beta" 1.
Proof.
  exists (candidate "beta" 2 true). split_and!; [reflexivity..|]. intros j r' Hj _ Hw.
  destruct j as [|[|[|j]]]; [injection Hj as <-; discriminate Hw|injection Hj as <-; lia|injection Hj as <-; discriminate Hw|discriminate Hj].
Qed.
Lemma alpha_head : is_head queue_now queue "alpha" 2.
Proof.
  exists (candidate "alpha" 1 true). split_and!; [reflexivity..|]. intros j r' Hj _ Hw.
  destruct j as [|[|[|j]]]; [injection Hj as <-; cbn; lia|injection Hj as <-; discriminate Hw|injection Hj as <-; lia|discriminate Hj].
Qed.
Lemma alpha_eligible : eligible_head queue DefaultSettings queue_now "alpha".
Proof. exists 2%nat, (candidate "alpha" 1 true). split_and!; [exact alpha_head|reflexivity|vm_compute; reflexivity]. Qed.
Lemma Select_round_robin_witness : str_lt "alpha" (ca_WorkspaceID (candidate "beta" 2 true)).
Proof.
  refine (proj1 (proj2 (Select_round_robin _ _ _ _ _ _ (candidate "beta" 2 true) "alpha" queue_select eq_refl alpha_eligible) _)).
  vm_compute. reflexivity.
Defined.
Definition queue_heads : gmap string nat :=
  Eval vm_compute in match scan_rows queue queue_now 0 ∅ ∅ (empty_view DefaultSettings) queue with Ok (h, _) => h | Err _ => ∅ end.
Lemma Select_no_starvation_witness :
  "alpha" ∉ serve "alpha" [(queue, DefaultSettings, queue_now)] /\ NoDup (serve "alpha" [(queue, DefaultSettings, queue_now)]).
Proof.
  assert ("alpha" ∉ serve "alpha" [(queue, DefaultSettings, queue_now)]) as H3
    by (apply (bool_decide_eq_false_1 _); vm_compute; reflexivity).
  split; [exact H3|]. refine (proj2 (Select_no_starvation "alpha" _ "alpha" _ _ H3)).
  - apply Forall_singleton. exists queue_heads. split; [|split; [vm_compute; discriminate|exact alpha_eligible]].
    split; [vm_compute; reflexivity|]. split; [vm_compute; reflexivity|vm_compute; reflexivity].
  - right. vm_compute. reflexivity.
Defined.
Lemma HoldsAccount_spec_witness : consistent InitialAttemptState /\ HoldsAccount InitialAttemptState false = false.
Proof.
  assert (consistent InitialAttemptState) as H by (apply Validate_spec; vm_compute; reflexivity).
  split; [exact H|]. apply (proj2 (HoldsAccount_spec InitialAttemptState false H)). right.
  split; [reflexivity|]. split; [reflexivity|]. right. split; [reflexivity|].
  apply (bool_decide_eq_false_1 _). vm_compute. reflexivity.
Defined.

(** ** The transfer *)
Definition transfer_remote : RemoteReference :=
  mkRemoteReference (mkIdentity "installation-1" "workspace-1" "job-1" "attempt-1" "host-1" "intent-1" "resource-1"
    "nonce-0123456789" (sha256_hex "") (sha256_hex "")) "container/attempt-1" "v1".
Definition transfer_chunks : list (list ascii) := [bytes_of "hello "; bytes_of "world"].
Definition transfer_artifact : Artifact := mkArtifact transfer_remote "out/greeting.txt" 11 (sha256_hex "hello world").
Lemma transfer_copy :
  CopyVerified (fun _ => None) writes_all (Some (fragments transfer_chunks)) true transfer_artifact 100 =
    (Ok (mkTransferResult 11 (sha256_hex "hello world")), bytes_of "hello world").
Proof. vm_compute. reflexivity. Qed.

Lemma CopyVerified_sound_witness : (delivered (fragments transfer_chunks)).1 = bytes_of "hello world".
Proof. refine (proj1 (CopyVerified_sound (fun _ => None) writes_all _ _ _ _ _ _ _ transfer_copy)). intros n e [=]. Defined.
Lemma CopyVerified_complete_witness :
  CopyVerified (fun _ => None) writes_all (Some (fragments transfer_chunks)) true transfer_artifact 100 =
    (Ok (mkTransferResult (af_Bytes transfer_artifact) (af_SHA256 transfer_artifact)), concat transfer_chunks).
Proof. apply (CopyVerified_complete transfer_chunks transfer_artifact 100); vm_compute; first [reflexivity|discriminate]. Defined.
Lemma CopyVerified_bounded_witness :
  exists more, (delivered (fragments transfer_chunks)).1 =
    (CopyVerified (fun _ => None) writes_all (Some (fragments transfer_chunks)) true transfer_artifact 100).2 ++ more.
Proof. refine (proj2 (CopyVerified_bounded (fun _ => None) writes_all _ _ _ _ _)). intros n e [=]. Defined.
