(* ===== verification/Scenario.v ===== *)
(** * A worked scenario

    One attempt on concrete values, executed by the model: its preparation,
    its start, and three endings (a finished execution, a submission that is
    proved absent, a local failure). The scenario shows that the hypotheses
    of the dispatch theorems can hold. *)

From S2P Require Import Prelude GoStrings GoTime GoSha256 GoJson Identifiers Problems DomainRecords AttemptStates AttemptRuns Attempts Operations Provider ProviderResources ProviderProps Scheduler Journal JournalLemmas Apply ApplyLemmas ApplyProps ApplyEvidence ApplyClosed DispatchRuns.
#[local] Open Scope string_scope.
#[local] Open Scope list_scope.
#[local] Open Scope Z_scope.
#[local] Open Scope bool_scope.

(** ** Replaying actions *)
(** What [CommitDispatch] and the next [loadJournal] do for each action. *)
Fixpoint replay (j : Journal) (s : AttemptState) (steps : list (Action * Time)) : option (Journal * AttemptState) :=
  match steps with
  | [] => Some (j, s)
  | (a, now) :: steps' =>
      match Apply j s a now with
      | Ok (next, s', _) => match loadJournal (Some next) with Some j' => replay j' s' steps' | None => None end
      | Err _ => None
      end
  end.
Lemma replay_run steps : forall tr j s j' s',
  run tr j s -> replay j s steps = Some (j', s') -> run (rev steps ++ tr) j' s'.
Proof.
  induction steps as [|[a now] steps IH]; intros tr j s j' s' Hr; cbn [replay]; [by intros [= <- <-]|].
  destruct (Apply j s a now) as [[[next s1] e]|] eqn:HA; [|discriminate]. destruct (loadJournal (Some next)) as [j1|] eqn:HL; [|discriminate].
  intros H. cbn [rev]. rewrite <- app_assoc. cbn [app]. apply (IH _ _ _ _ _ (run_commit _ _ _ _ _ _ _ _ _ Hr HA HL) H).
Qed.

(** ** The values *)
Definition sample_spec : string := "{}".
Definition sample_identity : Identity :=
  mkIdentity "installation-1" "workspace-1" "job-1" "attempt-1" "host-1" "intent-1" "resource-1" "nonce-0123456789"
    sample_digest (InputDigest sample_snapshot).
Definition sample_plan : Plan :=
  mkPlan (mkResolvedJob sample_identity (bs_Binding sample_binding) sample_spec (Digest sample_spec)
            (Some [CapabilityBatchExecution]) 600 (Some sample_snapshot)) None.
Definition sample_prepared : Prepared :=
  mkPrepared "" "" sample_identity "preparation-1" (Plan_Digest sample_plan) "staging/attempt-1" true true.
Definition sample_remote : RemoteReference := mkRemoteReference sample_identity "container/attempt-1" "v1".
Definition t0 : Time := 1700000000 * Second.
Definition action (k : Kind) : Action :=
  mkAction "" false k None "" None None None None (CodeOther "") "" "" None "" false None false.
Definition begin_preparation : Action :=
  mkAction "" false BeginPreparation (Some sample_plan) "preparation-1" None None None None (CodeOther "") "" "" None "" false None false.
Definition preparation_seen : Action :=
  mkAction "" false PreparationSeen None "" (Some sample_prepared) None None None (CodeOther "") "" "" None "" false None false.
Definition accepted : Action :=
  mkAction "" false SubmissionSeen None "" None (Some (mkSubmissionOutcome SubmissionAccepted (Some sample_remote) None)) None None
    (CodeOther "") "" "" None "" false None false.
Definition observed (e : ExecutionState) (r : RemoteActivityState) (at_ : Time) : Action :=
  mkAction "" false ObservationSeen None "" None None None
    (Some (mkObservation sample_remote e "raw" r ReleaseEvidenceUnknown at_)) (CodeOther "") "" "" None "" false None false.
Definition absent : Action :=
  mkAction "" false SubmissionAbsenceSeen None "" None None None None (CodeOther "") "" "" None "container-1" false None false.
Definition fault (code : ErrorCode) : Action :=
  mkAction "" false Fault None "" None None None None code "" "" None "" false None false.

Definition prepared_steps : list (Action * Time) := [(begin_preparation, t0); (preparation_seen, t0 + Second)].
Definition started_steps : list (Action * Time) := prepared_steps ++ [(action BeginSubmission, t0 + 2 * Second)].
Definition running_steps : list (Action * Time) :=
  started_steps ++ [(accepted, t0 + 3 * Second); (observed ExecutionRunning RemoteActivityActive (t0 + 4 * Second), t0 + 5 * Second)].
Definition finished : Action * Time := (observed ExecutionSucceeded RemoteActivityInactive (t0 + 60 * Second), t0 + 61 * Second).
Definition lost_steps : list (Action * Time) := started_steps ++ [(absent, t0 + 10 * Second)].

(** The stored journal and state after some actions. *)
Definition after (steps : list (Action * Time)) : Journal * AttemptState :=
  default (new_journal, InitialAttemptState) (replay new_journal InitialAttemptState steps).
Definition ready : Journal * AttemptState := Eval vm_compute in after prepared_steps.
Definition running : Journal * AttemptState := Eval vm_compute in after running_steps.
Definition lost : Journal * AttemptState := Eval vm_compute in after lost_steps.
Definition ended : Journal * AttemptState := Eval vm_compute in after (running_steps ++ [finished]).
Definition resolved_steps : list (Action * Time) := lost_steps ++ [(absent, t0 + 130 * Second)].
Definition resolved : Journal * AttemptState := Eval vm_compute in after resolved_steps.

Lemma new_run : run [] new_journal InitialAttemptState.
Proof. apply run_new; vm_compute; reflexivity. Qed.
Lemma running_run : run (rev running_steps ++ []) running.1 running.2.
Proof. apply (replay_run _ _ _ _ _ _ new_run). vm_compute. reflexivity. Qed.
Lemma ended_run : run (rev (running_steps ++ [finished]) ++ []) ended.1 ended.2.
Proof. apply (replay_run _ _ _ _ _ _ new_run). vm_compute. reflexivity. Qed.
Lemma resolved_run : run (rev resolved_steps ++ []) resolved.1 resolved.2.
Proof. apply (replay_run _ _ _ _ _ _ new_run). vm_compute. reflexivity. Qed.

(** Single steps: the journal to store, the next state, the event. *)
Definition committed (r : result apply_error (Journal * AttemptState * EventType)) : Journal * AttemptState * EventType :=
  match r with Ok x => x | Err _ => (new_journal, InitialAttemptState, EventTypeOther "") end.
Definition start_out := Eval vm_compute in committed (Apply ready.1 ready.2 (action BeginSubmission) (t0 + 2 * Second)).
Lemma start_step : Apply ready.1 ready.2 (action BeginSubmission) (t0 + 2 * Second) = Ok start_out.
Proof. vm_compute. reflexivity. Qed.
Definition finish_out := Eval vm_compute in committed (Apply running.1 running.2 finished.1 finished.2).
Lemma finish_step : Apply running.1 running.2 finished.1 finished.2 = Ok finish_out.
Proof. vm_compute. reflexivity. Qed.
Definition resolve_out := Eval vm_compute in committed (Apply lost.1 lost.2 absent (t0 + 130 * Second)).
Lemma resolve_step : Apply lost.1 lost.2 absent (t0 + 130 * Second) = Ok resolve_out.
Proof. vm_compute. reflexivity. Qed.
Definition fault_out := Eval vm_compute in committed (Apply new_journal InitialAttemptState (fault CodeConfigurationInvalid) t0).
Lemma fault_step : Apply new_journal InitialAttemptState (fault CodeConfigurationInvalid) t0 = Ok fault_out.
Proof. vm_compute. reflexivity. Qed.

(** ** The dispatch theorems on the scenario *)
Lemma Apply_invariant_witness : Journal_Valid start_out.1.1 = true /\ jn_Version start_out.1.1 = jn_Version ready.1 + 1.
Proof.
  assert (is_int64 (jn_Version ready.1)) as Hi by (split; vm_compute; discriminate).
  destruct (Apply_invariant ready.1 ready.2 _ _ start_out.1.1 start_out.1.2 start_out.2 Hi start_step) as (H & _ & _ & _ & H' & _).
  split; [exact H|exact H'].
Defined.
Lemma Apply_frozen_witness : jn_SubmitStarted finish_out.1.1 = true.
Proof.
  refine (proj2 (proj2 (Apply_frozen running.1 running.2 _ _ finish_out.1.1 finish_out.1.2 finish_out.2 finish_step)) _).
  vm_compute. reflexivity.
Defined.
Lemma Apply_phase_witness : jn_Phase finish_out.1.1 ∈ phase_next (jn_Phase running.1) /\ jn_Phase finish_out.1.1 = Collectible.
Proof.
  split; [|vm_compute; reflexivity].
  exact (Apply_phase running.1 running.2 _ _ finish_out.1.1 finish_out.1.2 finish_out.2 finish_step).
Defined.
Lemma Apply_closed_witness : terminal_orch (as_Orchestration resolve_out.1.2).
Proof.
  refine (proj1 (Apply_closed lost.1 lost.2 _ _ resolve_out.1.1 resolve_out.1.2 resolve_out.2 resolve_step) _).
  apply (bool_decide_unpack _). vm_compute. exact I.
Defined.
Lemma Apply_rejected_witness : rejection_evidence lost.1 absent (t0 + 130 * Second) /\ as_RemoteActivity resolve_out.1.2 = RemoteActivityInactive.
Proof.
  assert (jn_Phase resolve_out.1.1 = Rejected) as Hp by (vm_compute; reflexivity).
  destruct (Apply_rejected lost.1 lost.2 _ _ resolve_out.1.1 resolve_out.1.2 resolve_out.2 resolve_step Hp) as (H & _ & _ & _ & H').
  split; [exact H|exact H'].
Defined.
(** A second observation that knows nothing leaves what the first one said. *)
Definition unclear : Action * Time := (observed ExecutionUnknown RemoteActivityUnknown (t0 + 50 * Second), t0 + 51 * Second).
Definition unclear_out := Eval vm_compute in committed (Apply running.1 running.2 unclear.1 unclear.2).
Lemma unclear_step : Apply running.1 running.2 unclear.1 unclear.2 = Ok unclear_out.
Proof. vm_compute. reflexivity. Qed.
Lemma Apply_observation_witness :
  (jn_Phase finish_out.1.1 = Collectible /\ as_Execution finish_out.1.2 = ExecutionSucceeded /\
   exists o, jn_Observation finish_out.1.1 = Some o /\ ob_RawState o = "succeeded") /\
  as_Execution unclear_out.1.2 = ExecutionRunning /\ as_RemoteActivity unclear_out.1.2 = as_RemoteActivity running.2 /\
  jn_Failures unclear_out.1.1 = 1.
Proof.
  split.
  - destruct (Apply_observation running.1 running.2 _ _ finish_out.1.1 finish_out.1.2 finish_out.2 finish_step eq_refl)
      as (obs & r & Ho & _ & _ & _ & _ & _ & _ & He). injection Ho as <-.
    destruct He as [(o & Hs & _ & _ & _ & _ & _ & Hr) _ Hk Hended _ _].
    split; [apply Hended; apply (bool_decide_unpack _); vm_compute; exact I|].
    split; [apply Hk; discriminate|]. exists o. split; [exact Hs|exact Hr].
  - destruct (Apply_observation running.1 running.2 _ _ unclear_out.1.1 unclear_out.1.2 unclear_out.2 unclear_step eq_refl)
      as (obs & r & Ho & _ & _ & _ & _ & _ & _ & He). injection Ho as <-.
    destruct He as [_ Hu _ _ _ _]. destruct (Hu eq_refl) as (H1 & H2 & _ & H4 & _).
    split; [exact H1|]. split; [exact H2|exact H4].
Defined.
Lemma Apply_begin_submission_witness :
  Apply ready.1 ready.2 (action BeginSubmission) (t0 + 2 * Second) =
    Ok (submitting ready.1 None,
        ready.2 <| as_Orchestration := OrchestrationDispatching |> <| as_Execution := ExecutionUnknown |>
          <| as_RemoteActivity := RemoteActivityPossible |>, EventSubmissionIntentRecorded).
Proof.
  assert (stored ready.1) as H1 by (vm_compute; reflexivity).
  assert (Journal_Valid ready.1 = true) as H2 by (vm_compute; reflexivity).
  assert (jn_Version ready.1 <> MaxInt64) as H3 by (vm_compute; discriminate).
  assert (as_Orchestration ready.2 <> OrchestrationQueued) as H4 by discriminate.
  refine (Apply_begin_submission ready.1 ready.2 (action BeginSubmission) (t0 + 2 * Second) H1 H2 eq_refl H3 eq_refl eq_refl H4 eq_refl _).
  intros auth [=].
Defined.
Lemma Apply_closed_text_witness : closed_journal new_journal /\ closed_journal fault_out.1.1.
Proof.
  assert (closed_journal new_journal) as H by (split; intros q [=]).
  split; [exact H|]. exact (Apply_closed_text _ _ _ _ fault_out.1.1 fault_out.1.2 fault_out.2 H fault_step).
Defined.
Lemma Apply_local_budget_witness :
  journalTime (journalDetail fault_out.1.1 localFailureDetail) = Some t0 /\ as_Orchestration fault_out.1.2 = OrchestrationQueued.
Proof.
  split; [|vm_compute; reflexivity].
  exact (proj1 (Apply_local_budget new_journal InitialAttemptState (fault CodeConfigurationInvalid) t0
    fault_out.1.1 fault_out.1.2 fault_out.2 eq_refl eq_refl fault_step)).
Defined.
Lemma run_one_start_witness : count_kind BeginSubmission (rev running_steps ++ []) = 1%nat /\
  (count_kind BeginPreparation (rev running_steps ++ []) <= 1)%nat.
Proof. split; [vm_compute; reflexivity|exact (proj1 (proj2 (run_one_start _ _ _ running_run)))]. Defined.
Lemma run_capacity_witness :
  HoldsAccount running.2 true = true /\ HoldsAccount ended.2 true = false /\ as_RemoteActivity ended.2 = RemoteActivityInactive.
Proof.
  assert (HoldsAccount ended.2 true = false) as H by (vm_compute; reflexivity).
  split; [vm_compute; reflexivity|]. split; [exact H|]. apply (run_capacity _ _ _ true ended_run); [vm_compute; lia|exact H].
Defined.
Lemma run_remote_provenance_witness : accepted_once (rev running_steps ++ []) sample_remote.
Proof. refine (proj1 (run_remote_provenance _ _ _ _ running_run _)). vm_compute. reflexivity. Defined.
Lemma run_rejected_witness : rejection_history (rev resolved_steps ++ []).
Proof. refine (run_rejected _ _ _ resolved_run _). vm_compute. reflexivity. Defined.
Lemma nextPassDelay_spec_witness : nextPassDelay (15 * Second) lost.1 = 60 * Second /\ 0 < nextPassDelay (15 * Second) lost.1.
Proof.
  split; [vm_compute; reflexivity|].
  refine (proj1 (proj1 (proj2 (proj2 (nextPassDelay_spec (15 * Second) lost.1 _ _)))));
    [split; vm_compute; discriminate|vm_compute; discriminate].
Defined.
