(* ===== verification/EngineScenario.v ===== *)
(** * Two dispatch sessions of one attempt

    The attempt of [Scenario] driven by the engine itself: the first session
    loads it ready, commits the start and starts it; the second, after a
    restart, finds it submitted and observes it. *)

From S2P Require Import Prelude Effects GoStrings GoTime GoSha256 GoJson Identifiers Problems DomainRecords AttemptStates AttemptRuns Attempts Operations Provider ProviderResources ProviderProps Admission ExecutionAuth SecretPool Scheduler Journal JournalLemmas Inputs Session Engine Apply ApplyLemmas ApplyProps DispatchRuns SessionProtocol EngineProps Scenario.
#[local] Open Scope string_scope.
#[local] Open Scope list_scope.
#[local] Open Scope Z_scope.
#[local] Open Scope bool_scope.

(** ** The work *)
Definition sample_claim : Claim :=
  mkClaim (mkSchedIdentity "workspace-1" "job-1" "attempt-1") 1 "worker-1" 1 sample_digest (t0 + Hour) 1 "account-1" "host-1" Eligible.
Definition sample_record (s : AttemptState) : JobRecord :=
  mkJobRecord (mkJob "job-1" "workspace-1" "sample" "v1" sample_digest (bs_Binding sample_binding) "attempt-1" t0)
    (mkAttempt "attempt-1" "job-1" 1 s 1 t0 t0) "nonce-0123456789" (mkRequest sample_spec sample_digest)
    (DefaultProfile (bs_Binding sample_binding) "account-1") [] None.
Definition sample_work (j : Journal) (s : AttemptState) : Work :=
  mkWork "installation-1" (mkHandle sample_claim (jn_Version j)) (sample_record s) j None None.
Definition engine_descriptor : Descriptor :=
  mkDescriptor "host" "host-1" "v1"
    (mkCapabilities true true true (boolSupport false) true false true (boolSupport false) true (boolSupport false) true false false false
       false true [] "" 3600).

(** ** The environment

    It answers as a healthy deployment does; commits go through [Apply]. *)
Definition commit_answer (s : AttemptState) (now : Time) (p : protocol) (a : Action) : result error Work :=
  match pt_journal p with
  | Some j => match Apply j s a now with
              | Ok (j', s', _) => Ok (sample_work j' s')
              | Err _ => Err (ENew dispatch_ErrConflict)
              end
  | None => Err (ENew dispatch_ErrConflict)
  end.
Section Environment.
Context (loaded : Journal * AttemptState) (later : AttemptState) (now : Time) (seen : Observation).
Definition environment (p : protocol) (X : Type) (e : call X) : option X :=
  match e in call X return option X with
  | Now => Some now
  | ParentErr | CtxErr | StopHeartbeat => Some None
  | CallDeadline _ => Some None
  | Renewed _ => Some None
  | LoadDispatch _ => Some (if Journal_Valid loaded.1 then Ok (sample_work loaded.1 loaded.2) else Err (ENew dispatch_ErrConflict))
  | CommitDispatch _ a => Some (commit_answer (if ac_Kind a ==? BeginSubmission then loaded.2 else later) now p a)
  | ResolveProvider _ => Some None
  | Describe => Some engine_descriptor
  | VerifyBinding _ => Some (Returned (Ok tt))
  | Start _ _ _ => Some (Returned (Ok (mkSubmissionOutcome SubmissionAccepted (Some sample_remote) None)))
  | Observe _ => Some (Returned (Ok seen))
  | YieldDispatch _ _ => Some None
  | _ => None
  end.
Lemma environment_honest s X (e : call X) x : environment s X e = Some x -> honest s X e x.
Proof.
  destruct e; cbn; try done.
  - intros [= <-]. by destruct (Journal_Valid loaded.1) eqn:E.
  - intros [= <-]. unfold commit_answer. destruct (pt_journal s) as [j|]; [|done].
    destruct (Apply j _ a now) as [[[j' s'] ev]|] eqn:E; [|done]. by do 6 eexists.
Qed.
End Environment.
Definition no_schema (v : json) : bool := true.
Definition session_events (env : protocol -> forall X, call X -> option X) : list event * option (option error) :=
  play protocol_step env (process no_schema DefaultConfig false sample_claim) protocol_start.

Definition finished_seen : Observation :=
  mkObservation sample_remote ExecutionSucceeded "raw" RemoteActivityInactive ReleaseEvidenceUnknown (t0 + 60 * Second).
Definition first_session := session_events (environment ready start_out.1.2 (t0 + 3 * Second) finished_seen).
Definition second_session := session_events (environment running running.2 (t0 + 61 * Second) finished_seen).

Lemma session_events_run env :
  (forall p X (e : call X) x, env p X e = Some x -> honest p X e x) ->
  session_run no_schema DefaultConfig false sample_claim (session_events env).1 (session_events env).2.
Proof. intros H. unfold session_run, session_events. exact (play_fair protocol_step honest env _ _ H). Qed.
Lemma first_run : session_run no_schema DefaultConfig false sample_claim first_session.1 first_session.2.
Proof. unfold first_session. exact (session_events_run _ (environment_honest _ _ _ _)). Qed.
Lemma second_run : session_run no_schema DefaultConfig false sample_claim second_session.1 second_session.2.
Proof. unfold second_session. exact (session_events_run _ (environment_honest _ _ _ _)). Qed.

(** ** The theorems on these sessions *)
Lemma process_protocol_witness :
  EngineConfig_Valid DefaultConfig = true /\ length first_session.1 = 7%nat /\ (first_session.1 = [] \/ ends_with_yield first_session.1).
Proof.
  assert (EngineConfig_Valid DefaultConfig = true) as Hc by reflexivity. split; [exact Hc|]. split; [vm_compute; reflexivity|].
  refine (proj2 (proj2 (process_protocol no_schema DefaultConfig false sample_claim _ _ Hc first_run)) None _). vm_compute. reflexivity.
Defined.
Lemma session_effects_witness :
  exists w l, first_session.1 = Loaded w :: l /\ jn_Phase (wk_Journal w) = Ready /\ count_if is_start l = 1%nat /\
    (count_if is_start l <= count_if (is_commit BeginSubmission) l)%nat.
Proof.
  exists (sample_work ready.1 ready.2), (tail first_session.1).
  assert (first_session.1 = Loaded (sample_work ready.1 ready.2) :: tail first_session.1) as E by (vm_compute; reflexivity).
  split; [exact E|]. split; [vm_compute; reflexivity|]. split; [vm_compute; reflexivity|].
  assert (session_run no_schema DefaultConfig false sample_claim
    (Loaded (sample_work ready.1 ready.2) :: tail first_session.1) first_session.2) as H by (rewrite <- E; exact first_run).
  exact (proj1 (proj2 (session_effects no_schema DefaultConfig false sample_claim _ _ _ eq_refl H))).
Defined.

Definition tagged (i : nat) (l : list event) : list (nat * event) := pair i <$> l.
Lemma session_of_tagged i k l : session_of i (tagged k l) = if decide (k = i) then l else [].
Proof.
  unfold session_of, tagged. induction l as [|e l IH]; [by case_decide|]. cbn [fmap list_fmap]. rewrite filter_cons. cbn [fst].
  destruct (decide (k = i)); [cbn [fmap list_fmap snd]; by rewrite IH|exact IH].
Qed.
Lemma session_of_app i h1 h2 : session_of i (h1 ++ h2) = session_of i h1 ++ session_of i h2.
Proof. unfold session_of. by rewrite filter_app, fmap_app. Qed.
Definition two_sessions : list (nat * event) := tagged 0 first_session.1 ++ tagged 1 second_session.1.
Lemma two_runs i : exists c r, session_run no_schema DefaultConfig false c (session_of i two_sessions) r.
Proof.
  exists sample_claim. unfold two_sessions. rewrite session_of_app, !session_of_tagged. destruct i as [|[|i]]; cbn [decide Nat.eq_dec].
  - exists first_session.2. rewrite app_nil_r. exact first_run.
  - exists second_session.2. exact second_run.
  - exists None. by left.
Qed.
Lemma attempt_calls_once_witness :
  count_if is_start two_sessions.*2 = 1%nat /\ (count_if is_start two_sessions.*2 <= 1)%nat.
Proof.
  split; [vm_compute; reflexivity|].
  assert (commit_kinds two_sessions ⊆+ kind_of <$> (rev (running_steps ++ [finished]) ++ [])) as Hk.
  { apply (bool_decide_unpack _). vm_compute. exact I. }
  exact (proj1 (attempt_calls_once no_schema DefaultConfig false two_sessions _ _ _ eq_refl two_runs ended_run Hk)).
Defined.
