(* ===== verification/StoreTx.v ===== *)
(** * Transactions of the store

    A repository method of the SQLite store runs a function inside one
    transaction with the store's own clock ([clock.go], [store.go]). An error
    of the function rolls everything back. The clock never runs backwards
    between committed transactions, whatever the wall clock does: the store
    keeps a floor in milliseconds, rounded up. Statements of a transaction are
    functions on tables; a constraint or trigger that aborts a statement is
    [store_ErrConflict], and a failing driver is a [write_end]. *)

From S2P Require Import Prelude GoStrings GoTime Identifiers Problems Scheduler.
#[local] Open Scope string_scope.
#[local] Open Scope list_scope.
#[local] Open Scope Z_scope.
#[local] Open Scope bool_scope.

Definition store_ErrUnavailable : error := ENew "state store unavailable".
Definition store_ErrCorrupt : error := ENew "state integrity check failed".
Definition store_ErrConflict : error := ENew "state record conflicts with an existing record".
Definition store_ErrInvalid : error := ENew "invalid state record or options".
Definition store_scheduler_ErrInvalid : error := ENew "invalid scheduler record or policy".

(** ** The transaction clock *)
Definition UnixMilli (t : Time) : Z := t / Millisecond.
Definition of_millis (ms : Z) : Time := ms * Millisecond.
Definition transaction_now (floor : Z) (wall : Time) : Time :=
  if Before wall (of_millis floor) then of_millis floor else wall.
Definition next_floor (now : Time) : Z :=
  if (now `mod` Second) `mod` Millisecond =? 0 then UnixMilli now else UnixMilli now + 1.

Record store (T : Type) := mkStore { so_clock_ms : Z; so_tables : T }.
Arguments mkStore {T} _ _.
Arguments so_clock_ms {T} _.
Arguments so_tables {T} _.

(** What a transaction does with the tables at its time. *)
Definition txn (T A : Type) : Type := Time -> T -> result error (A * T).

Definition write {T A} (wall : Time) (fn : txn T A) (s : store T) : result error (A * store T) :=
  throw negb (ValidTime wall) with store_scheduler_ErrInvalid ;;
  throw so_clock_ms s <? 0 with store_ErrCorrupt ;;
  let now := transaction_now (so_clock_ms s) wall in
  throw negb (ValidTime (of_millis (next_floor now))) with store_scheduler_ErrInvalid ;;
  do p <- fn now (so_tables s) ;;
  Ok (p.1, mkStore (next_floor now) p.2).

(** How the driver lets a transaction end: it commits; it fails before the
    commit; or the commit itself reports an error, and the transaction may
    have been kept or not. *)
Inductive write_end := Commits | Fails (e : error) | CommitUnknown (e : error) (kept : bool).

Definition transact {T A} (how : write_end) (wall : Time) (fn : txn T A) (s : store T) : result error A * store T :=
  match how with
  | Fails e => (Err e, s)
  | Commits => match write wall fn s with Ok (a, s') => (Ok a, s') | Err e => (Err e, s) end
  | CommitUnknown e kept => match write wall fn s with Ok (_, s') => (Err e, if kept then s' else s) | Err e' => (Err e', s) end
  end.

(** ** The clock does not run backwards *)
Lemma next_floor_above now : now <= of_millis (next_floor now) < now + Millisecond.
Proof.
  unfold next_floor, of_millis, UnixMilli, Millisecond, Second.
  destruct (_ =? 0) eqn:E; Z.to_euclidean_division_equations; lia.
Qed.
Lemma next_floor_mono a b : a <= b -> next_floor a <= next_floor b.
Proof.
  intros H. pose proof (next_floor_above a) as Ha. pose proof (next_floor_above b) as Hb. unfold of_millis, Millisecond in *. lia.
Qed.
Lemma transaction_now_above floor wall : of_millis floor <= transaction_now floor wall.
Proof. unfold transaction_now, Before. destruct (_ <? _) eqn:E; lia. Qed.

(** A millisecond bound is past at an instant exactly when it is past at the
    instant's millisecond, so conditions on stored milliseconds agree with
    the conditions on instants. *)
Lemma millis_past ms now : of_millis ms <= now <-> ms <= UnixMilli now.
Proof. unfold of_millis, UnixMilli, Millisecond. Z.to_euclidean_division_equations. lia. Qed.

Lemma write_Ok {T A} wall (fn : txn T A) s a s' :
  write wall fn s = Ok (a, s') ->
  exists now, now = transaction_now (so_clock_ms s) wall /\ ValidTime wall = true /\ 0 <= so_clock_ms s /\
    fn now (so_tables s) = Ok (a, so_tables s') /\ so_clock_ms s' = next_floor now /\ so_clock_ms s <= so_clock_ms s'.
Proof.
  unfold write. destruct (negb (ValidTime wall)) eqn:Hv; [done|]. destruct (so_clock_ms s <? 0) eqn:H0; [done|].
  case_match; [done|].
  set (now := transaction_now _ _). destruct (fn now (so_tables s)) as [[x t]|e] eqn:Hf; [|done]. cbn. intros [= <- <-].
  exists now. repeat split; cbn; try done.
  - by destruct (ValidTime wall).
  - lia.
  - pose proof (transaction_now_above (so_clock_ms s) wall). pose proof (next_floor_above now). subst now. unfold of_millis, Millisecond in *. lia.
Qed.

(** Every way a transaction can end, read backwards: the store is unchanged,
    or the function ran at the transaction's time and its tables were kept. *)
Lemma transact_inv {T A} how wall (fn : txn T A) s r s' :
  transact how wall fn s = (r, s') ->
  (s' = s /\ match r with Ok _ => False | Err _ => True end) \/
  exists a, write wall fn s = Ok (a, s') /\ match r with Ok b => b = a | Err _ => True end.
Proof.
  destruct how as [|e|e kept]; cbn.
  - destruct (write wall fn s) as [[a t]|e]; intros [= <- <-]; [right; by exists a|by left].
  - intros [= <- <-]. by left.
  - destruct (write wall fn s) as [[a t]|e']; [|intros [= <- <-]; by left]. destruct kept; intros [= <- <-]; [right; by exists a|by left].
Qed.
(** A caller that got an answer had its transaction committed. *)
Lemma transact_Ok {T A} how wall (fn : txn T A) s x s' : transact how wall fn s = (Ok x, s') -> exists now, fn now (so_tables s) = Ok (x, so_tables s').
Proof.
  intros H. destruct (transact_inv _ _ _ _ _ _ H) as [[_ []]|(y & Hw & ->)]. destruct (write_Ok _ _ _ _ _ Hw) as (now & _ & _ & _ & Hf & _). by exists now.
Qed.
