(* ===== verification/JobRetries.v ===== *)
(** * Retries of a job, in the store

    [internal/store/sqlite/operations_admission.go] and the statements that
    write an attempt ([admission.go], [operations_actions.go],
    [scheduler.go], [retention.go]): a job row with its active attempt, the
    attempts it has had, and the admission of an attempt that computes again.
    Checks on rows of other tables are answers. *)

From S2P Require Import Prelude GoStrings GoTime GoSha256 GoJson Canonical JsonWire Identifiers Problems AttemptStates AttemptRuns Attempts Operations DomainRecords Provider ProviderResources Admission ControlOps Services Scheduler Journal DispatchRuns StoreTx.
#[local] Open Scope string_scope.
#[local] Open Scope list_scope.
#[local] Open Scope Z_scope.
#[local] Open Scope bool_scope.

Definition ErrChanged : error := ENew "the target attempt changed".
Definition MaxUint32 : Z := 4294967295.
#[export] Instance Attempt_eq_dec : EqDecision Attempt.
Proof. solve_decision. Defined.
#[export] Instance ObjectMetadata_eq_dec : EqDecision ObjectMetadata.
Proof. solve_decision. Defined.
#[export] Instance FrozenObject_eq_dec : EqDecision FrozenObject.
Proof. solve_decision. Defined.

(** ** Rows

    An attempt with its queue item's barrier and the row of its journal, if
    there is one; a job with its attempts in the order they were inserted. *)
Record AttemptRow := mkAttemptRow { ar_Attempt : Attempt; ar_Barrier : bool; ar_Journal : option Journal }.
Record JobRow := mkJobRow {
  jb_WorkspaceID : string; jb_ID : string; jb_ActiveAttemptID : string; jb_Attempts : list AttemptRow }.
Definition row_id (row : AttemptRow) : string := at_ID (ar_Attempt row).

(** What the transaction finds elsewhere: in the record of the job (its
    request, its profile, its objects), whether the attempt was retired, who
    owns the profile, the frozen plan and the ledger, the retained inputs, the
    receipts, the pending operations and the deadline, the limits, the pins
    and the storage of the new attempt; and the identifier drawn for it. An
    earlier receipt and a pending operation end the transaction without a new
    attempt: they refuse. *)
Record retry_answers := mkRetryAnswers {
  rn_record : option error; rn_before : option error; rn_actionable : option error; rn_pending : option error; rn_profile : option error;
  rn_work : option error; rn_inputs : result error (list FrozenObject); rn_limit : option error;
  rn_operation : option error; rn_id : string; rn_insert : option error; rn_pins : option error; rn_saved : option error }.

Definition fail_if {A} (e : option error) (k : result error A) : result error A := match e with Some err => Err err | None => k end.

Definition loadAttempt (job : JobRow) (id : string) : result error AttemptRow :=
  match List.find (fun row => row_id row ==? id) (jb_Attempts job) with
  | None => Err admission_ErrNotFound
  | Some row => throw not_nil (Attempt_Validate (ar_Attempt row)) with store_ErrCorrupt ;; Ok row
  end.
(** [readJobRecord] reads the active attempt; another one is loaded after it. *)
Definition controlTarget (e : retry_answers) (job : JobRow) (attempt : string) : result error AttemptRow :=
  do row <- loadAttempt job (jb_ActiveAttemptID job) ;;
  fail_if (rn_record e) (if row_id row <>? attempt then loadAttempt job attempt else Ok row).
(** The journal of the target; [rn_work] is what the installation, the frozen
    plan and the ledger answer. *)
Definition controlWork (e : retry_answers) (row : AttemptRow) : result error Journal :=
  match loadJournal (ar_Journal row) with
  | None => Err store_ErrCorrupt
  | Some j =>
      fail_if (rn_work e)
        (if not_nil (jn_Plan j) then throw negb (ar_Barrier row) with store_ErrCorrupt ;; Ok j
         else throw ar_Barrier row && (jn_Phase j <>? Failed) && (jn_Phase j <>? Prevented) with ErrUnresolved ;; Ok j)
  end.
Definition retryInputs (e : retry_answers) (job : JobRow) (attempt : string) : result error RetryInputs :=
  do row <- controlTarget e job attempt ;;
  throw jb_ActiveAttemptID job <>? attempt with ErrChanged ;;
  fail_if (rn_profile e) (
  let state := at_State (ar_Attempt row) in
  fail_if (RetryAllowed state) (
  do j <- controlWork e row ;;
  throw if jn_SubmitStarted j then
          if as_Execution state ==? ExecutionNotSubmitted then jn_Phase j <>? Rejected
          else match jn_Remote j, jn_Observation j with
               | Some _, Some o => negb (ExecutionState_Terminal (ob_Execution o)) || (ob_Execution o <>? as_Execution state)
               | _, _ => true
               end
        else as_Execution state <>? ExecutionNotSubmitted
    with ErrUnresolved ;;
  do objects <- rn_inputs e ;;
  Ok (mkRetryInputs (ar_Attempt row) objects))).

(** The new attempt, its row and the active attempt of the job. The rows of
    a job have distinct identifiers and distinct numbers. *)
Definition createRetry (e : retry_answers) (job : JobRow) (target : Attempt) (now : Time) : result error JobRow :=
  throw (jb_ActiveAttemptID job <>? at_ID target) || (at_Number target =? MaxUint32) with ErrChanged ;;
  match NewAttempt (rn_id e) (jb_ID job) (at_Number target + 1) now with
  | Err _ => Err store_ErrInvalid
  | Ok a =>
      throw existsb (fun row => (row_id row ==? at_ID a) || (at_Number (ar_Attempt row) =? at_Number a)) (jb_Attempts job)
        with store_ErrConflict ;;
      fail_if (rn_insert e) (
      fail_if (rn_pins e) (
      throw jb_ActiveAttemptID job <>? at_ID target with ErrChanged ;;
      fail_if (rn_saved e) (
      Ok (mkJobRow (jb_WorkspaceID job) (jb_ID job) (at_ID a) (jb_Attempts job ++ [mkAttemptRow a false None])))))
  end.
(** [AdmitOperation] for a command that asks to compute again. *)
Definition admit_retry (e : retry_answers) (job : JobRow) (c : ControlCommand) (now : Time) : result error JobRow :=
  throw not_nil (ControlCommand_Validate c) || (cc_Kind c <>? OperationRetryCompute) with control_ErrRequest ;;
  fail_if (rn_before e) (
  throw (cc_WorkspaceID c <>? jb_WorkspaceID job) || (cc_JobID c <>? jb_ID job) with admission_ErrNotFound ;;
  do target <- controlTarget e job (cq_AttemptID (cc_Request c)) ;;
  fail_if (rn_actionable e) (
  throw Before now (at_UpdatedAt (ar_Attempt target)) with store_ErrCorrupt ;;
  fail_if (rn_pending e) (
  do proof <- retryInputs e job (cq_AttemptID (cc_Request c)) ;;
  match cc_Inputs c with
  | None => Err control_ErrRequest
  | Some inputs =>
      throw (ri_Attempt inputs <>? ri_Attempt proof) || negb (length (ri_Objects inputs) =? length (ri_Objects proof))%nat with ErrChanged ;;
      throw ri_Objects inputs <>? ri_Objects proof with ErrInputs ;;
      fail_if (rn_limit e) (fail_if (rn_operation e) (createRetry e job (ar_Attempt target) now))
  end))).

(** ** Other changes

    Every other statement that writes an attempt loads it, asks
    [Attempt.Transition] for the next one and replaces the row it loaded; the
    dispatch journal may change with it in any way. *)
Definition attempt_transition_row (a : Attempt) (next : AttemptState) (now : Time) : result error Attempt :=
  match Attempt_Transition a next now with
  | Err _ => Err store_ErrInvalid
  | Ok a' => throw MaxInt64 <? at_Revision a' with store_ErrInvalid ;; Ok a'
  end.
Definition update_attempt (job : JobRow) (id : string) (next : AttemptState) (now : Time) (barrier : bool) (journal : option Journal)
    : result error JobRow :=
  do row <- loadAttempt job id ;;
  do a <- attempt_transition_row (ar_Attempt row) next now ;;
  Ok (mkJobRow (jb_WorkspaceID job) (jb_ID job) (jb_ActiveAttemptID job)
        (map (fun r => if row_id r ==? id then mkAttemptRow a barrier journal else r) (jb_Attempts job))).
(** The admission of a job inserts it with its first attempt. *)
Definition admit_job_row (w job attempt : string) (now : Time) : result error JobRow :=
  match NewAttempt attempt job 1 now with
  | Err _ => Err store_ErrInvalid
  | Ok a => Ok (mkJobRow w job attempt [mkAttemptRow a false None])
  end.

Inductive job_step (job job' : JobRow) : Prop :=
  | step_update id next now barrier journal : update_attempt job id next now barrier journal = Ok job' -> job_step job job'
  | step_retry e c now : admit_retry e job c now = Ok job' -> job_step job job'.
Abbreviation job_run := (rtc job_step).

(** ** What holds of every job

    The attempts are numbered from one, the active one is the last, and the
    ones before it are over. *)
Definition over (s : AttemptState) : Prop := consistent s /\ terminal_orch (as_Orchestration s).
Record job_ok (job : JobRow) : Prop := {
  jk_ids : NoDup (map row_id (jb_Attempts job));
  jk_numbers k row : jb_Attempts job !! k = Some row -> at_Number (ar_Attempt row) = Z.of_nat k + 1;
  jk_active : exists earlier active, jb_Attempts job = earlier ++ [active] /\ row_id active = jb_ActiveAttemptID job /\
    Forall (fun row => over (at_State (ar_Attempt row))) earlier }.

Lemma over_inactive s : over s -> as_RemoteActivity s ∈ [RemoteActivityNotStarted; RemoteActivityInactive].
Proof. intros [Hc Ht]. pose proof (cs_terminal _ Hc Ht) as H. list_mem. tauto. Qed.
Lemma over_step s s' : over s -> attempt_step s s' -> over s'.
Proof.
  intros [Hc Ht] Hs. split; [by apply transition_spec in Hs as []|].
  pose proof (run_terminal_orchestration s s' (rtc_once _ _ Hs) Ht) as E. unfold terminal_orch. by rewrite E.
Qed.
Lemma RetryAllowed_over s : RetryAllowed s = None -> over s /\ as_Execution s <> ExecutionSucceeded.
Proof.
  unfold RetryAllowed. intros H. split_guards H. bool_to_prop. destruct (AttemptState_Validate s) eqn:Ev; [done|].
  split; [split; [by apply Validate_spec|done]|done].
Qed.

Lemma loadAttempt_Ok job id row : loadAttempt job id = Ok row -> row ∈ jb_Attempts job /\ row_id row = id.
Proof.
  unfold loadAttempt. destruct (List.find _ _) as [r|] eqn:E; [|done]. destruct (not_nil _); [done|]. intros [= <-].
  apply List.find_some in E as [Hi E]. split; [by apply list_elem_of_In|by apply bool_decide_eq_true_1 in E].
Qed.
Lemma row_unique job r1 r2 : NoDup (map row_id (jb_Attempts job)) -> r1 ∈ jb_Attempts job -> r2 ∈ jb_Attempts job -> row_id r1 = row_id r2 -> r1 = r2.
Proof.
  intros Hn [i H1]%list_elem_of_lookup [k H2]%list_elem_of_lookup E. assert (i = k) as ->; [|congruence].
  eapply (NoDup_lookup _ i k (row_id r1) Hn); rewrite list_lookup_fmap; [by rewrite H1|rewrite H2; by rewrite E].
Qed.

(** *** Changes of an attempt *)
Lemma transition_row_spec a next now a' :
  attempt_transition_row a next now = Ok a' -> at_ID a' = at_ID a /\ at_Number a' = at_Number a /\ attempt_step (at_State a) (at_State a').
Proof.
  unfold attempt_transition_row. destruct (Attempt_Transition a next now) as [b|] eqn:E; [|done]. destruct (_ <? _); [done|]. intros [= ->].
  apply Attempt_Transition_spec in E as (_ & Hl%transition_spec & [[-> Hn]|(_ & _ & _ & _ & ->)]); [rewrite Hn in Hl|]; done.
Qed.
Lemma update_ok job id next now barrier journal job' :
  update_attempt job id next now barrier journal = Ok job' -> job_ok job -> job_ok job'.
Proof.
  unfold update_attempt. destruct (loadAttempt job id) as [row|] eqn:EL; [|done]. cbn [result_bind].
  destruct (attempt_transition_row _ _ _) as [a|] eqn:ET; [|done]. cbn [result_bind]. intros [= <-] [Hn Hnum (earlier & active & Hrows & Ha & Hov)].
  apply loadAttempt_Ok in EL as [Hin Hid]. apply transition_row_spec in ET as (Ei & En & Hs).
  set (f := fun r => if row_id r ==? id then mkAttemptRow a barrier journal else r).
  assert (forall r, row_id (f r) = row_id r) as Hf.
  { intros r. unfold f. case_bool_decide; [|done]. unfold row_id in *. cbn. congruence. }
  assert (forall r, r ∈ jb_Attempts job -> f r = r \/ r = row /\ f r = mkAttemptRow a barrier journal) as Hc.
  { intros r Hr. unfold f. case_bool_decide as E; [|by left]. right. split; [|done]. apply (row_unique job); try done. congruence. }
  assert (map row_id (map f (jb_Attempts job)) = map row_id (jb_Attempts job)) as Em by (rewrite map_map; by apply map_ext).
  split; cbn [jb_Attempts jb_ActiveAttemptID].
  - by rewrite Em.
  - intros k r. rewrite list_lookup_fmap. intros (r0 & Hk & ->)%fmap_Some.
    destruct (Hc r0) as [-> |[-> ->]]; [by eapply list_elem_of_lookup_2|by eapply Hnum|]. cbn. rewrite En. by eapply Hnum.
  - exists (map f earlier), (f active). split_and!; [by rewrite Hrows, map_app|by rewrite Hf|].
    apply Forall_map. rewrite Forall_forall in Hov |- *. intros r Hr. specialize (Hov r Hr).
    destruct (Hc r) as [-> |[-> ->]]; [rewrite Hrows; by apply elem_of_app; left|done|]. by eapply over_step.
Qed.

(** *** Retries *)
Lemma fail_if_Ok {A} (e : option error) (k : result error A) x : fail_if e k = Ok x -> e = None /\ k = Ok x.
Proof. by destruct e. Qed.
(** What the journal of a retried attempt says: nothing was started, or the
    provider refused it, or it was seen to end the way the state says. *)
Definition journal_settled (row : AttemptRow) : Prop :=
  exists j, loadJournal (ar_Journal row) = Some j /\
    (jn_SubmitStarted j = false /\ as_Execution (at_State (ar_Attempt row)) = ExecutionNotSubmitted \/
     jn_SubmitStarted j = true /\ jn_Phase j = Rejected /\ as_Execution (at_State (ar_Attempt row)) = ExecutionNotSubmitted \/
     jn_SubmitStarted j = true /\ exists r o, jn_Remote j = Some r /\ jn_Observation j = Some o /\ terminal_exec (ob_Execution o) /\
       ob_Execution o = as_Execution (at_State (ar_Attempt row))).
Lemma retryInputs_Ok e job attempt inputs :
  retryInputs e job attempt = Ok inputs ->
  exists row, row ∈ jb_Attempts job /\ row_id row = jb_ActiveAttemptID job /\ attempt = jb_ActiveAttemptID job /\
    ri_Attempt inputs = ar_Attempt row /\ RetryAllowed (at_State (ar_Attempt row)) = None /\ journal_settled row.
Proof.
  unfold retryInputs, controlTarget. destruct (loadAttempt job (jb_ActiveAttemptID job)) as [row|] eqn:EL; [|done]. cbn [result_bind].
  destruct (rn_record e); [done|]. cbn [fail_if]. apply loadAttempt_Ok in EL as [Hin Hid].
  destruct (row_id row <>? attempt) eqn:Ea.
  { destruct (loadAttempt job attempt) as [r|]; [|done]. cbn [result_bind]. rewrite <- Hid. rewrite Ea. done. }
  cbn [result_bind]. bool_to_prop. destruct (_ <>? _); [done|]. intros [_ [HR H]%fail_if_Ok]%fail_if_Ok.
  unfold controlWork in H. destruct (loadJournal (ar_Journal row)) as [j|] eqn:EJ; [|done].
  exists row.
  destruct (fail_if (rn_work e) _) as [j0|] eqn:EW; [|done]. cbn [result_bind] in H.
  apply fail_if_Ok in EW as [_ EW]. assert (j0 = j) as ->.
  { destruct (not_nil (jn_Plan j)); [destruct (negb _)|destruct (_ && _ && _)]; try done; by injection EW. }
  destruct (if jn_SubmitStarted j then _ else _) eqn:EG in H; [done|]. destruct (rn_inputs e) as [objects|]; [|done].
  injection H as <-. split_and!; try done; [congruence|]. exists j. split; [done|].
  destruct (jn_SubmitStarted j); [right|left; split; [done|by bool_to_prop]].
  destruct (as_Execution (at_State (ar_Attempt row)) ==? ExecutionNotSubmitted) eqn:Ex; [left; by bool_to_prop|right; split; [done|]].
  destruct (jn_Remote j) as [r|]; [|done]. destruct (jn_Observation j) as [o|]; [|done]. bool_to_prop.
  exists r, o. split_and!; done.
Qed.
Lemma createRetry_Ok e job target now job' :
  createRetry e job target now = Ok job' ->
  exists a, jb_Attempts job' = jb_Attempts job ++ [mkAttemptRow a false None] /\ jb_ActiveAttemptID job' = at_ID a /\
    at_State a = InitialAttemptState /\ at_Number a = at_Number target + 1 /\ jb_ActiveAttemptID job = at_ID target /\
    at_ID a ∉ map row_id (jb_Attempts job).
Proof.
  unfold createRetry. destruct (_ || _) eqn:E1; [done|]. destruct (NewAttempt _ _ _ _) as [a|] eqn:EN; [|done].
  destruct (existsb _ _) eqn:EX; [done|]. intros [_ [_ H]%fail_if_Ok]%fail_if_Ok. bool_to_prop.
  destruct (_ <>? _); [done|]. apply fail_if_Ok in H as [_ [= <-]]. exists a. unfold NewAttempt in EN.
  destruct (Attempt_Validate _); [done|]. injection EN as <-. split_and!; try done.
  intros (row & E & Hr)%list_elem_of_fmap. assert (existsb (fun r => (row_id r ==? rn_id e) || (at_Number (ar_Attempt r) =? at_Number target + 1))
    (jb_Attempts job) = true) as EX'; [|cbn in EX; congruence].
  apply existsb_exists. exists row. split; [by apply list_elem_of_In|]. cbn in E. by rewrite bool_decide_eq_true_2.
Qed.

Lemma admit_retry_Ok e job c now job' :
  job_ok job -> admit_retry e job c now = Ok job' ->
  exists earlier active a, jb_Attempts job = earlier ++ [active] /\ row_id active = jb_ActiveAttemptID job /\
    RetryAllowed (at_State (ar_Attempt active)) = None /\ journal_settled active /\
    jb_Attempts job' = jb_Attempts job ++ [mkAttemptRow a false None] /\ jb_ActiveAttemptID job' = at_ID a /\
    at_State a = InitialAttemptState /\ at_Number a = at_Number (ar_Attempt active) + 1 /\ at_ID a ∉ map row_id (jb_Attempts job).
Proof.
  intros [Hn _ (earlier & active & Hrows & Ha & _)]. unfold admit_retry. destruct (_ || _); [done|]. intros [_ H]%fail_if_Ok.
  destruct (_ || _) in H; [done|]. destruct (controlTarget _ _ _) as [target|] eqn:ET in H; [|done]. cbn [result_bind] in H.
  apply fail_if_Ok in H as [_ H]. destruct (Before _ _) in H; [done|]. apply fail_if_Ok in H as [_ H].
  destruct (retryInputs _ _ _) as [proof|] eqn:EP in H; [|done]. cbn [result_bind] in H.
  destruct (cc_Inputs c) as [inputs|]; [|done]. destruct (_ || _) in H; [done|]. destruct (_ <>? _) in H; [done|].
  apply fail_if_Ok in H as [_ [_ H]%fail_if_Ok].
  apply retryInputs_Ok in EP as (row & Hin & Hid & Eatt & _ & HR & HJ).
  assert (row = active) as ->. { apply (row_unique job); try done; [rewrite Hrows; by apply elem_of_app; right; left|congruence]. }
  assert (target = active) as ->.
  { unfold controlTarget in ET. destruct (loadAttempt _ _) as [r|] eqn:EL in ET; [|done]. cbn [result_bind] in ET.
    apply fail_if_Ok in ET as [_ ET]. apply loadAttempt_Ok in EL as [Hr Er]. rewrite Er, <- Eatt, bool_decide_eq_true_2 in ET by done.
    cbn [negb] in ET. injection ET as <-. apply (row_unique job); try done. congruence. }
  apply createRetry_Ok in H as (a & E1 & E2 & E3 & E4 & _ & E6). exists earlier, active, a. split_and!; done.
Qed.
Lemma retry_ok e job c now job' : admit_retry e job c now = Ok job' -> job_ok job -> job_ok job'.
Proof.
  intros H Hok. destruct (admit_retry_Ok _ _ _ _ _ Hok H) as (earlier & active & a & Hrows & Ha & HR & _ & E1 & E2 & E3 & E4 & E5).
  destruct Hok as [Hn Hnum (earlier' & active' & Hrows' & _ & Hov)].
  rewrite Hrows in Hrows'. apply app_inj_tail in Hrows' as [<- <-]. apply RetryAllowed_over in HR as [HR _]. split.
  - rewrite E1, map_app. apply NoDup_app. split_and!; [done| |by apply NoDup_singleton]. intros x Hx Hy. cbn in Hy. list_mem.
    destruct Hy as [-> |[]]. done.
  - intros k row. rewrite E1, lookup_app_Some. intros [?|[Hk Hrow]]; [by apply Hnum|].
    apply list_lookup_singleton_Some in Hrow as [Hk0 <-]. cbn. rewrite E4.
    pose proof (Hnum (length earlier) active) as Hl. rewrite Hrows, lookup_app_r, Nat.sub_diag in Hl by lia. rewrite (Hl eq_refl).
    rewrite Hrows, length_app in *. cbn in *. lia.
  - exists (jb_Attempts job), (mkAttemptRow a false None). rewrite E1, E2. split_and!; [done|done|].
    rewrite Hrows. apply Forall_app. split; [done|]. by constructor.
Qed.
Lemma admitted_ok w id attempt now job : admit_job_row w id attempt now = Ok job -> job_ok job.
Proof.
  unfold admit_job_row, NewAttempt. destruct (Attempt_Validate _); [done|]. intros [= <-]. split; cbn.
  - apply NoDup_singleton.
  - intros k row [-> <-]%list_lookup_singleton_Some. done.
  - exists [], (mkAttemptRow (mkAttempt attempt id 1 InitialAttemptState 1 now now) false None). split_and!; try done.
Qed.
Lemma job_run_ok job job' : job_run job job' -> job_ok job -> job_ok job'.
Proof. induction 1 as [|a b c [id next now barrier journal H|e cm now H] _ IH]; [done|intros; by eapply IH, update_ok|intros; by eapply IH, retry_ok]. Qed.

(** ** Theorem *)

(** C18: at most one attempt of a job can have remote work, whatever is done
    with the job. Along every sequence of store transactions on a job, from
    its admission on, retries of any attempt and changes of any attempt
    (its journal may become anything) interleaved in any order, the attempts
    are numbered from one, the active attempt is the last one, every earlier
    one is final and its remote activity is not started or inactive, and no
    two attempts have remote activity that is unknown, possible or active. A
    retry that is admitted adds one attempt in the initial state with the
    next number and makes it the active one; the attempt it follows was
    final, had not succeeded, and its journal says that nothing was
    submitted, that the provider refused it, or that it was seen to end. *)
Theorem retry_settled w id attempt now0 job0 job :
  admit_job_row w id attempt now0 = Ok job0 -> job_run job0 job ->
  exists earlier active, jb_Attempts job = earlier ++ [active] /\ row_id active = jb_ActiveAttemptID job /\
    (forall k row, jb_Attempts job !! k = Some row -> at_Number (ar_Attempt row) = Z.of_nat k + 1) /\
    (forall row, row ∈ earlier -> let s := at_State (ar_Attempt row) in
       as_Orchestration s ∈ [OrchestrationSucceeded; OrchestrationFailed; OrchestrationCancelled; OrchestrationTimedOut] /\
       as_RemoteActivity s ∈ [RemoteActivityNotStarted; RemoteActivityInactive]) /\
    (forall r1 r2, r1 ∈ jb_Attempts job -> r2 ∈ jb_Attempts job ->
       as_RemoteActivity (at_State (ar_Attempt r1)) ∉ [RemoteActivityNotStarted; RemoteActivityInactive] ->
       as_RemoteActivity (at_State (ar_Attempt r2)) ∉ [RemoteActivityNotStarted; RemoteActivityInactive] -> r1 = r2) /\
    (forall e c now job', admit_retry e job c now = Ok job' ->
       terminal_orch (as_Orchestration (at_State (ar_Attempt active))) /\
       as_Execution (at_State (ar_Attempt active)) <> ExecutionSucceeded /\ journal_settled active /\
       exists new, jb_Attempts job' = jb_Attempts job ++ [new] /\ jb_ActiveAttemptID job' = row_id new /\
         at_State (ar_Attempt new) = InitialAttemptState /\ at_Number (ar_Attempt new) = at_Number (ar_Attempt active) + 1).
Proof.
  intros H0 Hr. pose proof (job_run_ok _ _ Hr (admitted_ok _ _ _ _ _ H0)) as Hok.
  pose proof Hok as [_ Hnum (earlier & active & Hrows & Ha & Hov)]. exists earlier, active. rewrite Forall_forall in Hov.
  assert (forall r, r ∈ jb_Attempts job -> as_RemoteActivity (at_State (ar_Attempt r)) ∉ [RemoteActivityNotStarted; RemoteActivityInactive] ->
    r = active) as Hone.
  { intros r. rewrite Hrows, elem_of_app, list_elem_of_singleton. intros [Hin| ->] Hw; [|done]. by destruct (Hw (over_inactive _ (Hov r Hin))). }
  split_and!; try done.
  - intros row Hin s. split; [|by apply over_inactive, Hov]. destruct (Hov row Hin) as [_ Ht]. unfold terminal_orch in Ht.
    list_mem. fold s in Ht. destruct (as_Orchestration s); cbn in Ht; tauto || done.
  - intros r1 r2 H1 H2 W1 W2. by rewrite (Hone r1 H1 W1), (Hone r2 H2 W2).
  - intros e c now job' HA. destruct (admit_retry_Ok _ _ _ _ _ Hok HA) as (earlier' & active' & a & Hrows' & _ & HR & HJ & E1 & E2 & E3 & E4 & _).
    rewrite Hrows in Hrows'. apply app_inj_tail in Hrows' as [<- <-]. apply RetryAllowed_over in HR as [[_ Ht] He].
    split_and!; try done. exists (mkAttemptRow a false None). split_and!; done.
Qed.

(** ** A job that is retried

    The first attempt is prepared and fails, a second one is admitted,
    dispatched and accepted by the provider. *)
Definition retry_t0 : Time := 1700000000 * Second.
Definition retry_state (o : OrchestrationState) : AttemptState := InitialAttemptState <| as_Orchestration := o |>.
Definition accepted_state : AttemptState :=
  mkAttemptState OrchestrationSubmitted ExecutionQueued ResultNotAvailable CancellationNotRequested RemoteActivityActive ReleaseEvidenceUnknown false.
Definition job_of (r : result error JobRow) : JobRow := match r with Ok job => job | Err _ => mkJobRow "" "" "" [] end.
Definition job_admitted : JobRow := Eval vm_compute in job_of (admit_job_row "workspace-1" "job-1" "attempt-1" retry_t0).
Definition job_preparing : JobRow := Eval vm_compute in
  job_of (update_attempt job_admitted "attempt-1" (retry_state OrchestrationPreparing) (retry_t0 + Second) false None).
Definition job_failed : JobRow := Eval vm_compute in
  job_of (update_attempt job_preparing "attempt-1" (retry_state OrchestrationFailed) (retry_t0 + 2 * Second) false None).
Definition retry_request : ControlRequest := mkControlRequest "attempt-1" "Staging was unavailable." false "" "".
Definition retry_command : ControlCommand := Eval vm_compute in
  mkControlCommand "workspace-1" "token-1" "job-1" OperationRetryCompute retry_request (sha256_hex "key")
    (match control_Digest retry_request "job-1" OperationRetryCompute with Ok d => d | Err _ => "" end)
    (head (map (fun row => mkRetryInputs (ar_Attempt row) []) (jb_Attempts job_failed))) DefaultLimits.
Definition retry_clear : retry_answers := mkRetryAnswers None None None None None None (Ok []) None None "attempt-2" None None None.
Definition job_retried : JobRow := Eval vm_compute in
  job_of (admit_retry retry_clear job_failed retry_command (retry_t0 + 3 * Second)).
Definition job_prepared_again : JobRow := Eval vm_compute in
  job_of (update_attempt job_retried "attempt-2" (retry_state OrchestrationPreparing) (retry_t0 + 4 * Second) false None).
Definition job_dispatched_again : JobRow := Eval vm_compute in
  job_of (update_attempt job_prepared_again "attempt-2" (retry_state OrchestrationDispatching) (retry_t0 + 5 * Second) true None).
Definition job_accepted_again : JobRow := Eval vm_compute in
  job_of (update_attempt job_dispatched_again "attempt-2" accepted_state (retry_t0 + 6 * Second) true None).
Lemma retry_step_admitted : admit_retry retry_clear job_failed retry_command (retry_t0 + 3 * Second) = Ok job_retried.
Proof. vm_compute. reflexivity. Qed.
Lemma failed_run : job_run job_admitted job_failed.
Proof.
  apply (rtc_l _ _ job_preparing); [|apply rtc_once];
    [apply (step_update _ _ "attempt-1" (retry_state OrchestrationPreparing) (retry_t0 + Second) false None)
    |apply (step_update _ _ "attempt-1" (retry_state OrchestrationFailed) (retry_t0 + 2 * Second) false None)]; vm_compute; reflexivity.
Qed.
Lemma accepted_run : job_run job_admitted job_accepted_again.
Proof.
  etrans; [exact failed_run|].
  apply (rtc_l _ _ job_retried); [by eapply step_retry, retry_step_admitted|].
  apply (rtc_l _ _ job_prepared_again); [|apply (rtc_l _ _ job_dispatched_again); [|apply rtc_once]];
    [apply (step_update _ _ "attempt-2" (retry_state OrchestrationPreparing) (retry_t0 + 4 * Second) false None)
    |apply (step_update _ _ "attempt-2" (retry_state OrchestrationDispatching) (retry_t0 + 5 * Second) true None)
    |apply (step_update _ _ "attempt-2" accepted_state (retry_t0 + 6 * Second) true None)]; vm_compute; reflexivity.
Qed.
Lemma retry_settled_witness :
  (exists earlier active, jb_Attempts job_accepted_again = earlier ++ [active] /\ row_id active = "attempt-2" /\ length earlier = 1%nat /\
     as_RemoteActivity (at_State (ar_Attempt active)) = RemoteActivityActive /\
     forall row, row ∈ earlier -> as_RemoteActivity (at_State (ar_Attempt row)) ∈ [RemoteActivityNotStarted; RemoteActivityInactive]) /\
  exists active, row_id active = "attempt-1" /\ journal_settled active.
Proof.
  assert (admit_job_row "workspace-1" "job-1" "attempt-1" retry_t0 = Ok job_admitted) as H0 by (vm_compute; reflexivity). split.
  - destruct (retry_settled _ _ _ _ _ _ H0 accepted_run) as (earlier & active & E & Ea & _ & He & _).
    exists earlier, active. split; [exact E|]. split; [exact Ea|].
    assert (length (jb_Attempts job_accepted_again) = 2%nat) as El by (vm_compute; reflexivity). rewrite E, length_app in El. cbn in El.
    split; [lia|]. split; [|intros row Hr; exact (proj2 (He row Hr))].
    assert (last (jb_Attempts job_accepted_again) = Some active) as HL by (rewrite E; apply last_snoc).
    vm_compute in HL. injection HL as <-. reflexivity.
  - destruct (retry_settled _ _ _ _ _ _ H0 failed_run) as (earlier & active & _ & Ea & _ & _ & _ & HR).
    exists active. split; [exact Ea|]. destruct (HR _ _ _ _ retry_step_admitted) as (_ & _ & HJ & _). exact HJ.
Defined.
