(* ===== verification/WorkLeases.v ===== *)
(** * Work leases

    [store/sqlite/work_lease.go] with its table ([0026_work_leases.sql]): the
    exclusive, expiring and fenced ownership of one attempt, collection or
    cleanup by one worker. The table keeps released and expired rows, so that
    generations only grow. Checks, triggers and keys of the table are part of
    the statements; whether rows of other tables a lease refers to exist is
    the parameter [refs]. *)

From S2P Require Import Prelude GoStrings GoTime Identifiers Problems GoJson Scheduler Collection Cleanup Session StoreTx.
#[local] Open Scope string_scope.
#[local] Open Scope list_scope.
#[local] Open Scope Z_scope.
#[local] Open Scope bool_scope.

Inductive workKind := dispatchWork | collectionWorkKind | cleanupWork.
#[export] Instance workKind_eq_dec : EqDecision workKind.
Proof. solve_decision. Defined.
#[export] Instance workKind_countable : Countable workKind.
Proof.
  refine (inj_countable' (fun k => match k with dispatchWork => 0 | collectionWorkKind => 1 | cleanupWork => 2 end)
    (fun n => if n =? 0 then dispatchWork else if n =? 1 then collectionWorkKind else cleanupWork) _).
  by intros [].
Defined.

Record workLease := mkWorkLease {
  wl_kind : workKind; wl_key : string; wl_owner : string; wl_fence : string; wl_generation : Z; wl_until : Time;
  wl_operationID : option string; wl_attemptRevision : option Z }.

(** A row of the table without its key. *)
Record lease_row := mkLeaseRow {
  lr_generation : Z; lr_owner : string; lr_fence : string; lr_until_ms : Z; lr_held : bool;
  lr_operation_id : option string; lr_attempt_revision : option Z }.
#[export] Instance lease_row_eq_dec : EqDecision lease_row.
Proof. solve_decision. Defined.
Abbreviation leases := (gmap (workKind * string) lease_row).

Definition workKey (parts : list json) : string := Marshal (JArr parts).

Definition lease_lost (kind : workKind) : error :=
  match kind with
  | collectionWorkKind => ENew collection_ErrLeaseLost_text
  | cleanupWork => ENew cleanup_ErrLeaseLost_text
  | dispatchWork => ENew scheduler_ErrLeaseLost
  end.

(** ** The table *)
Definition wl_id (l : workLease) : workKind * string := (wl_kind l, wl_key l).

(** The [CHECK]s of one row. *)
Definition row_check (kind : workKind) (r : lease_row) : bool :=
  (0 <? lr_generation r) && (0 <=? lr_until_ms r) &&
  match kind with
  | collectionWorkKind =>
      not_nil (lr_operation_id r) && match lr_attempt_revision r with Some n => 0 <? n | None => false end
      && (lr_owner r ==? "") && (32 <=? len (lr_fence r))
  | dispatchWork =>
      is_nil (lr_operation_id r) && is_nil (lr_attempt_revision r) &&
      ((1 <=? len (lr_owner r)) && (len (lr_owner r) <=? 128) && (len (lr_fence r) =? 64) && (0 <? lr_until_ms r)
       || negb (lr_held r) && (lr_owner r ==? "") && (lr_fence r ==? "") && (lr_until_ms r =? 0))
  | cleanupWork =>
      is_nil (lr_operation_id r) && is_nil (lr_attempt_revision r)
      && (lr_owner r ==? "") && (len (lr_fence r) =? 64) && (0 <? lr_until_ms r)
  end.
(** What the trigger [work_lease_update] asks of an updated row. *)
Definition row_update (old new : lease_row) : bool :=
  (lr_generation old <=? lr_generation new) && (lr_generation new <=? lr_generation old + 1) &&
  (if lr_generation new =? lr_generation old then
     (lr_owner new ==? lr_owner old) && (lr_fence new ==? lr_fence old) && (lr_operation_id new ==? lr_operation_id old)
     && (lr_attempt_revision new ==? lr_attempt_revision old) && lr_held old && (lr_until_ms old <=? lr_until_ms new)
     && (lr_held new || (lr_until_ms new =? lr_until_ms old))
   else (lr_fence new <>? lr_fence old) && lr_held new).

Section Table.
(** The rows of other tables that foreign keys and triggers ask for. *)
Context (refs : workKind * string -> lease_row -> bool).

Definition insert_row (id : workKind * string) (new : lease_row) (t : leases) : result error leases :=
  throw not_nil (t !! id) || negb (lr_generation new =? 1) || negb (row_check id.1 new) || negb (refs id new) with store_ErrConflict ;;
  Ok (<[id := new]> t).

(** [UPDATE ... WHERE kind=? AND key=? AND p]: a row that does not match
    updates nothing, which [leaseUpdate] reports as a lost lease. *)
Definition update_row (id : workKind * string) (p : lease_row -> bool) (f : lease_row -> lease_row) (t : leases) : result error leases :=
  match t !! id with
  | Some old =>
      if p old then
        throw negb (row_update old (f old)) || negb (row_check id.1 (f old)) || negb (refs id (f old)) with store_ErrConflict ;;
        Ok (<[id := f old]> t)
      else Err (lease_lost id.1)
  | None => Err (lease_lost id.1)
  end.

Definition loadWorkLease (id : workKind * string) (t : leases) : option (workLease * bool) :=
  match t !! id with
  | Some r => Some (mkWorkLease id.1 id.2 (lr_owner r) (lr_fence r) (lr_generation r) (of_millis (lr_until_ms r)) (lr_operation_id r) (lr_attempt_revision r), lr_held r)
  | None => None
  end.

(** ** Operations; [fence] is the identifier drawn for a claim. *)
Definition claimed_row (want : workLease) : lease_row :=
  mkLeaseRow (wl_generation want) (wl_owner want) (wl_fence want) (UnixMilli (wl_until want)) true (wl_operationID want) (wl_attemptRevision want).

Definition claimWorkLease (want : workLease) (ttl : Duration) (fence : string) : txn leases workLease := fun now t =>
  let old := loadWorkLease (wl_id want) t in
  throw match old with Some (o, held) => held && After (wl_until o) now | None => false end with lease_lost (wl_kind want) ;;
  let generation := match old with Some (o, _) => wl_generation o | None => 0 end in
  throw generation =? MaxInt64 with store_ErrConflict ;;
  let until := of_millis (UnixMilli (now + ttl)) in
  let want := mkWorkLease (wl_kind want) (wl_key want) (wl_owner want) fence (generation + 1) until (wl_operationID want) (wl_attemptRevision want) in
  throw negb (ValidTime until) || negb (After until now) with store_ErrInvalid ;;
  do t' <- match old with
           | None => insert_row (wl_id want) (claimed_row want) t
           | Some (o, _) => update_row (wl_id want) (fun r => (lr_generation r =? wl_generation o) && (negb (lr_held r) || (lr_until_ms r <=? UnixMilli now)))
                              (fun _ => claimed_row want) t
           end ;;
  Ok (want, t').

Definition checkWorkLease (want : workLease) (now : Time) (t : leases) : result error workLease :=
  match loadWorkLease (wl_id want) t with
  | None => Err (lease_lost (wl_kind want))
  | Some (current, held) =>
      throw negb held || negb (After (wl_until current) now) || negb (wl_generation current =? wl_generation want) || (wl_fence current <>? wl_fence want)
        || (wl_owner current <>? wl_owner want) || (wl_operationID current <>? wl_operationID want) || (wl_attemptRevision current <>? wl_attemptRevision want)
        with lease_lost (wl_kind want) ;;
      Ok current
  end.

Definition owned_row (want : workLease) (now : Time) (r : lease_row) : bool :=
  (lr_generation r =? wl_generation want) && (lr_fence r ==? wl_fence want) && lr_held r && (UnixMilli now <? lr_until_ms r).

Definition renewWorkLease (want : workLease) (ttl : Duration) : txn leases Time := fun now t =>
  do current <- checkWorkLease want now t ;;
  let until := of_millis (UnixMilli (now + ttl)) in
  throw negb (ValidTime until) with store_ErrInvalid ;;
  let until := if Before until (wl_until current) then wl_until current else until in
  do t' <- update_row (wl_id want) (owned_row want now)
    (fun r => mkLeaseRow (lr_generation r) (lr_owner r) (lr_fence r) (UnixMilli until) (lr_held r) (lr_operation_id r) (lr_attempt_revision r)) t ;;
  Ok (until, t').

Definition releaseWorkLease (want : workLease) : txn leases unit := fun now t =>
  do _ <- checkWorkLease want now t ;;
  do t' <- update_row (wl_id want) (owned_row want now)
    (fun r => mkLeaseRow (lr_generation r) (lr_owner r) (lr_fence r) (lr_until_ms r) false (lr_operation_id r) (lr_attempt_revision r)) t ;;
  Ok (tt, t').
End Table.

(** ** The leases of the three kinds of work *)
Definition dispatchLease (c : Claim) : workLease :=
  mkWorkLease dispatchWork (workKey [JInt (cl_Sequence c)]) (cl_Owner c) (Scheduler.cl_Fence c) (Scheduler.cl_Generation c) (cl_ExpiresAt c) None None.
Definition collectionLease (l : CollectionLease) : workLease :=
  mkWorkLease collectionWorkKind (workKey [JStr (cl_WorkspaceID l); JStr (cl_JobID l); JStr (cl_AttemptID l)]) "" (cl_Fence l) (cl_Generation l) (cl_Until l)
    (Some (cl_OperationID l)) (Some (cl_AttemptRevision l)).
Definition cleanupLease (l : CleanupLease) : workLease :=
  mkWorkLease cleanupWork (workKey [JStr (ce_WorkspaceID l); JStr (ce_OperationID l)]) "" (ce_Fence l) (ce_Generation l) (ce_Until l) None None.
