(* ===== verification/WorkLeaseProps.v ===== *)
(** * Exclusive ownership

    Any number of workers claim, renew, check and release leases of the same
    work, in transactions that may fail, or whose commit may be kept without
    the worker learning of it, while the wall clock may jump. A granted lease
    is lost only by releasing it or to a claim made after its expiry on the
    store's clock; once lost, its token is never accepted again. *)

From S2P Require Import Prelude GoStrings GoTime Identifiers Problems GoJson Scheduler StoreTx WorkLeases.
#[local] Open Scope string_scope.
#[local] Open Scope list_scope.
#[local] Open Scope Z_scope.
#[local] Open Scope bool_scope.

(** ** Histories *)
Inductive lease_request :=
  | ReqClaim (want : workLease) (ttl : Duration) (fence : string)
  | ReqRenew (want : workLease) (ttl : Duration)
  | ReqCheck (want : workLease)
  | ReqRelease (want : workLease).

Definition renewed (want : workLease) (until : Time) : workLease :=
  mkWorkLease (wl_kind want) (wl_key want) (wl_owner want) (wl_fence want) (wl_generation want) until (wl_operationID want) (wl_attemptRevision want).

(** One transaction of a worker; the answer is the lease it holds after it. *)
Definition lease_txn (refs : workKind * string -> lease_row -> bool) (q : lease_request) : txn leases (option workLease) := fun now t =>
  match q with
  | ReqClaim want ttl fence => do p <- claimWorkLease refs want ttl fence now t ;; Ok (Some p.1, p.2)
  | ReqRenew want ttl => do p <- renewWorkLease refs want ttl now t ;; Ok (Some (renewed want p.1), p.2)
  | ReqCheck want => do current <- checkWorkLease want now t ;; Ok (Some current, t)
  | ReqRelease want => do p <- releaseWorkLease refs want now t ;; Ok (None, p.2)
  end.

Record lease_event := mkLeaseEvent { le_request : lease_request; le_now : Time; le_answer : result error (option workLease) }.

Inductive lease_run : store leases -> list lease_event -> store leases -> Prop :=
  | lease_run_nil s : lease_run s [] s
  | lease_run_step refs how wall q s r s1 evs s2 :
      transact how wall (lease_txn refs q) s = (r, s1) ->
      lease_run s1 evs s2 ->
      lease_run s (mkLeaseEvent q (transaction_now (so_clock_ms s) wall) r :: evs) s2.

(** ** Owning and having lost *)
Record owns (l : workLease) (t : leases) : Prop := mkOwns {
  ow_row : lease_row;
  ow_at : t !! wl_id l = Some ow_row;
  ow_generation : lr_generation ow_row = wl_generation l;
  ow_fence : lr_fence ow_row = wl_fence l;
  ow_held : lr_held ow_row = true;
  ow_until : wl_until l <= of_millis (lr_until_ms ow_row) }.
Definition gone (l : workLease) (t : leases) : Prop :=
  exists r, t !! wl_id l = Some r /\ (wl_generation l < lr_generation r \/ lr_generation r = wl_generation l /\ lr_held r = false).

(** A request that presents the token of [l]. *)
Definition presents (l : workLease) (q : lease_request) : Prop :=
  match q with
  | ReqClaim _ _ _ => False
  | ReqRenew want _ | ReqCheck want | ReqRelease want => wl_id want = wl_id l /\ wl_generation want = wl_generation l
  end.
Definition claims (l : workLease) (q : lease_request) : Prop := match q with ReqClaim want _ _ => wl_id want = wl_id l | _ => False end.
Definition releases (l : workLease) (q : lease_request) : Prop :=
  match q with ReqRelease want => wl_id want = wl_id l /\ wl_generation want = wl_generation l /\ wl_fence want = wl_fence l | _ => False end.

(** ** One statement *)
Lemma update_row_Ok refs id p f t t' :
  update_row refs id p f t = Ok t' -> exists old, t !! id = Some old /\ p old = true /\ row_update old (f old) = true /\ t' = <[id := f old]> t.
Proof.
  unfold update_row. destruct (t !! id) as [old|]; [|done]. destruct (p old) eqn:Hp; [|done].
  destruct (row_update old (f old)) eqn:Hu; [|done]. destruct (_ || _) eqn:E; [done|]. cbn. intros [= <-]. by exists old.
Qed.
Lemma insert_row_Ok refs id new t t' : insert_row refs id new t = Ok t' -> t !! id = None /\ t' = <[id := new]> t.
Proof. unfold insert_row. destruct (t !! id); [done|]. case_match; [done|]. by intros [= <-]. Qed.

(** What a transaction does to the row of one identity. *)
Inductive row_change (q : lease_request) (now : Time) (id : workKind * string) : option lease_row -> option lease_row -> Prop :=
  | row_same o : row_change q now id o o
  | row_new r : row_change q now id None (Some r)
  | row_renewed old new :
      row_update old new = true -> lr_generation new = lr_generation old -> lr_held new = true -> row_change q now id (Some old) (Some new)
  | row_released want old new :
      q = ReqRelease want -> wl_id want = id -> wl_generation want = lr_generation old -> wl_fence want = lr_fence old ->
      lr_generation new = lr_generation old -> lr_held new = false -> row_change q now id (Some old) (Some new)
  | row_claimed want ttl fence old new :
      q = ReqClaim want ttl fence -> wl_id want = id -> lr_generation new = lr_generation old + 1 -> lr_held new = true ->
      (lr_held old = true -> of_millis (lr_until_ms old) <= now) -> row_change q now id (Some old) (Some new).

Lemma owned_row_true want now r : owned_row want now r = true -> lr_generation r = wl_generation want /\ lr_fence r = wl_fence want /\ lr_held r = true.
Proof. unfold owned_row. rewrite !andb_true_iff, bool_decide_eq_true, Z.eqb_eq. naive_solver. Qed.

(** A change of one row is no change of any other. *)
Lemma row_insert (q : lease_request) (now : Time) (t : leases) (k : workKind * string) (o : option lease_row) (new : lease_row) (id : workKind * string) :
  t !! k = o -> row_change q now k o (Some new) -> row_change q now id (t !! id) (<[k := new]> t !! id).
Proof. intros <- H. destruct (decide (id = k)) as [->|]; [by rewrite lookup_insert_eq|]. rewrite lookup_insert_ne by done. constructor. Qed.

Lemma lease_txn_row refs q now t a t' id :
  lease_txn refs q now t = Ok (a, t') -> row_change q now id (t !! id) (t' !! id).
Proof.
  destruct q as [want ttl fence|want ttl|want|want]; cbn -[claimWorkLease renewWorkLease releaseWorkLease checkWorkLease].
  - destruct (claimWorkLease _ _ _ _ _ _) as [[l t2]|] eqn:H; [|done]. cbn. intros [= <- <-]. revert H.
    unfold claimWorkLease, loadWorkLease. change (wl_id want) with (wl_kind want, wl_key want). cbn [wl_id wl_kind wl_key fst].
    destruct (t !! (wl_kind want, wl_key want)) as [old|] eqn:Ho; cbn [wl_until wl_generation].
    + destruct (lr_held old && _) eqn:Hlive; [done|]. destruct (_ =? MaxInt64); [done|]. destruct (negb _ || negb _); [done|].
      destruct (update_row _ _ _ _ _) as [t3|] eqn:Hu; [|done]. cbn. intros [= <- <-].
      destruct (update_row_Ok _ _ _ _ _ _ Hu) as (old' & Ho' & Hp & Hup & ->). pose proof (eq_trans (eq_sym Ho') Ho) as [= ->].
      eapply row_insert; [exact Ho|]. eapply row_claimed; try done. intros Hh. rewrite Hh in Hlive. cbn in Hlive. unfold After in Hlive. lia.
    + cbn [andb]. destruct (_ =? MaxInt64); [done|]. destruct (negb _ || negb _); [done|].
      destruct (insert_row _ _ _ _) as [t3|] eqn:Hu; [|done]. cbn. intros [= <- <-].
      destruct (insert_row_Ok _ _ _ _ _ Hu) as (_ & ->).
      eapply row_insert; [exact Ho|]. constructor.
  - destruct (renewWorkLease _ _ _ _ _) as [[u t2]|] eqn:H; [|done]. cbn. intros [= <- <-]. revert H.
    unfold renewWorkLease. destruct (checkWorkLease _ _ _) as [c|]; [|done]. cbn [result_bind]. case_match; [done|].
    destruct (update_row _ _ _ _ _) as [t3|] eqn:Hu; [|done]. cbn. intros [= <- <-].
    destruct (update_row_Ok _ _ _ _ _ _ Hu) as (old & Ho & Hp & Hup & ->). destruct (owned_row_true _ _ _ Hp) as (? & ? & ?).
    eapply row_insert; [exact Ho|]. by apply row_renewed.
  - destruct (checkWorkLease _ _ _) as [c|]; [|done]. cbn. intros [= <- <-]. constructor.
  - destruct (releaseWorkLease _ _ _ _) as [[u t2]|] eqn:H; [|done]. cbn. intros [= <- <-]. revert H.
    unfold releaseWorkLease. destruct (checkWorkLease _ _ _) as [c|]; [|done]. cbn [result_bind].
    destruct (update_row _ _ _ _ _) as [t3|] eqn:Hu; [|done]. cbn. intros [= <- <-].
    destruct (update_row_Ok _ _ _ _ _ _ Hu) as (old & Ho & Hp & Hup & ->). destruct (owned_row_true _ _ _ Hp) as (? & ? & ?).
    eapply row_insert; [exact Ho|]. by eapply row_released.
Qed.

(** ** One transaction *)
Lemma UnixMilli_of ms : UnixMilli (of_millis ms) = ms.
Proof. unfold UnixMilli, of_millis, Millisecond. Z.to_euclidean_division_equations. lia. Qed.

Lemma row_update_same old new :
  row_update old new = true -> lr_generation new = lr_generation old ->
  lr_fence new = lr_fence old /\ lr_until_ms old <= lr_until_ms new /\ lr_held old = true.
Proof. intros H Hg. unfold row_update in H. rewrite Hg, Z.eqb_refl in H. rewrite !andb_true_iff in H. destruct_and! H. bool_to_prop. done. Qed.

Lemma owns_step l q now t t' :
  owns l t -> row_change q now (wl_id l) (t !! wl_id l) (t' !! wl_id l) ->
  owns l t' \/ gone l t' /\ (releases l q \/ claims l q /\ wl_until l <= now).
Proof.
  intros [r Hr Hg Hf Hh Hu]. rewrite Hr. intros H. inversion H as [o E1 E2|r' E1 E2|old new Hup Hgn Hhn E1 E2|want old new -> Hid Hwg Hwf Hgn Hhn E1 E2|want ttl fence old new -> Hid Hgn Hhn Ht E1 E2]; simplify_eq.
  - left. by exists r.
  - left. destruct (row_update_same _ _ Hup Hgn) as (Hf' & Hu' & _). exists new; [done|congruence..|]. unfold of_millis, Millisecond in *. lia.
  - right. split; [|left; unfold releases, wl_id; repeat split; congruence]. exists new. split; [done|]. right. split; [congruence|done].
  - right. split; [|right; split; [unfold claims, wl_id; congruence|]; specialize (Ht Hh); lia]. exists new. split; [done|]. left. lia.
Qed.

Lemma gone_step l q now t t' :
  gone l t -> row_change q now (wl_id l) (t !! wl_id l) (t' !! wl_id l) -> gone l t'.
Proof.
  intros (r & Hr & Hg). rewrite Hr. intros H. inversion H as [o E1 E2|r' E1 E2|old new Hup Hgn Hhn E1 E2|want old new -> Hid Hwg Hwf Hgn Hhn E1 E2|want ttl fence old new -> Hid Hgn Hhn Ht E1 E2]; simplify_eq.
  - by exists r.
  - exists new. split; [done|]. destruct Hg as [Hg|[Hg Hh]]; [left; lia|]. destruct (row_update_same _ _ Hup Hgn) as (_ & _ & ?). congruence.
  - exists new. split; [done|]. destruct Hg as [Hg|[Hg Hh]]; [left; lia|]. right. split; [lia|done].
  - exists new. split; [done|]. left. destruct Hg as [Hg|[Hg Hh]]; lia.
Qed.

Lemma checkWorkLease_Ok want now t c :
  checkWorkLease want now t = Ok c ->
  exists r, t !! wl_id want = Some r /\ lr_held r = true /\ lr_generation r = wl_generation want /\ lr_fence r = wl_fence want /\
    wl_generation c = lr_generation r /\ wl_fence c = lr_fence r /\ wl_id c = wl_id want /\ wl_until c = of_millis (lr_until_ms r).
Proof.
  unfold checkWorkLease, loadWorkLease. destruct (t !! wl_id want) as [r|]; [|done].
  destruct (negb _ || _ || _ || _ || _ || _ || _) eqn:E; [done|]. cbn in E. rewrite !orb_false_iff in E.
  repeat match goal with H : _ /\ _ |- _ => destruct H | H : negb _ = false |- _ => apply negb_false_iff in H end. bool_to_prop.
  intros [= <-]. exists r. cbn. repeat split; try congruence; try lia; done.
Qed.

Lemma gone_refused refs l q now t : gone l t -> presents l q -> is_ok (lease_txn refs q now t) = false.
Proof.
  intros (r & Hr & Hg) Hq.
  assert (forall want c, wl_id want = wl_id l /\ wl_generation want = wl_generation l -> checkWorkLease want now t = Ok c -> False) as Hc.
  { intros want c [Hid Hgen] H. destruct (checkWorkLease_Ok _ _ _ _ H) as (r' & Hr' & ? & ? & ? & _). rewrite Hid, Hr in Hr'. injection Hr' as <-.
    destruct Hg as [Hg|[Hg ?]]; [lia|congruence]. }
  destruct q as [|want ttl|want|want]; cbn in Hq; [done|..]; cbn -[checkWorkLease]; unfold renewWorkLease, releaseWorkLease;
    destruct (checkWorkLease want now t) as [c|] eqn:E; cbn; try done; destruct (Hc want c Hq E).
Qed.

Lemma claim_refused refs l q now t : owns l t -> now < wl_until l -> claims l q -> is_ok (lease_txn refs q now t) = false.
Proof.
  intros [r Hr Hg Hf Hh Hu] Hnow. destruct q as [want ttl fence| | |]; cbn; try done. intros Hid.
  unfold claimWorkLease, loadWorkLease. rewrite Hid, Hr. cbn [wl_until]. rewrite Hh. unfold After.
  destruct (now <? of_millis (lr_until_ms r)) eqn:E; [done|lia].
Qed.

Ltac skip_throw := match goal with |- (if ?c then _ else _) = _ -> _ => destruct c; [done|] end.
(** A granted or confirmed lease is owned. *)
Lemma answered_owns refs q now t t' l : lease_txn refs q now t = Ok (Some l, t') -> owns l t'.
Proof.
  destruct q as [want ttl fence|want ttl|want|want]; cbn -[claimWorkLease renewWorkLease releaseWorkLease checkWorkLease].
  - destruct (claimWorkLease _ _ _ _ _ _) as [[c t2]|] eqn:H; [|done]. cbn. intros [= <- <-]. revert H.
    unfold claimWorkLease. cbv zeta. do 3 skip_throw.
    match goal with |- result_bind ?x _ = _ -> _ => destruct x as [t3|] eqn:Hu end; [|done]. cbn. intros [= <- <-].
    assert (exists base, t3 = <[(wl_kind want, wl_key want) := claimed_row (mkWorkLease (wl_kind want) (wl_key want) (wl_owner want) fence
      (match loadWorkLease (wl_id want) t with Some (o, _) => wl_generation o | None => 0 end + 1) (of_millis (UnixMilli (now + ttl))) (wl_operationID want) (wl_attemptRevision want))]> base) as (base & ->).
    { destruct (loadWorkLease (wl_id want) t) as [[o held]|].
      - destruct (update_row_Ok _ _ _ _ _ _ Hu) as (old & _ & _ & _ & ->). by exists t.
      - destruct (insert_row_Ok _ _ _ _ _ Hu) as (_ & ->). by exists t. }
    eapply mkOwns; [apply lookup_insert_eq|..]; cbn; try done. rewrite UnixMilli_of. lia.
  - destruct (renewWorkLease _ _ _ _ _) as [[u t2]|] eqn:H; [|done]. cbn. intros [= <- <-]. revert H.
    unfold renewWorkLease. destruct (checkWorkLease _ _ _) as [c|] eqn:Hc; [|done]. cbn [result_bind]. case_match; [done|].
    destruct (update_row _ _ _ _ _) as [t3|] eqn:Hu; [|done]. cbn. intros [= <- <-].
    destruct (update_row_Ok _ _ _ _ _ _ Hu) as (old & Ho & Hp & Hup & ->). destruct (owned_row_true _ _ _ Hp) as (? & ? & ?).
    destruct (checkWorkLease_Ok _ _ _ _ Hc) as (r & Hr & _ & _ & _ & _ & _ & _ & Hcu).
    eapply mkOwns; [apply lookup_insert_eq|done..|]. cbn [wl_until renewed lr_until_ms]. rewrite Hcu.
    match goal with |- context [Before ?a ?b] => destruct (Before a b) end; rewrite UnixMilli_of; lia.
  - destruct (checkWorkLease _ _ _) as [c|] eqn:Hc; [|done]. cbn. intros [= <- <-].
    destruct (checkWorkLease_Ok _ _ _ _ Hc) as (r & Hr & ? & ? & ? & ? & ? & Hid & Hcu).
    eapply mkOwns; [by rewrite Hid|..]; try congruence. lia.
  - destruct (releaseWorkLease _ _ _ _) as [[u t2]|] eqn:H; [|done]. done.
Qed.

(** ** Histories of one lease *)
Lemma run_step_row refs how wall q s r s1 id :
  transact how wall (lease_txn refs q) s = (r, s1) ->
  row_change q (transaction_now (so_clock_ms s) wall) id (so_tables s !! id) (so_tables s1 !! id).
Proof.
  intros H. destruct (transact_inv _ _ _ _ _ _ H) as [[-> _]|(a & Hw & _)]; [constructor|].
  destruct (write_Ok _ _ _ _ _ Hw) as (now & -> & _ & _ & Hf & _). by eapply lease_txn_row.
Qed.
Lemma run_step_granted refs how wall q s l s1 :
  transact how wall (lease_txn refs q) s = (Ok (Some l), s1) -> owns l (so_tables s1).
Proof.
  intros H. destruct (transact_inv _ _ _ _ _ _ H) as [[-> []]|(a & Hw & <-)].
  destruct (write_Ok _ _ _ _ _ Hw) as (now & -> & _ & _ & Hf & _). by eapply answered_owns.
Qed.
Lemma run_refused refs how wall q s r s1 :
  (forall now, now = transaction_now (so_clock_ms s) wall -> is_ok (lease_txn refs q now (so_tables s)) = false) ->
  transact how wall (lease_txn refs q) s = (r, s1) -> s1 = s /\ is_ok r = false.
Proof.
  intros Hno H. destruct (transact_inv _ _ _ _ _ _ H) as [[-> Hr]|(a & Hw & _)]; [split; [done|by destruct r]|].
  destruct (write_Ok _ _ _ _ _ Hw) as (now & Hn & _ & _ & Hf & _). specialize (Hno now Hn). by rewrite Hf in Hno.
Qed.

Definition lost_by (l : workLease) (ev : lease_event) : Prop :=
  releases l (le_request ev) \/ claims l (le_request ev) /\ wl_until l <= le_now ev.

Lemma lease_run_gone l s evs s' : lease_run s evs s' -> gone l (so_tables s) -> gone l (so_tables s').
Proof. induction 1 as [|refs how wall q s r s1 evs s2 Ht _ IH]; [done|]. intros Hg. apply IH. eapply gone_step; [done|]. by eapply run_step_row. Qed.

Lemma lease_run_owns l s evs s' :
  lease_run s evs s' -> owns l (so_tables s) ->
  owns l (so_tables s') \/ gone l (so_tables s') /\ exists ev, ev ∈ evs /\ lost_by l ev.
Proof.
  induction 1 as [s|refs how wall q s r s1 evs s2 Ht Hrun IH]; [by left|]. intros Ho.
  destruct (owns_step _ _ _ _ _ Ho (run_step_row _ _ _ _ _ _ _ (wl_id l) Ht)) as [Ho1|[Hg1 Hby]].
  - destruct (IH Ho1) as [?|[? (ev & ? & ?)]]; [by left|]. right. split; [done|]. exists ev. split; [by right|done].
  - right. split; [by eapply lease_run_gone|]. eexists. split; [by left|]. done.
Qed.

(** A claim takes the next generation of its row. *)
Lemma claim_generation refs want ttl fence now t l t' :
  claimWorkLease refs want ttl fence now t = Ok (l, t') ->
  wl_id l = wl_id want /\ wl_generation l = match t !! wl_id want with Some r => lr_generation r | None => 0 end + 1.
Proof.
  unfold claimWorkLease. cbv zeta. do 3 skip_throw. match goal with |- result_bind ?x _ = _ -> _ => destruct x as [t3|] end; [|done].
  cbn. intros [= <- _]. split; [done|]. cbn. unfold loadWorkLease. by destruct (t !! wl_id want).
Qed.

(** The generation a new owner gets is above that of every earlier one. *)
Lemma later_claim l l2 s evs s' ev :
  lease_run s evs s' -> owns l (so_tables s) \/ gone l (so_tables s) -> ev ∈ evs -> claims l (le_request ev) -> le_answer ev = Ok (Some l2) ->
  wl_generation l < wl_generation l2 /\ gone l (so_tables s').
Proof.
  induction 1 as [s|refs how wall q s r s1 evs s2 Ht Hrun IH]; [by intros _ ?%elem_of_nil|]. intros Hst Hin Hq Ha.
  pose proof (run_step_row _ _ _ _ _ _ _ (wl_id l) Ht) as Hc.
  apply elem_of_cons in Hin as [->|Hin].
  - cbn in Hq, Ha. subst r. destruct q as [want ttl fence| | |]; try done. cbn in Hq.
    pose proof (run_step_granted _ _ _ _ _ _ _ Ht) as [r2 Hr2 Hg2 _ _ _].
    assert (wl_id l2 = wl_id l /\ wl_generation l < wl_generation l2) as [Hid Hlt].
    { destruct (transact_inv _ _ _ _ _ _ Ht) as [[-> []]|(a & Hw & <-)]. destruct (write_Ok _ _ _ _ _ Hw) as (now & _ & _ & _ & Hf & _). revert Hf.
      cbn -[claimWorkLease]. destruct (claimWorkLease _ _ _ _ _ _) as [[c t2]|] eqn:H; [|done]. cbn. intros [= <- _].
      destruct (claim_generation _ _ _ _ _ _ _ _ H) as [-> ->]. split; [done|]. rewrite Hq.
      destruct Hst as [[r Hr Hg _ _ _]|(r & Hr & Hg)]; rewrite Hr; lia. }
    split; [done|]. eapply lease_run_gone; [done|]. exists r2. rewrite <- Hid. split; [done|]. left. lia.
  - eapply IH; try done. destruct Hst as [Ho|Hg]; [|right; by eapply gone_step].
    destruct (owns_step _ _ _ _ _ Ho Hc) as [?|[? _]]; [by left|by right].
Qed.

(** C3: whoever was granted a lease keeps it against every
    other worker until the instant the answer named, measured on the store's
    clock, whatever the wall clocks do and however transactions end. It is
    lost only when its own token is released or when the work is claimed
    again at or after that instant. From then on no renewal, check or release
    with its generation succeeds or changes anything, so two workers never
    both commit for the same work; and every later grant of the work carries
    a higher generation. *)
Theorem lease_exclusive refs how wall q l s0 s evs s' :
  transact how wall (lease_txn refs q) s0 = (Ok (Some l), s) ->
  lease_run s evs s' ->
  (owns l (so_tables s') /\
     (forall refs' how' wall' q' r s2, claims l q' -> transaction_now (so_clock_ms s') wall' < wl_until l ->
        transact how' wall' (lease_txn refs' q') s' = (r, s2) -> s2 = s' /\ is_ok r = false)
   \/
   gone l (so_tables s') /\
     (exists ev, ev ∈ evs /\ lost_by l ev) /\
     (forall refs' how' wall' q' r s2, presents l q' ->
        transact how' wall' (lease_txn refs' q') s' = (r, s2) -> s2 = s' /\ is_ok r = false)) /\
  (forall ev l2, ev ∈ evs -> claims l (le_request ev) -> le_answer ev = Ok (Some l2) ->
     wl_generation l < wl_generation l2 /\ gone l (so_tables s')).
Proof.
  intros Hgrant Hrun. apply run_step_granted in Hgrant. split.
  - destruct (lease_run_owns _ _ _ _ Hrun Hgrant) as [Ho|[Hg Hby]]; [left|right]; (split; [done|]).
    + intros refs' how' wall' q' r s2 Hq Hnow. apply run_refused. intros now ->. by eapply claim_refused.
    + split; [done|]. intros refs' how' wall' q' r s2 Hq. apply run_refused. intros now _. by eapply gone_refused.
  - intros ev l2. apply later_claim with (s := s); [done|by left].
Qed.

(** Two workers and a wall clock that jumps back: the second worker waits for
    the expiry, then takes the next generation, and the first one's token is
    refused. *)
Definition hex64 (c : ascii) : string := string_of (replicate 64 c).
Definition any_refs : workKind * string -> lease_row -> bool := fun _ _ => true.
Definition worker_wants (owner : string) : workLease := mkWorkLease dispatchWork (workKey [JInt 7]) owner "" 0 0 None None.
Definition lease_start : store leases := mkStore 0 ∅.
Definition lease_day : Time := 20000 * 86400 * Second.
Definition first_claim := transact Commits lease_day (lease_txn any_refs (ReqClaim (worker_wants "worker-a") Minute (hex64 "a"))) lease_start.
Definition first_lease : workLease := mkWorkLease dispatchWork (workKey [JInt 7]) "worker-a" (hex64 "a") 1 (lease_day + Minute) None None.
Definition second_claim := transact Commits (lease_day + Minute) (lease_txn any_refs (ReqClaim (worker_wants "worker-b") Minute (hex64 "b"))) first_claim.2.

Definition late_renewal := transact Commits (lease_day - Hour) (lease_txn any_refs (ReqRenew first_lease Minute)) second_claim.2.
Lemma pair_of {A B} (p : A * B) a : p.1 = a -> p = (a, p.2).
Proof. by destruct p; cbn; intros ->. Qed.

Lemma lease_exclusive_witness :
  first_claim.1 = Ok (Some first_lease) /\ is_ok second_claim.1 = true /\ is_ok late_renewal.1 = false.
Proof.
  assert (first_claim.1 = Ok (Some first_lease)) as H1 by (vm_compute; reflexivity).
  assert (is_ok second_claim.1 = true) as H2 by (vm_compute; reflexivity).
  split; [exact H1|]. split; [exact H2|].
  assert (exists evs, lease_run first_claim.2 evs second_claim.2) as (evs & Hrun).
  { eexists. exact (lease_run_step any_refs Commits (lease_day + Minute) (ReqClaim (worker_wants "worker-b") Minute (hex64 "b")) first_claim.2
      second_claim.1 second_claim.2 [] second_claim.2 (pair_of second_claim _ eq_refl) (lease_run_nil _)). }
  destruct (lease_exclusive any_refs Commits lease_day (ReqClaim (worker_wants "worker-a") Minute (hex64 "a")) first_lease lease_start first_claim.2 evs
    second_claim.2 (pair_of first_claim _ H1) Hrun) as [[[Ho _]|(_ & _ & Hno)] _].
  - exfalso. destruct Ho as [r Hr Hgen _ _ _].
    assert (lr_generation <$> so_tables second_claim.2 !! wl_id first_lease = Some 2) as H3 by (vm_compute; reflexivity).
    rewrite Hr in H3. cbn [fmap option_fmap option_map] in H3. injection H3 as H3. rewrite Hgen in H3. discriminate H3.
  - exact (proj2 (Hno any_refs Commits (lease_day - Hour) (ReqRenew first_lease Minute) _ _ (conj eq_refl eq_refl) (pair_of late_renewal _ eq_refl))).
Defined.
