(* ===== verification/CacheLedger.v ===== *)
(** * The ledger of cached content on hosts

    [store/sqlite/host_cache.go] with the parts of [storage_fence.go] and
    [storage_reservations.go] it calls, over the tables of
    [0033_host_cache.sql] and [0035_host_storage.sql]. Keys, checks and
    triggers of the tables are part of the statements. Times are kept as the
    text the code writes. Identifiers drawn at random are arguments. The
    charge of a machine against its budget ([StorageAccount]) is the parameter
    [over_budget]. *)

From S2P Require Import Prelude GoStrings GoTime Identifiers Problems GoSha256 GoJson JsonRead DomainRecords Operations ControlOps Provider ProviderResources Admission SecretPool Scheduler Cleanup HostStorage StoreTx.
#[local] Open Scope string_scope.
#[local] Open Scope list_scope.
#[local] Open Scope Z_scope.
#[local] Open Scope bool_scope.

Definition cache_ErrInvalid : error := ENew "invalid host cache request".
Definition cache_ErrConflict : error := ENew "host cache identity changed".
Definition cache_ErrUnknown : error := ENew "host cache remote outcome is unknown".

(** ** Tables *)
Record gen_row := mkGenRow {
  gr_id : string; gr_key : CacheKey; gr_volume : string; gr_operation : string; gr_owner : CacheAttempt; gr_state : CacheState; gr_phase : WriterPhase;
  gr_created_at : string; gr_verified_at : string; gr_retired_at : string; gr_retired_reason : string; gr_last_used_at : string }.
Record pin_row := mkPinRow { pn_attempt : CacheAttempt; pn_key : CacheKey; pn_created_at : string; pn_released_at : string }.
Record mount_row := mkMountRow {
  mt_attempt : CacheAttempt; mt_key : CacheKey; mt_generation : string; mt_container : string; mt_volume : string; mt_observed_at : string }.

Inductive DeletionStatus := DeletionAccepted | DeletionRunning | DeletionSucceeded | DeletionFailed.
#[export] Instance DeletionStatus_eq_dec : EqDecision DeletionStatus.
Proof. solve_decision. Defined.
Inductive DeletionResult := ResultPending | ResultRunning | ResultDeleted | ResultAbsent | ResultRetained | ResultFailed | ResultUnknown.
#[export] Instance DeletionResult_eq_dec : EqDecision DeletionResult.
Proof. solve_decision. Defined.
(** Who asked for a deletion: the connection, the preview it confirms (none
    for an eviction), the fingerprint, the digest of the request's key and
    the token. *)
Record deletion_origin := mkDeletionOrigin { dg_connection : string; dg_preview : option string; dg_fingerprint : string; dg_key : string; dg_actor : string }.
Record deletion_row := mkDeletionRow {
  dl_operation : string; dl_workspace : string; dl_origin : deletion_origin; dl_target : StorageTarget; dl_binding : BindingSnapshot;
  dl_status : DeletionStatus; dl_result : DeletionResult; dl_reason : string; dl_created_at : string; dl_updated_at : string; dl_confirmed_scan : Z }.
(** A lease of a deletion, by its operation. *)
Record deletion_lease := mkDeletionLease { dx_operation : string; dx_generation : Z; dx_fence : string; dx_until_ms : Z }.

Inductive ReservationClass := ReserveAttempt | ReserveCache | ReserveImage.
#[export] Instance ReservationClass_eq_dec : EqDecision ReservationClass.
Proof. solve_decision. Defined.
Inductive ReservationState := ReservedProvisional | ReservedCommitted | ReservedReleased.
#[export] Instance ReservationState_eq_dec : EqDecision ReservationState.
Proof. solve_decision. Defined.
Record reservation_row := mkReservationRow {
  rv_id : string; rv_scope : StorageScope; rv_class : ReservationClass; rv_key : string; rv_bytes : Z; rv_owner : CacheAttempt;
  rv_operation : option string; rv_state : ReservationState; rv_created_at : string; rv_released_at : string }.

(** Loaded images, their pins and the append-only record of begun loads. The
    layers of an image are kept decoded; [None] is the empty text. *)
Record image_row := mkImageRow {
  im_id : string; im_key : ImageKey; im_owner : ImageOwner; im_operation : string; im_image : string; im_diffs : option (list string); im_state : ImageState;
  im_created_at : string; im_lease_until : string; im_loading_at : string; im_ready_at : string; im_last_used_at : string;
  im_retired_at : string; im_retired_reason : string }.
Record image_pin_row := mkImagePinRow { ipn_attempt : CacheAttempt; ipn_key : ImageKey; ipn_object : string; ipn_created_at : string; ipn_released_at : string }.
Record image_load_row := mkImageLoadRow { ld_operation : string; ld_generation : string; ld_image : string; ld_begun_at : string }.
(** A scan with its objects, and absences with the first and last scan that
    saw them. An incomplete scan has a reason and no objects. *)
Record scan_row := mkScanRow {
  sn_seq : Z; sn_scope : StorageScope; sn_observed_ms : Z; sn_complete : bool; sn_reason : string; sn_foreign : ForeignCounts; sn_objects : list StorageObject }.
Record absence_row := mkAbsenceRow { ab_scope : StorageScope; ab_class : StorageKind; ab_object : string; ab_first : Z; ab_last : Z }.
(** What was shown to a manager before a deletion. *)
Record preview_row := mkPreviewRow {
  pv_id : string; pv_workspace : string; pv_connection : string; pv_scan : Z; pv_class : StorageKind; pv_object : string; pv_fingerprint : string;
  pv_eligible : bool; pv_reason : string; pv_expires_ms : Z; pv_created_at : string }.

Record ledger := mkLedger {
  lg_attempts : list CacheAttempt; lg_queue : list (CacheAttempt * bool); lg_resources : list CacheAttempt;
  lg_generations : list gen_row; lg_pins : list pin_row; lg_mounts : list mount_row;
  lg_deletions : list deletion_row; lg_leases : list deletion_lease; lg_reservations : list reservation_row;
  lg_images : list image_row; lg_image_pins : list image_pin_row; lg_image_loads : list image_load_row;
  lg_scans : list scan_row; lg_absences : list absence_row; lg_previews : list preview_row }.
Definition with_generations (l : ledger) g := mkLedger (lg_attempts l) (lg_queue l) (lg_resources l) g (lg_pins l) (lg_mounts l) (lg_deletions l) (lg_leases l) (lg_reservations l) (lg_images l) (lg_image_pins l) (lg_image_loads l) (lg_scans l) (lg_absences l) (lg_previews l).
Definition with_pins (l : ledger) p := mkLedger (lg_attempts l) (lg_queue l) (lg_resources l) (lg_generations l) p (lg_mounts l) (lg_deletions l) (lg_leases l) (lg_reservations l) (lg_images l) (lg_image_pins l) (lg_image_loads l) (lg_scans l) (lg_absences l) (lg_previews l).
Definition with_mounts (l : ledger) m := mkLedger (lg_attempts l) (lg_queue l) (lg_resources l) (lg_generations l) (lg_pins l) m (lg_deletions l) (lg_leases l) (lg_reservations l) (lg_images l) (lg_image_pins l) (lg_image_loads l) (lg_scans l) (lg_absences l) (lg_previews l).
Definition with_deletions (l : ledger) d x := mkLedger (lg_attempts l) (lg_queue l) (lg_resources l) (lg_generations l) (lg_pins l) (lg_mounts l) d x (lg_reservations l) (lg_images l) (lg_image_pins l) (lg_image_loads l) (lg_scans l) (lg_absences l) (lg_previews l).
Definition with_reservations (l : ledger) r := mkLedger (lg_attempts l) (lg_queue l) (lg_resources l) (lg_generations l) (lg_pins l) (lg_mounts l) (lg_deletions l) (lg_leases l) r (lg_images l) (lg_image_pins l) (lg_image_loads l) (lg_scans l) (lg_absences l) (lg_previews l).
Definition with_images (l : ledger) i := mkLedger (lg_attempts l) (lg_queue l) (lg_resources l) (lg_generations l) (lg_pins l) (lg_mounts l) (lg_deletions l) (lg_leases l) (lg_reservations l) i (lg_image_pins l) (lg_image_loads l) (lg_scans l) (lg_absences l) (lg_previews l).
Definition with_image_pins (l : ledger) p := mkLedger (lg_attempts l) (lg_queue l) (lg_resources l) (lg_generations l) (lg_pins l) (lg_mounts l) (lg_deletions l) (lg_leases l) (lg_reservations l) (lg_images l) p (lg_image_loads l) (lg_scans l) (lg_absences l) (lg_previews l).
Definition with_image_loads (l : ledger) x := mkLedger (lg_attempts l) (lg_queue l) (lg_resources l) (lg_generations l) (lg_pins l) (lg_mounts l) (lg_deletions l) (lg_leases l) (lg_reservations l) (lg_images l) (lg_image_pins l) x (lg_scans l) (lg_absences l) (lg_previews l).
Definition with_scans (l : ledger) s a := mkLedger (lg_attempts l) (lg_queue l) (lg_resources l) (lg_generations l) (lg_pins l) (lg_mounts l) (lg_deletions l) (lg_leases l) (lg_reservations l) (lg_images l) (lg_image_pins l) (lg_image_loads l) s a (lg_previews l).

Definition with_previews (l : ledger) p := mkLedger (lg_attempts l) (lg_queue l) (lg_resources l) (lg_generations l) (lg_pins l) (lg_mounts l) (lg_deletions l) (lg_leases l) (lg_reservations l) (lg_images l) (lg_image_pins l) (lg_image_loads l) (lg_scans l) (lg_absences l) p.

(** ** Statements *)
(** [UPDATE ... SET f WHERE p]: every matching row is changed, unless a check
    or trigger of one of them aborts the statement. *)
Definition update_where {R} (ok : R -> R -> bool) (p : R -> bool) (f : R -> R) (l : list R) : result error (list R) :=
  throw negb (forallb (fun r => negb (p r) || ok r (f r)) l) with store_ErrConflict ;;
  Ok (map (fun r => if p r then f r else r) l).
Definition count_where {R} (p : R -> bool) (l : list R) : Z := Z.of_nat (length (List.filter p l)).

Definition active (g : gen_row) : bool := (gr_state g ==? CacheClaimed) || (gr_state g ==? CacheVerified).
Definition gen_check (g : gen_row) : bool :=
  match gr_state g with CacheStateOther _ => false | _ => true end && match gr_phase g with WriterPhaseOther _ => false | _ => true end
  && (len (hk_MachineID (gr_key g)) =? 64) && (len (hk_EngineID (gr_key g)) =? 64) && (len (hk_SHA256 (gr_key g)) =? 64) && (0 <=? hk_Bytes (gr_key g))
  && ((gr_state g <>? CacheVerified) || (gr_verified_at g <>? ""))
  && ((gr_state g <>? CacheRetired) || (gr_retired_at g <>? "") && (gr_retired_reason g <>? ""))
  && ((gr_retired_reason g ==? "") || (gr_retired_reason g ==? "missing") || (gr_retired_reason g ==? "corrupt"))
  && ((gr_state g ==? CacheClaimed) || (gr_phase g ==? WriterFinished)).
Definition insert_generation (g : gen_row) (l : ledger) : result error ledger :=
  throw existsb (fun r => (gr_id r ==? gr_id g) || (gr_volume r ==? gr_volume g) || (gr_operation r ==? gr_operation g)
          || (active r && active g && (gr_key r ==? gr_key g))) (lg_generations l)
        || negb (gen_check g) || negb (bool_decide (gr_owner g ∈ lg_attempts l)) with store_ErrConflict ;;
  Ok (with_generations l (lg_generations l ++ [g])).

(** The triggers of [host_cache_generations], by the columns a statement sets. *)
Definition transition_trigger (old new : gen_row) : bool :=
  ((gr_state old ==? CacheClaimed) && ((gr_phase old ==? WriterBegun) || (gr_phase old ==? WriterFinished)) && (gr_phase new ==? WriterFinished) && (gr_state new ==? CacheVerified))
  || ((gr_state old ==? CacheClaimed) && (gr_phase old ==? WriterFinished) && (gr_state new ==? CacheRetired))
  || ((gr_state old ==? CacheVerified) && (gr_state new ==? CacheRetired)).
Definition writer_trigger (old new : gen_row) : bool :=
  (gr_state old ==? CacheClaimed) && ((gr_phase old ==? WriterIntent) && (gr_phase new ==? WriterBegun) || (gr_phase old ==? WriterBegun) && (gr_phase new ==? WriterFinished)).
Definition verification_trigger (old new : gen_row) : bool :=
  (gr_state old ==? CacheClaimed) && (gr_state new ==? CacheVerified) && (gr_verified_at old ==? "") && (gr_verified_at new <>? "").
Definition retirement_trigger (old new : gen_row) : bool :=
  active old && (gr_state new ==? CacheRetired) && (gr_retired_at old ==? "") && (gr_retired_reason old ==? "") && (gr_retired_at new <>? "")
  && ((gr_retired_reason new ==? "missing") || (gr_retired_reason new ==? "corrupt")).

Definition set_phase (phase : WriterPhase) (g : gen_row) : gen_row :=
  mkGenRow (gr_id g) (gr_key g) (gr_volume g) (gr_operation g) (gr_owner g) (gr_state g) phase (gr_created_at g) (gr_verified_at g) (gr_retired_at g) (gr_retired_reason g) (gr_last_used_at g).
Definition set_verified (phase : WriterPhase) (at_ : string) (g : gen_row) : gen_row :=
  mkGenRow (gr_id g) (gr_key g) (gr_volume g) (gr_operation g) (gr_owner g) CacheVerified phase (gr_created_at g) at_ (gr_retired_at g) (gr_retired_reason g) (gr_last_used_at g).
Definition set_retired (at_ reason : string) (g : gen_row) : gen_row :=
  mkGenRow (gr_id g) (gr_key g) (gr_volume g) (gr_operation g) (gr_owner g) CacheRetired (gr_phase g) (gr_created_at g) (gr_verified_at g) at_ reason (gr_last_used_at g).
Definition set_used (at_ : string) (g : gen_row) : gen_row :=
  mkGenRow (gr_id g) (gr_key g) (gr_volume g) (gr_operation g) (gr_owner g) (gr_state g) (gr_phase g) (gr_created_at g) (gr_verified_at g) (gr_retired_at g) (gr_retired_reason g) at_.
Definition set_generations (ok : gen_row -> gen_row -> bool) (p : gen_row -> bool) (f : gen_row -> gen_row) (l : ledger) : result error ledger :=
  do g <- update_where (fun old new => ok old new && gen_check new) p f (lg_generations l) ;; Ok (with_generations l g).

(** ** Fences of deletions *)
Definition key_scope (k : CacheKey) : StorageScope := mkStorageScope (hk_InstallationID k) (hk_MachineID k) (hk_EngineID k).
Definition open_deletion (d : deletion_row) : bool :=
  (dl_status d ==? DeletionAccepted) || (dl_status d ==? DeletionRunning) || (dl_result d ==? ResultUnknown).
Definition deletes_volume (g : gen_row) (d : deletion_row) : bool :=
  (tg_Scope (dl_target d) ==? key_scope (gr_key g)) && (tg_Class (dl_target d) ==? KindVolume) && (tg_ID (dl_target d) ==? gr_volume g).
(** [storageContentFencedInTx] for class [cache]; the trigger
    [host_storage_cache_pin_delete_fence] asks the same. *)
Definition storageContentFenced (k : CacheKey) (l : ledger) : bool :=
  existsb (fun g => (gr_key g ==? k) && existsb (fun d => deletes_volume g d && open_deletion d) (lg_deletions l)) (lg_generations l).

(** ** Images *)
Definition image_scope (k : ImageKey) : StorageScope := mkStorageScope (ik_InstallationID k) (ik_MachineID k) (ik_EngineID k).
Definition image_active (i : image_row) : bool :=
  (im_state i ==? StatePreparing) || (im_state i ==? StateLoading) || (im_state i ==? StateReady) || (im_state i ==? StateUnknown).
Definition image_check (i : image_row) : bool :=
  (len (ik_MachineID (im_key i)) =? 64) && (len (ik_EngineID (im_key i)) =? 64) && (len (ik_ArchiveSHA256 (im_key i)) =? 64)
  && (0 <? ik_ArchiveBytes (im_key i)) && (ik_ArchiveBytes (im_key i) <=? 2 ^ 31) && match im_state i with ImageStateOther _ => false | _ => true end
  && ((im_retired_reason i ==? "") || (im_retired_reason i ==? "preload_expired") || (im_retired_reason i ==? "observed_missing"))
  && ((im_state i ==? StatePreparing) || (im_state i ==? StateRetired) || (im_image i <>? "") && not_nil (im_diffs i))
  && ((im_state i <>? StateReady) || (im_ready_at i <>? ""))
  && ((im_state i <>? StateRetired) || (im_retired_at i <>? "") && (im_retired_reason i <>? "")).
Definition set_images (p : image_row -> bool) (f : image_row -> image_row) (l : ledger) : result error ledger :=
  do i <- update_where (fun _ new => image_check new) p f (lg_images l) ;; Ok (with_images l i).
Definition set_image_state (state : ImageState) (i : image_row) : image_row :=
  mkImageRow (im_id i) (im_key i) (im_owner i) (im_operation i) (im_image i) (im_diffs i) state (im_created_at i) (im_lease_until i) (im_loading_at i) (im_ready_at i)
    (im_last_used_at i) (im_retired_at i) (im_retired_reason i).
Definition set_image_retired (at_ reason : string) (i : image_row) : image_row :=
  mkImageRow (im_id i) (im_key i) (im_owner i) (im_operation i) (im_image i) (im_diffs i) StateRetired (im_created_at i) (im_lease_until i) (im_loading_at i) (im_ready_at i)
    (im_last_used_at i) at_ reason.
Definition live_image_pin (p : image_pin_row) : bool := ipn_released_at p ==? "".
Definition image_pinned (k : ImageKey) (l : ledger) : bool := existsb (fun p => (ipn_key p ==? k) && live_image_pin p) (lg_image_pins l).
Definition deletes_image (i : image_row) (d : deletion_row) : bool :=
  (tg_Scope (dl_target d) ==? image_scope (im_key i)) && (tg_Class (dl_target d) ==? KindImage) && (tg_ID (dl_target d) ==? im_image i).
(** [storageContentFencedInTx] for class [image]; the trigger
    [host_storage_image_pin_delete_fence] asks the same. *)
Definition imageContentFenced (k : ImageKey) (l : ledger) : bool :=
  existsb (fun i => (im_key i ==? k) && existsb (fun d => deletes_image i d && open_deletion d) (lg_deletions l)) (lg_images l).

(** ** Pins *)
Definition live_pin (p : pin_row) : bool := pn_released_at p ==? "".
Definition insert_pin (p : pin_row) (l : ledger) : result error ledger :=
  throw existsb (fun r => (pn_attempt r ==? pn_attempt p) && (pn_key r ==? pn_key p)) (lg_pins l)
        || negb ((len (hk_MachineID (pn_key p)) =? 64) && (len (hk_EngineID (pn_key p)) =? 64) && (len (hk_SHA256 (pn_key p)) =? 64) && (0 <=? hk_Bytes (pn_key p)))
        || negb (bool_decide (pn_attempt p ∈ lg_attempts l)) || storageContentFenced (pn_key p) l with store_ErrConflict ;;
  Ok (with_pins l (lg_pins l ++ [p])).
Fixpoint insert_pins (ps : list pin_row) (l : ledger) : result error ledger :=
  match ps with [] => Ok l | p :: ps' => do l' <- insert_pin p l ;; insert_pins ps' l' end.
Definition release_pins (a : CacheAttempt) (now : Time) (l : ledger) : result error ledger :=
  do p <- update_where (fun old new => (pn_released_at old ==? "") && (pn_released_at new <>? "")) (fun r => (pn_attempt r ==? a) && live_pin r)
    (fun r => mkPinRow (pn_attempt r) (pn_key r) (pn_created_at r) (FormatRFC3339Nano now)) (lg_pins l) ;;
  Ok (with_pins l p).
Definition pinned (a : CacheAttempt) (k : CacheKey) (l : ledger) : bool := existsb (fun p => (pn_attempt p ==? a) && (pn_key p ==? k) && live_pin p) (lg_pins l).

Record frozenCacheTarget := mkFrozenCacheTarget { fc_installation : string; fc_machine : string; fc_engine : string }.
Definition cache_role (role : string) : bool := (role ==? "bundle") || HasPrefix role "input:".
Fixpoint pin_objects (a : CacheAttempt) (t : frozenCacheTarget) (now : Time) (seen : list (string * Z)) (refs : list FrozenObject) (l : ledger) : result error ledger :=
  match refs with
  | [] => Ok l
  | ref :: refs' =>
      let key := (om_SHA256 (fo_Object ref), om_Bytes (fo_Object ref)) in
      if negb (cache_role (fo_Role ref)) || bool_decide (key ∈ seen) then pin_objects a t now seen refs' l
      else
        let k := mkCacheKey (fc_installation t) (fc_machine t) (fc_engine t) key.1 key.2 in
        throw storageContentFenced k l with ENew storage_ErrIneligible_text ;;
        do l' <- insert_pin (mkPinRow a k (FormatRFC3339Nano now) "") l ;;
        pin_objects a t now (key :: seen) refs' l'
  end.
(** [target] is what [cacheTargetInTx] found; a provider without a cache has
    none. *)
Definition pinHostCacheAdmission (a : CacheAttempt) (target : option frozenCacheTarget) (refs : list FrozenObject) : txn ledger unit := fun now l =>
  match target with
  | None => Ok (tt, l)
  | Some t => do l' <- pin_objects a t now [] refs l ;; Ok (tt, l')
  end.
Definition pinHostCacheRetry (oldAttempt newAttempt : CacheAttempt) : txn ledger unit := fun now l =>
  throw negb (CacheAttempt_Valid oldAttempt) || negb (CacheAttempt_Valid newAttempt) || (ca_WorkspaceID oldAttempt <>? ca_WorkspaceID newAttempt)
        || (ca_JobID oldAttempt <>? ca_JobID newAttempt) with cache_ErrInvalid ;;
  do l' <- insert_pins (map (fun p => mkPinRow newAttempt (pn_key p) (FormatRFC3339Nano now) "") (List.filter (fun p => pn_attempt p ==? oldAttempt) (lg_pins l))) l ;;
  Ok (tt, l').
Definition releaseHostCachePinsWithoutPreparation (a : CacheAttempt) : txn ledger unit := fun now l =>
  match List.find (fun q => fst q ==? a) (lg_queue l) with
  | None => Err store_ErrUnavailable
  | Some (_, barrier) =>
      throw barrier with cache_ErrUnknown ;;
      throw bool_decide (a ∈ lg_resources l) with cache_ErrUnknown ;;
      do l' <- release_pins a now l ;; Ok (tt, l')
  end.

(** [json.Unmarshal] of a container reference: Go matches member names
    exactly or, failing that, without case; a later member replaces an
    earlier one, null changes nothing and any other type is an error. *)
Fixpoint dec_text_member (name : string) (acc : string) (fields : list (string * jvalue)) : option string :=
  match fields with
  | [] => Some acc
  | (key, v) :: fields' =>
      if ToLower key <>? name then dec_text_member name acc fields'
      else match v with VStr s => dec_text_member name s fields' | VNull => dec_text_member name acc fields' | _ => None end
  end.
Definition dec_container (raw : string) : option (string * string) :=
  v ← ReadDocument raw;
  fields ← dec_fields (Some v);
  id ← dec_text_member "id" "" fields; engine ← dec_text_member "engine_id" "" fields;
  Some (id, engine).
(** The pattern [^[A-Za-z0-9][A-Za-z0-9:-]{15,127}$]. *)
Definition engine_byte (c : Z) : bool := is_digit c || is_upper c || is_lower c || (c =? 58) || (c =? 45).
Definition storageNativeEngine (s : string) : bool :=
  match bytes_of s with
  | c :: l => (is_digit (byte_val c) || is_upper (byte_val c) || is_lower (byte_val c)) && (15 <=? Z.of_nat (length l)) && (Z.of_nat (length l) <=? 127)
              && forallb (fun c => engine_byte (byte_val c)) l
  | [] => false
  end.
(** [hostidentity.Digest]. *)
Definition host_Digest (kind native : string) : string := hmac_hex "compute-relay/scheduling-resource/v1" (kind +:+ String (byte_of 0) native).

Definition staging_of (resources : list ResourceWork) : result error (option ResourceWork) :=
  match List.filter (fun x => rr_Purpose (rk_Result x) ==? "staging") resources with
  | [] => Ok None | [x] => Ok (Some x) | _ => Err store_ErrCorrupt
  end.
Definition releaseHostCachePinsOnCleanup (op : Operation) (resources : list ResourceWork) : txn ledger unit := fun now l =>
  let a := mkCacheAttempt (op_WorkspaceID op) (op_JobID op) (op_AttemptID op) in
  let mine := List.filter (fun p => (pn_attempt p ==? a) && live_pin p) (lg_pins l) in
  if bool_decide (mine = []) then Ok (tt, l)
  else
    do staging <- staging_of resources ;;
    match staging with
    | None => Err store_ErrCorrupt
    | Some x =>
        throw negb (ResourceState_Confirmed (rr_State (rk_Result x))) with store_ErrCorrupt ;;
        match dec_container (rr_Resource (cq_Remote (rs_Request (rk_Resource x)))) with
        | None => Err store_ErrCorrupt
        | Some (id, engine) =>
            throw negb (SHA256Digest_Valid id) || negb (storageNativeEngine engine) with store_ErrCorrupt ;;
            throw existsb (fun p => (hk_InstallationID (pn_key p) <>? id_InstallationID (rr_Identity (cq_Remote (rs_Request (rk_Resource x)))))
                    || (hk_EngineID (pn_key p) <>? host_Digest "docker-engine-id" engine)) mine with store_ErrCorrupt ;;
            throw existsb (fun m => (mt_attempt m ==? a) && (mt_container m <>? id)) (lg_mounts l) with store_ErrCorrupt ;;
            do l' <- release_pins a now l ;; Ok (tt, l')
        end
    end.

(** ** Generations *)
Definition optional_time (raw : string) : option Time := if raw ==? "" then Some zero_time else ParseRFC3339 raw.
(** [None] is [ErrCorrupt]. *)
Definition scanCacheGeneration (r : gen_row) : option Generation :=
  created ← ParseRFC3339 (gr_created_at r);
  verified ← optional_time (gr_verified_at r);
  used ← optional_time (gr_last_used_at r);
  let g := mkGeneration (gr_key r) (gr_id r) (gr_volume r) (gr_operation r) (gr_owner r) (gr_state r) (gr_phase r) created verified used 0 0 in
  if Generation_Valid g then Some g else None.
(** A corrupt row passes through [dbError], which hides it as unavailable. *)
Definition scanned_generation (r : gen_row) : result error Generation :=
  match scanCacheGeneration r with Some g => Ok g | None => Err store_ErrUnavailable end.

Definition activeCache (k : CacheKey) (l : ledger) : result error (option Generation) :=
  match List.find (fun r => (gr_key r ==? k) && active r) (lg_generations l) with
  | None => Ok None
  | Some r => do g <- scanned_generation r ;; Ok (Some g)
  end.
Definition cacheGeneration (id : string) (l : ledger) : result error Generation :=
  match List.find (fun r => gr_id r ==? id) (lg_generations l) with None => Err cache_ErrConflict | Some r => scanned_generation r end.

Definition key_le (a b : CacheKey) : bool :=
  if hk_InstallationID a <>? hk_InstallationID b then str_leb (hk_InstallationID a) (hk_InstallationID b)
  else if hk_MachineID a <>? hk_MachineID b then str_leb (hk_MachineID a) (hk_MachineID b)
  else if hk_EngineID a <>? hk_EngineID b then str_leb (hk_EngineID a) (hk_EngineID b)
  else if hk_SHA256 a <>? hk_SHA256 b then str_leb (hk_SHA256 a) (hk_SHA256 b)
  else hk_Bytes a <=? hk_Bytes b.
Definition cache_Pins (a : CacheAttempt) (l : ledger) : result error (list CacheKey) :=
  throw negb (CacheAttempt_Valid a) with cache_ErrInvalid ;;
  let keys := merge_sort key_le (map pn_key (List.filter (fun p => (pn_attempt p ==? a) && live_pin p) (lg_pins l))) in
  throw negb (forallb CacheKey_Valid keys) with store_ErrCorrupt ;;
  Ok keys.
Definition cache_Active (k : CacheKey) (l : ledger) : result error (option Generation) :=
  throw negb (CacheKey_Valid k) with cache_ErrInvalid ;; activeCache k l.

(** [id] and [op] are the two identifiers drawn, 32 hexadecimal digits each. *)
Definition cache_Claim (a : CacheAttempt) (k : CacheKey) (id op : string) : txn ledger (Generation * bool) := fun now l =>
  throw negb (CacheAttempt_Valid a) || negb (CacheKey_Valid k) with cache_ErrInvalid ;;
  throw negb (pinned a k l) with cache_ErrInvalid ;;
  do found <- activeCache k l ;;
  match found with
  | Some g => Ok ((g, false), l)
  | None =>
      do l' <- insert_generation (mkGenRow ("hcgen_" +:+ id) k ("relay-cache-" +:+ id) ("hcop_" +:+ op) a CacheClaimed WriterIntent (FormatRFC3339Nano now) "" "" "" "") l ;;
      Ok ((mkGeneration k ("hcgen_" +:+ id) ("relay-cache-" +:+ id) ("hcop_" +:+ op) a CacheClaimed WriterIntent now zero_time zero_time 0 0, true), l')
  end.

(** ** Reservations *)
Definition contentReservationKey (sha : string) (bytes : Z) : string := sha +:+ ":" +:+ FormatInt bytes.
Definition reserves (s : StorageScope) (class : ReservationClass) (key : string) (r : reservation_row) : bool :=
  (rv_scope r ==? s) && (rv_class r ==? class) && (rv_key r ==? key).
Definition reservation_check (r : reservation_row) : bool :=
  (len (sp_MachineID (rv_scope r)) =? 64) && (len (sp_EngineID (rv_scope r)) =? 64) && (0 <=? rv_bytes r) && (1 <=? len (rv_key r)) && (len (rv_key r) <=? 255) && Bool.eqb (rv_state r ==? ReservedReleased) (rv_released_at r <>? "").
(** The rows of the unique index of active reservation keys. *)
Definition key_held (r : reservation_row) : bool :=
  (rv_state r ==? ReservedProvisional) || (rv_class r ==? ReserveAttempt) && (rv_state r <>? ReservedReleased).
Definition insert_reservation (r : reservation_row) (l : ledger) : result error ledger :=
  throw existsb (fun o => (rv_id o ==? rv_id r)
          || (key_held o && key_held r && reserves (rv_scope r) (rv_class r) (rv_key r) o)
          || ((rv_state o ==? ReservedCommitted) && (rv_state r ==? ReservedCommitted) && (rv_scope o ==? rv_scope r) && (rv_class o ==? rv_class r)
              && not_nil (rv_operation o) && (rv_operation o ==? rv_operation r))) (lg_reservations l)
        || negb (reservation_check r) || negb (bool_decide (rv_owner r ∈ lg_attempts l)) with store_ErrConflict ;;
  Ok (with_reservations l (lg_reservations l ++ [r])).
(** The trigger of a reservation's state and the unique index of committed
    mutations, for a row that changes from [old] to [new]. *)
Definition reservation_update (all : list reservation_row) (old new : reservation_row) : bool :=
  ((rv_state old ==? ReservedProvisional) && ((rv_state new ==? ReservedCommitted) || (rv_state new ==? ReservedReleased))
   || (rv_state old ==? ReservedCommitted) && (rv_state new ==? ReservedReleased))
  && reservation_check new
  && negb ((rv_state new ==? ReservedCommitted) && not_nil (rv_operation new)
           && existsb (fun o => (rv_id o <>? rv_id old) && (rv_state o ==? ReservedCommitted) && (rv_scope o ==? rv_scope new) && (rv_class o ==? rv_class new)
                                && (rv_operation o ==? rv_operation new)) all).

Section Budget.
(** The charge of the machine after the reservation, against the budget of
    the owner's profile: an error when it cannot be known or is too high. *)
Context (over_budget : StorageScope -> CacheAttempt -> Time -> ledger -> option error).

(** Who started the mutation [operation], by its class. *)
Definition mutation_owner (class : ReservationClass) (operation : string) (l : ledger) : option CacheAttempt :=
  match class with
  | ReserveImage => option_map (fun i => io_Attempt (im_owner i)) (List.find (fun i => im_operation i ==? operation) (lg_images l))
  | _ => option_map gr_owner (List.find (fun g => gr_operation g ==? operation) (lg_generations l))
  end.
Definition reserveReplacementStorage (s : StorageScope) (class : ReservationClass) (sha : string) (bytes : Z) (operation : string) (rid : string) : txn ledger unit := fun now l =>
  let key := contentReservationKey sha bytes in
  if negb (existsb (reserves s class key) (lg_reservations l)) then Ok (tt, l)
  else match mutation_owner class operation l with
  | None => Err store_ErrUnavailable
  | Some owner =>
      let amount := if class ==? ReserveImage then 4 * 2 ^ 30 else bytes in
      do l' <- insert_reservation (mkReservationRow ("stres_" +:+ rid) s class key amount owner (Some operation) ReservedCommitted (FormatRFC3339Nano now) "") l ;;
      match over_budget s owner now l' with Some e => Err e | None => Ok (tt, l') end
  end.
Definition commit_reservation (all : list reservation_row) (id operation : string) (l : ledger) : result error ledger :=
  let p r := (rv_id r ==? id) && (rv_state r ==? ReservedProvisional) && is_nil (rv_operation r) in
  do rs <- update_where (reservation_update all) p
    (fun r => mkReservationRow (rv_id r) (rv_scope r) (rv_class r) (rv_key r) (rv_bytes r) (rv_owner r) (Some operation) ReservedCommitted (rv_created_at r) (rv_released_at r)) (lg_reservations l) ;;
  throw negb (count_where p (lg_reservations l) =? 1) with store_ErrCorrupt ;;
  Ok (with_reservations l rs).
Definition commitStorageReservation (s : StorageScope) (class : ReservationClass) (sha : string) (bytes : Z) (operation : string) (rid : string) : txn ledger unit := fun now l =>
  throw negb (StorageScope_Valid s) || negb (SHA256Digest_Valid sha) || (bytes <? 0) || negb (ID_Valid operation)
        || negb ((class ==? ReserveCache) || (class ==? ReserveImage)) with store_ErrInvalid ;;
  let key := contentReservationKey sha bytes in
  if existsb (fun r => reserves s class key r && (rv_operation r ==? Some operation) && (rv_state r ==? ReservedCommitted)) (lg_reservations l) then Ok (tt, l)
  else match List.find (fun r => reserves s class key r && (rv_state r ==? ReservedProvisional)) (lg_reservations l) with
  | None => reserveReplacementStorage s class sha bytes operation rid now l
  | Some r => do l' <- commit_reservation (lg_reservations l) (rv_id r) operation l ;; Ok (tt, l')
  end.

(** ** Writing, verifying, retiring and mounting *)
Definition cache_BeginWrite (a : CacheAttempt) (id rid : string) : txn ledger unit := fun now l =>
  throw negb (CacheAttempt_Valid a) with cache_ErrInvalid ;;
  do g <- cacheGeneration id l ;;
  throw (gn_Owner g <>? a) || (gn_State g <>? CacheClaimed) with cache_ErrConflict ;;
  throw gn_WriterPhase g <>? WriterIntent with cache_ErrUnknown ;;
  throw storageContentFenced (gn_Key g) l with ENew storage_ErrIneligible_text ;;
  do p <- commitStorageReservation (key_scope (gn_Key g)) ReserveCache (hk_SHA256 (gn_Key g)) (hk_Bytes (gn_Key g)) (gn_OperationID g) rid now l ;;
  do l' <- set_generations writer_trigger (fun r => (gr_id r ==? gn_ID g) && (gr_state r ==? CacheClaimed) && (gr_phase r ==? WriterIntent)) (set_phase WriterBegun) p.2 ;;
  Ok (tt, l').
End Budget.

Definition cache_FinishWrite (a : CacheAttempt) (id : string) : txn ledger unit := fun _ l =>
  throw negb (CacheAttempt_Valid a) with cache_ErrInvalid ;;
  do g <- cacheGeneration id l ;;
  throw gn_Owner g <>? a with cache_ErrConflict ;;
  if gn_WriterPhase g ==? WriterFinished then Ok (tt, l)
  else
    throw (gn_State g <>? CacheClaimed) || (gn_WriterPhase g <>? WriterBegun) with cache_ErrConflict ;;
    do l' <- set_generations writer_trigger (fun r => (gr_id r ==? gn_ID g) && (gr_state r ==? CacheClaimed) && (gr_phase r ==? WriterBegun)) (set_phase WriterFinished) l ;;
    Ok (tt, l').

Definition cache_Verify (o : CacheObservation) : txn ledger unit := fun now l =>
  throw cn_Kind o <>? ObservedComplete with cache_ErrInvalid ;;
  do g <- cacheGeneration (cn_GenerationID o) l ;;
  throw negb (Observation_Matches o g) with cache_ErrConflict ;;
  if gn_State g ==? CacheVerified then Ok (tt, l)
  else
    throw gn_State g <>? CacheClaimed with cache_ErrConflict ;;
    throw gn_WriterPhase g ==? WriterIntent with cache_ErrUnknown ;;
    let begun := gn_WriterPhase g ==? WriterBegun in
    do l' <- set_generations (fun old new => transition_trigger old new && verification_trigger old new && (negb begun || writer_trigger old new))
      (fun r => (gr_id r ==? gn_ID g) && (gr_state r ==? CacheClaimed) && (gr_phase r ==? (if begun then WriterBegun else WriterFinished)))
      (set_verified WriterFinished (FormatRFC3339Nano now)) l ;;
    Ok (tt, l').

Definition ObservationKind_string (k : ObservationKind) : string :=
  match k with ObservedComplete => "complete" | ObservedMissing => "missing" | ObservedCorrupt => "corrupt" | ObservationKindOther raw => raw end.
Definition cache_Retire (o : CacheObservation) : txn ledger unit := fun now l =>
  throw (cn_Kind o <>? ObservedMissing) && (cn_Kind o <>? ObservedCorrupt) with cache_ErrInvalid ;;
  do g <- cacheGeneration (cn_GenerationID o) l ;;
  throw negb (Observation_Matches o g) with cache_ErrConflict ;;
  if gn_State g ==? CacheRetired then Ok (tt, l)
  else
    throw (gn_State g ==? CacheClaimed) && (gn_WriterPhase g <>? WriterFinished) with cache_ErrUnknown ;;
    do l' <- set_generations (fun old new => transition_trigger old new && retirement_trigger old new)
      (fun r => (gr_id r ==? gn_ID g) && active r) (set_retired (FormatRFC3339Nano now) (ObservationKind_string (cn_Kind o))) l ;;
    Ok (tt, l').

Definition insert_mount (m : mount_row) (l : ledger) : result error ledger :=
  throw existsb (fun r => (mt_attempt r ==? mt_attempt m) && (mt_key r ==? mt_key m)) (lg_mounts l)
        || negb (len (mt_container m) =? 64)
        || negb (existsb (fun p => (pn_attempt p ==? mt_attempt m) && (pn_key p ==? mt_key m)) (lg_pins l))
        || negb (existsb (fun g => (gr_id g ==? mt_generation m) && (gr_key g ==? mt_key m)) (lg_generations l)) with store_ErrConflict ;;
  Ok (with_mounts l (lg_mounts l ++ [m])).
Definition cache_RecordMount (m : MountReceipt) : txn ledger unit := fun now l =>
  throw negb (MountReceipt_Valid m) with cache_ErrInvalid ;;
  do g <- cacheGeneration (gn_ID (mr_Generation m)) l ;;
  throw (gn_State g <>? CacheVerified) || (gn_Key g <>? gn_Key (mr_Generation m)) || (gn_VolumeName g <>? gn_VolumeName (mr_Generation m))
        || (gn_OperationID g <>? gn_OperationID (mr_Generation m)) || (gn_Owner g <>? gn_Owner (mr_Generation m)) with cache_ErrConflict ;;
  throw negb (pinned (mr_Attempt m) (gn_Key g) l) with cache_ErrConflict ;;
  match List.find (fun r => (mt_attempt r ==? mr_Attempt m) && (mt_key r ==? gn_Key g)) (lg_mounts l) with
  | Some r =>
      throw (mt_generation r <>? gn_ID g) || (mt_container r <>? mr_ContainerID m) || (mt_volume r <>? gn_VolumeName g) with cache_ErrConflict ;;
      Ok (tt, l)
  | None =>
      do l1 <- insert_mount (mkMountRow (mr_Attempt m) (gn_Key g) (gn_ID g) (mr_ContainerID m) (gn_VolumeName g) (FormatRFC3339Nano now)) l ;;
      do l2 <- set_generations (fun _ _ => true) (fun r => gr_id r ==? gn_ID g) (set_used (FormatRFC3339Nano now)) l1 ;;
      Ok (tt, l2)
  end.

(** ** Inventory *)
Definition created_le (a b : Generation) : bool :=
  if gn_CreatedAt a =? gn_CreatedAt b then str_leb (gn_ID a) (gn_ID b) else Before (gn_CreatedAt a) (gn_CreatedAt b).
Definition count_pins (g : gen_row) (l : ledger) : Z := count_where (fun p => (pn_key p ==? gr_key g) && live_pin p) (lg_pins l).
Definition count_mounts (g : gen_row) (l : ledger) : Z :=
  count_where (fun m => (mt_generation m ==? gr_id g) && existsb (fun p => (pn_attempt p ==? mt_attempt m) && (pn_key p ==? mt_key m) && live_pin p) (lg_pins l)) (lg_mounts l).
Fixpoint inventory_rows (l : ledger) (rows : list gen_row) : result error (list Generation) :=
  match rows with
  | [] => Ok []
  | r :: rows' =>
      match scanCacheGeneration r with
      | None => Err store_ErrCorrupt
      | Some g =>
          do gs <- inventory_rows l rows' ;;
          Ok (mkGeneration (gn_Key g) (gn_ID g) (gn_VolumeName g) (gn_OperationID g) (gn_Owner g) (gn_State g) (gn_WriterPhase g) (gn_CreatedAt g) (gn_VerifiedAt g)
            (gn_LastUsedAt g) (count_pins r l) (count_mounts r l) :: gs)
      end
  end.
Definition cache_Inventory (installation machine engine : string) (l : ledger) : result error (list Generation) :=
  throw negb (ID_Valid installation) || negb (SHA256Digest_Valid machine) || negb (SHA256Digest_Valid engine) with cache_ErrInvalid ;;
  do gs <- inventory_rows l (List.filter (fun r => key_scope (gr_key r) ==? mkStorageScope installation machine engine) (lg_generations l)) ;;
  Ok (merge_sort created_le gs).
