(* ===== verification/StorageDeletion.v ===== *)
(** * Deletions on hosts

    [store/sqlite/storage_cleanup_work.go]: the leased work that deletes a
    host object, over the same tables as the cache ledger. Labels and binding
    of a deletion are kept decoded. Whether the resources of an attempt name
    a container is the parameter [container_known]. *)

From S2P Require Import Prelude GoStrings GoTime Identifiers Problems Provider ProviderResources Scheduler Cleanup HostStorage StoreTx CacheLedger.
#[local] Open Scope string_scope.
#[local] Open Scope list_scope.
#[local] Open Scope Z_scope.
#[local] Open Scope bool_scope.

Definition deletion_lost : error := ENew cleanup_ErrLeaseLost_text.
Definition ineligible : error := ENew storage_ErrIneligible_text.

Definition DeletionResult_string (r : DeletionResult) : string :=
  match r with
  | ResultPending => "pending" | ResultRunning => "running" | ResultDeleted => "deleted" | ResultAbsent => "absent"
  | ResultRetained => "retained" | ResultFailed => "failed" | ResultUnknown => "unknown"
  end.
Definition outcome_result (o : DeleteOutcome) : option DeletionResult :=
  match o with
  | DeleteConfirmed => Some ResultDeleted | AbsentConfirmed => Some ResultAbsent | DeleteRetained => Some ResultRetained
  | DeleteUnknown => Some ResultUnknown | DeleteOutcomeOther _ => None
  end.
Definition workable (d : deletion_row) : bool := (dl_status d ==? DeletionAccepted) || (dl_status d ==? DeletionRunning).
Definition set_deletion (status : DeletionStatus) (res : DeletionResult) (reason at_ : string) (scan : Z) (d : deletion_row) : deletion_row :=
  mkDeletionRow (dl_operation d) (dl_workspace d) (dl_origin d) (dl_target d) (dl_binding d) status res reason (dl_created_at d) at_ scan.
(** [UPDATE host_storage_cleanup_operations]: a settled row cannot change. *)
Definition update_deletions (p : deletion_row -> bool) (f : deletion_row -> deletion_row) (l : ledger) : result error ledger :=
  do d <- update_where (fun old new => workable old && (1 <=? len (dl_reason new)) && (len (dl_reason new) <=? 64) && (0 <=? dl_confirmed_scan new)) p f (lg_deletions l) ;;
  Ok (with_deletions l d (lg_leases l)).

(** ** Leases *)
Definition deletion_le (a b : deletion_row) : bool :=
  if dl_created_at a ==? dl_created_at b then str_leb (dl_operation a) (dl_operation b) else str_leb (dl_created_at a) (dl_created_at b).
Definition lease_of (op : string) (l : ledger) : option deletion_lease := List.find (fun x => dx_operation x ==? op) (lg_leases l).
Definition unleased (now : Time) (l : ledger) (d : deletion_row) : bool :=
  match lease_of (dl_operation d) l with None => true | Some x => dx_until_ms x <=? UnixMilli now end.
Definition put_lease (x : deletion_lease) (l : ledger) : result error ledger :=
  throw negb (0 <? dx_generation x) || negb (len (dx_fence x) =? 64) || negb (0 <? dx_until_ms x)
        || negb (existsb (fun d => dl_operation d ==? dx_operation x) (lg_deletions l)) with store_ErrConflict ;;
  Ok (with_deletions l (lg_deletions l)
    (if not_nil (lease_of (dx_operation x) l) then map (fun y => if dx_operation y ==? dx_operation x then x else y) (lg_leases l) else lg_leases l ++ [x])).
Definition lease_ttl (ttl : Duration) : bool := (Second <=? ttl) && (ttl <=? 31 * Minute).

Definition scanStorageWork (op : string) (lease : CleanupLease) (l : ledger) : result error StorageWork :=
  match List.find (fun d => (dl_operation d ==? op) && (dl_workspace d ==? ce_WorkspaceID lease) && (dl_status d ==? DeletionRunning)) (lg_deletions l) with
  | None => Err store_ErrUnavailable
  | Some d =>
      let w := mkStorageWork lease (dl_binding d) (dl_target d) (DeletionResult_string (dl_result d)) in
      if StorageWork_Valid w then Ok w else Err store_ErrCorrupt
  end.
Definition ClaimStorageCleanup (ttl : Duration) (fence : string) : txn ledger (option StorageWork) := fun now l =>
  throw negb (lease_ttl ttl) with store_ErrInvalid ;;
  match merge_sort deletion_le (List.filter (fun d => workable d && unleased now l d) (lg_deletions l)) with
  | [] => Ok (None, l)
  | d :: _ =>
      let generation := match lease_of (dl_operation d) l with Some x => dx_generation x | None => 0 end in
      throw generation =? MaxInt64 with store_ErrCorrupt ;;
      let until := now + ttl in
      do l1 <- put_lease (mkDeletionLease (dl_operation d) (generation + 1) fence (UnixMilli until)) l ;;
      do l2 <- update_deletions (fun r => (dl_operation r ==? dl_operation d) && workable r)
        (fun r => set_deletion DeletionRunning (dl_result r) (dl_reason r) (FormatRFC3339Nano now) (dl_confirmed_scan r) r) l1 ;;
      do w <- scanStorageWork (dl_operation d) (mkCleanupLease (dl_workspace d) (dl_operation d) (generation + 1) fence until) l2 ;;
      Ok (Some w, l2)
  end.
Definition storageLeaseCurrent (w : StorageWork) (now : Time) (l : ledger) : bool :=
  existsb (fun x => (dx_operation x ==? ce_OperationID (sk_Lease w)) && (dx_generation x =? ce_Generation (sk_Lease w)) && (dx_fence x ==? ce_Fence (sk_Lease w))
    && (UnixMilli now <? dx_until_ms x)
    && existsb (fun d => (dl_operation d ==? dx_operation x) && (dl_workspace d ==? ce_WorkspaceID (sk_Lease w)) && (dl_status d ==? DeletionRunning)) (lg_deletions l)) (lg_leases l).
Definition RenewStorageCleanup (w : StorageWork) (ttl : Duration) : txn ledger Time := fun now l =>
  throw negb (StorageWork_Valid w) || negb (lease_ttl ttl) with store_ErrInvalid ;;
  throw negb (storageLeaseCurrent w now l) with deletion_lost ;;
  let until := now + ttl in
  throw negb (0 <? UnixMilli until) with store_ErrConflict ;;
  Ok (until, with_deletions l (lg_deletions l)
    (map (fun x => if (dx_operation x ==? ce_OperationID (sk_Lease w)) && (dx_generation x =? ce_Generation (sk_Lease w)) && (dx_fence x ==? ce_Fence (sk_Lease w))
                   then mkDeletionLease (dx_operation x) (dx_generation x) (dx_fence x) (UnixMilli until) else x) (lg_leases l))).

(** ** Beginning and ending a deletion *)
(** [storageKnownObject]: a ledger explains the object, so that it is not an
    orphan. *)
Section Orphans.
Context (container_known : StorageScope -> string -> bool).
Definition storageKnownObject (s : StorageScope) (class : StorageKind) (id : string) (labels : gmap string string) (l : ledger) : result error bool :=
  match class with
  | KindVolume => Ok (existsb (fun g => (key_scope (gr_key g) ==? s) && (gr_volume g ==? id)) (lg_generations l))
  | KindImage =>
      Ok (existsb (fun i => (image_scope (im_key i) ==? s) && ((im_image i ==? id) || (im_id i ==? label_of labels (LabelPrefix +:+ "image-generation")))) (lg_images l))
  | KindContainer =>
      if container_known s id then Ok true
      else
        let named := label_of labels (LabelPrefix +:+ "cache-operation") in
        let operation := if named ==? "" then label_of labels (LabelPrefix +:+ "operation") else named in
        if operation ==? "" then Ok false
        else Ok (existsb (fun g => (key_scope (gr_key g) ==? s) && (gr_operation g ==? operation)) (lg_generations l))
  | KindOther _ => Err store_ErrCorrupt
  end.

Definition evictable (t : StorageTarget) (l : ledger) (g : gen_row) : bool :=
  (key_scope (gr_key g) ==? tg_Scope t) && (gr_volume g ==? tg_ID t) && ((gr_state g ==? CacheVerified) || (gr_state g ==? CacheRetired)) && (gr_phase g ==? WriterFinished)
  && negb (existsb (fun p => (pn_key p ==? gr_key g) && live_pin p) (lg_pins l)).
Definition image_evictable (t : StorageTarget) (l : ledger) (i : image_row) : bool :=
  (image_scope (im_key i) ==? tg_Scope t) && (im_image i ==? tg_ID t) && ((im_state i ==? StateReady) || (im_state i ==? StateRetired)) && negb (image_pinned (im_key i) l).
Definition storageEligible (t : StorageTarget) (l : ledger) : result error bool :=
  throw negb (StorageTarget_Valid t) with store_ErrInvalid ;;
  match tg_Action t with
  | OrphanContainer | OrphanVolume | OrphanImage => do k <- storageKnownObject (tg_Scope t) (tg_Class t) (tg_ID t) (tg_Labels t) l ;; Ok (negb k)
  | EvictCache => Ok (existsb (evictable t l) (lg_generations l))
  | EvictImage => Ok (existsb (image_evictable t l) (lg_images l))
  | StorageActionOther _ => Err store_ErrInvalid
  end.

Definition one_changed (p : deletion_row -> bool) (l : ledger) : bool := count_where p (lg_deletions l) =? 1.
Definition BeginStorageCleanup (w : StorageWork) : txn ledger unit := fun now l =>
  throw negb (StorageWork_Valid w) || (sk_State w <>? "pending") with store_ErrInvalid ;;
  throw negb (storageLeaseCurrent w now l) with deletion_lost ;;
  do eligible <- storageEligible (sk_Target w) l ;;
  throw negb eligible with ineligible ;;
  let p d := (dl_operation d ==? ce_OperationID (sk_Lease w)) && (dl_status d ==? DeletionRunning) && (dl_result d ==? ResultPending) in
  do l' <- update_deletions p (fun d => set_deletion (dl_status d) ResultRunning "delete_intent_recorded" (FormatRFC3339Nano now) (dl_confirmed_scan d) d) l ;;
  throw negb (one_changed p l) with deletion_lost ;;
  Ok (tt, l').
End Orphans.

Definition release_reservations (p : reservation_row -> bool) (stamp : string) (l : ledger) : result error ledger :=
  do r <- update_where (reservation_update (lg_reservations l)) (fun r => p r && (rv_state r ==? ReservedCommitted))
    (fun r => mkReservationRow (rv_id r) (rv_scope r) (rv_class r) (rv_key r) (rv_bytes r) (rv_owner r) (rv_operation r) ReservedReleased (rv_created_at r) stamp) (lg_reservations l) ;;
  Ok (with_reservations l r).
Definition releaseDeletedStorageContent (t : StorageTarget) (now : Time) (l : ledger) : result error ledger :=
  let stamp := FormatRFC3339Nano now in
  match tg_Action t with
  | EvictCache =>
      let named g := (key_scope (gr_key g) ==? tg_Scope t) && (gr_volume g ==? tg_ID t) in
      match List.find named (lg_generations l) with
      | None => Err store_ErrUnavailable
      | Some g =>
          do l1 <- set_generations (fun old new => transition_trigger old new && retirement_trigger old new) (fun r => named r && (gr_state r ==? CacheVerified))
            (set_retired stamp "missing") l ;;
          release_reservations (fun r => reserves (tg_Scope t) ReserveCache (contentReservationKey (hk_SHA256 (gr_key g)) (hk_Bytes (gr_key g))) r && (rv_operation r ==? Some (gr_operation g))) stamp l1
      end
  | EvictImage =>
      let named i := (image_scope (im_key i) ==? tg_Scope t) && (im_image i ==? tg_ID t) in
      do l1 <- set_images (fun i => named i && (im_state i ==? StateReady)) (set_image_retired stamp "observed_missing") l ;;
      release_reservations (fun r => (rv_scope r ==? tg_Scope t) && (rv_class r ==? ReserveImage)
        && existsb (fun i => named i && (rv_operation r ==? Some (im_operation i))) (lg_images l1)) stamp l1
  | _ => Ok l
  end.
(** The latest complete scan of a scope, 0 without one. *)
Definition latest_complete (s : StorageScope) (l : ledger) : Z :=
  fold_left (fun m r => if (sn_scope r ==? s) && sn_complete r then Z.max m (sn_seq r) else m) (lg_scans l) 0.
Definition CompleteStorageCleanup (w : StorageWork) (o : DeleteOutcome) (reason : string) : txn ledger unit := fun now l =>
  match outcome_result o with
  | None => Err store_ErrInvalid
  | Some res =>
      throw negb (StorageWork_Valid w) || negb (ValidReason reason) with store_ErrInvalid ;;
      throw negb (storageLeaseCurrent w now l) with deletion_lost ;;
      let succeeded := (o ==? DeleteConfirmed) || (o ==? AbsentConfirmed) in
      let prior := if sk_State w ==? "running" then ResultRunning else ResultPending in
      let p d := (dl_operation d ==? ce_OperationID (sk_Lease w)) && (dl_status d ==? DeletionRunning) && ((dl_result d ==? prior) || (dl_result d ==? ResultRunning)) in
      do l1 <- update_deletions p
        (set_deletion (if succeeded then DeletionSucceeded else DeletionFailed) res reason (FormatRFC3339Nano now) (if succeeded then latest_complete (tg_Scope (sk_Target w)) l else 0)) l ;;
      throw negb (one_changed p l) with deletion_lost ;;
      do l2 <- (if succeeded then releaseDeletedStorageContent (sk_Target w) now l1 else Ok l1) ;;
      Ok (tt, with_deletions l2 (lg_deletions l2)
        (List.filter (fun x => negb ((dx_operation x ==? ce_OperationID (sk_Lease w)) && (dx_generation x =? ce_Generation (sk_Lease w)) && (dx_fence x ==? ce_Fence (sk_Lease w)))) (lg_leases l2)))
  end.
Definition RecordStorageCleanupReason (w : StorageWork) (reason : string) : txn ledger unit := fun now l =>
  throw negb (StorageWork_Valid w) || negb (ValidReason reason) with store_ErrInvalid ;;
  throw negb (storageLeaseCurrent w now l) with deletion_lost ;;
  let p d := (dl_operation d ==? ce_OperationID (sk_Lease w)) && (dl_status d ==? DeletionRunning) in
  do l' <- update_deletions p (fun d => set_deletion (dl_status d) (dl_result d) reason (FormatRFC3339Nano now) (dl_confirmed_scan d) d) l ;;
  throw negb (one_changed p l) with deletion_lost ;;
  Ok (tt, l').

(** A new deletion: unique by its operation and, in its workspace, by the
    key of its request, and the only open one of its target. *)
Definition same_target_object (a b : StorageTarget) : bool := (tg_Scope a ==? tg_Scope b) && (tg_Class a ==? tg_Class b) && (tg_ID a ==? tg_ID b).
Definition deletion_check (d : deletion_row) : bool :=
  (len (sp_MachineID (tg_Scope (dl_target d))) =? 64) && (len (sp_EngineID (tg_Scope (dl_target d))) =? 64) && (1 <=? len (tg_ID (dl_target d))) && (len (tg_ID (dl_target d)) <=? 255)
  && match tg_Class (dl_target d) with KindOther _ => false | _ => true end && match tg_Action (dl_target d) with StorageActionOther _ => false | _ => true end
  && (len (dg_fingerprint (dl_origin d)) =? 64) && (len (dg_key (dl_origin d)) =? 64) && (1 <=? len (dl_reason d)) && (len (dl_reason d) <=? 64).
Definition insert_deletion (d : deletion_row) (l : ledger) : result error ledger :=
  throw existsb (fun r => (dl_operation r ==? dl_operation d) || ((dl_workspace r ==? dl_workspace d) && (dg_key (dl_origin r) ==? dg_key (dl_origin d)))
          || (workable r && workable d && same_target_object (dl_target r) (dl_target d))) (lg_deletions l)
        || negb (deletion_check d) with store_ErrConflict ;;
  Ok (with_deletions l (lg_deletions l ++ [d]) (lg_leases l)).
