(* ===== verification/CacheLedgerProps.v ===== *)
(** * One writer, and no deletion under a pin

    Any interleaving of the transactions of the cache ledger and of the
    deletions on hosts, which may fail or commit unseen. A content key has one
    active generation; its writer is authorized once; another writer for the
    same content is authorized only after the first one is known to have
    ended and its generation was retired; and from the authorization of an
    eviction until its outcome is settled nothing pins the content. *)

From S2P Require Import Prelude GoStrings GoTime Identifiers Problems GoJson DomainRecords Operations ControlOps Provider ProviderResources Admission Scheduler Cleanup HostStorage StoreTx CacheLedger StorageDeletion.
#[local] Open Scope string_scope.
#[local] Open Scope list_scope.
#[local] Open Scope Z_scope.
#[local] Open Scope bool_scope.

(** ** Histories *)
Inductive ledger_request :=
  | LPin (a : CacheAttempt) (target : option frozenCacheTarget) (refs : list FrozenObject)
  | LRetry (oldAttempt newAttempt : CacheAttempt)
  | LReleaseLocal (a : CacheAttempt)
  | LReleaseCleanup (op : Operation) (resources : list ResourceWork)
  | LClaim (a : CacheAttempt) (k : CacheKey) (id op : string)
  | LBeginWrite (a : CacheAttempt) (id rid : string)
  | LFinishWrite (a : CacheAttempt) (id : string)
  | LVerify (o : CacheObservation)
  | LRetire (o : CacheObservation)
  | LMount (m : MountReceipt)
  | LAdmitDeletion (d : deletion_row)
  | LClaimDeletion (ttl : Duration) (fence : string)
  | LRenewDeletion (w : StorageWork) (ttl : Duration)
  | LBeginDeletion (w : StorageWork)
  | LCompleteDeletion (w : StorageWork) (o : DeleteOutcome) (reason : string)
  | LReasonDeletion (w : StorageWork) (reason : string)
  (* transactions of the other components: attempts, queue, resources, reservations, images and scans *)
  | LOther (other : ledger).

Section Environment.
Context (over_budget : StorageScope -> CacheAttempt -> Time -> ledger -> option error)
  (container_known : StorageScope -> string -> bool).

(** The answer of a deletion claim is the work; every other answer is empty. *)
Definition plain_txn {A} (f : txn ledger A) : txn ledger (option StorageWork) := fun now l => do p <- f now l ;; Ok (None, p.2).
Definition ledger_txn (q : ledger_request) : txn ledger (option StorageWork) :=
  match q with
  | LPin a target refs => plain_txn (pinHostCacheAdmission a target refs)
  | LRetry a b => plain_txn (pinHostCacheRetry a b)
  | LReleaseLocal a => plain_txn (releaseHostCachePinsWithoutPreparation a)
  | LReleaseCleanup op resources => plain_txn (releaseHostCachePinsOnCleanup op resources)
  | LClaim a k id op => plain_txn (cache_Claim a k id op)
  | LBeginWrite a id rid => plain_txn (cache_BeginWrite over_budget a id rid)
  | LFinishWrite a id => plain_txn (cache_FinishWrite a id)
  | LVerify o => plain_txn (cache_Verify o)
  | LRetire o => plain_txn (cache_Retire o)
  | LMount m => plain_txn (cache_RecordMount m)
  | LAdmitDeletion d => plain_txn (fun _ l => do l' <- insert_deletion d l ;; Ok (tt, l'))
  | LClaimDeletion ttl fence => ClaimStorageCleanup ttl fence
  | LRenewDeletion w ttl => plain_txn (RenewStorageCleanup w ttl)
  | LBeginDeletion w => plain_txn (BeginStorageCleanup container_known w)
  | LCompleteDeletion w o reason => plain_txn (CompleteStorageCleanup w o reason)
  | LReasonDeletion w reason => plain_txn (RecordStorageCleanupReason w reason)
  | LOther other => plain_txn (fun _ l => Ok (tt, with_generations (with_pins (with_mounts (with_deletions other (lg_deletions l) (lg_leases l)) (lg_mounts l)) (lg_pins l)) (lg_generations l)))
  end.

Inductive ledger_run : store ledger -> list ledger_request -> store ledger -> Prop :=
  | ledger_run_nil s : ledger_run s [] s
  | ledger_run_step how wall q s r s1 qs s2 :
      transact how wall (ledger_txn q) s = (r, s1) -> ledger_run s1 qs s2 -> ledger_run s (q :: qs) s2.

(** ** What a transaction changes *)
Definition same_generation (old new : gen_row) : Prop :=
  gr_id new = gr_id old /\ gr_key new = gr_key old /\ gr_volume new = gr_volume old /\ gr_operation new = gr_operation old /\ gr_owner new = gr_owner old.
(** A request that establishes the end of the writer of generation [id]. *)
Definition ends_writer (id : string) (q : ledger_request) : Prop :=
  match q with
  | LFinishWrite _ id' => id' = id
  | LVerify o => cn_GenerationID o = id /\ cn_WriterInactive o = true
  | _ => False
  end.
Inductive gen_change (q : ledger_request) (old new : gen_row) : Prop :=
  | gen_same : gr_state new = gr_state old -> gr_phase new = gr_phase old -> gen_change q old new
  | gen_begun : gr_state new = gr_state old -> gr_state old = CacheClaimed -> gr_phase old = WriterIntent -> gr_phase new = WriterBegun -> gen_change q old new
  | gen_finished : gr_state new = gr_state old -> gr_state old = CacheClaimed -> gr_phase old = WriterBegun -> gr_phase new = WriterFinished ->
      ends_writer (gr_id old) q -> gen_change q old new
  | gen_verified : gr_state old = CacheClaimed -> gr_state new = CacheVerified -> gr_phase old <> WriterIntent -> gr_phase new = WriterFinished ->
      ends_writer (gr_id old) q -> gen_change q old new
  | gen_retired : active old = true -> gr_phase old = WriterFinished -> gr_state new = CacheRetired -> gr_phase new = WriterFinished -> gen_change q old new.
Definition gen_step (q : ledger_request) (old new : gen_row) : Prop := same_generation old new /\ gen_change q old new.

Definition fresh_generation (gs : list gen_row) (r : gen_row) : Prop :=
  Forall (fun g => gr_id g <> gr_id r /\ gr_volume g <> gr_volume r /\ (active g = true -> gr_key g <> gr_key r)) gs.
Definition del_step (old new : deletion_row) : Prop :=
  dl_operation new = dl_operation old /\ dl_workspace new = dl_workspace old /\ dl_target new = dl_target old /\ (new = old \/ workable old = true).

Record ledger_change (q : ledger_request) (l l' : ledger) : Prop := mkLedgerChange {
  lc_generations : exists gs, Forall2 (gen_step q) (lg_generations l) gs /\
    (lg_generations l' = gs \/ exists r, lg_generations l' = gs ++ [r] /\ fresh_generation gs r);
  lc_deletions : exists ds, Forall2 del_step (lg_deletions l) ds /\
    (lg_deletions l' = ds \/ exists d, lg_deletions l' = ds ++ [d] /\ Forall (fun r => dl_operation r <> dl_operation d) ds);
  lc_pins : forall p', p' ∈ lg_pins l' -> live_pin p' = true ->
    (exists p, p ∈ lg_pins l /\ live_pin p = true /\ pn_key p = pn_key p') \/ storageContentFenced (pn_key p') l = false }.

Lemma gen_step_refl q g : gen_step q g g.
Proof. split; [done|]. by apply gen_same. Qed.
Lemma del_step_refl d : del_step d d.
Proof. repeat split; try done. by left. Qed.
Lemma Forall2_refl {A} (R : A -> A -> Prop) (l : list A) : (forall x, R x x) -> Forall2 R l l.
Proof. intros H. induction l; constructor; auto. Qed.

(** A transaction that keeps the three tables, up to what is listed. *)
Lemma change_kept q l l' :
  (exists gs, Forall2 (gen_step q) (lg_generations l) gs /\ (lg_generations l' = gs \/ exists r, lg_generations l' = gs ++ [r] /\ fresh_generation gs r)) ->
  (exists ds, Forall2 del_step (lg_deletions l) ds /\ (lg_deletions l' = ds \/ exists d, lg_deletions l' = ds ++ [d] /\ Forall (fun r => dl_operation r <> dl_operation d) ds)) ->
  lg_pins l' = lg_pins l -> ledger_change q l l'.
Proof. intros Hg Hd Hp. split; [done|done|]. rewrite Hp. intros p' Hin Hl. left. by exists p'. Qed.
Lemma gens_kept q l l' : lg_generations l' = lg_generations l ->
  exists gs, Forall2 (gen_step q) (lg_generations l) gs /\ (lg_generations l' = gs \/ exists r, lg_generations l' = gs ++ [r] /\ fresh_generation gs r).
Proof. intros ->. exists (lg_generations l). split; [apply Forall2_refl, gen_step_refl|by left]. Qed.
Lemma dels_kept l l' : lg_deletions l' = lg_deletions l ->
  exists ds, Forall2 del_step (lg_deletions l) ds /\ (lg_deletions l' = ds \/ exists d, lg_deletions l' = ds ++ [d] /\ Forall (fun r => dl_operation r <> dl_operation d) ds).
Proof. intros ->. exists (lg_deletions l). split; [apply Forall2_refl, del_step_refl|by left]. Qed.
Hint Resolve gens_kept dels_kept change_kept : ledger.

(** ** Statements *)
Lemma update_where_Ok {R} (ok : R -> R -> bool) p f (l l' : list R) :
  update_where ok p f l = Ok l' -> l' = map (fun r => if p r then f r else r) l /\ Forall (fun r => p r = true -> ok r (f r) = true) l.
Proof.
  unfold update_where. destruct (forallb _ l) eqn:E; [|done]. cbn. intros [= <-]. split; [done|].
  rewrite forallb_forall in E. apply Forall_forall. intros r Hr Hp. apply list_elem_of_In, E in Hr. rewrite Hp in Hr. exact Hr.
Qed.
Lemma update_where_Forall2 {R} (S : R -> R -> Prop) (ok : R -> R -> bool) p f (l l' : list R) :
  update_where ok p f l = Ok l' -> (forall r, S r r) -> (forall r, p r = true -> ok r (f r) = true -> S r (f r)) -> Forall2 S l l'.
Proof.
  intros H Hrefl Hstep. destruct (update_where_Ok _ _ _ _ _ H) as [-> Hok]. clear H.
  induction Hok as [|r l H _ IH]; constructor; [|done]. destruct (p r) eqn:E; auto.
Qed.
Lemma set_generations_Ok q ok p f l l' :
  set_generations ok p f l = Ok l' ->
  (forall r, p r = true -> ok r (f r) = true -> gen_check (f r) = true -> gen_step q r (f r)) ->
  Forall2 (gen_step q) (lg_generations l) (lg_generations l') /\ lg_deletions l' = lg_deletions l /\ lg_pins l' = lg_pins l.
Proof.
  unfold set_generations. destruct (update_where _ _ _ _) as [gs|] eqn:E; [|done]. cbn. intros [= <-] H. cbn. split; [|done].
  eapply update_where_Forall2; [exact E|apply gen_step_refl|]. intros r Hp [Hok Hck]%andb_true_iff. by apply H.
Qed.
Lemma update_deletions_Ok p f l l' :
  update_deletions p f l = Ok l' ->
  (forall d, dl_operation (f d) = dl_operation d /\ dl_workspace (f d) = dl_workspace d /\ dl_target (f d) = dl_target d) ->
  Forall2 del_step (lg_deletions l) (lg_deletions l') /\ lg_generations l' = lg_generations l /\ lg_pins l' = lg_pins l.
Proof.
  unfold update_deletions. destruct (update_where _ _ _ _) as [ds|] eqn:E; [|done]. cbn. intros [= <-] H. cbn. split; [|done].
  eapply update_where_Forall2; [exact E|apply del_step_refl|]. intros d _ Hok. destruct (H d) as (? & ? & ?). repeat split; try done.
  right. rewrite !andb_true_iff in Hok. by destruct Hok as [[[? _] _] _].
Qed.
Lemma insert_generation_Ok g l l' :
  insert_generation g l = Ok l' -> l' = with_generations l (lg_generations l ++ [g]) /\ (active g = true -> fresh_generation (lg_generations l) g).
Proof.
  unfold insert_generation. destruct (existsb _ _) eqn:E; [done|]. case_match; [done|]. intros [= <-]. split; [done|]. intros Ha.
  apply Forall_forall. intros r Hr. rewrite <- not_true_iff_false, existsb_exists in E.
  assert (forall b, In r (lg_generations l) -> b = ((gr_id r ==? gr_id g) || (gr_volume r ==? gr_volume g) || (gr_operation r ==? gr_operation g) || (active r && active g && (gr_key r ==? gr_key g))) -> b = true -> False) as Hno.
  { intros b Hin -> Hb. apply E. by exists r. }
  specialize (Hno _ (proj1 (list_elem_of_In _ _) Hr) eq_refl). rewrite !orb_true_iff, !andb_true_iff, !bool_decide_eq_true in Hno. naive_solver.
Qed.
Lemma insert_pin_Ok p l l' :
  insert_pin p l = Ok l' -> l' = with_pins l (lg_pins l ++ [p]) /\ storageContentFenced (pn_key p) l = false.
Proof. unfold insert_pin. destruct (storageContentFenced (pn_key p) l); [by rewrite orb_true_r|]. case_match; [done|]. by intros [= <-]. Qed.

(** Pinning changes nothing but pins, and pins nothing that is being deleted. *)
Record pins_grow (l l' : ledger) : Prop := mkPinsGrow {
  pg_generations : lg_generations l' = lg_generations l;
  pg_deletions : lg_deletions l' = lg_deletions l;
  pg_pins : forall p', p' ∈ lg_pins l' -> live_pin p' = true ->
    (exists p, p ∈ lg_pins l /\ live_pin p = true /\ pn_key p = pn_key p') \/ storageContentFenced (pn_key p') l = false }.
Lemma pins_grow_refl l : pins_grow l l.
Proof. split; try done. intros p Hp Hl. left. by exists p. Qed.
Lemma fenced_same k l l' : lg_generations l' = lg_generations l -> lg_deletions l' = lg_deletions l -> storageContentFenced k l' = storageContentFenced k l.
Proof. unfold storageContentFenced. by intros -> ->. Qed.
Lemma pins_grow_trans l1 l2 l3 : pins_grow l1 l2 -> pins_grow l2 l3 -> pins_grow l1 l3.
Proof.
  intros [G1 D1 P1] [G2 D2 P2]. split; [congruence|congruence|]. intros p' Hp Hl. destruct (P2 p' Hp Hl) as [(p & Hp2 & Hl2 & Hk)|Hf].
  - destruct (P1 p Hp2 Hl2) as [(p1 & ? & ? & Hk1)|Hf]; [left; exists p1; naive_solver congruence|right; by rewrite <- Hk].
  - right. by rewrite <- Hf, (fenced_same _ l1 l2).
Qed.
Lemma insert_pin_grow p l l' : insert_pin p l = Ok l' -> pins_grow l l'.
Proof.
  intros (-> & Hf)%insert_pin_Ok. split; try done. intros p' Hp Hl. cbn in Hp. apply elem_of_app in Hp as [Hp| ->%list_elem_of_singleton]; [|by right].
  left. by exists p'.
Qed.
Lemma insert_pins_grow ps l l' : insert_pins ps l = Ok l' -> pins_grow l l'.
Proof.
  revert l. induction ps as [|p ps IH]; intros l; cbn; [intros [= <-]; apply pins_grow_refl|].
  destruct (insert_pin p l) as [l1|] eqn:E; [|done]. cbn. intros H. eapply pins_grow_trans; [by eapply insert_pin_grow|by apply IH].
Qed.
Lemma pin_objects_grow a t now seen refs l l' : pin_objects a t now seen refs l = Ok l' -> pins_grow l l'.
Proof.
  revert seen l. induction refs as [|ref refs IH]; intros seen l; cbn [pin_objects]; [intros [= <-]; apply pins_grow_refl|].
  cbv zeta. case_match; [apply IH|]. case_match; [done|]. destruct (insert_pin _ l) as [l1|] eqn:E; [|done]. cbn [result_bind].
  intros H'. eapply pins_grow_trans; [by eapply insert_pin_grow|by eapply IH].
Qed.
Lemma release_pins_grow a now l l' : release_pins a now l = Ok l' -> pins_grow l l'.
Proof.
  unfold release_pins. destruct (update_where _ _ _ _) as [ps|] eqn:E; [|done]. cbn [result_bind]. intros [= <-]. split; try done. cbn.
  intros p' Hp Hl. left. destruct (update_where_Ok _ _ _ _ _ E) as [-> Hok]. apply list_elem_of_fmap in Hp as (p & -> & Hp).
  exists p. split; [done|]. destruct (_ && live_pin p) eqn:Ep; [|done]. apply andb_true_iff in Ep as [_ ?]. done.
Qed.
Lemma pins_grow_change q l l' : pins_grow l l' -> ledger_change q l l'.
Proof. intros [G D P]. split; [by apply gens_kept|by apply dels_kept|done]. Qed.

(** Reservations change none of the three tables. *)
Definition same_tables (l l' : ledger) : Prop := lg_generations l' = lg_generations l /\ lg_deletions l' = lg_deletions l /\ lg_pins l' = lg_pins l.
Lemma same_tables_change q l l' : same_tables l l' -> ledger_change q l l'.
Proof. intros (G & D & P). apply change_kept; [by apply gens_kept|by apply dels_kept|done]. Qed.
Lemma commitStorageReservation_Ok s class sha bytes op rid now l a l' : commitStorageReservation over_budget s class sha bytes op rid now l = Ok (a, l') -> same_tables l l'.
Proof.
  unfold commitStorageReservation. case_match; [done|]. case_match; [by intros [= <- <-]|]. case_match.
  - destruct (commit_reservation _ _ _ _) as [l1|] eqn:E; [|done]. cbn [result_bind]. intros [= <- <-]. revert E.
    unfold commit_reservation. destruct (update_where _ _ _ _); [|done]. cbn [result_bind]. case_match; [done|]. by intros [= <-].
  - unfold reserveReplacementStorage. case_match; [by intros [= <- <-]|]. destruct (mutation_owner _ _ _); [|done]. cbv zeta.
    destruct (insert_reservation _ _) as [l1|] eqn:E; [|done]. cbn [result_bind]. destruct (over_budget _ _ _ _); [done|]. intros [= <- <-]. revert E.
    unfold insert_reservation. case_match; [done|]. by intros [= <-].
Qed.
Lemma release_reservations_Ok p stamp l l' : release_reservations p stamp l = Ok l' -> same_tables l l'.
Proof. unfold release_reservations. destruct (update_where _ _ _ _); [|done]. cbn [result_bind]. by intros [= <-]. Qed.

Lemma cacheGeneration_Ok id l g :
  cacheGeneration id l = Ok g ->
  exists r, r ∈ lg_generations l /\ gr_id r = id /\ gn_ID g = id /\ gn_Key g = gr_key r /\ gn_State g = gr_state r /\ gn_WriterPhase g = gr_phase r /\ gn_Owner g = gr_owner r.
Proof.
  unfold cacheGeneration. destruct (List.find _ _) as [r|] eqn:E; [|done]. apply List.find_some in E as [Hin Hid]. apply bool_decide_eq_true in Hid.
  unfold scanned_generation, scanCacheGeneration. intros H. exists r. split; [by apply list_elem_of_In|]. split; [done|]. revert H.
  destruct (ParseRFC3339 _); [|done]. cbn. destruct (optional_time (gr_verified_at r)); [|done]. cbn. destruct (optional_time (gr_last_used_at r)); [|done]. cbn.
  destruct (Generation_Valid _); [|done]. intros [= <-]. done.
Qed.
Lemma gens_change q l l' :
  Forall2 (gen_step q) (lg_generations l) (lg_generations l') /\ lg_deletions l' = lg_deletions l /\ lg_pins l' = lg_pins l -> ledger_change q l l'.
Proof. intros (G & D & P). apply change_kept; [eauto|by apply dels_kept|done]. Qed.

Ltac rows := repeat match goal with
  | H : _ && _ = true |- _ => apply andb_true_iff in H as [? ?]
  | H : bool_decide _ = true |- _ => apply bool_decide_eq_true in H
  | H : negb (bool_decide _) = true |- _ => apply negb_true_iff, bool_decide_eq_false in H
  | H : _ /\ _ |- _ => destruct H
  end.
Lemma writer_step q phase r :
  writer_trigger r (set_phase phase r) = true -> (phase = WriterFinished -> ends_writer (gr_id r) q) -> gen_step q r (set_phase phase r).
Proof.
  unfold writer_trigger. intros [Hc [H|H]%orb_true_iff]%andb_true_iff He; rows; cbn in *; (split; [done|]).
  - by apply gen_begun.
  - apply gen_finished; auto.
Qed.
Lemma retire_step q stamp reason r :
  transition_trigger r (set_retired stamp reason r) && retirement_trigger r (set_retired stamp reason r) = true ->
  gen_check (set_retired stamp reason r) = true -> gen_step q r (set_retired stamp reason r).
Proof.
  intros [_ Hr]%andb_true_iff Hck. unfold retirement_trigger in Hr. rows. split; [done|].
  assert (gr_phase r = WriterFinished) as Hp.
  { unfold gen_check in Hck. rows. cbn in *. match goal with H : _ || (gr_phase r ==? WriterFinished) = true |- _ => apply orb_true_iff in H as [?|?] end; rows; done. }
  by apply gen_retired.
Qed.
Lemma Matches_inactive o g : Observation_Matches o g = true -> cn_WriterInactive o = true.
Proof. unfold Observation_Matches. destruct (cn_WriterInactive o); [done|]. cbn. by rewrite orb_true_r. Qed.

Ltac txn_open := match goal with
  | |- (if ?c then Err _ else _) = Ok _ -> _ => destruct c eqn:?; [done|]
  | |- result_bind ?r _ = Ok _ -> _ => destruct r as [?x|?e] eqn:?; [cbn [result_bind]|done]
  end.

Lemma BeginWrite_change a id rid now l x l' :
  cache_BeginWrite over_budget a id rid now l = Ok (x, l') -> ledger_change (LBeginWrite a id rid) l l'.
Proof.
  unfold cache_BeginWrite. repeat txn_open. destruct x1 as [u l1]. intros [= _ <-].
  match goal with H : commitStorageReservation _ _ _ _ _ _ _ _ _ = Ok _ |- _ => apply commitStorageReservation_Ok in H as (G & D & P) end.
  match goal with H : set_generations _ _ _ _ = Ok _ |- _ => eapply (set_generations_Ok (LBeginWrite a id rid)) in H as (G2 & D2 & P2) end.
  - apply gens_change. cbn in *. rewrite <- G. split; [done|]. split; congruence.
  - intros r Hp Hw _. by apply writer_step.
Qed.
Lemma FinishWrite_change a id now l x l' : cache_FinishWrite a id now l = Ok (x, l') -> ledger_change (LFinishWrite a id) l l'.
Proof.
  unfold cache_FinishWrite. do 3 txn_open. destruct (_ ==? WriterFinished); [intros [= _ <-]; by apply same_tables_change|]. repeat txn_open. intros [= _ <-].
  match goal with H : cacheGeneration _ _ = Ok _ |- _ => destruct (cacheGeneration_Ok _ _ _ H) as (r & _ & _ & Hid & _) end.
  match goal with H : set_generations _ _ _ _ = Ok _ |- _ => eapply (set_generations_Ok (LFinishWrite a id)) in H end; [by apply gens_change|].
  intros g Hp Hw _. apply writer_step; [done|]. intros _. rows. cbn. congruence.
Qed.
Lemma Verify_change o now l x l' : cache_Verify o now l = Ok (x, l') -> ledger_change (LVerify o) l l'.
Proof.
  unfold cache_Verify. do 3 txn_open. destruct (gn_State x0 ==? CacheVerified); [intros [= _ <-]; by apply same_tables_change|]. repeat txn_open. intros [= _ <-].
  match goal with H : cacheGeneration _ _ = Ok _ |- _ => destruct (cacheGeneration_Ok _ _ _ H) as (r & _ & _ & Hid & _) end.
  match goal with H : set_generations _ _ _ _ = Ok _ |- _ => eapply (set_generations_Ok (LVerify o)) in H end; [by apply gens_change|].
  intros g Hp Hok _. split; [done|]. rows. apply gen_verified; [done|done| |done|].
  - destruct (gn_WriterPhase x0 ==? WriterBegun); congruence.
  - split; [congruence|]. apply Matches_inactive with x0. by apply negb_false_iff.
Qed.
Lemma Retire_change o now l x l' : cache_Retire o now l = Ok (x, l') -> ledger_change (LRetire o) l l'.
Proof.
  unfold cache_Retire. do 3 txn_open. destruct (gn_State x0 ==? CacheRetired); [intros [= _ <-]; by apply same_tables_change|]. repeat txn_open. intros [= _ <-].
  match goal with H : set_generations _ _ _ _ = Ok _ |- _ => eapply (set_generations_Ok (LRetire o)) in H end; [by apply gens_change|].
  intros g Hp Hok Hck. by apply retire_step.
Qed.
Lemma RecordMount_change m now l x l' : cache_RecordMount m now l = Ok (x, l') -> ledger_change (LMount m) l l'.
Proof.
  unfold cache_RecordMount. repeat txn_open. destruct (List.find _ _); repeat txn_open; intros [= _ <-]; [by apply same_tables_change|].
  match goal with H : insert_mount _ _ = Ok ?l1 |- _ => assert (same_tables l l1) as (G & D & P) by (revert H; unfold insert_mount; case_match; [done|]; by intros [= <-]) end.
  match goal with H : set_generations _ _ _ _ = Ok _ |- _ => eapply (set_generations_Ok (LMount m)) in H as (G2 & D2 & P2) end.
  - apply gens_change. rewrite <- G. split; [done|]. split; congruence.
  - intros g _ _ _. split; [done|]. by apply gen_same.
Qed.
Lemma Claim_change a k id op now l x l' : cache_Claim a k id op now l = Ok (x, l') -> ledger_change (LClaim a k id op) l l'.
Proof.
  unfold cache_Claim. repeat txn_open. destruct x0 as [g|]; [intros [= _ <-]; by apply same_tables_change|]. repeat txn_open. intros [= _ <-].
  match goal with H : insert_generation _ _ = Ok _ |- _ => apply insert_generation_Ok in H as [-> Hf] end.
  apply change_kept; [|by apply dels_kept|done]. exists (lg_generations l). split; [apply Forall2_refl, gen_step_refl|]. right. eexists. split; [done|]. by apply Hf.
Qed.

(** ** Deletions *)
Lemma dels_change q l l' :
  Forall2 del_step (lg_deletions l) (lg_deletions l') /\ lg_generations l' = lg_generations l /\ lg_pins l' = lg_pins l -> ledger_change q l l'.
Proof. intros (D & G & P). apply change_kept; [by apply gens_kept|eauto|done]. Qed.
Lemma put_lease_Ok x l l' : put_lease x l = Ok l' -> same_tables l l'.
Proof. unfold put_lease. case_match; [done|]. by intros [= <-]. Qed.
Lemma ClaimDeletion_change ttl fence now l x l' : ClaimStorageCleanup ttl fence now l = Ok (x, l') -> ledger_change (LClaimDeletion ttl fence) l l'.
Proof.
  unfold ClaimStorageCleanup. txn_open. destruct (merge_sort _ _) as [|d ?]; [intros [= _ <-]; by apply same_tables_change|]. cbv zeta. repeat txn_open. intros [= _ <-].
  match goal with H : put_lease _ _ = Ok _ |- _ => apply put_lease_Ok in H as (G & D & P) end.
  match goal with H : update_deletions _ _ _ = Ok _ |- _ => apply update_deletions_Ok in H as (D2 & G2 & P2); [|done] end.
  apply dels_change. rewrite <- D. split; [done|]. split; congruence.
Qed.
Lemma BeginDeletion_change w now l x l' : BeginStorageCleanup container_known w now l = Ok (x, l') -> ledger_change (LBeginDeletion w) l l'.
Proof.
  unfold BeginStorageCleanup. cbv zeta. repeat txn_open. intros [= _ <-].
  match goal with H : update_deletions _ _ _ = Ok _ |- _ => apply update_deletions_Ok in H; [|done] end. by apply dels_change.
Qed.
Lemma ReasonDeletion_change w reason now l x l' : RecordStorageCleanupReason w reason now l = Ok (x, l') -> ledger_change (LReasonDeletion w reason) l l'.
Proof.
  unfold RecordStorageCleanupReason. cbv zeta. repeat txn_open. intros [= _ <-].
  match goal with H : update_deletions _ _ _ = Ok _ |- _ => apply update_deletions_Ok in H; [|done] end. by apply dels_change.
Qed.
Lemma releaseDeleted_Ok q t now l l' :
  releaseDeletedStorageContent t now l = Ok l' -> Forall2 (gen_step q) (lg_generations l) (lg_generations l') /\ lg_deletions l' = lg_deletions l /\ lg_pins l' = lg_pins l.
Proof.
  unfold releaseDeletedStorageContent. cbv zeta. destruct (tg_Action t); try (intros [= <-]; split; [apply Forall2_refl, gen_step_refl|done]).
  - destruct (List.find _ _) as [g|]; [|done]. txn_open. intros (G & D & P)%release_reservations_Ok.
    match goal with H : set_generations _ _ _ _ = Ok _ |- _ => eapply (set_generations_Ok q) in H as (G2 & D2 & P2) end.
    + rewrite G. split; [done|]. split; congruence.
    + intros r _ Hok Hck. by apply retire_step.
  - txn_open. intros (G & D & P)%release_reservations_Ok. assert (same_tables l x) as (G2 & D2 & P2).
    { revert Heqr. unfold set_images. destruct (update_where _ _ _ _); [|done]. cbn [result_bind]. by intros [= <-]. }
    rewrite G, G2. split; [apply Forall2_refl, gen_step_refl|]. split; congruence.
Qed.
Lemma CompleteDeletion_change w o reason now l x l' :
  CompleteStorageCleanup w o reason now l = Ok (x, l') -> ledger_change (LCompleteDeletion w o reason) l l'.
Proof.
  unfold CompleteStorageCleanup. destruct (outcome_result o); [|done]. cbv zeta. repeat txn_open. intros [= _ <-].
  match goal with H : update_deletions _ _ _ = Ok ?l1 |- _ => apply update_deletions_Ok in H as (D & G & P); [|done] end.
  assert (Forall2 (gen_step (LCompleteDeletion w o reason)) (lg_generations x0) (lg_generations x1) /\ lg_deletions x1 = lg_deletions x0 /\ lg_pins x1 = lg_pins x0) as (G2 & D2 & P2).
  { match goal with H : (if ?b then _ else _) = Ok x1 |- _ => destruct b; [by eapply releaseDeleted_Ok|injection H as <-] end. split; [apply Forall2_refl, gen_step_refl|done]. }
  apply change_kept; cbn.
  - exists (lg_generations x1). rewrite <- G. split; [done|by left].
  - exists (lg_deletions x1). rewrite D2. split; [done|by left].
  - congruence.
Qed.
Lemma insert_deletion_Ok d l l' :
  insert_deletion d l = Ok l' -> l' = with_deletions l (lg_deletions l ++ [d]) (lg_leases l) /\ Forall (fun r => dl_operation r <> dl_operation d) (lg_deletions l).
Proof.
  unfold insert_deletion. destruct (existsb _ _) eqn:E; [done|]. cbn [orb]. destruct (negb _); [done|]. intros [= <-]. split; [done|]. apply Forall_forall. intros r Hr Heq.
  rewrite <- not_true_iff_false, existsb_exists in E. apply E. exists r. split; [by apply list_elem_of_In|]. by rewrite Heq, bool_decide_eq_true_2.
Qed.

(** ** Every transaction *)
Lemma plain_Ok {A} (f : txn ledger A) now l x l' : plain_txn f now l = Ok (x, l') -> exists a, f now l = Ok (a, l').
Proof. unfold plain_txn. destruct (f now l) as [[a l1]|]; [|done]. cbn. intros [= _ <-]. by exists a. Qed.
Lemma ledger_txn_change q now l x l' : ledger_txn q now l = Ok (x, l') -> ledger_change q l l'.
Proof.
  destruct q; cbn [ledger_txn]; try (intros (u & H)%plain_Ok).
  - unfold pinHostCacheAdmission in H. destruct target as [t|]; [|injection H as _ <-; by apply same_tables_change]. revert H. txn_open.
    intros [= _ <-]. by eapply pins_grow_change, pin_objects_grow.
  - revert H. unfold pinHostCacheRetry. repeat txn_open. intros [= _ <-]. by eapply pins_grow_change, insert_pins_grow.
  - revert H. unfold releaseHostCachePinsWithoutPreparation. destruct (List.find _ _) as [[? barrier]|]; [|done]. repeat txn_open. intros [= _ <-].
    by eapply pins_grow_change, release_pins_grow.
  - revert H. unfold releaseHostCachePinsOnCleanup. cbv zeta. destruct (bool_decide _); [intros [= _ <-]; by apply same_tables_change|]. txn_open. destruct x0 as [rw|]; [|done].
    txn_open. destruct (dec_container _) as [[id engine]|]; [|done]. repeat txn_open. intros [= _ <-]. by eapply pins_grow_change, release_pins_grow.
  - by eapply Claim_change.
  - by eapply BeginWrite_change.
  - by eapply FinishWrite_change.
  - by eapply Verify_change.
  - by eapply Retire_change.
  - by eapply RecordMount_change.
  - revert H. txn_open. intros [= _ <-]. destruct (insert_deletion_Ok _ _ _ Heqr) as [-> Hf]. apply change_kept; [by apply gens_kept| |done].
    exists (lg_deletions l). split; [apply Forall2_refl, del_step_refl|]. right. by exists d.
  - apply ClaimDeletion_change.
  - revert H. unfold RenewStorageCleanup. repeat txn_open. intros [= _ <-]. by apply same_tables_change.
  - by eapply BeginDeletion_change.
  - by eapply CompleteDeletion_change.
  - by eapply ReasonDeletion_change.
  - injection H as _ <-. by apply same_tables_change.
Qed.
Lemma ledger_change_refl q l : ledger_change q l l.
Proof. by apply same_tables_change. Qed.
Lemma transact_change how wall q s r s' : transact how wall (ledger_txn q) s = (r, s') -> ledger_change q (so_tables s) (so_tables s').
Proof.
  intros H. destruct (transact_inv _ _ _ _ _ _ H) as [[-> _]|(x & Hw & _)]; [apply ledger_change_refl|].
  destruct (write_Ok _ _ _ _ _ Hw) as (now & _ & _ & _ & Hf & _). by eapply ledger_txn_change.
Qed.

(** ** The invariant of the tables *)
Record ledger_ok (l : ledger) : Prop := mkLedgerOk {
  ok_ids : NoDup (map gr_id (lg_generations l));
  ok_volumes : NoDup (map gr_volume (lg_generations l));
  ok_active : NoDup (map gr_key (List.filter active (lg_generations l)));
  ok_operations : NoDup (map dl_operation (lg_deletions l)) }.

Lemma active_back q old new : gen_step q old new -> active new = true -> active old = true.
Proof.
  intros [_ [Hs _|Hs Hc _ _|Hs Hc _ _ _|Hc Hn _ _ _|Ha _ _ _]]; unfold active; rewrite ?Hs, ?Hc, ?Hn; done.
Qed.
Lemma Forall2_map_eq {A B} (R : A -> A -> Prop) (f : A -> B) l l' : Forall2 R l l' -> (forall x y, R x y -> f y = f x) -> map f l' = map f l.
Proof. intros H Hf. induction H as [|x y l l' Hxy _ IH]; [done|]. cbn. by rewrite IH, (Hf x y). Qed.
Lemma active_sublist q gs gs' : Forall2 (gen_step q) gs gs' -> map gr_key (List.filter active gs') `sublist_of` map gr_key (List.filter active gs).
Proof.
  induction 1 as [|x y gs gs' Hxy _ IH]; [done|]. cbn. destruct (active y) eqn:Ey.
  - rewrite (active_back q x y Hxy Ey). cbn. destruct Hxy as [(_ & -> & _) _]. by apply sublist_skip.
  - destruct (active x); cbn; [by apply sublist_cons|done].
Qed.
Lemma NoDup_snoc {A} (l : list A) x : NoDup l -> x ∉ l -> NoDup (l ++ [x]).
Proof. intros Hl Hx. apply NoDup_app. split; [done|]. split; [intros y Hy ->%list_elem_of_singleton; done|apply NoDup_singleton]. Qed.
Lemma not_in_map {A B} (f : A -> B) l x : Forall (fun y => f y <> f x) l -> f x ∉ map f l.
Proof. intros H (y & Hy & Hin)%list_elem_of_fmap. rewrite Forall_forall in H. by apply (H y Hin). Qed.

Lemma ledger_ok_step q l l' : ledger_ok l -> ledger_change q l l' -> ledger_ok l'.
Proof.
  intros [I V A D] [(gs & Hgs & Hg) (ds & Hds & Hd) _].
  assert (map gr_id gs = map gr_id (lg_generations l)) as EI by (eapply Forall2_map_eq; [done|]; by intros x y [(? & _) _]).
  assert (map gr_volume gs = map gr_volume (lg_generations l)) as EV by (eapply Forall2_map_eq; [done|]; by intros x y [(_ & _ & ? & _) _]).
  assert (map dl_operation ds = map dl_operation (lg_deletions l)) as ED by (eapply Forall2_map_eq; [done|]; by intros x y (? & _)).
  assert (NoDup (map gr_key (List.filter active gs))) as NA by (eapply sublist_NoDup; [exact A|by eapply active_sublist]).
  assert (NoDup (map gr_id (lg_generations l')) /\ NoDup (map gr_volume (lg_generations l')) /\ NoDup (map gr_key (List.filter active (lg_generations l')))) as (? & ? & ?).
  { destruct Hg as [->|(r & -> & Hf)]; [rewrite EI, EV; done|]. unfold fresh_generation in Hf. rewrite !map_app, List.filter_app, map_app. repeat split.
    - apply NoDup_snoc; [by rewrite EI|]. apply not_in_map. eapply Forall_impl; [exact Hf|]. naive_solver.
    - apply NoDup_snoc; [by rewrite EV|]. apply not_in_map. eapply Forall_impl; [exact Hf|]. naive_solver.
    - cbn. destruct (active r); [|by rewrite app_nil_r]. apply NoDup_snoc; [done|]. intros (y & Hy & Hin)%list_elem_of_fmap.
      apply list_elem_of_In, List.filter_In in Hin as [Hin Ha]. rewrite Forall_forall in Hf. destruct (Hf y) as (_ & _ & Hk); [by apply list_elem_of_In|]. by apply Hk. }
  split; try done. destruct Hd as [->|(d & -> & Hf)]; [by rewrite ED|]. rewrite map_app. apply NoDup_snoc; [by rewrite ED|]. by apply not_in_map.
Qed.
Lemma ledger_run_ok s qs s' : ledger_run s qs s' -> ledger_ok (so_tables s) -> ledger_ok (so_tables s').
Proof. induction 1 as [|how wall q s r s1 qs s2 Ht _ IH]; [done|]. intros H. apply IH. eapply ledger_ok_step; [done|by eapply transact_change]. Qed.

(** Rows keep their place and identity. *)
Lemma gens_follow q l l' r : ledger_change q l l' -> r ∈ lg_generations l -> exists r', r' ∈ lg_generations l' /\ gen_step q r r'.
Proof.
  intros [(gs & Hgs & Hg) _ _] Hr. apply list_elem_of_lookup in Hr as (i & Hi). destruct (Forall2_lookup_l _ _ _ _ _ Hgs Hi) as (r' & Hr' & Hs).
  exists r'. split; [|done]. apply list_elem_of_lookup_2 in Hr'. destruct Hg as [->|(x & -> & _)]; [done|]. apply elem_of_app. by left.
Qed.
Lemma NoDup_map_inj {A B} (f : A -> B) l x y : NoDup (map f l) -> x ∈ l -> y ∈ l -> f x = f y -> x = y.
Proof.
  intros Hn (i & Hi)%list_elem_of_lookup (j & Hj)%list_elem_of_lookup Hf. assert (i = j) as ->; [|congruence].
  eapply NoDup_lookup; [exact Hn|rewrite list_lookup_fmap, Hi; done|]. rewrite list_lookup_fmap, Hj. cbn. by rewrite Hf.
Qed.

(** ** One writer *)
Lemma BeginWrite_granted a id rid now l x l' :
  cache_BeginWrite over_budget a id rid now l = Ok (x, l') ->
  exists r, r ∈ lg_generations l /\ gr_id r = id /\ gr_state r = CacheClaimed /\ gr_phase r = WriterIntent /\ set_phase WriterBegun r ∈ lg_generations l'.
Proof.
  unfold cache_BeginWrite. repeat txn_open. destruct x1 as [u l1]. intros [= _ <-].
  match goal with H : cacheGeneration _ _ = Ok _ |- _ => destruct (cacheGeneration_Ok _ _ _ H) as (r & Hr & Hid & Hgid & Hk & Hst & Hph & Hown) end.
  exists r. split; [done|]. split; [done|].
  match goal with H : _ || (gn_State x0 <>? CacheClaimed) = false |- _ => apply orb_false_iff in H as [_ Hs]; apply negb_false_iff, bool_decide_eq_true in Hs end.
  match goal with H : (gn_WriterPhase x0 <>? WriterIntent) = false |- _ => apply negb_false_iff, bool_decide_eq_true in H as Hp end.
  split; [congruence|]. split; [congruence|].
  match goal with H : commitStorageReservation _ _ _ _ _ _ _ _ _ = Ok _ |- _ => apply commitStorageReservation_Ok in H as (G & _ & _) end.
  match goal with H : set_generations _ _ _ _ = Ok _ |- _ => revert H end. unfold set_generations. destruct (update_where _ _ _ _) as [gs|] eqn:E; [|done]. cbn. intros [= <-]. cbn.
  destruct (update_where_Ok _ _ _ _ _ E) as [-> _]. apply list_elem_of_fmap. exists r. cbn. rewrite G. split; [|done].
  rewrite !bool_decide_eq_true_2 by congruence. done.
Qed.

(** What becomes of a generation whose writer was authorized. *)
Definition written (r : gen_row) (qs : list ledger_request) (l : ledger) : Prop :=
  exists r', r' ∈ lg_generations l /\ same_generation r r' /\
    (gr_state r' = CacheClaimed /\ gr_phase r' = WriterBegun \/ gr_phase r' = WriterFinished /\ exists q, q ∈ qs /\ ends_writer (gr_id r) q).
Lemma same_generation_trans a b c : same_generation a b -> same_generation b c -> same_generation a c.
Proof. unfold same_generation. intuition congruence. Qed.
Lemma written_run r s qs s' pre : ledger_run s qs s' -> written r pre (so_tables s) -> written r (pre ++ qs) (so_tables s').
Proof.
  intros H. revert pre. induction H as [s|how wall q s res s1 qs s2 Ht _ IH]; intros pre; [by rewrite app_nil_r|]. intros (r1 & Hr1 & Hs1 & Hw).
  replace (pre ++ q :: qs) with ((pre ++ [q]) ++ qs) by by rewrite <- app_assoc. apply IH.
  destruct (gens_follow _ _ _ _ (transact_change _ _ _ _ _ _ Ht) Hr1) as (r2 & Hr2 & Hs2 & Hc). exists r2. split; [done|]. split; [by eapply same_generation_trans|].
  destruct Hs1 as (Eid & _). destruct Hw as [[Hst Hph]|[Hph (q' & Hq' & He)]].
  - destruct Hc as [Es Ep|Es _ Ei _|Es _ _ Ef He|_ _ _ Ef He|_ Ef _ _]; rewrite ?Hph in *; try congruence.
    + left. split; congruence.
    + right. split; [done|]. exists q. split; [set_solver|congruence].
    + right. split; [done|]. exists q. split; [set_solver|congruence].
  - right. split; [|exists q'; split; [set_solver|done]].
    destruct Hc as [Es Ep|Es _ Ei _|Es _ Ei _ _|_ _ _ Ef _|_ Ef _ Ef']; congruence.
Qed.

(** C4: a host cache never has two writers for the same
    content. Starting from tables that respect their keys, if the writer of a
    generation is authorized and, later in any interleaving of transactions,
    a writer of the same content is authorized again, then it belongs to
    another generation, and before that the first writer was reported or
    observed to have ended and its generation left the active state. In
    particular no generation's writer is ever authorized twice. *)
Theorem exclusive_writer h1 w1 a1 g1 rid1 x1 s0 s1 qs s2 h2 w2 a2 g2 rid2 x2 s3 r1 r2 :
  ledger_ok (so_tables s0) ->
  transact h1 w1 (ledger_txn (LBeginWrite a1 g1 rid1)) s0 = (Ok x1, s1) ->
  ledger_run s1 qs s2 ->
  transact h2 w2 (ledger_txn (LBeginWrite a2 g2 rid2)) s2 = (Ok x2, s3) ->
  r1 ∈ lg_generations (so_tables s2) -> gr_id r1 = g1 ->
  r2 ∈ lg_generations (so_tables s2) -> gr_id r2 = g2 ->
  gr_key r1 = gr_key r2 ->
  g1 <> g2 /\ active r1 = false /\ gr_phase r1 = WriterFinished /\ exists q, q ∈ qs /\ ends_writer g1 q.
Proof.
  intros Hok H1 Hrun H2 Hr1 Hid1 Hr2 Hid2 Hkey.
  assert (ledger_ok (so_tables s1)) as Hok1 by (eapply ledger_ok_step; [done|by eapply transact_change]).
  pose proof (ledger_run_ok _ _ _ Hrun Hok1) as [I _ A _].
  destruct (transact_Ok _ _ _ _ _ _ H1) as (now1 & (u1 & G1)%plain_Ok). destruct (BeginWrite_granted _ _ _ _ _ _ _ G1) as (b & _ & Hbid & Hbs & _ & Hb).
  destruct (transact_Ok _ _ _ _ _ _ H2) as (now2 & (u2 & G2)%plain_Ok). destruct (BeginWrite_granted _ _ _ _ _ _ _ G2) as (c & Hc & Hcid & Hcs & Hcp & _).
  assert (c = r2) as -> by (eapply NoDup_map_inj; [exact I|done|done|congruence]).
  assert (written (set_phase WriterBegun b) [] (so_tables s1)) as Hw by (exists (set_phase WriterBegun b); split; [done|]; split; [done|]; by left).
  apply (written_run _ _ _ _ _ Hrun) in Hw as (r' & Hr' & (Eid & _) & Hw). cbn in Eid.
  assert (r' = r1) as -> by (eapply NoDup_map_inj; [exact I|done|done|congruence]).
  assert (gr_phase r1 <> WriterIntent) as Hni by (destruct Hw as [[_ ->]|[-> _]]; done).
  assert (g1 <> g2) as Hne. { intros E. apply Hni. replace r1 with r2; [done|]. eapply NoDup_map_inj; [exact I|done|done|congruence]. }
  assert (active r1 = false) as Hna.
  { destruct (active r1) eqn:Ea; [|done]. exfalso. apply Hne. rewrite <- Hid1, <- Hid2. f_equal. eapply (NoDup_map_inj gr_key); [exact A|..]; [| |done];
      apply list_elem_of_In, List.filter_In; (split; [by apply list_elem_of_In|]); [done|]. unfold active. by rewrite Hcs. }
  split; [done|]. split; [done|]. destruct Hw as [[Hst _]|[Hph (q & Hq & He)]]; [unfold active in Hna; by rewrite Hst in Hna|].
  split; [done|]. exists q. split; [done|]. cbn in He. congruence.
Qed.

(** ** No pin under a deletion *)
Lemma deletion_back q l l' d' :
  ledger_change q l l' -> d' ∈ lg_deletions l' ->
  (exists d, d ∈ lg_deletions l /\ del_step d d') \/ Forall (fun d => dl_operation d <> dl_operation d') (lg_deletions l).
Proof.
  intros [_ (ds & Hds & Hd) _] Hin.
  assert (d' ∈ ds -> exists d, d ∈ lg_deletions l /\ del_step d d') as Hback.
  { intros (i & Hi)%list_elem_of_lookup. destruct (Forall2_lookup_r _ _ _ _ _ Hds Hi) as (d & Hd' & Hs). exists d. split; [by eapply list_elem_of_lookup_2|done]. }
  destruct Hd as [E|(x & E & Hf)]; rewrite E in Hin; [by left; apply Hback|]. apply elem_of_app in Hin as [Hin| ->%list_elem_of_singleton]; [by left; apply Hback|].
  right. apply Forall_forall. intros d (i & Hi)%list_elem_of_lookup. destruct (Forall2_lookup_l _ _ _ _ _ Hds Hi) as (y & Hy & (<- & _)).
  rewrite Forall_forall in Hf. apply Hf. by eapply list_elem_of_lookup_2.
Qed.
Lemma deletion_follow q l l' d : ledger_change q l l' -> d ∈ lg_deletions l -> exists d', d' ∈ lg_deletions l' /\ del_step d d'.
Proof.
  intros [_ (ds & Hds & Hd) _] (i & Hi)%list_elem_of_lookup. destruct (Forall2_lookup_l _ _ _ _ _ Hds Hi) as (d' & Hd' & Hs). exists d'. split; [|done].
  apply list_elem_of_lookup_2 in Hd'. destruct Hd as [->|(x & -> & _)]; [done|]. apply elem_of_app. by left.
Qed.

(** The deletion [op] of target [t], and the generation it deletes: nothing
    pins the content while the deletion is open. *)
Record evicting (op : string) (t : StorageTarget) (key : CacheKey) (l : ledger) : Prop := mkEvicting {
  ev_generation : exists g, g ∈ lg_generations l /\ gr_key g = key /\ gr_volume g = tg_ID t /\ key_scope key = tg_Scope t;
  ev_known : exists d, d ∈ lg_deletions l /\ dl_operation d = op;
  ev_deletion : forall d, d ∈ lg_deletions l -> dl_operation d = op -> dl_target d = t /\
    (open_deletion d = true -> forall p, p ∈ lg_pins l -> live_pin p = true -> pn_key p <> key) }.
Lemma open_fenced key t l g d :
  g ∈ lg_generations l -> gr_key g = key -> gr_volume g = tg_ID t -> key_scope key = tg_Scope t -> tg_Class t = KindVolume ->
  d ∈ lg_deletions l -> dl_target d = t -> open_deletion d = true -> storageContentFenced key l = true.
Proof.
  intros Hg Hk Hv Hs Hc Hd Ht Ho. unfold storageContentFenced. apply existsb_exists. exists g. split; [by apply list_elem_of_In|].
  rewrite bool_decide_eq_true_2 by done. cbn. apply existsb_exists. exists d. split; [by apply list_elem_of_In|].
  unfold deletes_volume. rewrite Ht, Ho, !bool_decide_eq_true_2 by congruence. done.
Qed.
Lemma closed_stays d d' : del_step d d' -> open_deletion d = false -> d' = d.
Proof. intros (_ & _ & _ & [?|Hw]) Ho; [done|]. unfold open_deletion in Ho. unfold workable in Hw. by rewrite Hw in Ho. Qed.
Lemma evicting_step q op t key l l' : tg_Class t = KindVolume -> evicting op t key l -> ledger_change q l l' -> evicting op t key l'.
Proof.
  intros Hc [(g & Hg & Hk & Hv & Hs) (d0 & Hd0 & Ho0) Hdel] Hch. split.
  - destruct (gens_follow _ _ _ _ Hch Hg) as (g' & Hg' & (_ & Ek & Ev & _) & _). exists g'. split; [done|]. repeat split; congruence.
  - destruct (deletion_follow _ _ _ _ Hch Hd0) as (d' & Hd' & (E & _)). exists d'. split; [done|congruence].
  - intros d' Hd' Hop. destruct (deletion_back _ _ _ _ Hch Hd') as [(d & Hd & Hst)|Hf].
    + pose proof Hst as (Eo & _ & Et & _). destruct (Hdel d Hd) as [Ht Hpins]; [congruence|]. split; [congruence|]. intros Hopen p' Hp' Hl' Hkey.
      destruct (open_deletion d) eqn:Ed; [|by rewrite (closed_stays _ _ Hst Ed), Ed in Hopen].
      destruct (lc_pins _ _ _ Hch p' Hp' Hl') as [(p & Hp & Hl & Ek)|Hfn]; [apply (Hpins eq_refl p Hp Hl); congruence|].
      rewrite Hkey in Hfn. by rewrite (open_fenced key t l g d) in Hfn.
    + exfalso. rewrite Forall_forall in Hf. apply (Hf d0 Hd0). congruence.
Qed.
Lemma evicting_run op t key s qs s' : tg_Class t = KindVolume -> ledger_run s qs s' -> evicting op t key (so_tables s) -> evicting op t key (so_tables s').
Proof. intros Hc. induction 1 as [|how wall q s r s1 qs s2 Ht _ IH]; [done|]. intros He. apply IH. eapply evicting_step; [done..|by eapply transact_change]. Qed.

(** The work a claim answers describes its deletion, which never changes. *)
Lemma claimed_work ttl fence now l w l' :
  ClaimStorageCleanup ttl fence now l = Ok (Some w, l') -> exists d, d ∈ lg_deletions l' /\ dl_operation d = ce_OperationID (sk_Lease w) /\ dl_target d = sk_Target w.
Proof.
  unfold ClaimStorageCleanup. txn_open. destruct (merge_sort _ _) as [|d ?]; [done|]. cbv zeta. repeat txn_open. intros [= <- <-].
  match goal with H : scanStorageWork _ _ _ = Ok _ |- _ => revert H end. unfold scanStorageWork. destruct (List.find _ _) as [d'|] eqn:E; [|done].
  destruct (StorageWork_Valid _); [|done]. intros [= <-]. apply List.find_some in E as [Hin H]. rows. exists d'. split; [by apply list_elem_of_In|done].
Qed.
Lemma deletion_run s qs s' d :
  ledger_run s qs s' -> d ∈ lg_deletions (so_tables s) -> exists d', d' ∈ lg_deletions (so_tables s') /\ dl_operation d' = dl_operation d /\ dl_target d' = dl_target d.
Proof.
  intros H. revert d. induction H as [s|how wall q s r s1 qs s2 Ht _ IH]; intros d Hd; [by exists d|].
  destruct (deletion_follow _ _ _ _ (transact_change _ _ _ _ _ _ Ht) Hd) as (d1 & Hd1 & (E1 & _ & E2 & _)). destruct (IH d1 Hd1) as (d2 & ? & ? & ?). exists d2. naive_solver congruence.
Qed.
Lemma BeginDeletion_evicting w now l x l' d :
  ledger_ok l -> BeginStorageCleanup container_known w now l = Ok (x, l') -> tg_Action (sk_Target w) = EvictCache ->
  d ∈ lg_deletions l -> dl_operation d = ce_OperationID (sk_Lease w) -> dl_target d = sk_Target w ->
  tg_Class (sk_Target w) = KindVolume /\ exists key, evicting (ce_OperationID (sk_Lease w)) (sk_Target w) key l'.
Proof.
  intros Hok H Ha Hd Hop Htg. pose proof (BeginDeletion_change _ _ _ _ _ H) as Hch.
  pose proof (ok_operations _ (ledger_ok_step _ _ _ Hok Hch)) as HO. revert H. unfold BeginStorageCleanup. cbv zeta. repeat txn_open. intros [= _ <-].
  match goal with H : storageEligible _ _ _ = Ok _ |- _ => revert H end. unfold storageEligible. destruct (StorageTarget_Valid (sk_Target w)) eqn:Hv; [|done]. cbn [negb]. rewrite Ha. intros [= Hx].
  match goal with H : negb x0 = false |- _ => apply negb_false_iff in H end. subst x0.
  match goal with H : existsb (evictable _ _) _ = true |- _ => apply existsb_exists in H as (g & Hg%list_elem_of_In & Hev) end. unfold evictable in Hev. rows.
  match goal with H : negb (existsb _ _) = true |- _ => apply negb_true_iff in H as Hnone end.
  match goal with H : update_deletions _ _ _ = Ok _ |- _ => apply update_deletions_Ok in H as (D & G & P); [|done] end.
  split. { unfold StorageTarget_Valid in Hv. rewrite Ha in Hv. destruct (_ || _ || _) in Hv; [done|]. by apply bool_decide_eq_true in Hv. }
  exists (gr_key g). split.
  - exists g. rewrite G. done.
  - apply list_elem_of_lookup in Hd as (i & Hi). destruct (Forall2_lookup_l _ _ _ _ _ D Hi) as (d' & Hd' & (E & _)). exists d'. split; [by eapply list_elem_of_lookup_2|congruence].
  - intros d' Hd' Hop'. destruct (deletion_follow _ _ _ _ Hch Hd) as (d2 & Hd2 & (E2 & _ & T2 & _)).
    assert (d' = d2) as -> by (eapply NoDup_map_inj; [exact HO|done|done|congruence]). split; [congruence|]. intros _ p Hp Hl Hk. rewrite P in Hp.
    rewrite <- not_true_iff_false, existsb_exists in Hnone. apply Hnone. exists p. split; [by apply list_elem_of_In|]. by rewrite Hl, bool_decide_eq_true_2.
Qed.

(** C5: a cached volume is never deleted under an attempt that
    uses it. When a worker that claimed the eviction of a volume is allowed
    to begin it, the content of that volume has no live pin; and in every
    later state, after any interleaving of transactions, as long as that
    eviction has not been settled (it is accepted, running, or its outcome is
    unknown) the content still has no live pin and stays fenced, so that
    neither an admission nor a retry can pin it. *)
Theorem evict_unpinned h0 w0 ttl fence work s0 s1 qs1 s2 h1 w1 x s3 qs2 s4 :
  ledger_ok (so_tables s0) ->
  transact h0 w0 (ledger_txn (LClaimDeletion ttl fence)) s0 = (Ok (Some work), s1) ->
  ledger_run s1 qs1 s2 ->
  transact h1 w1 (ledger_txn (LBeginDeletion work)) s2 = (Ok x, s3) ->
  tg_Action (sk_Target work) = EvictCache ->
  ledger_run s3 qs2 s4 ->
  exists g, g ∈ lg_generations (so_tables s4) /\ gr_volume g = tg_ID (sk_Target work) /\ key_scope (gr_key g) = tg_Scope (sk_Target work) /\
    forall d, d ∈ lg_deletions (so_tables s4) -> dl_operation d = ce_OperationID (sk_Lease work) -> open_deletion d = true ->
      storageContentFenced (gr_key g) (so_tables s4) = true /\
      forall p, p ∈ lg_pins (so_tables s4) -> live_pin p = true -> pn_key p <> gr_key g.
Proof.
  intros Hok H0 Hrun1 H1 Ha Hrun2.
  assert (ledger_ok (so_tables s1)) as Hok1 by (eapply ledger_ok_step; [done|by eapply transact_change]).
  pose proof (ledger_run_ok _ _ _ Hrun1 Hok1) as Hok2.
  destruct (transact_Ok _ _ _ _ _ _ H0) as (now0 & G0). cbn [ledger_txn] in G0. destruct (claimed_work _ _ _ _ _ _ G0) as (d & Hd & Hop & Htg).
  destruct (deletion_run _ _ _ _ Hrun1 Hd) as (d2 & Hd2 & Hop2 & Htg2).
  destruct (transact_Ok _ _ _ _ _ _ H1) as (now1 & (u & G1)%plain_Ok).
  destruct (BeginDeletion_evicting _ _ _ _ _ d2 Hok2 G1 Ha Hd2) as (Hc & key & He); [congruence|congruence|].
  pose proof (evicting_run _ _ _ _ _ _ Hc Hrun2 He) as [(g & Hg & Hk & Hv & Hs) _ Hdel]. exists g. split; [done|]. split; [done|]. split; [congruence|].
  intros d' Hd' Hop' Hopen. destruct (Hdel d' Hd' Hop') as [Ht Hpins]. rewrite Hk. split; [by eapply open_fenced|by apply Hpins].
Qed.
End Environment.
