(* ===== verification/HostImages.v ===== *)
(** * The ledger of images on hosts

    [store/sqlite/host_application_image.go] and [image_bounds.go], over the
    tables of [0034_host_application_images.sql]: one writer per archive and
    engine, elected with a lease and granted a single load, and the number of
    images a host may hold. Times are kept, and where the code does so
    compared, as text. *)

From S2P Require Import Prelude GoStrings GoTime Identifiers Problems GoJson DomainRecords Operations ControlOps Provider ProviderResources Admission Scheduler Cleanup HostStorage StoreTx CacheLedger StorageDeletion.
#[local] Open Scope string_scope.
#[local] Open Scope list_scope.
#[local] Open Scope Z_scope.
#[local] Open Scope bool_scope.

(** ** Reading *)
Definition PinnedImage (a : CacheAttempt) (l : ledger) : result error (option ImagePin) :=
  throw negb (CacheAttempt_Valid a) with store_ErrInvalid ;;
  match List.find (fun p => ipn_attempt p ==? a) (lg_image_pins l) with
  | None => Ok None
  | Some p =>
      let pin := mkImagePin (ipn_key p) (ipn_object p) (ipn_released_at p <>? "") in
      if ImagePin_Valid pin then Ok (Some pin) else Err store_ErrCorrupt
  end.
(** [None] is [ErrCorrupt], which [dbError] hides as unavailable. *)
Definition scanImageGeneration (r : image_row) : option ImageGeneration :=
  created ← ParseRFC3339 (im_created_at r);
  lease ← ParseRFC3339 (im_lease_until r);
  loading ← optional_time (im_loading_at r);
  used ← optional_time (im_last_used_at r);
  let g := mkImageGeneration (im_id r) (im_key r) (im_owner r) (im_operation r) (im_image r) (default [] (im_diffs r)) (im_state r) created lease loading used in
  if ImageGeneration_Valid g then Some g else None.
Definition imageByKey (k : ImageKey) (l : ledger) : result error (option ImageGeneration) :=
  match List.find (fun r => (im_key r ==? k) && image_active r) (lg_images l) with
  | None => Ok None
  | Some r => match scanImageGeneration r with Some g => Ok (Some g) | None => Err store_ErrUnavailable end
  end.
Definition ActiveImage (k : ImageKey) (l : ledger) : result error (option ImageGeneration) :=
  throw negb (ImageKey_Valid k) with store_ErrInvalid ;; imageByKey k l.

(** ** How many images a host holds *)
Definition imageCountRefusal : error :=
  match NewProblem (E := error) CodeResourceRequirementUnsatisfied "The host's application image slots are occupied; reuse an existing image or wait for exact cleanup." FailureStageValidation with
  | Ok p => EProblem false (WithCause (Some ErrCountLimit) (WithDetail ReasonDetail "host_image_count_limit" p))
  | Err _ => ENilProblem
  end.
(** The application images the latest complete scan saw and no confirmed
    deletion has removed since. *)
Definition present_images (k : ImageKey) (l : ledger) : list string :=
  let scan := latest_complete (image_scope k) l in
  let objects := concat (map sn_objects (List.filter (fun r => sn_seq r =? scan) (lg_scans l))) in
  map so_ID (List.filter (fun o => (so_Kind o ==? KindImage)
    && (label_of (so_Labels o) (LabelPrefix +:+ "image-kind") ==? "application")
    && (label_of (so_Labels o) (LabelPrefix +:+ "image-machine") ==? ik_MachineID k)
    && (label_of (so_Labels o) (LabelPrefix +:+ "image-engine") ==? ik_EngineID k)
    && negb (existsb (fun d => (tg_Scope (dl_target d) ==? image_scope k) && (tg_Class (dl_target d) ==? KindImage) && (tg_ID (dl_target d) ==? so_ID o)
         && ((dl_result d ==? ResultDeleted) || (dl_result d ==? ResultAbsent)) && (scan <=? dl_confirmed_scan d)) (lg_deletions l))) objects).
Definition archive (k : ImageKey) : string * Z := (ik_ArchiveSHA256 k, ik_ArchiveBytes k).
Definition allocated_archives (k : ImageKey) (l : ledger) : list (string * Z) :=
  let present := present_images k l in
  remove_dups
    (map (fun i => archive (im_key i)) (List.filter (fun i => (image_scope (im_key i) ==? image_scope k) && (image_active i || bool_decide (im_image i ∈ present))) (lg_images l))
     ++ map (fun p => archive (ipn_key p)) (List.filter (fun p => (image_scope (ipn_key p) ==? image_scope k) && live_image_pin p) (lg_image_pins l))).
Definition imageAllocations (k : ImageKey) (l : ledger) : Z * bool :=
  let unexplained := List.filter (fun id => negb (existsb (fun i => (image_scope (im_key i) ==? image_scope k) && (im_image i ==? id)) (lg_images l))) (present_images k l) in
  (Z.of_nat (length (allocated_archives k l)) + Z.of_nat (length unexplained), bool_decide (archive k ∈ allocated_archives k l)).
Definition admitApplicationImageKey (k : ImageKey) (l : ledger) : option error :=
  let '(count, reused) := imageAllocations k l in
  if negb reused && (ImageCountLimit <=? count) then Some imageCountRefusal else None.
Definition claimApplicationImageKey (k : ImageKey) (l : ledger) : option error :=
  if ImageCountLimit <? (imageAllocations k l).1 then Some imageCountRefusal else None.
Definition checkApplicationImageNewWork (a : CacheAttempt) (l : ledger) : option error :=
  match List.find (fun p => (ipn_attempt p ==? a) && live_image_pin p) (lg_image_pins l) with
  | None => None
  | Some p =>
      match imageByKey (ipn_key p) l with
      | Err e => Some e
      | Ok (Some _) => None
      | Ok None => claimApplicationImageKey (ipn_key p) l
      end
  end.
Definition or_fail (e : option error) : result error unit := match e with Some e => Err e | None => Ok tt end.

(** ** Pins *)
Definition insert_image_pin (p : image_pin_row) (l : ledger) : result error ledger :=
  throw existsb (fun r => ipn_attempt r ==? ipn_attempt p) (lg_image_pins l)
        || negb ((len (ik_MachineID (ipn_key p)) =? 64) && (len (ik_EngineID (ipn_key p)) =? 64) && (len (ik_ArchiveSHA256 (ipn_key p)) =? 64)
                 && (0 <? ik_ArchiveBytes (ipn_key p)) && (ik_ArchiveBytes (ipn_key p) <=? 2 ^ 31))
        || negb (bool_decide (ipn_attempt p ∈ lg_attempts l)) || imageContentFenced (ipn_key p) l with store_ErrConflict ;;
  Ok (with_image_pins l (lg_image_pins l ++ [p])).
(** The target is asked for only when the job has an image; only the first
    image of a job is pinned. *)
Definition pinHostApplicationImageAdmission (a : CacheAttempt) (target : result error (option frozenCacheTarget)) (refs : list FrozenObject) : txn ledger unit := fun now l =>
  match List.find (fun ref => fo_Role ref ==? "application_image") refs with
  | None => Ok (tt, l)
  | Some ref =>
      do found <- target ;;
      match found with
      | None => Err ErrRequirements
      | Some t =>
          let k := mkImageKey (fc_installation t) (fc_machine t) (fc_engine t) (om_SHA256 (fo_Object ref)) (om_Bytes (fo_Object ref)) in
          throw imageContentFenced k l with ENew storage_ErrIneligible_text ;;
          do _ <- or_fail (admitApplicationImageKey k l) ;;
          do l' <- insert_image_pin (mkImagePinRow a k (om_ID (fo_Object ref)) (FormatRFC3339Nano now) "") l ;;
          Ok (tt, l')
      end
  end.
Definition pinHostApplicationImageRetry (old : CacheAttempt) (newAttempt : string) : txn ledger unit := fun now l =>
  match List.find (fun p => ipn_attempt p ==? old) (lg_image_pins l) with
  | None => Ok (tt, l)
  | Some p =>
      do _ <- or_fail (admitApplicationImageKey (ipn_key p) l) ;;
      do l' <- insert_image_pin (mkImagePinRow (mkCacheAttempt (ca_WorkspaceID old) (ca_JobID old) newAttempt) (ipn_key p) (ipn_object p) (FormatRFC3339Nano now) "") l ;;
      Ok (tt, l')
  end.
Definition releaseHostApplicationImagePins (a : CacheAttempt) : txn ledger unit := fun now l =>
  do p <- update_where (fun old new => (ipn_released_at old ==? "") && (ipn_released_at new <>? "")) (fun r => (ipn_attempt r ==? a) && live_image_pin r)
    (fun r => mkImagePinRow (ipn_attempt r) (ipn_key r) (ipn_object r) (ipn_created_at r) (FormatRFC3339Nano now)) (lg_image_pins l) ;;
  Ok (tt, with_image_pins l p).
Definition releaseHostApplicationImagePinsOnCleanup (op : Operation) (resources : list ResourceWork) : txn ledger unit := fun now l =>
  let a := mkCacheAttempt (op_WorkspaceID op) (op_JobID op) (op_AttemptID op) in
  let mine := List.filter (fun p => (ipn_attempt p ==? a) && live_image_pin p) (lg_image_pins l) in
  if bool_decide (mine = []) then Ok (tt, l)
  else
    do staging <- staging_of resources ;;
    match staging with
    | None => Err store_ErrCorrupt
    | Some x =>
        throw negb (ResourceState_Confirmed (rr_State (rk_Result x))) with store_ErrCorrupt ;;
        let installation := id_InstallationID (rr_Identity (cq_Remote (rs_Request (rk_Resource x)))) in
        match dec_container (rr_Resource (cq_Remote (rs_Request (rk_Resource x)))) with
        | None => Err store_ErrCorrupt
        | Some (id, engine) =>
            throw negb (SHA256Digest_Valid id) || negb (storageNativeEngine engine) || negb (ID_Valid installation) with store_ErrCorrupt ;;
            throw existsb (fun p => (ik_InstallationID (ipn_key p) <>? installation) || (ik_EngineID (ipn_key p) <>? host_Digest "docker-engine-id" engine)) mine with store_ErrCorrupt ;;
            releaseHostApplicationImagePins a now l
        end
    end.

(** ** Electing a writer *)
Definition insert_image (i : image_row) (l : ledger) : result error ledger :=
  throw existsb (fun r => (im_id r ==? im_id i) || (im_operation r ==? im_operation i) || (image_active r && image_active i && (im_key r ==? im_key i))) (lg_images l)
        || negb (image_check i) || negb (bool_decide (io_Attempt (im_owner i) ∈ lg_attempts l)) with store_ErrConflict ;;
  Ok (with_images l (lg_images l ++ [i])).
Definition prepare_lease : Duration := 30 * Minute.
Definition expired_lease (now : Time) (g : ImageGeneration) : bool := (ig_State g ==? StatePreparing) && negb (Before now (ig_LeaseUntil g)).
(** [id] and [op] are the two identifiers drawn, 32 hexadecimal digits each. *)
Definition ClaimImage (owner : ImageOwner) (k : ImageKey) (id op : string) : txn ledger (ImageGeneration * bool) := fun now l =>
  throw negb (ImageOwner_Valid owner) || negb (ImageKey_Valid k) with store_ErrInvalid ;;
  throw negb (existsb (fun p => (ipn_attempt p ==? io_Attempt owner) && (ipn_key p ==? k) && (ipn_object p ==? io_ObjectID owner) && live_image_pin p) (lg_image_pins l)) with ErrImageState ;;
  do found <- imageByKey k l ;;
  let claim l :=
    do _ <- or_fail (claimApplicationImageKey k l) ;;
    let g := mkImageGeneration ("img_" +:+ id) k owner ("imload_" +:+ op) "" [] StatePreparing now (now + prepare_lease) zero_time zero_time in
    do l' <- insert_image (mkImageRow (ig_ID g) k owner (ig_OperationID g) "" None StatePreparing (FormatRFC3339Nano now) (FormatRFC3339Nano (now + prepare_lease)) "" "" "" "" "") l ;;
    Ok ((g, true), l') in
  match found with
  | None => claim l
  | Some g =>
      if expired_lease now g then
        do l1 <- set_images (fun i => (im_id i ==? ig_ID g) && (im_state i ==? StatePreparing)) (set_image_retired (FormatRFC3339Nano now) "preload_expired") l ;;
        claim l1
      else Ok ((g, false), l)
  end.

(** ** One load per writer *)
Definition insert_image_load (x : image_load_row) (l : ledger) : result error ledger :=
  throw existsb (fun r => (ld_operation r ==? ld_operation x) || (ld_generation r ==? ld_generation x)) (lg_image_loads l)
        || negb ((len (ld_image x) =? 71) && HasPrefix (ld_image x) "sha256:")
        || negb (existsb (fun i => im_id i ==? ld_generation x) (lg_images l)) with store_ErrConflict ;;
  Ok (with_image_loads l (lg_image_loads l ++ [x])).
Definition set_loading (image : string) (diffs : list string) (at_ : string) (i : image_row) : image_row :=
  mkImageRow (im_id i) (im_key i) (im_owner i) (im_operation i) image (Some diffs) StateLoading (im_created_at i) (im_lease_until i) at_ (im_ready_at i)
    (im_last_used_at i) (im_retired_at i) (im_retired_reason i).
Definition with_identity (g : ImageGeneration) (state : ImageState) (image : string) (diffs : list string) : ImageGeneration :=
  mkImageGeneration (ig_ID g) (ig_Key g) (ig_Owner g) (ig_OperationID g) image diffs state (ig_CreatedAt g) (ig_LeaseUntil g) (ig_LoadingAt g) (ig_LastUsedAt g).
Definition named_image (g : ImageGeneration) (i : image_row) : bool := (im_id i ==? ig_ID g) && (im_operation i ==? ig_OperationID g).
Definition count_images (p : image_row -> bool) (l : ledger) : Z := count_where p (lg_images l).

Section Loads.
Context (over_budget : StorageScope -> CacheAttempt -> Time -> ledger -> option error).

(** The lease is compared with the clock as text. *)
Definition elected (g : ImageGeneration) (now : Time) (i : image_row) : bool :=
  named_image g i && (im_state i ==? StatePreparing) && str_ltb (FormatRFC3339Nano now) (im_lease_until i).
Definition BeginImageLoad (g : ImageGeneration) (image : string) (diffs : list string) (rid : string) : txn ledger bool := fun now l =>
  throw negb (ImageGeneration_Valid g) || (ig_State g <>? StatePreparing) || negb (image_digest image) with store_ErrInvalid ;;
  throw negb (ImageGeneration_Valid (with_identity g StateLoading image diffs)) with store_ErrInvalid ;;
  if negb (existsb (elected g now) (lg_images l)) then Ok (false, l)
  else
    throw imageContentFenced (ig_Key g) l with ENew storage_ErrIneligible_text ;;
    do p <- commitStorageReservation over_budget (image_scope (ig_Key g)) ReserveImage (ik_ArchiveSHA256 (ig_Key g)) (ik_ArchiveBytes (ig_Key g)) (ig_OperationID g) rid now l ;;
    do l2 <- set_images (elected g now) (set_loading image diffs (FormatRFC3339Nano now)) p.2 ;;
    if negb (count_images (elected g now) p.2 =? 1) then Ok (false, l2)
    else
      do l3 <- insert_image_load (mkImageLoadRow (ig_OperationID g) (ig_ID g) image (FormatRFC3339Nano now)) l2 ;;
      Ok (true, l3).
End Loads.

(** ** What a load became *)
(** One row has to change; [requireImageRow]. *)
Definition change_image (p : image_row -> bool) (f : image_row -> image_row) (l : ledger) : result error (unit * ledger) :=
  do l' <- set_images p f l ;;
  throw negb (count_images p l =? 1) with ErrImageState ;;
  Ok (tt, l').
Definition set_image_used (at_ : string) (i : image_row) : image_row :=
  mkImageRow (im_id i) (im_key i) (im_owner i) (im_operation i) (im_image i) (im_diffs i) (im_state i) (im_created_at i) (im_lease_until i) (im_loading_at i) (im_ready_at i)
    at_ (im_retired_at i) (im_retired_reason i).
Definition set_image_ready (at_ : string) (i : image_row) : image_row :=
  mkImageRow (im_id i) (im_key i) (im_owner i) (im_operation i) (im_image i) (im_diffs i) StateReady (im_created_at i) (im_lease_until i) (im_loading_at i)
    (if im_ready_at i ==? "" then at_ else im_ready_at i) at_ (im_retired_at i) (im_retired_reason i).
Definition RetirePreloadImage (g : ImageGeneration) : txn ledger unit := fun now l =>
  throw negb (ImageGeneration_Valid g) || (ig_State g <>? StatePreparing) with store_ErrInvalid ;;
  change_image (fun i => named_image g i && (im_state i ==? StatePreparing)) (set_image_retired (FormatRFC3339Nano now) "preload_expired") l.
Definition MarkImageReady (g : ImageGeneration) : txn ledger unit := fun now l =>
  throw negb (ImageGeneration_Valid g) || (ig_ExpectedImageID g ==? "") with store_ErrInvalid ;;
  change_image (fun i => named_image g i && (im_image i ==? ig_ExpectedImageID g)
    && ((im_state i ==? StateLoading) || (im_state i ==? StateUnknown) || (im_state i ==? StateReady))) (set_image_ready (FormatRFC3339Nano now)) l.
Definition MarkImageUnknown (g : ImageGeneration) : txn ledger unit := fun _ l =>
  throw negb (ImageGeneration_Valid g) || (ig_ExpectedImageID g ==? "") with store_ErrInvalid ;;
  change_image (fun i => named_image g i && (im_image i ==? ig_ExpectedImageID g) && ((im_state i ==? StateLoading) || (im_state i ==? StateUnknown))) (set_image_state StateUnknown) l.
Definition RetireMissingImage (g : ImageGeneration) : txn ledger unit := fun now l =>
  throw negb (ImageGeneration_Valid g) || (ig_State g <>? StateReady) with store_ErrInvalid ;;
  change_image (fun i => named_image g i && (im_image i ==? ig_ExpectedImageID g) && (im_state i ==? StateReady)) (set_image_retired (FormatRFC3339Nano now) "observed_missing") l.
Definition TouchImage (g : ImageGeneration) : txn ledger unit := fun now l =>
  throw negb (ImageGeneration_Valid g) || (ig_State g <>? StateReady) with store_ErrInvalid ;;
  change_image (fun i => named_image g i && (im_image i ==? ig_ExpectedImageID g) && (im_state i ==? StateReady)) (set_image_used (FormatRFC3339Nano now)) l.
