(* ===== verification/HostImageProps.v ===== *)
(** * An archive is sent once

    Any interleaving of the transactions on images, which may fail or commit
    unseen: a writer is granted at most one load, and the same archive is
    granted to another writer for the same engine only after the first load
    was confirmed and its image then gone. A load whose outcome is unknown is
    never repeated. *)

From S2P Require Import Prelude GoStrings GoTime Identifiers Problems GoJson DomainRecords Operations ControlOps Provider ProviderResources Admission Scheduler Cleanup HostStorage StoreTx CacheLedger StorageDeletion CacheLedgerProps HostImages.
#[local] Open Scope string_scope.
#[local] Open Scope list_scope.
#[local] Open Scope Z_scope.
#[local] Open Scope bool_scope.

(** ** Histories *)
Inductive image_request :=
  | IPin (a : CacheAttempt) (target : result error (option frozenCacheTarget)) (refs : list FrozenObject)
  | IPinRetry (old : CacheAttempt) (newAttempt : string)
  | IRelease (op : Operation) (resources : list ResourceWork)
  | IClaim (owner : ImageOwner) (k : ImageKey) (id op : string)
  | IBegin (g : ImageGeneration) (image : string) (diffs : list string) (rid : string)
  | IRetirePreload (g : ImageGeneration)
  | IReady (g : ImageGeneration)
  | IUnknown (g : ImageGeneration)
  | IRetireMissing (g : ImageGeneration)
  | ITouch (g : ImageGeneration)
  | IDeleted (w : StorageWork) (o : DeleteOutcome) (reason : string)
  (* transactions of the other components change any other table *)
  | IOther (other : ledger).

Section Environment.
Context (over_budget : StorageScope -> CacheAttempt -> Time -> ledger -> option error).

(** The answer: whether a load was granted. *)
Definition no_grant {A} (f : txn ledger A) : txn ledger bool := fun now l => do p <- f now l ;; Ok (false, p.2).
Definition image_txn (q : image_request) : txn ledger bool :=
  match q with
  | IPin a target refs => no_grant (pinHostApplicationImageAdmission a target refs)
  | IPinRetry old new => no_grant (pinHostApplicationImageRetry old new)
  | IRelease op resources => no_grant (releaseHostApplicationImagePinsOnCleanup op resources)
  | IClaim owner k id op => no_grant (ClaimImage owner k id op)
  | IBegin g image diffs rid => BeginImageLoad over_budget g image diffs rid
  | IRetirePreload g => no_grant (RetirePreloadImage g)
  | IReady g => no_grant (MarkImageReady g)
  | IUnknown g => no_grant (MarkImageUnknown g)
  | IRetireMissing g => no_grant (RetireMissingImage g)
  | ITouch g => no_grant (TouchImage g)
  | IDeleted w o reason => no_grant (CompleteStorageCleanup w o reason)
  | IOther other => no_grant (fun _ l => Ok (tt, with_image_loads (with_images other (lg_images l)) (lg_image_loads l)))
  end.
Inductive image_run : store ledger -> list image_request -> store ledger -> Prop :=
  | image_run_nil s : image_run s [] s
  | image_run_step how wall q s r s1 qs s2 : transact how wall (image_txn q) s = (r, s1) -> image_run s1 qs s2 -> image_run s (q :: qs) s2.

(** ** What a transaction changes *)
Definition same_image (old new : image_row) : Prop := im_id new = im_id old /\ im_key new = im_key old /\ im_operation new = im_operation old.
Definition confirms (id : string) (q : image_request) : Prop := match q with IReady g => ig_ID g = id | _ => False end.
Inductive image_change (q : image_request) (old new : image_row) : Prop :=
  | image_same : im_state new = im_state old -> image_change q old new
  | image_loading : im_state old = StatePreparing -> im_state new = StateLoading -> image_change q old new
  | image_expired : im_state old = StatePreparing -> im_state new = StateRetired -> image_change q old new
  | image_unknown : im_state old = StateLoading -> im_state new = StateUnknown -> image_change q old new
  | image_ready : im_state old = StateLoading \/ im_state old = StateUnknown -> im_state new = StateReady -> confirms (im_id old) q -> image_change q old new
  | image_gone : im_state old = StateReady -> im_state new = StateRetired -> image_change q old new.
Definition image_step (q : image_request) (old new : image_row) : Prop := same_image old new /\ image_change q old new.
Definition fresh_image (rs : list image_row) (r : image_row) : Prop := Forall (fun i => im_id i <> im_id r /\ (image_active i = true -> im_key i <> im_key r)) rs.
Definition images_change (q : image_request) (rs rs' : list image_row) : Prop :=
  exists mid, Forall2 (image_step q) rs mid /\ (rs' = mid \/ exists r, rs' = mid ++ [r] /\ fresh_image mid r /\ im_state r = StatePreparing).

Lemma image_step_refl q i : image_step q i i.
Proof. split; [done|]. by apply image_same. Qed.
Lemma images_same q rs : images_change q rs rs.
Proof. exists rs. split; [apply Forall2_refl, image_step_refl|by left]. Qed.
Lemma set_images_Ok q p f l l' :
  set_images p f l = Ok l' -> (forall i, p i = true -> image_step q i (f i)) -> Forall2 (image_step q) (lg_images l) (lg_images l') /\ l' = with_images l (lg_images l').
Proof.
  unfold set_images. destruct (update_where _ _ _ _) as [rs|] eqn:E; [|done]. cbn. intros [= <-] H. split; [|done].
  eapply update_where_Forall2; [exact E|apply image_step_refl|]. auto.
Qed.
Lemma change_image_Ok q p f l x l' :
  change_image p f l = Ok (x, l') -> (forall i, p i = true -> image_step q i (f i)) -> images_change q (lg_images l) (lg_images l').
Proof.
  unfold change_image. destruct (set_images p f l) as [l1|] eqn:E; [|done]. cbn [result_bind]. destruct (negb _); [done|]. intros [= _ <-] H.
  exists (lg_images l1). split; [by eapply set_images_Ok|by left].
Qed.
Lemma commit_images s class sha bytes op rid now l x l' : commitStorageReservation over_budget s class sha bytes op rid now l = Ok (x, l') -> lg_images l' = lg_images l.
Proof.
  unfold commitStorageReservation. destruct (_ || _); [done|]. destruct (existsb _ _); [by intros [= _ <-]|]. destruct (List.find _ _).
  - unfold commit_reservation. destruct (update_where _ _ _ _); [|done]. cbn [result_bind]. destruct (negb _); [done|]. cbn [result_bind]. by intros [= _ <-].
  - unfold reserveReplacementStorage. destruct (negb _); [by intros [= _ <-]|]. destruct (mutation_owner _ _ _); [|done]. cbv zeta. unfold insert_reservation. destruct (_ || _ || _); [done|]. cbn [result_bind].
    destruct (over_budget _ _ _ _); [done|]. by intros [= _ <-].
Qed.

Ltac row_conditions := cbv beta in *; repeat match goal with
  | H : _ && _ = true |- _ => apply andb_true_iff in H as [? ?]
  | H : _ || _ = true |- _ => apply orb_true_iff in H as [?|?]
  | H : bool_decide _ = true |- _ => apply bool_decide_eq_true in H
  end.
Lemma retired_step q at_ reason i : im_state i = StatePreparing \/ im_state i = StateReady -> image_step q i (set_image_retired at_ reason i).
Proof. intros [H|H]; (split; [done|]); [by apply image_expired|by apply image_gone]. Qed.
Lemma insert_image_Ok i l l' : insert_image i l = Ok l' -> image_active i = true -> l' = with_images l (lg_images l ++ [i]) /\ fresh_image (lg_images l) i.
Proof.
  unfold insert_image. destruct (existsb _ _) eqn:E; [done|]. cbn [orb]. destruct (_ || _); [done|]. intros [= <-] Ha. split; [done|]. apply Forall_forall. intros r Hr.
  rewrite <- not_true_iff_false, existsb_exists in E. split.
  - intros Hid. apply E. exists r. split; [by apply list_elem_of_In|]. by rewrite (bool_decide_eq_true_2 (im_id r = im_id i)).
  - intros Hra Hk. apply E. exists r. split; [by apply list_elem_of_In|]. rewrite Hra, Ha, (bool_decide_eq_true_2 (im_key r = im_key i)) by done. by rewrite orb_true_r.
Qed.
Lemma Claim_image_change owner k id op now l x l' : ClaimImage owner k id op now l = Ok (x, l') -> images_change (IClaim owner k id op) (lg_images l) (lg_images l').
Proof.
  unfold ClaimImage. destruct (_ || _); [done|]. destruct (negb _); [done|]. destruct (imageByKey k l) as [found|]; [|done]. cbn [result_bind]. cbv zeta.
  set (claim := fun l0 : ledger => _).
  assert (forall mid, claim mid = Ok (x, l') -> exists r, lg_images l' = lg_images mid ++ [r] /\ fresh_image (lg_images mid) r /\ im_state r = StatePreparing) as Hclaim.
  { intros mid. subst claim. cbn beta. destruct (or_fail _); [|done]. cbn [result_bind]. destruct (insert_image _ mid) as [l1|] eqn:E; [|done]. cbn [result_bind]. intros [= _ <-].
    apply insert_image_Ok in E as [-> Hf]; [|done]. eexists. split; [done|]. split; [exact Hf|done]. }
  destruct found as [g|].
  - destruct (expired_lease now g); [|intros [= _ <-]; apply images_same]. destruct (set_images _ _ l) as [l1|] eqn:E; [|done]. cbn [result_bind]. intros (r & -> & Hf & Hs)%Hclaim.
    exists (lg_images l1). split; [|right; by exists r]. eapply set_images_Ok; [exact E|]. intros i Hi. row_conditions. apply retired_step. by left.
  - intros (r & -> & Hf & Hs)%Hclaim. exists (lg_images l). split; [apply Forall2_refl, image_step_refl|right; by exists r].
Qed.
Lemma Begin_image_change g image diffs rid now l x l' :
  BeginImageLoad over_budget g image diffs rid now l = Ok (x, l') -> images_change (IBegin g image diffs rid) (lg_images l) (lg_images l').
Proof.
  unfold BeginImageLoad. destruct (_ || _); [done|]. destruct (negb (ImageGeneration_Valid _)); [done|]. destruct (negb (existsb _ _)); [intros [= _ <-]; apply images_same|]. destruct (imageContentFenced _ _); [done|].
  destruct (commitStorageReservation _ _ _ _ _ _ _ _ _) as [[u l1]|] eqn:Ec; [|done]. apply commit_images in Ec. cbn [result_bind snd].
  destruct (set_images _ _ l1) as [l2|] eqn:Es; [|done]. cbn [result_bind]. eapply (set_images_Ok (IBegin g image diffs rid)) in Es as [Hs _].
  2:{ intros i Hi. unfold elected in Hi. row_conditions. split; [done|]. by apply image_loading. }
  rewrite Ec in Hs. destruct (negb _); [intros [= _ <-]; exists (lg_images l2); split; [done|by left]|]. unfold insert_image_load. destruct (_ || _ || _); [done|]. cbn [result_bind]. intros [= _ <-].
  exists (lg_images l2). split; [done|by left].
Qed.
Lemma Complete_image_change w o reason now l x l' : CompleteStorageCleanup w o reason now l = Ok (x, l') -> images_change (IDeleted w o reason) (lg_images l) (lg_images l').
Proof.
  unfold CompleteStorageCleanup. destruct (outcome_result o); [|done]. cbv zeta. destruct (_ || _); [done|]. destruct (negb (storageLeaseCurrent _ _ _)); [done|].
  destruct (update_deletions _ _ l) as [l1|] eqn:E1; [|done]. cbn [result_bind]. destruct (negb _); [done|].
  assert (lg_images l1 = lg_images l) as H1. { revert E1. unfold update_deletions. destruct (update_where _ _ _ _); [|done]. cbn [result_bind]. by intros [= <-]. }
  match goal with |- result_bind ?r _ = _ -> _ => destruct r as [l2|] eqn:E2; [|done] end. cbn [result_bind]. intros [= _ <-]. cbn. rewrite <- H1.
  destruct (_ || _); [|injection E2 as <-; apply images_same]. revert E2. unfold releaseDeletedStorageContent. cbv zeta.
  assert (forall p stamp m m', release_reservations p stamp m = Ok m' -> lg_images m' = lg_images m) as Hrel.
  { intros p stamp m m'. unfold release_reservations. destruct (update_where _ _ _ _); [|done]. cbn [result_bind]. by intros [= <-]. }
  destruct (tg_Action (sk_Target w)); try (intros [= <-]; apply images_same).
  - destruct (List.find _ _); [|done]. unfold set_generations. destruct (update_where _ _ _ _); [|done]. cbn [result_bind]. intros ->%Hrel. apply images_same.
  - destruct (set_images _ _ l1) as [m|] eqn:Es; [|done]. cbn [result_bind]. intros ->%Hrel. exists (lg_images m). split; [|by left]. eapply set_images_Ok; [exact Es|]. intros i Hi. row_conditions. apply retired_step. by right.
Qed.
Lemma silent_Ok {A} (f : txn ledger A) now l x l' : no_grant f now l = Ok (x, l') -> exists a, f now l = Ok (a, l').
Proof. unfold no_grant. destruct (f now l) as [[a l1]|]; [|done]. cbn. intros [= _ <-]. by exists a. Qed.
Lemma image_pin_images p l l' : insert_image_pin p l = Ok l' -> lg_images l' = lg_images l.
Proof. unfold insert_image_pin. destruct (_ || _ || _ || _); [done|]. by intros [= <-]. Qed.
Lemma image_txn_change q now l x l' : image_txn q now l = Ok (x, l') -> images_change q (lg_images l) (lg_images l').
Proof.
  destruct q; cbn [image_txn]; try (intros (u & H)%silent_Ok).
  - revert H. unfold pinHostApplicationImageAdmission. destruct (List.find _ _); [|intros [= _ <-]; apply images_same]. destruct target as [[t|]|]; [|done|done]. cbn [result_bind]. cbv zeta.
    destruct (imageContentFenced _ _); [done|]. destruct (or_fail _); [|done]. cbn [result_bind]. destruct (insert_image_pin _ _) eqn:E; [|done]. cbn [result_bind]. intros [= _ <-]. rewrite (image_pin_images _ _ _ E). apply images_same.
  - revert H. unfold pinHostApplicationImageRetry. destruct (List.find _ _); [|intros [= _ <-]; apply images_same]. destruct (or_fail _); [|done]. cbn [result_bind]. destruct (insert_image_pin _ _) eqn:E; [|done]. cbn [result_bind].
    intros [= _ <-]. rewrite (image_pin_images _ _ _ E). apply images_same.
  - revert H. unfold releaseHostApplicationImagePinsOnCleanup. cbv zeta. destruct (bool_decide _); [intros [= _ <-]; apply images_same|]. destruct (staging_of _) as [[rw|]|]; [|done|done]. cbn [result_bind].
    destruct (negb _); [done|]. destruct (dec_container _) as [[id engine]|]; [|done]. destruct (_ || _ || _); [done|]. destruct (existsb _ _); [done|]. unfold releaseHostApplicationImagePins.
    destruct (update_where _ _ _ _); [|done]. cbn [result_bind]. intros [= _ <-]. apply images_same.
  - by eapply Claim_image_change.
  - by apply Begin_image_change.
  - revert H. unfold RetirePreloadImage. destruct (_ || _); [done|]. intros H. eapply change_image_Ok; [exact H|]. intros i Hi. row_conditions. apply retired_step. by left.
  - revert H. unfold MarkImageReady. destruct (_ || _); [done|]. intros H. eapply change_image_Ok; [exact H|]. intros i Hi. unfold named_image in Hi. row_conditions; (split; [done|]);
      [apply image_ready; [by left|done|by cbn]|apply image_ready; [by right|done|by cbn]|by apply image_same].
  - revert H. unfold MarkImageUnknown. destruct (_ || _); [done|]. intros H. eapply change_image_Ok; [exact H|]. intros i Hi. row_conditions; (split; [done|]); [by apply image_unknown|by apply image_same].
  - revert H. unfold RetireMissingImage. destruct (_ || _); [done|]. intros H. eapply change_image_Ok; [exact H|]. intros i Hi. row_conditions. apply retired_step. by right.
  - revert H. unfold TouchImage. destruct (_ || _); [done|]. intros H. eapply change_image_Ok; [exact H|]. intros i Hi. split; [done|]. by apply image_same.
  - by eapply Complete_image_change.
  - injection H as _ <-. apply images_same.
Qed.
Lemma image_transact_change how wall q s r s' : transact how wall (image_txn q) s = (r, s') -> images_change q (lg_images (so_tables s)) (lg_images (so_tables s')).
Proof.
  intros H. destruct (transact_inv _ _ _ _ _ _ H) as [[-> _]|(x & Hw & _)]; [apply images_same|]. destruct (write_Ok _ _ _ _ _ Hw) as (now & _ & _ & _ & Hf & _). by eapply image_txn_change.
Qed.

(** ** The keys of the table *)
Record images_ok (l : ledger) : Prop := mkImagesOk {
  io_ids : NoDup (map im_id (lg_images l));
  io_active : NoDup (map im_key (List.filter image_active (lg_images l))) }.
Lemma image_active_back q old new : image_step q old new -> image_active new = true -> image_active old = true.
Proof. intros [_ [H|H _|H _|H _|[H|H] _ _|H _]]; unfold image_active; rewrite ?H; done. Qed.
Lemma image_active_sublist q rs rs' : Forall2 (image_step q) rs rs' -> map im_key (List.filter image_active rs') `sublist_of` map im_key (List.filter image_active rs).
Proof.
  induction 1 as [|x y l l' Hxy _ IH]; [done|]. cbn. destruct (image_active y) eqn:Ey.
  - rewrite (image_active_back _ _ _ Hxy Ey). cbn. destruct Hxy as [(_ & -> & _) _]. by apply sublist_skip.
  - destruct (image_active x); [|done]. cbn. by apply sublist_cons.
Qed.
Lemma images_ok_step q l l' : images_ok l -> images_change q (lg_images l) (lg_images l') -> images_ok l'.
Proof.
  intros [I A] (mid & Hmid & Hl'). pose proof (Forall2_map_eq _ im_id _ _ Hmid ltac:(by intros x y [(E & _) _])) as Hids. pose proof (image_active_sublist _ _ _ Hmid) as Hsub.
  destruct Hl' as [E|(r & E & Hf & Hs)]; split; rewrite E.
  - by rewrite Hids.
  - by eapply sublist_NoDup.
  - rewrite map_app. apply NoDup_app. rewrite Hids. split; [done|]. split; [|apply NoDup_singleton]. intros k Hk ->%list_elem_of_singleton. rewrite <- Hids in Hk. apply list_elem_of_fmap in Hk as (i & Ei & Hi).
    unfold fresh_image in Hf. rewrite Forall_forall in Hf. by destruct (Hf i Hi) as [? _].
  - rewrite List.filter_app, map_app. apply NoDup_app. split; [by eapply sublist_NoDup|]. cbn. assert (image_active r = true) as -> by (unfold image_active; by rewrite Hs). split; [|apply NoDup_singleton].
    intros k (i & -> & [Hi Ha]%list_elem_of_In%List.filter_In)%list_elem_of_fmap Hk%list_elem_of_singleton. unfold fresh_image in Hf. rewrite Forall_forall in Hf. destruct (Hf i) as [_ Hn]; [by apply list_elem_of_In|]. by apply Hn.
Qed.
Lemma image_run_ok s qs s' : image_run s qs s' -> images_ok (so_tables s) -> images_ok (so_tables s').
Proof. induction 1 as [|how wall q s r s1 qs s2 Ht _ IH]; [done|]. intros H. apply IH. eapply images_ok_step; [exact H|by eapply image_transact_change]. Qed.

(** ** What becomes of a load *)
Lemma Begin_granted g image diffs rid now l l' :
  BeginImageLoad over_budget g image diffs rid now l = Ok (true, l') ->
  exists r r', r ∈ lg_images l /\ im_id r = ig_ID g /\ im_state r = StatePreparing /\ r' ∈ lg_images l' /\ same_image r r' /\ im_state r' = StateLoading.
Proof.
  unfold BeginImageLoad. destruct (_ || _); [done|]. destruct (negb (ImageGeneration_Valid _)); [done|]. destruct (existsb _ _) eqn:Ex; [|done]. cbn [negb]. destruct (imageContentFenced _ _); [done|].
  destruct (commitStorageReservation _ _ _ _ _ _ _ _ _) as [[u l1]|] eqn:Ec; [|done]. apply commit_images in Ec. cbn [result_bind snd].
  destruct (set_images _ _ l1) as [l2|] eqn:Es; [|done]. cbn [result_bind]. destruct (negb _); [done|]. unfold insert_image_load. destruct (_ || _ || _); [done|]. cbn [result_bind]. intros [= <-]. cbn.
  apply existsb_exists in Ex as (r & Hr & He). exists r, (set_loading image diffs (FormatRFC3339Nano now) r). pose proof He as He'. unfold elected, named_image in He'. row_conditions. split; [by apply list_elem_of_In|].
  split; [done|]. split; [done|]. split; [|done]. revert Es. unfold set_images. destruct (update_where _ _ _ _) as [rs|] eqn:Eu; [|done]. cbn. intros [= <-]. cbn.
  destruct (update_where_Ok _ _ _ _ _ Eu) as [-> _]. apply list_elem_of_fmap. exists r. rewrite He, Ec. split; [done|by apply list_elem_of_In].
Qed.
Definition loaded (id : string) (k : ImageKey) (qs : list image_request) (l : ledger) : Prop :=
  exists r, r ∈ lg_images l /\ im_id r = id /\ im_key r = k /\
    (im_state r = StateLoading \/ im_state r = StateUnknown \/ (im_state r = StateReady \/ im_state r = StateRetired) /\ exists q, q ∈ qs /\ confirms id q).
Lemma image_follow q l l' r : images_change q (lg_images l) (lg_images l') -> r ∈ lg_images l -> exists r', r' ∈ lg_images l' /\ image_step q r r'.
Proof.
  intros (mid & Hmid & Hl') (i & Hi)%list_elem_of_lookup. destruct (Forall2_lookup_l _ _ _ _ _ Hmid Hi) as (r' & Hr' & Hs). exists r'. split; [|done].
  apply list_elem_of_lookup_2 in Hr'. destruct Hl' as [->|(x & -> & _)]; [done|]. apply elem_of_app. by left.
Qed.
Lemma loaded_run id k s qs s' pre : image_run s qs s' -> loaded id k pre (so_tables s) -> loaded id k (pre ++ qs) (so_tables s').
Proof.
  intros H. revert pre. induction H as [s|how wall q s res s1 qs s2 Ht _ IH]; intros pre; [by rewrite app_nil_r|]. intros (r & Hr & Hid & Hk & Hst).
  replace (pre ++ q :: qs) with ((pre ++ [q]) ++ qs) by by rewrite <- app_assoc. apply IH.
  destruct (image_follow _ _ _ _ (image_transact_change _ _ _ _ _ _ Ht) Hr) as (r' & Hr' & (Ei & Ek & _) & Hc). exists r'. split; [done|]. split; [congruence|]. split; [congruence|].
  assert (forall q', q' ∈ pre -> q' ∈ pre ++ [q]) as Hpre by set_solver.
  destruct Hst as [Hst|[Hst|[Hst (q' & Hq' & Hcf)]]].
  - destruct Hc as [E|E E'|E E'|E E'|_ E' Hq|E E']; try congruence; [by left; congruence|by right; left|]. right. right. split; [by left|]. exists q. split; [set_solver|congruence].
  - destruct Hc as [E|E E'|E E'|E E'|_ E' Hq|E E']; try congruence; [by right; left; congruence|]. right. right. split; [by left|]. exists q. split; [set_solver|congruence].
  - right. right. split; [|exists q'; auto]. destruct Hc as [E|E E'|E E'|E E'|[E|E] E' Hq|E E']; try (destruct Hst; congruence); [rewrite E; exact Hst|by right].
Qed.

(** C7: an archive is never sent to an engine twice while it
    may still be there. From tables that respect their keys: if a writer is
    granted the load of an archive and, later in any interleaving of
    transactions, a load of the same archive to the same engine is granted
    again, then to another generation, after the first one was retired, and
    before that its load had been confirmed. In particular a grant is given
    once per generation, and a load whose outcome stayed unknown is never
    repeated. *)
Theorem image_load_once h1 w1 g1 i1 d1 rid1 s0 s1 qs s2 h2 w2 g2 i2 d2 rid2 s3 a b :
  images_ok (so_tables s0) ->
  transact h1 w1 (image_txn (IBegin g1 i1 d1 rid1)) s0 = (Ok true, s1) ->
  image_run s1 qs s2 ->
  transact h2 w2 (image_txn (IBegin g2 i2 d2 rid2)) s2 = (Ok true, s3) ->
  a ∈ lg_images (so_tables s2) -> im_id a = ig_ID g1 ->
  b ∈ lg_images (so_tables s2) -> im_id b = ig_ID g2 ->
  im_key a = im_key b ->
  ig_ID g1 <> ig_ID g2 /\ im_state a = StateRetired /\ exists q, q ∈ qs /\ confirms (ig_ID g1) q.
Proof.
  intros Hok H1 Hrun H2 Ha Hida Hb Hidb Hkey.
  assert (images_ok (so_tables s1)) as Hok1 by (eapply images_ok_step; [done|by eapply image_transact_change]).
  pose proof (image_run_ok _ _ _ Hrun Hok1) as [I A].
  destruct (transact_Ok _ _ _ _ _ _ H1) as (now1 & G1). destruct (Begin_granted _ _ _ _ _ _ _ G1) as (r & r' & _ & Hid & _ & Hr' & (Ei & _) & Hst).
  destruct (transact_Ok _ _ _ _ _ _ H2) as (now2 & G2). destruct (Begin_granted _ _ _ _ _ _ _ G2) as (c & c' & Hc & Hcid & Hcs & _).
  assert (c = b) as -> by (eapply (NoDup_map_inj im_id); [exact I|done|done|congruence]).
  assert (loaded (ig_ID g1) (im_key r') [] (so_tables s1)) as Hl by (exists r'; split; [done|]; split; [congruence|]; split; [done|by left]).
  apply (loaded_run _ _ _ _ _ _ Hrun) in Hl as (x & Hx & Hxid & _ & Hxs). assert (x = a) as -> by (eapply (NoDup_map_inj im_id); [exact I|done|done|congruence]). cbn in Hxs.
  assert (im_state a <> StatePreparing) as Hnp by (destruct Hxs as [->|[->|[[->| ->] _]]]; done).
  assert (ig_ID g1 <> ig_ID g2) as Hne. { intros E. apply Hnp. replace a with b; [done|]. eapply (NoDup_map_inj im_id); [exact I|done|done|congruence]. }
  assert (image_active a = false) as Hna.
  { destruct (image_active a) eqn:E; [|done]. exfalso. apply Hne. rewrite <- Hida, <- Hidb. f_equal. eapply (NoDup_map_inj im_key); [exact A|..]; [| |done]; apply list_elem_of_In, List.filter_In;
      (split; [by apply list_elem_of_In|]); [done|]. unfold image_active. by rewrite Hcs. }
  split; [done|]. unfold image_active in Hna. destruct Hxs as [E|[E|[[E|E] Hq]]]; rewrite E in Hna |- *; try done.
Qed.
End Environment.
