(* ===== verification/StorageAccount.v ===== *)
(** * The storage a host is charged for

    [store/sqlite/storage_account.go], [storage_budget_gate.go],
    [storage_view.go] and the releases of [storage_reservations.go]: scans of
    a host, the charge computed from the ledgers, the latest scan and the
    reservations, and the gates that keep the charge below the budget. What
    other tables say is a parameter: the containers named by the resources of
    attempts, the budgets of enabled connections, the rows of retention. *)

From S2P Require Import Prelude GoStrings GoTime Identifiers Problems GoSha256 GoJson DomainRecords Operations ControlOps Provider ProviderResources Admission Scheduler Journal Cleanup HostStorage StoreTx CacheLedger StorageDeletion.
#[local] Open Scope string_scope.
#[local] Open Scope list_scope.
#[local] Open Scope Z_scope.
#[local] Open Scope bool_scope.

Definition ScanFreshness : Duration := 2 * Minute.
Definition storage_ErrUnknown : error := ENew "host storage observation is unknown".
Definition storage_ErrHardLimit : error := ENew "host storage hard limit reached".
Definition StorageKind_string (k : StorageKind) : string :=
  match k with KindContainer => "container" | KindVolume => "volume" | KindImage => "image" | KindOther raw => raw end.
Definition NUL : ascii := byte_of 0.
Definition storageObjectKey (k : StorageKind) (id : string) : string := StorageKind_string k +:+ String NUL id.
Definition key_of (o : StorageObject) : string := storageObjectKey (so_Kind o) (so_ID o).
(** [strings.Cut] at one byte: before, after, found. *)
Fixpoint Cut (s : string) (sep : ascii) : string * string * bool :=
  match s with
  | EmptyString => ("", "", false)
  | String c s' => if c ==? sep then ("", s', true) else let '(a, b, found) := Cut s' sep in (String c a, b, found)
  end.
Definition storage_label (o : StorageObject) (name : string) : string := label_of (so_Labels o) (LabelPrefix +:+ name).
Definition in_scope (s : StorageScope) (g : gen_row) : bool := key_scope (gr_key g) ==? s.
Definition image_in_scope (s : StorageScope) (i : image_row) : bool := image_scope (im_key i) ==? s.

(** ** Scans *)
Definition next_seq (l : ledger) : Z := 1 + fold_left (fun m r => Z.max m (sn_seq r)) (lg_scans l) 0.
(** A row keeps no size of an object whose size is unknown, and labels as
    JSON. *)
Definition scan_object (o : StorageObject) : StorageObject :=
  mkStorageObject (so_Kind o) (so_ID o) (if so_SizeKnown o then so_SizeBytes o else 0) (so_SizeKnown o) (reload_map (so_Labels o)) (so_Running o) (so_References o).
Definition record_absence (s : StorageScope) (seq : Z) (item : StorageKind * string) (absences : list absence_row) : list absence_row :=
  let same a := (ab_scope a ==? s) && (ab_class a ==? item.1) && (ab_object a ==? item.2) in
  if existsb same absences then map (fun a => if same a then mkAbsenceRow (ab_scope a) (ab_class a) (ab_object a) (ab_first a) seq else a) absences
  else absences ++ [mkAbsenceRow s item.1 item.2 seq seq].

(** Candidates of [releaseAbsentStorageReservationsInTx]: the object of a
    finished writer whose generation was retired. *)
Definition absent_candidates (s : StorageScope) (l : ledger) : list (ReservationClass * StorageKind * string * string * string) :=
  map (fun g => (ReserveCache, KindVolume, gr_volume g, gr_operation g, gr_retired_at g))
    (List.filter (fun g => in_scope s g && (gr_state g ==? CacheRetired) && (gr_phase g ==? WriterFinished)) (lg_generations l))
  ++ map (fun i => (ReserveImage, KindImage, im_image i, im_operation i, im_retired_at i))
    (List.filter (fun i => image_in_scope s i && (im_state i ==? StateRetired) && (im_retired_reason i ==? "observed_missing") && (im_ready_at i <>? "")) (lg_images l)).
Fixpoint release_absent (scan : StorageScan) (items : list (ReservationClass * StorageKind * string * string * string)) (l : ledger) : result error ledger :=
  match items with
  | [] => Ok l
  | (class, kind, id, operation, retired) :: items' =>
      match ParseRFC3339 retired with
      | None => Err store_ErrCorrupt
      | Some at_ =>
          if bool_decide (storageObjectKey kind id ∈ map key_of (sx_Objects scan)) || Before (sx_ObservedAt scan) at_ then release_absent scan items' l
          else
            do l' <- release_reservations (fun r => (rv_scope r ==? sx_Scope scan) && (rv_class r ==? class) && (rv_operation r ==? Some operation)) (FormatRFC3339Nano (sx_ObservedAt scan)) l ;;
            release_absent scan items' l'
      end
  end.
Definition releaseAbsentStorageReservations (scan : StorageScan) (l : ledger) : result error ledger := release_absent scan (absent_candidates (sx_Scope scan) l) l.

Section Account.
(** Identifiers of containers the resources of attempts on this host name,
    whether one of them names a container, and the budgets of the enabled
    connections to it. *)
Context (attempt_containers : StorageScope -> list string) (container_known : StorageScope -> string -> bool) (connection_budgets : StorageScope -> list Budget).

(** What the ledgers know and the scan did not see. *)
Definition missing_objects (scan : StorageScan) (l : ledger) : list (StorageKind * string) :=
  List.filter (fun item => negb (bool_decide (storageObjectKey item.1 item.2 ∈ map key_of (sx_Objects scan))))
    (map (fun g => (KindVolume, gr_volume g)) (List.filter (in_scope (sx_Scope scan)) (lg_generations l))
     ++ map (fun i => (KindImage, im_image i)) (List.filter (fun i => image_in_scope (sx_Scope scan) i && (im_image i <>? "")) (lg_images l))
     ++ map (fun id => (KindContainer, id)) (List.filter (fun id => StorageObject_Valid (mkStorageObject KindContainer id 0 false ∅ false 0)) (attempt_containers (sx_Scope scan)))).
Definition RecordStorageScan (scan : StorageScan) : txn ledger unit := fun now l =>
  throw negb (StorageScan_Valid scan) with storage_ErrInvalid ;;
  throw After (sx_ObservedAt scan) now || (ScanFreshness <? time_Sub now (sx_ObservedAt scan)) with storage_ErrInvalid ;;
  throw negb (0 <? UnixMilli (sx_ObservedAt scan)) with store_ErrConflict ;;
  let seq := next_seq l in
  throw existsb (fun o => 4096 <? len (Marshal (json_map (so_Labels o)))) (sx_Objects scan) with storage_ErrInvalid ;;
  let row := mkScanRow seq (sx_Scope scan) (UnixMilli (sx_ObservedAt scan)) true "" (sx_Foreign scan) (map scan_object (sx_Objects scan)) in
  let missing := missing_objects scan l in
  throw existsb (fun item => (len item.2 <? 1) || (255 <? len item.2)) missing with store_ErrConflict ;;
  let l' := with_scans l (lg_scans l ++ [row]) (fold_left (fun acc item => record_absence (sx_Scope scan) seq item acc) missing (lg_absences l)) in
  do l'' <- releaseAbsentStorageReservations scan l' ;;
  Ok (tt, l'').
Definition RecordIncompleteStorageScan (s : StorageScope) (reason : string) : txn ledger unit := fun now l =>
  throw negb (StorageScope_Valid s) || negb (ValidReason reason) with storage_ErrInvalid ;;
  throw negb (0 <? UnixMilli now) with store_ErrConflict ;;
  Ok (tt, with_scans l (lg_scans l ++ [mkScanRow (next_seq l) s (UnixMilli now) false reason (mkForeignCounts 0 0 0) []]) (lg_absences l)).

(** ** The latest observation *)
Record storageObservation := mkStorageObservation {
  ob_seq : Z; ob_at : Time; ob_state : string; ob_reason : string; ob_foreign : ForeignCounts; ob_objects : list StorageObject }.
Definition latest_scan (s : StorageScope) (l : ledger) : option scan_row :=
  fold_left (fun best r => if sn_scope r ==? s then match best with Some b => if sn_seq b <? sn_seq r then Some r else best | None => Some r end else best) (lg_scans l) None.
Definition object_le (a b : StorageObject) : Prop :=
  (if so_Kind a ==? so_Kind b then str_leb (so_ID a) (so_ID b) else str_leb (StorageKind_string (so_Kind a)) (StorageKind_string (so_Kind b))) = true.
#[local] Instance object_le_dec a b : Decision (object_le a b).
Proof. unfold object_le. apply _. Defined.
Definition no_observation : storageObservation := mkStorageObservation 0 zero_time "" "" (mkForeignCounts 0 0 0) [].
Definition latestStorageObservation (s : StorageScope) (l : ledger) : result error storageObservation :=
  match latest_scan s l with
  | None => Ok no_observation
  | Some r =>
      let at_ := of_millis (sn_observed_ms r) in
      if negb (sn_complete r) then Ok (mkStorageObservation (sn_seq r) at_ "incomplete" (sn_reason r) (sn_foreign r) [])
      else
        let objects := merge_sort object_le (sn_objects r) in
        throw negb (forallb (fun o => StorageObject_Valid o && (storage_label o "installation" ==? sp_InstallationID s)) (take (Z.to_nat (ScanMaxObjects * 3 + 1)) objects)) with store_ErrCorrupt ;;
        throw ScanMaxObjects * 3 <? Z.of_nat (length objects) with store_ErrCorrupt ;;
        Ok (mkStorageObservation (sn_seq r) at_ "complete" (sn_reason r) (sn_foreign r) objects)
  end.

Fixpoint min_budgets (effective : Budget) (rows : list Budget) : result error Budget :=
  match rows with
  | [] => Ok effective
  | b :: rows' => throw negb (Budget_Valid b) with store_ErrCorrupt ;; min_budgets (MinBudget effective b) rows'
  end.
Definition effectiveStorageBudget (s : StorageScope) (configured : Budget) : result error Budget := min_budgets configured (connection_budgets s).

(** ** The charge *)
(** No code sets [UnobservedReservationDelta], nor the writable bytes of a
    workspace reference: they stay 0 and are left out. *)
Record MachineTotals := mkMachineTotals { mx_ChargedBytes : Z; mx_CacheBytes : Z; mx_ImageSizeUpperBound : Z; mx_AttemptWritableBytes : Z; mx_OrphanBytes : Z }.
Record charge_state := mkChargeState { cs_objects : gmap string Z; cs_unknown : bool; cs_attempts : gmap string Z }.
Record storageCharge := mkStorageCharge { sc_machine : MachineTotals; sc_reserved : Z; sc_objects : gmap string Z; sc_unknown : bool; sc_references : Z; sc_live_pins : Z; sc_generations : Z }.
Definition addStorageCharge (total bytes : Z) : result error Z := match AddChecked total bytes with Ok n => Ok n | Err _ => Err store_ErrCorrupt end.
(** [objects[key] = max(objects[key], bytes)]. *)
Definition raise_charge (key : string) (bytes : Z) (m : gmap string Z) : gmap string Z := <[key := Z.max (default 0 (m !! key)) bytes]> m.

Definition storageDeletedSinceScan (s : StorageScope) (o : storageObservation) (l : ledger) : list string :=
  if (ob_state o <>? "complete") || (ob_seq o =? 0) then []
  else map (fun d => storageObjectKey (tg_Class (dl_target d)) (tg_ID (dl_target d)))
    (List.filter (fun d => (tg_Scope (dl_target d) ==? s) && ((dl_result d ==? ResultDeleted) || (dl_result d ==? ResultAbsent)) && (ob_seq o <=? dl_confirmed_scan d)) (lg_deletions l)).
Definition accounted_objects (s : StorageScope) (o : storageObservation) (l : ledger) : list StorageObject :=
  List.filter (fun x => negb (bool_decide (key_of x ∈ storageDeletedSinceScan s o l))) (ob_objects o).

(** Rows of the two ledgers: key, bytes, retired. *)
Definition image_name (i : image_row) : string := if im_image i ==? "" then "generation:" +:+ im_id i else im_image i.
Definition ledger_rows (s : StorageScope) (l : ledger) : list (string * Z * bool) :=
  map (fun g => (storageObjectKey KindVolume (gr_volume g), hk_Bytes (gr_key g), gr_state g ==? CacheRetired)) (List.filter (in_scope s) (lg_generations l))
  ++ map (fun i => (storageObjectKey KindImage (image_name i), ik_ArchiveBytes (im_key i), im_state i ==? StateRetired)) (List.filter (image_in_scope s) (lg_images l)).
Definition charge_row (deleted observed : list string) (complete : bool) (row : string * Z * bool) (m : gmap string Z) : gmap string Z :=
  let '(key, bytes, retired) := row in
  if bool_decide (key ∈ deleted) then m
  else if retired && complete && negb (bool_decide (key ∈ observed)) then m
  else raise_charge key bytes m.
Definition charge_ledgers (s : StorageScope) (o : storageObservation) (l : ledger) : gmap string Z :=
  fold_left (fun m row => charge_row (storageDeletedSinceScan s o l) (map key_of (accounted_objects s o l)) (ob_state o ==? "complete") row m) (ledger_rows s l) ∅.

Definition mislabelled (s : StorageScope) (o : StorageObject) : bool :=
  ((so_Kind o ==? KindVolume) && ((storage_label o "machine" <>? sp_MachineID s) || (storage_label o "engine" <>? sp_EngineID s) || (storage_label o "kind" <>? "cache")))
  || ((so_Kind o ==? KindImage) && ((storage_label o "image-machine" <>? sp_MachineID s) || (storage_label o "image-engine" <>? sp_EngineID s) || (storage_label o "image-kind" <>? "application"))).
Definition charge_object (s : StorageScope) (o : StorageObject) (c : charge_state) : result error charge_state :=
  let key := key_of o in
  let unknown := cs_unknown c || mislabelled s o in
  let objects := if so_SizeKnown o then raise_charge key (so_SizeBytes o) (cs_objects c) else cs_objects c in
  let unknown := unknown || negb (so_SizeKnown o) && is_nil (cs_objects c !! key) in
  let attempt := storage_label o "attempt" in
  if (so_Kind o ==? KindContainer) && (attempt <>? "") && so_SizeKnown o then
    do amount <- addStorageCharge (default 0 (cs_attempts c !! attempt)) (so_SizeBytes o) ;;
    Ok (mkChargeState objects unknown (<[attempt := amount]> (cs_attempts c)))
  else Ok (mkChargeState objects unknown (cs_attempts c)).
Fixpoint charge_observed (s : StorageScope) (objects : list StorageObject) (c : charge_state) : result error charge_state :=
  match objects with [] => Ok c | o :: objects' => do c' <- charge_object s o c ;; charge_observed s objects' c' end.

(** The row of a mutation that made a reservation physical; without a
    mutation, the newest generation of the content that is not retired. *)
Definition newest {R} (created : R -> string) (rows : list R) : option R :=
  fold_left (fun best r => match best with Some b => if str_ltb (created b) (created r) then Some r else best | None => Some r end) rows None.
Definition reservation_class_string (c : ReservationClass) : string := match c with ReserveAttempt => "attempt" | ReserveCache => "cache" | ReserveImage => "image" end.
Definition physical_key (s : StorageScope) (r : reservation_row) (l : ledger) : string :=
  let fallback := "reservation:" +:+ reservation_class_string (rv_class r) +:+ String NUL (rv_key r) in
  let '(sha, count, found) := Cut (rv_key r) ":" in
  if negb found then fallback
  else
    let volume g := option_map (fun g => storageObjectKey KindVolume (gr_volume g)) g in
    let image i := option_map (fun i => storageObjectKey KindImage (image_name i)) i in
    default fallback
      match rv_class r, rv_operation r with
      | ReserveCache, Some op => volume (List.find (fun g => in_scope s g && (gr_operation g ==? op)) (lg_generations l))
      | ReserveImage, Some op => image (List.find (fun i => image_in_scope s i && (im_operation i ==? op)) (lg_images l))
      | ReserveCache, None => volume (newest gr_created_at (List.filter (fun g => in_scope s g && (hk_SHA256 (gr_key g) ==? sha) && (FormatInt (hk_Bytes (gr_key g)) ==? count) && (gr_state g <>? CacheRetired)) (lg_generations l)))
      | ReserveImage, None => image (newest im_created_at (List.filter (fun i => image_in_scope s i && (ik_ArchiveSHA256 (im_key i) ==? sha) && (FormatInt (ik_ArchiveBytes (im_key i)) ==? count) && (im_state i <>? StateRetired)) (lg_images l)))
      | ReserveAttempt, _ => None
      end.
Definition attempt_key (a : string) : string := "attempt" +:+ String NUL a.
Definition reservation_charge_key (s : StorageScope) (l : ledger) (r : reservation_row) : string :=
  if rv_class r ==? ReserveAttempt then attempt_key (ca_AttemptID (rv_owner r)) else physical_key s r l.
Definition live_reservations (s : StorageScope) (l : ledger) : list reservation_row :=
  List.filter (fun r => (rv_scope r ==? s) && (rv_state r <>? ReservedReleased)) (lg_reservations l).
Fixpoint charge_reservations (s : StorageScope) (l : ledger) (rows : list reservation_row) (reserved : Z) (m : gmap string Z) : result error (Z * gmap string Z) :=
  match rows with
  | [] => Ok (reserved, m)
  | r :: rows' =>
      do reserved' <- addStorageCharge reserved (rv_bytes r) ;;
      charge_reservations s l rows' reserved' (raise_charge (reservation_charge_key s l r) (rv_bytes r) m)
  end.
Definition charge_attempts (observed : gmap string Z) (m : gmap string Z) : gmap string Z :=
  fold_left (fun m kv => raise_charge (attempt_key kv.1) kv.2 m) (map_to_list observed) m.

(** The attempt a container was labelled with, by the first object with its
    identifier. *)
Definition ledger_attempt (objects : list StorageObject) (id : string) : string :=
  match List.find (fun o => (so_Kind o ==? KindContainer) && (so_ID o ==? id)) objects with Some o => storage_label o "attempt" | None => "" end.
Inductive charge_class := ToAttempts | ToCache | ToImages | ToOrphans | ToNothing.
#[local] Instance charge_class_eq_dec : EqDecision charge_class.
Proof. solve_decision. Defined.
Definition class_of (objects : list StorageObject) (key : string) : charge_class :=
  let '(class, id, _) := Cut key NUL in
  if class ==? "attempt" then ToAttempts
  else if class ==? "volume" then ToCache
  else if (class ==? "image") || (class ==? "reservation:image") then ToImages
  else if class ==? "reservation:cache" then ToCache
  else if class ==? "container" then if ledger_attempt objects id <>? "" then ToNothing else ToOrphans
  else ToNothing.
(** The amount added for an entry: an attempt is charged at least what its
    containers were seen to hold. *)
Definition entry_bytes (objects : list StorageObject) (attempts : gmap string Z) (entry : string * Z) : Z :=
  if class_of objects entry.1 ==? ToAttempts then Z.max entry.2 (default 0 (attempts !! (Cut entry.1 NUL).1.2)) else entry.2.
Fixpoint add_entries (objects : list StorageObject) (attempts : gmap string Z) (entries : list (string * Z)) (t : MachineTotals) : result error MachineTotals :=
  match entries with
  | [] => Ok t
  | entry :: entries' =>
      let bytes := entry_bytes objects attempts entry in
      do t' <-
        match class_of objects entry.1 with
        | ToAttempts => do n <- addStorageCharge (mx_AttemptWritableBytes t) bytes ;; Ok (mkMachineTotals (mx_ChargedBytes t) (mx_CacheBytes t) (mx_ImageSizeUpperBound t) n (mx_OrphanBytes t))
        | ToCache => do n <- addStorageCharge (mx_CacheBytes t) bytes ;; Ok (mkMachineTotals (mx_ChargedBytes t) n (mx_ImageSizeUpperBound t) (mx_AttemptWritableBytes t) (mx_OrphanBytes t))
        | ToImages => do n <- addStorageCharge (mx_ImageSizeUpperBound t) bytes ;; Ok (mkMachineTotals (mx_ChargedBytes t) (mx_CacheBytes t) n (mx_AttemptWritableBytes t) (mx_OrphanBytes t))
        | ToOrphans => do n <- addStorageCharge (mx_OrphanBytes t) bytes ;; Ok (mkMachineTotals (mx_ChargedBytes t) (mx_CacheBytes t) (mx_ImageSizeUpperBound t) (mx_AttemptWritableBytes t) n)
        | ToNothing => Ok t
        end ;;
      add_entries objects attempts entries' t'
  end.
Fixpoint add_parts (total : Z) (parts : list Z) : result error Z :=
  match parts with [] => Ok total | b :: parts' => do n <- addStorageCharge total b ;; add_parts n parts' end.
(** [SELECT sum(...)]: SQLite fails when the sum leaves 64 bits. *)
Definition sql_sum (amounts : list Z) : result error Z :=
  let total := fold_right Z.add 0 amounts in if MaxInt64 <? total then Err store_ErrUnavailable else Ok total.

(** What the caller's live pins refer to, independently of the charge. *)
Definition own_pin (s : StorageScope) (caller : string) (p : pin_row) : bool := (key_scope (pn_key p) ==? s) && (ca_WorkspaceID (pn_attempt p) ==? caller) && live_pin p.
Definition own_image_pin (s : StorageScope) (caller : string) (p : image_pin_row) : bool :=
  (image_scope (ipn_key p) ==? s) && (ca_WorkspaceID (ipn_attempt p) ==? caller) && live_image_pin p.
Definition logical_references (s : StorageScope) (caller : string) (l : ledger) : result error Z :=
  do own_cache <- sql_sum (map (fun p => hk_Bytes (pn_key p)) (List.filter (own_pin s caller) (lg_pins l))) ;;
  do own_images <- sql_sum (map (fun p => ik_ArchiveBytes (ipn_key p)) (List.filter (own_image_pin s caller) (lg_image_pins l))) ;;
  add_parts 0 [own_cache; own_images].
Definition storageChargeInTx (s : StorageScope) (o : storageObservation) (caller : string) (l : ledger) : result error storageCharge :=
  let accounted := accounted_objects s o l in
  do c <- charge_observed s accounted (mkChargeState (charge_ledgers s o l) false ∅) ;;
  do p <- charge_reservations s l (live_reservations s l) 0 (cs_objects c) ;;
  let objects := charge_attempts (cs_attempts c) p.2 in
  do t <- add_entries accounted (cs_attempts c) (map_to_list objects) (mkMachineTotals 0 0 0 0 0) ;;
  do charged <- add_parts 0 [mx_CacheBytes t; mx_ImageSizeUpperBound t; mx_AttemptWritableBytes t; mx_OrphanBytes t] ;;
  do refs <- logical_references s caller l ;;
  Ok (mkStorageCharge (mkMachineTotals charged (mx_CacheBytes t) (mx_ImageSizeUpperBound t) (mx_AttemptWritableBytes t) (mx_OrphanBytes t)) p.1 objects (cs_unknown c) refs
    (count_where (own_pin s caller) (lg_pins l)) (count_where (fun g => in_scope s g && (gr_state g <>? CacheRetired)) (lg_generations l))).

(** ** Gates *)
Definition storageObservationReason (o : storageObservation) (now : Time) : string :=
  if ValidReason (ob_reason o) then ob_reason o
  else if IsZero (ob_at o) then "storage_not_observed"
  else if After (ob_at o) now then "storage_clock_changed"
  else if ScanFreshness <? time_Sub now (ob_at o) then "storage_scan_stale"
  else "storage_scan_incomplete".
Definition unknown_because (reason : string) : error := default storage_ErrUnknown (WithReason (Some storage_ErrUnknown) reason).
Definition fresh (o : storageObservation) (now : Time) : bool :=
  (ob_state o ==? "complete") && negb (After (ob_at o) now) && negb (ScanFreshness <? time_Sub now (ob_at o)).
Definition freshStorageCharge (s : StorageScope) (now : Time) (l : ledger) : result error storageCharge :=
  do o <- latestStorageObservation s l ;;
  throw negb (fresh o now) with unknown_because (storageObservationReason o now) ;;
  do c <- storageChargeInTx s o "" l ;;
  throw sc_unknown c with unknown_because "storage_charge_unknown" ;;
  Ok c.
Definition charged (c : storageCharge) : Z := mx_ChargedBytes (sc_machine c).

(** What the profile of the work allows: its frozen budget, if it can be
    read. *)
Definition below_hard_limit (s : StorageScope) (frozen : result error Budget) (now : Time) (l : ledger) : result error (storageCharge * Budget) :=
  do c <- freshStorageCharge s now l ;;
  do configured <- frozen ;;
  do effective <- effectiveStorageBudget s configured ;;
  throw bg_HardBytes effective <=? charged c with storage_ErrHardLimit ;;
  Ok (c, effective).
(** The check after a replacement was reserved, and before new work. *)
Definition replacement_over_budget (frozen : CacheAttempt -> result error Budget) (s : StorageScope) (owner : CacheAttempt) (now : Time) (l : ledger) : option error :=
  match below_hard_limit s (frozen owner) now l with Ok _ => None | Err e => Some e end.
Definition target_scope (t : frozenCacheTarget) : StorageScope := mkStorageScope (fc_installation t) (fc_machine t) (fc_engine t).
Definition checkStorageNewWork (target : result error (option frozenCacheTarget)) (frozen : result error Budget) (now : Time) (l : ledger) : option error :=
  match target with
  | Err e => Some e
  | Ok None => None
  | Ok (Some t) => match below_hard_limit (target_scope t) frozen now l with Ok _ => None | Err e => Some e end
  end.

Record storageReservation := mkStorageReservation { sr_class : ReservationClass; sr_key : string; sr_bytes : Z }.
Definition reservation_role (role : string) : option ReservationClass :=
  if role ==? "application_image" then Some ReserveImage else if cache_role role then Some ReserveCache else None.
Definition content_exists (s : StorageScope) (class : ReservationClass) (sha : string) (bytes : Z) (l : ledger) : bool :=
  match class with
  | ReserveCache => existsb (fun g => (gr_key g ==? mkCacheKey (sp_InstallationID s) (sp_MachineID s) (sp_EngineID s) sha bytes) && active g) (lg_generations l)
  | _ => existsb (fun i => (im_key i ==? mkImageKey (sp_InstallationID s) (sp_MachineID s) (sp_EngineID s) sha bytes) && image_active i) (lg_images l)
  end.
Fixpoint proposed_content (s : StorageScope) (l : ledger) (seen : list (ReservationClass * string)) (refs : list FrozenObject) : list storageReservation :=
  match refs with
  | [] => []
  | ref :: refs' =>
      match reservation_role (fo_Role ref) with
      | None => proposed_content s l seen refs'
      | Some class =>
          let sha := om_SHA256 (fo_Object ref) in let bytes := om_Bytes (fo_Object ref) in
          let key := contentReservationKey sha bytes in
          if bool_decide ((class, key) ∈ seen) then proposed_content s l seen refs'
          else if content_exists s class sha bytes l || existsb (fun r => reserves s class key r && (rv_state r ==? ReservedProvisional)) (lg_reservations l)
          then proposed_content s l ((class, key) :: seen) refs'
          else mkStorageReservation class key (if class ==? ReserveImage then 4 * 2 ^ 30 else bytes) :: proposed_content s l ((class, key) :: seen) refs'
      end
  end.
Fixpoint add_proposed (total : Z) (rs : list storageReservation) : result error Z :=
  match rs with
  | [] => Ok total
  | r :: rs' => match AddChecked total (sr_bytes r) with Ok n => add_proposed n rs' | Err _ => Err storage_ErrUnknown end
  end.
(** [rids] are the identifiers drawn, one per reservation. *)
Fixpoint insert_proposed (s : StorageScope) (a : CacheAttempt) (now : Time) (rids : list string) (rs : list storageReservation) (l : ledger) : result error ledger :=
  match rs with
  | [] => Ok l
  | r :: rs' =>
      do l' <- insert_reservation (mkReservationRow ("stres_" +:+ hd "" rids) s (sr_class r) (sr_key r) (sr_bytes r) a None ReservedProvisional (FormatRFC3339Nano now) "") l ;;
      insert_proposed s a now (tl rids) rs' l'
  end.
Definition storageAdmission (a : CacheAttempt) (target : result error (option frozenCacheTarget)) (frozen : result error Budget) (refs : list FrozenObject) (rids : list string) : txn ledger unit := fun now l =>
  do found <- target ;;
  match found with
  | None => Ok (tt, l)
  | Some t =>
      let s := target_scope t in
      do p <- below_hard_limit s frozen now l ;;
      let proposed := mkStorageReservation ReserveAttempt (ca_AttemptID a) AttemptAllowanceBytes :: proposed_content s l [] refs in
      do total <- add_proposed (charged p.1) proposed ;;
      throw bg_HardBytes p.2 <=? total with storage_ErrHardLimit ;;
      do l' <- insert_proposed s a now rids proposed l ;;
      Ok (tt, l')
  end.

(** ** Releases *)
Definition release_where (p : reservation_row -> bool) (now : Time) (l : ledger) : result error ledger :=
  do r <- update_where (reservation_update (lg_reservations l)) p
    (fun r => mkReservationRow (rv_id r) (rv_scope r) (rv_class r) (rv_key r) (rv_bytes r) (rv_owner r) (rv_operation r) ReservedReleased (rv_created_at r) (FormatRFC3339Nano now)) (lg_reservations l) ;;
  Ok (with_reservations l r).
Definition releaseAttemptStorageReservation (a : CacheAttempt) (now : Time) (l : ledger) : result error ledger :=
  release_where (fun r => (rv_owner r ==? a) && (rv_class r ==? ReserveAttempt) && (rv_state r <>? ReservedReleased)) now l.
(** [strconv.ParseInt] accepts a sign; the canonical form is asked for. *)
Definition content_of_key (key : string) : option (string * Z) :=
  let '(sha, count, found) := Cut key ":" in
  if negb found || negb (SHA256Digest_Valid sha) then None
  else
    bytes ← parse_int (bytes_of count);
    if (bytes <? 0) || (FormatInt bytes <>? count) then None else Some (sha, bytes).
Definition content_used (s : StorageScope) (class : ReservationClass) (sha : string) (bytes : Z) (l : ledger) : bool :=
  match class with
  | ReserveCache =>
      let k := mkCacheKey (sp_InstallationID s) (sp_MachineID s) (sp_EngineID s) sha bytes in
      existsb (fun p => (pn_key p ==? k) && live_pin p) (lg_pins l) || existsb (fun g => gr_key g ==? k) (lg_generations l)
  | _ =>
      let k := mkImageKey (sp_InstallationID s) (sp_MachineID s) (sp_EngineID s) sha bytes in
      image_pinned k l || existsb (fun i => im_key i ==? k) (lg_images l)
  end.
Fixpoint release_unused (s : StorageScope) (now : Time) (rows : list reservation_row) (l : ledger) : result error ledger :=
  match rows with
  | [] => Ok l
  | r :: rows' =>
      match content_of_key (rv_key r) with
      | None => Err store_ErrCorrupt
      | Some (sha, bytes) =>
          if content_used s (rv_class r) sha bytes l then release_unused s now rows' l
          else do l' <- release_where (fun x => (rv_id x ==? rv_id r) && (rv_state x ==? ReservedProvisional)) now l ;; release_unused s now rows' l'
      end
  end.
Definition releaseUnusedContentReservations (s : StorageScope) (now : Time) (l : ledger) : result error ledger :=
  release_unused s now (List.filter (fun r => (rv_scope r ==? s) && (rv_state r ==? ReservedProvisional) && ((rv_class r ==? ReserveCache) || (rv_class r ==? ReserveImage))) (lg_reservations l)) l.
Fixpoint release_scopes (scopes : list StorageScope) (now : Time) (l : ledger) : result error ledger :=
  match scopes with [] => Ok l | s :: scopes' => do l' <- releaseUnusedContentReservations s now l ;; release_scopes scopes' now l' end.
Definition releaseAttemptStorageResources (a : CacheAttempt) : txn ledger unit := fun now l =>
  let scopes := remove_dups (map rv_scope (List.filter (fun r => (rv_owner r ==? a) && (rv_state r <>? ReservedReleased)) (lg_reservations l))) in
  do l1 <- releaseAttemptStorageReservation a now l ;;
  do l2 <- release_scopes scopes now l1 ;;
  Ok (tt, l2).
End Account.
