(* ===== verification/StorageAccountProps.v ===== *)
(** * The charge covers what a host holds

    The charge is the sum, over distinct physical objects, of the largest
    amount any source names for them. It is never below what a scan saw, and
    admitted work keeps it under the hard limit. *)

From S2P Require Import Prelude GoStrings GoTime Identifiers Problems GoSha256 GoJson DomainRecords Operations ControlOps Provider ProviderResources Admission Scheduler Journal Cleanup HostStorage StoreTx CacheLedger StorageDeletion CacheLedgerProps StorageAccount.
#[local] Open Scope string_scope.
#[local] Open Scope list_scope.
#[local] Open Scope Z_scope.
#[local] Open Scope bool_scope.

(** ** Amounts in a map *)
Fixpoint zsum (l : list Z) : Z := match l with [] => 0 | b :: l' => b + zsum l' end.
Definition msum (w : string -> bool) (m : gmap string Z) : Z := map_fold (fun k b acc => (if w k then b else 0) + acc) 0 m.
Definition nonneg (m : gmap string Z) : Prop := map_Forall (fun _ b => 0 <= b) m.

Lemma zsum_app a b : zsum (a ++ b) = zsum a + zsum b.
Proof. induction a as [|x a IH]; cbn; [done|]. rewrite IH. lia. Qed.
Lemma zsum_nonneg l : Forall (fun b => 0 <= b) l -> 0 <= zsum l.
Proof. induction 1; cbn; lia. Qed.

Lemma msum_insert w m k b : m !! k = None -> msum w (<[k := b]> m) = (if w k then b else 0) + msum w m.
Proof. intros H. unfold msum. rewrite map_fold_insert_L; [done|lia|done]. Qed.
Lemma msum_delete w m k b : m !! k = Some b -> msum w m = (if w k then b else 0) + msum w (delete k m).
Proof. intros H. unfold msum. rewrite (map_fold_delete_L _ _ k b m); [done|lia|done]. Qed.
Lemma msum_nonneg w m : nonneg m -> 0 <= msum w m.
Proof.
  induction m as [|k b m Hk IH] using map_ind; [done|]. intros [Hb Hm]%map_Forall_insert; [|done]. rewrite msum_insert by done.
  specialize (IH Hm). destruct (w k); lia.
Qed.
Lemma msum_list w m : msum w m = zsum (map (fun kb => if w kb.1 then kb.2 else 0) (map_to_list m)).
Proof. unfold msum. rewrite map_fold_foldr. induction (map_to_list m) as [|[k b] l IH]; cbn; [done|]. by rewrite IH. Qed.

Lemma raise_nonneg k b m : nonneg m -> nonneg (raise_charge k b m).
Proof. intros H. apply map_Forall_insert_2; [|done]. destruct (m !! k) as [v|] eqn:E; cbn; [pose proof (H k v E); cbn in *|]; lia. Qed.
Lemma raise_lookup k b m j : raise_charge k b m !! j = if bool_decide (k = j) then Some (Z.max (default 0 (m !! k)) b) else m !! j.
Proof. unfold raise_charge. case_bool_decide as E; [subst; apply lookup_insert_eq|by apply lookup_insert_ne]. Qed.
Lemma raise_swap k1 b1 k2 b2 m : raise_charge k1 b1 (raise_charge k2 b2 m) = raise_charge k2 b2 (raise_charge k1 b1 m).
Proof.
  apply map_eq. intros j. rewrite !raise_lookup. repeat case_bool_decide; subst; try congruence; cbn; f_equal; lia.
Qed.
(** Raising one amount adds at most that amount. *)
Lemma msum_raise w k b m : nonneg m -> 0 <= b -> msum w m <= msum w (raise_charge k b m) <= msum w m + b.
Proof.
  intros Hm Hb. unfold raise_charge. destruct (m !! k) as [v|] eqn:E.
  - pose proof (Hm k v E) as Hv. cbn in *. rewrite (msum_delete w m k v E), <- insert_delete_eq, msum_insert by apply lookup_delete_eq.
    destruct (w k); lia.
  - cbn. rewrite msum_insert by done. destruct (w k); lia.
Qed.

#[local] Arguments raise_charge : simpl never.
Fixpoint raise_all (claims : list (string * Z)) (m : gmap string Z) : gmap string Z :=
  match claims with [] => m | kb :: claims' => raise_all claims' (raise_charge kb.1 kb.2 m) end.
Lemma raise_all_app a b m : raise_all (a ++ b) m = raise_all b (raise_all a m).
Proof. revert m. induction a as [|kb a IH]; intros m; cbn; [done|]. apply IH. Qed.
Lemma raise_all_fold claims m : fold_left (fun m kb => raise_charge kb.1 kb.2 m) claims m = raise_all claims m.
Proof. revert m. induction claims as [|kb c IH]; intros m; cbn; [done|]. apply IH. Qed.
Lemma raise_all_raise claims k b m : raise_all claims (raise_charge k b m) = raise_charge k b (raise_all claims m).
Proof. revert m. induction claims as [|[k1 b1] c IH]; intros m; cbn; [done|]. by rewrite raise_swap, IH. Qed.
Lemma raise_all_swap a b m : raise_all a (raise_all b m) = raise_all b (raise_all a m).
Proof. revert m. induction b as [|[k z] b IH]; intros m; cbn; [done|]. by rewrite IH, raise_all_raise. Qed.
Lemma raise_all_nonneg claims m : nonneg m -> nonneg (raise_all claims m).
Proof. revert m. induction claims as [|[k b] c IH]; intros m H; cbn; [done|]. by apply IH, raise_nonneg. Qed.
Lemma msum_raise_all w claims m : nonneg m -> Forall (fun kb => 0 <= kb.2) claims ->
  msum w m <= msum w (raise_all claims m) <= msum w m + zsum (map snd claims).
Proof.
  intros Hm Hc. revert m Hm. induction Hc as [|[k b] c Hb _ IH]; intros m Hm; cbn; [lia|]. cbn in Hb.
  pose proof (msum_raise w k b m Hm Hb). pose proof (IH _ (raise_nonneg k b m Hm)). unfold zsum in *. lia.
Qed.
(** An amount that was claimed is covered, and covered amounts stay so. *)
Definition covers (m : gmap string Z) (k : string) (b : Z) : Prop := exists v, m !! k = Some v /\ b <= v.
Lemma covers_raise m k b k' b' : covers m k b -> covers (raise_charge k' b' m) k b.
Proof. intros (v & Hv & Hb). unfold covers. rewrite raise_lookup. case_bool_decide as E; [subst; rewrite Hv; cbn; eexists; split; [done|lia]|by exists v]. Qed.
Lemma raise_covers m k b : covers (raise_charge k b m) k b.
Proof. unfold covers. rewrite raise_lookup, bool_decide_eq_true_2 by done. eexists. split; [done|lia]. Qed.
Lemma covers_raise_all claims m k b : covers m k b -> covers (raise_all claims m) k b.
Proof. revert m. induction claims as [|[k' b'] c IH]; intros m H; cbn; [done|]. by apply IH, covers_raise. Qed.
Lemma raise_all_covers claims m k b : (k, b) ∈ claims -> covers (raise_all claims m) k b.
Proof.
  revert m. induction claims as [|[k' b'] c IH]; intros m H; [by apply not_elem_of_nil in H|]. cbn. apply elem_of_cons in H as [[= <- <-]|H]; [|by apply IH].
  apply covers_raise_all, raise_covers.
Qed.
(** Amounts of distinct counted keys that are covered add up to no more than
    the sum of the map. *)
Lemma msum_covers w m l : nonneg m -> NoDup (map fst l) -> Forall (fun kb => w kb.1 = true /\ covers m kb.1 kb.2) l -> zsum (map snd l) <= msum w m.
Proof.
  intros Hm Hnd Hl. revert m Hm Hl. induction l as [|[k b] l IH]; intros m Hm Hl; [by apply msum_nonneg|].
  apply NoDup_cons in Hnd as [Hk Hnd]. apply Forall_cons in Hl as [[Hw (v & Hv & Hb)] Hl]. cbn in *.
  rewrite (msum_delete w m k v Hv), Hw. enough (zsum (map snd l) <= msum w (delete k m)) by (unfold zsum in *; lia).
  apply IH; [done|by apply map_Forall_delete|]. rewrite Forall_forall in *. intros [k' b'] Hin. destruct (Hl _ Hin) as [Hw' (v' & Hv' & Hb')]. split; [done|].
  exists v'. cbn in *. rewrite lookup_delete_ne; [done|]. intros <-. apply Hk. apply (list_elem_of_fmap_2 fst _ _ Hin).
Qed.

(** ** Keys *)
Lemma Cut_found k sep a b : Cut k sep = (a, b, true) -> k = a +:+ String sep b.
Proof.
  revert a. induction k as [|c k IH]; intros a; cbn; [done|]. case_bool_decide as E; [intros [= <- <-]; by subst|].
  destruct (Cut k sep) as [[x y] found]. intros [= <- <- ->]. by rewrite (IH x).
Qed.
Lemma Cut_missed k sep a b : Cut k sep = (a, b, false) -> b = "".
Proof. revert a. induction k as [|c k IH]; intros a; cbn; [by intros [= _ <-]|]. case_bool_decide; [done|]. destruct (Cut k sep) as [[x y] found]. intros [= <- <- ->]. by apply (IH x). Qed.
Definition no_byte (sep : ascii) (s : string) : bool := forallb (fun c => negb (c ==? sep)) (bytes_of s).
Lemma Cut_app a b sep : no_byte sep a = true -> Cut (a +:+ String sep b) sep = (a, b, true).
Proof.
  induction a as [|c a IH].
  - intros _. change ("" +:+ String sep b) with (String sep b). cbn. by rewrite bool_decide_eq_true_2.
  - change (String c a +:+ String sep b) with (String c (a +:+ String sep b)). cbn. intros [Hc Ha]%andb_true_iff. apply negb_true_iff in Hc. rewrite Hc. by rewrite IH.
Qed.
Lemma Cut_object k id : StorageKind_Valid k = true -> Cut (storageObjectKey k id) NUL = (StorageKind_string k, id, true).
Proof. intros H. unfold storageObjectKey. apply Cut_app. by destruct k. Qed.
Lemma Cut_attempt a : Cut (attempt_key a) NUL = ("attempt", a, true).
Proof. by apply Cut_app. Qed.
Lemma object_key_inj k id k' id' : StorageKind_Valid k = true -> StorageKind_Valid k' = true -> storageObjectKey k id = storageObjectKey k' id' -> k = k' /\ id = id'.
Proof.
  intros H H' E. pose proof (Cut_object k id H) as C. rewrite E, (Cut_object k' id' H') in C. injection C as Ek Ei. split; [|done]. by destruct k, k'.
Qed.

(** ** Checked sums *)
Lemma AddChecked_Ok a b n : AddChecked a b = Ok n <-> 0 <= a /\ 0 <= b /\ a + b <= 2 ^ 63 - 1 /\ n = a + b.
Proof.
  unfold AddChecked. destruct (a <? 0) eqn:E1; [cbn; split; [done|lia]|]. destruct (b <? 0) eqn:E2; [cbn; split; [done|lia]|].
  destruct (2 ^ 63 - 1 - b <? a) eqn:E3; cbn [orb]; (split; [|lia || (intros (? & ? & ? & ->); done)]); [done|]. intros [= <-]. lia.
Qed.
Lemma addStorageCharge_Ok a b n : addStorageCharge a b = Ok n <-> 0 <= a /\ 0 <= b /\ a + b <= 2 ^ 63 - 1 /\ n = a + b.
Proof.
  unfold addStorageCharge. rewrite <- AddChecked_Ok. destruct (AddChecked a b); [done|]. split; congruence.
Qed.
Lemma addStorageCharge_total a b : 0 <= a -> 0 <= b -> a + b <= 2 ^ 63 - 1 -> addStorageCharge a b = Ok (a + b).
Proof. intros. by apply addStorageCharge_Ok. Qed.
Lemma add_parts_Ok total parts n : add_parts total parts = Ok n -> 0 <= total -> n = total + zsum parts.
Proof.
  revert total. induction parts as [|b parts IH]; intros total; cbn [add_parts zsum]; [intros [= <-]; lia|].
  destruct (addStorageCharge total b) as [x|] eqn:E; [|done]. cbn [result_bind]. apply addStorageCharge_Ok in E as (? & ? & ? & ->). intros Hp _. rewrite (IH _ Hp); lia.
Qed.
Lemma add_parts_total total parts : 0 <= total -> Forall (fun b => 0 <= b) parts -> total + zsum parts <= 2 ^ 63 - 1 -> add_parts total parts = Ok (total + zsum parts).
Proof.
  intros Ht Hp. revert total Ht. induction Hp as [|b parts Hb Hp IH]; intros total Ht; cbn [add_parts zsum]; [intros _; f_equal; lia|]. intros Hle.
  pose proof (zsum_nonneg _ Hp). rewrite addStorageCharge_total by lia. cbn [result_bind]. rewrite IH by lia. f_equal. lia.
Qed.

(** ** Reservations *)
Definition reservation_claims (s : StorageScope) (l : ledger) (rows : list reservation_row) : list (string * Z) := map (fun r => (reservation_charge_key s l r, rv_bytes r)) rows.
Lemma charge_reservations_Ok s l rows reserved m r' m' :
  charge_reservations s l rows reserved m = Ok (r', m') -> 0 <= reserved <= 2 ^ 63 - 1 ->
  m' = raise_all (reservation_claims s l rows) m /\ r' = reserved + zsum (map rv_bytes rows) /\ Forall (fun r => 0 <= rv_bytes r) rows /\ r' <= 2 ^ 63 - 1.
Proof.
  revert reserved m. induction rows as [|r rows IH]; intros reserved m; cbn; [intros [= <- <-] ?; repeat split; [lia|constructor|lia]|].
  destruct (addStorageCharge reserved (rv_bytes r)) as [n|] eqn:E; [|done]. cbn [result_bind]. apply addStorageCharge_Ok in E as (? & ? & ? & ->). intros Hr _.
  destruct (IH _ _ Hr) as (-> & -> & Hb & Hle); [lia|]. repeat split; [lia|by constructor|lia].
Qed.
Lemma charge_reservations_total s l rows reserved m :
  0 <= reserved -> Forall (fun r => 0 <= rv_bytes r) rows -> reserved + zsum (map rv_bytes rows) <= 2 ^ 63 - 1 ->
  charge_reservations s l rows reserved m = Ok (reserved + zsum (map rv_bytes rows), raise_all (reservation_claims s l rows) m).
Proof.
  intros Hr Hb. revert reserved m Hr. induction Hb as [|r rows Hb Hbs IH]; intros reserved m Hr; cbn; [intros _; do 2 f_equal; lia|]. intros Hle.
  assert (0 <= zsum (map rv_bytes rows)) by (apply zsum_nonneg, Forall_map; done).
  rewrite addStorageCharge_total by lia. cbn [result_bind]. rewrite IH by lia. do 2 f_equal. lia.
Qed.

(** ** What a scan saw *)
Definition known_claims (objects : list StorageObject) : list (string * Z) := map (fun o => (key_of o, so_SizeBytes o)) (List.filter so_SizeKnown objects).
Definition labelled (o : StorageObject) : bool := (so_Kind o ==? KindContainer) && (storage_label o "attempt" <>? "").
Definition observed_bytes (objects : list StorageObject) : Z := zsum (map so_SizeBytes (List.filter so_SizeKnown objects)).
Definition all (_ : string) : bool := true.
Lemma msum_set w m k b v : w k = true -> m !! k = Some v \/ (m !! k = None /\ v = 0) -> msum w (<[k := b]> m) = msum w m - v + b.
Proof.
  intros Hw [E|[E ->]].
  - rewrite (msum_delete w m k v E), <- insert_delete_eq, msum_insert by apply lookup_delete_eq. rewrite Hw. lia.
  - rewrite msum_insert by done. rewrite Hw. lia.
Qed.
Record observed_spec (objects : list StorageObject) (c c' : charge_state) : Prop := mkObservedSpec {
  os_objects : cs_objects c' = raise_all (known_claims objects) (cs_objects c);
  os_attempts : msum all (cs_attempts c') = msum all (cs_attempts c) + zsum (map so_SizeBytes (List.filter (fun o => labelled o && so_SizeKnown o) objects));
  os_nonneg : nonneg (cs_attempts c');
  os_blank : cs_attempts c' !! "" = None;
  os_unknown : cs_unknown c' = false -> cs_unknown c = false /\ Forall (fun o => so_SizeKnown o = true \/ exists b, cs_objects c' !! key_of o = Some b) objects }.
Lemma raise_all_Some claims m k b : m !! k = Some b -> exists v, raise_all claims m !! k = Some v.
Proof. intros H. destruct (covers_raise_all claims m k b) as (v & Hv & _); [exists b; split; [done|lia]|]. by exists v. Qed.
Lemma charge_object_spec s o c c' :
  charge_object s o c = Ok c' -> nonneg (cs_attempts c) -> cs_attempts c !! "" = None -> observed_spec [o] c c'.
Proof.
  unfold charge_object. cbv zeta. intros H Hn Hb.
  assert (cs_objects c' = raise_all (known_claims [o]) (cs_objects c) /\ cs_unknown c' = cs_unknown c || mislabelled s o || negb (so_SizeKnown o) && is_nil (cs_objects c !! key_of o) /\
    (if labelled o && so_SizeKnown o then addStorageCharge (default 0 (cs_attempts c !! storage_label o "attempt")) (so_SizeBytes o) = Ok (default 0 (cs_attempts c' !! storage_label o "attempt"))
       /\ cs_attempts c' = <[storage_label o "attempt" := default 0 (cs_attempts c' !! storage_label o "attempt")]> (cs_attempts c) else cs_attempts c' = cs_attempts c)) as (Ho & Hu & Ha).
  { assert ((if so_SizeKnown o then raise_charge (key_of o) (so_SizeBytes o) (cs_objects c) else cs_objects c) = raise_all (known_claims [o]) (cs_objects c)) as E.
    { unfold known_claims. cbn. by destruct (so_SizeKnown o). }
    unfold labelled. destruct ((_ && _) && so_SizeKnown o).
    - destruct (addStorageCharge _ _) as [n|] eqn:En; [|done]. cbn [result_bind] in H. injection H as <-. cbn. rewrite lookup_insert_eq. cbn. split; [exact E|]. done.
    - injection H as <-. cbn. split; [exact E|]. done. }
  clear H. split.
  - exact Ho.
  - cbn. destruct (labelled o && so_SizeKnown o) eqn:El; cbn; [|rewrite Ha; lia]. destruct Ha as [Hadd ->]. apply addStorageCharge_Ok in Hadd as (H0 & H1 & H2 & ->).
    rewrite (msum_set all _ _ _ (default 0 (cs_attempts c !! storage_label o "attempt"))); [lia|done|]. destruct (cs_attempts c !! storage_label o "attempt") as [v|]; [left|right]; done.
  - destruct (labelled o && so_SizeKnown o); [|by rewrite Ha]. destruct Ha as [Hadd ->]. apply addStorageCharge_Ok in Hadd as (H0 & H1 & H2 & ->). apply map_Forall_insert_2; [lia|done].
  - destruct (labelled o && so_SizeKnown o) eqn:El; [|by rewrite Ha]. destruct Ha as [_ ->]. rewrite lookup_insert_ne; [done|].
    unfold labelled in El. rewrite !andb_true_iff in El. destruct El as [[_ El] _]. by apply negb_true_iff, bool_decide_eq_false in El.
  - rewrite Hu. intros [[H1 _]%orb_false_iff H2]%orb_false_iff. split; [done|]. constructor; [|constructor]. destruct (so_SizeKnown o); [by left|]. right.
    rewrite Ho. cbn in H2. destruct (cs_objects c !! key_of o) as [b|] eqn:E; [|done]. by eapply raise_all_Some.
Qed.
Lemma charge_observed_spec s objects c c' :
  charge_observed s objects c = Ok c' -> nonneg (cs_attempts c) -> cs_attempts c !! "" = None -> observed_spec objects c c'.
Proof.
  revert c. induction objects as [|o objects IH]; intros c; cbn [charge_observed].
  - intros [= <-] Hn Hb. split; [done|cbn; lia|done|done|]. intros H. split; [done|constructor].
  - destruct (charge_object s o c) as [c1|] eqn:E; [|done]. cbn [result_bind]. intros H Hn Hb.
    destruct (charge_object_spec _ _ _ _ E Hn Hb) as [O1 A1 N1 B1 U1]. destruct (IH _ H N1 B1) as [O2 A2 N2 B2 U2]. split; [..|done|done|].
    + change (o :: objects) with ([o] ++ objects). unfold known_claims. rewrite List.filter_app, map_app, raise_all_app. rewrite O2, O1. done.
    + change (o :: objects) with ([o] ++ objects). rewrite List.filter_app, map_app, zsum_app, A2, A1. lia.
    + intros Hu. destruct (U2 Hu) as [Hu1 HF]. destruct (U1 Hu1) as [Hu0 HF1]. split; [done|]. constructor; [|done].
      inversion HF1 as [|? ? [?|(b & Hk)] _]; subst; [by left|]. right. rewrite O2. by eapply raise_all_Some.
Qed.

(** ** Ledgers and attempts *)
Lemma charge_row_nonneg deleted observed complete row m : nonneg m -> nonneg (charge_row deleted observed complete row m).
Proof. intros H. unfold charge_row. destruct row as [[k b] retired]. repeat (destruct (bool_decide _) || destruct (_ && _)); try done; by apply raise_nonneg. Qed.
Lemma charge_ledgers_nonneg s o l : nonneg (charge_ledgers s o l).
Proof.
  unfold charge_ledgers. assert (nonneg ∅) as H by apply map_Forall_empty. revert H. generalize (∅ : gmap string Z). induction (ledger_rows s l) as [|row rows IH]; intros m H; cbn [fold_left]; [done|].
  by apply IH, charge_row_nonneg.
Qed.
Definition attempt_claims (observed : gmap string Z) : list (string * Z) := map (fun kv => (attempt_key kv.1, kv.2)) (map_to_list observed).
Lemma charge_attempts_raise observed m : charge_attempts observed m = raise_all (attempt_claims observed) m.
Proof. unfold charge_attempts, attempt_claims. revert m. induction (map_to_list observed) as [|kv l IH]; intros m; cbn; [done|]. apply IH. Qed.

(** ** The sum of the entries *)
Definition counted_keys (objects : list StorageObject) (key : string) : bool := match class_of objects key with ToNothing => false | _ => true end.
Definition parts (t : MachineTotals) : list Z := [mx_CacheBytes t; mx_ImageSizeUpperBound t; mx_AttemptWritableBytes t; mx_OrphanBytes t].
Definition weight (objects : list StorageObject) (attempts : gmap string Z) (e : string * Z) : Z := if counted_keys objects e.1 then entry_bytes objects attempts e else 0.
Lemma add_entries_Ok objects attempts entries t t' :
  add_entries objects attempts entries t = Ok t' -> Forall (fun b => 0 <= b) (parts t) ->
  Forall (fun b => 0 <= b) (parts t') /\ zsum (parts t') = zsum (parts t) + zsum (map (weight objects attempts) entries).
Proof.
  revert t. induction entries as [|e entries IH]; intros t; cbn [add_entries map zsum]; [intros [= <-] ?; split; [done|lia]|]. cbv zeta.
  unfold weight at 1, counted_keys. intros H Hp.
  destruct (class_of objects e.1) eqn:Ec; cbn [result_bind] in H;
    try (destruct (addStorageCharge _ _) as [n|] eqn:En; [|done]; cbn [result_bind] in H; apply addStorageCharge_Ok in En as (? & ? & ? & ->));
    (destruct (IH _ H) as [Hp' Hs]; [unfold parts in *; cbn; rewrite !Forall_cons in *; cbn; intuition lia|]);
    (split; [done|]); rewrite Hs; unfold parts; cbn; lia.
Qed.
Lemma add_entries_total objects attempts entries t :
  Forall (fun b => 0 <= b) (parts t) -> Forall (fun e => 0 <= entry_bytes objects attempts e) entries ->
  zsum (parts t) + zsum (map (weight objects attempts) entries) <= 2 ^ 63 - 1 -> exists t', add_entries objects attempts entries t = Ok t'.
Proof.
  intros Hp He. revert t Hp. induction He as [|e entries Hb He IH]; intros t Hp; cbn [add_entries map zsum]; [by exists t|]. cbv zeta.
  assert (0 <= zsum (map (weight objects attempts) entries)).
  { apply zsum_nonneg, Forall_map. eapply Forall_impl; [exact He|]. intros x Hx. cbn in *. unfold weight. destruct (counted_keys objects x.1); lia. }
  unfold weight at 1, counted_keys. unfold parts in *. cbn in *. rewrite !Forall_cons in *. intros Hle.
  destruct (class_of objects e.1) eqn:Ec; try (rewrite addStorageCharge_total by lia); cbn [result_bind];
    apply IH; cbn; rewrite ?Forall_cons in *; cbn in *; intuition lia.
Qed.
(** The charge of an attempt already contains what its containers hold. *)
Lemma entry_bytes_raised objects attempts m e :
  nonneg m -> attempts !! "" = None -> (forall a v, attempts !! a = Some v -> covers m (attempt_key a) v) -> e ∈ map_to_list m -> entry_bytes objects attempts e = e.2.
Proof.
  intros Hm Hb Hc. destruct e as [k b]. intros Hin%elem_of_map_to_list. unfold entry_bytes. cbn. case_bool_decide as E; [|done].
  pose proof (Hm k b Hin) as Hpos. cbn in Hpos. destruct (Cut k NUL) as [[class id] found] eqn:Ek. cbn. destruct (attempts !! id) as [v|] eqn:Ea; cbn; [|lia].
  destruct found; [|by rewrite (Cut_missed _ _ _ _ Ek), Hb in Ea]. unfold class_of in E. rewrite Ek in E. destruct (class ==? "attempt") eqn:Eq.
  - apply bool_decide_eq_true in Eq as ->. apply Cut_found in Ek. subst k. destruct (Hc _ _ Ea) as (w & Hw & Hle). unfold attempt_key in Hw. rewrite Hin in Hw. injection Hw as <-. lia.
  - repeat (destruct (bool_decide _) in E || destruct (negb _) in E || destruct (_ || _) in E); done.
Qed.
Lemma zsum_map_ext {A} (f g : A -> Z) l : (forall x, x ∈ l -> f x = g x) -> zsum (map f l) = zsum (map g l).
Proof. induction l as [|x l IH]; intros H; cbn; [done|]. rewrite (H x) by set_solver. rewrite IH; [done|]. intros y Hy. apply H. set_solver. Qed.
Lemma weights_msum objects attempts m :
  nonneg m -> attempts !! "" = None -> (forall a v, attempts !! a = Some v -> covers m (attempt_key a) v) ->
  zsum (map (weight objects attempts) (map_to_list m)) = msum (counted_keys objects) m.
Proof.
  intros Hm Hb Hc. rewrite msum_list. apply zsum_map_ext. intros e He. unfold weight. by rewrite (entry_bytes_raised objects attempts m e Hm Hb Hc He).
Qed.
Lemma attempt_claims_cover observed m a v : observed !! a = Some v -> covers (raise_all (attempt_claims observed) m) (attempt_key a) v.
Proof. intros H. apply raise_all_covers, list_elem_of_fmap. exists (a, v). split; [done|]. by apply elem_of_map_to_list. Qed.

(** ** The charge *)
Definition charged_state (s : StorageScope) (o : storageObservation) (l : ledger) : result error charge_state :=
  charge_observed s (accounted_objects s o l) (mkChargeState (charge_ledgers s o l) false ∅).
Definition charged_objects (s : StorageScope) (l : ledger) (cs : charge_state) : gmap string Z :=
  raise_all (attempt_claims (cs_attempts cs)) (raise_all (reservation_claims s l (live_reservations s l)) (cs_objects cs)).
Record charge_spec (s : StorageScope) (o : storageObservation) (caller : string) (l : ledger) (cs : charge_state) (c : storageCharge) : Prop := mkChargeSpec {
  cp_objects : sc_objects c = charged_objects s l cs;
  cp_unknown : sc_unknown c = cs_unknown cs;
  cp_reserved : sc_reserved c = zsum (map rv_bytes (live_reservations s l));
  cp_charged : charged c = msum (counted_keys (accounted_objects s o l)) (sc_objects c) }.
Lemma observed_state_spec s o l cs :
  charged_state s o l = Ok cs -> observed_spec (accounted_objects s o l) (mkChargeState (charge_ledgers s o l) false ∅) cs.
Proof. intros H. eapply charge_observed_spec; [exact H|apply map_Forall_empty|done]. Qed.
Lemma charged_objects_nonneg s o l cs : charged_state s o l = Ok cs -> nonneg (charged_objects s l cs).
Proof. intros [O _ _ _ _]%observed_state_spec. unfold charged_objects. rewrite O. do 3 apply raise_all_nonneg. apply charge_ledgers_nonneg. Qed.
Lemma charged_weights s o l cs objects : charged_state s o l = Ok cs ->
  zsum (map (weight objects (cs_attempts cs)) (map_to_list (charged_objects s l cs))) = msum (counted_keys objects) (charged_objects s l cs).
Proof.
  intros H. pose proof (observed_state_spec _ _ _ _ H) as [_ _ _ B _]. apply weights_msum; [by eapply charged_objects_nonneg|done|].
  intros a v Ha. by apply attempt_claims_cover.
Qed.
Lemma storageCharge_inv s o caller l c :
  storageChargeInTx s o caller l = Ok c ->
  exists cs, charged_state s o l = Ok cs /\ charge_spec s o caller l cs c /\ Forall (fun r => 0 <= rv_bytes r) (live_reservations s l) /\ is_ok (logical_references s caller l) = true.
Proof.
  unfold storageChargeInTx. cbv zeta. fold (charged_state s o l). destruct (charged_state s o l) as [cs|] eqn:Ec; [|done]. cbn [result_bind].
  destruct (charge_reservations _ _ _ _ _) as [[reserved m]|] eqn:Er; [|done]. cbn [result_bind fst snd].
  destruct (charge_reservations_Ok _ _ _ _ _ _ _ Er) as (-> & -> & Hb & _); [lia|]. rewrite charge_attempts_raise. fold (charged_objects s l cs).
  destruct (add_entries _ _ _ _) as [t|] eqn:Et; [|done]. cbn [result_bind]. destruct (add_entries_Ok _ _ _ _ _ Et) as [_ Hs]; [by repeat constructor|].
  destruct (add_parts _ _) as [n|] eqn:En; [|done]. cbn [result_bind]. apply add_parts_Ok in En as ->; [|lia]. fold (parts t). rewrite Hs, (charged_weights _ _ _ _ _ Ec).
  destruct (logical_references s caller l) as [refs|]; [|done]. cbn [result_bind]. intros [= <-]. exists cs. repeat split; try done; cbn; lia.
Qed.
Lemma storageCharge_total s o caller l cs :
  charged_state s o l = Ok cs -> Forall (fun r => 0 <= rv_bytes r) (live_reservations s l) -> zsum (map rv_bytes (live_reservations s l)) <= 2 ^ 63 - 1 ->
  msum (counted_keys (accounted_objects s o l)) (charged_objects s l cs) <= 2 ^ 63 - 1 -> is_ok (logical_references s caller l) = true ->
  exists c, storageChargeInTx s o caller l = Ok c /\ charge_spec s o caller l cs c.
Proof.
  intros Ec Hb Hr Hm Href. assert (exists c, storageChargeInTx s o caller l = Ok c) as (c & Hc).
  { unfold storageChargeInTx. cbv zeta. fold (charged_state s o l). rewrite Ec. cbn [result_bind]. rewrite charge_reservations_total by (done || lia). cbn [result_bind fst snd].
    rewrite charge_attempts_raise. fold (charged_objects s l cs).
    pose proof (observed_state_spec _ _ _ _ Ec) as [_ _ _ B _]. pose proof (charged_objects_nonneg _ _ _ _ Ec) as Hn.
    destruct (add_entries_total (accounted_objects s o l) (cs_attempts cs) (map_to_list (charged_objects s l cs)) (mkMachineTotals 0 0 0 0 0)) as (t & Et).
    - by repeat constructor.
    - apply Forall_forall. intros [k b] Hin. rewrite (entry_bytes_raised _ _ (charged_objects s l cs)); [|done|done|intros a v Ha; by apply attempt_claims_cover|done].
      apply elem_of_map_to_list in Hin. exact (Hn k b Hin).
    - rewrite (charged_weights _ _ _ _ _ Ec). cbn. lia.
    - rewrite Et. cbn [result_bind]. destruct (add_entries_Ok _ _ _ _ _ Et) as [Hp Hs]; [by repeat constructor|]. fold (parts t).
      rewrite (charged_weights _ _ _ _ _ Ec) in Hs. rewrite add_parts_total; [|lia|done|rewrite Hs; cbn; lia]. cbn [result_bind].
      destruct (logical_references s caller l); [|done]. cbn [result_bind]. by eexists. }
  exists c. split; [done|]. destruct (storageCharge_inv _ _ _ _ _ Hc) as (cs' & Ec' & Hs & _). rewrite Ec in Ec'. injection Ec' as <-. done.
Qed.

(** ** The charge covers the host *)
Definition identity (x : StorageObject) : StorageKind * string := (so_Kind x, so_ID x).
Lemma Valid_kind x : StorageObject_Valid x = true -> StorageKind_Valid (so_Kind x) = true.
Proof. unfold StorageObject_Valid. by destruct (StorageKind_Valid (so_Kind x)). Qed.
Lemma filter_elem {A} (p : A -> bool) l x : x ∈ List.filter p l <-> x ∈ l /\ p x = true.
Proof. by rewrite !list_elem_of_In, List.filter_In. Qed.
Lemma NoDup_map_filter {A B} (f : A -> B) (p : A -> bool) l : NoDup (map f l) -> NoDup (map f (List.filter p l)).
Proof.
  induction l as [|x l IH]; cbn; [done|]. intros [Hx Hl]%NoDup_cons. destruct (p x); [|by apply IH]. cbn. apply NoDup_cons. split; [|by apply IH].
  intros (y & Ey & [Hy _]%filter_elem)%list_elem_of_fmap. apply Hx, list_elem_of_fmap. by exists y.
Qed.
Lemma NoDup_keys objects : Forall (fun x => StorageObject_Valid x = true) objects -> NoDup (map identity objects) -> NoDup (map key_of objects).
Proof.
  induction 1 as [|x l Hx Hl IH]; cbn; [by intros _; apply NoDup_nil_2|]. intros [Hin Hnd]%NoDup_cons. apply NoDup_cons. split; [|by apply IH]. intros (y & Ey & Hy)%list_elem_of_fmap. apply Hin, list_elem_of_fmap.
  exists y. split; [|done]. rewrite Forall_forall in Hl. destruct (object_key_inj _ _ _ _ (Valid_kind _ Hx) (Valid_kind _ (Hl _ Hy)) Ey) as [Ek Ei]. unfold identity. by rewrite Ek, Ei.
Qed.
Lemma accounted_sub s o l x : x ∈ accounted_objects s o l -> x ∈ ob_objects o.
Proof. by intros [? _]%filter_elem. Qed.
(** An object that is not a container of an attempt counts by itself. *)
Lemma counted_unlabelled objects x :
  NoDup (map identity objects) -> x ∈ objects -> StorageObject_Valid x = true -> labelled x = false -> counted_keys objects (key_of x) = true.
Proof.
  intros Hnd Hx Hv Hl. unfold counted_keys, class_of, key_of. rewrite Cut_object by by apply Valid_kind. pose proof (Valid_kind _ Hv) as Hk. destruct (so_Kind x) eqn:Ek; try done. cbn.
  assert (ledger_attempt objects (so_ID x) = "") as ->; [|done]. unfold ledger_attempt. destruct (List.find _ objects) as [y|] eqn:Ey; [|done].
  apply List.find_some in Ey as [Hy [Ek' Ei']%andb_true_iff]. apply bool_decide_eq_true in Ek', Ei'.
  assert (y = x) as ->. { eapply (NoDup_map_inj identity); [exact Hnd|by apply list_elem_of_In|done|]. unfold identity. congruence. }
  unfold labelled in Hl. rewrite Ek in Hl. cbn in Hl. by apply negb_false_iff, bool_decide_eq_true in Hl.
Qed.
Lemma split_labelled objects :
  observed_bytes objects = zsum (map snd (known_claims (List.filter (fun x => negb (labelled x)) objects))) + zsum (map so_SizeBytes (List.filter (fun x => labelled x && so_SizeKnown x) objects)).
Proof.
  unfold observed_bytes, known_claims. induction objects as [|x l IH]; cbn; [done|]. destruct (labelled x); cbn; destruct (so_SizeKnown x); cbn; lia.
Qed.
Lemma attempt_claims_sum attempts : zsum (map snd (attempt_claims attempts)) = msum all attempts.
Proof. rewrite msum_list. unfold attempt_claims, all. rewrite map_map. by apply zsum_map_ext. Qed.
Lemma attempt_key_inj a b : attempt_key a = attempt_key b -> a = b.
Proof. intros E. pose proof (Cut_attempt a) as C. rewrite E, Cut_attempt in C. by injection C as ->. Qed.
Lemma attempt_claims_keys attempts : NoDup (map fst (attempt_claims attempts)).
Proof.
  unfold attempt_claims. rewrite map_map. pose proof (NoDup_fst_map_to_list attempts) as H. revert H. induction (map_to_list attempts) as [|[a v] l IH]; cbn; [done|].
  intros [Ha Hl]%NoDup_cons. apply NoDup_cons. split; [|by apply IH]. intros ([b w] & Eb & Hb)%list_elem_of_fmap. apply attempt_key_inj in Eb as ->. apply Ha, list_elem_of_fmap. by exists (b, w).
Qed.
Lemma counted_reservation objects s l r : counted_keys objects (reservation_charge_key s l r) = true.
Proof.
  unfold counted_keys, reservation_charge_key. destruct (rv_class r ==? ReserveAttempt) eqn:Ea; [unfold class_of; by rewrite Cut_attempt|]. apply bool_decide_eq_false in Ea.
  unfold physical_key. cbv zeta. set (fallback := _ +:+ _). assert (class_of objects fallback <> ToNothing) as Hf.
  { subst fallback. unfold class_of. destruct (rv_class r); [done| |];
      change (Cut _ NUL) with (Cut (("reservation:" +:+ reservation_class_string ReserveCache) +:+ String NUL (rv_key r)) NUL) ||
      change (Cut _ NUL) with (Cut (("reservation:" +:+ reservation_class_string ReserveImage) +:+ String NUL (rv_key r)) NUL); rewrite Cut_app by done; done. }
  assert (forall k id, StorageKind_Valid k = true -> k <> KindContainer -> class_of objects (storageObjectKey k id) <> ToNothing) as Hk.
  { intros k id Hv Hn. unfold class_of. rewrite Cut_object by done. by destruct k. }
  destruct (Cut (rv_key r) ":") as [[sha count] found]. destruct found; cbn [negb]; [|by destruct (class_of objects fallback)].
  destruct (rv_class r); [done| |]; (destruct (rv_operation r);
    [destruct (List.find _ _) as [x|]|destruct (newest _ _) as [x|]]); cbn [option_map default];
    match goal with |- match class_of _ (storageObjectKey ?k ?i) with _ => _ end = true => pose proof (Hk k i eq_refl ltac:(done)) | _ => idtac end; by destruct (class_of _ _).
Qed.

(** C8: the charge of a host is never below what was seen on it.
    If the charge of a machine can be computed from an observation whose
    objects are valid and distinct, then: it is the sum, over the distinct
    objects that count by themselves, of the amount recorded for each; the
    sizes of all observed objects that were not deleted since, added up, do
    not exceed it, although containers are charged through their attempts;
    every live reservation is contained in an amount that counts; and unless
    the charge is marked unknown, every observed object of unknown size has a
    recorded amount. *)
Theorem charge_covers s o caller l c :
  storageChargeInTx s o caller l = Ok c ->
  NoDup (map identity (ob_objects o)) -> Forall (fun x => StorageObject_Valid x = true) (ob_objects o) ->
  charged c = msum (counted_keys (accounted_objects s o l)) (sc_objects c) /\
  observed_bytes (accounted_objects s o l) <= charged c /\
  (forall r, r ∈ live_reservations s l -> counted_keys (accounted_objects s o l) (reservation_charge_key s l r) = true /\ covers (sc_objects c) (reservation_charge_key s l r) (rv_bytes r)) /\
  (sc_unknown c = false -> forall x, x ∈ accounted_objects s o l -> so_SizeKnown x = true \/ exists b, sc_objects c !! key_of x = Some b).
Proof.
  intros Hc Hnd Hv. destruct (storageCharge_inv _ _ _ _ _ Hc) as (cs & Ec & [Ho Hu _ Hch] & _). pose proof (observed_state_spec _ _ _ _ Ec) as [O A _ _ U]. cbn in A.
  assert (NoDup (map identity (accounted_objects s o l))) as Hna by by apply NoDup_map_filter.
  assert (Forall (fun x => StorageObject_Valid x = true) (accounted_objects s o l)) as Hva. { rewrite Forall_forall in *. intros x Hx. by eapply Hv, accounted_sub. }
  split; [done|]. split; [|split].
  - rewrite Hch, split_labelled. replace (zsum (map so_SizeBytes _)) with (zsum (map snd (attempt_claims (cs_attempts cs)))) by by rewrite attempt_claims_sum, A.
    rewrite <- zsum_app, <- map_app. apply msum_covers; [rewrite Ho; by eapply charged_objects_nonneg| |].
    + rewrite map_app. apply NoDup_app. split; [|split; [|apply attempt_claims_keys]].
      * unfold known_claims. rewrite map_map. cbn. do 2 apply NoDup_map_filter. by apply NoDup_keys.
      * intros k (kb & -> & Hkb)%list_elem_of_fmap (ab & Ek & Hab)%list_elem_of_fmap. apply list_elem_of_fmap in Hkb as (x & -> & [[Hx _]%filter_elem _]%filter_elem).
        apply list_elem_of_fmap in Hab as (av & -> & _). rewrite Forall_forall in Hva. pose proof (Cut_object (so_Kind x) (so_ID x) (Valid_kind _ (Hva _ Hx))) as C.
        cbn in Ek. unfold key_of in Ek. rewrite Ek, Cut_attempt in C. injection C as C _. by destruct (so_Kind x) eqn:E; [| | |specialize (Valid_kind _ (Hva _ Hx)); rewrite E].
    + apply Forall_app. split; apply Forall_forall; intros kb Hkb.
      * pose proof Hkb as Hkb'. apply list_elem_of_fmap in Hkb as (x & -> & [[Hx Hl]%filter_elem Hs]%filter_elem). apply negb_true_iff in Hl. cbn. rewrite Forall_forall in Hva. split; [by apply counted_unlabelled; auto|].
        rewrite Ho. unfold charged_objects. do 2 apply covers_raise_all. rewrite O. apply raise_all_covers, list_elem_of_fmap. exists x. split; [done|]. by apply filter_elem.
      * apply list_elem_of_fmap in Hkb as ([a v] & -> & Hav). cbn. split; [unfold counted_keys, class_of; by rewrite Cut_attempt|]. rewrite Ho. apply attempt_claims_cover. by apply elem_of_map_to_list.
  - intros r Hr. split; [apply counted_reservation|]. rewrite Ho. unfold charged_objects. apply covers_raise_all, raise_all_covers, list_elem_of_fmap. by exists r.
  - rewrite Hu. intros [_ HF]%U x Hx. rewrite Forall_forall in HF. destruct (HF x Hx) as [?|(b & Hb)]; [by left|]. right. rewrite Ho. unfold charged_objects.
    destruct (raise_all_Some (reservation_claims s l (live_reservations s l)) _ _ _ Hb) as (b' & Hb'). by eapply raise_all_Some.
Qed.

(** ** Admission keeps the charge under the limit *)
Lemma insert_proposed_Ok s a now rids rs l l' :
  insert_proposed s a now rids rs l = Ok l' ->
  exists rows, l' = with_reservations l (lg_reservations l ++ rows) /\ Forall (fun r => rv_scope r = s /\ rv_state r = ReservedProvisional /\ 0 <= rv_bytes r) rows /\ map rv_bytes rows = map sr_bytes rs.
Proof.
  revert rids l. induction rs as [|r rs IH]; intros rids l; cbn [insert_proposed].
  - intros [= <-]. exists []. rewrite app_nil_r. repeat split; [by destruct l|constructor].
  - set (row := mkReservationRow _ _ _ _ _ _ _ _ _ _). destruct (insert_reservation row l) as [l1|] eqn:E; [|done]. cbn [result_bind]. intros H.
    unfold insert_reservation in E. destruct (_ || _ || _) eqn:Eg in E; [done|]. injection E as <-. apply orb_false_iff in Eg as [[_ Hck]%orb_false_iff _]. apply negb_false_iff in Hck.
    destruct (IH _ _ H) as (rows & -> & HF & Hb). exists (row :: rows). cbn. rewrite <- app_assoc. repeat split; [|by rewrite Hb].
    constructor; [|done]. repeat split. unfold reservation_check in Hck. rewrite !andb_true_iff in Hck. cbn in *. lia.
Qed.
Lemma add_proposed_Ok total rs n : add_proposed total rs = Ok n -> n = total + zsum (map sr_bytes rs).
Proof.
  revert total. induction rs as [|r rs IH]; intros total; cbn; [intros [= <-]; lia|]. destruct (AddChecked total (sr_bytes r)) as [x|] eqn:E; [|done].
  apply AddChecked_Ok in E as (_ & _ & _ & ->). intros ->%IH. lia.
Qed.
Lemma add_proposed_bound total rs n : add_proposed total rs = Ok n -> 0 <= total <= 2 ^ 63 - 1 -> n <= 2 ^ 63 - 1.
Proof.
  revert total. induction rs as [|r rs IH]; intros total; cbn; [intros [= <-]; lia|]. destruct (AddChecked total (sr_bytes r)) as [x|] eqn:E; [|done].
  apply AddChecked_Ok in E as (? & ? & ? & ->). intros H' _. apply (IH _ H'). lia.
Qed.
Lemma min_budgets_le effective rows b : min_budgets effective rows = Ok b -> bg_HardBytes b <= bg_HardBytes effective /\ Forall (fun r => bg_HardBytes b <= bg_HardBytes r) rows.
Proof.
  revert effective. induction rows as [|r rows IH]; intros effective; cbn; [intros [= <-]; split; [lia|constructor]|]. destruct (negb _); [done|]. intros H. destruct (IH _ H) as [H1 H2]. cbn in H1.
  split; [lia|]. constructor; [lia|done].
Qed.
Lemma live_more s l rows : Forall (fun r => rv_scope r = s /\ rv_state r = ReservedProvisional /\ 0 <= rv_bytes r) rows ->
  live_reservations s (with_reservations l (lg_reservations l ++ rows)) = live_reservations s l ++ rows.
Proof.
  intros H. unfold live_reservations. cbn. rewrite List.filter_app. f_equal. induction H as [|r rows (Hs & Hp & _) _ IH]; cbn; [done|]. by rewrite Hs, Hp, bool_decide_eq_true_2, IH by done.
Qed.
(** New reservations raise the charge by at most their bytes, and leave what
    is known about the host as it was. *)
Lemma charge_grows s o caller l rows c :
  storageChargeInTx s o caller l = Ok c -> Forall (fun r => rv_scope r = s /\ rv_state r = ReservedProvisional /\ 0 <= rv_bytes r) rows ->
  charged c + zsum (map rv_bytes rows) <= 2 ^ 63 - 1 -> sc_reserved c + zsum (map rv_bytes rows) <= 2 ^ 63 - 1 ->
  exists c', storageChargeInTx s o caller (with_reservations l (lg_reservations l ++ rows)) = Ok c' /\ sc_unknown c' = sc_unknown c /\
    charged c <= charged c' <= charged c + zsum (map rv_bytes rows).
Proof.
  intros Hc Hrows Hle Hres. set (l' := with_reservations _ _). destruct (storageCharge_inv _ _ _ _ _ Hc) as (cs & Ec & [Ho Hu Hr Hch] & Hb & Href).
  assert (charged_state s o l' = Ok cs) as Ec' by exact Ec.
  pose proof (live_more s l rows Hrows) as Hlive. fold l' in Hlive.
  assert (charged_objects s l' cs = raise_all (reservation_claims s l rows) (charged_objects s l cs)) as Hobj.
  { unfold charged_objects. rewrite Hlive. unfold reservation_claims at 1. rewrite map_app, raise_all_app. rewrite (raise_all_swap (attempt_claims _)). done. }
  assert (Forall (fun kb => 0 <= kb.2) (reservation_claims s l rows)) as Hpos. { apply Forall_map. eapply Forall_impl; [exact Hrows|]. by intros r (_ & _ & ?). }
  pose proof (charged_objects_nonneg _ _ _ _ Ec) as Hn.
  pose proof (msum_raise_all (counted_keys (accounted_objects s o l)) _ _ Hn Hpos) as Hm. rewrite <- Hobj in Hm.
  replace (map snd (reservation_claims s l rows)) with (map rv_bytes rows) in Hm by (unfold reservation_claims; by rewrite map_map). rewrite <- Ho, <- Hch in Hm.
  destruct (storageCharge_total s o caller l' cs Ec') as (c' & Hc' & [Ho' Hu' _ Hch']).
  - rewrite Hlive. apply Forall_app. split; [done|]. eapply Forall_impl; [exact Hrows|]. by intros r (_ & _ & ?).
  - rewrite Hlive, map_app, zsum_app. lia.
  - change (accounted_objects s o l') with (accounted_objects s o l). lia.
  - exact Href.
  - exists c'. split; [done|]. split; [congruence|]. rewrite Hch', Ho'. change (accounted_objects s o l') with (accounted_objects s o l). lia.
Qed.

Section Gate.
Context (connection_budgets : StorageScope -> list Budget).
Lemma below_hard_limit_Ok s frozen now l c effective :
  below_hard_limit connection_budgets s frozen now l = Ok (c, effective) ->
  freshStorageCharge s now l = Ok c /\ (exists configured, frozen = Ok configured /\ effectiveStorageBudget connection_budgets s configured = Ok effective) /\ charged c < bg_HardBytes effective.
Proof.
  unfold below_hard_limit. destruct (freshStorageCharge s now l) as [x|]; [|done]. cbn [result_bind]. destruct frozen as [configured|]; [|done]. cbn [result_bind].
  destruct (effectiveStorageBudget connection_budgets s configured) as [b|] eqn:E; [|done]. cbn [result_bind]. destruct (_ <=? _) eqn:El; [done|]. intros [= <- <-].
  split; [done|]. split; [by exists configured|lia].
Qed.
Lemma freshStorageCharge_Ok s now l c :
  freshStorageCharge s now l = Ok c <-> exists o, latestStorageObservation s l = Ok o /\ fresh o now = true /\ storageChargeInTx s o "" l = Ok c /\ sc_unknown c = false.
Proof.
  unfold freshStorageCharge. split.
  - destruct (latestStorageObservation s l) as [o|]; [|done]. cbn [result_bind]. destruct (fresh o now) eqn:Ef; [|done]. cbn [negb]. destruct (storageChargeInTx s o "" l) as [x|] eqn:Ec; [|done]. cbn [result_bind].
    destruct (sc_unknown x) eqn:Eu; [done|]. intros [= <-]. by exists o.
  - intros (o & -> & Hf & Hc & Hu). cbn [result_bind]. rewrite Hf. cbn [negb]. rewrite Hc. cbn [result_bind]. by rewrite Hu.
Qed.
Lemma charged_nonneg s o caller l c : storageChargeInTx s o caller l = Ok c -> 0 <= charged c.
Proof. intros (cs & Ec & [Ho _ _ Hch] & _)%storageCharge_inv. rewrite Hch, Ho. by eapply msum_nonneg, charged_objects_nonneg. Qed.

(** C6: work admitted for a host leaves the host below
    every limit. If an attempt is admitted for a machine, the machine's charge
    was fresh and known; and unless the total of all reservations could leave
    64 bits, the charge after the admission, computed from the reservations it
    added, is again known, at least the charge before, and below the hard
    limit of the frozen profile and of every enabled connection to that
    machine; so the attempt passes the gate for new work. *)
Theorem admission_within_budget a t frozen refs rids now l x l' :
  storageAdmission connection_budgets a (Ok (Some t)) frozen refs rids now l = Ok (x, l') ->
  exists configured effective c, frozen = Ok configured /\ effectiveStorageBudget connection_budgets (target_scope t) configured = Ok effective /\
    freshStorageCharge (target_scope t) now l = Ok c /\
    (sc_reserved c + bg_HardBytes effective <= MaxInt64 ->
     exists c', freshStorageCharge (target_scope t) now l' = Ok c' /\ charged c <= charged c' /\ charged c' < bg_HardBytes configured /\
       Forall (fun b => charged c' < bg_HardBytes b) (connection_budgets (target_scope t)) /\
       checkStorageNewWork connection_budgets (Ok (Some t)) frozen now l' = None).
Proof.
  unfold storageAdmission. cbn [result_bind]. set (s := target_scope t). destruct (below_hard_limit _ s frozen now l) as [[c effective]|] eqn:Eb; [|done]. cbn [result_bind fst snd].
  destruct (below_hard_limit_Ok _ _ _ _ _ _ Eb) as (Hfresh & (configured & Hfrozen & Heff) & _). set (proposed := _ :: _).
  destruct (add_proposed (charged c) proposed) as [total|] eqn:Et; [|done]. cbn [result_bind]. destruct (bg_HardBytes effective <=? total) eqn:El; [done|].
  destruct (insert_proposed s a now rids proposed l) as [l1|] eqn:Ei; [|done]. cbn [result_bind]. intros [= _ <-].
  exists configured, effective, c. split; [done|]. split; [done|]. split; [done|]. intros Hres.
  destruct (insert_proposed_Ok _ _ _ _ _ _ _ Ei) as (rows & -> & Hrows & Hbytes). pose proof (add_proposed_Ok _ _ _ Et) as Htot. rewrite <- Hbytes in Htot.
  apply freshStorageCharge_Ok in Hfresh as (o & Hobs & Hf & Hc & Hu). pose proof (charged_nonneg _ _ _ _ _ Hc) as Hpos.
  assert (0 <= zsum (map rv_bytes rows)) as Hz. { apply zsum_nonneg, Forall_map. eapply Forall_impl; [exact Hrows|]. by intros r (_ & _ & ?). }
  assert (charged c + zsum (map rv_bytes rows) <= 2 ^ 63 - 1 /\ sc_reserved c + zsum (map rv_bytes rows) <= 2 ^ 63 - 1) as [Hle1 Hle2].
  { destruct (storageCharge_inv _ _ _ _ _ Hc) as (_ & _ & [_ _ Hr _] & Hb & _). assert (0 <= sc_reserved c) by (rewrite Hr; by apply zsum_nonneg, Forall_map). unfold MaxInt64 in Hres. lia. }
  destruct (charge_grows _ _ _ _ _ _ Hc Hrows Hle1 Hle2) as (c' & Hc' & Hu' & Hge & Hle).
  assert (freshStorageCharge s now (with_reservations l (lg_reservations l ++ rows)) = Ok c') as Hfresh'. { apply freshStorageCharge_Ok. exists o. split; [exact Hobs|]. split; [done|]. split; [done|congruence]. }
  destruct (min_budgets_le _ _ _ Heff) as [Hconf Hconn]. exists c'. split; [done|]. split; [done|]. split; [lia|]. split.
  - eapply Forall_impl; [exact Hconn|]. cbn. intros b Hb. lia.
  - unfold checkStorageNewWork, below_hard_limit. fold s. rewrite Hfresh'. cbn [result_bind]. rewrite Hfrozen. cbn [result_bind]. rewrite Heff. cbn [result_bind].
    replace (bg_HardBytes effective <=? charged c') with false by lia. reflexivity.
Qed.
End Gate.
