(* ===== verification/StorageEviction.v ===== *)
(** * Evictions

    [QueueStorageEvictions] of [store/sqlite/storage_eviction.go], with the
    orphans of [storage_view.go] and the checks on labels of
    [storage_cleanup_admission.go]: which objects of a host are queued for
    deletion once it holds too much, and which are shown as orphans. *)

From S2P Require Import Prelude GoStrings GoTime Identifiers Problems GoSha256 GoJson Canonical DomainRecords Operations ControlOps Provider ProviderResources Admission Scheduler Cleanup HostStorage StoreTx CacheLedger StorageDeletion StorageAccount.
#[local] Open Scope string_scope.
#[local] Open Scope list_scope.
#[local] Open Scope Z_scope.
#[local] Open Scope bool_scope.

Definition cacheVolumeLimit : Z := 64.

(** ** Labels that identify an object of this installation *)
Definition storageLowerHex (s : string) (length : Z) : bool := (len s =? length) && lowerHex s.
Definition trim_prefix (p s : string) : string := match strip_prefix (bytes_of p) (bytes_of s) with Some l => string_of l | None => s end.
Definition credibleStorageOrphan (s : StorageScope) (o : StorageObject) (caller : string) : bool :=
  let lab := storage_label o in
  (lab "installation" ==? sp_InstallationID s) &&
  match so_Kind o with
  | KindContainer =>
      (lab "workspace" ==? caller) && ID_Valid (lab "job") && ID_Valid (lab "attempt") && ID_Valid (lab "instance") && ID_Valid (lab "preparation")
      && SHA256Digest_Valid (lab "plan") && storageLowerHex (lab "nonce") 64 && storageNativeEngine (lab "engine")
  | KindVolume =>
      let generation := lab "generation" in
      HasPrefix generation "hcgen_" && storageLowerHex (trim_prefix "hcgen_" generation) 32 && (so_ID o ==? "relay-cache-" +:+ trim_prefix "hcgen_" generation)
      && (lab "machine" ==? sp_MachineID s) && (lab "engine" ==? sp_EngineID s) && (lab "kind" ==? "cache") && SHA256Digest_Valid (lab "sha256")
      && match parse_int (bytes_of (lab "bytes")) with Some bytes => (0 <=? bytes) && (FormatInt bytes ==? lab "bytes") | None => false end
      && ID_Valid (lab "operation")
  | KindImage =>
      (lab "image-kind" ==? "application") && (lab "image-schema" ==? "application/1") && (lab "image-machine" ==? sp_MachineID s) && (lab "image-engine" ==? sp_EngineID s)
      && SHA256Digest_Valid (lab "archive-sha256")
  | KindOther _ => false
  end.

(** ** Orphans *)
(** Texts with a zero byte between them. *)
Definition nul_joined (parts : list string) : string := String.concat (String NUL "") parts.
Definition opaqueOrphanID (s : StorageScope) (seq : Z) (class : StorageKind) (id : string) : string :=
  "orphan_" +:+ sha256_hex (nul_joined [sp_InstallationID s; sp_MachineID s; sp_EngineID s; FormatInt seq; StorageKind_string class; id]).
Record StorageOrphan := mkStorageOrphan { so_orphan : string; so_class : StorageKind; so_charged : Z; so_eligible : bool }.
Section Orphans.
Context (container_known : StorageScope -> string -> bool).
Fixpoint project_orphans (s : StorageScope) (seq : Z) (caller : string) (l : ledger) (objects : list StorageObject) (acc : list StorageOrphan) : result error (list StorageOrphan * bool) :=
  match objects with
  | [] => Ok (acc, false)
  | o :: objects' =>
      do known <- storageKnownObject container_known s (so_Kind o) (so_ID o) (so_Labels o) l ;;
      if known then project_orphans s seq caller l objects' acc
      else
        let other := storage_label o "workspace" in
        if (so_Kind o ==? KindContainer) && (other <>? "") && (other <>? caller) then project_orphans s seq caller l objects' acc
        else if 64 <=? Z.of_nat (length acc) then Ok (acc, true)
        else
          let eligible := negb (so_Running o) && ((so_Kind o ==? KindContainer) || (so_References o =? 0)) in
          project_orphans s seq caller l objects'
            (acc ++ [mkStorageOrphan (opaqueOrphanID s seq (so_Kind o) (so_ID o)) (so_Kind o) (so_SizeBytes o) (credibleStorageOrphan s o caller && eligible)])
  end.
(** The orphans of a view, and whether some were left out. *)
Definition projectStorageOrphans (s : StorageScope) (o : storageObservation) (caller : string) (l : ledger) : result error (list StorageOrphan * bool) :=
  if ob_state o <>? "complete" then Ok ([], false) else project_orphans s (ob_seq o) caller l (ob_objects o) [].
End Orphans.

(** ** Candidates *)
Record evictionCandidate := mkEvictionCandidate {
  ec_class : StorageKind; ec_id : string; ec_used : string; ec_bytes : Z; ec_generation : string; ec_operation : string; ec_sha : string }.
Definition candidate_le (a b : evictionCandidate) : Prop :=
  (if ec_used a ==? ec_used b then str_leb (ec_id a) (ec_id b) else str_leb (ec_used a) (ec_used b)) = true.
#[local] Instance candidate_le_dec a b : Decision (candidate_le a b).
Proof. unfold candidate_le. apply _. Defined.
Definition idle_generation (s : StorageScope) (l : ledger) (g : gen_row) : bool :=
  in_scope s g && ((gr_state g ==? CacheVerified) || (gr_state g ==? CacheRetired)) && (gr_phase g ==? WriterFinished)
  && negb (existsb (fun p => (pn_key p ==? gr_key g) && live_pin p) (lg_pins l)).
Definition idle_image (s : StorageScope) (l : ledger) (i : image_row) : bool :=
  image_in_scope s i && ((im_state i ==? StateReady) || (im_state i ==? StateRetired)) && (im_image i <>? "") && negb (image_pinned (im_key i) l).
Definition eviction_candidates (s : StorageScope) (l : ledger) : list evictionCandidate :=
  take 2049 (merge_sort candidate_le
    (map (fun g => mkEvictionCandidate KindVolume (gr_volume g) (gr_last_used_at g) (hk_Bytes (gr_key g)) (gr_id g) (gr_operation g) (hk_SHA256 (gr_key g))) (List.filter (idle_generation s l) (lg_generations l))
     ++ map (fun i => mkEvictionCandidate KindImage (im_image i) (im_last_used_at i) (ik_ArchiveBytes (im_key i)) (im_id i) (im_operation i) (ik_ArchiveSHA256 (im_key i))) (List.filter (idle_image s l) (lg_images l)))).

(** A deletion that is still open, or has removed the object since the scan. *)
Definition deletion_settles (s : StorageScope) (class : StorageKind) (id : string) (seq : Z) (d : deletion_row) : bool :=
  (tg_Scope (dl_target d) ==? s) && (tg_Class (dl_target d) ==? class) && (tg_ID (dl_target d) ==? id)
  && (open_deletion d || ((dl_result d ==? ResultDeleted) || (dl_result d ==? ResultAbsent)) && (seq <=? dl_confirmed_scan d)).
Definition cache_volume (o : StorageObject) : bool := (so_Kind o ==? KindVolume) && (storage_label o "kind" ==? "cache").
Definition application_image (s : StorageScope) (o : StorageObject) : bool :=
  (so_Kind o ==? KindImage) && (storage_label o "image-kind" ==? "application") && (storage_label o "image-machine" ==? sp_MachineID s) && (storage_label o "image-engine" ==? sp_EngineID s).
(** [SELECT count(DISTINCT object_id)]: images of the scan whose removal is on
    its way. *)
Definition scheduled_images (s : StorageScope) (o : storageObservation) (l : ledger) : Z :=
  let seen := map so_ID (List.filter (fun x => so_Kind x ==? KindImage) (ob_objects o)) in
  Z.of_nat (length (remove_dups (map (fun d => tg_ID (dl_target d))
    (List.filter (fun d => bool_decide (tg_ID (dl_target d) ∈ seen) && deletion_settles s KindImage (tg_ID (dl_target d)) (ob_seq o) d) (lg_deletions l))))).

(** The labels of the object name exactly the generation of the candidate. *)
Definition same_generation_labels (s : StorageScope) (w : string) (item : evictionCandidate) (o : StorageObject) : bool :=
  let lab := storage_label o in
  if ec_class item ==? KindVolume then
    (lab "generation" ==? ec_generation item) && (lab "operation" ==? ec_operation item) && (lab "sha256" ==? ec_sha item) && (lab "bytes" ==? FormatInt (ec_bytes item))
    && credibleStorageOrphan s o w
  else
    (lab "archive-sha256" ==? ec_sha item) && (lab "image-kind" ==? "application") && (lab "image-schema" ==? "application/1")
    && (lab "image-machine" ==? sp_MachineID s) && (lab "image-engine" ==? sp_EngineID s).

Record eviction_need := mkEvictionNeed { en_remaining : Z; en_excess : Z; en_image_excess : Z }.
Definition satisfied (n : eviction_need) : bool := (en_remaining n <=? 0) && (en_excess n <=? 0) && (en_image_excess n <=? 0).
(** Why this candidate is wanted; [None] when it is not. *)
Definition eviction_reason (n : eviction_need) (class : StorageKind) : option string :=
  if 0 <? en_remaining n then Some "soft_limit_lru"
  else if (class ==? KindVolume) && (0 <? en_excess n) then Some "count_limit_lru"
  else if (class ==? KindImage) && (0 <? en_image_excess n) then Some "image_count_limit_lru"
  else None.
Definition freed (charges : gmap string Z) (class : StorageKind) (id : string) (n : eviction_need) : eviction_need :=
  mkEvictionNeed (en_remaining n - default 0 (charges !! storageObjectKey class id))
    (if class ==? KindVolume then en_excess n - 1 else en_excess n) (if class ==? KindImage then en_image_excess n - 1 else en_image_excess n).
(** The last object with a key, as in a map filled in order. *)
Definition object_named (class : StorageKind) (id : string) (objects : list StorageObject) : option StorageObject :=
  List.find (fun o => (so_Kind o ==? class) && (so_ID o ==? id)) (rev objects).
Definition eviction_target (s : StorageScope) (item : evictionCandidate) (o : StorageObject) : StorageTarget :=
  mkStorageTarget s (ec_class item) (ec_id item) (so_Labels o) (if ec_class item ==? KindImage then EvictImage else EvictCache).
(** What makes a candidate unfit: it was not seen with a known size and
    without references, its labels differ, it is being deleted already, or the
    target is invalid. *)
Definition fit (s : StorageScope) (w : string) (o : storageObservation) (l : ledger) (item : evictionCandidate) : option StorageTarget :=
  match object_named (ec_class item) (ec_id item) (ob_objects o) with
  | None => None
  | Some x =>
      if negb (so_SizeKnown x) || negb (so_References x =? 0) || (ec_bytes item <? 0) || negb (same_generation_labels s w item x)
         || existsb (deletion_settles s (ec_class item) (ec_id item) (ob_seq o)) (lg_deletions l) then None
      else let t := eviction_target s item x in if StorageTarget_Valid t then Some t else None
  end.
Definition eviction_hash (s : StorageScope) (class : StorageKind) (id : string) (seq : Z) : string :=
  sha256_hex (nul_joined [sp_InstallationID s; sp_MachineID s; sp_EngineID s; StorageKind_string class; id; FormatInt seq]).
(** [ids] are the identifiers drawn, one per queued deletion. *)
Fixpoint queue_evictions (s : StorageScope) (w connection : string) (binding : BindingSnapshot) (o : storageObservation) (charges : gmap string Z) (now : Time)
    (items : list evictionCandidate) (ids : list string) (n : eviction_need) (l : ledger) : result error ledger :=
  match items with
  | [] => Ok l
  | item :: items' =>
      if satisfied n then Ok l
      else
        match eviction_reason n (ec_class item), fit s w o l item with
        | Some reason, Some t =>
            throw 4096 <? len (Marshal (json_map (tg_Labels t))) with store_ErrCorrupt ;;
            let hash := eviction_hash s (ec_class item) (ec_id item) (ob_seq o) in
            do l' <- insert_deletion (mkDeletionRow ("stev_" +:+ hd "" ids) w (mkDeletionOrigin connection None hash hash "system") t binding DeletionAccepted ResultPending reason (FormatRFC3339Nano now) (FormatRFC3339Nano now) 0) l ;;
            queue_evictions s w connection binding o charges now items' (tl ids) (freed charges (ec_class item) (ec_id item) n) l'
        | _, _ => queue_evictions s w connection binding o charges now items' ids n l
        end
  end.

Section Queue.
Context (connection_budgets : StorageScope -> list Budget).
(** [target] and [frozen] are what the frozen profile says; [enabled]: its
    connection is verified, enabled and idle. *)
Definition QueueStorageEvictions (s : StorageScope) (w : string) (profile : Profile) (target : result error (option frozenCacheTarget)) (enabled : bool) (frozen : result error Budget)
    (ids : list string) : txn ledger unit := fun now l =>
  throw negb (StorageScope_Valid s) || negb (ID_Valid w) || not_nil (Profile_Validate profile) with store_ErrInvalid ;;
  match target with
  | Ok (Some t) =>
      throw target_scope t <>? s with storage_ErrUnverified ;;
      match VaultReference (pf_CredentialRef profile) with
      | None => Err store_ErrCorrupt
      | Some connection =>
      if negb enabled then Ok (tt, l)
      else
        do o <- latestStorageObservation s l ;;
        throw negb (fresh o now) with storage_ErrUnknown ;;
        do c <- storageChargeInTx s o w l ;;
        throw sc_unknown c with storage_ErrUnknown ;;
        do configured <- frozen ;;
        do effective <- effectiveStorageBudget connection_budgets s configured ;;
        let excess := count_where cache_volume (ob_objects o) - cacheVolumeLimit in
        let imageExcess := count_where (application_image s) (ob_objects o) - ImageRetentionTarget in
        let imageExcess := if 0 <? imageExcess then imageExcess - scheduled_images s o l else imageExcess in
        if (charged c <=? bg_SoftBytes effective) && (excess <=? 0) && (imageExcess <=? 0) then Ok (tt, l)
        else
          let candidates := eviction_candidates s l in
          throw 2048 <? Z.of_nat (length candidates) with storage_ErrUnknown ;;
          let binding := mkBindingSnapshot (pf_Binding profile) (pf_AccountScope profile) (pf_CredentialRef profile) in
          throw 8192 <? len (Marshal (json_binding_snapshot binding)) with store_ErrCorrupt ;;
          do l' <- queue_evictions s w connection binding o (sc_objects c) now candidates ids (mkEvictionNeed (charged c - bg_SoftBytes effective) excess imageExcess) l ;;
          Ok (tt, l')
      end
  | _ => Err storage_ErrUnverified
  end.
End Queue.

(** ** Deletions a manager asks for *)
Definition connections_ErrNotFound : error := ENew "connection or operation not found".
Definition key_conflict : error := ENew "idempotency key was used with a different request".
Definition StorageAction_string (a : StorageAction) : string :=
  match a with
  | OrphanContainer => "orphan_container" | OrphanVolume => "orphan_volume" | OrphanImage => "orphan_image" | EvictCache => "evict_cache" | EvictImage => "evict_image"
  | StorageActionOther raw => raw
  end.
Definition orphan_action (k : StorageKind) : StorageAction := match k with KindVolume => OrphanVolume | KindImage => OrphanImage | _ => OrphanContainer end.
Definition json_scope (s : StorageScope) : json :=
  JObj [("InstallationID", JStr (sp_InstallationID s)); ("MachineID", JStr (sp_MachineID s)); ("EngineID", JStr (sp_EngineID s))].
Definition json_target (t : StorageTarget) : json :=
  JObj [("Scope", json_scope (tg_Scope t)); ("Class", JStr (StorageKind_string (tg_Class t))); ("ID", JStr (tg_ID t)); ("Labels", json_map (tg_Labels t));
        ("Action", JStr (StorageAction_string (tg_Action t)))].
Definition storageFingerprint (c : StorageCandidate) (observed : Time) : string :=
  sha256_hex (Marshal (JObj [("Scope", json_scope (tg_Scope (scd_Target c))); ("Target", json_target (scd_Target c)); ("Binding", json_binding_snapshot (scd_Binding c));
    ("ScanSeq", JInt (scd_ScanSeq c)); ("ObservedAt", JStr (FormatRFC3339Nano observed))])).

Section Admission.
Context (container_known : StorageScope -> string -> bool).
(** [place] is what the connection of the request resolves to. *)
Definition findStorageOrphan (w connection orphan : string) (place : result error (StorageScope * BindingSnapshot)) (now : Time) (l : ledger) : result error StorageCandidate :=
  do p <- place ;;
  do latest <- latestStorageObservation p.1 l ;;
  throw negb (fresh latest now) with storage_ErrUnknown ;;
  match List.find (fun o => opaqueOrphanID p.1 (ob_seq latest) (so_Kind o) (so_ID o) ==? orphan) (ob_objects latest) with
  | None => Err connections_ErrNotFound
  | Some o =>
      do known <- storageKnownObject container_known p.1 (so_Kind o) (so_ID o) (so_Labels o) l ;;
      throw known with ENew storage_ErrIneligible_text ;;
      throw negb (credibleStorageOrphan p.1 o w) with storage_ErrUnverified ;;
      let t := mkStorageTarget p.1 (so_Kind o) (so_ID o) (so_Labels o) (orphan_action (so_Kind o)) in
      throw negb (StorageTarget_Valid t) with storage_ErrUnverified ;;
      Ok (mkStorageCandidate w connection orphan (ob_seq latest) t p.2)
  end.
(** [actor]: why the token may not manage the workspace, if so. *)
Definition store_FindStorageOrphan (w connection orphan : string) (actor : option error) (place : result error (StorageScope * BindingSnapshot)) : txn ledger StorageCandidate := fun now l =>
  match actor with Some e => Err e | None => do c <- findStorageOrphan w connection orphan place now l ;; Ok (c, l) end.

Definition insert_preview (p : preview_row) (l : ledger) : result error ledger :=
  throw existsb (fun r => pv_id r ==? pv_id p) (lg_previews l) || negb (len (pv_fingerprint p) =? 64) || (len (pv_reason p) <? 1) || (64 <? len (pv_reason p)) || negb (0 <? pv_expires_ms p)
        || (len (pv_object p) <? 1) || (255 <? len (pv_object p)) with store_ErrConflict ;;
  Ok (with_previews l (lg_previews l ++ [p])).
Definition preview_ttl : Duration := 2 * Minute.
Definition store_RecordStoragePreview (w : string) (actor : option error) (place : result error (StorageScope * BindingSnapshot)) (c : StorageCandidate) (observed : TargetObservation) (id : string) :
    txn ledger StoragePreview := fun now l =>
  throw (scd_WorkspaceID c <>? w) || negb (StorageTarget_Valid (scd_Target c)) || negb (BindingSnapshot_Valid (scd_Binding c)) || IsZero (to_ObservedAt observed)
        || (len (to_Reason observed) <? 1) || (64 <? len (to_Reason observed)) with store_ErrInvalid ;;
  match actor with
  | Some e => Err e
  | None =>
      throw After (to_ObservedAt observed) now || (ScanFreshness <? time_Sub now (to_ObservedAt observed)) with storage_ErrUnknown ;;
      do current <- findStorageOrphan w (scd_ConnectionID c) (scd_OrphanID c) place now l ;;
      throw negb (scd_ScanSeq current =? scd_ScanSeq c) || (scd_Binding current <>? scd_Binding c) || (tg_ID (scd_Target current) <>? tg_ID (scd_Target c)) with ENew storage_ErrIneligible_text ;;
      let fingerprint := storageFingerprint c (to_ObservedAt observed) in
      let until := now + preview_ttl in
      do l' <- insert_preview (mkPreviewRow ("stprev_" +:+ id) w (scd_ConnectionID c) (scd_ScanSeq c) (tg_Class (scd_Target c)) (tg_ID (scd_Target c)) fingerprint (to_Eligible observed)
        (to_Reason observed) (UnixMilli until) (FormatRFC3339Nano now)) l ;;
      Ok (mkStoragePreview (scd_OrphanID c) (tg_Class (scd_Target c)) (to_SizeBytes observed) (to_Eligible observed) (to_Reason observed) fingerprint until, l')
  end.

Definition DeletionStatus_string (s : DeletionStatus) : string :=
  match s with DeletionAccepted => "accepted" | DeletionRunning => "running" | DeletionSucceeded => "succeeded" | DeletionFailed => "failed" end.
Definition readStorageOperation (w id : string) (l : ledger) : result error StorageOperation :=
  match List.find (fun d => (dl_operation d ==? id) && (dl_workspace d ==? w)) (lg_deletions l) with
  | None => Err connections_ErrNotFound
  | Some d =>
      match ParseRFC3339 (dl_created_at d), ParseRFC3339 (dl_updated_at d) with
      | Some created, Some updated => Ok (mkStorageOperation (dl_operation d) (DeletionStatus_string (dl_status d)) (DeletionResult_string (dl_result d)) (dl_reason d) created updated)
      | _, _ => Err store_ErrCorrupt
      end
  end.
Definition store_ReadStorageCleanup (w id : string) (actor : option error) : txn ledger StorageOperation := fun _ l =>
  match actor with Some e => Err e | None => do op <- readStorageOperation w id l ;; Ok (op, l) end.
(** The request was accepted before: the same preview of the same object. *)
Definition same_request (connection orphan fingerprint : string) (l : ledger) (d : deletion_row) : bool :=
  (dg_fingerprint (dl_origin d) ==? fingerprint) && (dg_connection (dl_origin d) ==? connection)
  && match dg_preview (dl_origin d) with
     | Some id =>
         match List.find (fun p => pv_id p ==? id) (lg_previews l) with
         | Some p => opaqueOrphanID (tg_Scope (dl_target d)) (pv_scan p) (tg_Class (dl_target d)) (tg_ID (dl_target d)) ==? orphan
         | None => false
         end
     | None => false
     end.
Definition latest_preview (w connection fingerprint : string) (t : StorageTarget) (l : ledger) : option preview_row :=
  newest pv_created_at (List.filter (fun p => (pv_workspace p ==? w) && (pv_connection p ==? connection) && (pv_class p ==? tg_Class t) && (pv_object p ==? tg_ID t) && (pv_fingerprint p ==? fingerprint)) (lg_previews l)).
Definition store_AdmitStorageCleanup (w token connection orphan fingerprint key : string) (actor : option error) (place : result error (StorageScope * BindingSnapshot)) (id : string) :
    txn ledger StorageOperation := fun now l =>
  match KeyDigest key with
  | Err _ => Err store_ErrInvalid
  | Ok hash =>
      throw negb (SHA256Digest_Valid fingerprint) with store_ErrInvalid ;;
      match actor with
      | Some e => Err e
      | None =>
          match List.find (fun d => (dl_workspace d ==? w) && (dg_key (dl_origin d) ==? hash)) (lg_deletions l) with
          | Some d =>
              throw negb (same_request connection orphan fingerprint l d) with key_conflict ;;
              do op <- readStorageOperation w (dl_operation d) l ;; Ok (op, l)
          | None =>
              do c <- findStorageOrphan w connection orphan place now l ;;
              match latest_preview w connection fingerprint (scd_Target c) l with
              | None => Err (ENew storage_ErrIneligible_text)
              | Some p =>
                  throw negb (pv_eligible p) || (pv_expires_ms p <=? UnixMilli now) || negb (pv_scan p =? scd_ScanSeq c) with ENew storage_ErrIneligible_text ;;
                  throw 4096 <? len (Marshal (json_map (tg_Labels (scd_Target c)))) with store_ErrCorrupt ;;
                  throw 8192 <? len (Marshal (json_binding_snapshot (scd_Binding c))) with store_ErrCorrupt ;;
                  let stamp := FormatRFC3339Nano now in
                  do l' <- insert_deletion (mkDeletionRow ("stop_" +:+ id) w (mkDeletionOrigin connection (Some (pv_id p)) fingerprint hash token) (scd_Target c) (scd_Binding c)
                    DeletionAccepted ResultPending "awaiting_worker" stamp stamp 0) l ;;
                  Ok (mkStorageOperation ("stop_" +:+ id) "accepted" "pending" "awaiting_worker" now now, l')
              end
          end
      end
  end.
End Admission.
