(* ===== verification/StorageEvictionProps.v ===== *)
(** * Evictions take only what is idle, and no more than needed

    What [QueueStorageEvictions] adds to the deletions of a host, and what a
    manager's request adds. *)

From S2P Require Import Prelude GoStrings GoTime Identifiers Problems GoSha256 GoJson Canonical DomainRecords Operations ControlOps Provider ProviderResources Admission Scheduler Cleanup HostStorage StoreTx CacheLedger StorageDeletion CacheLedgerProps StorageAccount StorageAccountProps StorageEviction.
#[local] Open Scope string_scope.
#[local] Open Scope list_scope.
#[local] Open Scope Z_scope.
#[local] Open Scope bool_scope.

(** A deletion takes an object the latest observation saw, idle, unreferenced,
    and not being deleted. *)
Record evicts (container_known : StorageScope -> string -> bool) (s : StorageScope) (w : string) (o : storageObservation) (l : ledger) (d : deletion_row) : Prop := mkEvicts {
  ed_workspace : dl_workspace d = w;
  ed_status : dl_status d = DeletionAccepted /\ dl_result d = ResultPending;
  ed_scope : tg_Scope (dl_target d) = s;
  ed_action : tg_Action (dl_target d) = EvictCache \/ tg_Action (dl_target d) = EvictImage;
  ed_eligible : storageEligible container_known (dl_target d) l = Ok true;
  ed_seen : exists x, x ∈ ob_objects o /\ identity x = (tg_Class (dl_target d), tg_ID (dl_target d)) /\ so_Labels x = tg_Labels (dl_target d) /\ so_SizeKnown x = true /\ so_References x = 0;
  ed_settled : forall d', d' ∈ lg_deletions l -> same_target_object (dl_target d') (dl_target d) = true -> open_deletion d' = false }.
Definition target_identity (d : deletion_row) : StorageKind * string := (tg_Class (dl_target d), tg_ID (dl_target d)).
Definition need_after (charges : gmap string Z) (before : list deletion_row) (n : eviction_need) : eviction_need :=
  fold_left (fun n d => freed charges (tg_Class (dl_target d)) (tg_ID (dl_target d)) n) before n.

(** ** Candidates *)
Lemma candidates_elem s l item : item ∈ eviction_candidates s l ->
  (exists g, g ∈ lg_generations l /\ idle_generation s l g = true /\ ec_class item = KindVolume /\ ec_id item = gr_volume g) \/
  (exists i, i ∈ lg_images l /\ idle_image s l i = true /\ ec_class item = KindImage /\ ec_id item = im_image i).
Proof.
  unfold eviction_candidates. intros H. assert (item ∈ merge_sort candidate_le _) as Hm by (eapply elem_of_sublist; [exact H|apply sublist_take]).
  rewrite merge_sort_Permutation in Hm. apply elem_of_app in Hm as [(g & -> & [Hg Hi]%filter_elem)%list_elem_of_fmap|(i & -> & [Hi Hd]%filter_elem)%list_elem_of_fmap]; [left|right]; eauto.
Qed.
Lemma candidate_eligible container_known s l item t :
  item ∈ eviction_candidates s l -> StorageTarget_Valid t = true -> tg_Scope t = s -> tg_Class t = ec_class item -> tg_ID t = ec_id item ->
  tg_Action t = (if ec_class item ==? KindImage then EvictImage else EvictCache) -> storageEligible container_known t l = Ok true.
Proof.
  intros Hin Hv Hs Hc Hid Ha. unfold storageEligible. rewrite Hv. cbn [negb]. destruct (candidates_elem _ _ _ Hin) as [(g & Hg & Hi & Ec & Ei)|(i & Hi & Hd & Ec & Ei)]; rewrite Ec in Ha; cbn in Ha; rewrite Ha; f_equal; apply existsb_exists.
  - exists g. split; [by apply list_elem_of_In|]. unfold idle_generation in Hi. unfold evictable. rewrite !andb_true_iff in Hi. destruct Hi as [[[Hsc Hst] Hph] Hp]. unfold in_scope in Hsc.
    rewrite Hs, Hid, Ei, Hsc, Hst, Hph, Hp. by rewrite bool_decide_eq_true_2.
  - exists i. split; [by apply list_elem_of_In|]. unfold idle_image in Hd. unfold image_evictable. rewrite !andb_true_iff in Hd. destruct Hd as [[[Hsc Hst] _] Hp]. unfold image_in_scope in Hsc.
    rewrite Hs, Hid, Ei, Hsc, Hst, Hp. by rewrite bool_decide_eq_true_2.
Qed.

(** ** The queue *)
Lemma fit_Some s w o l item t : fit s w o l item = Some t ->
  exists x, x ∈ ob_objects o /\ identity x = (ec_class item, ec_id item) /\ so_SizeKnown x = true /\ so_References x = 0 /\ t = eviction_target s item x /\ StorageTarget_Valid t = true /\
    existsb (deletion_settles s (ec_class item) (ec_id item) (ob_seq o)) (lg_deletions l) = false.
Proof.
  unfold fit, object_named. destruct (List.find _ _) as [x|] eqn:E; [|done]. apply List.find_some in E as [Hx [Hk Hi]%andb_true_iff]. apply bool_decide_eq_true in Hk, Hi.
  destruct (_ || _) eqn:Eb; [done|]. cbv zeta. destruct (StorageTarget_Valid _) eqn:Ev; [|done]. intros [= <-]. rewrite !orb_false_iff in Eb. destruct Eb as [[[[Hs Hr] _] _] Hd].
  exists x. split; [apply list_elem_of_In; exact (proj2 (in_rev _ _) Hx)|]. split; [unfold identity; congruence|]. split; [by apply negb_false_iff|]. split; [apply negb_false_iff in Hr; lia|]. done.
Qed.

Lemma not_settled s class id seq ds d : existsb (deletion_settles s class id seq) ds = false -> d ∈ ds -> tg_Scope (dl_target d) = s -> target_identity d = (class, id) -> open_deletion d = false.
Proof.
  intros H Hd Hs [= Hc Hi]. rewrite <- not_true_iff_false, existsb_exists in H. destruct (open_deletion d) eqn:E; [|done]. exfalso. apply H. exists d. split; [by apply list_elem_of_In|].
  unfold deletion_settles. by rewrite E, Hs, Hc, Hi, (bool_decide_eq_true_2 (s = s)), (bool_decide_eq_true_2 (class = class)), (bool_decide_eq_true_2 (id = id)).
Qed.
(** The queue extended by [queued] from [n], when [prior] was queued before. *)
Record queue_spec (container_known : StorageScope -> string -> bool) (s : StorageScope) (w : string) (o : storageObservation) (charges : gmap string Z) (l : ledger)
    (n : eviction_need) (prior queued : list deletion_row) : Prop := mkQueueSpec {
  qs_evicts : Forall (evicts container_known s w o l) queued;
  qs_distinct : NoDup (map target_identity (prior ++ queued));
  qs_reasons : forall before d after, queued = before ++ d :: after -> eviction_reason (need_after charges before n) (tg_Class (dl_target d)) = Some (dl_reason d) }.
Lemma queue_evictions_Ok container_known s w connection binding o charges now l items : forall ids n prior l',
  queue_evictions s w connection binding o charges now items ids n (with_deletions l (lg_deletions l ++ prior) (lg_leases l)) = Ok l' ->
  (forall item, item ∈ items -> item ∈ eviction_candidates s l) -> NoDup (map target_identity prior) -> Forall (evicts container_known s w o l) prior ->
  exists queued, l' = with_deletions l (lg_deletions l ++ prior ++ queued) (lg_leases l) /\ queue_spec container_known s w o charges l n prior queued.
Proof.
  induction items as [|item items IH]; intros ids n prior l' H Hin Hnd Hprior.
  - injection H as <-. exists []. rewrite app_nil_r. split; [done|]. split; [constructor|by rewrite app_nil_r|]. by intros [] ? ? ?.
  - cbn [queue_evictions] in H. destruct (satisfied n).
    { injection H as <-. exists []. rewrite app_nil_r. split; [done|]. split; [constructor|by rewrite app_nil_r|]. by intros [] ? ? ?. }
    assert (forall x, x ∈ items -> x ∈ eviction_candidates s l) as Hin' by set_solver.
    destruct (eviction_reason n (ec_class item)) as [reason|] eqn:Er; [|by eapply IH]. destruct (fit _ _ _ _ item) as [t|] eqn:Ef; [|by eapply IH].
    destruct (4096 <? _) in H; [done|]. cbv zeta in H. set (row := mkDeletionRow _ _ _ _ _ _ _ _ _ _ _) in H. destruct (insert_deletion row _) as [l1|] eqn:Ei; [|done]. cbn [result_bind] in H.
    apply insert_deletion_Ok in Ei as [-> _]. apply fit_Some in Ef as (x & Hx & Hid & Hk & Hr & -> & Hv & Hd). cbn [lg_deletions lg_leases with_deletions] in *.
    assert (forall d, d ∈ lg_deletions l \/ d ∈ prior -> tg_Scope (dl_target d) = s -> target_identity d = (ec_class item, ec_id item) -> open_deletion d = false) as Hopen.
    { intros d Hdd. eapply not_settled; [exact Hd|]. apply elem_of_app. done. }
    assert (evicts container_known s w o l row) as Hrow.
    { split; try done.
      - cbn. case_bool_decide; auto.
      - cbn. apply (candidate_eligible _ s l item); [by apply Hin; left|done..].
      - exists x. done.
      - intros d Hdl [[Hsc Hcl]%andb_true_iff Hii]%andb_true_iff. apply bool_decide_eq_true in Hsc, Hcl, Hii. apply Hopen; [by left|done|]. unfold target_identity. by rewrite Hcl, Hii. }
    rewrite <- app_assoc in H. destruct (IH _ _ (prior ++ [row]) _ H Hin') as (queued & -> & [Q1 Q2 Q3]).
    + rewrite map_app. apply NoDup_app. split; [done|]. split; [|apply NoDup_singleton]. intros k (d & -> & Hdp)%list_elem_of_fmap Ed%list_elem_of_singleton.
      rewrite Forall_forall in Hprior. destruct (Hprior d Hdp) as [_ [Ha _] Hs _ _ _ _]. assert (open_deletion d = false) as Ho by (apply Hopen; [by right|done|exact Ed]). unfold open_deletion in Ho. by rewrite Ha in Ho.
    + apply Forall_app. split; [done|by constructor].
    + exists (row :: queued). rewrite <- app_assoc in *. split; [done|]. split; [by constructor|done|]. intros before d after E. destruct before as [|b before]; injection E as <- E; [by subst|]. cbn. by eapply Q3.
Qed.

Section Theorems.
Context (container_known : StorageScope -> string -> bool) (connection_budgets : StorageScope -> list Budget).

(** C9: a host is relieved only of idle objects, and only as
    far as needed. Queueing evictions changes nothing but the deletions, and
    adds deletions of distinct objects only; each is of an object of this
    host that is eligible for eviction (a finished generation or a loaded
    image that no live pin holds), that the fresh latest scan saw under these
    labels with a known size and without references, and that was not already
    being deleted. And each is queued for the reason it records: taking the
    charges of the ones queued before it as freed, the host is still above its
    soft limit, or holds too many volumes or images. *)
Theorem evictions_minimal s w profile target enabled frozen ids now l x l' :
  QueueStorageEvictions connection_budgets s w profile target enabled frozen ids now l = Ok (x, l') ->
  exists queued, l' = with_deletions l (lg_deletions l ++ queued) (lg_leases l) /\
    (queued <> [] -> exists o c configured effective, latestStorageObservation s l = Ok o /\ fresh o now = true /\ storageChargeInTx s o w l = Ok c /\ sc_unknown c = false /\
      frozen = Ok configured /\ effectiveStorageBudget connection_budgets s configured = Ok effective /\
      Forall (evicts container_known s w o l) queued /\ NoDup (map target_identity queued) /\
      exists images, images <= count_where (application_image s) (ob_objects o) - ImageRetentionTarget /\
      forall before d after, queued = before ++ d :: after ->
        eviction_reason (need_after (sc_objects c) before (mkEvictionNeed (charged c - bg_SoftBytes effective) (count_where cache_volume (ob_objects o) - cacheVolumeLimit) images))
          (tg_Class (dl_target d)) = Some (dl_reason d)).
Proof.
  assert (forall l : ledger, l = with_deletions l (lg_deletions l ++ []) (lg_leases l)) as Hsame by (intros []; cbn; by rewrite app_nil_r).
  unfold QueueStorageEvictions. destruct (_ || _); [done|]. destruct target as [[t|]|]; [|done|done]. destruct (target_scope t <>? s); [done|]. destruct (VaultReference _) as [connection|]; [|done].
  destruct enabled; cbn [negb]; [|intros [= _ <-]; exists []; split; [apply Hsame|done]].
  destruct (latestStorageObservation s l) as [o|]; [|done]. cbn [result_bind]. destruct (fresh o now) eqn:Ef; [|done]. cbn [negb].
  destruct (storageChargeInTx s o w l) as [c|] eqn:Ec; [|done]. cbn [result_bind]. destruct (sc_unknown c) eqn:Eu; [done|]. destruct frozen as [configured|]; [|done]. cbn [result_bind].
  destruct (effectiveStorageBudget connection_budgets s configured) as [effective|] eqn:Eb; [|done]. cbn [result_bind]. cbv zeta. set (volumes := count_where cache_volume _ - _). set (over := count_where (application_image s) _ - _).
  set (images := if 0 <? over then _ else _). destruct (_ && _ && _); [intros [= _ <-]; exists []; split; [apply Hsame|done]|].
  destruct (2048 <? _); [done|]. destruct (8192 <? _); [done|]. destruct (queue_evictions _ _ _ _ _ _ _ _ _ _ _) as [l1|] eqn:Eq; [|done]. cbn [result_bind]. intros [= _ <-].
  rewrite (Hsame l) in Eq at 2. apply (queue_evictions_Ok container_known) in Eq as (queued & -> & [Q1 Q2 Q3]); [|done|apply NoDup_nil_2|constructor]. exists queued. split; [done|].
  intros _. exists o, c, configured, effective. do 6 (split; [done|]). split; [done|]. split; [done|]. exists images. split; [|done].
  subst images. unfold scheduled_images. destruct (0 <? over); lia.
Qed.
End Theorems.
