(* ===== verification/StorageView.v ===== *)
(** * The storage a manager sees

    [internal/hoststorage/view.go], the projections of
    [store/sqlite/storage_view.go] and [ConnectionStorage] of
    [storage_account.go]: what is shown of a host's storage, bounded, and with
    the state of its budget. The rows of retention deadlines are a parameter. *)

From S2P Require Import Prelude GoStrings GoTime Identifiers Problems DomainRecords Provider ProviderResources Admission Scheduler Cleanup HostStorage StoreTx CacheLedger StorageDeletion StorageAccount StorageEviction.
#[local] Open Scope string_scope.
#[local] Open Scope list_scope.
#[local] Open Scope Z_scope.
#[local] Open Scope bool_scope.

Record WorkspaceReference := mkWorkspaceReference { wr_WorkspaceID : string; wr_ReferencedBytes : Z }.
Record CacheTotals := mkCacheTotals { cx_GenerationCount : Z; cx_ChargedBytes : Z; cx_LivePinCount : Z }.
Record RetentionItem := mkRetentionItem { ri_JobID : string; ri_AttemptID : string; ri_DueAt : Time; ri_Status : string; ri_OperationID : string; ri_Pending : bool }.
Record BudgetView := mkBudgetView { bv_Configured : Budget; bv_Effective : Budget; bv_ReservedBytes : Z; bv_ChargedBytes : Z; bv_State : string }.
Record StorageView := mkStorageView {
  vw_SchemaVersion : Z; vw_ResourceID : string; vw_ConnectionRevision : Z; vw_ObservedAt : option Time; vw_Reason : string; vw_ScanState : string; vw_Precision : string;
  vw_Machine : MachineTotals; vw_Workspaces : list WorkspaceReference; vw_OtherWorkspacesReferencedBytes : Z; vw_Cache : CacheTotals; vw_Retention : list RetentionItem;
  vw_Orphans : list StorageOrphan; vw_Foreign : ForeignCounts; vw_Budget : BudgetView; vw_Truncated : bool }.

(** ** Projections *)
Definition no_budget : Budget := mkBudget 0 0.
(** The view of a charge, as [storageChargeInTx] fills it. *)
Definition charge_view (s : StorageScope) (o : storageObservation) (caller : string) (c : storageCharge) : StorageView :=
  let complete := negb (ob_seq o =? 0) && (ob_state o ==? "complete") in
  mkStorageView 1 ("resource_" +:+ sp_MachineID s) 0 (if complete then Some (ob_at o) else None)
    (if negb (ob_seq o =? 0) && ValidReason (ob_reason o) then ob_reason o else "") (if ob_seq o =? 0 then "unknown" else ob_state o) "upper_bound"
    (sc_machine c) [mkWorkspaceReference caller (sc_references c)] 0 (mkCacheTotals (sc_generations c) (mx_CacheBytes (sc_machine c)) (sc_live_pins c)) [] []
    (if complete then ob_foreign o else mkForeignCounts 0 0 0) (mkBudgetView no_budget no_budget (sc_reserved c) (charged c) "") false.
Definition other_pins (s : StorageScope) (caller : string) (l : ledger) : result error Z :=
  do cache <- sql_sum (map (fun p => hk_Bytes (pn_key p)) (List.filter (fun p => (key_scope (pn_key p) ==? s) && (ca_WorkspaceID (pn_attempt p) <>? caller) && live_pin p) (lg_pins l))) ;;
  do images <- sql_sum (map (fun p => ik_ArchiveBytes (ipn_key p)) (List.filter (fun p => (image_scope (ipn_key p) ==? s) && (ca_WorkspaceID (ipn_attempt p) <>? caller) && live_image_pin p) (lg_image_pins l))) ;;
  add_parts 0 [cache; images].
(** A deadline as the query answers it: job, attempt, due time, status and
    operation; at most 33 rows, the earliest first. *)
Record deadline_row := mkDeadlineRow { dd_job : string; dd_attempt : string; dd_due_ms : Z; dd_status : string; dd_operation : string }.
Fixpoint retention_items (now : Time) (rows : list deadline_row) : result error (list RetentionItem) :=
  match rows with
  | [] => Ok []
  | r :: rows' =>
      throw dd_due_ms r <=? 0 with store_ErrCorrupt ;;
      do items <- retention_items now rows' ;;
      Ok (mkRetentionItem (dd_job r) (dd_attempt r) (of_millis (dd_due_ms r)) (dd_status r) (dd_operation r) ((dd_due_ms r <=? UnixMilli now) && (dd_status r <>? "succeeded")) :: items)
  end.
Definition with_extras (other : Z) (orphans : list StorageOrphan) (retention : list RetentionItem) (truncated : bool) (v : StorageView) : StorageView :=
  mkStorageView (vw_SchemaVersion v) (vw_ResourceID v) (vw_ConnectionRevision v) (vw_ObservedAt v) (vw_Reason v) (vw_ScanState v) (vw_Precision v) (vw_Machine v) (vw_Workspaces v)
    other (vw_Cache v) retention orphans (vw_Foreign v) (vw_Budget v) truncated.
Definition with_budget (revision : Z) (configured effective : Budget) (state : string) (v : StorageView) : StorageView :=
  mkStorageView (vw_SchemaVersion v) (vw_ResourceID v) revision (vw_ObservedAt v) (vw_Reason v) (vw_ScanState v) (vw_Precision v) (vw_Machine v) (vw_Workspaces v)
    (vw_OtherWorkspacesReferencedBytes v) (vw_Cache v) (vw_Retention v) (vw_Orphans v) (vw_Foreign v)
    (mkBudgetView configured effective (bv_ReservedBytes (vw_Budget v)) (bv_ChargedBytes (vw_Budget v)) state) (vw_Truncated v).

Section View.
Context (container_known : StorageScope -> string -> bool) (connection_budgets : StorageScope -> list Budget) (deadlines : StorageScope -> string -> Time -> list deadline_row).
Definition projectStorageExtras (s : StorageScope) (o : storageObservation) (caller : string) (now : Time) (l : ledger) (v : StorageView) : result error StorageView :=
  do other <- other_pins s caller l ;;
  do orphans <- projectStorageOrphans container_known s o caller l ;;
  let rows := take 33 (deadlines s caller now) in
  do items <- retention_items now rows ;;
  Ok (with_extras other orphans.1 (take 32 items) (orphans.2 || (32 <? Z.of_nat (length items))) v).
Definition budget_state (o : storageObservation) (now : Time) (c : storageCharge) (effective : Budget) : string :=
  if (ob_state o ==? "complete") && negb (ScanFreshness <? time_Sub now (ob_at o)) && negb (sc_unknown c) then
    if bg_HardBytes effective <=? charged c then "hard_refusal" else if bg_SoftBytes effective <=? charged c then "above_soft" else "below_soft"
  else "unknown".

(** The connection as it is loaded: provider, authentication, whether it has a
    profile, revision and its own budget. *)
Record managed_connection := mkManagedConnection {
  mc_ProviderType : string; mc_Authentication : string; mc_profile : bool; mc_Revision : Z; mc_StorageBudget : option Budget }.
Definition ConnectionStorage (w : string) (actor : option error) (record : result error managed_connection) (target : result error (option frozenCacheTarget)) : txn ledger StorageView := fun now l =>
  match actor with
  | Some e => Err e
  | None =>
      do r <- record ;;
      throw (mc_ProviderType r <>? "ssh") || (mc_Authentication r <>? "verified") || negb (mc_profile r) with storage_ErrUnverified ;;
      do found <- target ;;
      match found with
      | None => Err storage_ErrUnverified
      | Some t =>
          let s := target_scope t in
          do o <- latestStorageObservation s l ;;
          do c <- storageChargeInTx s o w l ;;
          let configured := default DefaultBudget (mc_StorageBudget r) in
          do effective <- effectiveStorageBudget connection_budgets s configured ;;
          do v <- projectStorageExtras s o w now l (charge_view s o w c) ;;
          Ok (with_budget (mc_Revision r) configured effective (budget_state o now c effective) v, l)
      end
  end.
End View.

(** ** A view is bounded *)
Lemma project_orphans_bounded container_known s seq caller l objects acc r truncated :
  project_orphans container_known s seq caller l objects acc = Ok (r, truncated) -> (length acc <= 64)%nat -> (length r <= 64)%nat.
Proof.
  revert acc. induction objects as [|o objects IH]; intros acc; cbn [project_orphans]; [by intros [= <- _]|]. destruct (storageKnownObject _ _ _ _ _ _) as [known|]; [|done]. cbn [result_bind].
  destruct known; [apply IH|]. cbv zeta. destruct (_ && _ && _); [apply IH|]. destruct (64 <=? _) eqn:E; [by intros [= <- _]|]. intros H _. apply (IH _ H). rewrite length_app. cbn. lia.
Qed.
(** What a view lists of a host is at most 64 orphans and 32 deadlines, and it
    belongs to the caller's workspace. *)
Lemma ConnectionStorage_bounded container_known connection_budgets deadlines w actor record target now l v l' :
  ConnectionStorage container_known connection_budgets deadlines w actor record target now l = Ok (v, l') ->
  l' = l /\ (length (vw_Orphans v) <= 64)%nat /\ (length (vw_Retention v) <= 32)%nat /\ map wr_WorkspaceID (vw_Workspaces v) = [w].
Proof.
  unfold ConnectionStorage. destruct actor; [done|]. destruct record as [r|]; [|done]. cbn [result_bind]. destruct (_ || _); [done|]. destruct target as [[t|]|]; [|done|done]. cbn [result_bind]. cbv zeta.
  destruct (latestStorageObservation _ l) as [o|]; [|done]. cbn [result_bind]. destruct (storageChargeInTx _ o w l) as [c|]; [|done]. cbn [result_bind].
  destruct (effectiveStorageBudget _ _ _) as [effective|]; [|done]. cbn [result_bind]. unfold projectStorageExtras. destruct (other_pins _ w l) as [other|]; [|done]. cbn [result_bind].
  unfold projectStorageOrphans. match goal with |- context [if ?b then Ok ([], false) else ?p] => destruct (if b then Ok ([], false) else p) as [[orphans truncated]|] eqn:E; [|done] end. cbn [result_bind].
  destruct (retention_items _ _) as [items|]; [|done]. cbn [result_bind]. intros [= <- <-]. cbn. split; [done|]. split; [|split; [|done]].
  - destruct (ob_state o <>? "complete"); [injection E as <- _; cbn; lia|]. eapply project_orphans_bounded; [exact E|cbn; lia].
  - rewrite length_take. lia.
Qed.
