(* ===== verification/StoreScenario.v ===== *)
(** * Played histories of the store

    Concrete histories of the cache ledger: content is pinned, written,
    found missing and written again; and content is written, verified,
    released and evicted while another attempt asks for it. Then one host that
    fills up: a scan, an admission against its budget, the content that is
    written, a second scan whose charge is computed, and the eviction of what
    has become idle; and an image that is loaded, lost and loaded again. *)

From S2P Require Import Prelude GoStrings GoTime Identifiers Problems GoSha256 GoJson DomainRecords Attempts Operations ControlOps Provider ProviderResources Admission Scheduler Cleanup HostStorage StoreTx CacheLedger StorageDeletion CacheLedgerProps HostImages HostImageProps StorageAccount StorageAccountProps StorageEviction StorageEvictionProps.
#[local] Open Scope string_scope.
#[local] Open Scope list_scope.
#[local] Open Scope Z_scope.
#[local] Open Scope bool_scope.

Definition within_budget : StorageScope -> CacheAttempt -> Time -> ledger -> option error := fun _ _ _ _ => None.
Definition none_known : StorageScope -> string -> bool := fun _ _ => false.
Definition run_txn (q : ledger_request) : txn ledger (option StorageWork) := ledger_txn within_budget none_known q.
Definition commit_txn (wall : Time) (q : ledger_request) (s : store ledger) := transact Commits wall (run_txn q) s.
Fixpoint commit_all (wall : Time) (qs : list ledger_request) (s : store ledger) : store ledger :=
  match qs with [] => s | q :: qs' => commit_all wall qs' (commit_txn wall q s).2 end.
Lemma pair_snd {A B} (p : A * B) a : p.1 = a -> p = (a, p.2).
Proof. by destruct p; cbn; intros ->. Qed.
Lemma commit_all_run wall qs s :
  ledger_run within_budget none_known s qs (commit_all wall qs s).
Proof.
  revert s. induction qs as [|q qs IH]; intros s; cbn [commit_all]; [constructor|].
  apply (ledger_run_step _ _ Commits wall q s (commit_txn wall q s).1 (commit_txn wall q s).2); [apply (pair_snd (commit_txn wall q s)); done|apply IH].
Qed.
(** A named state is what its definition says. *)
Lemma committed p wall q s x :
  p = commit_txn wall q s -> p.1 = x -> transact Commits wall (ledger_txn within_budget none_known q) s = (x, p.2).
Proof. intros -> H. by apply pair_snd. Qed.
Lemma ran s' wall qs s : s' = commit_all wall qs s -> ledger_run within_budget none_known s qs s'.
Proof. intros ->. apply commit_all_run. Qed.

Definition host_a : CacheAttempt := mkCacheAttempt "workspace" "job" "attempt-a".
Definition host_b : CacheAttempt := mkCacheAttempt "workspace" "job" "attempt-b".
Definition host_target : frozenCacheTarget := mkFrozenCacheTarget "runtime" (Digest "machine") (Digest "engine").
Definition host_key : CacheKey := mkCacheKey "runtime" (Digest "machine") (Digest "engine") (Digest "bundle") 10.
Definition host_refs : list FrozenObject := [mkFrozenObject "bundle" (mkObjectMetadata "object" "workspace" 10 (Digest "bundle"))].
Definition host_empty : store ledger := mkStore 0 (mkLedger [host_a; host_b] [(host_a, false)] [] [] [] [] [] [] [] [] [] [] [] [] []).
Definition host_day : Time := 20000 * 86400 * Second.
Definition digits_1 : string := "11111111111111111111111111111111".
Definition digits_2 : string := "22222222222222222222222222222222".
Definition sees (kind : ObservationKind) (id : string) : CacheObservation :=
  let g := mkGeneration host_key ("hcgen_" +:+ id) ("relay-cache-" +:+ id) ("hcop_" +:+ id) host_a CacheClaimed WriterIntent 0 0 0 0 0 in
  mkCacheObservation (gn_ID g) (gn_VolumeName g) (gn_OperationID g) host_key kind (list_to_map (Generation_Labels g)) (Digest "bundle") 10 true.

Lemma host_empty_ok : ledger_ok (so_tables host_empty).
Proof. split; apply NoDup_nil_2. Qed.

(** ** Written, missing, written again *)
Definition claimed_once := commit_all host_day [LPin host_a (Some host_target) host_refs; LClaim host_a host_key digits_1 digits_1] host_empty.
Definition begun_once := commit_txn host_day (LBeginWrite host_a ("hcgen_" +:+ digits_1) digits_1) claimed_once.
Definition between_writes : list ledger_request := [LFinishWrite host_a ("hcgen_" +:+ digits_1); LRetire (sees ObservedMissing digits_1); LClaim host_a host_key digits_2 digits_2].
Definition claimed_again := commit_all host_day between_writes begun_once.2.
Definition begun_again := commit_txn host_day (LBeginWrite host_a ("hcgen_" +:+ digits_2) digits_2) claimed_again.
Definition some_row : gen_row := mkGenRow "" host_key "" "" host_a CacheRetired WriterFinished "" "" "" "" "".
Definition row_at (i : nat) : gen_row := default some_row (lg_generations (so_tables claimed_again) !! i).

#[local] Strategy expand [claimed_once begun_once claimed_again begun_again].
Lemma exclusive_writer_witness :
  begun_once.1 = Ok None /\ begun_again.1 = Ok None /\ active (row_at 0) = false /\ exists q, q ∈ between_writes /\ ends_writer ("hcgen_" +:+ digits_1) q.
Proof.
  assert (begun_once.1 = Ok None) as H1 by (vm_compute; reflexivity).
  assert (begun_again.1 = Ok None) as H2 by (vm_compute; reflexivity).
  split; [exact H1|]. split; [exact H2|].
  assert (ledger_ok (so_tables claimed_once)) as Hok by exact (ledger_run_ok _ _ _ _ _ (ran _ host_day _ host_empty eq_refl) host_empty_ok).
  assert (lg_generations (so_tables claimed_again) !! 0%nat = Some (row_at 0)) as R1 by (vm_compute; reflexivity).
  assert (lg_generations (so_tables claimed_again) !! 1%nat = Some (row_at 1)) as R2 by (vm_compute; reflexivity).
  assert (gr_id (row_at 0) = "hcgen_" +:+ digits_1) as I1 by (vm_compute; reflexivity).
  assert (gr_id (row_at 1) = "hcgen_" +:+ digits_2) as I2 by (vm_compute; reflexivity).
  assert (gr_key (row_at 0) = gr_key (row_at 1)) as K by (vm_compute; reflexivity).
  destruct (exclusive_writer within_budget none_known Commits host_day host_a ("hcgen_" +:+ digits_1) digits_1 None claimed_once begun_once.2 between_writes claimed_again
    Commits host_day host_a ("hcgen_" +:+ digits_2) digits_2 None begun_again.2
    (row_at 0) (row_at 1) Hok (committed begun_once _ _ _ _ eq_refl H1) (ran claimed_again host_day between_writes begun_once.2 eq_refl) (committed begun_again _ _ _ _ eq_refl H2)
    (list_elem_of_lookup_2 _ _ _ R1) I1 (list_elem_of_lookup_2 _ _ _ R2) I2 K)
    as (_ & Hna & _ & Hq).
  split; [exact Hna|exact Hq].
Defined.

(** ** Evicted while another attempt asks for the content *)
Definition evict_target : StorageTarget :=
  mkStorageTarget (key_scope host_key) KindVolume ("relay-cache-" +:+ digits_1) {[installation_label := "runtime"]} EvictCache.
Definition evict_row : deletion_row :=
  mkDeletionRow "deletion" "workspace" (mkDeletionOrigin "connection" None (Digest "fingerprint") (Digest "key") "system") evict_target (mkBindingSnapshot (mkProviderBinding "fixture" "fake" "one") "account" "") DeletionAccepted ResultPending
    "soft_limit_lru" (FormatRFC3339Nano host_day) (FormatRFC3339Nano host_day) 0.
Definition evict_ready := commit_all host_day
  [LPin host_a (Some host_target) host_refs; LClaim host_a host_key digits_1 digits_1; LBeginWrite host_a ("hcgen_" +:+ digits_1) digits_1;
   LVerify (sees ObservedComplete digits_1); LReleaseLocal host_a; LAdmitDeletion evict_row] host_empty.
Definition evict_claimed := commit_txn host_day (LClaimDeletion Minute (Digest "fence")) evict_ready.
Definition evict_work : StorageWork :=
  mkStorageWork (mkCleanupLease "workspace" "deletion" 1 (Digest "fence") (host_day + Minute)) (dl_binding evict_row) evict_target "pending".
Definition evict_begun := commit_txn host_day (LBeginDeletion evict_work) evict_claimed.2.
Definition evict_end := commit_all host_day [LPin host_b (Some host_target) host_refs] evict_begun.2.

#[local] Strategy expand [evict_ready evict_claimed evict_begun evict_end].
Lemma evict_unpinned_witness :
  evict_claimed.1 = Ok (Some evict_work) /\ evict_begun.1 = Ok None /\
  exists g, g ∈ lg_generations (so_tables evict_end) /\ gr_volume g = "relay-cache-" +:+ digits_1 /\ storageContentFenced (gr_key g) (so_tables evict_end) = true.
Proof.
  assert (evict_claimed.1 = Ok (Some evict_work)) as H1 by (vm_compute; reflexivity).
  assert (evict_begun.1 = Ok None) as H2 by (vm_compute; reflexivity).
  split; [exact H1|]. split; [exact H2|].
  assert (ledger_ok (so_tables evict_ready)) as Hok by exact (ledger_run_ok _ _ _ _ _ (ran _ host_day _ host_empty eq_refl) host_empty_ok).
  pose proof (committed evict_claimed host_day (LClaimDeletion Minute (Digest "fence")) evict_ready _ (eq_refl evict_claimed) H1) as C1.
  pose proof (committed evict_begun host_day (LBeginDeletion evict_work) evict_claimed.2 _ (eq_refl evict_begun) H2) as C2.
  pose proof (ran evict_end host_day [LPin host_b (Some host_target) host_refs] evict_begun.2 (eq_refl evict_end)) as C3.
  destruct (evict_unpinned within_budget none_known Commits host_day Minute (Digest "fence") evict_work evict_ready evict_claimed.2 [] evict_claimed.2 Commits host_day None evict_begun.2 _ evict_end
    Hok C1 (ledger_run_nil _ _ _) C2 eq_refl
    C3) as (g & Hg & Hv & _ & Hopen).
  exists g. split; [exact Hg|]. split; [exact Hv|].
  assert (exists d, lg_deletions (so_tables evict_end) !! 0%nat = Some d /\ dl_operation d = "deletion" /\ open_deletion d = true) as (d & Hd & Ho & Hop).
  { eexists. split; [vm_compute; reflexivity|]. split; vm_compute; reflexivity. }
  exact (proj1 (Hopen d (list_elem_of_lookup_2 _ _ _ Hd) Ho Hop)).
Defined.

Definition host_scope : StorageScope := target_scope host_target.
Definition no_containers : StorageScope -> list string := fun _ => [].
Definition no_budgets : StorageScope -> list Budget := fun _ => [].
Definition one_budget : StorageScope -> list Budget := fun _ => [DefaultBudget].
Definition state_after {A} (f : txn ledger A) (now : Time) (l : ledger) : ledger := match f now l with Ok (_, l') => l' | Err _ => l end.

(** ** Admission *)
Definition host_scanned : ledger := state_after (RecordStorageScan no_containers (mkStorageScan host_scope host_day [] (mkForeignCounts 0 0 0))) host_day (so_tables host_empty).
Definition host_admit : txn ledger unit := storageAdmission one_budget host_a (Ok (Some host_target)) (Ok DefaultBudget) host_refs ["1"; "2"].
Definition host_admitted : ledger := state_after host_admit (host_day + Second) host_scanned.
#[local] Strategy expand [host_scanned host_admitted].
Lemma admission_within_budget_witness :
  host_admit (host_day + Second) host_scanned = Ok (tt, host_admitted) /\
  exists c', freshStorageCharge host_scope (host_day + Second) host_admitted = Ok c' /\ charged c' < DefaultHardBytes.
Proof.
  assert (host_admit (host_day + Second) host_scanned = Ok (tt, host_admitted)) as H by (vm_compute; reflexivity). split; [exact H|].
  destruct (admission_within_budget one_budget host_a host_target (Ok DefaultBudget) host_refs ["1"; "2"] (host_day + Second) host_scanned tt host_admitted H)
    as (configured & effective & c & Hf & He & Hc & Hnext).
  injection Hf as <-. assert (effectiveStorageBudget one_budget (target_scope host_target) DefaultBudget = Ok DefaultBudget) as He' by (vm_compute; reflexivity).
  rewrite He' in He. injection He as <-.
  assert (freshStorageCharge (target_scope host_target) (host_day + Second) host_scanned = Ok (mkStorageCharge (mkMachineTotals 0 0 0 0 0) 0 ∅ false 0 0 0)) as Hc' by (vm_compute; reflexivity).
  rewrite Hc' in Hc. injection Hc as <-. destruct Hnext as (c' & H1 & _ & H2 & _); [vm_compute; discriminate|]. exists c'. split; [exact H1|exact H2].
Defined.

(** ** Two objects on the host *)
Definition seen_volume : StorageObject :=
  mkStorageObject KindVolume ("relay-cache-" +:+ digits_1) 10 true
    (list_to_map (Generation_Labels (mkGeneration host_key ("hcgen_" +:+ digits_1) ("relay-cache-" +:+ digits_1) ("hcop_" +:+ digits_1) host_a CacheClaimed WriterIntent 0 0 0 0 0))) false 0.
Definition seen_container : StorageObject :=
  mkStorageObject KindContainer (Digest "container") (5 * 2 ^ 30) true
    (list_to_map [(LabelPrefix +:+ "installation", "runtime"); (LabelPrefix +:+ "attempt", "attempt-a")]) true 0.
Definition host_written : ledger :=
  state_after (run_txn (LVerify (sees ObservedComplete digits_1))) (host_day + Second) (state_after (run_txn (LBeginWrite host_a ("hcgen_" +:+ digits_1) digits_1)) (host_day + Second)
    (state_after (run_txn (LClaim host_a host_key digits_1 digits_1)) (host_day + Second) (state_after (run_txn (LPin host_a (Some host_target) host_refs)) (host_day + Second) host_admitted))).
Definition host_rescanned : ledger :=
  state_after (RecordStorageScan no_containers (mkStorageScan host_scope (host_day + 2 * Second) [seen_volume; seen_container] (mkForeignCounts 0 0 0))) (host_day + 2 * Second) host_written.
Definition host_observation : storageObservation := match latestStorageObservation host_scope host_rescanned with Ok o => o | Err _ => no_observation end.
Definition no_charge : storageCharge := mkStorageCharge (mkMachineTotals 0 0 0 0 0) 0 ∅ true 0 0 0.
Definition host_charge : storageCharge := match storageChargeInTx host_scope host_observation "" host_rescanned with Ok c => c | Err _ => no_charge end.
#[local] Strategy expand [host_written host_rescanned host_observation host_charge].
Lemma charge_covers_witness :
  charged host_charge = 5 * 2 ^ 30 + 10 /\ observed_bytes (accounted_objects host_scope host_observation host_rescanned) <= charged host_charge.
Proof.
  assert (charged host_charge = 5 * 2 ^ 30 + 10) as Hv by (vm_compute; reflexivity). split; [exact Hv|].
  assert (storageChargeInTx host_scope host_observation "" host_rescanned = Ok host_charge) as Hc by (vm_compute; reflexivity).
  assert (NoDup (map identity (ob_objects host_observation))) as Hn by (apply (bool_decide_eq_true_1 _); vm_compute; reflexivity).
  assert (Forall (fun x => StorageObject_Valid x = true) (ob_objects host_observation)) as Hf by (apply (bool_decide_eq_true_1 _); vm_compute; reflexivity).
  destruct (charge_covers host_scope host_observation "" host_rescanned host_charge Hc Hn Hf) as (_ & H & _). exact H.
Defined.

(** ** Eviction *)
Definition host_profile : Profile :=
  mkProfile (mkProviderBinding "fixture" "fake" "one") "account" "vault:con_one" CostOperatorManaged false 3600 1024 1024 "" 1 0 ("resource_" +:+ Digest "machine").
Definition host_idle : ledger := state_after (run_txn (LReleaseLocal host_a)) (host_day + 3 * Second) host_rescanned.
Definition host_evict : txn ledger unit := QueueStorageEvictions no_budgets host_scope "workspace" host_profile (Ok (Some host_target)) true (Ok (mkBudget 1 DefaultHardBytes)) [digits_1].
Definition host_evicted : ledger := state_after host_evict (host_day + 3 * Second) host_idle.
#[local] Strategy expand [host_idle host_evicted].
Lemma evictions_minimal_witness :
  host_evict (host_day + 3 * Second) host_idle = Ok (tt, host_evicted) /\
  exists d, lg_deletions host_evicted = [d] /\ tg_ID (dl_target d) = "relay-cache-" +:+ digits_1 /\ storageEligible none_known (dl_target d) host_idle = Ok true.
Proof.
  assert (host_evict (host_day + 3 * Second) host_idle = Ok (tt, host_evicted)) as H by (vm_compute; reflexivity). split; [exact H|].
  destruct (evictions_minimal none_known no_budgets host_scope "workspace" host_profile (Ok (Some host_target)) true (Ok (mkBudget 1 DefaultHardBytes)) [digits_1] (host_day + 3 * Second)
    host_idle tt host_evicted H) as (queued & E & Hq).
  assert (lg_deletions host_evicted = queued) as Hd. { rewrite E. assert (lg_deletions host_idle = []) as -> by (vm_compute; reflexivity). reflexivity. }
  assert (map (fun d => tg_ID (dl_target d)) (lg_deletions host_evicted) = ["relay-cache-" +:+ digits_1]) as Hm by (vm_compute; reflexivity).
  destruct (lg_deletions host_evicted) as [|d [|]] eqn:H1; [discriminate| |discriminate]. injection Hm as H2.
  exists d. split; [reflexivity|]. split; [exact H2|]. subst queued.
  destruct Hq as (o & c & configured & effective & _ & _ & _ & _ & _ & _ & Hev & _); [discriminate|]. apply Forall_cons in Hev as [Hev _]. exact (ed_eligible _ _ _ _ _ _ Hev).
Defined.

(** ** An image loaded twice *)
Definition image_refs : list FrozenObject := [mkFrozenObject "application_image" (mkObjectMetadata "archive" "workspace" 100 (Digest "archive"))].
Definition archive_key : ImageKey := mkImageKey "runtime" (Digest "machine") (Digest "engine") (Digest "archive") 100.
Definition image_owner : ImageOwner := mkImageOwner host_a "archive".
Definition image_id : string := "sha256:" +:+ Digest "image".
Definition generation_of (id : string) (state : ImageState) : ImageGeneration :=
  mkImageGeneration ("img_" +:+ id) archive_key image_owner ("imload_" +:+ id) (if state ==? StatePreparing then "" else image_id) (if state ==? StatePreparing then [] else [image_id]) state
    host_day (host_day + prepare_lease) zero_time zero_time.
Definition play_image (wall : Time) (q : image_request) (s : store ledger) := transact Commits wall (image_txn within_budget q) s.
Fixpoint play_images (wall : Time) (qs : list image_request) (s : store ledger) : store ledger :=
  match qs with [] => s | q :: qs' => play_images wall qs' (play_image wall q s).2 end.
Lemma play_images_run wall qs s : image_run within_budget s qs (play_images wall qs s).
Proof.
  revert s. induction qs as [|q qs IH]; intros s; cbn [play_images]; [constructor|].
  apply (image_run_step _ Commits wall q s (play_image wall q s).1 (play_image wall q s).2); [apply (pair_snd (play_image wall q s)); done|apply IH].
Qed.
Lemma played p wall q s x : p = play_image wall q s -> p.1 = x -> transact Commits wall (image_txn within_budget q) s = (x, p.2).
Proof. intros -> H. by apply pair_snd. Qed.
Lemma played_all s' wall qs s : s' = play_images wall qs s -> image_run within_budget s qs s'.
Proof. intros ->. apply play_images_run. Qed.
Definition image_claimed := play_images host_day [IPin host_a (Ok (Some host_target)) image_refs; IClaim image_owner archive_key digits_1 digits_1] host_empty.
Definition image_begun := play_image host_day (IBegin (generation_of digits_1 StatePreparing) image_id [image_id] "1") image_claimed.
Definition between_loads : list image_request :=
  [IUnknown (generation_of digits_1 StateLoading); IReady (generation_of digits_1 StateUnknown); IRetireMissing (generation_of digits_1 StateReady); IClaim image_owner archive_key digits_2 digits_2].
Definition image_reclaimed := play_images host_day between_loads image_begun.2.
Definition image_rebegun := play_image host_day (IBegin (generation_of digits_2 StatePreparing) image_id [image_id] "2") image_reclaimed.
Definition some_image : image_row := mkImageRow "" archive_key image_owner "" "" None StateRetired "" "" "" "" "" "" "".
Definition image_at (i : nat) : image_row := default some_image (lg_images (so_tables image_reclaimed) !! i).
#[local] Strategy expand [image_claimed image_begun image_reclaimed image_rebegun].
Lemma image_load_once_witness :
  image_begun.1 = Ok true /\ image_rebegun.1 = Ok true /\ im_state (image_at 0) = StateRetired /\ exists q, q ∈ between_loads /\ confirms ("img_" +:+ digits_1) q.
Proof.
  assert (image_begun.1 = Ok true) as H1 by (vm_compute; reflexivity).
  assert (image_rebegun.1 = Ok true) as H2 by (vm_compute; reflexivity).
  split; [exact H1|]. split; [exact H2|].
  assert (images_ok (so_tables host_empty)) as H0 by (split; apply NoDup_nil_2).
  assert (images_ok (so_tables image_claimed)) as Hok by exact (image_run_ok _ _ _ _ (played_all image_claimed host_day _ host_empty eq_refl) H0).
  assert (lg_images (so_tables image_reclaimed) !! 0%nat = Some (image_at 0)) as R1 by (vm_compute; reflexivity).
  assert (lg_images (so_tables image_reclaimed) !! 1%nat = Some (image_at 1)) as R2 by (vm_compute; reflexivity).
  assert (im_id (image_at 0) = "img_" +:+ digits_1) as I1 by (vm_compute; reflexivity).
  assert (im_id (image_at 1) = "img_" +:+ digits_2) as I2 by (vm_compute; reflexivity).
  assert (im_key (image_at 0) = im_key (image_at 1)) as K by (vm_compute; reflexivity).
  destruct (image_load_once within_budget Commits host_day (generation_of digits_1 StatePreparing) image_id [image_id] "1" image_claimed image_begun.2 between_loads image_reclaimed
    Commits host_day (generation_of digits_2 StatePreparing) image_id [image_id] "2" image_rebegun.2 (image_at 0) (image_at 1) Hok
    (played image_begun _ _ _ _ eq_refl H1) (played_all image_reclaimed host_day between_loads image_begun.2 eq_refl) (played image_rebegun _ _ _ _ eq_refl H2)
    (list_elem_of_lookup_2 _ _ _ R1) I1 (list_elem_of_lookup_2 _ _ _ R2) I2 K) as (_ & Hs & Hq).
  split; [exact Hs|exact Hq].
Defined.

(** The lease of a writer is compared as text, in which a fraction of a second
    precedes the whole second: half a second state_after its lease has expired, a
    writer is still granted its load. *)
Definition late : Time := host_day + prepare_lease + 500 * Millisecond.
Example late_load_granted :
  expired_lease late (generation_of digits_1 StatePreparing) = true /\
  exists l', BeginImageLoad within_budget (generation_of digits_1 StatePreparing) image_id [image_id] "1" late (so_tables image_claimed) = Ok (true, l').
Proof. split; [vm_compute; reflexivity|]. eexists. vm_compute. reflexivity. Qed.
